(* ===== verification/_CoqProject ===== *)
-Q . S2P
Prelude.v
PyText.v
PyDict.v
PyBytes.v
PyJson.v
PyJsonFacts.v
PyDecimal.v
PyDecimalFacts.v
PyFloat.v
PySort.v
EventCodec.v
EventStore.v
EventStoreFacts.v
EventLog.v
ExecStateMachine.v
ExecStateMachineFacts.v
SecretsBoundary.v
ExchangeModels.v
ExchangeAdapter.v
MockExchange.v
Journal.v
Payload.v
OrderStates.v
OrderManager.v
OrderManagerFacts.v
OrderManagerSpec.v
PositionStates.v
PositionManager.v
PositionManagerFacts.v
PositionManagerSpec.v
PortfolioManager.v
PortfolioManagerFacts.v
PortfolioManagerSpec.v
Quantization.v
RiskManager.v
Config.v
ConfigSpec.v
RiskManagerSpec.v
Sizing.v
Execution.v
Construction.v
ConstructionSpec.v
Engine.v
TradingCycle.v
Accounting.v
SharedLog.v
EngineSpec.v
TradingCycleSpec.v
EngineRuns.v
EngineRestart.v
PyLines.v
RegistryLog.v
Registry.v
RegistrySpec.v
RegistryRuns.v
RegistryLineage.v
AlphaModels.v
Validation.v
Research.v
Bridge.v
BridgeSpec.v
BridgeFacts.v
ValidationSpec.v
ResearchSpec.v
ResearchRuns.v
SecretsBoundaryFacts.v
HyperliquidCodec.v
HyperliquidWire.v
HyperliquidMapping.v
Hyperliquid.v
HyperliquidSpec.v
HyperliquidOrders.v
HyperliquidRuns.v
Startup.v
App.v
AppSpec.v
AppRuns.v
Historical.v
HistoricalSpec.v
