(* ===== verification/Prelude.v ===== *)
(** * Turtle execution engine: verification library

    A model of the Turtle trading engine (the Python packages under src/) and
    the theorems that make its core correct. Every definition follows one
    function, method or class of the source under the source's own name, on
    every branch, errors included; PROJECT.json gives the file and lines of each.

    ** The program and its parts

    A process holds one engine over one durable event log. The log is append
    only and idempotent (src/event_store/). Four managers keep their state in
    memory and rebuild it from the log when the process restarts: the execution
    state machine (src/execution_state_machine/), the order manager
    (src/order_manager/), the position manager (src/position_manager/) and the
    portfolio manager (src/portfolio_manager/). Mutations reach the venue through
    an exchange adapter (src/exchange_adapter/, src/hyperliquid_adapter/), which
    signs at a secrets boundary (src/secrets_boundary/). A trading cycle
    (src/trading_system/) asks the strategies for intents, sizes them, asks the
    risk manager (src/risk_manager/), and hands what was approved to the order
    manager. Accounting (src/app/runtime/accounting.py) books the venue's fills
    into the three managers. The composition root and the orchestration
    (src/composition_root/, src/orchestration/) wire and start all of this from a
    configuration (src/config/) and settings (src/app/runtime/); a worker, an HTTP
    service and a Telegram bot (src/app/) drive it and can stop it for good. The
    research side (src/alpha_engine/) turns market data into experiments that
    must be sealed, validated and decided on before the strategy that trades
    approved experiments (src/alpha_engine/execution_bridge/) may use them.

    ** Files, in the order they depend on each other

    - Python itself. [PyText], [PyDict], [PyBytes] (with SHA-256), [PyJson] and
      [PyJsonFacts], [PyDecimal] and [PyDecimalFacts], [PyFloat], [PySort],
      [PyLines] (with the module csv): the parts of the language and its standard
      library the source uses, executable, with their laws.
    - The event log. [EventCodec] (codec.py), [EventStore] and [EventStoreFacts]
      (types.py, store.py), [EventLog] (the interface the managers see).
    - The venue. [ExchangeModels], [ExchangeAdapter], [MockExchange];
      [HyperliquidCodec], [HyperliquidWire], [HyperliquidMapping],
      [Hyperliquid], with the theorems in [HyperliquidSpec] and
      [HyperliquidOrders] and runs in [HyperliquidRuns]; [SecretsBoundary] and
      [SecretsBoundaryFacts].
    - The managers. [ExecStateMachine] with [ExecStateMachineFacts];
      [OrderStates], [OrderManager], [OrderManagerFacts], [OrderManagerSpec];
      [Journal] (what the next two share); [PositionStates], [PositionManager],
      [PositionManagerFacts], [PositionManagerSpec]; [PortfolioManager],
      [PortfolioManagerFacts], [PortfolioManagerSpec]; [Payload] reads and writes
      their event payloads.
    - From an intent to an order. [RiskManager], [RiskManagerSpec], [Sizing],
      [Quantization], [Execution], [Construction], [ConstructionSpec],
      [TradingCycle], [TradingCycleSpec].
    - The engine. [Config], [ConfigSpec], [Engine], [Accounting]; [SharedLog],
      [EngineSpec], [EngineRuns] and [EngineRestart] compose the components over
      one log; a concrete engine is at the end of [EngineRestart].
    - The process. [Startup], [App], [AppSpec], [AppRuns].
    - Research. [AlphaModels], [Validation], [ValidationSpec], [RegistryLog],
      [Registry], [RegistrySpec], [RegistryRuns], [RegistryLineage], [Research],
      [ResearchSpec], [ResearchRuns], [Bridge], [BridgeSpec],
      [BridgeFacts].
    - Historical data. [Historical] (the observations,
      their CSV series, the sources and the collection pipeline of
      src/alpha_engine/historical/) and [HistoricalSpec].

    ** How state and operations correspond

    An object is a [Record] of its attributes; a method takes the objects it
    touches and returns them with [Ok] a value or [Err] an exception class
    ([exn] below, one constructor per class the source raises): a method that
    fails half way returns the objects as the source leaves them. Python dicts
    are association lists in insertion order ([PyDict]) where the order shows,
    [gmap] otherwise; enums are inductive types with their values ([PyEnum]);
    decimals are a coefficient and an exponent with the context's rounding.
    What the process does over time is a step relation: an operation with its
    outcome, an event of another component or of the market, or a restart, which
    keeps the log and nothing else. The invariants are proved by induction over
    these runs.

    ** Interfaces

    [EventLog] (append, replay, look up a key: implemented by [StoreLog] on the
    file and by [MemLog], a list), [AdapterHooks] (what a concrete adapter
    transmits), [Exchange] and [Venue] (what the managers and the engine call),
    [Signing] (what revoking an adapter's key means), [HyperliquidVenue] (what
    the venue answers), [Journaled] (a state that is the fold of its events),
    [RegistryStorage] (the registry's log), [PyEnum], and [keeper] in
    [EngineSpec]: the operations of the engine that keep an invariant, which each
    component proves of its own, so that the engine's theorems follow.

    ** What the theorems show

    - Durability: appending refines an idempotent append-only list
      ([EventLog.append_refines]), a torn write loses only itself
      ([EventStoreFacts.reopen_after_crash]), opening always ends.
    - Restart: each manager, the registry, and the whole engine are rebuilt from
      the log after any run, failures included ([EngineRestart.engine_restart],
      [OrderManagerSpec.restart_rebuilds_orders], [RegistrySpec.registry_restart],
      [HyperliquidMapping.mapping_is_the_log]); the registry also after an append
      that failed with bytes on disk, up to the edit of that append.
    - Orders: written ahead of the venue, a fill counted once, closed orders
      final, a mutation never transmitted twice.
    - Money: the two ledgers balance, positions total their legs, failed
      operations change nothing, sizes lose the budget, quantization never
      worsens an order.
    - Decisions: the risk manager's precedence; a cycle executes what was
      approved and nothing else; every intent has one fate.
    - Authority: nothing trades without an experiment governance stands behind;
      decisions are recorded as made; a revoked key signs and sends nothing; the
      emergency stop revokes whatever fails and is final across restarts; inputs
      without credentials change nothing.
    - The venue: what is sent is recorded first and carries the venue's index of
      its symbol, an order is returned only as the venue's answer says, what is
      reported as the engine's is the engine's, cancelled means confirmed.
    - Research: validation counts and audits are exact, selection keeps one
      signal per undisputed symbol, an experiment can be brought to an end
      except in one case.
    - Historical data: a merge adds the first row of each new key, keeps what it
      held, reports what contradicts it and survives a refusing disk; what is
      written is read back; paging ends with every settlement; a collection
      fetches exactly the missing days.
    - Configuration: one that loads is well-formed; one that is refused is
      refused with exactly the requirements it does not meet.

    Where the source does not do what it says, the model follows the source and
    an example or theorem shows the difference; PROJECT.json lists them.

    ** Fuel and bounds

    Recursion over data is structural. Where the source loops on a condition the
    fuel is a measure the theorems prove sufficient: the length of the file for a
    scan, the number of records for a walk over lineage, the number of attempts
    for a retry; paging counts its turns in binary, so that it runs ([turns] in
    [Historical]), and ends before they do. Decimals round to 28 digits; the ledgers' theorems hold while
    amounts are multiples of [10^-k] and the volume moved stays below 28 digits,
    and say so. Ages in seconds are binary64 numbers; the staleness test is exact
    for ages below [2^33] seconds.

    ** Parameters

    Code that is not under src/ or has no definite answer is an argument: the
    clocks, the outcome of each write, [fsync] and lock, [datetime.fromisoformat],
    the parse of a TOML file, the seeded generator of bootstrap, the texts
    [repr] gives, HTTP transport and the venue's answers, msgpack, keccak and the
    wallet's signatures, the reading of zip and lz4 archives. What is assumed of them is a named hypothesis of the
    theorem that needs it, with a witness on a concrete function.

    ** Not modelled, and why

    - Threads and locks: the source serialises each object's calls; a run is the
      sequence of calls in the order they take the lock.
    - NaN, infinite and signed-zero decimals and floats; settings that parse to
      one are marked [OutsideModel].
    - Message texts, logging, the texts of reports, metrics and replies; deep
      copies of JSON values; guards against attribute writes, pickling and
      printing of secrets, the zeroing of buffers.
    - The Hyperliquid adapter writes to the log through a handle of its own; its
      theorems hold for runs of the adapter over the log with other components'
      appends in between, and are not composed with the order manager's in one
      engine run.
    - Processes and pages around the modelled core: src/app/main.py,
      src/app/api/app.py, the notifications, observability, reports, dashboards,
      research campaigns, scripts, deployment and tests; of the historical
      sources the listing [list_dates], a loop on the remote service alone. *)

From Stdlib Require Import ssreflect ZArith Lia Ascii.
From stdpp Require Import base strings numbers gmap sets list.

Set Default Goal Selector "!".

Declare Scope turtle_scope.
Delimit Scope turtle_scope with turtle.
#[global] Open Scope string_scope.
#[global] Open Scope list_scope.
#[global] Open Scope Z_scope.
#[global] Open Scope turtle_scope.

(** ** Automation

    [turtle] collects the lemmas that close the common side conditions,
    [turtle_rw] the equations that normalise look-ups and encodings. *)

Create HintDb turtle.
Create Rewrite HintDb turtle_rw.

(** ** Python exceptions

    Every exception class the modelled modules raise, by the name the source
    gives it; messages are not modelled. *)

Inductive exn :=
  (* builtins and the modules decimal and csv *)
  | ValueError | TypeError | KeyError | OSError | StructError
  | AttributeError | InvalidOperation | DivisionByZero | UnicodeDecodeError | JSONDecodeError
  | OverflowError | IndexError | RuntimeError | UnicodeEncodeError | CsvError
  (* event_store/errors.py *)
  | MalformedEventError | CorruptEventStoreError | EventStoreLockError | EventStoreClosedError
  (* execution_state_machine/errors.py *)
  | IllegalTransitionError | UnknownTriggerError | ReplayIntegrityError
  (* exchange_adapter/errors.py *)
  | ExchangeAdapterError | ExchangeConnectionError | ExchangeTimeoutError
  | ExchangeAuthenticationError | RateLimitExceededError | OrderUnknownError
  | ExchangeRejectedOrderError | StaleSnapshotError | SequenceGapError
  | ReconciliationMismatchError
  (* order_manager/errors.py *)
  | OrderNotFoundError | IllegalOrderTransitionError | OrderStateInconsistencyError
  (* position_manager/errors.py *)
  | PositionNotFoundError | IllegalPositionTransitionError | PositionStateInconsistencyError
  (* portfolio_manager/errors.py *)
  | InsufficientFundsError | InsufficientMarginError | AccountingInvariantError
  (* risk_manager/errors.py *)
  | RiskManagerConfigurationError
  (* trading_system: execution, sizing, strategy *)
  | ExecutionError | SizingError | StrategyError
  (* composition_root/errors.py *)
  | UnsupportedEnvironmentError | UnsupportedExchangeError | MissingDeploymentSettingError
  (* alpha_engine/*/errors.py *)
  | RegistryError | DuplicateExperimentError | ExperimentNotFoundError | AlreadySealedError | InvalidSpecificationError
  | ExperimentNotSealedError | EvidenceAlreadyAttachedError | IllegalLifecycleTransitionError | LifecycleGuardError
  | GovernanceRequiredError | MalformedRegistryLogError | RegistryLockError
  | GovernanceError | DegradationError | PortfolioError | CandidateError | ExecutionBridgeError | FeatureError
  | HistoricalDataError | ValidationError | WatchlistError | DataSourceError | ResearchError
  (* config/errors.py *)
  | ConfigFileError | ConfigValidationError
  (* secrets_boundary/errors.py, inside the boundary *)
  | SecretsConfigurationError | SecretsStartupError | UnknownSecretReferenceError | PayloadTooLargeError
  | SecretRevokedError
  (* app/runtime/state.py; and the HTTP errors of app/api/security.py *)
  | EmergencyStopActive | ServiceUnavailable | Unauthorized
  (* no exception: a value the model has no place for *)
  | OutsideModel.

#[global] Instance exn_eq_dec : EqDecision exn.
Proof. solve_decision. Defined.

(** ** Fallible and stateful code *)

Inductive result (A : Type) := Ok (a : A) | Err (e : exn).
Arguments Ok {A} a.
Arguments Err {A} e.

#[global] Instance result_eq_dec {A} `{EqDecision A} : EqDecision (result A).
Proof. solve_decision. Defined.

#[global] Instance result_ret : MRet result := fun A => Ok.
#[global] Instance result_bind : MBind result := fun A B f m =>
  match m with Ok a => f a | Err e => Err e end.

Definition of_option {A} (e : exn) (o : option A) : result A :=
  match o with Some a => Ok a | None => Err e end.

(** [if not b: raise e] *)
Definition require (b : bool) (e : exn) : result unit := if b then Ok tt else Err e.

#[global] Instance Ok_inj {A} : Inj (=) (=) (@Ok A).
Proof. by intros a b [=]. Qed.

Definition is_ok {A} (r : result A) : bool := match r with Ok _ => true | Err _ => false end.

Fixpoint fold_result {A B} (f : B -> A -> result B) (b : B) (l : list A) : result B :=
  match l with
  | [] => Ok b
  | x :: l => match f b x with Ok b' => fold_result f b' l | Err e => Err e end
  end.

Lemma fold_result_app {A B} (f : B -> A -> result B) b l1 l2 :
  fold_result f b (l1 ++ l2) =
  match fold_result f b l1 with Ok b' => fold_result f b' l2 | Err e => Err e end.
Proof. revert b; induction l1 as [|x l1 IH]; intros b; simpl; [done|]. by destruct (f b x). Qed.

Lemma fold_result_snoc {A B} (f : B -> A -> result B) b b' l x :
  fold_result f b l = Ok b' -> fold_result f b (l ++ [x]) = f b' x.
Proof. intros H. rewrite fold_result_app H /=. by destruct (f b' x). Qed.

Lemma find_app {A} (p : A -> bool) l1 l2 :
  List.find p (l1 ++ l2) = match List.find p l1 with Some x => Some x | None => List.find p l2 end.
Proof. induction l1 as [|x l1 IH]; [done|]. cbn. by destruct (p x). Qed.

(** A Python method that mutates its object and may raise: the state reached
    when the exception is raised is kept. *)
Definition M (S A : Type) : Type := S -> S * result A.

#[global] Instance M_ret S : MRet (M S) := fun A a s => (s, Ok a).
#[global] Instance M_bind S : MBind (M S) := fun A B f m s =>
  match m s with
  | (s', Ok a) => f a s'
  | (s', Err e) => (s', Err e)
  end.

Section monad.
Context {S : Type}.
Definition get : M S S := fun s => (s, Ok s).
Definition put (s : S) : M S unit := fun _ => (s, Ok tt).
Definition raise {A} (e : exn) : M S A := fun s => (s, Err e).
Definition lift {A} (r : result A) : M S A := fun s => (s, r).
Definition modify (f : S -> S) : M S unit := fun s => (f s, Ok tt).

(** [try: m except E as exc: h(exc); raise] for the exceptions [p] selects. *)
Definition on_exception {A} (p : exn -> bool) (m : M S A) (h : M S unit) : M S A := fun s =>
  match m s with
  | (s', Err e) => if p e then match h s' with
                               | (s'', Ok _) => (s'', Err e)
                               | (s'', Err e') => (s'', Err e')
                               end
                   else (s', Err e)
  | r => r
  end.

Lemma run_bind {A B} (m : M S A) (f : A -> M S B) s :
  (m ≫= f) s = match m s with (s', Ok a) => f a s' | (s', Err e) => (s', Err e) end.
Proof. reflexivity. Qed.

Lemma run_lift {A B} (r : result A) (f : A -> M S B) s :
  (lift r ≫= f) s = match r with Ok a => f a s | Err e => (s, Err e) end.
Proof. by destruct r. Qed.

Lemma run_modify {B} (g : S -> S) (f : unit -> M S B) s : (modify g ≫= f) s = f tt (g s).
Proof. reflexivity. Qed.

Lemma run_get {A} (f : S -> M S A) s : (get ≫= f) s = f s s.
Proof. reflexivity. Qed.

(** A method of an object this one holds, run on that part of the state. *)
Definition zoom {T A} (view : S -> T) (upd : T -> S -> S) (m : M T A) : M S A := fun s =>
  let '(t, r) := m (view s) in (upd t s, r).

(** [try: m except E: return h]. *)
Definition catch {A} (p : exn -> bool) (m : M S A) (h : M S A) : M S A := fun s =>
  match m s with
  | (s', Err e) => if p e then h s' else (s', Err e)
  | r => r
  end.

(** [for x in l: f(x)] *)
Fixpoint for_each {A} (f : A -> M S unit) (l : list A) : M S unit := fun s =>
  match l with
  | [] => (s, Ok tt)
  | x :: l => match f x s with (s', Ok _) => for_each f l s' | (s', Err e) => (s', Err e) end
  end.

(** Partial-correctness triples over both outcomes. *)
Definition triple {A} (P : S -> Prop) (m : M S A) (Q : result A -> S -> Prop) : Prop :=
  forall s, P s -> Q (m s).2 (m s).1.

Lemma triple_bind {A B} P (m : M S A) (f : A -> M S B) Q R :
  triple P m (fun r s => match r with Ok a => Q a s | Err e => R (Err e) s end) ->
  (forall a, triple (Q a) (f a) R) ->
  triple P (m ≫= f) R.
Proof.
  intros Hm Hf s Hs. specialize (Hm s Hs). unfold mbind, M_bind.
  destruct (m s) as [s' [a|e]]; simpl in *; [by apply Hf|done].
Qed.

Lemma triple_weaken {A} (P P' : S -> Prop) (m : M S A) (Q Q' : result A -> S -> Prop) :
  triple P' m Q' -> (forall s, P s -> P' s) -> (forall r s, Q' r s -> Q r s) -> triple P m Q.
Proof. intros H HP HQ s Hs. apply HQ, H, HP, Hs. Qed.
End monad.

(** The invariant [I] holds after the method, whether it returns or raises. *)
Definition preserves {S A} (I : S -> Prop) (m : M S A) : Prop := triple I m (fun _ => I).

Section preserves.
Context {S : Type} (I : S -> Prop).

Lemma preserves_bind {A B} (m : M S A) (f : A -> M S B) :
  preserves I m -> (forall a, preserves I (f a)) -> preserves I (m ≫= f).
Proof.
  intros Hm Hf. apply (triple_bind _ _ _ (fun _ => I)); [|done].
  eapply triple_weaken; [exact Hm|done|]. by intros [] ?.
Qed.
Lemma preserves_ret {A} (a : A) : preserves I (mret a).
Proof. by intros s Hs. Qed.
Lemma preserves_get : preserves I get.
Proof. by intros s Hs. Qed.
Lemma preserves_raise {A} e : preserves I (@raise S A e).
Proof. by intros s Hs. Qed.
Lemma preserves_lift {A} (r : result A) : preserves I (lift r).
Proof. by intros s Hs. Qed.
Lemma preserves_modify f : (forall s, I s -> I (f s)) -> preserves I (modify f).
Proof. intros H s Hs. by apply H. Qed.
Lemma preserves_on_exception {A} p (m : M S A) h :
  preserves I m -> preserves I h -> preserves I (on_exception p m h).
Proof.
  intros Hm Hh s Hs. unfold on_exception. specialize (Hm s Hs).
  destruct (m s) as [s' [a|e]]; simpl in *; [done|].
  destruct (p e); [|done]. specialize (Hh s' Hm). by destruct (h s') as [s'' []].
Qed.
End preserves.

(** What holds of the state after a method, when the rest preserves it. *)
Lemma bind_fst {S X Y} (m : M S X) (f : X -> M S Y) (P : S -> Prop) s :
  P (m s).1 -> (forall x, preserves P (f x)) -> P ((m ≫= f) s).1.
Proof. intros Hm Hf. unfold mbind, M_bind. destruct (m s) as [s' [x|e]]; [by apply Hf|done]. Qed.

(** A run that returned passed through each of its calls. *)
Lemma bind_ok {S X Y} (m : M S X) (f : X -> M S Y) s s' y : (m ≫= f) s = (s', Ok y) ->
  exists s1 x, m s = (s1, Ok x) /\ f x s1 = (s', Ok y).
Proof. rewrite run_bind. destruct (m s) as [s1 [x|e]]; [|done]. intros E. by exists s1, x. Qed.

(** The method does the same on related states: equal results, related states. *)
Definition simulates {S A} (R : S -> S -> Prop) (m : M S A) : Prop :=
  forall a b, R a b -> (m a).2 = (m b).2 /\ R (m a).1 (m b).1.

Section simulates.
Context {S : Type} (R : S -> S -> Prop).

Lemma simulates_bind {A B} (m : M S A) (f : A -> M S B) :
  simulates R m -> (forall a, simulates R (f a)) -> simulates R (m ≫= f).
Proof.
  intros Hm Hf a b Hab. destruct (Hm a b Hab) as [H1 H2]. unfold mbind, M_bind.
  destruct (m a) as [a' [x|e]], (m b) as [b' [y|e']]; simpl in *; simplify_eq; [by apply Hf|done].
Qed.
Lemma simulates_ret {A} (x : A) : simulates R (mret x).
Proof. by intros a b H. Qed.
Lemma simulates_lift {A} (r : result A) : simulates R (lift r).
Proof. by intros a b H. Qed.
Lemma simulates_raise {A} e : simulates R (@raise S A e).
Proof. by intros a b H. Qed.
Lemma simulates_modify f : (forall a b, R a b -> R (f a) (f b)) -> simulates R (modify f).
Proof. intros H a b Hab. split; [done|by apply H]. Qed.
(** Reading the state, when the rest depends on what related states share. *)
Lemma simulates_get {A} (k : S -> M S A) :
  (forall s, simulates R (k s)) -> (forall a b, R a b -> k a = k b) -> simulates R (get ≫= k).
Proof. intros H1 H2 a b Hab. unfold mbind, M_bind, get. rewrite (H2 a b Hab). by apply H1. Qed.
Lemma simulates_if {A} (c : bool) (m m' : M S A) : simulates R m -> simulates R m' -> simulates R (if c then m else m').
Proof. by destruct c. Qed.
Lemma simulates_for_each {A} (f : A -> M S unit) l : (forall x, simulates R (f x)) -> simulates R (for_each f l).
Proof.
  intros Hf. induction l as [|x l IH]; intros a b Hab; [done|]. cbn [for_each].
  destruct (Hf x a b Hab) as [H1 H2].
  destruct (f x a) as [a' [u|e]], (f x b) as [b' [v|e']]; simpl in *; simplify_eq; [by apply IH|done].
Qed.
End simulates.

Lemma for_each_app {S A} (f : A -> M S unit) l1 l2 s :
  for_each f (l1 ++ l2) s =
  match for_each f l1 s with (s', Ok _) => for_each f l2 s' | (s', Err e) => (s', Err e) end.
Proof.
  revert s; induction l1 as [|x l1 IH]; intros s; [done|]. cbn [for_each app].
  by destruct (f x s) as [s' [u|e]].
Qed.

Lemma for_each_ext {S A} (f g : A -> M S unit) l s : (forall x s, f x s = g x s) -> for_each f l s = for_each g l s.
Proof. intros Hf. revert s. induction l as [|x l IH]; intros s; [done|]. cbn [for_each]. rewrite Hf. by destruct (g x s) as [s' [u|e]]. Qed.

Lemma for_each_snoc {S A} (f : A -> M S unit) l x s s1 :
  for_each f l s = (s1, Ok tt) ->
  for_each f (l ++ [x]) s = match f x s1 with (s', Ok _) => (s', Ok tt) | (s', Err e) => (s', Err e) end.
Proof. intros E. rewrite for_each_app E. reflexivity. Qed.

#[export] Hint Resolve simulates_ret simulates_lift simulates_raise : turtle.
#[export] Hint Resolve preserves_ret preserves_get preserves_raise preserves_lift : turtle.
