(* ===== verification/PyText.v ===== *)
(** * Python text: [str(int)], [int(str)], [len], [strip], [lower], [in]

    A Python [str] is a [string] whose characters are the code points 0..255;
    text outside that range is not modelled. *)

From Stdlib Require Import ssreflect ZArith Lia Ascii String.
From stdpp Require Import base strings numbers gmap sets list.
From S2P Require Import Prelude.

(** ** Strings *)

Definition slen (s : string) : Z := Z.of_nat (String.length s).

Lemma app_nil_r_s (s : string) : s +:+ "" = s.
Proof. induction s as [|c s IH]; [done|]. change (String c (s +:+ "") = String c s). by rewrite IH. Qed.

Lemma app_assoc_s (a b c : string) : (a +:+ b) +:+ c = a +:+ (b +:+ c).
Proof. induction a as [|x a IH]; [done|]. change (String x ((a +:+ b) +:+ c) = String x (a +:+ (b +:+ c))). by rewrite IH. Qed.

Lemma app_cons_s x (a b : string) : String x a +:+ b = String x (a +:+ b).
Proof. done. Qed.

Lemma app_nil_l_s (a : string) : "" +:+ a = a.
Proof. done. Qed.

Lemma app_inj_l_s (a b c : string) : a +:+ b = a +:+ c -> b = c.
Proof. induction a as [|x a IH]; [done|]. intros H; injection H as H. by apply IH. Qed.

Lemma length_app_s (a b : string) : String.length (a +:+ b) = (String.length a + String.length b)%nat.
Proof. induction a as [|x a IH]; [done|]. rewrite app_cons_s /=. by rewrite IH. Qed.

Lemma slen_app (a b : string) : slen (a +:+ b) = slen a + slen b.
Proof. unfold slen. rewrite length_app_s. lia. Qed.

Lemma slen_nonneg s : 0 <= slen s.
Proof. unfold slen. lia. Qed.

Lemma app_inj_length (a b c d : string) :
  String.length a = String.length c -> a +:+ b = c +:+ d -> a = c /\ b = d.
Proof.
  revert c; induction a as [|x a IH]; intros [|y c]; simpl; try done.
  intros [= Hl]. rewrite !app_cons_s. intros [= -> H].
  by destruct (IH c Hl H) as [-> ->].
Qed.

#[export] Hint Rewrite app_nil_r_s app_nil_l_s app_assoc_s app_cons_s : turtle_rw.

(** [all] characters satisfy [p]. *)
Fixpoint str_forall (p : ascii -> bool) (s : string) : bool :=
  match s with EmptyString => true | String c s => p c && str_forall p s end.

Lemma str_forall_app p a b : str_forall p (a +:+ b) = str_forall p a && str_forall p b.
Proof. induction a as [|x a IH]; [done|]. rewrite app_cons_s /= IH. by destruct (p x). Qed.

(** [str.isspace] on one code point. *)
Definition is_space (c : ascii) : bool :=
  let n := N_of_ascii c in
  ((9 <=? n) && (n <=? 13) || (28 <=? n) && (n <=? 32) || (n =? 133) || (n =? 160))%N.

(** [not s.strip()] *)
Definition blank (s : string) : bool := str_forall is_space s.

(** [c.lower()] on one code point of 0..255. *)
Definition lower_char (c : ascii) : ascii :=
  let n := N_of_ascii c in
  if ((65 <=? n) && (n <=? 90) || (192 <=? n) && (n <=? 222) && negb (n =? 215))%N
  then ascii_of_N (n + 32) else c.
Fixpoint lower (s : string) : string :=
  match s with EmptyString => EmptyString | String c s => String (lower_char c) (lower s) end.

(** [sub in s] *)
Fixpoint str_contains (sub s : string) : bool :=
  String.prefix sub s || match s with EmptyString => false | String _ s => str_contains sub s end.

(** [sep.join(l)] *)
Fixpoint join (sep : string) (l : list string) : string :=
  match l with
  | [] => ""
  | [x] => x
  | x :: l => x +:+ sep +:+ join sep l
  end.

(** [s[:n]] and [s[n:]] for [n >= 0]. *)
Fixpoint str_take (n : nat) (s : string) : string :=
  match n, s with S n, String c s => String c (str_take n s) | _, _ => "" end.
Fixpoint str_drop (n : nat) (s : string) : string :=
  match n, s with S n, String _ s => str_drop n s | _, _ => s end.

Lemma str_take_drop n s : str_take n s +:+ str_drop n s = s.
Proof. revert s; induction n as [|n IH]; intros [|c s]; try done. cbn. by rewrite app_cons_s IH. Qed.

Lemma str_take_length n s : (n <= String.length s)%nat -> String.length (str_take n s) = n.
Proof. revert s; induction n as [|n IH]; intros [|c s] H; simpl in *; try lia. by rewrite IH; [lia|]. Qed.

(** ** Decimal digits of an integer *)

Definition digit_char (d : Z) : ascii := ascii_of_N (48 + Z.to_N d).
Definition is_digit (c : ascii) : bool := ((48 <=? N_of_ascii c) && (N_of_ascii c <=? 57))%N.
Definition digit_val (c : ascii) : Z := Z.of_N (N_of_ascii c) - 48.

(** [str(n)] for [n >= 0]; the fuel is the bit length of [n]. *)
Fixpoint digits (fuel : nat) (n : Z) : string :=
  match fuel with
  | O => ""
  | S fuel => (if n <? 10 then "" else digits fuel (n / 10)) +:+ String (digit_char (n mod 10)) ""
  end.
Definition nat_str (n : Z) : string := digits (S (Z.to_nat (Z.log2 n))) n.

(** [str(z)] *)
Definition int_str (z : Z) : string := if z <? 0 then String "-" (nat_str (- z)) else nat_str z.

(** The value of a run of digits, [x] being the value of the digits before it. *)
Fixpoint digits_val (x : Z) (s : string) : Z :=
  match s with
  | EmptyString => x
  | String c s => digits_val (10 * x + digit_val c) s
  end.

(** The longest run of digits at the front, and the rest. *)
Fixpoint span_digits (s : string) : string * string :=
  match s with
  | EmptyString => ("", "")
  | String c s' => if is_digit c then let '(d, r) := span_digits s' in (String c d, r) else ("", s)
  end.

Definition no_digit_head (s : string) : Prop :=
  match s with EmptyString => True | String c _ => is_digit c = false end.

Lemma digits_val_app x a b : digits_val x (a +:+ b) = digits_val (digits_val x a) b.
Proof. revert x; induction a as [|c a IH]; intros x; [done|]. rewrite app_cons_s /=. apply IH. Qed.

Lemma digit_char_val d : 0 <= d < 10 -> digit_val (digit_char d) = d /\ is_digit (digit_char d) = true.
Proof.
  intros H. assert (d = 0 \/ d = 1 \/ d = 2 \/ d = 3 \/ d = 4 \/ d = 5 \/ d = 6 \/ d = 7 \/ d = 8 \/ d = 9) by lia.
  by destruct_or!; subst d; vm_compute.
Qed.

Lemma digits_spec fuel n : 0 <= n < 2 ^ Z.of_nat fuel -> (0 < fuel)%nat ->
  digits_val 0 (digits fuel n) = n /\ str_forall is_digit (digits fuel n) = true /\
  (n = 0 /\ slen (digits fuel n) = 1 \/
   0 < n /\ 10 ^ (slen (digits fuel n) - 1) <= n < 10 ^ slen (digits fuel n)) /\
  1 <= slen (digits fuel n).
Proof.
  revert n; induction fuel as [|fuel IH]; intros n Hn Hf; [lia|]. simpl.
  destruct (digit_char_val (n mod 10)) as [Hv Hd]; [apply Z.mod_pos_bound; lia|].
  destruct (Z.ltb_spec n 10) as [Hlt|Hge].
  - rewrite app_nil_l_s. cbn [digits_val str_forall]. rewrite Hv Hd Z.mod_small; [lia|].
    split_and!; try done. change (slen (String _ "")) with 1. simpl.
    destruct (decide (n = 0)); [by left|]. right. simpl. lia.
  - rewrite Nat2Z.inj_succ Z.pow_succ_r in Hn; [lia|].
    assert (0 < fuel)%nat. { destruct fuel; [simpl in Hn; lia|lia]. }
    assert (Hdm : n = 10 * (n / 10) + n mod 10) by (apply Z.div_mod; lia).
    assert (Hmb : 0 <= n mod 10 < 10) by (apply Z.mod_pos_bound; lia).
    destruct (IH (n / 10)) as (IHv & IHd & IHb & IHl).
    { assert (0 < 2 ^ Z.of_nat fuel) by (apply Z.pow_pos_nonneg; lia). lia. }
    { done. }
    rewrite digits_val_app str_forall_app slen_app IHv IHd. cbn [digits_val str_forall].
    rewrite Hv Hd. change (slen (String _ "")) with 1.
    split_and!; [lia|done| |lia].
    right. destruct IHb as [[? _]|[? [Hlo Hhi]]]; [lia|]. split; [lia|].
    set (m := slen (digits fuel (n / 10))) in *.
    replace (m + 1 - 1) with (Z.succ (m - 1)) by lia.
    rewrite Z.pow_succ_r; [lia|]. rewrite Z.add_1_r Z.pow_succ_r; lia.
Qed.

Lemma nat_str_fuel n : 0 <= n -> 0 <= n < 2 ^ Z.of_nat (S (Z.to_nat (Z.log2 n))).
Proof.
  intros H. split; [done|]. rewrite Nat2Z.inj_succ Z2Nat.id; [apply Z.log2_nonneg|].
  destruct (decide (n = 0)) as [->|]; [done|]. apply Z.log2_spec. lia.
Qed.

Lemma nat_str_val n : 0 <= n -> digits_val 0 (nat_str n) = n.
Proof. intros H. apply digits_spec; [by apply nat_str_fuel|lia]. Qed.

Lemma nat_str_digits n : 0 <= n -> str_forall is_digit (nat_str n) = true.
Proof. intros H. apply digits_spec; [by apply nat_str_fuel|lia]. Qed.

Lemma nat_str_len n : 0 <= n -> 1 <= slen (nat_str n).
Proof. intros H. apply (digits_spec _ n (nat_str_fuel n H)). lia. Qed.

Lemma nat_str_bounds n : 0 < n -> 10 ^ (slen (nat_str n) - 1) <= n < 10 ^ slen (nat_str n).
Proof.
  intros H. destruct (digits_spec _ n (nat_str_fuel n ltac:(lia)) ltac:(lia)) as (_ & _ & [[? _]|[_ ?]] & _); [lia|done].
Qed.

Lemma span_digits_app d r : str_forall is_digit d = true -> no_digit_head r ->
  span_digits (d +:+ r) = (d, r).
Proof.
  induction d as [|c d IH].
  - intros _. rewrite app_nil_l_s. destruct r as [|c r]; [done|]. simpl. by intros ->.
  - rewrite app_cons_s /=. intros [Hc Hd]%andb_true_iff Hr. by rewrite Hc IH.
Qed.

Lemma nat_str_nonempty n : 0 <= n -> exists c s, nat_str n = String c s /\ is_digit c = true.
Proof.
  intros H. pose proof (nat_str_len n H) as Hl. pose proof (nat_str_digits n H) as Hd.
  destruct (nat_str n) as [|c s]; [done|]. simpl in Hd. exists c, s.
  split; [done|]. by destruct (is_digit c).
Qed.

Lemma nat_str_inj n m : 0 <= n -> 0 <= m -> nat_str n = nat_str m -> n = m.
Proof. intros Hn Hm H. by rewrite -(nat_str_val n Hn) H nat_str_val. Qed.

Lemma int_str_inj z w : int_str z = int_str w -> z = w.
Proof.
  unfold int_str. destruct (Z.ltb_spec z 0), (Z.ltb_spec w 0); intros E.
  - injection E as E. apply nat_str_inj in E; lia.
  - destruct (nat_str_nonempty w ltac:(lia)) as (c & s & Hw & Hc). rewrite Hw in E.
    injection E as <- _. done.
  - destruct (nat_str_nonempty z ltac:(lia)) as (c & s & Hw & Hc). rewrite Hw in E.
    injection E as -> _. done.
  - by apply nat_str_inj in E.
Qed.

(** A colon ends a decimal number. *)
Lemma int_str_colon_inj n a c d : 0 <= n -> 0 <= c ->
  int_str n +:+ ":" +:+ a = int_str c +:+ ":" +:+ d -> n = c /\ a = d.
Proof.
  intros Hn Hc H. unfold int_str in H.
  rewrite (proj2 (Z.ltb_ge n 0)) // (proj2 (Z.ltb_ge c 0)) // in H.
  pose proof (f_equal span_digits H) as Hs.
  rewrite !span_digits_app in Hs; try by apply nat_str_digits. 1-2: done.
  injection Hs as Hd Hr. split; [by apply nat_str_inj|]. done.
Qed.

Example int_str_ex : map int_str [0; 7; 10; -305; 1234567890] = ["0"; "7"; "10"; "-305"; "1234567890"].
Proof. reflexivity. Qed.

(** ** Enumerations

    A Python [Enum] whose members have string values: [value] is
    [member.value], [of_value s] is [Enum(s)], which raises on an unknown
    value. *)

Class PyEnum (A : Type) := {
  enum_all : list A;
  enum_value : A -> string;
  enum_all_complete : forall a, a ∈ enum_all;
  enum_value_inj : forall a b, enum_value a = enum_value b -> a = b
}.

Definition enum_of_value {A} `{PyEnum A} (s : string) : option A :=
  List.find (fun a => bool_decide (enum_value a = s)) enum_all.

Lemma enum_of_value_value {A} `{PyEnum A} (a : A) : enum_of_value (enum_value a) = Some a.
Proof.
  unfold enum_of_value. destruct (List.find _ _) as [b|] eqn:E.
  - apply List.find_some in E as [_ E%bool_decide_eq_true]. f_equal. by apply enum_value_inj.
  - eapply List.find_none in E; [|apply list_elem_of_In, (enum_all_complete a)].
    by apply bool_decide_eq_false in E.
Qed.

Lemma enum_of_value_Some {A} `{PyEnum A} s (a : A) : enum_of_value s = Some a -> enum_value a = s.
Proof. intros [_ E%bool_decide_eq_true]%List.find_some. done. Qed.

(** Solves both obligations of a [PyEnum] instance given as a full list. *)
Ltac solve_enum :=
  first [ intros []; vm_compute; set_solver
        | intros [] []; vm_compute; first [done | intros E; discriminate E] ].
