(* ===== verification/PyDict.v ===== *)
(** * Python dictionaries with string keys

    A [dict] is its list of items in insertion order: assignment to an existing
    key keeps its place, a new key goes last, iteration follows the list. *)

From Stdlib Require Import ssreflect ZArith Lia.
From stdpp Require Import base strings numbers gmap sets list.
From S2P Require Import Prelude PyText.

Section pydict.
Context {V : Type}.
Implicit Types (d : list (string * V)) (k : string).

(** [d.get(k)] *)
Fixpoint dget k d : option V :=
  match d with
  | [] => None
  | (k', v) :: d => if String.eqb k k' then Some v else dget k d
  end.

(** [d[k] = v] *)
Fixpoint dset k (v : V) d : list (string * V) :=
  match d with
  | [] => [(k, v)]
  | (k', v') :: d => if String.eqb k k' then (k', v) :: d else (k', v') :: dset k v d
  end.

(** [d.pop(k, None)] *)
Definition dpop k d : list (string * V) := List.filter (fun p => negb (String.eqb k p.1)) d.

Definition dkeys d : list string := d.*1.
Definition dvalues d : list V := d.*2.

(** [k in d] *)
Definition din k d : bool := match dget k d with Some _ => true | None => false end.

(** [d.setdefault(k, v)]: the dictionary afterwards. *)
Definition dsetdefault k v d : list (string * V) := if din k d then d else dset k v d.

Lemma dget_dset_eq k v d : dget k (dset k v d) = Some v.
Proof.
  induction d as [|[k' v'] d IH]; csimpl; [by rewrite String.eqb_refl|].
  destruct (String.eqb k k') eqn:E; simpl; by rewrite E.
Qed.

Lemma dget_dset_ne k k' v d : k <> k' -> dget k (dset k' v d) = dget k d.
Proof.
  intros Hne. induction d as [|[k1 v1] d IH]; csimpl.
  - by rewrite (proj2 (String.eqb_neq k k') Hne).
  - destruct (String.eqb k' k1) eqn:E; simpl.
    + apply String.eqb_eq in E as <-. by rewrite (proj2 (String.eqb_neq k k') Hne).
    + by rewrite IH.
Qed.

Lemma dget_dset k k' v d : dget k (dset k' v d) = if String.eqb k k' then Some v else dget k d.
Proof.
  destruct (String.eqb k k') eqn:E.
  - apply String.eqb_eq in E as ->. apply dget_dset_eq.
  - apply dget_dset_ne. by apply String.eqb_neq.
Qed.

Lemma dget_elem k v d : dget k d = Some v -> (k, v) ∈ d.
Proof.
  induction d as [|[k' v'] d IH]; csimpl; [done|].
  destruct (String.eqb k k') eqn:E.
  - apply String.eqb_eq in E as <-. intros [= ->]. by left.
  - intros H. right. by apply IH.
Qed.

Lemma dget_None k d : dget k d = None <-> k ∉ dkeys d.
Proof.
  unfold dkeys. induction d as [|[k' v'] d IH]; csimpl.
  - split; [set_solver|done].
  - destruct (String.eqb k k') eqn:E.
    + apply String.eqb_eq in E as <-. split; [done|]. intros []. by left.
    + apply String.eqb_neq in E. rewrite IH not_elem_of_cons. naive_solver.
Qed.

Lemma dget_Some_key k v d : dget k d = Some v -> k ∈ dkeys d.
Proof. intros H. destruct (decide (k ∈ dkeys d)) as [|Hn]; [done|]. apply dget_None in Hn. congruence. Qed.

Lemma elem_dget k v d : NoDup (dkeys d) -> (k, v) ∈ d -> dget k d = Some v.
Proof.
  unfold dkeys. induction d as [|[k' v'] d IH]; csimpl; [by intros _ ?%elem_of_nil|].
  intros [Hk Hd]%NoDup_cons [[= <- <-]|H]%elem_of_cons; [by rewrite String.eqb_refl|].
  destruct (String.eqb k k') eqn:E; [|by apply IH].
  apply String.eqb_eq in E as <-. destruct Hk. by apply (list_elem_of_fmap_2 fst _ (k, v)).
Qed.

Lemma dset_keys k v d : dkeys (dset k v d) = if din k d then dkeys d else dkeys d ++ [k].
Proof.
  unfold dkeys, din. induction d as [|[k' v'] d IH]; csimpl; [done|].
  destruct (String.eqb k k') eqn:E; csimpl; [done|]. rewrite IH. by destruct (dget k d).
Qed.

Lemma din_spec k d : din k d = true <-> k ∈ dkeys d.
Proof.
  unfold din. destruct (dget k d) eqn:E.
  - split; [|done]. intros _. by eapply dget_Some_key.
  - apply dget_None in E. split; [done|]. intros ?. by destruct E.
Qed.

Lemma din_false k d : din k d = false <-> k ∉ dkeys d.
Proof. unfold din. rewrite -dget_None. by destruct (dget k d). Qed.

(** A new key goes to the end. *)
Lemma dset_fresh k v d : din k d = false -> dset k v d = d ++ [(k, v)].
Proof.
  unfold din. induction d as [|[k' v'] d IH]; [done|]. cbn. destruct (String.eqb k k'); [done|]. intros Hd. by rewrite IH.
Qed.

Lemma dset_NoDup k v d : NoDup (dkeys d) -> NoDup (dkeys (dset k v d)).
Proof.
  intros H. rewrite dset_keys. destruct (din k d) eqn:E; [done|].
  apply NoDup_app. split_and!; [done| |apply NoDup_singleton].
  intros x Hx ->%list_elem_of_singleton. apply din_spec in Hx. congruence.
Qed.

Lemma din_dset k k' v d : din k d = true -> din k (dset k' v d) = true.
Proof. unfold din. rewrite dget_dset. by destruct (String.eqb k k'). Qed.

(** A key already present keeps its position. *)
Lemma dset_keys_present k v d : k ∈ dkeys d -> dkeys (dset k v d) = dkeys d.
Proof. intros H%din_spec. by rewrite dset_keys H. Qed.

Lemma dset_id k v d : dget k d = Some v -> dset k v d = d.
Proof.
  induction d as [|[k' v'] d IH]; csimpl; [done|].
  destruct (String.eqb k k') eqn:E; [by intros [= ->]|]. intros H. by rewrite IH.
Qed.

Lemma dget_dpop k k' d : dget k (dpop k' d) = if String.eqb k k' then None else dget k d.
Proof.
  unfold dpop. induction d as [|[k1 v1] d IH]; csimpl; [by destruct (String.eqb k k')|].
  destruct (String.eqb k' k1) eqn:E; simpl.
  - apply String.eqb_eq in E as <-. rewrite IH. by destruct (String.eqb k k') eqn:E.
  - destruct (String.eqb k k1) eqn:E2; [|done].
    apply String.eqb_eq in E2 as <-. destruct (String.eqb k k') eqn:E3; [|done].
    apply String.eqb_eq in E3 as ->. by rewrite String.eqb_refl in E.
Qed.
End pydict.

#[export] Hint Rewrite @dget_dset_eq : turtle_rw.
