(* ===== verification/PyBytes.v ===== *)
(** * Bytes: [bytes], [struct] big-endian integers, ASCII text, SHA-256 *)

From Stdlib Require Import ssreflect ZArith Lia Ascii String Strings.Byte.
From stdpp Require Import base strings numbers gmap sets list.
From S2P Require Import Prelude PyText.
#[local] Open Scope Z_scope.

Notation bytes := (list Byte.byte).

#[global] Instance byte_eq_dec : EqDecision Byte.byte := Byte.byte_eq_dec.

Definition b2z (b : Byte.byte) : Z := Z.of_N (Byte.to_N b).
Definition z2b (z : Z) : Byte.byte :=
  match Byte.of_N (Z.to_N (z mod 256)) with Some b => b | None => Byte.x00 end.

Lemma b2z_bound b : 0 <= b2z b < 256.
Proof. unfold b2z. pose proof (Byte.to_N_bounded b). lia. Qed.

Lemma b2z_z2b z : b2z (z2b z) = z mod 256.
Proof.
  unfold b2z, z2b. pose proof (Z.mod_pos_bound z 256 ltac:(lia)).
  destruct (Byte.of_N _) eqn:E.
  - apply Byte.to_of_N in E. rewrite E. lia.
  - apply Byte.of_N_None_iff in E. lia.
Qed.

Lemma z2b_b2z b : z2b (b2z b) = b.
Proof.
  unfold z2b. rewrite Z.mod_small; [apply b2z_bound|]. unfold b2z.
  by rewrite N2Z.id Byte.of_to_N.
Qed.

(** ** [struct.pack] / [struct.unpack] of one big-endian unsigned integer *)

Fixpoint be_encode (w : nat) (z : Z) : bytes :=
  match w with O => [] | S w => z2b (z / 256 ^ Z.of_nat w) :: be_encode w z end.
Fixpoint be_decode (x : Z) (l : bytes) : Z :=
  match l with [] => x | b :: l => be_decode (256 * x + b2z b) l end.

Lemma be_encode_length w z : length (be_encode w z) = w.
Proof. induction w; simpl; by f_equal. Qed.

Lemma be_decode_encode_acc w z x :
  be_decode x (be_encode w z) = x * 256 ^ Z.of_nat w + z mod 256 ^ Z.of_nat w.
Proof.
  revert x; induction w as [|w IH]; intros x.
  - simpl. rewrite Z.mod_1_r. lia.
  - cbn [be_encode be_decode]. rewrite IH b2z_z2b Nat2Z.inj_succ Z.pow_succ_r; [lia|].
    set (p := 256 ^ Z.of_nat w). assert (0 < p) by (apply Z.pow_pos_nonneg; lia).
    rewrite (Z.mul_comm 256 p) Z.rem_mul_r; lia.
Qed.

Lemma be_decode_encode w z : 0 <= z < 256 ^ Z.of_nat w -> be_decode 0 (be_encode w z) = z.
Proof. intros H. rewrite be_decode_encode_acc Z.mod_small; lia. Qed.

(** ** ASCII text as bytes: [s.encode("utf-8")] and [b.decode("utf-8")]

    The modelled writers only emit ASCII; [decode] reports any byte above 127
    as an error, so multi-byte sequences are not read. *)

Definition encode (s : string) : bytes := String.list_byte_of_string s.
Definition is_ascii (b : Byte.byte) : bool := b2z b <? 128.
Definition decode (l : bytes) : result string :=
  if forallb is_ascii l then Ok (String.string_of_list_byte l) else Err UnicodeDecodeError.

Definition ascii_char (c : ascii) : bool := (N_of_ascii c <? 128)%N.

Lemma encode_cons c s : encode (String c s) = byte_of_ascii c :: encode s.
Proof. reflexivity. Qed.

Lemma encode_app a b : encode (a +:+ b) = encode a ++ encode b.
Proof. induction a as [|c a IH]; [done|]. by rewrite app_cons_s !encode_cons IH. Qed.

Lemma encode_length s : length (encode s) = String.length s.
Proof. induction s as [|c s IH]; [done|]. by rewrite encode_cons /= IH. Qed.

Lemma encode_ascii s : str_forall ascii_char s = true -> forallb is_ascii (encode s) = true.
Proof.
  induction s as [|c s IH]; [done|]. simpl. intros [Hc Hs]%andb_true_iff.
  apply andb_true_iff. split; [|by apply IH].
  by destruct c as [[] [] [] [] [] [] [] []].
Qed.

Lemma decode_encode s : str_forall ascii_char s = true -> decode (encode s) = Ok s.
Proof.
  intros H. unfold decode. rewrite encode_ascii //. f_equal. unfold encode.
  apply String.string_of_list_byte_of_string.
Qed.

(** [s.encode("utf-8")] for any text of code points 0..255. *)
Fixpoint utf8 (s : string) : bytes :=
  match s with
  | EmptyString => []
  | String c s =>
      let n := Z.of_N (N_of_ascii c) in
      (if n <? 128 then [z2b n] else [z2b (192 + n / 64); z2b (128 + n mod 64)]) ++ utf8 s
  end.

(** ** [hashlib.sha256] *)

Module Sha256.
Definition w32 (x : Z) : Z := Z.land x (Z.ones 32).
Definition rotr (n x : Z) : Z := Z.lor (Z.shiftr x n) (w32 (Z.shiftl x (32 - n))).
Definition ch x y z := Z.lxor (Z.land x y) (Z.land (Z.lxor x (Z.ones 32)) z).
Definition maj x y z := Z.lxor (Z.lxor (Z.land x y) (Z.land x z)) (Z.land y z).
Definition bsig0 x := Z.lxor (Z.lxor (rotr 2 x) (rotr 13 x)) (rotr 22 x).
Definition bsig1 x := Z.lxor (Z.lxor (rotr 6 x) (rotr 11 x)) (rotr 25 x).
Definition ssig0 x := Z.lxor (Z.lxor (rotr 7 x) (rotr 18 x)) (Z.shiftr x 3).
Definition ssig1 x := Z.lxor (Z.lxor (rotr 17 x) (rotr 19 x)) (Z.shiftr x 10).

(** The constants: the first 32 bits of the fractional parts of the cube roots
    and of the square roots of the first primes. *)
Definition is_prime (n : Z) : bool := forallb (fun d => negb (n mod Z.of_nat d =? 0)) (List.seq 2 (Z.to_nat n - 2)).
Definition primes : list Z := List.filter is_prime (map Z.of_nat (List.seq 2 310)).
Fixpoint cube_root (bits : nat) (r n : Z) : Z :=
  match bits with
  | O => r
  | S b => let r' := r + 2 ^ Z.of_nat b in cube_root b (if r' * r' * r' <=? n then r' else r) n
  end.
Definition K : list Z := Eval vm_compute in map (fun p => w32 (cube_root 40 0 (p * 2 ^ 96))) (take 64 primes).
Definition H0 : list Z := Eval vm_compute in map (fun p => w32 (Z.sqrt (p * 2 ^ 64))) (take 8 primes).

(** The message schedule, most recent word first. *)
Fixpoint schedule (n : nat) (rw : list Z) : list Z :=
  match n with
  | O => rw
  | S n =>
      let g i := nth i rw 0 in
      schedule n (w32 (ssig1 (g 1%nat) + g 6%nat + ssig0 (g 14%nat) + g 15%nat) :: rw)
  end.

Definition round (st : list Z) (kw : Z * Z) : list Z :=
  match st with
  | [a; b; c; d; e; f; g; h] =>
      let t1 := w32 (h + bsig1 e + ch e f g + kw.1 + kw.2) in
      let t2 := w32 (bsig0 a + maj a b c) in
      [w32 (t1 + t2); a; b; c; w32 (d + t1); e; f; g]
  | _ => st
  end.

Definition compress (st : list Z) (block : list Z) : list Z :=
  let w := rev (schedule 48 (rev block)) in
  zip_with (fun x y => w32 (x + y)) st (foldl round st (zip K w)).

Fixpoint chunks {A} (fuel n : nat) (l : list A) : list (list A) :=
  match fuel with
  | O => []
  | S fuel => match l with [] => [] | _ => take n l :: chunks fuel n (drop n l) end
  end.

Definition pad (m : bytes) : bytes :=
  let len := Z.of_nat (length m) in
  m ++ Byte.x80 :: replicate (Z.to_nat ((55 - len) mod 64)) Byte.x00 ++ be_encode 8 (8 * len).

Definition blocks (m : bytes) : list (list Z) :=
  let p := pad m in
  map (fun b => map (be_decode 0) (chunks 16 4 b)) (chunks (length p) 64 p).

Definition digest_words (m : bytes) : list Z := foldl compress H0 (blocks m).
End Sha256.

(** [hashlib.sha256(m).digest()] *)
Definition sha256 (m : bytes) : bytes :=
  flat_map (be_encode 4) (Sha256.digest_words m).

Definition hex_char (n : Z) : ascii :=
  ascii_of_N (Z.to_N (if n <? 10 then 48 + n else 87 + n)).
(** [.hexdigest()] of a digest. *)
Fixpoint hex (l : bytes) : string :=
  match l with
  | [] => ""
  | b :: l => String (hex_char (b2z b / 16)) (String (hex_char (b2z b mod 16)) (hex l))
  end.

Example sha256_abc : hex (sha256 (encode "abc"))
  = "ba7816bf8f01cfea414140de5dae2223b00361a396177a9cb410ff61f20015ad".
Proof. vm_compute. reflexivity. Qed.

Example sha256_two_blocks : hex (sha256 (encode "abcdbcdecdefdefgefghfghighijhijkijkljklmklmnlmnomnopnopq"))
  = "248d6a61d20638b8e5c026930c3e6039a33ce45964ff2167f6ecedd419db06c1".
Proof. vm_compute. reflexivity. Qed.

Lemma sha256_round_length st kw : length st = 8%nat -> length (Sha256.round st kw) = 8%nat.
Proof. intros H. do 9 (destruct st as [|? st]; try done). Qed.

Lemma sha256_words_length m : length (Sha256.digest_words m) = 8%nat.
Proof.
  unfold Sha256.digest_words. generalize (Sha256.blocks m) as bs.
  assert (H0 : length Sha256.H0 = 8%nat) by done. revert H0. generalize Sha256.H0 as st.
  intros st Hst bs; revert st Hst; induction bs as [|b bs IH]; intros st Hst; [done|].
  simpl. apply IH. unfold Sha256.compress. rewrite length_zip_with.
  assert (Hr : forall l st', length st' = 8%nat -> length (foldl Sha256.round st' l) = 8%nat).
  { intros l; induction l as [|x l IHl]; intros st' Hst'; [done|].
    simpl. apply IHl. by apply sha256_round_length. }
  rewrite Hr //. by rewrite Hst.
Qed.

Lemma sha256_length m : length (sha256 m) = 32%nat.
Proof.
  unfold sha256. pose proof (sha256_words_length m) as H.
  destruct (Sha256.digest_words m) as [|? [|? [|? [|? [|? [|? [|? [|? [|]]]]]]]]]; try done.
Qed.
#[global] Opaque sha256.

Lemma hex_length l : String.length (hex l) = (2 * length l)%nat.
Proof. induction l as [|b l IH]; [done|]. cbn [hex String.length length]. rewrite IH. lia. Qed.

Lemma hex_char_not_space n : 0 <= n < 16 -> is_space (hex_char n) = false.
Proof.
  intros H. assert (Hall : Forall (fun k => is_space (hex_char (Z.of_nat k)) = false) (seq 0 16)) by (by repeat constructor).
  rewrite Forall_forall in Hall. rewrite -(Z2Nat.id n); [lia|]. apply Hall, elem_of_seq. lia.
Qed.

(** The first [n] digits of a digest are no blank text. *)
Lemma digest_not_blank n m : (0 < n)%nat -> blank (str_take n (hex (sha256 m))) = false.
Proof.
  intros Hn. pose proof (sha256_length m) as Hl. destruct (sha256 m) as [|b l]; [done|].
  destruct n as [|n]; [lia|]. cbn [hex str_take]. unfold blank. cbn [str_forall].
  rewrite hex_char_not_space; [|done]. pose proof (b2z_bound b). split; [apply Z.div_pos; lia|apply Z.div_lt_upper_bound; lia].
Qed.

Lemma digest_take_length n m : (n <= 64)%nat -> String.length (str_take n (hex (sha256 m))) = n.
Proof. intros Hn. apply str_take_length. rewrite hex_length sha256_length. lia. Qed.
