(* ===== verification/PyJson.v ===== *)
(** * [json.dumps(sort_keys=True, ensure_ascii=True)], its separators compact or not, and [json.loads]

    JSON values as Python has them: [None], [bool], [int], [str], [list], [dict]
    with string keys in insertion order. Floats are not modelled: no event
    payload of the modelled modules carries one, and [loads] rejects them. *)

From Stdlib Require Import ssreflect ZArith Lia Ascii String.
From stdpp Require Import base strings numbers gmap sets list.
From S2P Require Import Prelude PyText PyDict.
#[local] Open Scope Z_scope.

#[local] Set Warnings "-register-all".
Inductive json :=
  | JNull
  | JBool (b : bool)
  | JInt (z : Z)
  | JStr (s : string)
  | JList (l : list json)
  | JObj (o : list (string * json)).

(** Induction through lists and objects. *)
Section json_ind.
Variable P : json -> Prop.
Hypothesis Hnull : P JNull.
Hypothesis Hbool : forall b, P (JBool b).
Hypothesis Hint : forall z, P (JInt z).
Hypothesis Hstr : forall s, P (JStr s).
Hypothesis Hlist : forall l, Forall P l -> P (JList l).
Hypothesis Hobj : forall o, Forall (fun p => P p.2) o -> P (JObj o).

Fixpoint json_ind' (j : json) : P j :=
  match j with
  | JNull => Hnull
  | JBool b => Hbool b
  | JInt z => Hint z
  | JStr s => Hstr s
  | JList l => Hlist l ((fix go l := match l return Forall P l with
                                     | [] => Forall_nil_2 _
                                     | x :: l => Forall_cons_2 _ _ _ (json_ind' x) (go l)
                                     end) l)
  | JObj o => Hobj o ((fix go o := match o return Forall (fun p => P p.2) o with
                                   | [] => Forall_nil_2 (fun p => P p.2)
                                   | (k, x) :: o => Forall_cons_2 (fun p => P p.2) (k, x) o (json_ind' x) (go o)
                                   end) o)
  end.
End json_ind.

(** [payload.get(k)] on a dict; anything else has no such method. *)
Definition jget (k : string) (j : json) : option json :=
  match j with JObj o => dget k o | _ => None end.

Definition as_str (j : json) : option string := match j with JStr s => Some s | _ => None end.
Definition jstr (k : string) (j : json) : option string := jget k j ≫= as_str.

(** [Enum(raw)] on a value that may be missing; [None] where it raises. *)
Definition jenum {A} `{PyEnum A} (raw : option json) : option A :=
  match raw with Some (JStr s) => enum_of_value s | _ => None end.

Lemma jenum_value {A} `{PyEnum A} (a : A) : jenum (Some (JStr (enum_value a))) = Some a.
Proof. apply enum_of_value_value. Qed.

(** ** Printing *)

Definition hex_digit (n : N) : ascii := ascii_of_N (if n <? 10 then 48 + n else 87 + n)%N.

Definition chr (n : N) : ascii := ascii_of_N n.

(** One code point inside a string literal. *)
Definition esc_char (c : ascii) : string :=
  let n := N_of_ascii c in
  if (n =? 34)%N then String (chr 92) (String (chr 34) "")
  else if (n =? 92)%N then "\\"
  else if (n =? 10)%N then "\n"
  else if (n =? 13)%N then "\r"
  else if (n =? 9)%N then "\t"
  else if (n =? 12)%N then "\f"
  else if (n =? 8)%N then "\b"
  else if ((32 <=? n) && (n <=? 126))%N then String c ""
  else "\u00" +:+ String (hex_digit (n / 16)%N) (String (hex_digit (n mod 16)%N) "").
Fixpoint esc (s : string) : string :=
  match s with EmptyString => "" | String c s => esc_char c +:+ esc s end.
Definition quote (s : string) : string := String (chr 34) (esc s +:+ String (chr 34) "").

(** Items sorted by key, as [sorted(d.items())] with distinct keys. *)
Fixpoint insert_item {V} (p : string * V) (o : list (string * V)) : list (string * V) :=
  match o with
  | [] => [p]
  | q :: o' => if String.leb p.1 q.1 then p :: o else q :: insert_item p o'
  end.
Fixpoint sort_items {V} (o : list (string * V)) : list (string * V) :=
  match o with [] => [] | p :: o => insert_item p (sort_items o) end.

(** [sp] is what follows a comma and a colon: nothing with the separators
    [(",", ":")], a blank with the default ones. *)
Fixpoint dumps_with (sp : string) (j : json) : string :=
  match j with
  | JNull => "null"
  | JBool true => "true"
  | JBool false => "false"
  | JInt z => int_str z
  | JStr s => quote s
  | JList l => "[" +:+ join ("," +:+ sp) (map (dumps_with sp) l) +:+ "]"
  | JObj o => "{" +:+ join ("," +:+ sp) (map (fun p => quote p.1 +:+ ":" +:+ sp +:+ p.2)
                                    (sort_items (map (fun p => (p.1, dumps_with sp p.2)) o))) +:+ "}"
  end.
Notation dumps := (dumps_with "").

(** What a value is after being written with sorted keys and read back. *)
Fixpoint canon (j : json) : json :=
  match j with
  | JList l => JList (map canon l)
  | JObj o => JObj (sort_items (map (fun p => (p.1, canon p.2)) o))
  | _ => j
  end.

(** ** Reading *)

Definition json_space (c : ascii) : bool :=
  let n := N_of_ascii c in ((n =? 32) || (n =? 9) || (n =? 10) || (n =? 13))%N.
Fixpoint skip_ws (s : string) : string :=
  match s with String c s' => if json_space c then skip_ws s' else s | _ => s end.

Definition hex_val (c : ascii) : option N :=
  let n := N_of_ascii c in
  if ((48 <=? n) && (n <=? 57))%N then Some (n - 48)%N
  else if ((97 <=? n) && (n <=? 102))%N then Some (n - 87)%N
  else if ((65 <=? n) && (n <=? 70))%N then Some (n - 55)%N
  else None.

(** The four hexadecimal digits of [\uXXXX], for code points up to 255. *)
Definition hex4 (s : string) : option (ascii * string) :=
  match s with
  | String a (String b (String c (String d s))) =>
      a ← hex_val a; b ← hex_val b; c ← hex_val c; d ← hex_val d;
      if ((a =? 0) && (b =? 0))%N then Some (chr (16 * c + d)%N, s) else None
  | _ => None
  end.

(** The character a simple escape stands for. *)
Definition simple_escape (n : N) : option ascii :=
  match n with
  | 34%N => Some (chr 34) | 92%N => Some (chr 92) | 47%N => Some (chr 47)
  | 110%N => Some (chr 10) | 114%N => Some (chr 13) | 116%N => Some (chr 9)
  | 102%N => Some (chr 12) | 98%N => Some (chr 8)
  | _ => None
  end.

(** The rest of a string literal, after its opening quote. *)
Fixpoint pstring (fuel : nat) (s : string) : option (string * string) :=
  match fuel, s with
  | S fuel, String c s =>
      if (N_of_ascii c =? 34)%N then Some ("", s)
      else if (N_of_ascii c =? 92)%N then
        match s with
        | String e s =>
            if (N_of_ascii e =? 117)%N then
              '(x, s) ← hex4 s; '(r, s) ← pstring fuel s; Some (String x r, s)
            else
              x ← simple_escape (N_of_ascii e); '(r, s) ← pstring fuel s; Some (String x r, s)
        | _ => None
        end
      else if (N_of_ascii c <? 32)%N then None
      else '(r, s) ← pstring fuel s; Some (String c r, s)
  | _, _ => None
  end.

(** [0] or a digit run without a leading zero. *)
Definition int_literal (ds : string) : bool :=
  match ds with
  | EmptyString => false
  | String c EmptyString => true
  | String c _ => negb (digit_val c =? 0)
  end.

(** An integer literal; a fraction or exponent after it is not supported. *)
Definition pint (s : string) : option (Z * string) :=
  let '(neg, s) := match s with String "-" s => (true, s) | _ => (false, s) end in
  let '(ds, rest) := span_digits s in
  if int_literal ds then
    match rest with
    | String "." _ | String "e" _ | String "E" _ => None
    | _ => Some ((if neg : bool then - digits_val 0 ds else digits_val 0 ds), rest)
    end
  else None.

Fixpoint eat (p s : string) : option string :=
  match p, s with
  | EmptyString, _ => Some s
  | String a p, String b s => if bool_decide (a = b) then eat p s else None
  | _, _ => None
  end.

(** The rest of the text if it starts with the code point [n]. *)
Definition next (n : N) (s : string) : option string :=
  match s with
  | String c r => if (N_of_ascii c =? n)%N then Some r else None
  | EmptyString => None
  end.

(** Values, the elements of an array after its bracket, the members of an
    object after its brace; the fuel bounds the values and separators read. *)
Fixpoint pval (fuel : nat) (s : string) {struct fuel} : option (json * string) :=
  match fuel with
  | O => None
  | S fuel =>
      let s := skip_ws s in
      match next 34 s with
      | Some r => '(x, r) ← pstring (S (String.length r)) r; Some (JStr x, r)
      | None =>
      match next 91 s with
      | Some r => match next 93 (skip_ws r) with
                  | Some r => Some (JList [], r)
                  | None => '(l, r) ← pelems fuel r; Some (JList l, r)
                  end
      | None =>
      match next 123 s with
      | Some r => match next 125 (skip_ws r) with
                  | Some r => Some (JObj [], r)
                  | None => '(o, r) ← pmembers fuel r []; Some (JObj o, r)
                  end
      | None =>
          match eat "null" s with Some r => Some (JNull, r) | None =>
          match eat "true" s with Some r => Some (JBool true, r) | None =>
          match eat "false" s with Some r => Some (JBool false, r) | None =>
          '(z, r) ← pint s; Some (JInt z, r)
          end end end
      end end end
  end
with pelems (fuel : nat) (s : string) {struct fuel} : option (list json * string) :=
  match fuel with
  | O => None
  | S fuel =>
      '(x, r) ← pval fuel s;
      match next 44 (skip_ws r) with
      | Some r => '(l, r) ← pelems fuel r; Some (x :: l, r)
      | None => r ← next 93 (skip_ws r); Some ([x], r)
      end
  end
with pmembers (fuel : nat) (s : string) (acc : list (string * json)) {struct fuel}
  : option (list (string * json) * string) :=
  match fuel with
  | O => None
  | S fuel =>
      r ← next 34 (skip_ws s);
      '(k, r) ← pstring (S (String.length r)) r;
      r ← next 58 (skip_ws r);
      '(x, r) ← pval fuel r;
      match next 44 (skip_ws r) with
      | Some r => pmembers fuel r (dset k x acc)
      | None => r ← next 125 (skip_ws r); Some (dset k x acc, r)
      end
  end.

Definition loads (s : string) : result json :=
  match pval (2 + 2 * String.length s) s with
  | Some (j, r) => if str_forall json_space r then Ok j else Err JSONDecodeError
  | None => Err JSONDecodeError
  end.

Example dumps_ex :
  dumps (JObj [("b", JList [JInt (-3); JBool true; JNull]); ("a", JStr (String (chr 233) "x")); ("", JObj [])])
  = "{" +:+ quote "" +:+ ":{}," +:+ quote "a" +:+ ":" +:+ String (chr 34) ("\u00e9x" +:+ String (chr 34)
    ("," +:+ quote "b" +:+ ":[-3,true,null]}")).
Proof. vm_compute. reflexivity. Qed.

Example loads_ex :
  loads (dumps (JObj [("b", JList [JInt (-30); JBool false]); ("a", JStr (String (chr 10) "x")); ("", JObj [])]))
  = Ok (JObj [("", JObj []); ("a", JStr (String (chr 10) "x")); ("b", JList [JInt (-30); JBool false])]).
Proof. vm_compute. reflexivity. Qed.
