(* ===== verification/PyJsonFacts.v ===== *)
(** * [json.loads(json.dumps(v))]: what is written is read back

    The printed text is ASCII, and reading it gives the value with the keys of
    every dict sorted; looking a key up does not see the difference. *)

From Stdlib Require Import ssreflect ZArith Lia Ascii String Sorting.Sorted.
From stdpp Require Import base strings numbers gmap sets list.
From S2P Require Import Prelude PyText PyDict PyBytes PyJson.
#[local] Open Scope Z_scope.

(** Dicts have distinct keys, at every level. *)
Fixpoint json_wf (j : json) : bool :=
  match j with
  | JList l => forallb json_wf l
  | JObj o => bool_decide (NoDup (dkeys o)) && forallb (fun p => json_wf p.2) o
  | _ => true
  end.

(** ** Sorting items *)

Section sorting.
Context {V W : Type}.

Lemma insert_item_map (f : V -> W) p o :
  insert_item (p.1, f p.2) (map (fun p => (p.1, f p.2)) o)
  = map (fun p => (p.1, f p.2)) (insert_item p o).
Proof. induction o as [|q o IH]; simpl; [done|]. case_match; simpl; by f_equal. Qed.

Lemma sort_items_map (f : V -> W) o :
  sort_items (map (fun p => (p.1, f p.2)) o) = map (fun p => (p.1, f p.2)) (sort_items o).
Proof. induction o as [|p o IH]; simpl; [done|]. by rewrite IH insert_item_map. Qed.

Lemma insert_item_perm (p : string * V) o : insert_item p o ≡ₚ p :: o.
Proof.
  induction o as [|q o IH]; simpl; [done|]. case_match; [done|].
  rewrite IH. apply Permutation_swap.
Qed.

Lemma sort_items_perm (o : list (string * V)) : sort_items o ≡ₚ o.
Proof. induction o as [|p o IH]; simpl; [done|]. by rewrite insert_item_perm IH. Qed.

Lemma sort_items_NoDup (o : list (string * V)) : NoDup (dkeys o) -> NoDup (dkeys (sort_items o)).
Proof. intros H. unfold dkeys. by rewrite sort_items_perm. Qed.

Lemma dget_sort_items k (o : list (string * V)) :
  NoDup (dkeys o) -> dget k (sort_items o) = dget k o.
Proof.
  intros H. destruct (dget k o) as [v|] eqn:E.
  - apply elem_dget; [by apply sort_items_NoDup|]. rewrite sort_items_perm. by apply dget_elem.
  - apply dget_None. apply dget_None in E. unfold dkeys. by rewrite sort_items_perm.
Qed.

Lemma dget_map (f : V -> W) k o :
  dget k (map (fun p => (p.1, f p.2)) o) = f <$> dget k o.
Proof. induction o as [|[k' v] o IH]; simpl; [done|]. by case_match. Qed.
End sorting.

Lemma dkeys_map {V W} (f : V -> W) (o : list (string * V)) :
  dkeys (map (fun p => (p.1, f p.2)) o) = dkeys o.
Proof. induction o as [|p o IH]; csimpl; [done|]. unfold dkeys in *. by rewrite IH. Qed.

(** Reading a key of a written-and-read value. *)
Lemma jget_canon k j : json_wf j = true -> jget k (canon j) = canon <$> jget k j.
Proof.
  destruct j as [| | | | |o]; try done. cbn -[bool_decide]. intros [H%bool_decide_eq_true _]%andb_true_iff.
  rewrite dget_sort_items ?dkeys_map //. apply dget_map.
Qed.

Lemma jstr_canon k j : json_wf j = true -> jstr k (canon j) = jstr k j.
Proof.
  intros H. unfold jstr. rewrite jget_canon //. by destruct (jget k j) as [[]|].
Qed.

(** ** The printed text is ASCII *)

Lemma ascii_char_chr n : (n < 128)%N -> ascii_char (chr n) = true.
Proof. intros H. unfold ascii_char, chr. apply N.ltb_lt. rewrite N_ascii_embedding; lia. Qed.

Lemma esc_ascii s : str_forall ascii_char (esc s) = true.
Proof.
  induction s as [|c s IH]; [done|]. simpl. rewrite str_forall_app IH andb_true_r.
  by destruct c as [[] [] [] [] [] [] [] []].
Qed.

Lemma quote_ascii s : str_forall ascii_char (quote s) = true.
Proof. unfold quote. cbn [str_forall]. by rewrite str_forall_app esc_ascii. Qed.

Lemma digits_ascii s : str_forall is_digit s = true -> str_forall ascii_char s = true.
Proof.
  induction s as [|c s IH]; [done|]. simpl. intros [Hc Hs]%andb_true_iff. rewrite (IH Hs) andb_true_r.
  unfold is_digit, ascii_char in *. apply N.ltb_lt. apply andb_true_iff in Hc as [_ Hc%N.leb_le]. lia.
Qed.

Lemma int_str_ascii z : str_forall ascii_char (int_str z) = true.
Proof.
  unfold int_str. destruct (Z.ltb_spec z 0); [cbn [str_forall]|]; apply digits_ascii, nat_str_digits; lia.
Qed.

Lemma join_forall p sep l : str_forall p sep = true -> Forall (fun s => str_forall p s = true) l ->
  str_forall p (join sep l) = true.
Proof.
  intros Hsep. induction 1 as [|x l Hx Hl IH]; [done|]. cbn [join].
  destruct l; [done|]. by rewrite !str_forall_app Hx Hsep IH.
Qed.

Lemma dumps_ascii sp j : str_forall ascii_char sp = true -> str_forall ascii_char (dumps_with sp j) = true.
Proof.
  intros Hsp. induction j as [|[]|z|s|l IH|o IH] using json_ind'; cbn [dumps_with]; try done.
  - apply int_str_ascii.
  - apply quote_ascii.
  - rewrite !str_forall_app. apply andb_true_iff; split; [done|]. apply andb_true_iff; split; [|done].
    apply join_forall; [by rewrite str_forall_app Hsp|]. by apply Forall_map.
  - rewrite !str_forall_app. apply andb_true_iff; split; [done|]. apply andb_true_iff; split; [|done].
    apply join_forall; [by rewrite str_forall_app Hsp|].
    rewrite sort_items_map map_map. apply Forall_map.
    rewrite sort_items_perm. eapply Forall_impl; [exact IH|]. intros [k v] Hv. cbn [fst snd] in *.
    by rewrite !str_forall_app quote_ascii Hsp Hv.
Qed.

(** ** String literals *)

Lemma pstring_esc_char fuel c s :
  pstring (S fuel) (esc_char c +:+ s) = '(r, s) ← pstring fuel s; Some (String c r, s).
Proof. by destruct c as [[] [] [] [] [] [] [] []]. Qed.

Lemma pstring_esc fuel s r : (String.length s < fuel)%nat ->
  pstring fuel (esc s +:+ String (chr 34) r) = Some (s, r).
Proof.
  revert fuel; induction s as [|c s IH]; intros [|fuel] H; simpl in H; try lia; [done|].
  cbn [esc]. rewrite app_assoc_s pstring_esc_char IH; [lia|done].
Qed.

Lemma esc_char_len c : (1 <= String.length (esc_char c))%nat.
Proof. destruct c as [[] [] [] [] [] [] [] []]; vm_compute; lia. Qed.

Lemma esc_len s : (String.length s <= String.length (esc s))%nat.
Proof.
  induction s as [|c s IH]; [done|]. cbn [esc String.length]. rewrite length_app_s.
  pose proof (esc_char_len c). lia.
Qed.

(** What follows the opening quote of [quote s]. *)
Lemma pstring_quote s r : let q := esc s +:+ String (chr 34) r in
  pstring (S (String.length q)) q = Some (s, r).
Proof. intros q. apply pstring_esc. subst q. rewrite length_app_s. pose proof (esc_len s). lia. Qed.

Lemma quote_app s r : quote s +:+ r = String (chr 34) (esc s +:+ String (chr 34) r).
Proof. unfold quote. rewrite app_cons_s app_assoc_s. done. Qed.

Lemma quote_len s : (2 <= String.length (quote s))%nat.
Proof. unfold quote. cbn [String.length]. rewrite length_app_s. simpl. lia. Qed.

(** ** Integer literals *)

Lemma digits_val_bound s : str_forall is_digit s = true ->
  0 <= digits_val 0 s < 10 ^ slen s.
Proof.
  assert (H : forall s x, 0 <= x -> str_forall is_digit s = true ->
            x * 10 ^ slen s <= digits_val x s < (x + 1) * 10 ^ slen s).
  { clear s. induction s as [|c s IH]; intros x Hx.
    - intros _. change (slen "") with 0. simpl. lia.
    - cbn [str_forall digits_val]. intros [Hc Hs]%andb_true_iff.
      assert (Hd : 0 <= digit_val c <= 9).
      { unfold is_digit, digit_val in *. apply andb_true_iff in Hc as [?%N.leb_le ?%N.leb_le]. lia. }
      specialize (IH (10 * x + digit_val c) ltac:(lia) Hs).
      assert (E : slen (String c s) = Z.succ (slen s)) by (unfold slen; cbn [String.length]; lia).
      rewrite E Z.pow_succ_r; [apply slen_nonneg|].
      assert (0 < 10 ^ slen s) by (apply Z.pow_pos_nonneg; [lia|apply slen_nonneg]). nia. }
  intros Hs. specialize (H s 0 ltac:(lia) Hs). lia.
Qed.

Lemma nat_str_literal n : 0 <= n -> int_literal (nat_str n) = true.
Proof.
  intros Hn. pose proof (nat_str_digits n Hn) as Hd. pose proof (nat_str_val n Hn) as Hv.
  pose proof (nat_str_len n Hn) as Hl. unfold int_literal.
  destruct (nat_str n) as [|c s] eqn:E; [done|]. destruct s as [|c' s]; [done|].
  apply negb_true_iff, Z.eqb_neq. intros H0.
  assert (Hs : str_forall is_digit (String c' s) = true).
  { cbn [str_forall] in Hd |- *. apply andb_true_iff in Hd. tauto. }
  pose proof (digits_val_bound _ Hs) as Hb.
  assert (Hv' : digits_val 0 (String c' s) = n).
  { rewrite -Hv. cbn [digits_val]. by rewrite H0. }
  assert (n <> 0). { intros ->. by vm_compute in E. }
  pose proof (nat_str_bounds n ltac:(lia)) as [Hlo _]. rewrite E in Hlo.
  assert (slen (String c (String c' s)) - 1 = slen (String c' s)) as Hs1
    by (unfold slen; cbn [String.length]; lia).
  rewrite Hs1 in Hlo. lia.
Qed.

(** Text that can follow a value inside an array, an object, or at the end. *)
Definition delim (s : string) : Prop :=
  match s with EmptyString => True | String c _ => c = "," %char \/ c = "]"%char \/ c = "}"%char end.

Lemma delim_no_digit s : delim s -> no_digit_head s.
Proof. destruct s; [done|]. by intros [->|[->| ->]]. Qed.

Lemma pint_nat n r : 0 <= n -> delim r ->
  forall neg, match (span_digits (nat_str n +:+ r)) with
  | (ds, rest) => ds = nat_str n /\ rest = r
  end /\ (if int_literal (nat_str n) then
    match r with
    | String "." _ | String "e" _ | String "E" _ => None
    | _ => Some ((if neg : bool then - digits_val 0 (nat_str n) else digits_val 0 (nat_str n)), r)
    end
  else None) = Some (if neg then - n else n, r).
Proof.
  intros Hn Hr neg. rewrite span_digits_app; [by apply nat_str_digits|by apply delim_no_digit|].
  split; [done|]. rewrite nat_str_literal // nat_str_val //.
  destruct r as [|c r]; [done|]. by destruct Hr as [->|[->| ->]].
Qed.

Lemma pint_str z r : delim r -> pint (int_str z +:+ r) = Some (z, r).
Proof.
  intros Hr. unfold pint, int_str. destruct (Z.ltb_spec z 0) as [Hz|Hz].
  - rewrite app_cons_s. destruct (pint_nat (- z) r ltac:(lia) Hr true) as [Hs Hl].
    destruct (span_digits _) as [ds rest]. destruct Hs as [-> ->]. rewrite Hl. do 2 f_equal. lia.
  - destruct (nat_str_nonempty z Hz) as (c & s & E & Hc).
    destruct (pint_nat z r Hz Hr false) as [Hs Hl].
    assert (Hm : match nat_str z +:+ r with String "-" s => (true, s) | _ => (false, nat_str z +:+ r) end
                 = (false, nat_str z +:+ r)).
    { rewrite E app_cons_s. destruct c as [[] [] [] [] [] [] [] []]; vm_compute in Hc; done. }
    rewrite Hm. destruct (span_digits _) as [ds rest]. destruct Hs as [-> ->]. by rewrite Hl.
Qed.

(** ** Whole values *)

Lemma next_ne n c r : N_of_ascii c <> n -> next n (String c r) = None.
Proof. intros H. simpl. by rewrite (proj2 (N.eqb_neq _ _) H). Qed.

Definition num_head (c : ascii) : bool := is_digit c || bool_decide (c = "-"%char).

Lemma int_str_head z : exists c s, int_str z = String c s /\ num_head c = true.
Proof.
  unfold int_str. destruct (Z.ltb_spec z 0) as [Hz|Hz]; [by exists "-"%char, (nat_str (- z))|].
  destruct (nat_str_nonempty z Hz) as (c & s & E & Hc). exists c, s. split; [done|].
  unfold num_head. by rewrite Hc.
Qed.

Lemma pval_num fuel c r : num_head c = true ->
  pval (S fuel) (String c r) = '(z, r) ← pint (String c r); Some (JInt z, r).
Proof. by destruct c as [[] [] [] [] [] [] [] []]. Qed.

(** Blanks before a value are skipped. *)
Lemma skip_blanks sp s : str_forall json_space sp = true -> skip_ws (sp +:+ s) = skip_ws s.
Proof.
  induction sp as [|c sp IH]; [done|]. cbn [str_forall]. intros [Hc Hsp]%andb_true_iff. rewrite app_cons_s. cbn [skip_ws].
  rewrite Hc. by apply IH.
Qed.

Section printed.
Context (sp : string) (Hsp : str_forall json_space sp = true).
Notation dumps := (dumps_with sp).
Notation sep := ("," +:+ sp).

Lemma pval_skip fuel s : pval fuel (sp +:+ s) = pval fuel s.
Proof. destruct fuel as [|fuel]; [done|]. cbn [pval]. by rewrite skip_blanks. Qed.
Lemma pelems_skip fuel s : pelems fuel (sp +:+ s) = pelems fuel s.
Proof. destruct fuel as [|fuel]; [done|]. cbn [pelems]. by rewrite pval_skip. Qed.
Lemma pmembers_skip fuel s acc : pmembers fuel (sp +:+ s) acc = pmembers fuel s acc.
Proof. destruct fuel as [|fuel]; [done|]. cbn [pmembers]. by rewrite skip_blanks. Qed.

(** The first character of a printed value is no blank and closes nothing. *)
Lemma dumps_head j r : exists c s, dumps j +:+ r = String c s /\
  json_space c = false /\ N_of_ascii c <> 93%N /\ N_of_ascii c <> 125%N.
Proof.
  destruct j as [|[]|z|s|l|o]; cbn [dumps_with]; try (eexists _, _; split; [reflexivity|by vm_compute]).
  destruct (int_str_head z) as (c & s & -> & Hc). exists c, (s +:+ r). split; [done|].
  clear -Hc. by destruct c as [[] [] [] [] [] [] [] []].
Qed.

Lemma delim_next n r : delim r -> (n = 44 \/ n = 93 \/ n = 125)%N -> next n (skip_ws r) = next n r.
Proof. destruct r as [|c r]; [done|]. by intros [->|[->| ->]]. Qed.

Lemma next_comma r : next 44 (skip_ws (String "," r)) = Some r.
Proof. reflexivity. Qed.

Lemma next_colon r : next 58 (skip_ws (":" +:+ r)) = Some r.
Proof. reflexivity. Qed.

Lemma pval_quote fuel s r : pval (S fuel) (quote s +:+ r) = Some (JStr s, r).
Proof.
  rewrite quote_app. set (q := esc s +:+ String (chr 34) r).
  change (pval (S fuel) (String (chr 34) q))
    with ('(x, r) ← pstring (S (String.length q)) q; Some (JStr x, r)).
  subst q. by rewrite pstring_quote.
Qed.

Definition open_list (t : string) fuel := match next 93 (skip_ws t) with
  | Some r => Some (JList [], r)
  | None => '(l, r) ← pelems fuel t; Some (JList l, r)
  end.
Lemma pval_open_list fuel t : pval (S fuel) ("[" +:+ t) = open_list t fuel.
Proof. reflexivity. Qed.

Definition open_obj (t : string) fuel := match next 125 (skip_ws t) with
  | Some r => Some (JObj [], r)
  | None => '(o, r) ← pmembers fuel t []; Some (JObj o, r)
  end.
Lemma pval_open_obj fuel t : pval (S fuel) ("{" +:+ t) = open_obj t fuel.
Proof. reflexivity. Qed.

Definition parses (j : json) : Prop := forall fuel rest,
  (2 * String.length (dumps j) <= fuel)%nat -> delim rest ->
  pval fuel (dumps j +:+ rest) = Some (canon j, rest).

Lemma dumps_len j : (1 <= String.length (dumps j))%nat.
Proof.
  destruct (dumps_head j "") as (c & s & H & _). rewrite app_nil_r_s in H. rewrite H. simpl. lia.
Qed.

Lemma pelems_dumps l : Forall parses l -> l <> [] -> forall fuel rest,
  (2 * String.length (join sep (map dumps l)) + 1 <= fuel)%nat ->
  pelems fuel (join sep (map dumps l) +:+ String "]" rest) = Some (map canon l, rest).
Proof.
  induction 1 as [|x l Hx Hl IH]; [done|]. intros _ fuel rest Hf. destruct fuel as [|fuel]; [lia|].
  cbn [map join pelems] in *. destruct l as [|y l].
  - cbn [map] in *. rewrite Hx; [lia|by right; left|]. done.
  - cbn [map] in *. set (t := join sep (dumps y :: map dumps l)) in *.
    rewrite !length_app_s in Hf. cbn [String.length] in Hf.
    assert (E : (dumps x +:+ sep +:+ t) +:+ String "]" rest = dumps x +:+ String "," (sp +:+ t +:+ String "]" rest)).
    { by rewrite !app_assoc_s. }
    rewrite E Hx; [lia|by left|]. cbn [mbind option_bind]. rewrite next_comma pelems_skip IH; [done|lia|]. done.
Qed.

Definition member_text (p : string * json) : string := quote p.1 +:+ ":" +:+ sp +:+ dumps p.2.

Lemma member_value fuel k v rest : parses v -> delim rest ->
  (2 * String.length (member_text (k, v)) <= fuel)%nat ->
  (r ← next 34 (skip_ws (member_text (k, v) +:+ rest));
   '(k, r) ← pstring (S (String.length r)) r;
   r ← next 58 (skip_ws r);
   '(x, r) ← pval fuel r; Some (k, x, r)) = Some (k, canon v, rest).
Proof.
  intros Hv Hr Hf. unfold member_text in *. cbn [fst snd] in *. rewrite !length_app_s in Hf.
  rewrite !app_assoc_s quote_app. cbn [skip_ws]. change (json_space (chr 34)) with false. cbv beta iota.
  cbn [next]. change (N_of_ascii (chr 34) =? 34)%N with true. cbv beta iota. cbn [mbind option_bind].
  rewrite pstring_quote. cbn [mbind option_bind]. rewrite next_colon. cbn [mbind option_bind].
  rewrite pval_skip Hv; [cbn [String.length] in Hf; lia|done|]. done.
Qed.

Lemma pmembers_dumps o : Forall (fun p => parses p.2) o -> o <> [] -> forall fuel rest acc,
  NoDup (dkeys acc ++ dkeys o) ->
  (2 * String.length (join sep (map member_text o)) + 1 <= fuel)%nat ->
  pmembers fuel (join sep (map member_text o) +:+ String "}" rest) acc
  = Some (acc ++ map (fun p => (p.1, canon p.2)) o, rest).
Proof.
  induction 1 as [|[k v] o Hx Hl IH]; [done|]. intros _ fuel rest acc Hnd Hf. destruct fuel as [|fuel]; [lia|].
  cbn [fst snd] in Hx.
  assert (Hacc : dset k (canon v) acc = acc ++ [(k, canon v)]).
  { assert (Hk : k ∉ dkeys acc).
    { intros Hk. apply NoDup_app in Hnd as (_ & Hd & _). apply (Hd k Hk). by left. }
    clear -Hk. unfold dkeys in Hk. induction acc as [|[k' v'] acc IH]; [done|]. csimpl in *.
    apply not_elem_of_cons in Hk as [Hne Hk]. rewrite (proj2 (String.eqb_neq _ _) Hne). by rewrite IH. }
  cbn [map join pmembers] in *. destruct o as [|q o].
  - pose proof (member_value fuel k v (String "}" rest) Hx ltac:(by right; right) ltac:(cbn [map] in Hf; lia)) as Hm.
    cbn [map] in *. revert Hm. destruct (next 34 _) as [r0|]; [|done]. cbn [mbind option_bind].
    destruct (pstring _ r0) as [[k0 r1]|]; [|done]. cbn [mbind option_bind].
    destruct (next 58 _) as [r2|]; [|done]. cbn [mbind option_bind].
    destruct (pval fuel r2) as [[x r3]|]; [|done]. cbn [mbind option_bind]. intros [= -> -> ->].
    cbn [map fst snd]. by rewrite Hacc.
  - set (t := join sep (map member_text (q :: o))) in *. cbn [map] in *. fold t in Hf |- *.
    assert (E : (member_text (k, v) +:+ sep +:+ t) +:+ String "}" rest
                = member_text (k, v) +:+ String "," (sp +:+ t +:+ String "}" rest)).
    { by rewrite !app_assoc_s. }
    rewrite E. rewrite !(length_app_s (member_text _)) (length_app_s sep) (length_app_s ",") in Hf. cbn [String.length] in Hf.
    pose proof (member_value fuel k v (String "," (sp +:+ t +:+ String "}" rest)) Hx ltac:(by left) ltac:(lia)) as Hm.
    revert Hm. destruct (next 34 _) as [r0|]; [|done]. cbn [mbind option_bind].
    destruct (pstring _ r0) as [[k0 r1]|]; [|done]. cbn [mbind option_bind].
    destruct (next 58 _) as [r2|]; [|done]. cbn [mbind option_bind].
    destruct (pval fuel r2) as [[x r3]|]; [|done]. cbn [mbind option_bind]. intros [= -> -> ->].
    cbn [mbind option_bind]. rewrite next_comma pmembers_skip Hacc IH; [done| |lia|].
    + rewrite /dkeys fmap_app. rewrite -app_assoc. done.
    + rewrite -app_assoc. done.
Qed.

Lemma join_nonempty {A} (f : A -> string) x l : (String.length (f x) <= String.length (join sep (map f (x :: l))))%nat.
Proof. cbn [map join]. destruct (map f l); [lia|]. rewrite length_app_s. lia. Qed.

Lemma dumps_parses j : json_wf j = true -> parses j.
Proof.
  induction j as [|b|z|s|l IH|o IH] using json_ind'; intros Hwf fuel rest Hf Hr;
    (destruct fuel as [|fuel]; [match type of Hf with (2 * String.length (dumps ?j) <= _)%nat => pose proof (dumps_len j) end; lia|]).
  - done.
  - by destruct b.
  - cbn [dumps_with]. destruct (int_str_head z) as (c & s & E & Hc).
    rewrite E app_cons_s pval_num // -app_cons_s -E pint_str //.
  - apply pval_quote.
  - cbn [dumps_with] in *. cbn [json_wf] in Hwf.
    assert (Hl : Forall parses l).
    { apply Forall_forall. intros x Hx. rewrite Forall_forall in IH. apply IH; [done|].
      apply forallb_forall with (x := x) in Hwf; [done|]. by apply list_elem_of_In. }
    destruct l as [|x l]; [done|].
    rewrite !app_assoc_s. change ("]" +:+ rest) with (String "]" rest).
    rewrite !length_app_s in Hf. cbn [String.length] in Hf.
    destruct (dumps_head x (match map dumps l with [] => "" | _ => sep +:+ join sep (map dumps l) end +:+ String "]" rest))
      as (c & s & E & Hc1 & Hc2 & Hc3).
    assert (E' : join sep (map dumps (x :: l)) +:+ String "]" rest = String c s).
    { rewrite -E. cbn [map join]. destruct (map dumps l); by rewrite ?app_nil_l_s ?app_assoc_s. }
    rewrite pval_open_list. unfold open_list. rewrite E'. cbn [skip_ws]. rewrite Hc1 next_ne //. rewrite -E' pelems_dumps //. lia.
  - cbn [dumps_with] in *. cbn [json_wf] in Hwf. apply andb_true_iff in Hwf as [Hnd%bool_decide_eq_true Hwf].
    assert (Em : map (fun p => quote p.1 +:+ ":" +:+ sp +:+ p.2) (sort_items (map (fun p => (p.1, dumps p.2)) o))
                 = map member_text (sort_items o)).
    { rewrite sort_items_map map_map. done. }
    rewrite Em in Hf |- *. cbn [canon]. rewrite sort_items_map.
    assert (Hl : Forall (fun p => parses p.2) (sort_items o)).
    { rewrite sort_items_perm. apply Forall_forall. intros x Hx. rewrite Forall_forall in IH. apply IH; [done|].
      apply forallb_forall with (x := x) in Hwf; [done|]. by apply list_elem_of_In. }
    apply sort_items_NoDup in Hnd. revert Hf Hl Hnd. generalize (sort_items o) as so. intros so Hf Hl Hnd.
    destruct so as [|[k v] so]; [done|].
    rewrite !app_assoc_s. change ("}" +:+ rest) with (String "}" rest).
    rewrite !length_app_s in Hf. cbn [String.length] in Hf.
    assert (E' : exists s, join sep (map member_text ((k, v) :: so)) +:+ String "}" rest = String (chr 34) s).
    { cbn [map join]. destruct (map member_text so); unfold member_text, quote; cbn [fst snd]; by eexists. }
    destruct E' as [s E'].
    rewrite pval_open_obj. unfold open_obj. rewrite E'. cbn [skip_ws].
    change (json_space (chr 34)) with false. cbv iota. rewrite (next_ne 125) // -E' pmembers_dumps; [done|done|done|lia|]. done.
Qed.

(** Reading back what was written gives the value with its keys sorted. *)
Lemma loads_dumps j : json_wf j = true -> loads (dumps j) = Ok (canon j).
Proof.
  intros H. unfold loads. pose proof (dumps_parses j H (2 + 2 * String.length (dumps j))%nat "") as Hp.
  rewrite app_nil_r_s in Hp. rewrite Hp; [lia|done|]. done.
Qed.
End printed.

(** ** Writing a value that was read back gives the same text *)

Section resorting.
Context {V : Type}.
Definition item_le (p q : string * V) : Prop := String.leb p.1 q.1 = true.

Lemma insert_item_sorted p (o : list (string * V)) :
  Sorted item_le o -> Sorted item_le (insert_item p o).
Proof.
  induction 1 as [|q o Ho IH Hq]; simpl; [by repeat constructor|].
  destruct (String.leb p.1 q.1) eqn:E.
  - repeat constructor; try done. 
  - constructor; [done|]. destruct (String.leb_total p.1 q.1) as [?|Hl]; [congruence|].
    destruct o as [|r o]; simpl; [by constructor|]. case_match; constructor; try done.
    by inversion Hq.
Qed.

Lemma sort_items_sorted (o : list (string * V)) : Sorted item_le (sort_items o).
Proof. induction o; simpl; [constructor|by apply insert_item_sorted]. Qed.

Lemma sort_items_id (o : list (string * V)) : Sorted item_le o -> sort_items o = o.
Proof.
  induction 1 as [|p o Ho IH Hp]; [done|]. simpl. rewrite IH.
  destruct Hp as [|q o Hq]; [done|]. simpl. unfold item_le in Hq. by rewrite Hq.
Qed.

Lemma sort_items_idem (o : list (string * V)) : sort_items (sort_items o) = sort_items o.
Proof. apply sort_items_id, sort_items_sorted. Qed.
End resorting.

Lemma map_snd_ext {V W} (f g : V -> W) (o : list (string * V)) :
  Forall (fun p => f p.2 = g p.2) o ->
  map (fun p => (p.1, f p.2)) o = map (fun p => (p.1, g p.2)) o.
Proof. induction 1 as [|p o Hp Ho IH]; [done|]. cbn [map]. by rewrite Hp IH. Qed.

Lemma dumps_canon sp j : dumps_with sp (canon j) = dumps_with sp j.
Proof.
  induction j as [| | | |l IH|o IH] using json_ind'; try done; cbn [canon dumps_with].
  - rewrite map_map. do 3 f_equal. induction IH as [|x l Hx Hl IHl]; [done|]. cbn [map]. by rewrite Hx IHl.
  - do 3 f_equal. f_equal. rewrite !sort_items_map. rewrite sort_items_idem map_map. cbn [fst snd].
    apply (map_snd_ext (fun v => dumps_with sp (canon v)) (dumps_with sp)). by rewrite sort_items_perm.
Qed.

Lemma canon_canon j : canon (canon j) = canon j.
Proof.
  induction j as [| | | |l IH|o IH] using json_ind'; try done; cbn [canon].
  - rewrite map_map. f_equal. induction IH as [|x l Hx Hl IHl]; [done|]. cbn [map]. by rewrite Hx IHl.
  - f_equal. rewrite !sort_items_map. rewrite sort_items_idem map_map. cbn [fst snd].
    apply (map_snd_ext (fun v => canon (canon v)) canon). by rewrite sort_items_perm.
Qed.

Lemma json_wf_canon j : json_wf j = true -> json_wf (canon j) = true.
Proof.
  induction j as [| | | |l IH|o IH] using json_ind'; try done; cbn [canon json_wf].
  - rewrite !forallb_forall. intros H x (y & <- & Hy)%in_map_iff. rewrite Forall_forall in IH.
    apply IH; [by apply list_elem_of_In|by apply H].
  - intros [Hnd%bool_decide_eq_true H]%andb_true_iff. apply andb_true_iff. split.
    + apply bool_decide_eq_true. apply sort_items_NoDup. by rewrite dkeys_map.
    + rewrite forallb_forall. intros x Hx%list_elem_of_In. rewrite sort_items_perm in Hx.
      apply list_elem_of_In, in_map_iff in Hx as (y & <- & Hy). rewrite Forall_forall in IH. cbn [snd].
      apply IH; [by apply list_elem_of_In|]. rewrite forallb_forall in H. by apply H.
Qed.

#[export] Hint Rewrite @loads_dumps @jget_canon @jstr_canon @dumps_canon @canon_canon using done : turtle_rw.
