(* ===== verification/PyDecimal.v ===== *)
(** * Python's [decimal.Decimal]

    The finite decimals of the module [decimal] and the operations the engine
    uses, in the default context: 28 significant digits, [ROUND_HALF_EVEN].
    A decimal is a coefficient and an exponent, so [1.0] and [1.00] differ as
    data and are equal as numbers; [value] is the number. NaN, the infinities,
    the sign of a zero and the exponent limits of the context (about 10^6) are
    not modelled. *)

From Stdlib Require Import ssreflect ZArith Lia Ascii String QArith Qpower Qabs Lqa.
From stdpp Require Import base strings numbers gmap sets list.
From S2P Require Import Prelude PyText.
#[local] Open Scope Z_scope.

Record decimal := Dec { dcoef : Z; dexp : Z }.

#[global] Instance decimal_eq_dec : EqDecision decimal.
Proof. solve_decision. Defined.

Definition d0 : decimal := Dec 0 0.
Definition d1 : decimal := Dec 1 0.
Definition dint (n : Z) : decimal := Dec n 0.

(** ** The number a decimal denotes *)

Definition p10 (e : Z) : Q := Qpower (inject_Z 10) e.
Definition value (d : decimal) : Q := (inject_Z (dcoef d) * p10 (dexp d))%Q.

(** [len(self._int)] *)
Definition ndigits (n : Z) : Z := slen (nat_str (Z.abs n)).

(** [d.adjusted()] *)
Definition adjusted (d : decimal) : Z := dexp d + ndigits (dcoef d) - 1.

(** ** Comparison: exact, whatever the exponents *)

(** The coefficient of [d] at the exponent [e <= dexp d]. *)
Definition scaled (e : Z) (d : decimal) : Z := dcoef d * 10 ^ (dexp d - e).
Definition dcmp (a b : decimal) : comparison :=
  let e := Z.min (dexp a) (dexp b) in scaled e a ?= scaled e b.
Definition dltb (a b : decimal) : bool := match dcmp a b with Lt => true | _ => false end.
Definition dleb (a b : decimal) : bool := match dcmp a b with Gt => false | _ => true end.
Definition deqb (a b : decimal) : bool := match dcmp a b with Eq => true | _ => false end.

(** ** Rounding *)

Inductive rounding := ROUND_HALF_EVEN | ROUND_DOWN | ROUND_FLOOR | ROUND_CEILING.

(** [n / m] rounded to an integer, for [m > 0]. *)
Definition div_round (r : rounding) (n m : Z) : Z :=
  match r with
  | ROUND_HALF_EVEN =>
      let q := n / m in let rem := n mod m in
      if 2 * rem <? m then q else if m <? 2 * rem then q + 1
      else if Z.even q then q else q + 1
  | ROUND_DOWN => Z.quot n m
  | ROUND_FLOOR => n / m
  | ROUND_CEILING => - (- n / m)
  end.

(** [self._rescale(e, r)] *)
Definition rescale (r : rounding) (d : decimal) (e : Z) : decimal :=
  if e <=? dexp d then Dec (scaled e d) e
  else Dec (div_round r (dcoef d) (10 ^ (e - dexp d))) e.

Definition prec : Z := 28.

(** [self._fix(context)] *)
Definition dfix (d : decimal) : decimal :=
  let n := ndigits (dcoef d) in
  if n <=? prec then d
  else let d' := rescale ROUND_HALF_EVEN d (dexp d + (n - prec)) in
       if prec <? ndigits (dcoef d') then Dec (Z.quot (dcoef d') 10) (dexp d' + 1) else d'.

(** ** Arithmetic *)

Definition dadd_exact (a b : decimal) : decimal :=
  let e := Z.min (dexp a) (dexp b) in Dec (scaled e a + scaled e b) e.
Definition dadd (a b : decimal) : decimal := dfix (dadd_exact a b).
Definition dopp (a : decimal) : decimal := Dec (- dcoef a) (dexp a).
Definition dsub (a b : decimal) : decimal := dadd a (dopp b).
Definition dmul (a b : decimal) : decimal := dfix (Dec (dcoef a * dcoef b) (dexp a + dexp b)).
Definition dneg (a : decimal) : decimal := dfix (dopp a).
Definition dabs (a : decimal) : decimal := dfix (Dec (Z.abs (dcoef a)) (dexp a)).

(** Strips trailing zeros of an exact quotient while the exponent is below the
    ideal one. *)
Fixpoint strip_zeros (fuel : nat) (c e ideal : Z) : decimal :=
  match fuel with
  | O => Dec c e
  | S fuel => if (e <? ideal) && (c mod 10 =? 0) then strip_zeros fuel (Z.quot c 10) (e + 1) ideal
              else Dec c e
  end.

(** [a / b] *)
Definition ddiv (a b : decimal) : result decimal :=
  if dcoef b =? 0 then Err (if dcoef a =? 0 then InvalidOperation else DivisionByZero)
  else if dcoef a =? 0 then Ok (Dec 0 (dexp a - dexp b))
  else
    let shift := ndigits (dcoef b) - ndigits (dcoef a) + prec + 1 in
    let e := dexp a - dexp b - shift in
    let s := Z.sgn (dcoef a) * Z.sgn (dcoef b) in
    let n := if 0 <=? shift then Z.abs (dcoef a) * 10 ^ shift else Z.abs (dcoef a) in
    let m := if 0 <=? shift then Z.abs (dcoef b) else Z.abs (dcoef b) * 10 ^ (- shift) in
    let q := n / m in
    if n mod m =? 0 then
      Ok (dfix (strip_zeros (Z.to_nat shift) (s * q) e (dexp a - dexp b)))
    else
      Ok (dfix (Dec (s * (if q mod 5 =? 0 then q + 1 else q)) e)).

(** [_fix] at another precision. *)
Definition dround (p : Z) (d : decimal) : decimal :=
  let n := ndigits (dcoef d) in
  if n <=? p then d
  else let d' := rescale ROUND_HALF_EVEN d (dexp d + (n - p)) in
       if p <? ndigits (dcoef d') then Dec (Z.quot (dcoef d') 10) (dexp d' + 1) else d'.

(** [d ** 2]: the product with three digits more, then rounded; zero loses its
    exponent. *)
Definition dsquare (d : decimal) : decimal :=
  if dcoef d =? 0 then d0 else dfix (dround (prec + 3) (Dec (dcoef d * dcoef d) (dexp d + dexp d))).

(** [d.sqrt()]: exact where it can be, rounded once where it cannot. *)
Definition dsqrt (d : decimal) : result decimal :=
  let e := dexp d / 2 in
  if dcoef d =? 0 then Ok (dfix (Dec 0 e)) else
  if dcoef d <? 0 then Err InvalidOperation else
  let odd := negb (dexp d mod 2 =? 0) in
  let c := if odd then dcoef d * 10 else dcoef d in
  let l := if odd then ndigits (dcoef d) / 2 + 1 else (ndigits (dcoef d) + 1) / 2 in
  let shift := prec + 1 - l in
  let q := if 0 <=? shift then c * 100 ^ shift else c / 100 ^ (- shift) in
  let exact := (0 <=? shift) || (c mod 100 ^ (- shift) =? 0) in
  let n := Z.sqrt q in
  Ok (dfix (if exact && (n * n =? q) then Dec (if 0 <=? shift then n / 10 ^ shift else n * 10 ^ (- shift)) e
            else Dec (if n mod 5 =? 0 then n + 1 else n) (e - shift))).

(** [d.quantize(Decimal(1).scaleb(e), rounding=r)] *)
Definition quantize (r : rounding) (d : decimal) (e : Z) : result decimal :=
  if dcoef d =? 0 then Ok (Dec 0 e)
  else if prec <? adjusted d - e + 1 then Err InvalidOperation
  else let a := rescale r d e in
       if prec <? ndigits (dcoef a) then Err InvalidOperation else Ok a.

(** [d.to_integral_value()] *)
Definition to_integral_value (d : decimal) : decimal :=
  if 0 <=? dexp d then d else rescale ROUND_HALF_EVEN d 0.

(** ** [str(d)] and [Decimal(s)] *)

Fixpoint zeros (n : nat) : string := match n with O => "" | S n => String "0" (zeros n) end.

(** [str(d)]: the to-scientific-string of the specification. *)
Definition dec_str (d : decimal) : string :=
  let int := nat_str (Z.abs (dcoef d)) in
  let len := slen int in
  let leftdigits := dexp d + len in
  let dotplace := if (dexp d <=? 0) && (-6 <? leftdigits) then leftdigits else 1 in
  let '(intpart, fracpart) :=
    if dotplace <=? 0 then ("0", "." +:+ zeros (Z.to_nat (- dotplace)) +:+ int)
    else if len <=? dotplace then (int +:+ zeros (Z.to_nat (dotplace - len)), "")
    else (str_take (Z.to_nat dotplace) int, "." +:+ str_drop (Z.to_nat dotplace) int) in
  let exp := if leftdigits =? dotplace then ""
             else "E" +:+ (if leftdigits - dotplace <? 0 then "" else "+")
                      +:+ int_str (leftdigits - dotplace) in
  (if dcoef d <? 0 then "-" else "") +:+ intpart +:+ fracpart +:+ exp.

Definition str_empty (s : string) : bool := match s with EmptyString => true | _ => false end.

(** An optional sign: whether it is a minus, and the rest. *)
Definition parse_sign (s : string) : bool * string :=
  match s with
  | String "-" s => (true, s)
  | String "+" s => (false, s)
  | _ => (false, s)
  end.

(** The exponent part, [""] or [E[+-]digits]; [None] if anything else is left. *)
Definition parse_exp (s : string) : option Z :=
  match s with
  | EmptyString => Some 0
  | String c s =>
      if bool_decide (c = "E"%char) || bool_decide (c = "e"%char) then
        let '(neg, s) := parse_sign s in
        let '(ds, rest) := span_digits s in
        if str_empty ds || negb (str_empty rest) then None
        else Some (if neg then - digits_val 0 ds else digits_val 0 ds)
      else None
  end.

(** [Decimal(s)] for a finite numeral: [[sign] digits [. digits] [exponent]],
    with a digit on at least one side of the point. *)
Definition dec_parse (s : string) : option decimal :=
  let '(neg, s) := parse_sign s in
  let '(int, s) := span_digits s in
  let '(frac, s) := match s with
                    | String "." s => span_digits s
                    | _ => ("", s)
                    end in
  if str_empty int && str_empty frac then None
  else match parse_exp s with
       | None => None
       | Some e => let n := digits_val 0 (int +:+ frac) in
                   Some (Dec (if neg then - n else n) (e - slen frac))
       end.

Example dec_str_ex :
  map dec_str [Dec 12345 (-2); Dec 0 0; Dec 1 (-8); Dec (-5) 3; Dec 100 (-2); Dec 123456 10; Dec 0 (-3); Dec 7 (-6)]
  = ["123.45"; "0"; "1E-8"; "-5E+3"; "1.00"; "1.23456E+15"; "0.000"; "0.000007"].
Proof. reflexivity. Qed.

Example ddiv_ex :
  (dec_str <$> match ddiv (dint 2) (dint 3) with Ok d => Some d | _ => None end,
   dec_str <$> match ddiv (dint 1) (dint 8) with Ok d => Some d | _ => None end,
   dec_str <$> match ddiv (dint 2000) (Dec 103 (-1)) with Ok d => Some d | _ => None end)
  = (Some "0.6666666666666666666666666667", Some "0.125", Some "194.1747572815533980582524272").
Proof. vm_compute. reflexivity. Qed.
