(* ===== verification/PyDecimalFacts.v ===== *)
(** * Facts about decimals

    The value of each operation as a rational, when it is exact and how far it
    is off otherwise, the directions of [quantize], and [Decimal(str(d)) = d]. *)

From Stdlib Require Import ssreflect ZArith Lia Ascii String QArith Qpower Qabs Lqa Morphisms.
From stdpp Require Import base strings numbers gmap sets list.
From S2P Require Import Prelude PyText PyDecimal.
#[local] Open Scope Z_scope.

(** ** Powers of ten *)

Lemma p10_pos e : (0 < p10 e)%Q.
Proof. apply Qpower_0_lt. reflexivity. Qed.
#[export] Hint Resolve p10_pos : turtle.

Lemma p10_plus a b : (p10 (a + b) == p10 a * p10 b)%Q.
Proof. apply Qpower_plus. discriminate. Qed.

Lemma p10_Z n : 0 <= n -> (p10 n == inject_Z (10 ^ n))%Q.
Proof. intros H. unfold p10. by rewrite Zpower_Qpower. Qed.

Lemma p10_split e k : 0 <= k -> (p10 (e + k) == inject_Z (10 ^ k) * p10 e)%Q.
Proof. intros H. rewrite p10_plus (p10_Z k H). ring. Qed.

Lemma p10_up e e' : e' <= e -> (p10 e == inject_Z (10 ^ (e - e')) * p10 e')%Q.
Proof. intros H. rewrite -p10_split; [lia|]. by replace (e' + (e - e')) with e by lia. Qed.

Lemma pow10_pos n : 0 <= n -> 0 < 10 ^ n.
Proof. intros. by apply Z.pow_pos_nonneg. Qed.
#[export] Hint Resolve pow10_pos : turtle.

(** ** Values and comparison *)

Lemma value_scaled e d : e <= dexp d -> (value d == inject_Z (scaled e d) * p10 e)%Q.
Proof.
  intros H. unfold value, scaled. rewrite inject_Z_mult.
  rewrite -{1}(Z.sub_add e (dexp d)) Z.add_comm p10_split; [lia|]. ring.
Qed.

Lemma Qcompare_scale (a b : Z) (p : Q) : (0 < p)%Q ->
  (inject_Z a * p ?= inject_Z b * p)%Q = (a ?= b).
Proof.
  intros Hp. destruct (Z.compare_spec a b) as [->|H|H].
  - by apply Qeq_alt.
  - apply Qlt_alt, Qmult_lt_r; [done|]. by rewrite -Zlt_Qlt.
  - apply Qgt_alt, Qmult_lt_r; [done|]. by rewrite -Zlt_Qlt.
Qed.

Lemma dcmp_spec a b : dcmp a b = (value a ?= value b)%Q.
Proof.
  unfold dcmp. set (e := Z.min (dexp a) (dexp b)).
  rewrite (value_scaled e a) ?(value_scaled e b); [lia|lia|].
  symmetry. apply Qcompare_scale, p10_pos.
Qed.

Lemma dltb_spec a b : dltb a b = true <-> (value a < value b)%Q.
Proof. unfold dltb. rewrite dcmp_spec Qlt_alt. by destruct (_ ?= _)%Q. Qed.
Lemma dleb_spec a b : dleb a b = true <-> (value a <= value b)%Q.
Proof. unfold dleb. rewrite dcmp_spec Qle_alt. by destruct (_ ?= _)%Q. Qed.
Lemma deqb_spec a b : deqb a b = true <-> (value a == value b)%Q.
Proof. unfold deqb. rewrite dcmp_spec Qeq_alt. by destruct (_ ?= _)%Q. Qed.

Lemma dltb_nspec a b : dltb a b = false <-> (value b <= value a)%Q.
Proof. rewrite -not_true_iff_false dltb_spec. split; [apply Qnot_lt_le|apply Qle_not_lt]. Qed.
Lemma dleb_nspec a b : dleb a b = false <-> (value b < value a)%Q.
Proof. rewrite -not_true_iff_false dleb_spec. split; [apply Qnot_le_lt|apply Qlt_not_le]. Qed.
Lemma deqb_nspec a b : deqb a b = false <-> ~ (value a == value b)%Q.
Proof. by rewrite -not_true_iff_false deqb_spec. Qed.

Lemma value_d0 : (value d0 == 0)%Q.
Proof. reflexivity. Qed.
Lemma value_d1 : (value d1 == 1)%Q.
Proof. reflexivity. Qed.

(** Numeric equality of decimals, coarser than equality of data; comparisons
    respect it. *)
Definition deq (a b : decimal) : Prop := (value a == value b)%Q.
#[global] Instance deq_equiv : Equivalence deq.
Proof. split; unfold deq; [by intros ?|by intros ?? ->|by intros ??? -> ->]. Qed.
#[global] Instance value_proper : Proper (deq ==> Qeq) value.
Proof. by intros a b H. Qed.
#[global] Instance dcmp_proper : Proper (deq ==> deq ==> eq) dcmp.
Proof. intros a a' Ha b b' Hb. rewrite !dcmp_spec. by rewrite Ha Hb. Qed.
#[global] Instance dltb_proper : Proper (deq ==> deq ==> eq) dltb.
Proof. intros a a' Ha b b' Hb. unfold dltb. by rewrite Ha Hb. Qed.
#[global] Instance dleb_proper : Proper (deq ==> deq ==> eq) dleb.
Proof. intros a a' Ha b b' Hb. unfold dleb. by rewrite Ha Hb. Qed.
#[global] Instance deqb_proper : Proper (deq ==> deq ==> eq) deqb.
Proof. intros a a' Ha b b' Hb. unfold deqb. by rewrite Ha Hb. Qed.

Lemma value_cmp0 d : (0 ?= value d)%Q = (0 ?= dcoef d).
Proof. unfold value. rewrite -(Qcompare_scale 0 (dcoef d) (p10 (dexp d))) ?Qmult_0_l //. apply p10_pos. Qed.

Lemma value_pos d : (0 < value d)%Q <-> 0 < dcoef d.
Proof. by rewrite Qlt_alt value_cmp0. Qed.
Lemma value_nonneg d : (0 <= value d)%Q <-> 0 <= dcoef d.
Proof. by rewrite Qle_alt value_cmp0. Qed.
Lemma value_zero d : (value d == 0)%Q <-> dcoef d = 0.
Proof.
  split.
  - intros H. symmetry in H. apply Qeq_alt in H. rewrite value_cmp0 in H. apply Z.compare_eq in H. lia.
  - intros H. unfold value. rewrite H. apply Qmult_0_l.
Qed.

(** ** Number of digits *)

Lemma ndigits_ge1 n : 1 <= ndigits n.
Proof. apply nat_str_len. lia. Qed.

Lemma ndigits_bounds n : n <> 0 -> 10 ^ (ndigits n - 1) <= Z.abs n < 10 ^ ndigits n.
Proof. intros H. apply nat_str_bounds. lia. Qed.

Lemma ndigits_le n k : 1 <= k -> ndigits n <= k <-> Z.abs n < 10 ^ k.
Proof.
  intros Hk. destruct (decide (n = 0)) as [->|Hn].
  - change (ndigits 0) with 1. pose proof (pow10_pos k). lia.
  - destruct (ndigits_bounds n Hn) as [Hlo Hhi]. split; intros H.
    + assert (10 ^ ndigits n <= 10 ^ k) by (apply Z.pow_le_mono_r; lia). lia.
    + destruct (Z.le_gt_cases (ndigits n) k) as [|Hgt]; [done|].
      assert (10 ^ k <= 10 ^ (ndigits n - 1)) by (apply Z.pow_le_mono_r; lia). lia.
Qed.

(** ** Rounding of a quotient *)

Lemma div_round_exact r n m : 0 < m -> n mod m = 0 -> m * div_round r n m = n.
Proof.
  intros Hm H. assert (Hn : n = m * (n / m)) by (apply Z.div_exact; lia).
  destruct r; simpl.
  - rewrite H. replace (2 * 0 <? m) with true by (symmetry; apply Z.ltb_lt; lia). lia.
  - rewrite -(Z.quot_unique_exact n m (n / m)); lia.
  - lia.
  - rewrite -(Z.div_unique_exact (- n) m (- (n / m))); lia.
Qed.

Lemma div_round_half_even n m : 0 < m -> 2 * Z.abs (m * div_round ROUND_HALF_EVEN n m - n) <= m.
Proof.
  intros Hm. simpl. pose proof (Z.div_mod n m ltac:(lia)). pose proof (Z.mod_pos_bound n m Hm).
  destruct (Z.ltb_spec (2 * (n mod m)) m); [lia|].
  destruct (Z.ltb_spec m (2 * (n mod m))); [lia|].
  destruct (Z.even _); lia.
Qed.

Lemma div_round_down n m : 0 < m ->
  Z.abs (m * div_round ROUND_DOWN n m) <= Z.abs n < Z.abs (m * div_round ROUND_DOWN n m) + m /\
  0 <= Z.sgn n * div_round ROUND_DOWN n m.
Proof.
  intros Hm. simpl. pose proof (Z.quot_rem' n m).
  destruct (Z.le_gt_cases 0 n) as [Hn|Hn].
  - pose proof (Z.rem_bound_pos n m Hn Hm). pose proof (Z.quot_pos n m Hn Hm).
    split; [nia|]. nia.
  - pose proof (Z.rem_bound_pos (- n) m ltac:(lia) Hm). pose proof (Z.quot_pos (- n) m ltac:(lia) Hm).
    rewrite Z.quot_opp_l in H1; [lia|]. rewrite Z.rem_opp_l in H0; [lia|]. split; nia.
Qed.

Lemma div_round_floor n m : 0 < m ->
  m * div_round ROUND_FLOOR n m <= n < m * div_round ROUND_FLOOR n m + m.
Proof. intros Hm. simpl. pose proof (Z.div_mod n m ltac:(lia)). pose proof (Z.mod_pos_bound n m Hm). lia. Qed.

Lemma div_round_ceiling n m : 0 < m ->
  m * div_round ROUND_CEILING n m - m < n <= m * div_round ROUND_CEILING n m.
Proof. intros Hm. simpl. pose proof (Z.div_mod (- n) m ltac:(lia)). pose proof (Z.mod_pos_bound (- n) m Hm). lia. Qed.

(** ** Rescaling *)

Lemma dexp_rescale r d e : dexp (rescale r d e) = e.
Proof. unfold rescale. by case_match. Qed.

Lemma rescale_finer r d e : e <= dexp d -> (value (rescale r d e) == value d)%Q.
Proof.
  intros H. unfold rescale. rewrite (proj2 (Z.leb_le _ _) H).
  by rewrite (value_scaled e d H).
Qed.

(** [d] and its rescaled coefficient at the finer exponent. *)
Lemma value_coarse d e c : dexp d <= e ->
  (value (Dec c e) == inject_Z (10 ^ (e - dexp d) * c) * p10 (dexp d))%Q.
Proof.
  intros H. rewrite (value_scaled (dexp d) (Dec c e)) /scaled /=; [done|].
  by rewrite Z.mul_comm.
Qed.

(** The rounded value compared with the number, through the integers. *)
Lemma rescale_value r d e : dexp d < e ->
  (value (rescale r d e) ==
   inject_Z (10 ^ (e - dexp d) * div_round r (dcoef d) (10 ^ (e - dexp d))) * p10 (dexp d))%Q.
Proof.
  intros H. unfold rescale. replace (e <=? dexp d) with false by (symmetry; apply Z.leb_gt; lia).
  apply value_coarse. lia.
Qed.

Lemma inject_p10_le a b e : a <= b -> (inject_Z a * p10 e <= inject_Z b * p10 e)%Q.
Proof. intros H. apply Qmult_le_compat_r; [by rewrite -Zle_Qle|apply Qlt_le_weak, p10_pos]. Qed.
Lemma inject_p10_lt a b e : a < b -> (inject_Z a * p10 e < inject_Z b * p10 e)%Q.
Proof. intros H. apply Qmult_lt_r; [apply p10_pos|by rewrite -Zlt_Qlt]. Qed.

Lemma rescale_exact r d e : e <= dexp d \/ dcoef d mod 10 ^ (e - dexp d) = 0 ->
  (value (rescale r d e) == value d)%Q.
Proof.
  intros H. destruct (Z.le_gt_cases e (dexp d)) as [|Hlt]; [by apply rescale_finer|].
  destruct H as [|H]; [lia|]. rewrite rescale_value // div_round_exact //. apply pow10_pos; lia.
Qed.

Lemma rescale_down d e : (0 <= value d)%Q ->
  (0 <= value (rescale ROUND_DOWN d e) <= value d)%Q /\
  (value d < value (rescale ROUND_DOWN d e) + p10 e)%Q.
Proof.
  intros Hd. destruct (Z.le_gt_cases e (dexp d)) as [|Hlt].
  - rewrite rescale_finer //. pose proof (p10_pos e). split; lra.
  - rewrite !rescale_value //. pose proof (pow10_pos (e - dexp d) ltac:(lia)) as Hp.
    apply value_nonneg in Hd.
    destruct (div_round_down (dcoef d) _ Hp) as [Hb Hs].
    assert (0 <= div_round ROUND_DOWN (dcoef d) (10 ^ (e - dexp d))).
    { destruct (decide (dcoef d = 0)) as [->|]; [by rewrite /= Z.quot_0_l; lia|]. nia. }
    rewrite (p10_up e (dexp d)); [lia|]. rewrite -Qmult_plus_distr_l -inject_Z_plus.
    split_and!.
    + rewrite -(Qmult_0_l (p10 (dexp d))). apply (inject_p10_le 0). nia.
    + apply inject_p10_le. nia.
    + apply inject_p10_lt. nia.
Qed.

Lemma rescale_floor d e :
  (value (rescale ROUND_FLOOR d e) <= value d < value (rescale ROUND_FLOOR d e) + p10 e)%Q.
Proof.
  destruct (Z.le_gt_cases e (dexp d)) as [|Hlt].
  - rewrite rescale_finer //. pose proof (p10_pos e). split; lra.
  - rewrite !rescale_value //. pose proof (pow10_pos (e - dexp d) ltac:(lia)) as Hp.
    destruct (div_round_floor (dcoef d) _ Hp) as [Ha Hb].
    rewrite (p10_up e (dexp d)); [lia|]. rewrite -Qmult_plus_distr_l -inject_Z_plus.
    split; [by apply inject_p10_le|by apply inject_p10_lt].
Qed.

Lemma rescale_ceiling d e :
  (value d <= value (rescale ROUND_CEILING d e) < value d + p10 e)%Q.
Proof.
  destruct (Z.le_gt_cases e (dexp d)) as [|Hlt].
  - rewrite rescale_finer //. pose proof (p10_pos e). split; lra.
  - rewrite !rescale_value //. pose proof (pow10_pos (e - dexp d) ltac:(lia)) as Hp.
    destruct (div_round_ceiling (dcoef d) _ Hp) as [Ha Hb].
    rewrite (p10_up e (dexp d)); [lia|]. rewrite {2}/value -Qmult_plus_distr_l -inject_Z_plus.
    split; [by apply inject_p10_le|apply inject_p10_lt; lia].
Qed.

(** ** The context rounding [_fix] *)

Lemma inject_p10_eq a b e : (inject_Z a * p10 e == inject_Z b * p10 e)%Q <-> a = b.
Proof.
  split; [|by intros ->]. intros H%Qeq_alt. rewrite Qcompare_scale in H; [apply p10_pos|].
  by apply Z.compare_eq.
Qed.

(** The numbers of at most 28 significant digits. *)
Definition fits (q : Q) : Prop := exists c e, Z.abs c < 10 ^ prec /\ (q == inject_Z c * p10 e)%Q.
#[global] Instance fits_proper : Proper (Qeq ==> iff) fits.
Proof. intros a b H. unfold fits. split; intros (c & e & ? & E); exists c, e; [by rewrite -H|by rewrite H]. Qed.

(** What [_fix] makes of a coefficient of more than 28 digits: the digits
    beyond the 28th, [k] of them, are rounded away. *)
Lemma dfix_long d k : k = ndigits (dcoef d) - prec -> 0 < k ->
  let r := div_round ROUND_HALF_EVEN (dcoef d) (10 ^ k) in
  (value (dfix d) == inject_Z (10 ^ k * r) * p10 (dexp d))%Q /\ Z.abs r <= 10 ^ prec /\
  Z.abs (dcoef (dfix d)) < 10 ^ prec.
Proof.
  intros Hk Hpos r. assert (Hn0 : dcoef d <> 0).
  { intros E. rewrite E in Hk. change (ndigits 0) with 1 in Hk. unfold prec in Hk. lia. }
  pose proof (ndigits_bounds _ Hn0) as [_ Hhi].
  replace (ndigits (dcoef d)) with (prec + k) in Hhi by lia.
  rewrite Z.pow_add_r in Hhi; [done|lia|].
  pose proof (pow10_pos k ltac:(lia)) as Hp.
  pose proof (div_round_half_even (dcoef d) _ Hp) as Hr. fold r in Hr.
  assert (Hrb : Z.abs r <= 10 ^ prec) by nia.
  unfold dfix. replace (ndigits (dcoef d) <=? prec) with false by (symmetry; apply Z.leb_gt; lia).
  rewrite -Hk. assert (Hre : rescale ROUND_HALF_EVEN d (dexp d + k) = Dec r (dexp d + k)).
  { unfold rescale. replace (dexp d + k <=? dexp d) with false by (symmetry; apply Z.leb_gt; lia).
    by replace (dexp d + k - dexp d) with k by lia. }
  rewrite Hre. cbn [dcoef dexp].
  destruct (Z.ltb_spec prec (ndigits r)) as [Hd|Hd].
  - assert (Hge : ~ Z.abs r < 10 ^ prec). { rewrite -ndigits_le; [done|lia]. }
    assert (Hr10 : r = 10 * Z.quot r 10).
    { assert (r = 10 ^ prec \/ r = - 10 ^ prec) as [-> | ->] by lia; reflexivity. }
    assert (0 < 10 ^ prec) by done. split_and!; [|done|cbn [dcoef]; lia].
    rewrite (value_scaled (dexp d)) /scaled /=; [lia|].
    replace (dexp d + k + 1 - dexp d) with (Z.succ k) by lia.
    rewrite Z.pow_succ_r; [lia|]. by replace (Z.quot r 10 * (10 * 10 ^ k)) with (10 ^ k * r) by lia.
  - split_and!; [|done|apply ndigits_le; [done|exact Hd]].
    rewrite (value_coarse d); [lia|]. by replace (dexp d + k - dexp d) with k by lia.
Qed.

Lemma dfix_short d : ndigits (dcoef d) <= prec -> dfix d = d.
Proof. intros H. unfold dfix. by rewrite (proj2 (Z.leb_le _ _) H). Qed.

Lemma dfix_cases d : ndigits (dcoef d) <= prec \/ 0 < ndigits (dcoef d) - prec.
Proof. lia. Qed.

(** The result always has at most 28 digits. *)
Lemma dfix_digits d : ndigits (dcoef (dfix d)) <= prec.
Proof.
  destruct (dfix_cases d) as [H|H]; [by rewrite dfix_short|].
  apply ndigits_le; [done|]. by apply (dfix_long d _ eq_refl H).
Qed.

Lemma fits_short d : ndigits (dcoef d) <= prec -> fits (value d).
Proof. intros H. exists (dcoef d), (dexp d). split; [by apply ndigits_le|done]. Qed.

Lemma fits_dfix d : fits (value (dfix d)).
Proof. apply fits_short, dfix_digits. Qed.

(** Rounding changes nothing that fits. *)
Lemma dfix_exact d : fits (value d) -> (value (dfix d) == value d)%Q.
Proof.
  intros (c & e & Hc & E). destruct (dfix_cases d) as [H|H]; [by rewrite dfix_short|].
  destruct (dfix_long d _ eq_refl H) as (Hv & _). rewrite Hv /value inject_p10_eq.
  apply div_round_exact; [apply pow10_pos; lia|].
  set (k := ndigits (dcoef d) - prec) in *.
  destruct (Z.le_gt_cases e (dexp d)) as [He|He].
  - rewrite (value_scaled e) // inject_p10_eq /scaled in E.
    pose proof (pow10_pos (dexp d - e) ltac:(lia)).
    assert (~ Z.abs (dcoef d) < 10 ^ prec). { rewrite -ndigits_le; [done|lia]. }
    nia.
  - rewrite (p10_up e (dexp d)) in E; [lia|].
    rewrite Qmult_assoc -inject_Z_mult /value inject_p10_eq in E.
    assert (Hke : k <= e - dexp d).
    { assert (Hl : ndigits (dcoef d) <= prec + (e - dexp d)); [|unfold k; lia].
      apply ndigits_le; [unfold prec; lia|]. rewrite Z.pow_add_r; [done|lia|].
      pose proof (pow10_pos (e - dexp d) ltac:(lia)). rewrite E. nia. }
    rewrite E. replace (e - dexp d) with (e - dexp d - k + k) by lia.
    rewrite Z.pow_add_r; [lia|lia|]. rewrite Z.mul_assoc. apply Z.mod_mul.
    pose proof (pow10_pos k ltac:(lia)). lia.
Qed.

Lemma Qabs_inject_p10 a e : (Qabs (inject_Z a * p10 e) == inject_Z (Z.abs a) * p10 e)%Q.
Proof. rewrite Qabs_Qmult (Qabs_pos (p10 e)); [apply Qlt_le_weak, p10_pos|]. done. Qed.

Lemma Qsub_inject_p10 a b e :
  (inject_Z a * p10 e - inject_Z b * p10 e == inject_Z (a - b) * p10 e)%Q.
Proof. unfold Z.sub. rewrite inject_Z_plus inject_Z_opp. ring. Qed.

(** The error of one rounding: at most half a unit of the 28th digit, hence
    at most [5 * 10^-28] of the number. *)
Lemma dfix_error d : (Qabs (value (dfix d) - value d) <= (5 # 1) * p10 (- prec) * Qabs (value d))%Q.
Proof.
  destruct (dfix_cases d) as [H|H].
  - rewrite dfix_short // /value Qsub_inject_p10 Z.sub_diag Qmult_0_l.
    change (Qabs 0) with 0%Q. rewrite -/(value d). apply Qmult_le_0_compat; [|apply Qabs_nonneg]. by vm_compute.
  - destruct (dfix_long d _ eq_refl H) as (Hv & _ & _). set (k := ndigits (dcoef d) - prec) in *.
    pose proof (pow10_pos k ltac:(lia)) as Hp.
    pose proof (div_round_half_even (dcoef d) _ Hp) as Hr.
    assert (Hn0 : dcoef d <> 0). { intros E. subst k. rewrite E in H. by vm_compute in H. }
    destruct (ndigits_bounds _ Hn0) as [Hlo _].
    replace (ndigits (dcoef d) - 1) with (k + 27) in Hlo by (unfold k, prec; lia).
    rewrite Z.pow_add_r in Hlo; [lia|lia|].
    rewrite Hv /value Qsub_inject_p10.
    rewrite !Qabs_inject_p10 Qmult_assoc. apply Qmult_le_compat_r; [|apply Qlt_le_weak, p10_pos].
    set (x := Z.abs (_ - _)) in *. set (y := Z.abs (dcoef d)) in *.
    assert (Hxy : 2 * 10 ^ 27 * x <= y) by nia.
    apply (Qmult_le_r _ _ (inject_Z (2 * 10 ^ 27))); [reflexivity|].
    assert (E5 : ((5 # 1) * p10 (- prec) * inject_Z y * inject_Z (2 * 10 ^ 27) == inject_Z y)%Q).
    { rewrite -Qmult_assoc (Qmult_comm (inject_Z y)) Qmult_assoc.
      assert ((5 # 1) * p10 (- prec) * inject_Z (2 * 10 ^ 27) == 1)%Q as -> by (by vm_compute). ring. }
    rewrite E5 -inject_Z_mult -Zle_Qle. lia.
Qed.

(** Rounding keeps the sign. *)
Lemma dfix_sgn d : Z.sgn (dcoef (dfix d)) = Z.sgn (dcoef d).
Proof.
  destruct (dfix_cases d) as [H|H]; [by rewrite dfix_short|].
  pose proof (dfix_error d) as He.
  assert (Hc : ((5 # 1) * p10 (- prec) < 1)%Q) by (by vm_compute).
  assert (Hsgn : forall x y : Q, (Qabs (y - x) <= (5 # 1) * p10 (- prec) * Qabs x)%Q ->
            (0 < x -> 0 < y)%Q /\ (x < 0 -> y < 0)%Q).
  { intros x y [Ha Hb]%Qabs_Qle_condition. split; intros Hx.
    - rewrite Qabs_pos in Ha; [by apply Qlt_le_weak|]. nra.
    - rewrite Qabs_neg in Hb; [by apply Qlt_le_weak|]. nra. }
  destruct (Hsgn _ _ He) as [Hp Hn].
  destruct (Z.lt_trichotomy (dcoef d) 0) as [Hlt|[Heq|Hgt]].
  - assert (value (dfix d) < 0)%Q.
    { apply Hn. apply Qnot_le_lt. rewrite value_nonneg. lia. }
    assert (dcoef (dfix d) < 0). { apply Z.nle_gt. rewrite -value_nonneg. by apply Qlt_not_le. }
    lia.
  - rewrite Heq in H. by vm_compute in H.
  - assert (0 < dcoef (dfix d)). { apply value_pos, Hp, value_pos, Hgt. } lia.
Qed.

Lemma dfix_pos d : (0 < value (dfix d))%Q <-> (0 < value d)%Q.
Proof. rewrite !value_pos. pose proof (dfix_sgn d). lia. Qed.
Lemma dfix_nonneg d : (0 <= value (dfix d))%Q <-> (0 <= value d)%Q.
Proof. rewrite !value_nonneg. pose proof (dfix_sgn d). lia. Qed.
Lemma dfix_zero d : (value (dfix d) == 0)%Q <-> (value d == 0)%Q.
Proof. rewrite !value_zero. pose proof (dfix_sgn d). lia. Qed.

(** ** Values of the operations *)

Lemma dadd_exact_value a b : (value (dadd_exact a b) == value a + value b)%Q.
Proof.
  unfold dadd_exact. set (e := Z.min (dexp a) (dexp b)).
  rewrite (value_scaled e a) ?(value_scaled e b); [lia|lia|].
  unfold value. cbn [dcoef dexp]. rewrite inject_Z_plus. ring.
Qed.

Lemma dopp_value a : (value (dopp a) == - value a)%Q.
Proof. unfold value, dopp. cbn [dcoef dexp]. rewrite inject_Z_opp. ring. Qed.

Lemma dadd_value a b : fits (value a + value b) -> (value (dadd a b) == value a + value b)%Q.
Proof. intros H. unfold dadd. rewrite dfix_exact dadd_exact_value //. Qed.

Lemma dsub_value a b : fits (value a - value b) -> (value (dsub a b) == value a - value b)%Q.
Proof. intros H. unfold dsub. rewrite dadd_value dopp_value //. Qed.

Lemma dmul_exact_value a b :
  (value (Dec (dcoef a * dcoef b) (dexp a + dexp b)) == value a * value b)%Q.
Proof. unfold value. cbn [dcoef dexp]. rewrite inject_Z_mult p10_plus. ring. Qed.

Lemma dmul_value a b : fits (value a * value b) -> (value (dmul a b) == value a * value b)%Q.
Proof. intros H. unfold dmul. rewrite dfix_exact dmul_exact_value //. Qed.

Lemma dadd_pos a b : (0 < value (dadd a b))%Q <-> (0 < value a + value b)%Q.
Proof. unfold dadd. by rewrite dfix_pos dadd_exact_value. Qed.
Lemma dadd_nonneg a b : (0 <= value (dadd a b))%Q <-> (0 <= value a + value b)%Q.
Proof. unfold dadd. by rewrite dfix_nonneg dadd_exact_value. Qed.
Lemma dadd_zero a b : (value (dadd a b) == 0)%Q <-> (value a + value b == 0)%Q.
Proof. unfold dadd. by rewrite dfix_zero dadd_exact_value. Qed.
Lemma dsub_nonneg a b : (0 <= value (dsub a b))%Q <-> (value b <= value a)%Q.
Proof. unfold dsub. rewrite dadd_nonneg dopp_value. split; lra. Qed.
Lemma dmul_pos a b : (0 < value (dmul a b))%Q <-> (0 < value a * value b)%Q.
Proof. unfold dmul. by rewrite dfix_pos dmul_exact_value. Qed.

Lemma dabs_value a : ndigits (dcoef a) <= prec -> (value (dabs a) == Qabs (value a))%Q.
Proof.
  intros H. unfold dabs. rewrite dfix_short.
  - unfold ndigits in *. cbn [dcoef]. by rewrite Z.abs_involutive.
  - unfold value. by rewrite Qabs_inject_p10.
Qed.

(** ** Fixed-point grids: sums of multiples of [10^-k] are exact *)

Definition on_grid (k : Z) (q : Q) : Prop := exists c : Z, (q == inject_Z c * p10 (- k))%Q.
#[global] Instance on_grid_proper k : Proper (Qeq ==> iff) (on_grid k).
Proof. intros a b H. unfold on_grid. by setoid_rewrite H. Qed.

Lemma on_grid_0 k : on_grid k 0.
Proof. exists 0. by rewrite Qmult_0_l. Qed.
Lemma on_grid_plus k a b : on_grid k a -> on_grid k b -> on_grid k (a + b).
Proof. intros [c Hc] [c' Hc']. exists (c + c'). rewrite Hc Hc' inject_Z_plus. ring. Qed.
Lemma on_grid_opp k a : on_grid k a -> on_grid k (- a).
Proof. intros [c Hc]. exists (- c). rewrite Hc inject_Z_opp. ring. Qed.
Lemma on_grid_minus k a b : on_grid k a -> on_grid k b -> on_grid k (a - b).
Proof. intros Ha Hb. apply on_grid_plus; [done|by apply on_grid_opp]. Qed.
#[export] Hint Resolve on_grid_0 on_grid_plus on_grid_opp on_grid_minus : turtle.

Lemma grid_fits k q : on_grid k q -> (Qabs q < p10 (prec - k))%Q -> fits q.
Proof.
  intros [c Hc] H. exists c, (- k). split; [|done].
  rewrite Hc Qabs_inject_p10 p10_plus (p10_Z prec) in H; [done|].
  apply Qmult_lt_r in H; [|apply p10_pos]. by rewrite -Zlt_Qlt in H.
Qed.

Lemma dadd_grid k a b : on_grid k (value a) -> on_grid k (value b) ->
  (Qabs (value a + value b) < p10 (prec - k))%Q ->
  (value (dadd a b) == value a + value b)%Q.
Proof. intros Ha Hb H. eapply dadd_value, grid_fits; [|exact H]. by apply on_grid_plus. Qed.

Lemma dsub_grid k a b : on_grid k (value a) -> on_grid k (value b) ->
  (Qabs (value a - value b) < p10 (prec - k))%Q ->
  (value (dsub a b) == value a - value b)%Q.
Proof. intros Ha Hb H. eapply dsub_value, grid_fits; [|exact H]. by apply on_grid_minus. Qed.

(** A quotient by a positive number exists. *)
Lemma ddiv_Ok a b : (0 < value b)%Q -> exists c, ddiv a b = Ok c.
Proof.
  intros Hb. apply value_pos in Hb. unfold ddiv. destruct (Z.eqb_spec (dcoef b) 0); [lia|].
  destruct (dcoef a =? 0); [by eexists|]. case_match; by eexists.
Qed.

Lemma strip_zeros_value fuel c e i : (value (strip_zeros fuel c e i) == value (Dec c e))%Q.
Proof.
  revert c e. induction fuel as [|fuel IH]; intros c e; [done|]. cbn [strip_zeros].
  destruct ((e <? i) && (c mod 10 =? 0)) eqn:E; [|done]. apply andb_true_iff in E as [_ E%Z.eqb_eq].
  rewrite IH. unfold value. cbn [dcoef dexp]. rewrite (p10_up (e + 1) e); [lia|].
  replace (e + 1 - e) with 1 by lia. rewrite Qmult_assoc -inject_Z_mult. apply inject_p10_eq.
  assert (Hc : c = (c / 10) * 10) by (rewrite Z.mul_comm; apply Z.div_exact; lia). rewrite {1}Hc Z.quot_mul; lia.
Qed.

(** The quotient before its last rounding: within a unit of [n / m]. *)
Lemma ddiv_quotient a b q : 0 < dcoef a -> 0 < dcoef b -> ddiv a b = Ok q ->
  exists n m c e d, 0 < m /\ 10 ^ prec * m <= n /\ Z.abs (c * m - n) < m /\ q = dfix d /\
  (value d == inject_Z c * p10 e)%Q /\ (value a * inject_Z m == inject_Z n * p10 e * value b)%Q.
Proof.
  intros Ha Hb. unfold ddiv. destruct (Z.eqb_spec (dcoef b) 0) as [|_]; [lia|]. destruct (Z.eqb_spec (dcoef a) 0) as [|_]; [lia|].
  set (shift := ndigits (dcoef b) - ndigits (dcoef a) + prec + 1). set (e := dexp a - dexp b - shift).
  set (n := if 0 <=? shift then _ else _). set (m := if 0 <=? shift then _ else _).
  rewrite (Z.sgn_pos (dcoef a)) // (Z.sgn_pos (dcoef b)) //.
  destruct (ndigits_bounds (dcoef a)) as [Ha1 Ha2]; [lia|]. destruct (ndigits_bounds (dcoef b)) as [Hb1 Hb2]; [lia|].
  rewrite Z.abs_eq in Ha1; [lia|]. rewrite Z.abs_eq in Hb2; [lia|].
  pose proof (ndigits_ge1 (dcoef a)). pose proof (ndigits_ge1 (dcoef b)).
  assert (Hnm : 0 < m /\ 10 ^ prec * m <= n /\ (value a * inject_Z m == inject_Z n * p10 e * value b)%Q).
  { unfold n, m. rewrite !(Z.abs_eq (dcoef _)); [lia..|]. unfold value. destruct (Z.leb_spec 0 shift) as [Hs|Hs]; split_and!; [done| | |pose proof (pow10_pos (- shift)); nia| |].
    - assert (Ep : 10 ^ (ndigits (dcoef a) - 1) * 10 ^ shift = 10 ^ prec * 10 ^ ndigits (dcoef b)).
      { rewrite -!Z.pow_add_r; unfold shift, prec in *; [lia..|]. f_equal. lia. }
      pose proof (pow10_pos shift Hs). assert (0 < 10 ^ prec) by done. nia.
    - replace (dexp a) with (e + dexp b + shift) by (unfold e; lia). rewrite p10_split; [lia|]. rewrite p10_plus inject_Z_mult. ring.
    - assert (Ep : 10 ^ (ndigits (dcoef a) - 1) = 10 ^ prec * (10 ^ ndigits (dcoef b) * 10 ^ (- shift))).
      { rewrite -!Z.pow_add_r; unfold shift, prec in *; [lia..|]. f_equal. lia. }
      pose proof (pow10_pos (- shift) ltac:(lia)). assert (0 < 10 ^ prec) by done. nia.
    - rewrite inject_Z_mult. replace e with (dexp a - dexp b + - shift) by (unfold e; lia). rewrite p10_split; [lia|].
      replace (dexp a) with ((dexp a - dexp b) + dexp b) at 1 by lia. rewrite p10_plus. ring. }
  destruct Hnm as (Hm & Hn & Hv). pose proof (Z.div_mod n m ltac:(lia)) as Hdm. pose proof (Z.mod_pos_bound n m Hm).
  destruct (Z.eqb_spec (n mod m) 0) as [E|E]; intros [= <-].
  - exists n, m, (1 * (n / m)), e. eexists. split_and!; [done|done|lia|reflexivity|by rewrite strip_zeros_value|done].
  - set (c := Z.mul _ (if _ then _ else _)). exists n, m, c, e, (Dec c e). split_and!; [done|done| |done|reflexivity|done].
    unfold c. destruct (n / m mod 5 =? 0); nia.
Qed.

(** The error of a division of positive numbers. *)
Lemma ddiv_error a b q : (0 < value a)%Q -> (0 < value b)%Q -> ddiv a b = Ok q ->
  (Qabs (value q * value b - value a) <= p10 (- 27) * value a)%Q.
Proof.
  intros Ha Hb H. apply value_pos in Ha as Ha', Hb as Hb'.
  destruct (ddiv_quotient a b q Ha' Hb' H) as (n & m & c & e & d & Hm & Hn & Hc & -> & Hd & Hv).
  pose proof (dfix_error d) as Hr. set (u := (p10 e * value b)%Q).
  assert (Hu : (0 < u)%Q) by (apply Qmult_lt_0_compat; [apply p10_pos|done]).
  assert (HM : (0 < inject_Z m)%Q) by (by rewrite -(Zlt_Qlt 0)).
  (* a is at least 10^28 units *)
  assert (Hua : (u <= p10 (- 28) * value a)%Q).
  { apply (Qmult_le_r _ _ (inject_Z m)); [done|]. rewrite -Qmult_assoc Hv -/u.
    assert (Hn' : (inject_Z (10 ^ prec) * inject_Z m <= inject_Z n)%Q) by (by rewrite -inject_Z_mult -Zle_Qle).
    assert (E1 : (p10 (- 28) * inject_Z (10 ^ prec) == 1)%Q) by by vm_compute.
    assert (u * inject_Z m == p10 (-28) * (inject_Z (10 ^ prec) * inject_Z m) * u)%Q as -> by (rewrite Qmult_assoc E1; ring).
    rewrite -!Qmult_assoc. apply Qmult_le_l; [apply p10_pos|].
    rewrite Qmult_assoc. by apply Qmult_le_r. }
  (* c units are within a unit of a *)
  assert (Hcu : (Qabs (inject_Z c * u - value a) <= u)%Q).
  { apply (Qmult_le_r _ _ (inject_Z m)); [done|]. rewrite -{1}(Qabs_pos (inject_Z m)); [apply Qlt_le_weak, HM|].
    rewrite -Qabs_Qmult.
    assert ((inject_Z c * u - value a) * inject_Z m == inject_Z (c * m - n) * u)%Q as ->.
    { rewrite /Z.sub inject_Z_plus inject_Z_opp inject_Z_mult.
      assert ((inject_Z c * u - value a) * inject_Z m == inject_Z c * u * inject_Z m - value a * inject_Z m)%Q as -> by ring.
      rewrite Hv. unfold u. ring. }
    rewrite Qabs_Qmult (Qabs_pos u); [by apply Qlt_le_weak|]. rewrite Qmult_comm. apply Qmult_le_l; [done|].
    change (Qabs (inject_Z (c * m - n))) with (inject_Z (Z.abs (c * m - n))). rewrite -Zle_Qle. lia. }
  assert (Hdv : (value d * value b == inject_Z c * u)%Q) by (rewrite Hd; unfold u; ring).
  assert (Hrb : (Qabs (value (dfix d) * value b - inject_Z c * u) <= (5 # 1) * p10 (- prec) * Qabs (inject_Z c * u))%Q).
  { rewrite -Hdv Qabs_Qmult (Qabs_pos (value b)); [by apply Qlt_le_weak|].
    assert (value (dfix d) * value b - value d * value b == (value (dfix d) - value d) * value b)%Q as -> by ring.
    rewrite Qabs_Qmult (Qabs_pos (value b)); [by apply Qlt_le_weak|]. rewrite Qmult_assoc. by apply Qmult_le_r. }
  change (p10 (- prec)) with (p10 (- 28)) in Hrb. assert (E28 : (p10 (-28) == 1 # 10000000000000000000000000000)%Q) by by vm_compute.
  assert (E27 : (p10 (-27) == 1 # 1000000000000000000000000000)%Q) by by vm_compute. rewrite E27. rewrite E28 in Hrb, Hua.
  revert Hrb Hcu Hua. generalize (value (dfix d) * value b)%Q as x. generalize (inject_Z c * u)%Q as y. intros y x.
  assert (Hx : forall z t, (Qabs z <= t)%Q -> (- t <= z /\ z <= t)%Q) by (intros z t; by apply Qabs_Qle_condition).
  intros H1%Hx H2%Hx H3. apply Qabs_Qle_condition. revert H1. apply Qabs_case; intros ? [H1 H4]; destruct H2; split; lra.
Qed.

(** ** [quantize] *)

Lemma quantize_Ok r d e q : quantize r d e = Ok q ->
  dexp q = e /\ (value q == value (rescale r d e))%Q.
Proof.
  unfold quantize. destruct (Z.eqb_spec (dcoef d) 0) as [Hz|Hz].
  - intros [= <-]. split; [done|].
    assert (Hd : (value d == 0)%Q) by (by apply value_zero).
    rewrite rescale_exact; [|by rewrite Hd /value Qmult_0_l].
    rewrite Hz Zmod_0_l. by right.
  - destruct (prec <? _); [done|]. destruct (prec <? _); [done|].
    intros [= <-]. by rewrite dexp_rescale.
Qed.

(** ** [Decimal(str(d)) = d] *)

Lemma digits_val_zeros n s : digits_val 0 (zeros n +:+ s) = digits_val 0 s.
Proof. induction n as [|n IH]; [done|]. cbn [zeros]. by rewrite app_cons_s /= IH. Qed.

Lemma zeros_digits n : str_forall is_digit (zeros n) = true.
Proof. induction n as [|n IH]; [done|]. by cbn. Qed.

Lemma zeros_len n : slen (zeros n) = Z.of_nat n.
Proof. induction n as [|n IH]; [done|]. unfold slen in *. cbn [zeros String.length]. lia. Qed.

Definition digit_head (s : string) : Prop :=
  match s with EmptyString => False | String c _ => is_digit c = true end.

Lemma digit_head_app s r : str_forall is_digit s = true -> s <> "" -> digit_head (s +:+ r).
Proof. destruct s as [|c s]; [done|]. rewrite app_cons_s /=. by intros [-> _]%andb_true_iff. Qed.

Lemma parse_sign_digit s : digit_head s -> parse_sign s = (false, s).
Proof.
  destruct s as [|c s]; [done|]. simpl. intros Hc.
  destruct c as [[] [] [] [] [] [] [] []]; try done; vm_compute in Hc; done.
Qed.

Lemma parse_sign_str (neg : bool) s : digit_head s ->
  parse_sign ((if neg then "-" else "") +:+ s) = (neg, s).
Proof. destruct neg; [done|]. intros H. rewrite app_nil_l_s. by apply parse_sign_digit. Qed.

Lemma parse_exp_str z :
  parse_exp ("E" +:+ (if z <? 0 then "" else "+") +:+ int_str z) = Some z.
Proof.
  assert (Hd : forall n, 0 <= n -> let '(ds, rest) := span_digits (nat_str n) in
            str_empty ds || negb (str_empty rest) = false /\ digits_val 0 ds = n).
  { intros n Hn. pose proof (span_digits_app (nat_str n) "" (nat_str_digits n Hn) I) as Hs.
    rewrite app_nil_r_s in Hs. rewrite Hs. split; [|by apply nat_str_val].
    by destruct (nat_str_nonempty n Hn) as (c & s & -> & _). }
  unfold int_str. destruct (Z.ltb_spec z 0) as [Hz|Hz].
  - rewrite app_nil_l_s app_cons_s app_nil_l_s. cbn -[span_digits nat_str digits_val].
    specialize (Hd (- z) ltac:(lia)). destruct (span_digits (nat_str (- z))) as [ds rest].
    destruct Hd as [-> ->]. f_equal. lia.
  - rewrite !app_cons_s !app_nil_l_s. cbn -[span_digits nat_str digits_val].
    specialize (Hd z Hz). destruct (span_digits (nat_str z)) as [ds rest].
    by destruct Hd as [-> ->].
Qed.

(** A numeral put together from its parts. *)
Definition frac_part (f : option string) : string :=
  match f with None => "" | Some f => "." +:+ f end.

Lemma dec_parse_parts neg int f (ex : string) e :
  str_forall is_digit int = true -> int <> "" -> str_forall is_digit (default "" f) = true ->
  match ex with "" => True | String c _ => c = "E"%char end ->
  parse_exp ex = Some e ->
  dec_parse ((if neg : bool then "-" else "") +:+ int +:+ frac_part f +:+ ex)
  = Some (Dec (if neg then - digits_val 0 (int +:+ default "" f) else digits_val 0 (int +:+ default "" f))
              (e - slen (default "" f))).
Proof.
  intros Hi Hne Hf Hx He. unfold dec_parse. rewrite parse_sign_str; [by apply digit_head_app|].
  assert (Hxh : no_digit_head ex). { destruct ex; [done|]. by rewrite Hx. }
  rewrite span_digits_app; [done| |].
  { destruct f; [done|]. by rewrite /= app_nil_l_s. }
  destruct int as [|c int]; [done|]. cbn [str_empty andb].
  destruct f as [f|]; cbn [frac_part default] in *.
  - change (("." +:+ f) +:+ ex) with (String "." (f +:+ ex)). cbv iota beta. rewrite span_digits_app // He. done.
  - rewrite app_nil_l_s. destruct ex as [|c' ex]; [by rewrite He|]. subst c'. cbn [default id]. by rewrite He.
Qed.

Lemma dec_parse_str d : dec_parse (dec_str d) = Some d.
Proof.
  destruct d as [c e]. unfold dec_str. cbn [dcoef dexp].
  set (int := nat_str (Z.abs c)). set (len := slen int).
  assert (Hval : digits_val 0 int = Z.abs c) by (apply nat_str_val; lia).
  assert (Hdig : str_forall is_digit int = true) by (apply nat_str_digits; lia).
  assert (Hlen : 1 <= len) by (apply nat_str_len; lia).
  assert (Hne : int <> ""). { intros E. subst len. rewrite E in Hlen. by vm_compute in Hlen. }
  assert (Hc : (if c <? 0 then - Z.abs c else Z.abs c) = c) by (destruct (Z.ltb_spec c 0); lia).
  set (dp := if (e <=? 0) && (-6 <? e + len) then e + len else 1).
  assert (Hdp : dp = e + len /\ e <= 0 \/ dp = 1 /\ e + len <> 1).
  { subst dp. destruct (Z.leb_spec e 0), (Z.ltb_spec (-6) (e + len)); simpl; lia. }
  set (ex := if e + len =? dp then "" else _).
  assert (Hex : parse_exp ex = Some (e + len - dp) /\
                match ex with "" => True | String c _ => c = "E"%char end).
  { subst ex. destruct (Z.eqb_spec (e + len) dp) as [->|].
    - by rewrite Z.sub_diag.
    - split; [apply parse_exp_str|done]. }
  destruct Hex as [Hex Hh].
  destruct (Z.leb_spec dp 0) as [Hd0|Hd0].
  - change ("." +:+ zeros (Z.to_nat (- dp)) +:+ int) with (frac_part (Some (zeros (Z.to_nat (- dp)) +:+ int))).
    rewrite (dec_parse_parts _ "0" _ _ _ _ _ _ Hh Hex) //.
    { cbn [default id]. by rewrite str_forall_app zeros_digits. }
    cbn [default id]. rewrite app_cons_s app_nil_l_s. cbn [digits_val].
    change (10 * 0 + digit_val "0") with 0. rewrite digits_val_zeros Hval Hc slen_app zeros_len.
    do 2 f_equal. fold len. lia.
  - destruct (Z.leb_spec len dp) as [Hl|Hl].
    + replace (Z.to_nat (dp - len)) with O by lia. cbn [zeros]. rewrite app_nil_r_s.
      rewrite -(app_nil_l_s ex) -/(frac_part None).
      rewrite (dec_parse_parts _ _ _ _ _ _ _ _ Hh Hex) // /= app_nil_r_s Hval Hc.
      do 2 f_equal. unfold slen. simpl. lia.
    + set (n := Z.to_nat dp).
      assert (Htd := str_take_drop n int).
      assert (Htl : String.length (str_take n int) = n).
      { apply str_take_length. subst n len. unfold slen in Hl. lia. }
      rewrite -Htd str_forall_app in Hdig. apply andb_true_iff in Hdig as [Hd1 Hd2].
      change ("." +:+ str_drop n int) with (frac_part (Some (str_drop n int))).
      rewrite (dec_parse_parts _ _ _ _ _ _ _ _ Hh Hex) //.
      { intros E. rewrite E in Htl. simpl in Htl. lia. }
      cbn [default id]. rewrite Htd Hval Hc. do 2 f_equal.
      assert (slen (str_drop n int) = len - dp); [|lia].
      subst len. rewrite -{2}Htd slen_app. unfold slen at 2. rewrite Htl. lia.
Qed.
#[export] Hint Rewrite dec_parse_str : turtle_rw.
