(* ===== verification/PyFloat.v ===== *)
(** * Python's [float]

    Finite binary64 numbers as a mantissa and an exponent of two, the true
    division of integers, comparison with integers and decimals, and [repr].
    Overflow, subnormal numbers, NaN, the infinities and the sign of a zero are
    not modelled: the engine's floats are ages in seconds and fractions read
    from its configuration. *)

From Stdlib Require Import ssreflect ZArith Lia Ascii String QArith Qpower Qabs Lqa.
From stdpp Require Import base strings numbers gmap sets list.
From S2P Require Import Prelude PyText PyDecimal PyDecimalFacts.
#[local] Open Scope Z_scope.

Record float := Fl { fmant : Z; fexp : Z }.

#[global] Instance float_eq_dec : EqDecision float.
Proof. solve_decision. Defined.

Definition fvalue (f : float) : Q := (inject_Z (fmant f) * Qpower (inject_Z 2) (fexp f))%Q.

(** The exponent of two of [n / m], for positive [n] and [m]. *)
Definition log2_div (n m : Z) : Z :=
  let d := Z.log2 n - Z.log2 m in
  if (if 0 <=? d then m * 2 ^ d <=? n else m <=? n * 2 ^ (- d)) then d else d - 1.

(** [n / m] for integers, [m > 0]: the nearest number of 53 bits. *)
Definition true_div (n m : Z) : float :=
  if n =? 0 then Fl 0 0 else
  let e := log2_div (Z.abs n) m - 52 in
  Fl (div_round ROUND_HALF_EVEN (if e <? 0 then n * 2 ^ (- e) else n) (if e <? 0 then m else m * 2 ^ e)) e.

Definition float_of_int (n : Z) : float := true_div n 1.

(** The product of floats, rounded once. *)
Definition fmul (f g : float) : float :=
  let m := fmant f * fmant g in
  let e := fexp f + fexp g in
  if e <? 0 then true_div m (2 ^ (- e)) else true_div (m * 2 ^ e) 1.

(** [f <= k] and [f < k] for an integer [k]. *)
Definition fleb_int (f : float) (k : Z) : bool :=
  if fexp f <? 0 then fmant f <=? k * 2 ^ (- fexp f) else fmant f * 2 ^ fexp f <=? k.
Definition fltb_int (f : float) (k : Z) : bool :=
  if fexp f <? 0 then fmant f <? k * 2 ^ (- fexp f) else fmant f * 2 ^ fexp f <? k.

(** [f < g] *)
Definition fltb (f g : float) : bool := match (fvalue f ?= fvalue g)%Q with Lt => true | _ => false end.

(** [f < d] and [d < f] for a decimal [d]: exact. *)
Definition fltb_dec (f : float) (d : decimal) : bool :=
  match (fvalue f ?= value d)%Q with Lt => true | _ => false end.

(** ** [repr] *)

(** The numerator and denominator of a float. *)
Definition fratio (f : float) : Z * Z :=
  if fexp f <? 0 then (fmant f, 2 ^ (- fexp f)) else (fmant f * 2 ^ fexp f, 1).

(** The position of the decimal point: [10^(p-1) <= n/d < 10^p]. *)
Definition point_of (n d : Z) : Z := if d <=? n then ndigits (n / d) else 1 - ndigits ((d - 1) / n).

(** [n/d] rounded to [k] digits, as [c * 10^x]. *)
Definition round_digits (n d p k : Z) : Z * Z :=
  let x := p - k in
  (if x <? 0 then div_round ROUND_HALF_EVEN (n * 10 ^ (- x)) d else div_round ROUND_HALF_EVEN n (d * 10 ^ x), x).

Definition reads_back (c x n d : Z) : bool :=
  let f := if x <? 0 then true_div c (10 ^ (- x)) else true_div (c * 10 ^ x) 1 in
  let '(n', d') := fratio f in n' * d =? n * d'.

(** The fewest digits that read back as the same number. *)
Fixpoint shortest (fuel : nat) (n d p k : Z) : Z * Z :=
  let '(c, x) := round_digits n d p k in
  match fuel with
  | O => (c, x)
  | S fuel => if reads_back c x n d then (c, x) else shortest fuel n d p (k + 1)
  end.

(** [repr(f)]: positional between [1e-4] and [1e16], else with an exponent of at
    least two digits. *)
Definition float_repr (f : float) : string :=
  if fmant f =? 0 then "0.0" else
  let '(n, d) := fratio (Fl (Z.abs (fmant f)) (fexp f)) in
  let '(c, x) := shortest 16 n d (point_of n d) 1 in
  let x' := dexp (strip_zeros (Z.to_nat (ndigits c)) c x (x + ndigits c)) in
  let c' := dcoef (strip_zeros (Z.to_nat (ndigits c)) c x (x + ndigits c)) in
  let ds := nat_str c' in
  let point := x' + slen ds in
  let body :=
    if (-4 <? point) && (point <=? 16) then
      if point <=? 0 then "0." +:+ zeros (Z.to_nat (- point)) +:+ ds
      else if slen ds <=? point then ds +:+ zeros (Z.to_nat (point - slen ds)) +:+ ".0"
      else str_take (Z.to_nat point) ds +:+ "." +:+ str_drop (Z.to_nat point) ds
    else
      let e := point - 1 in
      let mant := if slen ds =? 1 then ds else str_take 1 ds +:+ "." +:+ str_drop 1 ds in
      mant +:+ "e" +:+ (if e <? 0 then "-" else "+") +:+ (if Z.abs e <? 10 then "0" else "") +:+ nat_str (Z.abs e) in
  (if fmant f <? 0 then "-" else "") +:+ body.

Example float_repr_ex :
  map float_repr [true_div 1 10; true_div 1 3; true_div 90000000 1000000; true_div 12 1000000; true_div (-5) 4;
                  float_of_int (10 ^ 16); float_of_int (10 ^ 15); true_div 1 10000; true_div 12345678912345678 1000000;
                  true_div 2 3; float_of_int (2 ^ 60)]
  = ["0.1"; "0.3333333333333333"; "90.0"; "1.2e-05"; "-1.25"; "1e+16"; "1000000000000000.0"; "0.0001";
     "12345678912.345678"; "0.6666666666666666"; "1.152921504606847e+18"].
Proof. vm_compute. reflexivity. Qed.

(** ** Division keeps the order of the integers *)

Lemma div_round_le n m k : 0 < m -> n <= k * m -> div_round ROUND_HALF_EVEN n m <= k.
Proof. intros Hm H. pose proof (div_round_half_even n m Hm) as He. nia. Qed.
Lemma div_round_ge n m k : 0 < m -> k * m <= n -> k <= div_round ROUND_HALF_EVEN n m.
Proof. intros Hm H. pose proof (div_round_half_even n m Hm) as He. nia. Qed.

Lemma log2_div_spec n m : 0 < n -> 0 < m ->
  let d := log2_div n m in if 0 <=? d then m * 2 ^ d <= n else m <= n * 2 ^ (- d).
Proof.
  intros Hn Hm. cbv zeta. unfold log2_div. set (d := Z.log2 n - Z.log2 m).
  destruct (Z.log2_spec n Hn) as [Hn1 Hn2], (Z.log2_spec m Hm) as [Hm1 Hm2].
  pose proof (Z.log2_nonneg n). pose proof (Z.log2_nonneg m).
  destruct (if 0 <=? d then m * 2 ^ d <=? n else m <=? n * 2 ^ (- d)) eqn:E.
  - destruct (Z.leb_spec 0 d); by apply Z.leb_le.
  - destruct (Z.leb_spec 0 (d - 1)).
    + assert (Hp : 2 ^ (Z.succ (Z.log2 m)) * 2 ^ (d - 1) = 2 ^ Z.log2 n).
      { rewrite -Z.pow_add_r; [lia..|]. f_equal. lia. }
      assert (0 < 2 ^ (d - 1)) by (apply Z.pow_pos_nonneg; lia). nia.
    + assert (Hp : 2 ^ Z.log2 n * 2 ^ (- (d - 1)) = 2 ^ (Z.succ (Z.log2 m))).
      { rewrite -Z.pow_add_r; [lia..|]. f_equal. lia. }
      assert (0 < 2 ^ (- (d - 1))) by (apply Z.pow_pos_nonneg; lia). nia.
Qed.

(** A quotient at most an integer of 53 bits is rounded to at most it. *)
Lemma true_div_le n m k : 0 < m -> 0 <= k < 2 ^ 53 -> n <= k * m -> fleb_int (true_div n m) k = true.
Proof.
  intros Hm Hk H. unfold true_div. destruct (Z.eqb_spec n 0) as [->|Hn]; [by apply Z.leb_le; cbn; lia|].
  set (e := log2_div (Z.abs n) m - 52). unfold fleb_int. cbn [fexp fmant]. destruct (Z.ltb_spec e 0) as [He|He].
  - apply Z.leb_le, div_round_le; [done|]. pose proof (Z.pow_pos_nonneg 2 (- e)). nia.
  - pose proof (log2_div_spec (Z.abs n) m ltac:(lia) Hm) as Hs. cbv zeta in Hs.
    assert (Hp : 0 < 2 ^ e) by (apply Z.pow_pos_nonneg; lia).
    destruct (Z.leb_spec 0 (log2_div (Z.abs n) m)); [|lia].
    replace (log2_div (Z.abs n) m) with (52 + e) in Hs by lia. rewrite Z.pow_add_r in Hs; [lia..|].
    apply Z.leb_le. destruct (Z.leb_spec 0 n).
    + destruct (Z.eqb_spec e 0) as [E|E].
      * rewrite E Z.mul_1_r. apply div_round_le; nia.
      * assert (2 <= 2 ^ e) by (replace 2 with (2 ^ 1) by done; apply Z.pow_le_mono_r; lia). nia.
    + assert (div_round ROUND_HALF_EVEN n (m * 2 ^ e) <= 0) by (apply div_round_le; nia). nia.
Qed.

(** Ages in microseconds beyond an integer number of seconds stay beyond it. *)
Lemma true_div_gt n k : 0 <= k < 2 ^ 33 -> k * 10 ^ 6 < n -> fleb_int (true_div n (10 ^ 6)) k = false.
Proof.
  intros Hk H. unfold true_div. destruct (Z.eqb_spec n 0) as [->|Hn]; [lia|].
  rewrite Z.abs_eq; [lia|]. set (e := log2_div n (10 ^ 6) - 52).
  pose proof (log2_div_spec n (10 ^ 6) ltac:(lia) ltac:(lia)) as Hs. cbv zeta in Hs.
  unfold fleb_int. cbn [fexp fmant]. destruct (Z.ltb_spec e 0) as [He|He]; apply Z.leb_gt.
  - assert (Hp : 0 < 2 ^ (- e)) by (apply Z.pow_pos_nonneg; lia).
    destruct (Z.leb_spec e (-19)) as [He'|He'].
    + assert (2 ^ 19 <= 2 ^ (- e)) by (apply Z.pow_le_mono_r; lia).
      pose proof (div_round_half_even (n * 2 ^ (- e)) (10 ^ 6) ltac:(lia)) as Hr. nia.
    + destruct (Z.leb_spec 0 (log2_div n (10 ^ 6))) as [Hd|Hd]; [|lia].
      replace (log2_div n (10 ^ 6)) with (52 + e) in Hs by lia.
      apply (Z.lt_le_trans _ (2 ^ 52)).
      * apply (Z.lt_le_trans _ (2 ^ 33 * 2 ^ (- e))); [nia|]. rewrite -Z.pow_add_r; [lia..|]. apply Z.pow_le_mono_r; lia.
      * apply div_round_ge; [lia|]. assert (E : 2 ^ 52 = 2 ^ (52 + e) * 2 ^ (- e)).
        { rewrite -Z.pow_add_r; [lia..|]. f_equal. lia. } rewrite E. nia.
  - assert (Hp : 0 < 2 ^ e) by (apply Z.pow_pos_nonneg; lia). destruct (Z.leb_spec 0 (log2_div n (10 ^ 6))) as [Hd|Hd]; [|lia].
    replace (log2_div n (10 ^ 6)) with (52 + e) in Hs by lia. rewrite Z.pow_add_r in Hs; [lia..|].
    assert (2 ^ 52 <= div_round ROUND_HALF_EVEN n (10 ^ 6 * 2 ^ e)) by (apply div_round_ge; nia). nia.
Qed.

(** The sign of a quotient. *)
Lemma true_div_neg n m : 0 < m -> fltb_int (true_div n m) 0 = (n <? 0).
Proof.
  intros Hm. unfold true_div. destruct (Z.eqb_spec n 0) as [->|Hn]; [done|].
  set (e := log2_div (Z.abs n) m - 52). set (num := if e <? 0 then _ else _). set (den := if e <? 0 then _ else _).
  assert (Hnum : 0 < den /\ (n < 0 -> num <= - den) /\ (0 < n -> 0 <= num)).
  { pose proof (log2_div_spec (Z.abs n) m ltac:(lia) Hm) as Hs. cbv zeta in Hs. unfold num, den.
    destruct (Z.ltb_spec e 0) as [He|He].
    - assert (Hp : 0 < 2 ^ (- e)) by (apply Z.pow_pos_nonneg; lia). split_and!; [done| |nia]. intros Hlt.
      destruct (Z.leb_spec 0 (log2_div (Z.abs n) m)) as [Hd|Hd].
      + assert (0 < 2 ^ log2_div (Z.abs n) m) by (apply Z.pow_pos_nonneg; lia). nia.
      + assert (2 ^ (- log2_div (Z.abs n) m) <= 2 ^ (- e)) by (apply Z.pow_le_mono_r; lia). nia.
    - assert (Hp : 0 < 2 ^ e) by (apply Z.pow_pos_nonneg; lia). split_and!; [nia| |lia]. intros Hlt.
      destruct (Z.leb_spec 0 (log2_div (Z.abs n) m)); [|lia].
      replace (log2_div (Z.abs n) m) with (52 + e) in Hs by lia. rewrite Z.pow_add_r in Hs; [lia..|]. nia. }
  destruct Hnum as (Hden & Hneg & Hpos). unfold fltb_int. cbn [fexp fmant].
  assert (Hr : div_round ROUND_HALF_EVEN num den < 0 <-> n < 0).
  { split; intros Hlt.
    - destruct (Z.lt_trichotomy n 0) as [?|[?|Hgt]]; [done|lia|]. pose proof (div_round_ge num den 0 Hden). lia.
    - pose proof (div_round_le num den (-1) Hden). lia. }
  destruct (Z.ltb_spec e 0); [|assert (0 < 2 ^ e) by (apply Z.pow_pos_nonneg; lia)];
    apply eq_true_iff_eq; rewrite !Z.ltb_lt -Hr; nia.
Qed.

(** ** The order of decimals *)

(** A coefficient of [prec + k] digits and its rounding to [prec] of them,
    against a number of at most [prec] digits. *)
Section rounding.
Context (n c k E F : Z) (Hk : 0 < k) (HE : 0 <= E) (HF : 0 <= F)
  (Hn : 10 ^ (prec - 1) * 10 ^ k <= Z.abs n) (Hc : Z.abs c < 10 ^ prec).
Notation r := (div_round ROUND_HALF_EVEN n (10 ^ k)).

Lemma coarse_bound : F < E + k -> Z.abs (c * 10 ^ F) < 10 ^ (prec - 1) * 10 ^ k * 10 ^ E.
Proof.
  intros H. assert (Hp : 10 ^ prec * 10 ^ F <= 10 ^ (prec - 1) * 10 ^ k * 10 ^ E).
  { rewrite -!Z.pow_add_r; unfold prec in *; [lia..|]. apply Z.pow_le_mono_r; lia. }
  pose proof (pow10_pos F HF). nia.
Qed.

Lemma coarse_grid : E + k <= F -> c * 10 ^ F = c * 10 ^ (F - E - k) * 10 ^ k * 10 ^ E.
Proof. intros H. rewrite -!Z.mul_assoc -!Z.pow_add_r; [lia..|]. do 2 f_equal. lia. Qed.

Lemma round_keeps_le : n * 10 ^ E <= c * 10 ^ F -> 10 ^ k * r * 10 ^ E <= c * 10 ^ F.
Proof.
  intros H. pose proof (pow10_pos k ltac:(lia)). pose proof (pow10_pos E HE). destruct (Z.le_gt_cases (E + k) F) as [HF'|HF'].
  - rewrite coarse_grid // in H |- *. assert (n <= c * 10 ^ (F - E - k) * 10 ^ k) by nia.
    pose proof (div_round_le n (10 ^ k) (c * 10 ^ (F - E - k)) ltac:(done) ltac:(done)).
    apply Z.mul_le_mono_nonneg_r; [lia|]. rewrite (Z.mul_comm (10 ^ k)). apply Z.mul_le_mono_nonneg_r; lia.
  - pose proof (coarse_bound HF'). destruct (Z.le_gt_cases 0 n); [nia|].
    pose proof (div_round_le n (10 ^ k) (- 10 ^ (prec - 1)) ltac:(done) ltac:(lia)).
    assert (r * (10 ^ k * 10 ^ E) <= - 10 ^ (prec - 1) * (10 ^ k * 10 ^ E)) by (apply Z.mul_le_mono_nonneg_r; lia). lia.
Qed.

Lemma round_keeps_ge : c * 10 ^ F <= n * 10 ^ E -> c * 10 ^ F <= 10 ^ k * r * 10 ^ E.
Proof.
  intros H. pose proof (pow10_pos k ltac:(lia)). pose proof (pow10_pos E HE). destruct (Z.le_gt_cases (E + k) F) as [HF'|HF'].
  - rewrite coarse_grid // in H |- *. assert (c * 10 ^ (F - E - k) * 10 ^ k <= n) by nia.
    pose proof (div_round_ge n (10 ^ k) (c * 10 ^ (F - E - k)) ltac:(done) ltac:(done)).
    apply Z.mul_le_mono_nonneg_r; [lia|]. rewrite (Z.mul_comm (10 ^ k)). apply Z.mul_le_mono_nonneg_r; lia.
  - pose proof (coarse_bound HF'). destruct (Z.le_gt_cases n 0); [nia|].
    pose proof (div_round_ge n (10 ^ k) (10 ^ (prec - 1)) ltac:(done) ltac:(lia)).
    assert (10 ^ (prec - 1) * (10 ^ k * 10 ^ E) <= r * (10 ^ k * 10 ^ E)) by (apply Z.mul_le_mono_nonneg_r; lia). lia.
Qed.
End rounding.

(** Two multiples of powers of ten as multiples of the same power. *)
Lemma common_unit a e b f : let m := Z.min e f in
  (inject_Z a * p10 e == inject_Z (a * 10 ^ (e - m)) * p10 m)%Q /\ (inject_Z b * p10 f == inject_Z (b * 10 ^ (f - m)) * p10 m)%Q.
Proof. intros m. rewrite (p10_up e m) ?(p10_up f m); [lia..|]. rewrite !inject_Z_mult. split; ring. Qed.

Lemma inject_p10_cmp a b m : (inject_Z a * p10 m <= inject_Z b * p10 m)%Q <-> a <= b.
Proof.
  split; [|apply inject_p10_le]. intros H. apply Z.le_ngt. intros Hb. apply (inject_p10_lt _ _ m) in Hb. by apply Qlt_not_le in Hb.
Qed.

Lemma long_coef d k : k = ndigits (dcoef d) - prec -> 0 < k -> 10 ^ (prec - 1) * 10 ^ k <= Z.abs (dcoef d).
Proof.
  intros Hk Hp. assert (dcoef d <> 0) by (intros E; rewrite E in Hk; change (ndigits 0) with 1 in Hk; unfold prec in Hk; lia).
  rewrite -Z.pow_add_r; unfold prec in *; [lia..|]. replace (28 - 1 + k) with (ndigits (dcoef d) - 1) by lia. by apply ndigits_bounds.
Qed.

Lemma dfix_le d x : fits x -> (value d <= x)%Q -> (value (dfix d) <= x)%Q.
Proof.
  intros (c & e & Hc & ->) H. destruct (dfix_cases d) as [Hs|Hs]; [by rewrite dfix_short|].
  destruct (dfix_long d _ eq_refl Hs) as (Hv & _). rewrite Hv. unfold value in H.
  destruct (common_unit (dcoef d) (dexp d) c e) as [E1 E2]. rewrite E1 E2 inject_p10_cmp in H.
  destruct (common_unit (10 ^ (ndigits (dcoef d) - prec) * div_round ROUND_HALF_EVEN (dcoef d) (10 ^ (ndigits (dcoef d) - prec))) (dexp d) c e) as [E3 _].
  rewrite E3 E2 inject_p10_cmp. apply round_keeps_le; [done|lia|lia|by apply long_coef|done|done].
Qed.

Lemma dfix_ge d x : fits x -> (x <= value d)%Q -> (x <= value (dfix d))%Q.
Proof.
  intros (c & e & Hc & ->) H. destruct (dfix_cases d) as [Hs|Hs]; [by rewrite dfix_short|].
  destruct (dfix_long d _ eq_refl Hs) as (Hv & _). rewrite Hv. unfold value in H.
  destruct (common_unit (dcoef d) (dexp d) c e) as [E1 E2]. rewrite E1 E2 inject_p10_cmp in H.
  destruct (common_unit (10 ^ (ndigits (dcoef d) - prec) * div_round ROUND_HALF_EVEN (dcoef d) (10 ^ (ndigits (dcoef d) - prec))) (dexp d) c e) as [E3 _].
  rewrite E3 E2 inject_p10_cmp. apply round_keeps_ge; [done|lia|lia|by apply long_coef|done|done].
Qed.

(** The bounds of a sum, a difference. *)
Lemma dadd_le a b x : fits x -> (value a + value b <= x)%Q -> (value (dadd a b) <= x)%Q.
Proof. intros Hx H. apply dfix_le; [done|]. by rewrite dadd_exact_value. Qed.
Lemma dadd_ge a b x : fits x -> (x <= value a + value b)%Q -> (x <= value (dadd a b))%Q.
Proof. intros Hx H. apply dfix_ge; [done|]. by rewrite dadd_exact_value. Qed.
Lemma dsub_le a b x : fits x -> (value a - value b <= x)%Q -> (value (dsub a b) <= x)%Q.
Proof. intros Hx H. apply dadd_le; [done|]. by rewrite dopp_value. Qed.
Lemma dsub_ge a b x : fits x -> (x <= value a - value b)%Q -> (x <= value (dsub a b))%Q.
Proof. intros Hx H. apply dadd_ge; [done|]. by rewrite dopp_value. Qed.

Lemma fits_dint n : Z.abs n < 10 ^ prec -> fits (inject_Z n).
Proof. intros H. exists n, 0. split; [done|]. unfold p10. cbn. ring. Qed.
Lemma value_dint n : (value (dint n) == inject_Z n)%Q.
Proof. unfold value, dint, p10. cbn. ring. Qed.

(** ** Quotients *)

(** A part of a whole. *)
Lemma ddiv_unit a b q : (0 <= value a)%Q -> (value a <= value b)%Q -> (0 < value b)%Q -> ddiv a b = Ok q -> (0 <= value q /\ value q <= 1)%Q.
Proof.
  intros Ha Hab Hb H. destruct (Z.eq_dec (dcoef a) 0) as [Ea|Ea].
  - unfold ddiv in H. apply value_pos in Hb. destruct (Z.eqb_spec (dcoef b) 0); [lia|]. rewrite Ea in H. cbn in H. injection H as <-.
    assert (E : (value (Dec 0 (dexp a - dexp b)) == 0)%Q) by by apply value_zero. rewrite E. by vm_compute.
  - apply value_nonneg in Ha. assert (Ha' : 0 < dcoef a) by lia. assert (Hb' := Hb). apply value_pos in Hb'.
    destruct (ddiv_quotient a b q Ha' Hb' H) as (n & m & c & e & d & Hm & Hn & Hc & -> & Hd & Hv).
    assert (HM : (0 < inject_Z m)%Q) by by rewrite -(Zlt_Qlt 0).
    assert (Hnm : (inject_Z n * p10 e <= inject_Z m)%Q).
    { apply (Qmult_le_r _ _ (value b)); [done|]. rewrite -Hv Qmult_comm. by apply Qmult_le_l. }
    assert (He : e < 0).
    { apply Z.lt_nge. intros He. rewrite p10_Z // -inject_Z_mult -Zle_Qle in Hnm. pose proof (pow10_pos e He). assert (1 < 10 ^ prec) by done. nia. }
    assert (H1 : (1 == inject_Z (10 ^ (- e)) * p10 e)%Q) by (rewrite -p10_Z; [lia|]; rewrite -p10_plus; replace (- e + e) with 0 by lia; done).
    assert (Hnm' : n <= m * 10 ^ (- e)).
    { apply (inject_p10_cmp _ _ e). rewrite inject_Z_mult -Qmult_assoc -H1 Qmult_1_r. exact Hnm. }
    assert (Hc1 : 0 <= c <= 10 ^ (- e)) by (assert (1 < 10 ^ prec) by done; nia). split.
    + apply dfix_nonneg. rewrite Hd. apply Qmult_le_0_compat; [rewrite -(Zle_Qle 0); lia|apply Qlt_le_weak, p10_pos].
    + apply dfix_le; [by apply (fits_dint 1)|]. rewrite Hd H1. apply inject_p10_cmp; lia.
Qed.

Lemma ddiv_ints k n q : 0 <= k <= n -> 0 < n -> ddiv (dint k) (dint n) = Ok q -> (0 <= value q /\ value q <= 1)%Q.
Proof.
  intros H1 H2. apply ddiv_unit; rewrite ?value_dint; [rewrite -(Zle_Qle 0)|rewrite -Zle_Qle|rewrite -(Zlt_Qlt 0)]; lia.
Qed.

(** ** Rounding keeps a bound of 53 bits *)

(** A mantissa of 53 bits. *)
Definition double (f : float) : Prop := Z.abs (fmant f) < 2 ^ 53.

Notation p2 e := (Qpower (inject_Z 2) e).
Lemma p2_pos e : (0 < p2 e)%Q.
Proof. by apply Qpower_0_lt. Qed.
Lemma p2_plus a b : (p2 (a + b) == p2 a * p2 b)%Q.
Proof. apply Qpower_plus. done. Qed.
Lemma p2_Z e : 0 <= e -> (inject_Z (2 ^ e) == p2 e)%Q.
Proof. intros He. by rewrite Zpower_Qpower. Qed.

Lemma scaled_quotient n m e : let N := if e <? 0 then n * 2 ^ (- e) else n in let D := if e <? 0 then m else m * 2 ^ e in
  (inject_Z N * inject_Z m * p2 e == inject_Z n * inject_Z D)%Q.
Proof.
  cbv zeta. destruct (Z.ltb_spec e 0) as [He|He]; rewrite inject_Z_mult p2_Z; [lia| |lia|ring].
  assert (E : (p2 (- e) * p2 e == 1)%Q) by (rewrite -p2_plus; replace (- e + e) with 0 by lia; done).
  transitivity (inject_Z n * inject_Z m * (p2 (- e) * p2 e))%Q; [ring|]. rewrite E. ring.
Qed.
Lemma true_div_ge n m h : 0 < n -> 0 < m -> double h -> (fvalue h * inject_Z m <= inject_Z n)%Q -> (fvalue h <= fvalue (true_div n m))%Q.
Proof.
  intros Hn Hm Hh H. unfold true_div. destruct (Z.eqb_spec n 0) as [->|_]; [lia|]. set (e := log2_div (Z.abs n) m - 52).
  pose proof (scaled_quotient n m e) as Hq. cbv zeta in Hq. set (N := if e <? 0 then n * 2 ^ (- e) else n) in *.
  set (D := if e <? 0 then m else m * 2 ^ e) in *.
  assert (HD : 0 < D) by (unfold D; destruct (Z.ltb_spec e 0); [done|]; apply Z.mul_pos_pos; [done|apply Z.pow_pos_nonneg; lia]).
  unfold fvalue in *. cbn [fmant fexp]. destruct (Z.le_gt_cases e (fexp h)) as [Hx|Hx].
  - assert (Ek : (inject_Z (fmant h) * p2 (fexp h) == inject_Z (fmant h * 2 ^ (fexp h - e)) * p2 e)%Q).
    { rewrite inject_Z_mult p2_Z; [lia|]. rewrite -Qmult_assoc -p2_plus. by replace (fexp h - e + e) with (fexp h) by lia. }
    rewrite Ek in H |- *. apply Qmult_le_compat_r; [|apply Qlt_le_weak, p2_pos]. rewrite -Zle_Qle. apply div_round_ge; [done|].
    rewrite Zle_Qle inject_Z_mult. apply (Qmult_le_r _ _ (inject_Z m * p2 e)).
    { apply Qmult_lt_0_compat; [by rewrite -(Zlt_Qlt 0)|apply p2_pos]. }
    rewrite (Qmult_assoc (inject_Z N)) Hq (Qmult_comm (inject_Z n)).
    assert (Es : (inject_Z (fmant h * 2 ^ (fexp h - e)) * inject_Z D * (inject_Z m * p2 e) ==
      inject_Z D * (inject_Z (fmant h * 2 ^ (fexp h - e)) * p2 e * inject_Z m))%Q) by ring.
    rewrite Es. apply Qmult_le_l; [by rewrite -(Zlt_Qlt 0)|done].
  - assert (H52 : 2 ^ 52 * D <= N).
    { pose proof (log2_div_spec n m Hn Hm) as Hs. cbv zeta in Hs. unfold N, D, e in *. rewrite (Z.abs_eq n) in Hs |- *; [lia|].
      set (d := log2_div n m) in *. destruct (Z.ltb_spec (d - 52) 0) as [He|He].
      - assert (Hp : 0 < 2 ^ (- (d - 52))) by (apply Z.pow_pos_nonneg; lia). destruct (Z.leb_spec 0 d) as [Hd|Hd].
        + assert (E : 2 ^ 52 = 2 ^ d * 2 ^ (- (d - 52))) by (rewrite -Z.pow_add_r; [lia..|]; f_equal; lia). rewrite E. nia.
        + assert (E : 2 ^ (- (d - 52)) = 2 ^ 52 * 2 ^ (- d)) by (rewrite -Z.pow_add_r; [lia..|]; f_equal; lia). rewrite E. nia.
      - destruct (Z.leb_spec 0 d); [|lia]. assert (E : 2 ^ d = 2 ^ 52 * 2 ^ (d - 52)) by (rewrite -Z.pow_add_r; [lia..|]; f_equal; lia). lia. }
    assert (Hr : 2 ^ 52 <= div_round ROUND_HALF_EVEN N D) by (apply div_round_ge; lia).
    apply (Qle_trans _ (inject_Z (2 ^ 52) * p2 e)); [|apply Qmult_le_compat_r; [by rewrite -Zle_Qle|apply Qlt_le_weak, p2_pos]].
    assert (E : (p2 e == p2 (fexp h) * inject_Z (2 ^ (e - fexp h)))%Q) by (rewrite p2_Z; [lia|]; rewrite -p2_plus; by replace (fexp h + (e - fexp h)) with e by lia).
    rewrite E (Qmult_comm (p2 (fexp h))) Qmult_assoc. apply Qmult_le_compat_r; [|apply Qlt_le_weak, p2_pos].
    rewrite -inject_Z_mult -Zle_Qle. unfold double in Hh.
    assert (2 <= 2 ^ (e - fexp h)) by (replace 2 with (2 ^ 1) by done; apply Z.pow_le_mono_r; lia). lia.
Qed.

Lemma fmul_ge f g h : double h -> (0 < fvalue f * fvalue g)%Q -> (fvalue h <= fvalue f * fvalue g)%Q -> (fvalue h <= fvalue (fmul f g))%Q.
Proof.
  intros Hh Hp H. unfold fmul.
  assert (E : (fvalue f * fvalue g == inject_Z (fmant f * fmant g) * p2 (fexp f + fexp g))%Q).
  { unfold fvalue. rewrite inject_Z_mult p2_plus. ring. }
  rewrite E in Hp, H. set (m := fmant f * fmant g) in *. set (e := fexp f + fexp g) in *.
  assert (Hm : 0 < m). { rewrite Zlt_Qlt. apply (Qmult_lt_r _ _ (p2 e)); [apply p2_pos|]. by rewrite Qmult_0_l. }
  destruct (Z.ltb_spec e 0) as [He|He].
  - apply true_div_ge; [done|apply Z.pow_pos_nonneg; lia|done|]. rewrite p2_Z; [lia|].
    apply (Qmult_le_r _ _ (p2 e)); [apply p2_pos|]. rewrite -Qmult_assoc -p2_plus. replace (- e + e) with 0 by lia. by rewrite Qmult_1_r.
  - assert (Hp2 : 0 < 2 ^ e) by (apply Z.pow_pos_nonneg; lia). apply true_div_ge; [nia|lia|done|].
    rewrite Qmult_1_r inject_Z_mult p2_Z //.
Qed.
