(* ===== verification/PySort.v ===== *)
(** * [sorted(l, key=...)] and grouping by a key

    Stable insertion sort by a decided order, the order of strings, lexicographic
    orders of several keys, and the dictionary of lists that
    [setdefault(key, []).append(x)] fills. *)

From Stdlib Require Import ssreflect ZArith Lia Ascii String Sorting.Sorted Structures.OrdersEx.
From stdpp Require Import base strings numbers gmap sets list.
From S2P Require Import Prelude PyText PyDict PyJson PyJsonFacts.
#[local] Open Scope Z_scope.

(** ** Sorting *)

(** ** Strings *)

Lemma str_lt_trans a b c : String.compare a b = Lt -> String.compare b c = Lt -> String.compare a c = Lt.
Proof. exact (StrictOrder_Transitive (R := String_as_OT.lt) a b c). Qed.

Lemma str_leb_trans a b c : String.leb a b = true -> String.leb b c = true -> String.leb a c = true.
Proof.
  unfold String.leb. destruct (String.compare a b) eqn:E1; [|intros _|done].
  - apply String.compare_eq_iff in E1 as ->. done.
  - destruct (String.compare b c) eqn:E2; [|intros _|done].
    + apply String.compare_eq_iff in E2 as <-. by rewrite E1.
    + by rewrite (str_lt_trans _ _ _ E1 E2).
Qed.

Lemma str_leb_refl a : String.leb a a = true.
Proof. by destruct (String.leb_total a a). Qed.

(** ** Sorting *)

Section sort.
Context {A : Type} (le : A -> A -> bool).

Fixpoint insert_sorted (x : A) (l : list A) : list A :=
  match l with
  | [] => [x]
  | y :: l' => if le x y then x :: l else y :: insert_sorted x l'
  end.
Fixpoint sorted_by (l : list A) : list A :=
  match l with [] => [] | x :: l => insert_sorted x (sorted_by l) end.

Lemma insert_sorted_perm x l : insert_sorted x l ≡ₚ x :: l.
Proof. induction l as [|y l IH]; simpl; [done|]. case_match; [done|]. rewrite IH. apply Permutation_swap. Qed.

Lemma sorted_by_perm l : sorted_by l ≡ₚ l.
Proof. induction l as [|x l IH]; simpl; [done|]. by rewrite insert_sorted_perm IH. Qed.

Context (Htotal : forall x y, le x y = true \/ le y x = true).

Lemma insert_sorted_sorted x l : Sorted (fun x y => le x y = true) l -> Sorted (fun x y => le x y = true) (insert_sorted x l).
Proof.
  induction 1 as [|y l Hl IH Hy]; simpl; [by repeat constructor|]. destruct (le x y) eqn:E; [by repeat constructor|].
  constructor; [done|]. destruct (Htotal x y) as [?|Hyx]; [congruence|].
  destruct l as [|z l]; simpl; [by constructor|]. case_match; constructor; [done|]. by inversion Hy.
Qed.

Lemma sorted_by_sorted l : Sorted (fun x y => le x y = true) (sorted_by l).
Proof. induction l; simpl; [constructor|by apply insert_sorted_sorted]. Qed.
End sort.

(** ** Grouping *)

Section grouping.
Context {A : Type} (key : A -> string).

Definition add_to (groups : list (string * list A)) (x : A) : list (string * list A) :=
  dset (key x) (default [] (dget (key x) groups) ++ [x]) groups.
Definition same_key (k : string) (x : A) : bool := String.eqb k (key x).

Lemma dget_add_to groups x k :
  default [] (dget k (add_to groups x)) = default [] (dget k groups) ++ (if same_key k x then [x] else []).
Proof.
  unfold add_to, same_key. rewrite dget_dset. destruct (String.eqb_spec k (key x)) as [->|Hne]; [done|by rewrite app_nil_r].
Qed.

Lemma dget_grouped groups l k : default [] (dget k (foldl add_to groups l)) = default [] (dget k groups) ++ List.filter (same_key k) l.
Proof.
  revert groups. induction l as [|x l IH]; intros groups; cbn [foldl List.filter]; [by rewrite app_nil_r|].
  rewrite IH dget_add_to. destruct (same_key k x); [by rewrite -app_assoc|by rewrite app_nil_r].
Qed.

Definition groups_ok (groups : list (string * list A)) : Prop := NoDup (dkeys groups) /\ Forall (fun g => g.2 <> []) groups.

Lemma dset_Forall {V} (P : string * V -> Prop) k v d : (forall k', P (k', v)) -> Forall P d -> Forall P (dset k v d).
Proof.
  intros Hv Hd. induction Hd as [|[k' v'] d Hp Hd IH]; cbn; [by constructor|]. destruct (String.eqb k k'); by constructor.
Qed.

Lemma grouped_ok groups l : groups_ok groups -> groups_ok (foldl add_to groups l).
Proof.
  revert groups. induction l as [|x l IH]; intros groups [Hn Hne]; [done|]. cbn [foldl]. apply IH. split; [by apply dset_NoDup|].
  apply dset_Forall; [|done]. intros k'. cbn. by destruct (default [] (dget (key x) groups)).
Qed.

(** A group holds the elements with its key, in their order. *)
Lemma group_of l k g : (k, g) ∈ foldl add_to [] l <-> g = List.filter (same_key k) l /\ g <> [].
Proof.
  assert (Hok : groups_ok (foldl add_to [] l)) by (apply grouped_ok; split; [apply NoDup_nil_2|done]).
  destruct Hok as [Hn Hne]. pose proof (dget_grouped [] l k) as Hg. cbn in Hg. split.
  - intros Hin. rewrite (elem_dget _ _ _ Hn Hin) in Hg. split; [done|]. by eapply (proj1 (Forall_forall _ _) Hne) in Hin.
  - intros [-> Hnil]. apply dget_elem. destruct (dget k _) as [h|]; cbn in Hg; [by rewrite Hg|]. by rewrite -Hg in Hnil.
Qed.
End grouping.

(** ** Orders *)

Section lexicographic.
Context {A : Type} (fst_key snd_key : A -> string).

Definition lex_le (a b : A) : bool :=
  match String.compare (fst_key a) (fst_key b) with Lt => true | Gt => false | Eq => String.leb (snd_key a) (snd_key b) end.

Lemma lex_total a b : lex_le a b = true \/ lex_le b a = true.
Proof.
  unfold lex_le. rewrite (String.compare_antisym (fst_key b) (fst_key a)). destruct (String.compare (fst_key a) (fst_key b)); cbn; auto.
  destruct (String.leb_total (snd_key a) (snd_key b)); auto.
Qed.

Lemma lex_trans a b c : lex_le a b = true -> lex_le b c = true -> lex_le a c = true.
Proof.
  unfold lex_le. destruct (String.compare (fst_key a) (fst_key b)) eqn:E1; [| |done].
  - apply String.compare_eq_iff in E1 as ->. destruct (String.compare (fst_key b) (fst_key c)); [|done..]. apply str_leb_trans.
  - intros _. destruct (String.compare (fst_key b) (fst_key c)) eqn:E2; [| |done].
    + apply String.compare_eq_iff in E2 as <-. by rewrite E1.
    + intros _. by rewrite (str_lt_trans _ _ _ E1 E2).
Qed.
End lexicographic.

(** The first of a sorted list is the least. *)
Lemma sorted_head {A} (le : A -> A -> bool) (Htotal : forall x y, le x y = true \/ le y x = true)
    (Htrans : forall x y z, le x y = true -> le y z = true -> le x z = true) l x rest :
  sorted_by le l = x :: rest -> x ∈ l /\ forall y, y ∈ l -> le x y = true.
Proof.
  intros E. pose proof (sorted_by_perm le l) as Hp. rewrite E in Hp. split; [rewrite -Hp; by left|].
  intros y Hy. rewrite -Hp in Hy. pose proof (sorted_by_sorted le Htotal l) as Hs. rewrite E in Hs.
  apply Sorted_StronglySorted in Hs; [|intros a b c; apply Htrans]. apply StronglySorted_inv in Hs as [_ Hs].
  apply elem_of_cons in Hy as [->|Hy]; [by destruct (Htotal x x)|]. by eapply (proj1 (Forall_forall _ _)) in Hs.
Qed.

Lemma sorted_nil {A} (le : A -> A -> bool) l : sorted_by le l = [] -> l = [].
Proof. intros E. pose proof (sorted_by_perm le l) as Hp. rewrite E in Hp. by apply Permutation_nil in Hp. Qed.
