(* ===== verification/EventCodec.v ===== *)
(** * Record framing of the event log (src/event_store/codec.py)

    [encode_record] and [decode_record] on byte lists, the decoder's four
    failures as constructors, the round trip at any offset of a file, and the
    classification of a torn write: every strict prefix of a record decodes to
    [Incomplete], never to another outcome. *)

From Stdlib Require Import ssreflect ZArith Lia Ascii String Strings.Byte.
From stdpp Require Import base strings numbers gmap sets list.
From S2P Require Import Prelude PyText PyBytes.
#[local] Open Scope Z_scope.

Definition MAGIC : bytes := encode "TQEV".
Definition FORMAT_VERSION : Z := 1.
Definition CHECKSUM_SIZE : Z := 32.
(** [len(MAGIC) + struct.Struct(">BQI").size] *)
Definition HEADER_SIZE : Z := 4 + (1 + 8 + 4).

(** [_HEADER_TAIL_STRUCT.pack]: a value outside its field raises [struct.error]. *)
Definition pack_tail (version event_id payload_length : Z) : result bytes :=
  if bool_decide (0 <= version < 2 ^ 8 /\ 0 <= event_id < 2 ^ 64 /\ 0 <= payload_length < 2 ^ 32)
  then Ok (be_encode 1 version ++ be_encode 8 event_id ++ be_encode 4 payload_length)
  else Err StructError.

Definition encode_record (event_id : Z) (payload_bytes : bytes) : result bytes :=
  tail ← pack_tail FORMAT_VERSION event_id (Z.of_nat (length payload_bytes));
  let header := MAGIC ++ tail in
  let checksum := sha256 (header ++ payload_bytes) in
  Ok (header ++ payload_bytes ++ checksum).

Record DecodedRecord := {
  event_id : Z;
  payload_bytes : bytes;
  consumed_bytes : Z
}.

Inductive decode_outcome :=
  | Decoded (r : DecodedRecord)
  | Incomplete
  | BadMagic
  | UnsupportedVersion
  | ChecksumMismatch (end_offset : Z).

(** [buf[a:b]] for [0 <= a <= b]. *)
Definition slice (buf : bytes) (a b : Z) : bytes :=
  take (Z.to_nat (b - a)) (drop (Z.to_nat a) buf).

Definition decode_record (buf : bytes) (offset : Z) : decode_outcome :=
  let available := Z.of_nat (length buf) - offset in
  if available <? 4 then Incomplete else
  let magic := slice buf offset (offset + 4) in
  if negb (bool_decide (magic = MAGIC)) then BadMagic else
  if available <? HEADER_SIZE then Incomplete else
  let tail_off := offset + 4 in
  let format_version := be_decode 0 (slice buf tail_off (tail_off + 1)) in
  let event_id := be_decode 0 (slice buf (tail_off + 1) (tail_off + 9)) in
  let payload_length := be_decode 0 (slice buf (tail_off + 9) (tail_off + 13)) in
  if negb (format_version =? FORMAT_VERSION) then UnsupportedVersion else
  let payload_start := offset + HEADER_SIZE in
  let payload_end := payload_start + payload_length in
  let checksum_end := payload_end + CHECKSUM_SIZE in
  if Z.of_nat (length buf) <? checksum_end then Incomplete else
  let payload_bytes := slice buf payload_start payload_end in
  let checksum := slice buf payload_end checksum_end in
  let header := slice buf offset payload_start in
  let expected_checksum := sha256 (header ++ payload_bytes) in
  if negb (bool_decide (checksum = expected_checksum)) then ChecksumMismatch checksum_end else
  Decoded {| event_id := event_id; payload_bytes := payload_bytes;
             consumed_bytes := checksum_end - offset |}.

(** ** Slices of concatenations *)

Lemma slice_app (pre mid suf : bytes) a b :
  Z.of_nat (length pre) = a -> a + Z.of_nat (length mid) = b ->
  slice (pre ++ mid ++ suf) a b = mid.
Proof.
  intros <- <-. unfold slice. rewrite Nat2Z.id drop_app_length.
  replace (Z.to_nat _) with (length mid) by lia. apply take_app_length.
Qed.

(** A slice that ends inside [p] does not see what follows [p]. *)
Lemma slice_prefix (pre p q : bytes) a b :
  0 <= a <= b -> b <= Z.of_nat (length p) ->
  slice (pre ++ p) (Z.of_nat (length pre) + a) (Z.of_nat (length pre) + b) = slice (p ++ q) a b.
Proof.
  intros Ha Hb. unfold slice. rewrite drop_app_ge; [lia|].
  replace (Z.to_nat (Z.of_nat (length pre) + a) - length pre)%nat with (Z.to_nat a) by lia.
  replace (Z.to_nat (Z.of_nat (length pre) + b - (Z.of_nat (length pre) + a))) with (Z.to_nat (b - a)) by lia.
  rewrite drop_app_le; [lia|]. rewrite take_app_le //. rewrite length_drop. lia.
Qed.

(** ** The framing of a record *)

Lemma encode_record_inv id pl r : encode_record id pl = Ok r ->
  0 <= id < 2 ^ 64 /\ Z.of_nat (length pl) < 2 ^ 32 /\
  let header := MAGIC ++ be_encode 1 FORMAT_VERSION ++ be_encode 8 id ++ be_encode 4 (Z.of_nat (length pl)) in
  r = header ++ pl ++ sha256 (header ++ pl).
Proof.
  unfold encode_record, pack_tail. case_bool_decide as Hb; [|done]. cbn [mbind result_bind].
  intros [= <-]. split_and!; [lia|lia|lia|done].
Qed.

Lemma encode_record_ok id pl : 0 <= id < 2 ^ 64 -> Z.of_nat (length pl) < 2 ^ 32 ->
  exists r, encode_record id pl = Ok r.
Proof.
  intros Hi Hl. unfold encode_record, pack_tail. rewrite bool_decide_eq_true_2; [|by eexists].
  unfold FORMAT_VERSION. lia.
Qed.

Lemma encode_record_length id pl r : encode_record id pl = Ok r ->
  Z.of_nat (length r) = HEADER_SIZE + Z.of_nat (length pl) + CHECKSUM_SIZE.
Proof.
  intros (_ & _ & ->)%encode_record_inv. cbv zeta.
  rewrite !length_app sha256_length !be_encode_length. change (length MAGIC) with 4%nat.
  unfold HEADER_SIZE, CHECKSUM_SIZE. lia.
Qed.

(** Everything [decode_record] reads of a framed record, whatever follows it. *)
Record framed (rec suf : bytes) (id : Z) (pl : bytes) : Prop := {
  fr_magic : slice (rec ++ suf) 0 4 = MAGIC;
  fr_version : be_decode 0 (slice (rec ++ suf) 4 5) = FORMAT_VERSION;
  fr_id : be_decode 0 (slice (rec ++ suf) 5 13) = id;
  fr_len : be_decode 0 (slice (rec ++ suf) 13 17) = Z.of_nat (length pl);
  fr_payload : slice (rec ++ suf) 17 (17 + Z.of_nat (length pl)) = pl;
  fr_sum : slice (rec ++ suf) (17 + Z.of_nat (length pl)) (17 + Z.of_nat (length pl) + 32)
           = sha256 (slice (rec ++ suf) 0 17 ++ pl)
}.

Lemma encode_framed id pl r suf : encode_record id pl = Ok r -> framed r suf id pl.
Proof.
  intros (Hid & Hpl & ->)%encode_record_inv. cbv zeta.
  set (h := MAGIC ++ be_encode 1 FORMAT_VERSION ++ be_encode 8 id ++ be_encode 4 (Z.of_nat (length pl))).
  set (ck := sha256 (h ++ pl)).
  assert (Hh : length h = 17%nat) by (unfold h; rewrite !length_app !be_encode_length; done).
  assert (Hc : length ck = 32%nat) by apply sha256_length.
  assert (Hflat : (h ++ pl ++ ck) ++ suf = h ++ (pl ++ (ck ++ suf))) by by rewrite -!app_assoc.
  assert (Hhdr : slice ((h ++ pl ++ ck) ++ suf) 0 17 = h).
  { rewrite Hflat. apply (slice_app [] h); [done|]. rewrite Hh. lia. }
  assert (Hpay : slice ((h ++ pl ++ ck) ++ suf) 17 (17 + Z.of_nat (length pl)) = pl).
  { rewrite Hflat. apply slice_app; rewrite ?Hh; lia. }
  split; [| | | |done|].
  - rewrite Hflat. unfold h. rewrite -app_assoc. by apply (slice_app [] MAGIC).
  - rewrite Hflat. unfold h. rewrite -!app_assoc. rewrite (slice_app MAGIC); [done|by rewrite be_encode_length|done].
  - rewrite Hflat. unfold h. rewrite -!app_assoc (app_assoc MAGIC).
    rewrite slice_app; [by rewrite length_app be_encode_length|by rewrite be_encode_length|].
    apply be_decode_encode. lia.
  - rewrite Hflat. unfold h. rewrite -!app_assoc (app_assoc MAGIC) (app_assoc (MAGIC ++ _)).
    rewrite slice_app; [by rewrite !length_app !be_encode_length|by rewrite be_encode_length|].
    apply be_decode_encode. lia.
  - rewrite Hhdr Hflat (app_assoc h). fold ck. apply slice_app. { rewrite length_app Hh. lia. } rewrite Hc. lia.
Qed.

(** Decoding a buffer that holds, at the offset, a prefix [p] of a record
    followed by anything: complete exactly when [p] covers the record. *)
Lemma decode_prefix id pl r suf pre p q :
  encode_record id pl = Ok r -> p ++ q = r ++ suf ->
  decode_record (pre ++ p) (Z.of_nat (length pre)) =
  if Z.of_nat (length p) <? Z.of_nat (length r) then Incomplete
  else Decoded {| event_id := id; payload_bytes := pl; consumed_bytes := Z.of_nat (length r) |}.
Proof.
  intros He Hpq. pose proof (encode_record_length _ _ _ He) as Hlen.
  destruct (encode_framed _ _ _ suf He) as [Hm Hv Hi Hl Hp Hs].
  rewrite -Hpq in Hm, Hv, Hi, Hl, Hp, Hs. unfold HEADER_SIZE, CHECKSUM_SIZE in Hlen.
  unfold decode_record, HEADER_SIZE, CHECKSUM_SIZE. set (n := Z.of_nat (length pre)).
  rewrite length_app Nat2Z.inj_add. fold n.
  replace (n + Z.of_nat (length p) - n) with (Z.of_nat (length p)) by lia.
  destruct (Z.ltb_spec (Z.of_nat (length p)) 4) as [?|H4]; [rewrite (proj2 (Z.ltb_lt _ _)); [lia|done]|].
  assert (E : forall a b a' b' x, slice (p ++ q) a b = x -> a' = n + a -> b' = n + b ->
    0 <= a <= b -> b <= Z.of_nat (length p) -> slice (pre ++ p) a' b' = x).
  { intros a b a' b' x <- -> -> ? ?. by apply slice_prefix. }
  rewrite (E 0 4 n (n + 4) _ Hm); [lia..|]. rewrite bool_decide_eq_true_2 //. cbn [negb].
  destruct (Z.ltb_spec (Z.of_nat (length p)) (4 + (1 + 8 + 4))) as [?|H17];
    [rewrite (proj2 (Z.ltb_lt _ _)); [lia|done]|].
  rewrite (E 4 5 (n + 4) (n + 4 + 1) _ eq_refl) ?Hv ?Z.eqb_refl; [lia..|]. cbn [negb].
  rewrite (E 5 13 (n + 4 + 1) (n + 4 + 9) _ eq_refl) ?Hi; [lia..|].
  rewrite (E 13 17 (n + 4 + 9) (n + 4 + 13) _ eq_refl) ?Hl; [lia..|].
  set (e := n + (4 + (1 + 8 + 4)) + Z.of_nat (length pl)).
  destruct (Z.ltb_spec (n + Z.of_nat (length p)) (e + 32)) as [?|Hall];
    [rewrite (proj2 (Z.ltb_lt _ _)); [lia|done]|].
  rewrite (proj2 (Z.ltb_ge _ _)); [lia|].
  rewrite (E _ _ (n + (4 + (1 + 8 + 4))) e _ Hp); [lia..|].
  rewrite (E _ _ e (e + 32) _ Hs); [lia..|].
  rewrite (E 0 17 n (n + (4 + (1 + 8 + 4))) _ eq_refl); [lia..|].
  rewrite bool_decide_eq_true_2 //. cbn [negb]. do 2 f_equal. lia.
Qed.

Lemma decode_torn id pl r p q pre :
  encode_record id pl = Ok r -> r = p ++ q -> q <> [] ->
  decode_record (pre ++ p) (Z.of_nat (length pre)) = Incomplete.
Proof.
  intros Hr -> Hq. rewrite (decode_prefix id pl (p ++ q) [] pre p q) //; [by rewrite app_nil_r|].
  rewrite length_app (proj2 (Z.ltb_lt _ _)) //. destruct q; [done|]. simpl. lia.
Qed.

(** ** Properties *)

(** A record written by [encode_record] for any 64-bit id and any payload
    shorter than 2^32 bytes is read back by [decode_record] exactly, at whatever
    offset of whatever file it stands and whatever follows it, and the decoder
    consumes exactly the record's bytes. *)
Theorem decode_encode_record id pl pre suf :
  0 <= id < 2 ^ 64 -> Z.of_nat (length pl) < 2 ^ 32 ->
  exists r, encode_record id pl = Ok r /\
    decode_record (pre ++ r ++ suf) (Z.of_nat (length pre))
    = Decoded {| event_id := id; payload_bytes := pl; consumed_bytes := Z.of_nat (length r) |}.
Proof.
  intros Hid Hpl. destruct (encode_record_ok id pl Hid Hpl) as [r Hr]. exists r. split; [done|].
  rewrite (decode_prefix id pl r suf pre (r ++ suf) []) //; [by rewrite app_nil_r|].
  rewrite length_app (proj2 (Z.ltb_ge _ _)); [lia|done].
Qed.

Lemma decode_encode_record_witness : exists r, encode_record 7 (encode "{}") = Ok r /\
  decode_record (encode "xy" ++ r ++ encode "z") 2
  = Decoded {| event_id := 7; payload_bytes := encode "{}"; consumed_bytes := Z.of_nat (length r) |}.
Proof. apply (decode_encode_record 7 (encode "{}") (encode "xy") (encode "z")); vm_compute; [split; congruence|done]. Defined.

(** A write cut short by a crash leaves a strict prefix of the record at
    the end of the file; the decoder classifies every such prefix as
    [Incomplete], so a torn tail can never be taken for bad magic, another
    format version, a checksum mismatch or a shorter valid record. *)
Theorem torn_record_incomplete id pl r p q pre :
  encode_record id pl = Ok r -> r = p ++ q -> q <> [] ->
  decode_record (pre ++ p) (Z.of_nat (length pre)) = Incomplete.
Proof. apply decode_torn. Qed.

Lemma torn_record_incomplete_witness :
  decode_record (encode "xy" ++ take 20 (match encode_record 7 (encode "{}") with Ok r => r | Err _ => [] end)) 2
  = Incomplete.
Proof.
  destruct (encode_record 7 (encode "{}")) as [r|] eqn:E; [|discriminate E].
  apply (torn_record_incomplete 7 (encode "{}") r (take 20 r) (drop 20 r) (encode "xy") E).
  - symmetry. apply take_drop.
  - intros H. apply (f_equal length) in H. rewrite length_drop in H.
    apply encode_record_length in E. unfold HEADER_SIZE, CHECKSUM_SIZE in E. change (length []) with 0%nat in H. change (length (encode "{}")) with 2%nat in E. lia.
Defined.
