(* ===== verification/EventStore.v ===== *)
(** * The event store (src/event_store/types.py, src/event_store/store.py)

    Events, the validation of a new event, the scan of a log file, and the
    [EventStore] object over a file with a write position: opening, appending
    with its roll-back, replaying, looking a key up, closing. The operating
    system's answers (the clock, short writes, failing writes and [fsync]) are
    arguments. *)

From Stdlib Require Import ssreflect ZArith Lia Ascii String Strings.Byte.
From stdpp Require Import base strings numbers gmap sets list.
From S2P Require Import Prelude PyText PyDict PyBytes PyJson EventCodec.
#[local] Open Scope Z_scope.

(** ** Events *)

Module EventType.
Inductive EventType :=
  | ORDER_SUBMITTED | ORDER_ACKNOWLEDGED | ORDER_FILLED | ORDER_CANCELLED
  | POSITION_OPENED | POSITION_UPDATED | POSITION_CLOSED
  | STOP_UPDATED | TAKE_PROFIT_UPDATED | KILL_SWITCH_TRIGGERED | HEALTH_ALERT
  | SYSTEM_STARTED | SYSTEM_STOPPED.
#[global] Instance EventType_eq_dec : EqDecision EventType.
Proof. solve_decision. Defined.

Definition value (t : EventType) : string :=
  match t with
  | ORDER_SUBMITTED => "ORDER_SUBMITTED" | ORDER_ACKNOWLEDGED => "ORDER_ACKNOWLEDGED"
  | ORDER_FILLED => "ORDER_FILLED" | ORDER_CANCELLED => "ORDER_CANCELLED"
  | POSITION_OPENED => "POSITION_OPENED" | POSITION_UPDATED => "POSITION_UPDATED"
  | POSITION_CLOSED => "POSITION_CLOSED" | STOP_UPDATED => "STOP_UPDATED"
  | TAKE_PROFIT_UPDATED => "TAKE_PROFIT_UPDATED"
  | KILL_SWITCH_TRIGGERED => "KILL_SWITCH_TRIGGERED" | HEALTH_ALERT => "HEALTH_ALERT"
  | SYSTEM_STARTED => "SYSTEM_STARTED" | SYSTEM_STOPPED => "SYSTEM_STOPPED"
  end.

#[global] Program Instance EventType_enum : PyEnum EventType := {
  enum_all := [ORDER_SUBMITTED; ORDER_ACKNOWLEDGED; ORDER_FILLED; ORDER_CANCELLED;
               POSITION_OPENED; POSITION_UPDATED; POSITION_CLOSED; STOP_UPDATED;
               TAKE_PROFIT_UPDATED; KILL_SWITCH_TRIGGERED; HEALTH_ALERT;
               SYSTEM_STARTED; SYSTEM_STOPPED];
  enum_value := value
}.
Solve Obligations with solve_enum.
End EventType.
Notation EventType := EventType.EventType.

(** The envelope fields are what the JSON holds; only [EventType] is checked on
    reading. *)
Record Event := {
  ev_id : Z;
  ev_type : EventType;
  ev_timestamp_utc : json;
  ev_schema_version : json;
  ev_idempotency_key : json;
  ev_payload : json
}.

Record RecoveryReport := {
  valid_event_count : Z;
  tail_truncated : bool;
  discarded_byte_count : Z
}.

Definition MAX_PAYLOAD_BYTES : Z := 256 * 1024.
Definition MAX_IDEMPOTENCY_KEY_LENGTH : Z := 200.

Definition _FORBIDDEN_KEY_SUBSTRINGS : list string := [
  "secret"; "private_key"; "priv_key"; "password"; "passphrase";
  "api_key"; "signing_key"; "mnemonic"; "seed_phrase" ].

Definition _canonical_json (obj : json) : bytes := encode (dumps obj).

Definition forbidden_key (k : string) : bool :=
  existsb (fun bad => str_contains bad (lower k)) _FORBIDDEN_KEY_SUBSTRINGS.

(** [if found: return found]: an empty path counts as not found. *)
Definition truthy (o : option string) : option string :=
  match o with Some EmptyString => None | _ => o end.

Definition sub_path (path k : string) : string :=
  match path with EmptyString => k | _ => path +:+ "." +:+ k end.

Fixpoint _scan_forbidden_keys (value : json) (path : string) {struct value} : option string :=
  match value with
  | JObj o =>
      (fix items (o : list (string * json)) : option string :=
         match o with
         | [] => None
         | (k, v) :: o =>
             if forbidden_key k then Some (sub_path path k)
             else match truthy (_scan_forbidden_keys v (sub_path path k)) with
                  | Some found => Some found
                  | None => items o
                  end
         end) o
  | JList l =>
      (fix elems (i : Z) (l : list json) : option string :=
         match l with
         | [] => None
         | v :: l => match truthy (_scan_forbidden_keys v (path +:+ "[" +:+ int_str i +:+ "]")) with
                     | Some found => Some found
                     | None => elems (i + 1) l
                     end
         end) 0 l
  | _ => None
  end.

(** [envelope[k]] *)
Definition jfield (k : string) (j : json) : result json :=
  match j with
  | JObj o => of_option KeyError (dget k o)
  | _ => Err TypeError
  end.

(** [dict(payload)], for a payload that is a dict. *)
Definition as_dict (j : json) : result json :=
  match j with JObj _ => Ok j | _ => Err TypeError end.

Definition _envelope_to_event (event_id : Z) (envelope : json) : result Event :=
  t ← jfield "event_type" envelope;
  event_type ← of_option ValueError (as_str t ≫= enum_of_value);
  timestamp_utc ← jfield "timestamp_utc" envelope;
  schema_version ← jfield "schema_version" envelope;
  let idempotency_key := default JNull (jget "idempotency_key" envelope) in
  p ← jfield "payload" envelope;
  payload ← as_dict p;
  Ok {| ev_id := event_id; ev_type := event_type; ev_timestamp_utc := timestamp_utc;
        ev_schema_version := schema_version; ev_idempotency_key := idempotency_key;
        ev_payload := payload |}.

(** ** Scanning a file *)

(** [last_event_id is not None and event.event_id <= last_event_id] *)
Definition not_monotonic (last_event_id : option Z) (id : Z) : bool :=
  match last_event_id with Some last => id <=? last | None => false end.

(** The [while] loop; [None] when the fuel runs out, which it does not for
    [S (length data)] (each record read is at least 49 bytes long). *)
Fixpoint scan_loop (fuel : nat) (data : bytes) (offset : Z) (last_event_id : option Z)
    (events : list Event) : option (result (list Event * bool * Z)) :=
  match fuel with
  | O => None
  | S fuel =>
      if offset <? Z.of_nat (length data) then
        match decode_record data offset with
        | Incomplete => Some (Ok (events, true, offset))
        | BadMagic => Some (Err CorruptEventStoreError)
        | UnsupportedVersion => Some (Err CorruptEventStoreError)
        | ChecksumMismatch end_offset =>
            if end_offset =? Z.of_nat (length data) then Some (Ok (events, true, offset))
            else Some (Err CorruptEventStoreError)
        | Decoded record =>
            let event :=
              text ← decode (payload_bytes record);
              envelope ← loads text;
              _envelope_to_event (event_id record) envelope in
            match event with
            | Err e => Some (Err e)
            | Ok event =>
                if not_monotonic last_event_id (ev_id event) then Some (Err CorruptEventStoreError)
                else scan_loop fuel data (offset + consumed_bytes record) (Some (ev_id event))
                       (events ++ [event])
            end
        end
      else Some (Ok (events, false, offset))
  end.

(** The events, the report and the last valid offset of a file's bytes;
    [None] for a path that does not exist. *)
Definition _scan_file (file : option bytes) : option (result (list Event * RecoveryReport * Z)) :=
  match file with
  | None => Some (Ok ([], {| valid_event_count := 0; tail_truncated := false; discarded_byte_count := 0 |}, 0))
  | Some data =>
      match scan_loop (S (length data)) data 0 None [] with
      | None => None
      | Some (Err e) => Some (Err e)
      | Some (Ok (events, truncated, offset)) =>
          Some (Ok (events, {| valid_event_count := Z.of_nat (length events);
                               tail_truncated := truncated;
                               discarded_byte_count := Z.of_nat (length data) - offset |}, offset))
      end
  end.

Definition read_events (file : option bytes) : option (result (list Event * RecoveryReport)) :=
  match _scan_file file with
  | Some (Ok (events, report, _)) => Some (Ok (events, report))
  | Some (Err e) => Some (Err e)
  | None => None
  end.

(** ** The store *)

(** A log file with the file offset of the descriptor the store holds
    ([O_APPEND]: every write goes to the end and moves the offset there). *)
Record File := { f_bytes : bytes; f_offset : Z }.

Record EventStore := {
  es_file : File;
  es_closed : bool;
  es_events : list Event;
  es_by_id : gmap Z Event;
  es_idempotency_index : gmap string Z;
  es_next_event_id : Z;
  es_recovery_report : RecoveryReport
}.

(** What the operating system answers during one [append]: the clock, one
    answer per [os.write] call ([Some n]: at most [n] bytes were written;
    [None]: it raised; past the end of the list a call writes everything),
    whether [fsync] succeeds, and whether the roll-back's calls succeed. *)
Record append_env := {
  env_now : string;
  env_writes : list (option Z);
  env_fsync : bool;
  env_ftruncate : bool;
  env_rollback_fsync : bool
}.

Definition os_write (f : File) (data : bytes) : File :=
  let b := f_bytes f ++ data in {| f_bytes := b; f_offset := Z.of_nat (length b) |}.

(** [os.ftruncate]: the offset does not move; growing the file pads it with
    zero bytes. *)
Definition os_ftruncate (f : File) (len : Z) : File :=
  let n := Z.to_nat len in
  {| f_bytes := take n (f_bytes f) ++ replicate (n - length (f_bytes f)) Byte.x00;
     f_offset := f_offset f |}.

(** The loop over short writes. *)
Fixpoint _write_full (answers : list (option Z)) (f : File) (data : bytes) : File * result unit :=
  match data with
  | [] => (f, Ok tt)
  | _ =>
      match answers with
      | [] => (os_write f data, Ok tt)
      | None :: _ => (f, Err OSError)
      | Some n :: answers =>
          if n <=? 0 then (f, Err OSError)
          else _write_full answers (os_write f (take (Z.to_nat n) data)) (drop (Z.to_nat n) data)
      end
  end.

Definition _validate_new_event (payload : list (string * json)) (idempotency_key : option string)
    (schema_version : Z) : result unit :=
  let issues := (schema_version <? 1) || match idempotency_key with
                                         | Some k => blank k || (MAX_IDEMPOTENCY_KEY_LENGTH <? slen k)
                                         | None => false
                                         end in
  if issues then Err MalformedEventError else
  match truthy (_scan_forbidden_keys (JObj payload) "") with
  | Some _ => Err MalformedEventError
  | None =>
      if MAX_PAYLOAD_BYTES <? Z.of_nat (length (_canonical_json (JObj payload)))
      then Err MalformedEventError else Ok tt
  end.

Definition make_envelope (event_type : EventType) (now : string) (schema_version : Z)
    (idempotency_key : option string) (payload : list (string * json)) : json :=
  JObj [("event_type", JStr (enum_value event_type)); ("timestamp_utc", JStr now);
        ("schema_version", JInt schema_version);
        ("idempotency_key", match idempotency_key with Some k => JStr k | None => JNull end);
        ("payload", JObj payload)].

Definition set_file (f : File) (s : EventStore) : EventStore :=
  {| es_file := f; es_closed := es_closed s; es_events := es_events s; es_by_id := es_by_id s;
     es_idempotency_index := es_idempotency_index s; es_next_event_id := es_next_event_id s;
     es_recovery_report := es_recovery_report s |}.

(** The dictionary from idempotency keys to ids: a key that is no string can
    never be looked up; an unhashable one raises. *)
Definition index_event (index : gmap string Z) (e : Event) : result (gmap string Z) :=
  match ev_idempotency_key e with
  | JStr k => Ok (<[k := ev_id e]> index)
  | JList _ | JObj _ => Err TypeError
  | _ => Ok index
  end.

Definition set_closed (s : EventStore) : EventStore :=
  {| es_file := es_file s; es_closed := true; es_events := es_events s; es_by_id := es_by_id s;
     es_idempotency_index := es_idempotency_index s; es_next_event_id := es_next_event_id s;
     es_recovery_report := es_recovery_report s |}.

(** The write, with its roll-back. *)
Definition write_record (env : append_env) (f : File) (record_bytes : bytes) : File * result unit :=
  let pre_write_offset := f_offset f in
  let '(f, r) := _write_full (env_writes env) f record_bytes in
  let r := match r with Ok _ => if env_fsync env then Ok tt else Err OSError | Err e => Err e end in
  match r with
  | Ok _ => (f, Ok tt)
  | Err e =>
      if env_ftruncate env then
        (os_ftruncate f pre_write_offset, if env_rollback_fsync env then Err e else Err OSError)
      else (f, Err OSError)
  end.

Definition append (env : append_env) (event_type : EventType) (payload : list (string * json))
    (idempotency_key : option string) (schema_version : Z) : M EventStore Event := fun self =>
  if es_closed self then (self, Err EventStoreClosedError) else
  match _validate_new_event payload idempotency_key schema_version with
  | Err e => (self, Err e)
  | Ok _ =>
      let fresh :=
        let event_id := es_next_event_id self in
        let envelope := make_envelope event_type (env_now env) schema_version idempotency_key payload in
        let payload_bytes := _canonical_json envelope in
        match encode_record event_id payload_bytes with
        | Err e => (self, Err e)
        | Ok record_bytes =>
            match write_record env (es_file self) record_bytes with
            | (f, Err e) => (set_file f self, Err e)
            | (f, Ok _) =>
                match _envelope_to_event event_id envelope with
                | Err e => (set_file f self, Err e)
                | Ok event =>
                    ({| es_file := f; es_closed := es_closed self;
                        es_events := es_events self ++ [event];
                        es_by_id := <[event_id := event]> (es_by_id self);
                        es_idempotency_index := match idempotency_key with
                                                | Some k => <[k := event_id]> (es_idempotency_index self)
                                                | None => es_idempotency_index self
                                                end;
                        es_next_event_id := event_id + 1;
                        es_recovery_report := es_recovery_report self |}, Ok event)
                end
            end
        end in
      match idempotency_key ≫= (fun k => es_idempotency_index self !! k) with
      | Some id => (self, of_option KeyError (es_by_id self !! id))
      | None => fresh
      end
  end.

Definition replay (from_event_id : Z) (self : EventStore) : result (list Event) :=
  if es_closed self then Err EventStoreClosedError
  else Ok (List.filter (fun e => from_event_id <=? ev_id e) (es_events self)).

Definition has_idempotency_key (key : string) (self : EventStore) : bool :=
  bool_decide (is_Some (es_idempotency_index self !! key)).

Definition get_by_idempotency_key (key : string) (self : EventStore) : option Event :=
  es_idempotency_index self !! key ≫= fun id => es_by_id self !! id.

Definition event_count (self : EventStore) : Z := Z.of_nat (length (es_events self)).

Definition close (self : EventStore) : EventStore :=
  if es_closed self then self else set_closed self.

(** The constructor: the file's bytes afterwards and the store, or the
    exception. [lock_ok], [ftruncate_ok] and [fsync_ok] are the answers to
    [flock] and to the calls that cut a torn tail off. *)
Definition open_store (lock_ok ftruncate_ok fsync_ok : bool) (data : bytes) : option (bytes * result EventStore) :=
  if negb lock_ok then Some (data, Err EventStoreLockError) else
  match _scan_file (Some data) with
  | None => None
  | Some (Err e) => Some (data, Err e)
  | Some (Ok (events, report, last_valid_offset)) =>
      let cut := tail_truncated report && (0 <? discarded_byte_count report) in
      if cut && negb ftruncate_ok then Some (data, Err OSError) else
      let data := if cut then take (Z.to_nat last_valid_offset) data else data in
      if cut && negb fsync_ok then Some (data, Err OSError) else
      match fold_result index_event ∅ events with
      | Err e => Some (data, Err e)
      | Ok index =>
          Some (data, Ok {| es_file := {| f_bytes := data; f_offset := Z.of_nat (length data) |};
                            es_closed := false; es_events := events;
                            es_by_id := list_to_map (map (fun e => (ev_id e, e)) events);
                            es_idempotency_index := index;
                            es_next_event_id := match last events with Some e => ev_id e + 1 | None => 1 end;
                            es_recovery_report := report |})
      end
  end.
