(* ===== verification/EventStoreFacts.v ===== *)
(** * The event store: invariants, recovery, idempotency

    What a well-formed store is ([store_ok]), when its file agrees with it
    ([synced]), and that every operation keeps these; scanning a file that holds
    a log and a torn tail; the abstract log the store implements. *)

From Stdlib Require Import ssreflect ZArith Lia Ascii String Strings.Byte.
From stdpp Require Import base strings numbers gmap sets list.
From S2P Require Import Prelude PyText PyDict PyBytes PyJson PyJsonFacts EventCodec EventStore.
#[local] Open Scope Z_scope.

(** ** Events as they are written *)

Definition envelope_items (e : Event) : list (string * json) :=
  [("event_type", JStr (enum_value (ev_type e))); ("timestamp_utc", ev_timestamp_utc e);
        ("schema_version", ev_schema_version e); ("idempotency_key", ev_idempotency_key e);
        ("payload", ev_payload e)].
Definition envelope_of (e : Event) : json := JObj (envelope_items e).

Definition event_record (e : Event) : result bytes :=
  encode_record (ev_id e) (_canonical_json (envelope_of e)).

(** The event read back from its record. *)
Definition canon_event (e : Event) : Event :=
  {| ev_id := ev_id e; ev_type := ev_type e; ev_timestamp_utc := canon (ev_timestamp_utc e);
     ev_schema_version := canon (ev_schema_version e);
     ev_idempotency_key := canon (ev_idempotency_key e); ev_payload := canon (ev_payload e) |}.

Definition is_obj (j : json) : bool := match j with JObj _ => true | _ => false end.

(** Dicts have distinct keys and the payload is a dict. *)
Definition event_ok (e : Event) : Prop :=
  json_wf (envelope_of e) = true /\ is_obj (ev_payload e) = true.

Definition hashable (j : json) : bool := match j with JObj _ | JList _ => false | _ => true end.

Definition read_record (id : Z) (payload : bytes) : result Event :=
  text ← decode payload; envelope ← loads text; _envelope_to_event id envelope.

Lemma json_wf_obj o : json_wf (JObj o) = true <-> NoDup (dkeys o) /\ Forall (fun p => json_wf p.2 = true) o.
Proof.
  cbn [json_wf]. rewrite andb_true_iff bool_decide_eq_true forallb_forall Forall_forall.
  split; intros [H1 H2]; (split; [done|]); intros x Hx; apply H2; by apply list_elem_of_In.
Qed.

Lemma envelope_keys e : NoDup (dkeys (envelope_items e)).
Proof.
  change (dkeys (envelope_items e))
    with ["event_type"; "timestamp_utc"; "schema_version"; "idempotency_key"; "payload"].
  apply (bool_decide_eq_true_1 _). vm_compute. reflexivity.
Qed.

Lemma envelope_wf e : json_wf (envelope_of e) = true <->
  json_wf (ev_timestamp_utc e) = true /\ json_wf (ev_schema_version e) = true /\
  json_wf (ev_idempotency_key e) = true /\ json_wf (ev_payload e) = true.
Proof.
  unfold envelope_of. rewrite json_wf_obj. unfold envelope_items. rewrite !Forall_cons. cbn [snd].
  pose proof (envelope_keys e). unfold envelope_items in *. split; [tauto|]. intros (?&?&?&?). split_and!; done.
Qed.

Lemma envelope_to_event_fields id j t ts sv key p :
  jget "event_type" j = Some (JStr (enum_value t)) -> jget "timestamp_utc" j = Some ts ->
  jget "schema_version" j = Some sv -> jget "idempotency_key" j = Some key ->
  jget "payload" j = Some (JObj p) ->
  _envelope_to_event id j = Ok {| ev_id := id; ev_type := t; ev_timestamp_utc := ts;
    ev_schema_version := sv; ev_idempotency_key := key; ev_payload := JObj p |}.
Proof.
  intros H1 H2 H3 H4 H5. unfold _envelope_to_event. rewrite H4.
  destruct j as [| | | | |o]; try done. cbn [jget] in *. unfold jfield. rewrite H1 H2 H3 H5.
  cbn [of_option mbind result_bind option_bind as_str]. by rewrite enum_of_value_value.
Qed.

Lemma jget_envelope e :
  jget "event_type" (envelope_of e) = Some (JStr (enum_value (ev_type e))) /\
  jget "timestamp_utc" (envelope_of e) = Some (ev_timestamp_utc e) /\
  jget "schema_version" (envelope_of e) = Some (ev_schema_version e) /\
  jget "idempotency_key" (envelope_of e) = Some (ev_idempotency_key e) /\
  jget "payload" (envelope_of e) = Some (ev_payload e).
Proof. done. Qed.

Lemma read_envelope e : event_ok e ->
  _envelope_to_event (ev_id e) (canon (envelope_of e)) = Ok (canon_event e).
Proof.
  intros [Hwf Hobj]. destruct (jget_envelope e) as (H1 & H2 & H3 & H4 & H5).
  destruct (ev_payload e) as [| | | | |p] eqn:Ep; try done.
  assert (Hg : forall k v, jget k (envelope_of e) = Some v -> jget k (canon (envelope_of e)) = Some (canon v)).
  { intros k v Hk. by rewrite jget_canon // Hk. }
  apply Hg in H1, H2, H3, H4, H5. unfold canon_event. rewrite Ep. by apply envelope_to_event_fields.
Qed.

Lemma read_record_canonical id j : json_wf j = true ->
  read_record id (_canonical_json j) = _envelope_to_event id (canon j).
Proof.
  intros Hwf. unfold read_record, _canonical_json. rewrite decode_encode; [by apply dumps_ascii|].
  cbn [mbind result_bind]. by rewrite loads_dumps.
Qed.

Lemma read_event e : event_ok e ->
  read_record (ev_id e) (_canonical_json (envelope_of e)) = Ok (canon_event e).
Proof. intros He. rewrite read_record_canonical; [by destruct He|]. by apply read_envelope. Qed.

Lemma canon_event_ok e : event_ok e -> event_ok (canon_event e).
Proof.
  intros [Hwf Hobj]. split.
  - apply envelope_wf. apply envelope_wf in Hwf as (?&?&?&?). split_and!; by apply json_wf_canon.
  - cbn. by destruct (ev_payload e).
Qed.

Lemma canon_map_canon (o : list (string * json)) :
  canon (JObj (map (fun p => (p.1, canon p.2)) o)) = canon (JObj o).
Proof.
  cbn [canon]. rewrite map_map. cbn [fst snd]. do 2 f_equal. apply map_ext. intros p. by rewrite canon_canon.
Qed.

Lemma canon_envelope e : canon (envelope_of (canon_event e)) = canon (envelope_of e).
Proof.
  unfold envelope_of. rewrite -(canon_map_canon (envelope_items e)). do 2 f_equal.
Qed.

Lemma event_record_canon e : event_record (canon_event e) = event_record e.
Proof.
  assert (E : dumps (envelope_of (canon_event e)) = dumps (envelope_of e)).
  { rewrite -(dumps_canon "" (envelope_of (canon_event e))) -(dumps_canon "" (envelope_of e)).
    by rewrite canon_envelope. }
  unfold event_record, _canonical_json. by rewrite E.
Qed.

Lemma canon_event_idem e : canon_event (canon_event e) = canon_event e.
Proof. unfold canon_event. cbn. by rewrite !canon_canon. Qed.

(** ** Files that hold a log *)

(** [b] is the concatenation of the records of [es]. *)
Inductive logged : list Event -> bytes -> Prop :=
  | logged_nil : logged [] []
  | logged_cons e es r b : event_record e = Ok r -> logged es b -> logged (e :: es) (r ++ b).

Lemma logged_app es1 b1 es2 b2 : logged es1 b1 -> logged es2 b2 -> logged (es1 ++ es2) (b1 ++ b2).
Proof. induction 1 as [|e es r b Hr H IH]; [done|]. intros H2. rewrite -app_assoc. constructor; [done|by apply IH]. Qed.

Lemma logged_snoc es b e r : logged es b -> event_record e = Ok r -> logged (es ++ [e]) (b ++ r).
Proof.
  intros H Hr. apply logged_app; [done|]. rewrite -(app_nil_r r). by repeat constructor.
Qed.

Lemma logged_canon es b : logged es b -> logged (map canon_event es) b.
Proof. induction 1; simpl; constructor; [by rewrite event_record_canon|done]. Qed.

(** Ids increase, from above [last]. *)
Fixpoint monotone (last : option Z) (es : list Event) : Prop :=
  match es with [] => True | e :: es => not_monotonic last (ev_id e) = false /\ monotone (Some (ev_id e)) es end.

Lemma monotone_snoc last es e : monotone last es ->
  (forall x, list.last es = Some x -> ev_id x < ev_id e) ->
  (es = [] -> not_monotonic last (ev_id e) = false) -> monotone last (es ++ [e]).
Proof.
  revert last; induction es as [|x es IH]; intros l.
  - intros _ _ H. by split; [apply H|].
  - intros [Hx Hes] Hl _. split; [done|]. apply IH; [done| |].
    + intros y Hy. apply Hl. destruct es; [done|exact Hy].
    + intros ->. cbn. apply Z.leb_gt. by apply Hl.
Qed.

Lemma monotone_lt last es e : monotone (Some last) es -> e ∈ es -> last < ev_id e.
Proof.
  revert last; induction es as [|x es IH]; intros l; [by intros _ ?%elem_of_nil|].
  intros [Hx%Z.leb_gt Hes] [->|H]%elem_of_cons; [done|]. specialize (IH _ Hes H). lia.
Qed.

(** Ids are distinct. *)
Lemma monotone_inj last es e1 e2 : monotone last es -> e1 ∈ es -> e2 ∈ es -> ev_id e1 = ev_id e2 -> e1 = e2.
Proof.
  revert last; induction es as [|x es IH]; intros l; [by intros _ ?%elem_of_nil|].
  intros [Hx Hes] H1 H2 Heq. apply elem_of_cons in H1 as [->|H1]; apply elem_of_cons in H2 as [->|H2]; try done.
  - pose proof (monotone_lt _ _ _ Hes H2). lia.
  - pose proof (monotone_lt _ _ _ Hes H1). lia.
  - by apply (IH _ Hes).
Qed.

Lemma monotone_last last es e x : monotone last es -> list.last es = Some x -> e ∈ es -> ev_id e <= ev_id x.
Proof.
  revert last; induction es as [|y es IH]; intros l; [by intros _ ?|].
  intros [Hy Hes] Hl [->|He]%elem_of_cons.
  - destruct es as [|z es]; [cbn in Hl; injection Hl as ->; lia|].
    assert (x ∈ z :: es) by (apply last_Some_elem_of; exact Hl).
    pose proof (monotone_lt _ _ _ Hes ltac:(done)). lia.
  - destruct es as [|z es]; [by apply elem_of_nil in He|]. apply (IH _ Hes); [exact Hl|done].
Qed.

Lemma monotone_canon last es : monotone last es -> monotone last (map canon_event es).
Proof. revert last; induction es as [|e es IH]; intros l; [done|]. intros [He Hes]. split; [done|by apply IH]. Qed.

(** What may follow the log in a file: nothing, or a strict prefix of a record. *)
Definition torn (p : bytes) : Prop :=
  p = [] \/ exists id pl r q, encode_record id pl = Ok r /\ r = p ++ q /\ q <> [].

Lemma record_nonempty id pl r : encode_record id pl = Ok r -> (0 < length r)%nat.
Proof. intros H%encode_record_length. unfold HEADER_SIZE, CHECKSUM_SIZE in H. lia. Qed.

(** The scan reads a whole log, whatever follows it. *)
Lemma scan_prefix es b p : logged es b -> Forall event_ok es -> forall fuel pre last acc,
  monotone last es -> (length (b ++ p) < fuel)%nat ->
  exists fuel' last', (length p < fuel')%nat /\
  scan_loop fuel (pre ++ b ++ p) (Z.of_nat (length pre)) last acc
  = scan_loop fuel' ((pre ++ b) ++ p) (Z.of_nat (length (pre ++ b))) last' (acc ++ map canon_event es).
Proof.
  induction 1 as [|e es r b Hr Hlog IH]; intros Hok fuel pre last acc Hm Hf.
  - exists fuel, last. cbn [map]. by rewrite app_nil_l !app_nil_r.
  - destruct fuel as [|fuel]; [lia|]. cbn [scan_loop].
    apply Forall_cons in Hok as [He Hok]. destruct Hm as [Hm Hms].
    pose proof (record_nonempty _ _ _ Hr) as Hlr.
    rewrite (proj2 (Z.ltb_lt _ _)). { rewrite !length_app. lia. }
    rewrite (decode_prefix _ _ r (b ++ p) pre ((r ++ b) ++ p) [] Hr).
    { by rewrite app_nil_r app_assoc. }
    rewrite (proj2 (Z.ltb_ge _ _)). { rewrite !length_app. lia. }
    cbn [payload_bytes event_id consumed_bytes]. fold (read_record (ev_id e) (_canonical_json (envelope_of e))).
    rewrite read_event //. cbn [ev_id canon_event]. rewrite Hm.
    replace (Z.of_nat (length pre) + Z.of_nat (length r)) with (Z.of_nat (length (pre ++ r)))
      by (rewrite length_app; lia).
    replace (pre ++ (r ++ b) ++ p) with ((pre ++ r) ++ b ++ p) by by rewrite -!app_assoc.
    destruct (IH Hok fuel (pre ++ r) (Some (ev_id e)) (acc ++ [canon_event e]) Hms) as (fuel' & last' & Hf' & ->).
    { rewrite !length_app in Hf |- *. lia. }
    exists fuel', last'. split; [done|]. by rewrite -!app_assoc.
Qed.

Lemma scan_logged es b p : logged es b -> Forall event_ok es -> torn p -> forall fuel pre last acc,
  monotone last es -> (length (b ++ p) < fuel)%nat ->
  scan_loop fuel (pre ++ b ++ p) (Z.of_nat (length pre)) last acc
  = Some (Ok (acc ++ map canon_event es, bool_decide (p <> []), Z.of_nat (length (pre ++ b)))).
Proof.
  intros Hlog Hok Hp fuel pre last acc Hm Hf.
  destruct (scan_prefix es b p Hlog Hok fuel pre last acc Hm Hf) as (fuel' & last' & Hf' & ->).
  destruct fuel' as [|fuel']; [lia|]. cbn [scan_loop]. rewrite (length_app (pre ++ b) p).
  destruct (decide (p = [])) as [->|Hne].
  - rewrite (proj2 (Z.ltb_ge _ _)); [simpl; lia|]. by rewrite bool_decide_eq_false_2; [naive_solver|].
  - rewrite (proj2 (Z.ltb_lt _ _)). { destruct p; [done|]. simpl. lia. }
    destruct Hp as [->|(id & pl & r & q & Hr & Hpq & Hq)]; [done|].
    rewrite (decode_torn id pl r p q (pre ++ b)) //. by rewrite bool_decide_eq_true_2.
Qed.

(** Four bytes that are not the magic number right after a log: corrupt. *)
Lemma scan_garbage es b p : logged es b -> Forall event_ok es -> (4 <= length p)%nat -> take 4 p <> MAGIC ->
  monotone None es -> _scan_file (Some (b ++ p)) = Some (Err CorruptEventStoreError).
Proof.
  intros Hlog Hok Hp Hmag Hm. unfold _scan_file.
  destruct (scan_prefix es b p Hlog Hok (S (length (b ++ p))) [] None [] Hm) as (fuel' & last' & Hf' & E); [lia|].
  rewrite app_nil_l in E. change (Z.of_nat (length [])) with 0 in E. rewrite E.
  destruct fuel' as [|fuel']; [lia|]. cbn [scan_loop app].
  rewrite (proj2 (Z.ltb_lt _ _)). { rewrite length_app. lia. }
  unfold decode_record. rewrite (proj2 (Z.ltb_ge _ _)). { rewrite length_app. lia. }
  rewrite bool_decide_eq_false_2 //. unfold slice. rewrite Nat2Z.id drop_app_length.
  by replace (Z.to_nat _) with 4%nat by lia.
Qed.

(** ** Scanning terminates *)

Lemma be_decode_nonneg m x : 0 <= x -> 0 <= be_decode x m.
Proof.
  revert x; induction m as [|c m IH]; intros x Hx; [done|]. cbn [be_decode]. apply IH.
  pose proof (b2z_bound c). lia.
Qed.

Lemma decode_record_consumed data offset r : decode_record data offset = Decoded r ->
  49 <= consumed_bytes r /\ offset + consumed_bytes r <= Z.of_nat (length data).
Proof.
  unfold decode_record, HEADER_SIZE, CHECKSUM_SIZE.
  destruct (_ <? 4); [done|]. destruct (negb _); [done|]. destruct (_ <? 4 + (1 + 8 + 4)); [done|].
  destruct (negb _); [done|]. set (l := be_decode 0 _).
  assert (0 <= l) by by apply be_decode_nonneg.
  destruct (Z.ltb_spec (Z.of_nat (length data)) (offset + (4 + (1 + 8 + 4)) + l + 32)); [done|].
  destruct (negb _); [done|]. intros [= <-]. cbn [consumed_bytes]. lia.
Qed.

Lemma scan_loop_total fuel data offset last acc :
  0 <= offset <= Z.of_nat (length data) -> Z.of_nat (length data) - offset < Z.of_nat fuel ->
  scan_loop fuel data offset last acc <> None.
Proof.
  revert offset last acc; induction fuel as [|fuel IH]; intros offset last acc H0 Hf; cbn [scan_loop].
  - lia.
  - destruct (Z.ltb_spec offset (Z.of_nat (length data))); [|done].
    destruct (decode_record data offset) as [r| | | |e] eqn:E; try done; [|by destruct (_ =? _)].
    apply decode_record_consumed in E as [Hc He].
    destruct (_ ≫= _) as [ev|x]; [|done]. destruct (not_monotonic _ _); [done|]. apply IH; lia.
Qed.

Lemma scan_file_total data : _scan_file data <> None.
Proof.
  destruct data as [data|]; [|done]. unfold _scan_file.
  destruct (scan_loop _ data 0 None []) as [[[[? ?] ?]|]|] eqn:E; try done.
  exfalso. revert E. apply scan_loop_total; lia.
Qed.

(** ** Writing *)

Lemma write_full_spec answers f data :
  exists n f', _write_full answers f data = (f', if bool_decide (n = length data) then Ok tt else Err OSError) /\
    (n <= length data)%nat /\ f_bytes f' = f_bytes f ++ take n data /\
    ((n = 0%nat /\ f' = f) \/ f_offset f' = Z.of_nat (length (f_bytes f'))).
Proof.
  revert f data; induction answers as [|a answers IH]; intros f data.
  - destruct data as [|b data]; cbn [_write_full].
    + exists 0%nat, f. rewrite app_nil_r. naive_solver.
    + exists (length (b :: data)), (os_write f (b :: data)). rewrite bool_decide_eq_true_2 // firstn_all.
      split_and!; [done|done|done|by right].
  - destruct data as [|b data]; [exists 0%nat, f; rewrite app_nil_r; naive_solver|].
    set (d := b :: data). assert (Hd : length d <> 0%nat) by done.
    assert (Hno : (f, Err OSError) = (f, if bool_decide (0%nat = length d) then Ok tt else @Err unit OSError)).
    { rewrite bool_decide_eq_false_2; [by intros [=]|done]. }
    destruct a as [n|]; cbn [_write_full]; [|exists 0%nat, f; rewrite app_nil_r; naive_solver lia].
    destruct (Z.leb_spec n 0); [exists 0%nat, f; rewrite app_nil_r; naive_solver lia|].
    fold d. set (m := Z.to_nat n). set (f1 := os_write f (take m d)).
    destruct (IH f1 (drop m d)) as (k & f' & He & Hk & Hb & Ho). rewrite length_drop in Hk.
    exists (m `min` length d + k)%nat, f'. rewrite He.
    split_and!; [|lia| |].
    + f_equal. rewrite length_drop.
      destruct (decide (k = (length d - m)%nat)).
      * rewrite !bool_decide_eq_true_2 //. lia.
      * rewrite !bool_decide_eq_false_2 //. lia.
    + rewrite Hb. unfold f1, os_write. cbn [f_bytes]. rewrite -app_assoc. f_equal.
      destruct (decide (m <= length d)%nat).
      * rewrite Nat.min_l //. rewrite -take_take_drop. done.
      * rewrite (take_ge d m); [lia|]. rewrite (drop_ge d m); [lia|]. rewrite take_nil app_nil_r.
        rewrite take_ge //. lia.
    + right. destruct Ho as [[-> ->]|Ho]; [done|done].
Qed.

Lemma os_ftruncate_back f b data : f_bytes f = b ++ data ->
  f_bytes (os_ftruncate f (Z.of_nat (length b))) = b.
Proof.
  intros H. unfold os_ftruncate. cbn [f_bytes]. rewrite Nat2Z.id H length_app take_app_length.
  replace (length b - (length b + length data))%nat with 0%nat by lia. by rewrite app_nil_r.
Qed.

(** One write from the end of the file: either the record is appended, or, when
    the roll-back's [ftruncate] works, the bytes are as before. *)
Lemma write_record_spec env f data : data <> [] -> f_offset f = Z.of_nat (length (f_bytes f)) ->
  let '(f', r) := write_record env f data in
  (r = Ok tt /\ f' = os_write f data) \/
  (r = Err OSError /\ (env_ftruncate env = true -> f_bytes f' = f_bytes f)).
Proof.
  intros Hne Ho. unfold write_record.
  destruct (write_full_spec (env_writes env) f data) as (n & f' & He & Hn & Hb & Ho'). rewrite He.
  destruct (decide (n = length data)) as [->|Hnl].
  - rewrite bool_decide_eq_true_2 //. rewrite firstn_all in Hb.
    assert (Hf : f' = os_write f data).
    { destruct Ho' as [[Hz _]|Ho']; [by destruct data|]. destruct f' as [b o]. unfold os_write. cbn in *. by subst. }
    destruct (env_fsync env); [by left|]. destruct (env_ftruncate env); [|by right].
    right. split; [by destruct (env_rollback_fsync env)|].
    intros _. rewrite Ho. by eapply os_ftruncate_back.
  - rewrite bool_decide_eq_false_2 //. destruct (env_ftruncate env); [|by right]. right.
    split; [by destruct (env_rollback_fsync env)|]. intros _. rewrite Ho. by eapply os_ftruncate_back.
Qed.

(** From any offset, the outcome of the write and, when it succeeds, the bytes. *)
Lemma write_record_result env f data : data <> [] ->
  let '(f', r) := write_record env f data in
  (r = Ok tt /\ f' = os_write f data) \/ r = Err OSError.
Proof.
  intros Hne. unfold write_record.
  destruct (write_full_spec (env_writes env) f data) as (n & f' & He & Hn & Hb & Ho'). rewrite He.
  destruct (decide (n = length data)) as [->|Hnl].
  - rewrite bool_decide_eq_true_2 //. rewrite firstn_all in Hb.
    assert (Hf : f' = os_write f data).
    { destruct Ho' as [[Hz _]|Ho']; [by destruct data|]. destruct f' as [b o]. unfold os_write. cbn in *. by subst. }
    destruct (env_fsync env); [by left|].
    destruct (env_ftruncate env), (env_rollback_fsync env); by right.
  - rewrite bool_decide_eq_false_2 //.
    destruct (env_ftruncate env), (env_rollback_fsync env); by right.
Qed.

(** ** The store's memory *)

Definition key_of (e : Event) : option string := as_str (ev_idempotency_key e).

Definition next_id (es : list Event) : Z := match last es with Some e => ev_id e + 1 | None => 1 end.

Record store_ok (s : EventStore) : Prop := {
  so_open : es_closed s = false;
  so_events : Forall (fun e => event_ok e /\ hashable (ev_idempotency_key e) = true) (es_events s);
  so_mono : monotone None (es_events s);
  so_next : es_next_event_id s = next_id (es_events s);
  so_by_id : forall id e, es_by_id s !! id = Some e <-> e ∈ es_events s /\ ev_id e = id;
  so_index : forall k id, es_idempotency_index s !! k = Some id <->
    exists e, e ∈ es_events s /\ key_of e = Some k /\ ev_id e = id
}.

(** The file holds exactly the store's events and writes start at its end. *)
Record synced (s : EventStore) : Prop := {
  sy_ok : store_ok s;
  sy_logged : logged (es_events s) (f_bytes (es_file s));
  sy_offset : f_offset (es_file s) = Z.of_nat (length (f_bytes (es_file s)))
}.

Lemma next_id_fresh last es e : monotone last es -> e ∈ es -> ev_id e < next_id es.
Proof.
  intros Hm He. unfold next_id. destruct (list.last es) as [x|] eqn:E.
  - pose proof (monotone_last _ _ _ _ Hm E He). lia.
  - apply last_None in E as ->. by apply elem_of_nil in He.
Qed.

Lemma find_key s k : store_ok s -> get_by_idempotency_key k s = None -> forall e, e ∈ es_events s -> key_of e <> Some k.
Proof.
  intros Hs Hn e He Hk. unfold get_by_idempotency_key in Hn.
  rewrite (proj2 (so_index s Hs k (ev_id e))) in Hn; [by exists e|].
  cbn [mbind option_bind] in Hn. rewrite (proj2 (so_by_id s Hs (ev_id e) e)) in Hn; done.
Qed.

Lemma find_some s k e : store_ok s -> get_by_idempotency_key k s = Some e <-> e ∈ es_events s /\ key_of e = Some k.
Proof.
  intros Hs. unfold get_by_idempotency_key. split.
  - destruct (es_idempotency_index s !! k) as [id|] eqn:E; [|done]. cbn [mbind option_bind].
    intros [He Hid]%(so_by_id s Hs). apply (so_index s Hs) in E as (e' & He' & Hk & Hid').
    rewrite (monotone_inj None _ e e' (so_mono s Hs)) //. congruence.
  - intros [He Hk]. rewrite (proj2 (so_index s Hs k (ev_id e))); [by exists e|].
    cbn [mbind option_bind]. by rewrite (proj2 (so_by_id s Hs (ev_id e) e)).
Qed.

(** The event a successful append stores. *)
Definition new_event (id : Z) (ty : EventType) (now : string) (sv : Z) (key : option string)
    (payload : list (string * json)) : Event :=
  {| ev_id := id; ev_type := ty; ev_timestamp_utc := JStr now; ev_schema_version := JInt sv;
     ev_idempotency_key := match key with Some k => JStr k | None => JNull end;
     ev_payload := JObj payload |}.

Lemma make_envelope_of id ty now sv key payload :
  make_envelope ty now sv key payload = envelope_of (new_event id ty now sv key payload).
Proof. reflexivity. Qed.

Lemma make_envelope_event id ty now sv key payload :
  _envelope_to_event id (make_envelope ty now sv key payload) = Ok (new_event id ty now sv key payload).
Proof. by apply envelope_to_event_fields. Qed.

Lemma new_event_ok id ty now sv key payload : json_wf (JObj payload) = true ->
  event_ok (new_event id ty now sv key payload) /\
  hashable (ev_idempotency_key (new_event id ty now sv key payload)) = true.
Proof.
  intros Hp. split; [|by destruct key]. split; [|done]. apply envelope_wf. cbn [new_event ev_timestamp_utc
    ev_schema_version ev_idempotency_key ev_payload]. split_and!; try done. by destruct key.
Qed.

Definition push_event (f : File) (e : Event) (s : EventStore) : EventStore :=
  {| es_file := f; es_closed := es_closed s; es_events := es_events s ++ [e];
     es_by_id := <[ev_id e := e]> (es_by_id s);
     es_idempotency_index := match key_of e with
                             | Some k => <[k := ev_id e]> (es_idempotency_index s)
                             | None => es_idempotency_index s
                             end;
     es_next_event_id := ev_id e + 1;
     es_recovery_report := es_recovery_report s |}.

Lemma push_event_ok f e s : store_ok s -> event_ok e -> hashable (ev_idempotency_key e) = true ->
  ev_id e = es_next_event_id s ->
  (forall k, key_of e = Some k -> es_idempotency_index s !! k = None) -> store_ok (push_event f e s).
Proof.
  intros Hs He Hh Hid Hk. pose proof (so_next s Hs) as Hn.
  assert (Hfresh : forall x, x ∈ es_events s -> ev_id x < ev_id e).
  { intros x Hx. rewrite Hid Hn. by apply (next_id_fresh None); [apply so_mono|]. }
  split; cbn [push_event es_closed es_events es_by_id es_idempotency_index es_next_event_id].
  - apply (so_open s Hs).
  - apply Forall_app. split; [apply (so_events s Hs)|]. apply Forall_cons; split; [by split|by apply Forall_nil].
  - apply monotone_snoc; [apply (so_mono s Hs)| |done].
    intros x Hx. apply Hfresh. by apply last_Some_elem_of.
  - unfold next_id. by rewrite last_snoc.
  - intros id x. rewrite lookup_insert. case_decide as Hd.
    + subst id. split; [intros [= <-]; set_solver|]. intros [[Hx|Hx%list_elem_of_singleton]%elem_of_app Hxe]; [|by subst].
      specialize (Hfresh _ Hx). lia.
    + rewrite (so_by_id s Hs). set_solver.
  - intros k id. destruct (key_of e) as [k'|] eqn:Ek.
    + rewrite lookup_insert. case_decide as Hd.
      * subst k'. specialize (Hk k eq_refl). split.
        -- intros [= <-]. exists e. set_solver.
        -- intros (x & [Hx|Hx%list_elem_of_singleton]%elem_of_app & Hxk & Hxi); [|by subst].
           rewrite (proj2 (so_index s Hs k (ev_id x))) in Hk; [by exists x|done].
      * rewrite (so_index s Hs). split; [intros (x & ? & ? & ?); exists x; set_solver|].
        intros (x & [Hx|Hx%list_elem_of_singleton]%elem_of_app & Hxk & Hxi); [by exists x|]. subst. congruence.
    + rewrite (so_index s Hs). split; [intros (x & ? & ? & ?); exists x; set_solver|].
      intros (x & [Hx|Hx%list_elem_of_singleton]%elem_of_app & Hxk & Hxi); [by exists x|]. subst. congruence.
Qed.

(** Every outcome of [append] on an open, well-formed store. *)
Inductive append_result (env : append_env) ty payload key sv (s : EventStore) : EventStore -> result Event -> Prop :=
  | ar_invalid : _validate_new_event payload key sv = Err MalformedEventError ->
      append_result env ty payload key sv s s (Err MalformedEventError)
  | ar_duplicate k e : _validate_new_event payload key sv = Ok tt -> key = Some k ->
      get_by_idempotency_key k s = Some e ->
      append_result env ty payload key sv s s (Ok e)
  | ar_oversize : _validate_new_event payload key sv = Ok tt ->
      (forall k, key = Some k -> get_by_idempotency_key k s = None) ->
      event_record (new_event (es_next_event_id s) ty (env_now env) sv key payload) = Err StructError ->
      append_result env ty payload key sv s s (Err StructError)
  | ar_failed f rec : _validate_new_event payload key sv = Ok tt ->
      (forall k, key = Some k -> get_by_idempotency_key k s = None) ->
      event_record (new_event (es_next_event_id s) ty (env_now env) sv key payload) = Ok rec ->
      write_record env (es_file s) rec = (f, Err OSError) ->
      append_result env ty payload key sv s (set_file f s) (Err OSError)
  | ar_new rec : _validate_new_event payload key sv = Ok tt ->
      (forall k, key = Some k -> get_by_idempotency_key k s = None) ->
      let e := new_event (es_next_event_id s) ty (env_now env) sv key payload in
      event_record e = Ok rec ->
      write_record env (es_file s) rec = (os_write (es_file s) rec, Ok tt) ->
      append_result env ty payload key sv s (push_event (os_write (es_file s) rec) e s) (Ok e).

Lemma validate_err payload key sv e : _validate_new_event payload key sv = Err e -> e = MalformedEventError.
Proof. unfold _validate_new_event. cbv zeta. intros H. repeat case_match; congruence. Qed.

Lemma append_spec env ty payload key sv s : store_ok s ->
  append_result env ty payload key sv s (append env ty payload key sv s).1 (append env ty payload key sv s).2.
Proof.
  intros Hs. unfold append. rewrite (so_open s Hs).
  destruct (_validate_new_event payload key sv) as [[]|x] eqn:Hv.
  2:{ pose proof (validate_err _ _ _ _ Hv) as ->. by constructor. }
  destruct (key ≫= _) as [id|] eqn:Hk.
  - destruct key as [k|]; [|done]. cbn [mbind option_bind] in Hk.
    pose proof (proj1 (so_index s Hs k id) Hk) as (e & He & Hke & Hid).
    rewrite (proj2 (so_by_id s Hs id e)) //. cbn [of_option fst snd].
    apply (ar_duplicate _ _ _ _ _ _ k); try done. by apply find_some.
  - assert (Hnone : forall k, key = Some k -> es_idempotency_index s !! k = None).
    { intros k ->. exact Hk. }
    assert (Hfind : forall k, key = Some k -> get_by_idempotency_key k s = None).
    { intros k Hkk. unfold get_by_idempotency_key. by rewrite (Hnone k Hkk). }
    cbv zeta. rewrite make_envelope_event (make_envelope_of (es_next_event_id s)).
    set (e := new_event _ _ _ _ _ _).
    change (encode_record _ _) with (event_record e).
    destruct (event_record e) as [rec|x] eqn:Hr.
    2:{ assert (x = StructError) as ->. { revert Hr. unfold event_record, encode_record, pack_tail.
        case_bool_decide; [done|]. by intros [= <-]. }
        by apply ar_oversize. }
    assert (Hne : rec <> []). { intros ->. apply record_nonempty in Hr. simpl in Hr. lia. }
    pose proof (write_record_result env (es_file s) rec Hne) as Hw.
    destruct (write_record env (es_file s) rec) as [f [[]|x]] eqn:Ew.
    + destruct Hw as [[_ ->]|]; [|done].
      cbn [fst snd]. match goal with |- append_result _ _ _ _ _ _ ?st _ =>
        replace st with (push_event (os_write (es_file s) rec) e s) end; [exact (ar_new env ty payload key sv s rec Hv Hfind Hr Ew)|].
      unfold push_event. rewrite (so_open s Hs). subst e. by destruct key.
    + cbn [fst snd]. destruct Hw as [[? _]|[= ->]]; [done|].
      by eapply ar_failed.
Qed.

(** ** Opening a file *)

Lemma key_of_canon e : key_of (canon_event e) = key_of e.
Proof. unfold key_of. cbn. by destruct (ev_idempotency_key e). Qed.

Lemma hashable_canon j : hashable (canon j) = hashable j.
Proof. by destruct j. Qed.

(** No two events carry the same key. *)
Definition keys_unique (es : list Event) : Prop :=
  forall e1 e2 k, e1 ∈ es -> e2 ∈ es -> key_of e1 = Some k -> key_of e2 = Some k -> ev_id e1 = ev_id e2.

Lemma index_event_spec m e : hashable (ev_idempotency_key e) = true ->
  index_event m e = Ok (match key_of e with Some k => <[k := ev_id e]> m | None => m end).
Proof. unfold index_event, key_of. by destruct (ev_idempotency_key e). Qed.

Lemma index_events es : Forall (fun e => hashable (ev_idempotency_key e) = true) es -> keys_unique es ->
  exists m, fold_result index_event ∅ es = Ok m /\
    forall k id, m !! k = Some id <-> exists e, e ∈ es /\ key_of e = Some k /\ ev_id e = id.
Proof.
  induction es as [|e es IH] using rev_ind; intros Hh Hu.
  - exists ∅. split; [done|]. intros k id. rewrite lookup_empty.
    split; [done|]. by intros (e & ?%elem_of_nil & _).
  - apply Forall_app in Hh as [Hh [He _]%Forall_cons].
    destruct IH as (m & Hm & Hidx); [done| |].
    { intros e1 e2 k H1 H2. apply Hu; apply elem_of_app; by left. }
    rewrite (fold_result_snoc _ _ _ _ _ Hm) index_event_spec //.
    assert (Hold : forall k id, key_of e <> Some k -> m !! k = Some id <->
              exists e0, e0 ∈ es ++ [e] /\ key_of e0 = Some k /\ ev_id e0 = id).
    { intros k id Hn. rewrite Hidx. split; intros (x & Hx & Hk & Hi); exists x.
      - split; [apply elem_of_app; by left|done].
      - apply elem_of_app in Hx as [Hx|Hx%list_elem_of_singleton]; [done|]. by subst. }
    eexists. split; [reflexivity|]. intros k id.
    destruct (key_of e) as [k'|] eqn:Hke; [|by apply Hold].
    rewrite lookup_insert. case_decide as Hd; [subst k'|].
    + split.
      * intros [= <-]. exists e. split_and!; [apply elem_of_app; right; by left|done|done].
      * intros (x & Hx & Hk & <-). f_equal. apply (Hu e x k); try done. apply elem_of_app. right. by left.
    + apply Hold. congruence.
Qed.

Lemma store_keys_unique s : store_ok s -> keys_unique (es_events s).
Proof.
  intros Hs e1 e2 k H1 H2 Hk1 Hk2.
  pose proof (proj2 (so_index s Hs k (ev_id e1)) (ex_intro _ e1 (conj H1 (conj Hk1 eq_refl)))) as E1.
  pose proof (proj2 (so_index s Hs k (ev_id e2)) (ex_intro _ e2 (conj H2 (conj Hk2 eq_refl)))) as E2.
  congruence.
Qed.

Lemma by_id_events es last : monotone last es -> forall id e,
  list_to_map (M := gmap Z Event) (map (fun e => (ev_id e, e)) es) !! id = Some e <-> e ∈ es /\ ev_id e = id.
Proof.
  intros Hm id e.
  change (map (fun e => (ev_id e, e)) es) with ((fun e => (ev_id e, e)) <$> es).
  rewrite -elem_of_list_to_map.
  - rewrite -list_fmap_compose. clear id e. revert last Hm. induction es as [|x es IH]; intros l; [constructor|].
    intros [_ Hm]. rewrite fmap_cons. constructor; [|by eapply IH].
    intros (y & Hy & Hin)%list_elem_of_fmap. pose proof (monotone_lt _ _ _ Hm Hin). cbn in Hy. lia.
  - rewrite list_elem_of_fmap. split; [intros (x & [= -> ->] & ?); done|]. intros [? <-]. by exists e.
Qed.

(** Opening a file that holds a log, possibly followed by a torn record. *)
Lemma open_logged es b p :
  logged es b -> torn p -> monotone None es -> keys_unique es ->
  Forall (fun e => event_ok e /\ hashable (ev_idempotency_key e) = true) es ->
  exists s, open_store true true true (b ++ p) = Some (b, Ok s) /\ synced s /\
    es_events s = map canon_event es /\ f_bytes (es_file s) = b.
Proof.
  intros Hl Ht Hm Hu Hok.
  assert (Hok1 : Forall event_ok es) by (eapply Forall_impl; [exact Hok|]; by intros ? []).
  pose proof (scan_logged es b p Hl Hok1 Ht (S (length (b ++ p))) [] None [] Hm ltac:(lia)) as Hscan.
  rewrite !app_nil_l in Hscan. set (es' := map canon_event es) in *.
  assert (Hu' : keys_unique es').
  { intros e1 e2 k (x & -> & Hx)%list_elem_of_fmap (y & -> & Hy)%list_elem_of_fmap. rewrite !key_of_canon.
    intros Hk1 Hk2. by apply (Hu x y k). }
  assert (Hok' : Forall (fun e => event_ok e /\ hashable (ev_idempotency_key e) = true) es').
  { apply Forall_map. eapply Forall_impl; [exact Hok|]. intros e [He Hh]. split; [by apply canon_event_ok|].
    cbn. by rewrite hashable_canon. }
  destruct (index_events es') as (m & Hfold & Hidx); [|done|].
  { eapply Forall_impl; [exact Hok'|]; by intros ? []. }
  unfold open_store, _scan_file. cbn [negb]. change (Z.of_nat (length [])) with 0 in Hscan. rewrite Hscan.
  cbn [tail_truncated discarded_byte_count].
  rewrite (_ : (Z.of_nat (length (b ++ p)) - Z.of_nat (length b)) = Z.of_nat (length p));
    [rewrite length_app; lia|].
  assert (Hcut : (if bool_decide (p <> []) && (0 <? Z.of_nat (length p))
                  then take (Z.to_nat (Z.of_nat (length b))) (b ++ p) else b ++ p) = b).
  { destruct p as [|c p]; [by rewrite app_nil_r|]. rewrite Nat2Z.id. apply take_app_length. }
  cbv zeta. change (negb true) with false. rewrite !andb_false_r Hcut Hfold.
  eexists. split; [reflexivity|]. split; [|done]. split; cbn.
  - split; cbn; try done.
    + by apply monotone_canon.
    + eapply by_id_events. by apply monotone_canon.
  - by apply logged_canon.
  - done.
Qed.

(** Every outcome keeps the memory well-formed. *)
Lemma append_store_ok env ty payload key sv s : json_wf (JObj payload) = true ->
  store_ok s -> store_ok (append env ty payload key sv s).1.
Proof.
  intros Hp Hs. destruct (append_spec env ty payload key sv s Hs) as [|k e|?|f rec|rec Hv Hf e Hr Hw]; try done.
  - destruct Hs. by split.
  - destruct (new_event_ok (es_next_event_id s) ty (env_now env) sv key payload Hp) as [He Hh].
    apply push_event_ok; try done. intros k Hk. specialize (Hf k).
    assert (Hkk : key = Some k). { revert Hk. unfold e, key_of. by destruct key. }
    specialize (Hf Hkk). destruct (es_idempotency_index s !! k) as [id|] eqn:E; [|done].
    apply (so_index s Hs) in E as (x & Hx & Hkx & _).
    by destruct (find_key s k Hs Hf x Hx).
Qed.

(** One append from a synchronised store: durable, or nothing happened. *)
Lemma append_synced env ty payload key sv s : json_wf (JObj payload) = true -> synced s ->
  match append env ty payload key sv s with
  | (s', Ok e) => synced s' /\ (s' = s \/ es_events s' = es_events s ++ [e])
  | (s', Err x) => es_events s' = es_events s /\
      (env_ftruncate env = true -> f_bytes (es_file s') = f_bytes (es_file s))
  end.
Proof.
  intros Hp [Hs Hlog Hoff]. pose proof (append_store_ok env ty payload key sv s Hp Hs) as Hs'.
  pose proof (append_spec env ty payload key sv s Hs) as Ha.
  destruct (append env ty payload key sv s) as [s' r]; cbn [fst snd] in *.
  destruct Ha as [|k e|?|f rec Hv Hf Hr Hw|rec Hv Hf e Hr Hw]; try done.
  - split; [by split|by left].
  - split; [done|]. intros Ht. assert (Hne : rec <> []) by (intros ->; apply record_nonempty in Hr; simpl in Hr; lia).
    pose proof (write_record_spec env (es_file s) rec Hne Hoff) as Hsp. rewrite Hw in Hsp.
    destruct Hsp as [[? _]|[_ H]]; [done|]. by apply H.
  - split; [|by right]. split; [done| |done]. cbn. by apply logged_snoc.
Qed.

(** The store on a new, empty file. *)
Lemma empty_store_synced : exists s, open_store true true true [] = Some ([], Ok s) /\ synced s /\ es_events s = [].
Proof.
  destruct (open_logged [] [] []) as (s & Ho & Hs & He & _); try done.
  - constructor.
  - by left.
  - by intros ? ? ? ?%elem_of_nil.
  - by exists s.
Qed.

Definition empty_store : EventStore :=
  match open_store true true true [] with
  | Some (_, Ok s) => s
  | _ => {| es_file := {| f_bytes := []; f_offset := 0 |}; es_closed := true; es_events := [];
            es_by_id := ∅; es_idempotency_index := ∅; es_next_event_id := 1;
            es_recovery_report := {| valid_event_count := 0; tail_truncated := false; discarded_byte_count := 0 |} |}
  end.

Lemma empty_synced : synced empty_store /\ es_events empty_store = [].
Proof. destruct empty_store_synced as (s & Ho & Hs & He). unfold empty_store. by rewrite Ho. Qed.

(** The system answering every call fully. *)
Definition env_fine : append_env :=
  {| env_now := "2024-01-01T00:00:00+00:00"; env_writes := []; env_fsync := true;
     env_ftruncate := true; env_rollback_fsync := true |}.

Definition sample_payload : list (string * json) := [("b", JInt 1); ("a", JStr "x")].
Definition sample_store : EventStore :=
  (append env_fine EventType.ORDER_FILLED sample_payload (Some "k1") 1 empty_store).1.

Lemma sample_append : is_ok (append env_fine EventType.ORDER_FILLED sample_payload (Some "k1") 1 empty_store).2 = true.
Proof. reflexivity. Qed.

Lemma sample_payload_wf : json_wf (JObj sample_payload) = true.
Proof. reflexivity. Qed.

Lemma sample_synced : synced sample_store.
Proof.
  pose proof (append_synced env_fine EventType.ORDER_FILLED sample_payload (Some "k1") 1 empty_store
    sample_payload_wf (proj1 empty_synced)) as H.
  pose proof sample_append as Hok. unfold sample_store.
  destruct (append _ _ _ _ _ _) as [s' [e|x]]; [|done]. apply H.
Qed.

(** ** Properties *)

(** C6: crash recovery. A store whose file holds its log, killed at any point
    of the next append (any strict prefix of the record may have reached the
    disk), is reopened with exactly the committed events, in order and with
    their ids, types and keys, the next id unchanged and the same answer to
    every idempotency-key lookup; the torn bytes are cut off the file. *)
Theorem reopen_after_crash s p : synced s -> torn p ->
  exists s', open_store true true true (f_bytes (es_file s) ++ p) = Some (f_bytes (es_file s), Ok s') /\
    synced s' /\ es_events s' = map canon_event (es_events s) /\
    f_bytes (es_file s') = f_bytes (es_file s) /\
    es_next_event_id s' = es_next_event_id s /\
    forall k, get_by_idempotency_key k s' = canon_event <$> get_by_idempotency_key k s.
Proof.
  intros [Hs Hlog Hoff] Hp.
  destruct (open_logged (es_events s) (f_bytes (es_file s)) p) as (s' & Ho & Hs' & He & Hb);
    [done|done|apply (so_mono s Hs)|by apply store_keys_unique|apply (so_events s Hs)|].
  exists s'. split_and!; try done.
  - rewrite (so_next s Hs) (so_next s' (sy_ok s' Hs')) He. unfold next_id.
    change (map canon_event (es_events s)) with (canon_event <$> es_events s).
    rewrite fmap_last. by destruct (last (es_events s)).
  - intros k. destruct Hs' as [Hs' _ _]. destruct (get_by_idempotency_key k s) as [e|] eqn:E.
    + apply find_some; [done|]. apply find_some in E as [E Hk]; [|done].
      rewrite He key_of_canon. split; [by apply list_elem_of_fmap_2|done].
    + destruct (get_by_idempotency_key k s') as [e'|] eqn:E'; [|done].
      apply find_some in E' as [Hin Hk]; [|done]. rewrite He in Hin.
      apply list_elem_of_fmap in Hin as (e & -> & Hin). rewrite key_of_canon in Hk.
      by destruct (find_key s k Hs E e Hin).
Qed.

Lemma torn_sample : torn (encode "TQE").
Proof.
  right. destruct (encode_record_ok 2 []) as [r Hr]; [split; lia|done|].
  exists 2, [], r, (drop 3 r). split; [done|]. split.
  - rewrite -{1}(take_drop 3 r). f_equal. apply encode_record_inv in Hr as (_ & _ & ->). cbv zeta.
    rewrite -app_assoc. by generalize (be_encode 1 FORMAT_VERSION).
  - intros H. apply (f_equal length) in H. rewrite length_drop in H. cbn [length] in H.
    apply encode_record_length in Hr. unfold HEADER_SIZE, CHECKSUM_SIZE in Hr. cbn [length] in Hr. lia.
Qed.

Lemma reopen_after_crash_witness :
  exists s', open_store true true true (f_bytes (es_file sample_store) ++ encode "TQE")
             = Some (f_bytes (es_file sample_store), Ok s') /\
    synced s' /\ es_events s' = map canon_event (es_events sample_store) /\
    f_bytes (es_file s') = f_bytes (es_file sample_store) /\
    es_next_event_id s' = es_next_event_id sample_store /\
    forall k, get_by_idempotency_key k s' = canon_event <$> get_by_idempotency_key k sample_store.
Proof. exact (reopen_after_crash sample_store (encode "TQE") sample_synced torn_sample). Defined.

(** An append is atomic. From a store whose file holds its log, an append
    that returns leaves the file holding the log with the event in it (or the
    state untouched, for a key already used); an append that raises leaves the
    events and, when the roll-back's [ftruncate] succeeds, every byte of the
    file as they were, however many short writes preceded the failure. *)
Theorem append_atomic env ty payload key sv s : json_wf (JObj payload) = true -> synced s ->
  match append env ty payload key sv s with
  | (s', Ok e) => synced s' /\ (s' = s \/ es_events s' = es_events s ++ [e])
  | (s', Err x) => store_ok s' /\ es_events s' = es_events s /\
      (env_ftruncate env = true -> f_bytes (es_file s') = f_bytes (es_file s))
  end.
Proof.
  intros Hp Hs. pose proof (append_synced env ty payload key sv s Hp Hs) as H.
  pose proof (append_store_ok env ty payload key sv s Hp (sy_ok s Hs)) as Hok.
  by destruct (append env ty payload key sv s) as [s' [e|x]].
Qed.

(** Ten bytes reach the disk, then the device is full. *)
Definition env_full : append_env :=
  {| env_now := "2024-01-01T00:00:01+00:00"; env_writes := [Some 10; None]; env_fsync := true;
     env_ftruncate := true; env_rollback_fsync := true |}.

Lemma append_atomic_witness :
  match append env_full EventType.ORDER_FILLED sample_payload (Some "k2") 1 sample_store with
  | (s', Ok e) => synced s' /\ (s' = sample_store \/ es_events s' = es_events sample_store ++ [e])
  | (s', Err x) => store_ok s' /\ es_events s' = es_events sample_store /\
      (env_ftruncate env_full = true -> f_bytes (es_file s') = f_bytes (es_file sample_store))
  end.
Proof.
  exact (append_atomic env_full EventType.ORDER_FILLED sample_payload (Some "k2") 1 sample_store
           sample_payload_wf sample_synced).
Defined.

(** Appending is idempotent in the key. Once an append with key [k] has
    returned an event, any later append with the same key, whatever its event
    type and payload and whatever the operating system would answer, returns
    that same event and changes nothing. *)
Theorem append_idempotent env env' ty ty' payload payload' k sv sv' s s1 e :
  store_ok s -> json_wf (JObj payload) = true ->
  append env ty payload (Some k) sv s = (s1, Ok e) ->
  _validate_new_event payload' (Some k) sv' = Ok tt ->
  append env' ty' payload' (Some k) sv' s1 = (s1, Ok e).
Proof.
  intros Hs Hp Ha Hv. pose proof (append_store_ok env ty payload (Some k) sv s Hp Hs) as Hs1.
  pose proof (append_spec env ty payload (Some k) sv s Hs) as Hr. rewrite Ha in Hr, Hs1. cbn [fst snd] in *.
  assert (Hf : get_by_idempotency_key k s1 = Some e).
  { inversion Hr as [|k' e' Hv' Hk Hf| | |]; simplify_eq; [done|]. apply find_some; [done|]. cbn. split; [set_solver|done]. }
  unfold append. rewrite (so_open s1 Hs1) Hv. cbn [mbind option_bind]. unfold get_by_idempotency_key in Hf.
  destruct (es_idempotency_index s1 !! k) as [id|]; [|done]. cbn [mbind option_bind] in *. by rewrite Hf.
Qed.

Lemma append_idempotent_witness :
  match append env_fine EventType.ORDER_FILLED sample_payload (Some "k1") 1 empty_store with
  | (s1, Ok e) => append env_full EventType.HEALTH_ALERT [] (Some "k1") 2 s1 = (s1, Ok e)
  | _ => False
  end.
Proof.
  pose proof sample_append as Hok.
  destruct (append env_fine EventType.ORDER_FILLED sample_payload (Some "k1") 1 empty_store) as [s1 [e|]] eqn:E; [|done].
  exact (append_idempotent env_fine env_full EventType.ORDER_FILLED EventType.HEALTH_ALERT sample_payload [] "k1" 1 2
    empty_store s1 e (sy_ok _ (proj1 empty_synced)) sample_payload_wf E eq_refl).
Defined.

(** Scanning terminates. On any bytes whatever, opening a store (and so
    [read_events]) comes back with a store or an exception; the scan's loop
    always makes progress. *)
Theorem open_total lock_ok ftruncate_ok fsync_ok data :
  exists data' r, open_store lock_ok ftruncate_ok fsync_ok data = Some (data', r) /\
    read_events (Some data) <> None.
Proof.
  unfold open_store, read_events. pose proof (scan_file_total (Some data)) as Ht.
  destruct (_scan_file (Some data)) as [[[[evs rep] off]|x]|]; [..|done].
  - destruct lock_ok; cbn [negb]; [|by do 2 eexists].
    cbv zeta. destruct (_ && negb ftruncate_ok); [by do 2 eexists|].
    destruct (_ && negb fsync_ok); [by do 2 eexists|].
    destruct (fold_result _ _ _); by do 2 eexists.
  - destruct lock_ok; by do 2 eexists.
Qed.

(** ** The stale write offset

    [append] takes the file size before the write from [lseek(SEEK_CUR)]. After
    a rolled-back short write the descriptor's offset still stands past the end
    (neither [ftruncate] moves it), so the next failing append "rolls back" to
    an offset beyond the end and pads the file with zero bytes. *)

(** The first attempt gets [n] bytes out before the device is full; the second
    gets none out. *)
Definition env_short (now : string) (n : Z) : append_env :=
  {| env_now := now; env_writes := [Some n; None]; env_fsync := true; env_ftruncate := true;
     env_rollback_fsync := true |}.
Definition env_none (now : string) : append_env :=
  {| env_now := now; env_writes := [None]; env_fsync := true; env_ftruncate := true;
     env_rollback_fsync := true |}.

Lemma write_short now n f data : f_offset f = Z.of_nat (length (f_bytes f)) -> 0 < n < Z.of_nat (length data) ->
  write_record (env_short now n) f data
  = ({| f_bytes := f_bytes f; f_offset := Z.of_nat (length (f_bytes f)) + n |}, Err OSError).
Proof.
  intros Ho Hn. unfold write_record. cbn [env_short env_writes env_fsync env_ftruncate env_rollback_fsync].
  destruct data as [|c data]; [simpl in Hn; lia|]. cbn [_write_full]. rewrite (proj2 (Z.leb_gt _ _)); [lia|].
  set (d := c :: data) in *. destruct (drop (Z.to_nat n) d) as [|c' d'] eqn:Ed.
  { apply (f_equal length) in Ed. rewrite length_drop in Ed. change (length []) with 0%nat in Ed. lia. }
  cbn [_write_full]. unfold os_ftruncate, os_write. cbn [f_bytes f_offset]. rewrite Ho Nat2Z.id take_app_length.
  rewrite length_app length_take.
  replace (length (f_bytes f) - _)%nat with 0%nat by lia. cbn [replicate]. rewrite app_nil_r.
  do 2 f_equal. rewrite Nat.min_l; lia.
Qed.

Lemma write_none now f data : data <> [] ->
  write_record (env_none now) f data = (os_ftruncate f (f_offset f), Err OSError).
Proof. by destruct data. Qed.

(** Two consecutive failing appends corrupt the log. From any store whose
    file holds its log, an append that writes between 4 and 49 bytes and then
    fails, followed by an append that fails before writing anything, both
    rolled back without error, leave the file with that many zero bytes after
    the log; opening it again raises [CorruptEventStoreError]. *)
Theorem two_failures_corrupt s n now1 now2 ty1 ty2 p1 p2 k1 k2 sv1 sv2 s1 s2 :
  synced s -> 4 <= n <= 49 ->
  append (env_short now1 n) ty1 p1 k1 sv1 s = (s1, Err OSError) ->
  append (env_none now2) ty2 p2 k2 sv2 s1 = (s2, Err OSError) ->
  f_bytes (es_file s2) = f_bytes (es_file s) ++ replicate (Z.to_nat n) Byte.x00 /\
  open_store true true true (f_bytes (es_file s2)) = Some (f_bytes (es_file s2), Err CorruptEventStoreError).
Proof.
  intros [Hs Hlog Hoff] Hn H1 H2.
  pose proof (append_spec (env_short now1 n) ty1 p1 k1 sv1 s Hs) as A1. rewrite H1 in A1. cbn [fst snd] in A1.
  inversion A1 as [| | |f1 rec1 ? ? Hr1 Hw1|]; subst. clear A1.
  pose proof (encode_record_length _ _ _ Hr1) as Hl1. unfold HEADER_SIZE, CHECKSUM_SIZE in Hl1.
  assert (Hpl : (0 < length (_canonical_json (envelope_of (new_event (es_next_event_id s) ty1 now1 sv1 k1 p1))))%nat).
  { unfold _canonical_json. rewrite encode_length. apply dumps_len. }
  assert (Hnl : 0 < n < Z.of_nat (length rec1)).
  { change (env_now (env_short now1 n)) with now1 in *. lia. }
  rewrite write_short // in Hw1. injection Hw1 as <-.
  assert (Hs1 : store_ok (set_file {| f_bytes := f_bytes (es_file s);
            f_offset := Z.of_nat (length (f_bytes (es_file s))) + n |} s)) by (destruct Hs; by split).
  pose proof (append_spec (env_none now2) ty2 p2 k2 sv2 _ Hs1) as A2. rewrite H2 in A2. cbn [fst snd] in A2.
  inversion A2 as [| | |f2 rec2 ? ? Hr2 Hw2|]; subst.
  rewrite write_none in Hw2. { intros ->. apply record_nonempty in Hr2. simpl in Hr2. lia. }
  injection Hw2 as <-. cbn [set_file es_file f_bytes f_offset os_ftruncate].
  assert (Hb : take (Z.to_nat (Z.of_nat (length (f_bytes (es_file s))) + n)) (f_bytes (es_file s)) ++
    replicate (Z.to_nat (Z.of_nat (length (f_bytes (es_file s))) + n) - length (f_bytes (es_file s))) Byte.x00
    = f_bytes (es_file s) ++ replicate (Z.to_nat n) Byte.x00).
  { rewrite take_ge; [lia|]. do 2 f_equal. lia. }
  rewrite Hb. split; [done|]. unfold open_store. cbn [negb]. rewrite (scan_garbage (es_events s)) //.
  - eapply Forall_impl; [apply (so_events s Hs)|]. by intros ? [].
  - rewrite length_replicate. lia.
  - rewrite take_replicate. replace (4 `min` Z.to_nat n)%nat with 4%nat by lia. done.
  - apply (so_mono s Hs).
Qed.

Definition sample_s1 : EventStore := (append (env_short "t1" 10) EventType.HEALTH_ALERT [] None 1 sample_store).1.
Definition sample_s2 : EventStore := (append (env_none "t2") EventType.HEALTH_ALERT [] None 1 sample_s1).1.

Lemma sample_failures :
  append (env_short "t1" 10) EventType.HEALTH_ALERT [] None 1 sample_store = (sample_s1, Err OSError) /\
  append (env_none "t2") EventType.HEALTH_ALERT [] None 1 sample_s1 = (sample_s2, Err OSError).
Proof. split; reflexivity. Qed.

Lemma two_failures_corrupt_witness :
  f_bytes (es_file sample_s2) = f_bytes (es_file sample_store) ++ replicate 10 Byte.x00 /\
  open_store true true true (f_bytes (es_file sample_s2))
  = Some (f_bytes (es_file sample_s2), Err CorruptEventStoreError).
Proof.
  exact (two_failures_corrupt sample_store 10 "t1" "t2" EventType.HEALTH_ALERT EventType.HEALTH_ALERT [] [] None None 1 1
    sample_s1 sample_s2 sample_synced ltac:(lia) (proj1 sample_failures) (proj2 sample_failures)).
Defined.
