(* ===== verification/EventLog.v ===== *)
(** * What the managers rely on: an idempotent, append-only event log

    The interface [EventLog] between the event store and the components that
    record into it, its specification as a list of events ([mem_append]), the
    refinement theorem for the real store, and the two instances: the file-based
    [StoreLog] and the list-based [MemLog]. *)

From Stdlib Require Import ssreflect ZArith Lia Ascii String Strings.Byte.
From stdpp Require Import base strings numbers gmap sets list.
From S2P Require Import Prelude PyText PyDict PyBytes PyJson PyJsonFacts EventCodec EventStore EventStoreFacts.
#[local] Open Scope Z_scope.

(** ** The specification *)

Definition find_event (k : string) (es : list Event) : option Event :=
  List.find (fun e => bool_decide (key_of e = Some k)) es.

(** Whether the system lets the next event through. *)
Inductive commit := Committed (now : string) | Refused (x : exn).

Definition mem_append (c : commit) (ty : EventType) (payload : list (string * json)) (key : option string)
    (sv : Z) (es : list Event) : list Event * result Event :=
  match _validate_new_event payload key sv with
  | Err e => (es, Err e)
  | Ok _ =>
      match key ≫= (fun k => find_event k es) with
      | Some e => (es, Ok e)
      | None => match c with
                | Refused x => (es, Err x)
                | Committed now => let e := new_event (next_id es) ty now sv key payload in (es ++ [e], Ok e)
                end
      end
  end.

Lemma find_event_Some k es e : find_event k es = Some e -> e ∈ es /\ key_of e = Some k.
Proof. intros [H1 H2%bool_decide_eq_true]%List.find_some. split; [by apply list_elem_of_In|done]. Qed.

Lemma find_event_None k es : find_event k es = None <-> forall e, e ∈ es -> key_of e <> Some k.
Proof.
  split.
  - intros H e He Hk.
    pose proof (List.find_none _ _ H e ltac:(by apply list_elem_of_In)) as Hn. by apply bool_decide_eq_false in Hn.
  - intros H. destruct (find_event k es) eqn:E; [|done]. apply find_event_Some in E as [? ?]. by destruct (H e).
Qed.

(** ** The interface *)

(** The outcome of an append as its callers see it. *)
Inductive appended (es : list Event) (ty : EventType) (payload : list (string * json)) (key : option string)
    : list Event -> result Event -> Prop :=
  | apd_old k e : key = Some k -> find_event k es = Some e -> appended es ty payload key es (Ok e)
  | apd_new e : (forall k, key = Some k -> find_event k es = None) -> ev_type e = ty ->
      ev_payload e = JObj payload -> key_of e = key -> ev_id e = next_id es ->
      appended es ty payload key (es ++ [e]) (Ok e)
  | apd_err x : x ∈ [MalformedEventError; OSError; StructError] -> appended es ty payload key es (Err x).

Class EventLog (L : Type) := {
  log_events : L -> list Event;
  (** [store.replay()] *)
  log_replay : L -> result (list Event);
  (** [store.append(ty, payload, idempotency_key=key)] *)
  log_append : EventType -> list (string * json) -> option string -> M L Event;
  (** [store.get_by_idempotency_key(k)] *)
  log_find : string -> L -> option Event;
  log_ok : L -> Prop;
  log_replay_events l : log_ok l -> log_replay l = Ok (log_events l);
  log_monotone l : log_ok l -> monotone None (log_events l);
  log_find_event k l : log_ok l -> log_find k l = find_event k (log_events l);
  log_append_ok ty payload key l : log_ok l -> json_wf (JObj payload) = true ->
    log_ok (log_append ty payload key l).1;
  log_append_spec ty payload key l : log_ok l ->
    appended (log_events l) ty payload key (log_events (log_append ty payload key l).1)
      (log_append ty payload key l).2
}.

(** The same, for use as a case analysis on a call. *)
Lemma log_append_cases `{EventLog L} ty payload key l l' r : log_ok l ->
  log_append ty payload key l = (l', r) -> appended (log_events l) ty payload key (log_events l') r.
Proof. intros Hl E. pose proof (log_append_spec ty payload key l Hl) as Hs. by rewrite E in Hs. Qed.

(** ** The store implements it *)

(** A store with the answers the system will give to its appends. *)
Record StoreLog := { sl_store : EventStore; sl_envs : list append_env }.

Definition store_log_append ty payload key : M StoreLog Event := fun l =>
  let '(env, envs) := match sl_envs l with env :: envs => (env, envs) | [] => (env_fine, []) end in
  let '(s, r) := append env ty payload key 1 (sl_store l) in
  ({| sl_store := s; sl_envs := envs |}, r).

Lemma find_event_store k s : store_ok s -> get_by_idempotency_key k s = find_event k (es_events s).
Proof.
  intros Hs. destruct (find_event k (es_events s)) as [e|] eqn:E.
  - apply find_some; [done|]. by apply find_event_Some.
  - destruct (get_by_idempotency_key k s) as [e|] eqn:E'; [|done].
    apply find_some in E' as [He Hk]; [|done]. by destruct (proj1 (find_event_None k _) E e He).
Qed.

Lemma filter_from_1 s : store_ok s -> Forall (fun e => 1 <= ev_id e) (es_events s) ->
  replay 1 s = Ok (es_events s).
Proof.
  intros Hs Hf. unfold replay. rewrite (so_open s Hs). f_equal.
  induction Hf as [|e es He Hes IH]; [done|]. simpl. rewrite (proj2 (Z.leb_le _ _) He). by f_equal.
Qed.

(** Ids start at 1. *)
Definition store_log_ok (l : StoreLog) : Prop :=
  store_ok (sl_store l) /\ Forall (fun e => 1 <= ev_id e) (es_events (sl_store l)).

Lemma next_id_pos es : Forall (fun e => 1 <= ev_id e) es -> 1 <= next_id es.
Proof.
  intros H. unfold next_id. destruct (last es) as [e|] eqn:E; [|done].
  apply last_Some_elem_of in E. rewrite Forall_forall in H. specialize (H e E). lia.
Qed.

Lemma key_of_new id ty now sv key payload : key_of (new_event id ty now sv key payload) = key.
Proof. by destruct key. Qed.

(** C21: refinement. Every [append] of the file-based store, whatever the
    operating system answers, is a step of the specification: the same events
    and the same result as appending to a plain list where the system either
    commits the event or refuses it with [OSError]/[struct.error]; and the
    store stays well-formed. *)
Theorem append_refines env ty payload key sv s : json_wf (JObj payload) = true -> store_ok s ->
  exists c, (c = Committed (env_now env) \/ c = Refused OSError \/ c = Refused StructError) /\
    store_ok (append env ty payload key sv s).1 /\
    mem_append c ty payload key sv (es_events s)
    = (es_events (append env ty payload key sv s).1, (append env ty payload key sv s).2).
Proof.
  intros Hp Hs. pose proof (append_store_ok env ty payload key sv s Hp Hs) as Hok.
  pose proof (append_spec env ty payload key sv s Hs) as Ha.
  destruct (append env ty payload key sv s) as [s' r]. cbn [fst snd] in *.
  assert (Hnone : (forall k, key = Some k -> get_by_idempotency_key k s = None) ->
                  key ≫= (fun k => find_event k (es_events s)) = None).
  { intros H. destruct key as [k|]; [|done]. cbn. rewrite -find_event_store //. by apply H. }
  unfold mem_append.
  destruct Ha as [Hv|k e Hv -> Hf|Hv Hf Hr|f rec Hv Hf Hr Hw|rec Hv Hf e Hr Hw]; rewrite Hv.
  - exists (Committed (env_now env)). naive_solver.
  - exists (Committed (env_now env)). cbn. rewrite -find_event_store // Hf. naive_solver.
  - exists (Refused StructError). rewrite Hnone //. naive_solver.
  - exists (Refused OSError). rewrite Hnone //. naive_solver.
  - exists (Committed (env_now env)). rewrite Hnone // -(so_next s Hs). naive_solver.
Qed.

Lemma append_refines_witness :
  exists c, (c = Committed (env_now env_full) \/ c = Refused OSError \/ c = Refused StructError) /\
    store_ok (append env_full EventType.HEALTH_ALERT sample_payload (Some "k9") 1 sample_store).1 /\
    mem_append c EventType.HEALTH_ALERT sample_payload (Some "k9") 1 (es_events sample_store)
    = (es_events (append env_full EventType.HEALTH_ALERT sample_payload (Some "k9") 1 sample_store).1,
       (append env_full EventType.HEALTH_ALERT sample_payload (Some "k9") 1 sample_store).2).
Proof.
  exact (append_refines env_full EventType.HEALTH_ALERT sample_payload (Some "k9") 1 sample_store
           sample_payload_wf (sy_ok _ sample_synced)).
Defined.

Lemma store_log_append_spec ty payload key l : store_log_ok l ->
  appended (es_events (sl_store l)) ty payload key (es_events (sl_store (store_log_append ty payload key l).1))
    (store_log_append ty payload key l).2.
Proof.
  intros [Hs _]. unfold store_log_append.
  destruct (match sl_envs l with env :: envs => (env, envs) | [] => (env_fine, []) end) as [env envs].
  pose proof (append_spec env ty payload key 1 (sl_store l) Hs) as Ha.
  destruct (append env ty payload key 1 (sl_store l)) as [s' r]. cbn [fst snd sl_store] in *.
  destruct Ha as [Hv|k e Hv -> Hf|Hv Hf Hr|f rec Hv Hf Hr Hw|rec Hv Hf e Hr Hw].
  - apply apd_err. set_solver.
  - apply (apd_old _ _ _ _ k); [done|]. by rewrite -find_event_store.
  - apply apd_err. set_solver.
  - apply apd_err. set_solver.
  - apply apd_new; try done.
    + intros k Hk. rewrite -find_event_store //. by apply Hf.
    + apply key_of_new.
    + apply (so_next _ Hs).
Qed.

Lemma store_log_append_ok ty payload key l : store_log_ok l -> json_wf (JObj payload) = true ->
  store_log_ok (store_log_append ty payload key l).1.
Proof.
  intros Hl Hp. pose proof (store_log_append_spec ty payload key l Hl) as Ha. destruct Hl as [Hs Hid].
  split.
  - unfold store_log_append. destruct (match sl_envs l with env :: envs => _ | [] => _ end) as [env envs].
    pose proof (append_store_ok env ty payload key 1 (sl_store l) Hp Hs) as Hok.
    by destruct (append env ty payload key 1 (sl_store l)).
  - destruct (store_log_append ty payload key l) as [l' r]. cbn [fst snd] in *.
    revert Ha. generalize (es_events (sl_store l')). intros es' Ha.
    destruct Ha as [|e ? ? ? ? Hi|]; try done. apply Forall_app. split; [done|].
    apply Forall_singleton. rewrite Hi. by apply next_id_pos.
Qed.

#[global] Program Instance store_event_log : EventLog StoreLog := {
  log_events l := es_events (sl_store l);
  log_replay l := replay 1 (sl_store l);
  log_append := store_log_append;
  log_find k l := get_by_idempotency_key k (sl_store l);
  log_ok := store_log_ok
}.
Next Obligation. intros l [Hs Hid]. by apply filter_from_1. Qed.
Next Obligation. intros l [Hs Hid]. apply (so_mono _ Hs). Qed.
Next Obligation. intros k l [Hs _]. by apply find_event_store. Qed.
Next Obligation. intros. by apply store_log_append_ok. Qed.
Next Obligation. intros. by apply store_log_append_spec. Qed.

(** ** The specification as an implementation *)

(** A list of events and the outcomes of the next appends (past the end of the
    list, appends are committed). *)
Record MemLog := { ml_events : list Event; ml_outcomes : list commit }.

Definition refused_ok (c : commit) : Prop :=
  match c with Refused x => x = OSError \/ x = StructError | Committed _ => True end.

Definition mem_log_append ty payload key : M MemLog Event := fun l =>
  let '(c, cs) := match ml_outcomes l with c :: cs => (c, cs) | [] => (Committed "", []) end in
  let '(es, r) := mem_append c ty payload key 1 (ml_events l) in
  ({| ml_events := es; ml_outcomes := cs |}, r).

#[global] Program Instance mem_event_log : EventLog MemLog := {
  log_events := ml_events;
  log_replay l := Ok (ml_events l);
  log_append := mem_log_append;
  log_find k l := find_event k (ml_events l);
  log_ok l := Forall refused_ok (ml_outcomes l) /\ monotone None (ml_events l)
}.
Next Obligation. done. Qed.
Next Obligation. by intros l [_ ?]. Qed.
Next Obligation. done. Qed.
Next Obligation.
  intros ty payload key l [Hl Hm] _. cbn beta in *. unfold mem_log_append.
  assert (Hap : forall c, monotone None (mem_append c ty payload key 1 (ml_events l)).1).
  { intros c. unfold mem_append. destruct (_validate_new_event _ _ _); [|done]. destruct (key ≫= _); [done|].
    destruct c; [|done]. apply monotone_snoc; [done| |done].
    intros x Hx. apply (next_id_fresh None); [done|]. by apply last_Some_elem_of. }
  destruct (ml_outcomes l) as [|c cs].
  - specialize (Hap (Committed "")). by destruct (mem_append _ _ _ _ _ _).
  - apply Forall_cons in Hl as [_ Hl]. specialize (Hap c). by destruct (mem_append _ _ _ _ _ _).
Qed.
Next Obligation.
  intros ty payload key l [Hl _]. cbn beta in *. unfold mem_log_append.
  assert (Hc : exists c cs, match ml_outcomes l with c :: cs => (c, cs) | [] => (Committed "", []) end = (c, cs)
                            /\ refused_ok c).
  { destruct (ml_outcomes l) as [|c cs]; [by exists (Committed ""), []|].
    apply Forall_cons in Hl as [? _]. by exists c, cs. }
  destruct Hc as (c & cs & -> & Hc). unfold mem_append.
  destruct (_validate_new_event payload key 1) as [[]|x] eqn:Hv.
  2:{ apply validate_err in Hv as ->. apply apd_err. set_solver. }
  destruct (key ≫= _) as [e|] eqn:Hk.
  - destruct key as [k|]; [|done]. by apply (apd_old _ _ _ _ k).
  - destruct c as [now|x]; cbn.
    + apply apd_new; try done; [|apply key_of_new]. intros k ->. exact Hk.
    + apply apd_err. destruct Hc as [->| ->]; set_solver.
Qed.

(** An empty log whose appends all succeed. *)
Definition mem_empty : MemLog := {| ml_events := []; ml_outcomes := [] |}.
Lemma mem_empty_ok : log_ok mem_empty.
Proof. split; [constructor|done]. Qed.
