(* ===== verification/ExecStateMachine.v ===== *)
(** * The execution state machine (src/execution_state_machine/)

    States and triggers (states.py), the transition table (transitions.py), and
    the machine that records every transition in the event log and rebuilds its
    state from it (machine.py). The store is any [EventLog]. *)

From Stdlib Require Import ssreflect ZArith Lia Ascii String.
From stdpp Require Import base strings numbers gmap sets list.
From S2P Require Import Prelude PyText PyDict PyJson PyJsonFacts EventStore EventStoreFacts EventLog.
#[local] Open Scope Z_scope.

(** ** states.py *)

Module State.
Inductive State :=
  | INITIALIZING | RECONCILING | READY | SIGNAL_PENDING | ORDER_PENDING | PARTIALLY_FILLED
  | POSITION_OPEN | POSITION_CLOSING | FLAT | SOFT_KILL | HARD_KILL | EMERGENCY_KILL | STOPPED.
#[global] Instance State_eq_dec : EqDecision State.
Proof. solve_decision. Defined.

Definition value (s : State) : string :=
  match s with
  | INITIALIZING => "INITIALIZING" | RECONCILING => "RECONCILING" | READY => "READY"
  | SIGNAL_PENDING => "SIGNAL_PENDING" | ORDER_PENDING => "ORDER_PENDING"
  | PARTIALLY_FILLED => "PARTIALLY_FILLED" | POSITION_OPEN => "POSITION_OPEN"
  | POSITION_CLOSING => "POSITION_CLOSING" | FLAT => "FLAT" | SOFT_KILL => "SOFT_KILL"
  | HARD_KILL => "HARD_KILL" | EMERGENCY_KILL => "EMERGENCY_KILL" | STOPPED => "STOPPED"
  end.

#[global] Program Instance State_enum : PyEnum State := {
  enum_all := [INITIALIZING; RECONCILING; READY; SIGNAL_PENDING; ORDER_PENDING; PARTIALLY_FILLED;
               POSITION_OPEN; POSITION_CLOSING; FLAT; SOFT_KILL; HARD_KILL; EMERGENCY_KILL; STOPPED];
  enum_value := value
}.
Solve Obligations with solve_enum.
End State.
Notation State := State.State.

Module Trigger.
Inductive Trigger :=
  | STARTED | RECONCILED | RECONCILIATION_FAILED | SIGNAL_RECEIVED | SIGNAL_REJECTED
  | ORDER_PLACED | ORDER_REJECTED | ORDER_CANCELLED | PARTIAL_FILL_RECEIVED | FULLY_FILLED
  | REMAINDER_FILLED | STOP_ADJUSTED | PARTIAL_TAKE_PROFIT_FILLED | CLOSE_INITIATED
  | PARTIAL_CLOSE_FILLED | CLOSE_COMPLETED | READY_FOR_NEXT | SOFT_KILL_TRIGGERED
  | HARD_KILL_TRIGGERED | EMERGENCY_KILL_TRIGGERED | FLATTEN_FILL_RECEIVED | RESUME | SHUTDOWN.
#[global] Instance Trigger_eq_dec : EqDecision Trigger.
Proof. solve_decision. Defined.

Definition value (t : Trigger) : string :=
  match t with
  | STARTED => "STARTED" | RECONCILED => "RECONCILED" | RECONCILIATION_FAILED => "RECONCILIATION_FAILED"
  | SIGNAL_RECEIVED => "SIGNAL_RECEIVED" | SIGNAL_REJECTED => "SIGNAL_REJECTED"
  | ORDER_PLACED => "ORDER_PLACED" | ORDER_REJECTED => "ORDER_REJECTED"
  | ORDER_CANCELLED => "ORDER_CANCELLED" | PARTIAL_FILL_RECEIVED => "PARTIAL_FILL_RECEIVED"
  | FULLY_FILLED => "FULLY_FILLED" | REMAINDER_FILLED => "REMAINDER_FILLED"
  | STOP_ADJUSTED => "STOP_ADJUSTED" | PARTIAL_TAKE_PROFIT_FILLED => "PARTIAL_TAKE_PROFIT_FILLED"
  | CLOSE_INITIATED => "CLOSE_INITIATED" | PARTIAL_CLOSE_FILLED => "PARTIAL_CLOSE_FILLED"
  | CLOSE_COMPLETED => "CLOSE_COMPLETED" | READY_FOR_NEXT => "READY_FOR_NEXT"
  | SOFT_KILL_TRIGGERED => "SOFT_KILL_TRIGGERED" | HARD_KILL_TRIGGERED => "HARD_KILL_TRIGGERED"
  | EMERGENCY_KILL_TRIGGERED => "EMERGENCY_KILL_TRIGGERED"
  | FLATTEN_FILL_RECEIVED => "FLATTEN_FILL_RECEIVED" | RESUME => "RESUME" | SHUTDOWN => "SHUTDOWN"
  end.

#[global] Program Instance Trigger_enum : PyEnum Trigger := {
  enum_all := [STARTED; RECONCILED; RECONCILIATION_FAILED; SIGNAL_RECEIVED; SIGNAL_REJECTED;
               ORDER_PLACED; ORDER_REJECTED; ORDER_CANCELLED; PARTIAL_FILL_RECEIVED; FULLY_FILLED;
               REMAINDER_FILLED; STOP_ADJUSTED; PARTIAL_TAKE_PROFIT_FILLED; CLOSE_INITIATED;
               PARTIAL_CLOSE_FILLED; CLOSE_COMPLETED; READY_FOR_NEXT; SOFT_KILL_TRIGGERED;
               HARD_KILL_TRIGGERED; EMERGENCY_KILL_TRIGGERED; FLATTEN_FILL_RECEIVED; RESUME; SHUTDOWN];
  enum_value := value
}.
Solve Obligations with solve_enum.
End Trigger.
Notation Trigger := Trigger.Trigger.

Record TransitionResult := {
  tr_event_id : Z;
  tr_trigger : Trigger;
  tr_from_state : State;
  tr_to_state : State;
  tr_timestamp_utc : json;
  tr_request_id : string;
  tr_context : json;
  tr_replayed : bool
}.

(** ** transitions.py *)

Section table.
Import State Trigger.

Definition _EDGES : list (State * Trigger * State) := [
    (INITIALIZING, STARTED, RECONCILING);
    (INITIALIZING, EMERGENCY_KILL_TRIGGERED, EMERGENCY_KILL);
    (INITIALIZING, SHUTDOWN, STOPPED);

    (RECONCILING, RECONCILED, READY);
    (RECONCILING, RECONCILIATION_FAILED, SOFT_KILL);
    (RECONCILING, SOFT_KILL_TRIGGERED, SOFT_KILL);
    (RECONCILING, HARD_KILL_TRIGGERED, HARD_KILL);
    (RECONCILING, EMERGENCY_KILL_TRIGGERED, EMERGENCY_KILL);
    (RECONCILING, SHUTDOWN, STOPPED);

    (READY, SIGNAL_RECEIVED, SIGNAL_PENDING);
    (READY, SOFT_KILL_TRIGGERED, SOFT_KILL);
    (READY, HARD_KILL_TRIGGERED, HARD_KILL);
    (READY, EMERGENCY_KILL_TRIGGERED, EMERGENCY_KILL);
    (READY, SHUTDOWN, STOPPED);

    (SIGNAL_PENDING, ORDER_PLACED, ORDER_PENDING);
    (SIGNAL_PENDING, SIGNAL_REJECTED, READY);
    (SIGNAL_PENDING, SOFT_KILL_TRIGGERED, SOFT_KILL);
    (SIGNAL_PENDING, HARD_KILL_TRIGGERED, HARD_KILL);
    (SIGNAL_PENDING, EMERGENCY_KILL_TRIGGERED, EMERGENCY_KILL);

    (ORDER_PENDING, PARTIAL_FILL_RECEIVED, PARTIALLY_FILLED);
    (ORDER_PENDING, FULLY_FILLED, POSITION_OPEN);
    (ORDER_PENDING, ORDER_REJECTED, READY);
    (ORDER_PENDING, ORDER_CANCELLED, READY);
    (ORDER_PENDING, SOFT_KILL_TRIGGERED, SOFT_KILL);
    (ORDER_PENDING, HARD_KILL_TRIGGERED, HARD_KILL);
    (ORDER_PENDING, EMERGENCY_KILL_TRIGGERED, EMERGENCY_KILL);

    (PARTIALLY_FILLED, PARTIAL_FILL_RECEIVED, PARTIALLY_FILLED);
    (PARTIALLY_FILLED, REMAINDER_FILLED, POSITION_OPEN);
    (PARTIALLY_FILLED, SOFT_KILL_TRIGGERED, SOFT_KILL);
    (PARTIALLY_FILLED, HARD_KILL_TRIGGERED, HARD_KILL);
    (PARTIALLY_FILLED, EMERGENCY_KILL_TRIGGERED, EMERGENCY_KILL);

    (POSITION_OPEN, STOP_ADJUSTED, POSITION_OPEN);
    (POSITION_OPEN, PARTIAL_TAKE_PROFIT_FILLED, POSITION_OPEN);
    (POSITION_OPEN, CLOSE_INITIATED, POSITION_CLOSING);
    (POSITION_OPEN, SOFT_KILL_TRIGGERED, SOFT_KILL);
    (POSITION_OPEN, HARD_KILL_TRIGGERED, HARD_KILL);
    (POSITION_OPEN, EMERGENCY_KILL_TRIGGERED, EMERGENCY_KILL);

    (POSITION_CLOSING, PARTIAL_CLOSE_FILLED, POSITION_CLOSING);
    (POSITION_CLOSING, CLOSE_COMPLETED, FLAT);
    (POSITION_CLOSING, SOFT_KILL_TRIGGERED, SOFT_KILL);
    (POSITION_CLOSING, HARD_KILL_TRIGGERED, HARD_KILL);
    (POSITION_CLOSING, EMERGENCY_KILL_TRIGGERED, EMERGENCY_KILL);

    (FLAT, READY_FOR_NEXT, READY);
    (FLAT, SOFT_KILL_TRIGGERED, SOFT_KILL);
    (FLAT, HARD_KILL_TRIGGERED, HARD_KILL);
    (FLAT, EMERGENCY_KILL_TRIGGERED, EMERGENCY_KILL);
    (FLAT, SHUTDOWN, STOPPED);

    (SOFT_KILL, RESUME, RECONCILING);
    (SOFT_KILL, HARD_KILL_TRIGGERED, HARD_KILL);
    (SOFT_KILL, EMERGENCY_KILL_TRIGGERED, EMERGENCY_KILL);
    (SOFT_KILL, SHUTDOWN, STOPPED);

    (HARD_KILL, FLATTEN_FILL_RECEIVED, HARD_KILL);
    (HARD_KILL, RESUME, RECONCILING);
    (HARD_KILL, EMERGENCY_KILL_TRIGGERED, EMERGENCY_KILL);
    (HARD_KILL, SHUTDOWN, STOPPED);

    (EMERGENCY_KILL, SHUTDOWN, STOPPED) ].

(** [TRANSITION_TABLE.get((from_state, trigger))]: the last edge listed wins,
    as in the dict comprehension. *)
Definition TRANSITION_TABLE (from_state : State) (trigger : Trigger) : option State :=
  foldl (fun acc e => if bool_decide (e.1 = (from_state, trigger)) then Some e.2 else acc) None _EDGES.

Definition LEGAL_TRIGGERS_BY_STATE (s : State) : list Trigger :=
  List.filter (fun t => existsb (fun e => bool_decide (e.1 = (s, t))) _EDGES) enum_all.

Definition is_legal (from_state : State) (trigger : Trigger) : bool :=
  match TRANSITION_TABLE from_state trigger with Some _ => true | None => false end.

Definition next_state (from_state : State) (trigger : Trigger) : result State :=
  of_option KeyError (TRANSITION_TABLE from_state trigger).

Definition TRIGGER_EVENT_TYPE (t : Trigger) : EventType :=
  match t with
  | STARTED => EventType.SYSTEM_STARTED
  | RECONCILED => EventType.POSITION_UPDATED
  | RECONCILIATION_FAILED => EventType.HEALTH_ALERT
  | SIGNAL_RECEIVED => EventType.ORDER_SUBMITTED
  | SIGNAL_REJECTED => EventType.ORDER_CANCELLED
  | ORDER_PLACED => EventType.ORDER_SUBMITTED
  | ORDER_REJECTED => EventType.ORDER_CANCELLED
  | ORDER_CANCELLED => EventType.ORDER_CANCELLED
  | PARTIAL_FILL_RECEIVED => EventType.ORDER_FILLED
  | FULLY_FILLED => EventType.POSITION_OPENED
  | REMAINDER_FILLED => EventType.POSITION_OPENED
  | STOP_ADJUSTED => EventType.STOP_UPDATED
  | PARTIAL_TAKE_PROFIT_FILLED => EventType.TAKE_PROFIT_UPDATED
  | CLOSE_INITIATED => EventType.POSITION_UPDATED
  | PARTIAL_CLOSE_FILLED => EventType.ORDER_FILLED
  | CLOSE_COMPLETED => EventType.POSITION_CLOSED
  | READY_FOR_NEXT => EventType.POSITION_UPDATED
  | SOFT_KILL_TRIGGERED => EventType.KILL_SWITCH_TRIGGERED
  | HARD_KILL_TRIGGERED => EventType.KILL_SWITCH_TRIGGERED
  | EMERGENCY_KILL_TRIGGERED => EventType.KILL_SWITCH_TRIGGERED
  | FLATTEN_FILL_RECEIVED => EventType.ORDER_FILLED
  | RESUME => EventType.POSITION_UPDATED
  | SHUTDOWN => EventType.SYSTEM_STOPPED
  end.
End table.

(** ** machine.py *)

Definition _EVENT_SOURCE_TAG : string := "execution_state_machine".
Definition _MAX_MACHINE_ID_LENGTH : Z := 60.
Definition _MAX_REQUEST_ID_LENGTH : Z := 60.

Definition _namespaced_key (machine_id request_id : string) : string :=
  _EVENT_SOURCE_TAG +:+ ":" +:+ int_str (slen machine_id) +:+ ":" +:+ machine_id +:+ ":"
    +:+ int_str (slen request_id) +:+ ":" +:+ request_id.

Definition _is_own_event (event : Event) (machine_id : string) : bool :=
  bool_decide (jstr "source" (ev_payload event) = Some _EVENT_SOURCE_TAG)
  && bool_decide (jstr "machine_id" (ev_payload event) = Some machine_id).

Definition _parse_state (raw : option json) : result State :=
  of_option ReplayIntegrityError (jenum raw).
Definition _parse_trigger (raw : option json) : result Trigger :=
  of_option ReplayIntegrityError (jenum raw).

Record ExecutionStateMachine := { esm_machine_id : string; esm_current_state : State }.

(** One step of the constructor's loop. *)
Definition replay_event (machine_id : string) (current : State) (event : Event) : result State :=
  if negb (_is_own_event event machine_id) then Ok current else
  trigger ← _parse_trigger (jget "trigger" (ev_payload event));
  from_state ← _parse_state (jget "from_state" (ev_payload event));
  to_state ← _parse_state (jget "to_state" (ev_payload event));
  if negb (bool_decide (from_state = current)) then Err ReplayIntegrityError else
  if negb (is_legal from_state trigger) || negb (bool_decide (next_state from_state trigger = Ok to_state))
  then Err ReplayIntegrityError else Ok to_state.

(** [ExecutionStateMachine(store, machine_id)] *)
Definition esm_init `{EventLog L} (store : L) (machine_id : string) : result ExecutionStateMachine :=
  if blank machine_id then Err ValueError else
  if _MAX_MACHINE_ID_LENGTH <? slen machine_id then Err ValueError else
  events ← log_replay store;
  current ← fold_result (replay_event machine_id) State.INITIALIZING events;
  Ok {| esm_machine_id := machine_id; esm_current_state := current |}.

Definition legal_triggers (self : ExecutionStateMachine) : list Trigger :=
  LEGAL_TRIGGERS_BY_STATE (esm_current_state self).

Definition _result_from_event (event : Event) (request_id : string) (replayed : bool) : result TransitionResult :=
  trigger ← _parse_trigger (jget "trigger" (ev_payload event));
  from_state ← _parse_state (jget "from_state" (ev_payload event));
  to_state ← _parse_state (jget "to_state" (ev_payload event));
  Ok {| tr_event_id := ev_id event; tr_trigger := trigger; tr_from_state := from_state;
        tr_to_state := to_state; tr_timestamp_utc := ev_timestamp_utc event; tr_request_id := request_id;
        tr_context := default (JObj []) (jget "context" (ev_payload event)); tr_replayed := replayed |}.

Definition transition_payload (machine_id : string) (trigger : Trigger) (from_state to_state : State)
    (context : list (string * json)) : list (string * json) :=
  [("source", JStr _EVENT_SOURCE_TAG); ("machine_id", JStr machine_id);
   ("trigger", JStr (enum_value trigger)); ("from_state", JStr (enum_value from_state));
   ("to_state", JStr (enum_value to_state)); ("context", JObj context)].

(** The machine and the store it holds; [context or {}] is [context] with
    [None] read as the empty dict. *)
Definition transition `{EventLog L} (trigger : Trigger) (request_id : string) (context : list (string * json))
    : M (L * ExecutionStateMachine) TransitionResult := fun '(store, self) =>
  if blank request_id then ((store, self), Err ValueError) else
  if _MAX_REQUEST_ID_LENGTH <? slen request_id then ((store, self), Err ValueError) else
  let namespaced_key := _namespaced_key (esm_machine_id self) request_id in
  match log_find namespaced_key store with
  | Some existing =>
      if negb (_is_own_event existing (esm_machine_id self)) then ((store, self), Err ValueError)
      else ((store, self), _result_from_event existing request_id true)
  | None =>
      let from_state := esm_current_state self in
      if negb (is_legal from_state trigger) then ((store, self), Err IllegalTransitionError) else
      match next_state from_state trigger with
      | Err e => ((store, self), Err e)
      | Ok to_state =>
          let payload := transition_payload (esm_machine_id self) trigger from_state to_state context in
          match log_append (TRIGGER_EVENT_TYPE trigger) payload (Some namespaced_key) store with
          | (store, Err e) => ((store, self), Err e)
          | (store, Ok event) =>
              let self := {| esm_machine_id := esm_machine_id self; esm_current_state := to_state |} in
              ((store, self), _result_from_event event request_id false)
          end
      end
  end.
