(* ===== verification/ExecStateMachineFacts.v ===== *)
(** * The execution state machine: table safety, replay, idempotency *)

From Stdlib Require Import ssreflect ZArith Lia Ascii String.
From stdpp Require Import base strings numbers gmap sets list.
From S2P Require Import Prelude PyText PyDict PyJson PyJsonFacts EventStore EventStoreFacts EventLog ExecStateMachine.
#[local] Open Scope Z_scope.

(** ** The idempotency keys *)

Lemma slen_inj_app a b c d : slen a = slen c -> a +:+ b = c +:+ d -> a = c /\ b = d.
Proof. unfold slen. intros H. apply app_inj_length. lia. Qed.

Lemma digits_len n : 0 <= n < 100 -> slen (int_str n) <= 2.
Proof.
  intros H. unfold int_str. rewrite (proj2 (Z.ltb_ge n 0)); [lia|].
  destruct (decide (n = 0)) as [->|]; [done|].
  pose proof (nat_str_bounds n ltac:(lia)) as [Hlo _]. destruct (Z.le_gt_cases (slen (nat_str n)) 2); [done|].
  assert (10 ^ 2 <= 10 ^ (slen (nat_str n) - 1)) by (apply Z.pow_le_mono_r; lia). lia.
Qed.

(** ** Reading a recorded transition *)

Definition own_event (machine_id : string) (t : Trigger) (a b : State) (ctx : list (string * json)) (e : Event) : Prop :=
  ev_payload e = JObj (transition_payload machine_id t a b ctx).

Lemma own_event_own mid t a b ctx e : own_event mid t a b ctx e -> _is_own_event e mid = true.
Proof. intros He. unfold _is_own_event. rewrite He /=. by rewrite !bool_decide_eq_true_2. Qed.

Lemma own_event_result mid t a b ctx e rid rep : own_event mid t a b ctx e ->
  _result_from_event e rid rep = Ok {| tr_event_id := ev_id e; tr_trigger := t; tr_from_state := a;
    tr_to_state := b; tr_timestamp_utc := ev_timestamp_utc e; tr_request_id := rid;
    tr_context := JObj ctx; tr_replayed := rep |}.
Proof.
  intros He. unfold _result_from_event, _parse_trigger, _parse_state. rewrite He. cbn -[enum_value enum_of_value].
  by rewrite !enum_of_value_value.
Qed.

Lemma replay_own mid t a b ctx e : own_event mid t a b ctx e -> TRANSITION_TABLE a t = Some b ->
  replay_event mid a e = Ok b.
Proof.
  intros He Ht. unfold replay_event. rewrite (own_event_own mid t a b ctx) //. cbn [negb].
  unfold _parse_trigger, _parse_state. rewrite He. cbn -[enum_value enum_of_value].
  rewrite !enum_of_value_value. cbn -[is_legal next_state].
  rewrite bool_decide_eq_true_2 //. cbn -[is_legal next_state]. unfold is_legal, next_state. rewrite Ht.
  cbn. by rewrite bool_decide_eq_true_2.
Qed.

Lemma is_legal_table a t : is_legal a t = true <-> exists b, TRANSITION_TABLE a t = Some b.
Proof.
  unfold is_legal. destruct (TRANSITION_TABLE a t) as [b|]; split; [by exists b|done|done|by intros [? ?]].
Qed.

(** ** The machine and its log *)

Section machine.
Context `{EventLog L}.
Implicit Types (w : L * ExecutionStateMachine).

(** The machine's state is what replaying the log gives. *)
Definition esm_ok w : Prop :=
  log_ok w.1 /\
  fold_result (replay_event (esm_machine_id w.2)) State.INITIALIZING (log_events w.1) = Ok (esm_current_state w.2).

(** The outcomes of [transition], by the first that applies. *)
Inductive transition_result t rid ctx w : L * ExecutionStateMachine -> result TransitionResult -> Prop :=
  | tt_bad_request : blank rid = true \/ _MAX_REQUEST_ID_LENGTH < slen rid ->
      transition_result t rid ctx w w (Err ValueError)
  | tt_replayed e : blank rid = false -> slen rid <= _MAX_REQUEST_ID_LENGTH ->
      find_event (_namespaced_key (esm_machine_id w.2) rid) (log_events w.1) = Some e ->
      transition_result t rid ctx w w
        (if _is_own_event e (esm_machine_id w.2) then _result_from_event e rid true else Err ValueError)
  | tt_illegal : blank rid = false -> slen rid <= _MAX_REQUEST_ID_LENGTH ->
      find_event (_namespaced_key (esm_machine_id w.2) rid) (log_events w.1) = None ->
      TRANSITION_TABLE (esm_current_state w.2) t = None ->
      transition_result t rid ctx w w (Err IllegalTransitionError)
  | tt_refused b store x : blank rid = false -> slen rid <= _MAX_REQUEST_ID_LENGTH ->
      find_event (_namespaced_key (esm_machine_id w.2) rid) (log_events w.1) = None ->
      TRANSITION_TABLE (esm_current_state w.2) t = Some b ->
      log_events store = log_events w.1 -> x ∈ [MalformedEventError; OSError; StructError] ->
      transition_result t rid ctx w (store, w.2) (Err x)
  | tt_done b store e : blank rid = false -> slen rid <= _MAX_REQUEST_ID_LENGTH ->
      find_event (_namespaced_key (esm_machine_id w.2) rid) (log_events w.1) = None ->
      TRANSITION_TABLE (esm_current_state w.2) t = Some b ->
      own_event (esm_machine_id w.2) t (esm_current_state w.2) b ctx e ->
      key_of e = Some (_namespaced_key (esm_machine_id w.2) rid) ->
      log_events store = log_events w.1 ++ [e] ->
      transition_result t rid ctx w
        (store, {| esm_machine_id := esm_machine_id w.2; esm_current_state := b |})
        (_result_from_event e rid false).

Lemma transition_spec t rid ctx w : log_ok w.1 ->
  transition_result t rid ctx w (transition t rid ctx w).1 (transition t rid ctx w).2.
Proof.
  destruct w as [store self]. cbn [fst snd]. intros Hl. unfold transition.
  destruct (blank rid) eqn:Hb; [apply tt_bad_request; by left|].
  destruct (Z.ltb_spec _MAX_REQUEST_ID_LENGTH (slen rid)) as [|Hlen]; [apply tt_bad_request; by right|].
  rewrite log_find_event //. set (key := _namespaced_key _ _).
  destruct (find_event key (log_events store)) as [e|] eqn:Hf.
  - pose proof (tt_replayed t rid ctx (store, self) e Hb Hlen Hf) as Hr. cbn [snd] in Hr.
    by destruct (_is_own_event e (esm_machine_id self)).
  - unfold is_legal, next_state. destruct (TRANSITION_TABLE (esm_current_state self) t) as [b|] eqn:Ht;
      [|by apply tt_illegal]. cbn [negb of_option].
    destruct (log_append _ _ _ store) as [store' r] eqn:Ea. apply log_append_cases in Ea as Hap; [|done].
    remember (log_events store') as es' eqn:Hes. symmetry in Hes.
    destruct Hap as [k e' Hk Hf'|e' Hnone Hty Hpay Hkey _|x Hx].
    + injection Hk as <-. congruence.
    + by apply (tt_done t rid ctx (store, self) b store' e').
    + by apply (tt_refused t rid ctx (store, self) b store' x).
Qed.

Lemma transition_log_ok t rid ctx w : json_wf (JObj ctx) = true -> log_ok w.1 -> log_ok (transition t rid ctx w).1.1.
Proof.
  destruct w as [store self]. cbn [fst]. intros Hc Hl. unfold transition.
  repeat (case_match; try done). 
  all: match goal with H : log_append ?ty ?p ?k ?s = _ |- _ =>
    pose proof (log_append_ok ty p k s Hl) as Hok; rewrite H in Hok; apply Hok end.
  all: rewrite json_wf_obj; split; [apply (bool_decide_eq_true_1 _); vm_compute; reflexivity|].
  all: repeat (apply Forall_cons; split; [done|]); by apply Forall_nil.
Qed.

Lemma transition_ok t rid ctx w : json_wf (JObj ctx) = true -> esm_ok w -> esm_ok (transition t rid ctx w).1.
Proof.
  intros Hc [Hl Hr]. split; [by apply transition_log_ok|].
  destruct (transition_spec t rid ctx w Hl) as [?|e ? ? ?|? ? ? ?|b store x ? ? ? ? He ?|b store e ? ? ? Ht Ho Hk He];
    cbn [fst snd esm_machine_id esm_current_state] in *; rewrite ?He //.
  rewrite (fold_result_snoc _ _ _ _ _ Hr). by eapply replay_own.
Qed.

Lemma transition_machine_id t rid ctx w : log_ok w.1 ->
  esm_machine_id (transition t rid ctx w).1.2 = esm_machine_id w.2.
Proof. intros Hl. by destruct (transition_spec t rid ctx w Hl). Qed.

(** Transitions of the machine, interleaved with whatever other components
    append to the same store (events that are not the machine's). *)
Inductive esm_step : L * ExecutionStateMachine -> L * ExecutionStateMachine -> Prop :=
  | esm_transition t rid ctx w : json_wf (JObj ctx) = true -> esm_step w (transition t rid ctx w).1
  | esm_other store store' self es : log_ok store' ->
      log_events store' = log_events store ++ es ->
      Forall (fun e => _is_own_event e (esm_machine_id self) = false) es ->
      esm_step (store, self) (store', self).

Lemma fold_other mid s es : Forall (fun e => _is_own_event e mid = false) es ->
  fold_result (replay_event mid) s es = Ok s.
Proof. induction 1 as [|e es He _ IH]; [done|]. cbn. unfold replay_event. by rewrite He. Qed.

Lemma esm_step_ok w w' : esm_step w w' -> esm_ok w -> esm_ok w' /\ esm_machine_id w'.2 = esm_machine_id w.2 /\
  exists es, log_events w'.1 = log_events w.1 ++ es.
Proof.
  intros [t rid ctx w0 Hc|store store' self es Hl He Ho] Hw.
  - pose proof (proj1 Hw) as Hl. split_and!; [by apply transition_ok|by apply transition_machine_id|].
    destruct (transition_spec t rid ctx w0 Hl) as [?|e ? ? ?|? ? ? ?|b store x ? ? ? ? He ?|b store e ? ? ? ? ? ? He].
    1-3: exists []; by rewrite app_nil_r. 2: by exists [e]. exists []. by rewrite app_nil_r.
  - destruct Hw as [Hl' Hr]. cbn [fst snd] in *. split_and!; [|done|by exists es]. split; [done|]. cbn [fst snd].
    by rewrite He fold_result_app Hr fold_other.
Qed.

Lemma esm_steps_ok w w' : rtc esm_step w w' -> esm_ok w -> esm_ok w' /\ esm_machine_id w'.2 = esm_machine_id w.2 /\
  exists es, log_events w'.1 = log_events w.1 ++ es.
Proof.
  induction 1 as [w|w w1 w2 Hs _ IH]; intros Hw.
  - split_and!; try done. exists []. by rewrite app_nil_r.
  - apply esm_step_ok in Hs as (Hw1 & Hid & es1 & He1); [|done].
    destruct (IH Hw1) as (Hw2 & Hid2 & es2 & He2). split_and!; [done|congruence|].
    exists (es1 ++ es2). by rewrite He2 He1 app_assoc.
Qed.

Lemma init_ok store mid m : log_ok store -> esm_init store mid = Ok m -> esm_ok (store, m) /\ esm_machine_id m = mid.
Proof.
  intros Hl. unfold esm_init. destruct (blank mid); [done|]. destruct (_ <? _); [done|].
  rewrite log_replay_events //. cbn [mbind result_bind].
  destruct (fold_result _ _ _) as [s|] eqn:E; [|done]. intros [= <-]. by split.
Qed.

Lemma init_of_ok store m : esm_ok (store, m) -> blank (esm_machine_id m) = false ->
  slen (esm_machine_id m) <= _MAX_MACHINE_ID_LENGTH -> esm_init store (esm_machine_id m) = Ok m.
Proof.
  intros [Hl Hr] Hb Hlen. cbn [fst snd] in *. unfold esm_init. rewrite Hb (proj2 (Z.ltb_ge _ _)) //.
  rewrite log_replay_events //. cbn [mbind result_bind]. rewrite Hr. by destruct m.
Qed.

(** An event once found under a key stays found. *)
Lemma find_event_mono k es es' e : find_event k es = Some e -> find_event k (es ++ es') = Some e.
Proof.
  unfold find_event. induction es as [|x es IH]; [done|]. cbn. by destruct (bool_decide _).
Qed.

Lemma find_event_last k es e : find_event k es = None -> key_of e = Some k -> find_event k (es ++ [e]) = Some e.
Proof.
  unfold find_event. induction es as [|x es IH]; cbn.
  - intros _ Hk. by rewrite bool_decide_eq_true_2.
  - by destruct (bool_decide _).
Qed.
End machine.

(** ** Paths in the table *)

Import State Trigger.

Fixpoint run (s : State) (ts : list Trigger) : option State :=
  match ts with
  | [] => Some s
  | t :: ts => match TRANSITION_TABLE s t with Some s' => run s' ts | None => None end
  end.

(** Halted by a kill switch or stopped. *)
Definition halted (s : State) : bool :=
  match s with SOFT_KILL | HARD_KILL | EMERGENCY_KILL | STOPPED => true | _ => false end.
(** An order or a position is in flight. *)
Definition at_risk (s : State) : bool :=
  match s with SIGNAL_PENDING | ORDER_PENDING | PARTIALLY_FILLED | POSITION_OPEN | POSITION_CLOSING => true | _ => false end.

Lemma halted_next s t s' : halted s = true -> TRANSITION_TABLE s t = Some s' -> halted s' = true \/ s' = RECONCILING.
Proof. destruct s; try discriminate; destruct t; vm_compute; intros _ [= <-]; auto. Qed.

(** ** Properties *)

(** Restart. Whatever sequence of transitions a machine performs (legal,
    illegal, repeated, refused by the store), interleaved with whatever other
    components record in the same store, constructing a machine with the same
    id from the log rebuilds exactly its current state. *)
Theorem restart_rebuilds_state `{EventLog L} store mid m w :
  log_ok store -> esm_init store mid = Ok m -> rtc esm_step (store, m) w ->
  esm_init w.1 mid = Ok w.2.
Proof.
  intros Hl Hi Hs. destruct (init_ok store mid m Hl Hi) as [Hok Hid].
  apply esm_steps_ok in Hs as (Hw & Hidw & _); [|done]. cbn [snd] in Hidw.
  assert (Hm : blank mid = false /\ slen mid <= _MAX_MACHINE_ID_LENGTH).
  { unfold esm_init in Hi. destruct (blank mid); [done|].
    by destruct (Z.ltb_spec _MAX_MACHINE_ID_LENGTH (slen mid)). }
  rewrite -Hid -Hidw. destruct w as [store' m']. cbn [fst snd] in *.
  apply init_of_ok; rewrite ?Hidw ?Hid; tauto.
Qed.

Definition sample_machine : ExecutionStateMachine := {| esm_machine_id := "m"; esm_current_state := INITIALIZING |}.
Definition sample_started : MemLog * ExecutionStateMachine := (transition STARTED "r1" [] (mem_empty, sample_machine)).1.

Lemma restart_rebuilds_state_witness :
  esm_init sample_started.1 "m" = Ok sample_started.2 /\ esm_current_state sample_started.2 = RECONCILING.
Proof.
  split; [|reflexivity].
  apply (restart_rebuilds_state mem_empty "m" sample_machine sample_started mem_empty_ok eq_refl).
  apply rtc_once. exact (esm_transition STARTED "r1" [] (mem_empty, sample_machine) eq_refl).
Defined.

(** Idempotency. Once a request id has been accepted, a later call with the
    same id, at any later point and with any trigger and context, returns the
    recorded outcome, marked as replayed, and changes neither the machine nor
    the store. *)
Theorem transition_idempotent `{EventLog L} t rid ctx t' ctx' (w w1 w2 : L * ExecutionStateMachine) r :
  esm_ok w -> json_wf (JObj ctx) = true -> transition t rid ctx w = (w1, Ok r) -> rtc esm_step w1 w2 ->
  transition t' rid ctx' w2 = (w2, Ok {| tr_event_id := tr_event_id r; tr_trigger := tr_trigger r;
    tr_from_state := tr_from_state r; tr_to_state := tr_to_state r; tr_timestamp_utc := tr_timestamp_utc r;
    tr_request_id := rid; tr_context := tr_context r; tr_replayed := true |}).
Proof.
  intros Hw Hc Ht Hs. pose proof (transition_ok t rid ctx w Hc Hw) as Hw1.
  pose proof (transition_spec t rid ctx w (proj1 Hw)) as Hspec. rewrite Ht in Hw1, Hspec. cbn [fst snd] in *.
  apply esm_steps_ok in Hs as (Hw2 & Hid & es & Hes); [|done].
  assert (Hfound : exists e, find_event (_namespaced_key (esm_machine_id w2.2) rid) (log_events w2.1) = Some e /\
            _is_own_event e (esm_machine_id w2.2) = true /\ blank rid = false /\ slen rid <= _MAX_REQUEST_ID_LENGTH /\
            exists rep, _result_from_event e rid rep = Ok r).
  { inversion Hspec as [|e Hb Hl Hf| | |b store e Hb Hl Hf Ht' Ho Hk He]; subst.
    - exists e. rewrite Hid Hes. destruct (_is_own_event e _) eqn:Hown; [|done].
      split_and!; try done; [by apply find_event_mono|by exists true].
    - cbn [fst snd esm_machine_id] in *. exists e. rewrite Hid Hes He.
      split_and!; try done; [|by eapply own_event_own|by exists false].
      apply find_event_mono. by apply find_event_last. }
  destruct Hfound as (e & Hf & Hown & Hb & Hl & rep & Hr). destruct w2 as [store2 m2]. cbn [fst snd] in *.
  unfold transition. rewrite Hb (proj2 (Z.ltb_ge _ _)) // log_find_event ?Hf ?Hown; [apply Hw2|]. cbn [negb].
  f_equal. revert Hr. unfold _result_from_event.
  destruct (_parse_trigger _); cbn [mbind result_bind]; [|done].
  destruct (_parse_state (jget "from_state" _)); cbn [mbind result_bind]; [|done].
  destruct (_parse_state _); cbn [mbind result_bind]; [|done]. by intros [= <-].
Qed.

Lemma transition_idempotent_witness :
  exists r, (transition STARTED "r1" [] (mem_empty, sample_machine)).2 = Ok r /\
  (transition SHUTDOWN "r1" [("x", JNull)] sample_started).1 = sample_started /\
  (transition SHUTDOWN "r1" [("x", JNull)] sample_started).2 = Ok {| tr_event_id := tr_event_id r;
    tr_trigger := tr_trigger r; tr_from_state := tr_from_state r; tr_to_state := tr_to_state r;
    tr_timestamp_utc := tr_timestamp_utc r; tr_request_id := "r1"; tr_context := tr_context r; tr_replayed := true |}.
Proof.
  eexists. split; [reflexivity|].
  assert (Hok : esm_ok (mem_empty, sample_machine)) by (split; [apply mem_empty_ok|reflexivity]).
  rewrite (transition_idempotent STARTED "r1" [] SHUTDOWN [("x", JNull)] (mem_empty, sample_machine)
    sample_started sample_started _ Hok eq_refl eq_refl (rtc_refl _ _)). by split.
Defined.

(** A transition is all or nothing. Either the state and the events are
    exactly as before, or the trigger is an edge of the table from the current
    state, the machine is in that edge's target, one event recording it has been
    appended, and the call returned that transition; an illegal trigger under a
    new request id always raises [IllegalTransitionError] with nothing recorded. *)
Theorem transition_atomic `{EventLog L} t rid ctx (w : L * ExecutionStateMachine) :
  log_ok w.1 ->
  let '(w', r) := transition t rid ctx w in
  (w'.2 = w.2 /\ log_events w'.1 = log_events w.1 /\
    (TRANSITION_TABLE (esm_current_state w.2) t = None -> blank rid = false -> slen rid <= _MAX_REQUEST_ID_LENGTH ->
     find_event (_namespaced_key (esm_machine_id w.2) rid) (log_events w.1) = None -> r = Err IllegalTransitionError))
  \/ exists b e, TRANSITION_TABLE (esm_current_state w.2) t = Some b /\ esm_current_state w'.2 = b /\
    log_events w'.1 = log_events w.1 ++ [e] /\ _is_own_event e (esm_machine_id w.2) = true /\
    r = Ok {| tr_event_id := ev_id e; tr_trigger := t; tr_from_state := esm_current_state w.2; tr_to_state := b;
              tr_timestamp_utc := ev_timestamp_utc e; tr_request_id := rid; tr_context := JObj ctx;
              tr_replayed := false |}.
Proof.
  intros Hl. pose proof (transition_spec t rid ctx w Hl) as Hs.
  destruct (transition t rid ctx w) as [w' r]. cbn [fst snd] in Hs.
  destruct Hs as [?|e ? ? ?|? ? ? ?|b store x ? ? ? ? He ?|b store e ? ? ? ? Ho ? He].
  - left. split_and!; try done. intros _ Hb Hr. destruct H0; [congruence|lia].
  - left. split_and!; try done. intros _ _ _ Hn. congruence.
  - by left.
  - left. split_and!; try done. intros Hn. congruence.
  - right. exists b, e. split_and!; try done; [by eapply own_event_own|by eapply own_event_result].
Qed.

Lemma sample_started_ok : log_ok sample_started.1.
Proof. by apply (transition_log_ok STARTED "r1" [] (mem_empty, sample_machine) eq_refl mem_empty_ok). Qed.

Lemma transition_atomic_witness :
  (transition SIGNAL_RECEIVED "r2" [] sample_started).2 = Err IllegalTransitionError /\
  (transition SIGNAL_RECEIVED "r2" [] sample_started).1.2 = sample_started.2.
Proof.
  pose proof (transition_atomic SIGNAL_RECEIVED "r2" [] sample_started sample_started_ok) as Ha.
  destruct (transition SIGNAL_RECEIVED "r2" [] sample_started) as [w' r]. cbn [fst snd] in *.
  destruct Ha as [(Hw & _ & Hi)|(b & e & Ht & _)]; [|vm_compute in Ht; discriminate Ht].
  split; [|done]. apply Hi; [reflexivity|reflexivity|vm_compute; congruence|reflexivity].
Defined.

(** No trading resumes from a kill without reconciliation. Along any path of
    the transition table that starts halted (a kill tier or [STOPPED]), every
    state that is not halted is reached only after passing through
    [RECONCILING]. *)
Theorem kill_recovery_reconciles s ts s' :
  halted s = true -> run s ts = Some s' -> halted s' = false ->
  exists ts1 ts2, ts = ts1 ++ ts2 /\ run s ts1 = Some RECONCILING.
Proof.
  revert s; induction ts as [|t ts IH]; intros s Hh Hr Hn; cbn [run] in Hr.
  - simplify_eq. congruence.
  - destruct (TRANSITION_TABLE s t) as [s1|] eqn:Ht; [|done].
    destruct (halted_next s t s1 Hh Ht) as [H1| ->].
    + destruct (IH s1 H1 Hr Hn) as (ts1 & ts2 & -> & Hrun). exists (t :: ts1), ts2. cbn [run]. by rewrite Ht.
    + exists [t], ts. cbn [run]. by rewrite Ht.
Qed.

Lemma kill_recovery_reconciles_witness :
  exists ts1 ts2, [HARD_KILL_TRIGGERED; FLATTEN_FILL_RECEIVED; RESUME; RECONCILED] = ts1 ++ ts2 /\
    run SOFT_KILL ts1 = Some RECONCILING.
Proof.
  exact (kill_recovery_reconciles SOFT_KILL [HARD_KILL_TRIGGERED; FLATTEN_FILL_RECEIVED; RESUME; RECONCILED] READY
           eq_refl eq_refl eq_refl).
Defined.

(** Shutdown and kill edges. [SHUTDOWN] is never legal while a signal, an
    order or a position is in flight; the soft and hard kill triggers are legal
    from every such state; the emergency kill is legal from every state but
    itself and [STOPPED]; [STOPPED] has no way out and [EMERGENCY_KILL] only
    [SHUTDOWN]. *)
Lemma kill_and_shutdown_edges s t :
  (is_legal s SHUTDOWN = true -> at_risk s = false) /\
  (at_risk s = true -> is_legal s SOFT_KILL_TRIGGERED = true /\ is_legal s HARD_KILL_TRIGGERED = true) /\
  (s <> STOPPED -> s <> EMERGENCY_KILL -> is_legal s EMERGENCY_KILL_TRIGGERED = true) /\
  is_legal STOPPED t = false /\
  (is_legal EMERGENCY_KILL t = true -> t = SHUTDOWN).
Proof.
  split_and!.
  - destruct s; vm_compute; congruence.
  - destruct s; vm_compute; split; congruence.
  - destruct s; vm_compute; congruence.
  - destruct t; reflexivity.
  - destruct t; vm_compute; congruence.
Qed.

Lemma kill_and_shutdown_edges_witness :
  is_legal POSITION_OPEN SOFT_KILL_TRIGGERED = true /\ is_legal POSITION_OPEN HARD_KILL_TRIGGERED = true.
Proof. apply (kill_and_shutdown_edges POSITION_OPEN RESUME). reflexivity. Defined.

(** Idempotency keys never collide: two requests have the same namespaced
    key only when both the machine id and the request id are equal, whatever
    separators the ids contain; and every key of ids within the length limits is
    short enough for the store and not blank. *)
Lemma namespaced_key_unique m1 r1 m2 r2 :
  (_namespaced_key m1 r1 = _namespaced_key m2 r2 -> m1 = m2 /\ r1 = r2) /\
  (slen m1 <= _MAX_MACHINE_ID_LENGTH -> slen r1 <= _MAX_REQUEST_ID_LENGTH ->
   slen (_namespaced_key m1 r1) <= MAX_IDEMPOTENCY_KEY_LENGTH /\ blank (_namespaced_key m1 r1) = false).
Proof.
  unfold _namespaced_key. split.
  - intros E. apply app_inj_l_s, app_inj_l_s in E.
    apply int_str_colon_inj in E as [Hl E]; [|apply slen_nonneg..].
    apply slen_inj_app in E as [-> E]; [|done]. split; [done|]. apply app_inj_l_s in E.
    apply int_str_colon_inj in E as [Hl' ->]; [done|apply slen_nonneg..].
  - unfold _MAX_MACHINE_ID_LENGTH, _MAX_REQUEST_ID_LENGTH, MAX_IDEMPOTENCY_KEY_LENGTH. intros Hm Hr.
    pose proof (slen_nonneg m1). pose proof (slen_nonneg r1).
    rewrite !slen_app. pose proof (digits_len (slen m1) ltac:(lia)). pose proof (digits_len (slen r1) ltac:(lia)).
    change (slen _EVENT_SOURCE_TAG) with 23. change (slen ":") with 1. split; [lia|done].
Qed.

Lemma namespaced_key_unique_witness :
  _namespaced_key "A:B" "C" <> _namespaced_key "A" "B:C" /\
  slen (_namespaced_key "A:B" "C") <= MAX_IDEMPOTENCY_KEY_LENGTH.
Proof.
  destruct (namespaced_key_unique "A:B" "C" "A" "B:C") as [Hi Hl]. split.
  - intros E. destruct (Hi E) as [E1 _]. discriminate E1.
  - apply Hl; vm_compute; discriminate.
Defined.
