(* ===== verification/SecretsBoundary.v ===== *)
(** * The signing boundary (src/secrets_boundary/)

    The references to secrets, the HMAC backend that holds their material, the
    preimage that is signed in place of the message, and revocation: what a
    boundary signs, for whom, and that a revoked reference signs nothing again. *)

From Stdlib Require Import ssreflect ZArith Lia Ascii String Strings.Byte.
From stdpp Require Import base strings numbers gmap sets list.
From S2P Require Import Prelude PyText PyDict PyBytes PySort PyDecimal.
#[local] Open Scope Z_scope.

(** ** domain.py *)

Definition ENGINE_ID : bytes := encode "TurtleExecutionEngine".
Definition MAX_SIGNING_PAYLOAD_BYTES : Z := 64 * 1024.

Module SigningPurpose.
Inductive SigningPurpose :=
  | ORDER | CANCEL | AMEND | AUTH | FLATTEN | QUERY | NOTIFY.
#[global] Instance SigningPurpose_eq_dec : EqDecision SigningPurpose.
Proof. solve_decision. Defined.

Definition value (x : SigningPurpose) : string :=
  match x with
  | ORDER => "ORDER" | CANCEL => "CANCEL" | AMEND => "AMEND" | AUTH => "AUTH" | FLATTEN => "FLATTEN"
  | QUERY => "QUERY" | NOTIFY => "NOTIFY"
  end.

#[global] Program Instance SigningPurpose_enum : PyEnum SigningPurpose := {
  enum_all := [ORDER; CANCEL; AMEND; AUTH; FLATTEN; QUERY; NOTIFY];
  enum_value := value
}.
Solve Obligations with solve_enum.
End SigningPurpose.
Notation SigningPurpose := SigningPurpose.SigningPurpose.

(** [struct.pack(">I", len(value)) + value] *)
Definition _field (v : bytes) : result bytes :=
  if 2 ^ 32 <=? Z.of_nat (length v) then Err StructError else Ok (be_encode 4 (Z.of_nat (length v)) ++ v).

Definition build_preimage (engine_version exchange_name : string) (purpose : SigningPurpose) (message : bytes) : result bytes :=
  a ← _field ENGINE_ID;
  b ← _field (utf8 engine_version);
  c ← _field (utf8 exchange_name);
  d ← _field (utf8 (enum_value purpose));
  e ← _field message;
  Ok (a ++ b ++ c ++ d ++ e).

(** ** backend.py *)

Definition _ENV_VAR_PREFIX : string := "TURTLE_SECRET_".
Definition upper_char (c : ascii) : ascii :=
  let n := N_of_ascii c in if ((97 <=? n) && (n <=? 122))%N then ascii_of_N (n - 32) else c.
(** [ref.upper()], for an ASCII reference. *)
Fixpoint upper (s : string) : string := match s with "" => "" | String c s => String (upper_char c) (upper s) end.
Definition _env_var_name (ref : string) : string := _ENV_VAR_PREFIX +:+ upper ref.

(** [hmac.new(key, message, hashlib.sha256).digest()] *)
Definition hmac_sha256 (key message : bytes) : bytes :=
  let key := if (64 <? length key)%nat then sha256 key else key in
  let key := key ++ replicate (64 - length key) Byte.x00 in
  let xored n := map (fun b => z2b (Z.lxor (b2z b) n)) key in
  sha256 (xored 92 ++ sha256 (xored 54 ++ message)).

Example hmac_sha256_ex : hex (hmac_sha256 (encode "key") (encode "The quick brown fox jumps over the lazy dog"))
  = "f7bc83f430538424b13298e6aa6fb143ef4d59a14946175997479dbc2d1a3cd8".
Proof. vm_compute. reflexivity. Qed.

(** The issues the constructors collect; their texts are not modelled. *)
Inductive issue :=
  | InvalidReference (ref : string)
  | DuplicateReference (ref : string)
  | InvalidEngineVersion
  | InvalidExchangeName
  | MissingSecret (ref : string)
  | EmptySecret (ref : string)
  | IdenticalSecrets (a b : string).

Record EnvironmentHmacBackend := {
  bk_env : list (string * string);
  bk_materials : list (string * bytes);
  bk_loaded : bool
}.
Definition backend_init (env : list (string * string)) : EnvironmentHmacBackend :=
  {| bk_env := env; bk_materials := []; bk_loaded := false |}.

(** The references of [rest] with the same material as [a]. *)
Fixpoint identical_to (a : string) (m : bytes) (rest : list (string * bytes)) : list issue :=
  match rest with
  | [] => []
  | (b, m') :: rest => if bool_decide (m = m') then IdenticalSecrets a b :: identical_to a m rest else identical_to a m rest
  end.
Fixpoint _find_duplicate_values (materials : list (string * bytes)) : list issue :=
  match materials with
  | [] => []
  | (a, m) :: rest => identical_to a m rest ++ _find_duplicate_values rest
  end.

(** The loop over the sorted references: the issues and the materials. *)
Fixpoint load_each (env : list (string * string)) (refs : list string) : list issue * list (string * bytes) :=
  match refs with
  | [] => ([], [])
  | ref :: refs =>
      let '(issues, materials) := load_each env refs in
      match dget (_env_var_name ref) env with
      | None => (MissingSecret ref :: issues, materials)
      | Some "" => (EmptySecret ref :: issues, materials)
      | Some raw => (issues, (ref, utf8 raw) :: materials)
      end
  end.

(** The references are a set: those of the list, once each. *)
Definition validate_and_load (refs : list string) (self : EnvironmentHmacBackend) : result (EnvironmentHmacBackend * list issue) :=
  if bk_loaded self then Err RuntimeError else
  let '(issues, materials) := load_each (bk_env self) (sorted_by String.leb refs) in
  let issues := issues ++ _find_duplicate_values materials in
  match issues with
  | [] => Ok ({| bk_env := bk_env self; bk_materials := materials; bk_loaded := true |}, [])
  | _ => Ok (self, issues)
  end.

Definition backend_sign (ref : string) (message : bytes) (self : EnvironmentHmacBackend) : result bytes :=
  material ← of_option KeyError (dget ref (bk_materials self));
  Ok (hmac_sha256 material message).

Definition discard (ref : string) (self : EnvironmentHmacBackend) : EnvironmentHmacBackend :=
  {| bk_env := bk_env self; bk_materials := dpop ref (bk_materials self); bk_loaded := bk_loaded self |}.

(** ** boundary.py *)

Definition lower_letter (c : ascii) : bool := let n := N_of_ascii c in ((97 <=? n) && (n <=? 122))%N.
Definition name_char (c : ascii) : bool := lower_letter c || is_digit c || Ascii.eqb c "_".

(** [[1-9][0-9]*$], where [$] also matches before a newline at the end. *)
Definition version_end (s : string) : bool :=
  match s with
  | String c s => is_digit c && negb (Ascii.eqb c "0") &&
                  let rest := (span_digits s).2 in str_empty rest || String.eqb rest (String "010" "")
  | "" => false
  end.
(** [[a-z0-9_]*_v[1-9][0-9]*$] *)
Fixpoint name_rest (s : string) : bool :=
  match s with
  | String "_" (String "v" s as t) => version_end s || name_rest t
  | String c s => name_char c && name_rest s
  | "" => false
  end.
(** [_REF_PATTERN.match(ref)] *)
Definition ref_pattern (ref : string) : bool :=
  match ref with String c s => lower_letter c && name_rest s | "" => false end.

Example ref_pattern_ex :
  map ref_pattern ["hyperliquid_signing_key_v1"; "a_v0"; "a_v12_v3"; "A_v1"; "key"; "k_v1x"; "_v1"; "k_v10"; String "a" (String "_" (String "v" (String "1" (String "010" ""))))]
  = [true; false; true; false; false; false; false; true; true].
Proof. vm_compute. reflexivity. Qed.

Fixpoint validate_refs (seen refs : list string) : list issue :=
  match refs with
  | [] => []
  | ref :: refs =>
      if negb (ref_pattern ref) then InvalidReference ref :: validate_refs seen refs
      else (if bool_decide (ref ∈ seen) then [DuplicateReference ref] else []) ++ validate_refs (ref :: seen) refs
  end.
Definition _validate_ref_structure (refs : list string) : list issue := validate_refs [] refs.

Definition _validate_domain (engine_version exchange_name : string) : list issue :=
  (if blank engine_version then [InvalidEngineVersion] else []) ++ (if blank exchange_name then [InvalidExchangeName] else []).

Record SigningBoundary := {
  sb_engine_version : string;
  sb_exchange_name : string;
  sb_expected_refs : list string;
  sb_backend : EnvironmentHmacBackend;
  sb_revoked : gset string
}.

(** [SigningBoundary(refs, engine_version, exchange_name, backend)]: the
    exception with its issues. *)
Definition boundary_init (refs : list string) (engine_version exchange_name : string) (backend : EnvironmentHmacBackend)
    : SigningBoundary + (exn * list issue) :=
  match _validate_ref_structure refs ++ _validate_domain engine_version exchange_name with
  | (_ :: _) as issues => inr (SecretsConfigurationError, issues)
  | [] =>
      match validate_and_load refs backend with
      | Err e => inr (e, [])
      | Ok (_, (_ :: _) as issues) => inr (SecretsStartupError, issues)
      | Ok (backend, []) =>
          inl {| sb_engine_version := engine_version; sb_exchange_name := exchange_name; sb_expected_refs := refs;
                 sb_backend := backend; sb_revoked := ∅ |}
      end
  end.

Definition has_reference (ref : string) (self : SigningBoundary) : bool := bool_decide (ref ∈ sb_expected_refs self).
Definition is_revoked (ref : string) (self : SigningBoundary) : bool := bool_decide (ref ∈ sb_revoked self).

Definition sign (self : SigningBoundary) (ref : string) (purpose : SigningPurpose) (message : bytes) : result bytes :=
  if MAX_SIGNING_PAYLOAD_BYTES <? Z.of_nat (length message) then Err PayloadTooLargeError
  else if negb (has_reference ref self) then Err UnknownSecretReferenceError
  else if is_revoked ref self then Err SecretRevokedError
  else preimage ← build_preimage (sb_engine_version self) (sb_exchange_name self) purpose message;
       backend_sign ref preimage (sb_backend self).

Definition revoke_one (ref : string) (self : SigningBoundary) : SigningBoundary :=
  {| sb_engine_version := sb_engine_version self; sb_exchange_name := sb_exchange_name self;
     sb_expected_refs := sb_expected_refs self; sb_backend := discard ref (sb_backend self); sb_revoked := {[ref]} ∪ sb_revoked self |}.

Definition revoke (ref : string) : M SigningBoundary unit := fun self =>
  if has_reference ref self then (revoke_one ref self, Ok tt) else (self, Err UnknownSecretReferenceError).
Definition revoke_all (self : SigningBoundary) : SigningBoundary := foldl (fun self ref => revoke_one ref self) self (sb_expected_refs self).
