(* ===== verification/ExchangeModels.v ===== *)
(** * Exchange-agnostic models (src/exchange_adapter/models.py)

    The enums, the request records with the checks their constructors make, and
    the records the adapter returns. *)

From Stdlib Require Import ssreflect ZArith Lia Ascii String.
From stdpp Require Import base strings numbers gmap sets list.
From S2P Require Import Prelude PyText PyDict PyJson PyDecimal.
#[local] Open Scope Z_scope.

Module OrderSide.
Inductive OrderSide :=
  | BUY | SELL.
#[global] Instance OrderSide_eq_dec : EqDecision OrderSide.
Proof. solve_decision. Defined.

Definition value (x : OrderSide) : string :=
  match x with
  | BUY => "BUY" | SELL => "SELL"
  end.

#[global] Program Instance OrderSide_enum : PyEnum OrderSide := {
  enum_all := [BUY; SELL];
  enum_value := value
}.
Solve Obligations with solve_enum.
End OrderSide.
Notation OrderSide := OrderSide.OrderSide.

Module OrderType.
Inductive OrderType :=
  | MARKET | LIMIT.
#[global] Instance OrderType_eq_dec : EqDecision OrderType.
Proof. solve_decision. Defined.

Definition value (x : OrderType) : string :=
  match x with
  | MARKET => "MARKET" | LIMIT => "LIMIT"
  end.

#[global] Program Instance OrderType_enum : PyEnum OrderType := {
  enum_all := [MARKET; LIMIT];
  enum_value := value
}.
Solve Obligations with solve_enum.
End OrderType.
Notation OrderType := OrderType.OrderType.

Module TimeInForce.
Inductive TimeInForce :=
  | GTC | IOC | FOK | POST_ONLY.
#[global] Instance TimeInForce_eq_dec : EqDecision TimeInForce.
Proof. solve_decision. Defined.

Definition value (x : TimeInForce) : string :=
  match x with
  | GTC => "GTC" | IOC => "IOC" | FOK => "FOK" | POST_ONLY => "POST_ONLY"
  end.

#[global] Program Instance TimeInForce_enum : PyEnum TimeInForce := {
  enum_all := [GTC; IOC; FOK; POST_ONLY];
  enum_value := value
}.
Solve Obligations with solve_enum.
End TimeInForce.
Notation TimeInForce := TimeInForce.TimeInForce.

Module OrderStatus.
Inductive OrderStatus :=
  | NEW | ACKNOWLEDGED | PARTIALLY_FILLED | FILLED | CANCELLED | REJECTED | UNKNOWN.
#[global] Instance OrderStatus_eq_dec : EqDecision OrderStatus.
Proof. solve_decision. Defined.

Definition value (x : OrderStatus) : string :=
  match x with
  | NEW => "NEW" | ACKNOWLEDGED => "ACKNOWLEDGED" | PARTIALLY_FILLED => "PARTIALLY_FILLED"
  | FILLED => "FILLED" | CANCELLED => "CANCELLED" | REJECTED => "REJECTED" | UNKNOWN =>
  "UNKNOWN"
  end.

#[global] Program Instance OrderStatus_enum : PyEnum OrderStatus := {
  enum_all := [NEW; ACKNOWLEDGED; PARTIALLY_FILLED; FILLED; CANCELLED; REJECTED; UNKNOWN];
  enum_value := value
}.
Solve Obligations with solve_enum.
End OrderStatus.
Notation OrderStatus := OrderStatus.OrderStatus.

Module ConnectionState.
Inductive ConnectionState :=
  | DISCONNECTED | CONNECTING | CONNECTED | DEGRADED.
#[global] Instance ConnectionState_eq_dec : EqDecision ConnectionState.
Proof. solve_decision. Defined.

Definition value (x : ConnectionState) : string :=
  match x with
  | DISCONNECTED => "DISCONNECTED" | CONNECTING => "CONNECTING" | CONNECTED => "CONNECTED"
  | DEGRADED => "DEGRADED"
  end.

#[global] Program Instance ConnectionState_enum : PyEnum ConnectionState := {
  enum_all := [DISCONNECTED; CONNECTING; CONNECTED; DEGRADED];
  enum_value := value
}.
Solve Obligations with solve_enum.
End ConnectionState.
Notation ConnectionState := ConnectionState.ConnectionState.

Record Symbol := { sym_value : string }.

(** [Symbol(value)] *)
Definition mk_Symbol (value : string) : result Symbol :=
  if blank value then Err ValueError else Ok {| sym_value := value |}.

Record ExchangeCapabilities := {
  supports_reduce_only : bool;
  supports_post_only : bool;
  supports_ioc : bool;
  supports_fok : bool;
  supports_market_orders : bool;
  supports_limit_orders : bool;
  supports_trigger_orders : bool;
  supports_partial_fill_notifications : bool;
  supports_funding_rate : bool;
  supports_cross_margin : bool;
  supports_isolated_margin : bool;
  cap_extra : list (string * bool)
}.

Record OrderRequest := {
  or_client_order_id : string;
  or_symbol : Symbol;
  or_side : OrderSide;
  or_order_type : OrderType;
  or_quantity : decimal;
  or_limit_price : option decimal;
  or_time_in_force : TimeInForce;
  or_reduce_only : bool
}.

(** [x is not None and x <= 0] *)
Definition not_positive (x : option decimal) : bool :=
  match x with Some p => dleb p d0 | None => false end.

(** [OrderRequest(...)]: what its [__post_init__] refuses. *)
Definition mk_OrderRequest (r : OrderRequest) : result OrderRequest :=
  if blank (or_client_order_id r) then Err ValueError
  else if dleb (or_quantity r) d0 then Err ValueError
  else if not_positive (or_limit_price r) then Err ValueError
  else Ok r.

Record AmendRequest := {
  am_request_id : string;
  am_exchange_order_id : string;
  am_new_quantity : option decimal;
  am_new_limit_price : option decimal
}.

Definition mk_AmendRequest (r : AmendRequest) : result AmendRequest :=
  if blank (am_request_id r) then Err ValueError
  else if blank (am_exchange_order_id r) then Err ValueError
  else match am_new_quantity r, am_new_limit_price r with
       | None, None => Err ValueError
       | _, _ => Ok r
       end.

Record CancelRequest := { cn_request_id : string; cn_exchange_order_id : string }.

Definition mk_CancelRequest (r : CancelRequest) : result CancelRequest :=
  if blank (cn_request_id r) then Err ValueError
  else if blank (cn_exchange_order_id r) then Err ValueError
  else Ok r.

Record CancelAllRequest := { ca_request_id : string; ca_symbol : option Symbol }.

Definition mk_CancelAllRequest (r : CancelAllRequest) : result CancelAllRequest :=
  if blank (ca_request_id r) then Err ValueError else Ok r.

Record Order := {
  o_client_order_id : string;
  o_exchange_order_id : option string;
  o_symbol : Symbol;
  o_side : OrderSide;
  o_order_type : OrderType;
  o_quantity : decimal;
  o_filled_quantity : decimal;
  o_limit_price : option decimal;
  o_status : OrderStatus;
  o_time_in_force : TimeInForce;
  o_reduce_only : bool;
  o_created_at_utc : string;
  o_updated_at_utc : string
}.

Record Fill := {
  fl_fill_id : string;
  fl_client_order_id : string;
  fl_exchange_order_id : string;
  fl_symbol : Symbol;
  fl_side : OrderSide;
  fl_price : decimal;
  fl_quantity : decimal;
  fl_fee : decimal;
  fl_timestamp_utc : string
}.

Record Position := {
  po_symbol : Symbol;
  po_quantity : decimal;
  po_entry_price : decimal;
  po_mark_price : decimal;
  po_unrealized_pnl : decimal;
  po_liquidation_price : option decimal
}.

Record Balance := { ba_asset : Symbol; ba_total : decimal; ba_available : decimal; ba_reserved : decimal }.

Record MarkPrice := { mp_symbol : Symbol; mp_price : decimal; mp_timestamp_utc : string }.

Record FundingRate := {
  fr_symbol : Symbol; fr_rate : decimal; fr_next_funding_time_utc : string; fr_timestamp_utc : string
}.

(** [last_message_age_ms] is a float, kept by its exact value. *)
Record HealthStatus := {
  hs_connection_state : ConnectionState;
  hs_websocket_connected : bool;
  hs_rest_reachable : bool;
  hs_last_message_age_ms : option decimal;
  hs_sequence_gap_detected : bool;
  hs_checked_at_utc : string
}.

Record ReconciliationReport := {
  rr_matches : bool;
  rr_local_positions : list Position;
  rr_exchange_positions : list Position;
  rr_discrepancies : list string;
  rr_checked_at_utc : string
}.

Record AuditRecord := {
  au_request_id : string;
  au_logical_action : string;
  au_exchange_name : string;
  au_adapter_version : string;
  au_timestamp_utc : string;
  au_payload_hash : string;
  au_idempotency_key : string
}.
