(* ===== verification/ExchangeAdapter.v ===== *)
(** * The exchange adapter (src/exchange_adapter/adapter.py, idempotency.py, audit.py, retry.py)

    The template methods every adapter inherits: the idempotency cache and the
    audit record in front of the transmission hooks, which are a type class; the
    retry policy; and the interface [Exchange] the managers call. *)

From Stdlib Require Import ssreflect ZArith Lia Ascii String QArith.
From stdpp Require Import base strings numbers gmap sets list.
From S2P Require Import Prelude PyText PyDict PyBytes PyJson PyDecimal ExchangeModels.
#[local] Open Scope Z_scope.

(** ** errors.py: the subclasses of [ExchangeAdapterError] *)

Definition is_adapter_error (e : exn) : bool :=
  match e with
  | ExchangeAdapterError | ExchangeConnectionError | ExchangeTimeoutError | ExchangeAuthenticationError
  | RateLimitExceededError | OrderUnknownError | ExchangeRejectedOrderError | StaleSnapshotError
  | SequenceGapError | ReconciliationMismatchError => true
  | _ => false
  end.

(** ** idempotency.py *)

Section cache.
Context {T : Type}.

Definition cache_get (key : string) (results : list (string * T)) : option T := dget key results.

(** First writer wins: the dictionary afterwards and the value returned. *)
Definition cache_store (key : string) (value : T) (results : list (string * T)) : list (string * T) * T :=
  let results := if din key results then results else dset key value results in
  (results, default value (dget key results)).
End cache.

(** ** audit.py *)

Definition opt_dec (d : option decimal) : json :=
  match d with Some d => JStr (dec_str d) | None => JNull end.

Definition order_request_audit_payload (request : OrderRequest) : json :=
  JObj [("client_order_id", JStr (or_client_order_id request));
        ("symbol", JStr (sym_value (or_symbol request)));
        ("side", JStr (enum_value (or_side request)));
        ("order_type", JStr (enum_value (or_order_type request)));
        ("quantity", JStr (dec_str (or_quantity request)));
        ("limit_price", opt_dec (or_limit_price request));
        ("time_in_force", JStr (enum_value (or_time_in_force request)));
        ("reduce_only", JBool (or_reduce_only request))].

Definition amend_request_audit_payload (request : AmendRequest) : json :=
  JObj [("request_id", JStr (am_request_id request));
        ("exchange_order_id", JStr (am_exchange_order_id request));
        ("new_quantity", opt_dec (am_new_quantity request));
        ("new_limit_price", opt_dec (am_new_limit_price request))].

Definition cancel_request_audit_payload (request : CancelRequest) : json :=
  JObj [("request_id", JStr (cn_request_id request));
        ("exchange_order_id", JStr (cn_exchange_order_id request))].

Definition cancel_all_request_audit_payload (request : CancelAllRequest) : json :=
  JObj [("request_id", JStr (ca_request_id request));
        ("symbol", match ca_symbol request with Some s => JStr (sym_value s) | None => JNull end)].

Definition compute_audit_record (request_id logical_action exchange_name adapter_version now
    idempotency_key : string) (payload : json) : AuditRecord :=
  {| au_request_id := request_id; au_logical_action := logical_action; au_exchange_name := exchange_name;
     au_adapter_version := adapter_version; au_timestamp_utc := now;
     au_payload_hash := hex (sha256 (encode (dumps payload))); au_idempotency_key := idempotency_key |}.

(** ** adapter.py *)

(** The hooks a concrete adapter implements, over its own state [H]. *)
Class AdapterHooks (H : Type) := {
  get_orders : M H (list Order);
  transmit_place_order : OrderRequest -> M H Order;
  transmit_amend_order : AmendRequest -> M H Order;
  transmit_cancel_order : CancelRequest -> M H Order;
  transmit_cancel_all : CancelAllRequest -> M H (list Order)
}.

(** One cache serves all four mutations. *)
Inductive CachedResult := CachedOrder (o : Order) | CachedOrders (os : list Order).

Record ExchangeAdapter (H : Type) := {
  ea_exchange_name : string;
  ea_adapter_version : string;
  ea_idempotency : list (string * CachedResult);
  ea_audit_log : list AuditRecord;
  ea_clock : list string;
  ea_hooks : H
}.
Arguments ea_exchange_name {H}.
Arguments ea_adapter_version {H}.
Arguments ea_idempotency {H}.
Arguments ea_audit_log {H}.
Arguments ea_clock {H}.
Arguments ea_hooks {H}.

Section adapter.
Context {H : Type} `{AdapterHooks H}.
Implicit Types (self : ExchangeAdapter H).

(** [ExchangeAdapter(...)] on arguments of the right types. *)
Definition adapter_init (exchange_name adapter_version : string) (clock : list string) (hooks : H)
    : result (ExchangeAdapter H) :=
  if blank exchange_name then Err ValueError
  else if blank adapter_version then Err ValueError
  else Ok {| ea_exchange_name := exchange_name; ea_adapter_version := adapter_version;
             ea_idempotency := []; ea_audit_log := []; ea_clock := clock; ea_hooks := hooks |}.

Definition set_hooks (h : H) self : ExchangeAdapter H :=
  {| ea_exchange_name := ea_exchange_name self; ea_adapter_version := ea_adapter_version self;
     ea_idempotency := ea_idempotency self; ea_audit_log := ea_audit_log self;
     ea_clock := ea_clock self; ea_hooks := h |}.

Definition set_idempotency (c : list (string * CachedResult)) self : ExchangeAdapter H :=
  {| ea_exchange_name := ea_exchange_name self; ea_adapter_version := ea_adapter_version self;
     ea_idempotency := c; ea_audit_log := ea_audit_log self;
     ea_clock := ea_clock self; ea_hooks := ea_hooks self |}.

(** [self._audit_log.append(compute_audit_record(...))], taking the time from
    the clock. *)
Definition record_audit (request_id action : string) (payload : json) self : ExchangeAdapter H :=
  let '(now, clock) := match ea_clock self with t :: ts => (t, ts) | [] => ("", []) end in
  {| ea_exchange_name := ea_exchange_name self; ea_adapter_version := ea_adapter_version self;
     ea_idempotency := ea_idempotency self;
     ea_audit_log := ea_audit_log self ++
       [compute_audit_record request_id action (ea_exchange_name self) (ea_adapter_version self) now request_id payload];
     ea_clock := clock; ea_hooks := ea_hooks self |}.

(** The body the four mutations share: cache, audit, transmission, cache. *)
Definition mutation (request_id action : string) (payload : json) (transmit : M H CachedResult)
    : M (ExchangeAdapter H) CachedResult := fun self =>
  match cache_get request_id (ea_idempotency self) with
  | Some cached => (self, Ok cached)
  | None =>
      let self := record_audit request_id action payload self in
      match transmit (ea_hooks self) with
      | (h, Err e) => (set_hooks h self, Err e)
      | (h, Ok result) =>
          let self := set_hooks h self in
          let '(c, value) := cache_store request_id result (ea_idempotency self) in
          (set_idempotency c self, Ok value)
      end
  end.

Definition place_order (request : OrderRequest) : M (ExchangeAdapter H) CachedResult :=
  mutation (or_client_order_id request) "PLACE_ORDER" (order_request_audit_payload request)
    (o ← transmit_place_order request; mret (CachedOrder o)).

Definition amend_order (request : AmendRequest) : M (ExchangeAdapter H) CachedResult :=
  mutation (am_request_id request) "AMEND_ORDER" (amend_request_audit_payload request)
    (o ← transmit_amend_order request; mret (CachedOrder o)).

Definition cancel_order (request : CancelRequest) : M (ExchangeAdapter H) CachedResult :=
  mutation (cn_request_id request) "CANCEL_ORDER" (cancel_request_audit_payload request)
    (o ← transmit_cancel_order request; mret (CachedOrder o)).

Definition cancel_all (request : CancelAllRequest) : M (ExchangeAdapter H) CachedResult :=
  mutation (ca_request_id request) "CANCEL_ALL" (cancel_all_request_audit_payload request)
    (os ← transmit_cancel_all request; mret (CachedOrders os)).

Definition find_order (request : OrderRequest) : M (ExchangeAdapter H) (option Order) := fun self =>
  let '(h, r) := get_orders (ea_hooks self) in
  (set_hooks h self,
   match r with
   | Ok orders => Ok (List.find (fun o => String.eqb (o_client_order_id o) (or_client_order_id request)) orders)
   | Err e => Err e
   end).
End adapter.

(** ** What the managers call

    An adapter as seen by its clients; a result of the wrong shape has no
    [status], which the caller would find out with [AttributeError]. *)
Class Exchange (A : Type) := {
  ex_place_order : OrderRequest -> M A Order;
  ex_amend_order : AmendRequest -> M A Order;
  ex_cancel_order : CancelRequest -> M A Order;
  ex_cancel_all : CancelAllRequest -> M A (list Order);
  ex_find_order : OrderRequest -> M A (option Order);
  ex_get_order_status : string -> M A Order;
  ex_get_fills : option string -> M A (list Fill);
  ex_get_positions : M A (list Position);
  ex_get_mark_price : Symbol -> M A MarkPrice;
  ex_reconcile : list Position -> M A ReconciliationReport
}.

Definition as_order (r : CachedResult) : result Order :=
  match r with CachedOrder o => Ok o | CachedOrders _ => Err AttributeError end.
Definition as_orders (r : CachedResult) : result (list Order) :=
  match r with CachedOrders os => Ok os | CachedOrder _ => Err TypeError end.

(** ** retry.py *)

Module OperationSafety.
Inductive OperationSafety := SAFE_TO_RETRY | UNSAFE_NEVER_AUTO_RETRY.
#[global] Instance OperationSafety_eq_dec : EqDecision OperationSafety.
Proof. solve_decision. Defined.
End OperationSafety.
Notation OperationSafety := OperationSafety.OperationSafety.

Module Operation.
Inductive Operation :=
  | CONNECT | DISCONNECT | HEALTH | GET_POSITIONS | GET_ORDERS | GET_BALANCES | GET_MARK_PRICE
  | GET_FUNDING_RATE | PLACE_ORDER | AMEND_ORDER | CANCEL_ORDER | CANCEL_ALL | GET_ORDER_STATUS
  | GET_FILLS | RECONCILE.
#[global] Instance Operation_eq_dec : EqDecision Operation.
Proof. solve_decision. Defined.
End Operation.
Notation Operation := Operation.Operation.

Definition _MUTATIONS (op : Operation) : bool :=
  match op with
  | Operation.PLACE_ORDER | Operation.AMEND_ORDER | Operation.CANCEL_ORDER | Operation.CANCEL_ALL => true
  | _ => false
  end.

Definition DEFAULT_OPERATION_SAFETY (op : Operation) : OperationSafety :=
  if _MUTATIONS op then OperationSafety.UNSAFE_NEVER_AUTO_RETRY else OperationSafety.SAFE_TO_RETRY.

(** Delays are floats, kept by their exact value; the products by powers of two
    are exact. *)
Record RetryPolicy := {
  rp_max_attempts : Z;
  rp_base_delay : Q;
  rp_max_delay : Q;
  rp_safety : Operation -> OperationSafety
}.

Definition mk_RetryPolicy (max_attempts : Z) (base_delay max_delay : Q)
    (operation_safety : Operation -> option OperationSafety) : result RetryPolicy :=
  if max_attempts <? 1 then Err ValueError
  else if Qle_bool base_delay 0 || Qle_bool max_delay 0 then Err ValueError
  else Ok {| rp_max_attempts := max_attempts; rp_base_delay := base_delay; rp_max_delay := max_delay;
             rp_safety op := default (DEFAULT_OPERATION_SAFETY op) (operation_safety op) |}.

Definition should_retry (policy : RetryPolicy) (operation : Operation) (attempt : Z) (error : exn) : bool :=
  match rp_safety policy operation with
  | OperationSafety.UNSAFE_NEVER_AUTO_RETRY => false
  | OperationSafety.SAFE_TO_RETRY =>
      if rp_max_attempts policy <=? attempt then false
      else match error with
           | ExchangeAuthenticationError => false
           | ExchangeConnectionError | ExchangeTimeoutError | RateLimitExceededError => true
           | _ => false
           end
  end.

(** An exception with the [retry_after_seconds] a rate-limit error may carry. *)
Definition raised : Type := exn * option Q.

Definition Qmin_py (a b : Q) : Q := if Qle_bool a b then a else b.

Definition backoff_seconds (policy : RetryPolicy) (attempt : Z) (error : raised) : Q :=
  match error with
  | (RateLimitExceededError, Some s) => s
  | _ => Qmin_py (rp_base_delay policy * inject_Z (2 ^ (attempt - 1)))%Q (rp_max_delay policy)
  end.

(** The [while True] loop over a call that changes a state [S]: the state, the
    delays slept and the outcome. [None] when the fuel runs out, which it does
    not for [max_attempts] attempts. *)
Fixpoint execute_with_retry {S A} (fuel : nat) (fn : S -> S * (A + raised)) (operation : Operation)
    (policy : RetryPolicy) (attempt : Z) (sleeps : list Q) (s : S) : option (S * list Q * (A + raised)) :=
  match fuel with
  | O => None
  | Datatypes.S fuel =>
      let attempt := attempt + 1 in
      match fn s with
      | (s, inl a) => Some (s, sleeps, inl a)
      | (s, inr exc) =>
          if negb (is_adapter_error exc.1) then Some (s, sleeps, inr exc)
          else if negb (should_retry policy operation attempt exc.1) then Some (s, sleeps, inr exc)
          else execute_with_retry fuel fn operation policy attempt
                 (sleeps ++ [backoff_seconds policy attempt exc]) s
      end
  end.

(** ** Properties *)

Section adapter_facts.
Context {H : Type} `{AdapterHooks H}.

Lemma dget_dset_new {V} k (v : V) d : dget k d = None -> cache_store k v d = (dset k v d, v).
Proof. intros Hn. unfold cache_store, din. rewrite Hn. by rewrite dget_dset_eq. Qed.

(** One mutation: from the cache, or audited, transmitted once and cached. *)
Lemma mutation_spec id action payload (tr : M H CachedResult) self :
  let '(self', r) := mutation id action payload tr self in
  match dget id (ea_idempotency self) with
  | Some v => self' = self /\ r = Ok v
  | None =>
      ea_hooks self' = (tr (ea_hooks self)).1 /\ r = (tr (ea_hooks self)).2 /\
      (exists now, ea_audit_log self' = ea_audit_log self ++
        [compute_audit_record id action (ea_exchange_name self) (ea_adapter_version self) now id payload]) /\
      ea_idempotency self' = match r with Ok v => dset id v (ea_idempotency self) | Err _ => ea_idempotency self end
  end.
Proof.
  unfold mutation, cache_get. destruct (dget id (ea_idempotency self)) as [v|] eqn:E; [done|].
  unfold record_audit. destruct (match ea_clock self with t :: ts => (t, ts) | [] => ("", []) end) as [now clock].
  cbn [ea_hooks]. destruct (tr (ea_hooks self)) as [h [v|x]]; cbn [ea_idempotency set_hooks].
  - rewrite dget_dset_new //. split_and!; try done. by exists now.
  - split_and!; try done. by exists now.
Qed.
End adapter_facts.

(** The four mutations as calls. *)
Inductive call :=
  | Place (r : OrderRequest) | Amend (r : AmendRequest) | Cancel (r : CancelRequest) | CancelAll (r : CancelAllRequest).

Definition call_id (c : call) : string :=
  match c with
  | Place r => or_client_order_id r | Amend r => am_request_id r
  | Cancel r => cn_request_id r | CancelAll r => ca_request_id r
  end.

Section calls.
Context {H : Type} `{AdapterHooks H}.
Implicit Types (a : ExchangeAdapter H).

Definition do_call (c : call) : M (ExchangeAdapter H) CachedResult :=
  match c with
  | Place r => place_order r | Amend r => amend_order r | Cancel r => cancel_order r | CancelAll r => cancel_all r
  end.

(** A run of calls, with the ids that were transmitted and whether the
    transmission succeeded. *)
Fixpoint run_calls (cs : list call) (a : ExchangeAdapter H) : ExchangeAdapter H * list (string * bool) :=
  match cs with
  | [] => (a, [])
  | c :: cs =>
      let '(a', r) := do_call c a in
      let '(a'', tr) := run_calls cs a' in
      (a'', match dget (call_id c) (ea_idempotency a) with
            | Some _ => tr
            | None => (call_id c, is_ok r) :: tr
            end)
  end.

Lemma do_call_spec c a :
  let '(a', r) := do_call c a in
  match dget (call_id c) (ea_idempotency a) with
  | Some v => a' = a /\ r = Ok v
  | None => (exists rec, ea_audit_log a' = ea_audit_log a ++ [rec] /\ au_request_id rec = call_id c) /\
      ea_idempotency a' = match r with Ok v => dset (call_id c) v (ea_idempotency a) | Err _ => ea_idempotency a end
  end.
Proof.
  assert (Hm : forall id action payload (tr : M H CachedResult), 
    let '(a', r) := mutation id action payload tr a in
    match dget id (ea_idempotency a) with
    | Some v => a' = a /\ r = Ok v
    | None => (exists rec, ea_audit_log a' = ea_audit_log a ++ [rec] /\ au_request_id rec = id) /\
        ea_idempotency a' = match r with Ok v => dset id v (ea_idempotency a) | Err _ => ea_idempotency a end
    end).
  { intros id action payload tr. pose proof (mutation_spec id action payload tr a) as Hs.
    destruct (mutation _ _ _ _ _) as [a' r]. destruct (dget _ _); [done|].
    destruct Hs as (_ & _ & [now Hl] & Hc). split; [|done]. eexists. by split. }
  destruct c; apply Hm.
Qed.

(** Answers stay in the cache. *)
Lemma do_call_cached c a k v : dget k (ea_idempotency a) = Some v -> dget k (ea_idempotency (do_call c a).1) = Some v.
Proof.
  intros Hk. pose proof (do_call_spec c a) as Hs. destruct (do_call c a) as [a' r]. cbn [fst].
  destruct (dget (call_id c) (ea_idempotency a)) as [w|] eqn:E.
  - by destruct Hs as [-> _].
  - destruct Hs as [_ ->]. destruct r; [|done]. rewrite dget_dset_ne //. intros ->. congruence.
Qed.

Lemma run_calls_cached cs a k v : dget k (ea_idempotency a) = Some v ->
  dget k (ea_idempotency (run_calls cs a).1) = Some v /\ k ∉ (run_calls cs a).2.*1.
Proof.
  revert a; induction cs as [|c cs IH]; intros a Hk; cbn [run_calls]; [split; [done|apply not_elem_of_nil]|].
  pose proof (do_call_cached c a k v Hk) as Hk'. destruct (do_call c a) as [a' r]. cbn [fst] in Hk'.
  specialize (IH a' Hk'). destruct (run_calls cs a') as [a'' tr]. cbn [fst snd] in *.
  split; [apply IH|]. destruct (dget (call_id c) (ea_idempotency a)) eqn:E; [apply IH|].
  rewrite fmap_cons not_elem_of_cons. split; [cbn; intros ->; congruence|apply IH].
Qed.

(** C25: requests are idempotent at the adapter. Once a mutation with some id has
    succeeded, whatever calls come after it and whatever the exchange answers
    them, every further mutation carrying that id returns the stored result,
    leaves the adapter untouched (no audit record, no transmission), and its id
    is never transmitted again. *)
Theorem adapter_idempotent c a a1 v cs c' :
  do_call c a = (a1, Ok v) -> call_id c' = call_id c ->
  do_call c' (run_calls cs a1).1 = ((run_calls cs a1).1, Ok v) /\
  call_id c ∉ (run_calls cs a1).2.*1.
Proof.
  intros Hc Hid. pose proof (do_call_spec c a) as Hs. rewrite Hc in Hs.
  assert (H1 : dget (call_id c) (ea_idempotency a1) = Some v).
  { destruct (dget (call_id c) (ea_idempotency a)) as [w|] eqn:E.
    - destruct Hs as [-> [= <-]]. done.
    - destruct Hs as [_ ->]. by rewrite dget_dset_eq. }
  destruct (run_calls_cached cs a1 _ _ H1) as [H2 Hn]. split; [|done].
  pose proof (do_call_spec c' (run_calls cs a1).1) as Hs'. rewrite Hid H2 in Hs'.
  destruct (do_call c' _) as [a2 r]. by destruct Hs' as [-> ->].
Qed.

(** Audit before transmission. In any run of calls the audit log grows by
    exactly one record per transmission, in order, with the transmitted
    request's id, whether or not the transmission succeeds; calls answered from
    the cache add none. *)
Theorem audited_transmissions cs a :
  exists recs, ea_audit_log (run_calls cs a).1 = ea_audit_log a ++ recs /\
    au_request_id <$> recs = (run_calls cs a).2.*1.
Proof.
  revert a; induction cs as [|c cs IH]; intros a; cbn [run_calls].
  - exists []. by rewrite app_nil_r.
  - pose proof (do_call_spec c a) as Hs. destruct (do_call c a) as [a' r]. destruct (IH a') as (recs & Hl & Hids).
    destruct (run_calls cs a') as [a'' tr]. cbn [fst snd] in *.
    destruct (dget (call_id c) (ea_idempotency a)) as [w|].
    + destruct Hs as [-> _]. by exists recs.
    + destruct Hs as [(rec & Ha & Hid) _]. exists (rec :: recs). rewrite Hl Ha -app_assoc. split; [done|].
      by rewrite !fmap_cons Hid Hids.
Qed.
End calls.

(** ** The retry loop *)

Section retry.
Context {S A : Type} (fn : S -> S * (A + raised)) (operation : Operation) (policy : RetryPolicy).

Lemma retry_total fuel attempt sleeps s :
  0 <= attempt -> rp_max_attempts policy <= attempt + Z.of_nat fuel -> (0 < fuel)%nat ->
  exists s' sl out, execute_with_retry fuel fn operation policy attempt sleeps s = Some (s', sleeps ++ sl, out) /\
    Z.of_nat (length sl) <= Z.max 0 (rp_max_attempts policy - attempt - 1).
Proof.
  revert attempt sleeps s; induction fuel as [|fuel IH]; intros attempt sleeps s Ha Hf H0; [lia|].
  cbn [execute_with_retry]. destruct (fn s) as [s1 [a|exc]].
  { exists s1, [], (inl a). rewrite app_nil_r. split; [done|]. simpl. lia. }
  destruct (is_adapter_error exc.1); cbn [negb]; [|exists s1, [], (inr exc); rewrite app_nil_r; split; [done|]; simpl; lia].
  destruct (should_retry policy operation (attempt + 1) exc.1) eqn:Hr; cbn [negb];
    [|exists s1, [], (inr exc); rewrite app_nil_r; split; [done|]; simpl; lia].
  assert (Hlt : attempt + 1 < rp_max_attempts policy).
  { revert Hr. unfold should_retry. destruct (rp_safety policy operation); [|done].
    by destruct (Z.leb_spec (rp_max_attempts policy) (attempt + 1)). }
  destruct (IH (attempt + 1) (sleeps ++ [backoff_seconds policy (attempt + 1) exc]) s1) as (s' & sl & out & He & Hl); [lia..|].
  exists s', (backoff_seconds policy (attempt + 1) exc :: sl), out. rewrite He -app_assoc. split; [done|]. cbn [length]. lia.
Qed.
End retry.

(** Retrying terminates and never repeats a mutation. With at least one
    attempt allowed the loop ends within [max_attempts] calls, so it sleeps
    fewer than [max_attempts] times; and under the default classification a
    place, amend or cancel operation is called exactly once, with no sleep,
    whatever error it raises. *)
Theorem retry_bounded {S A} (fn : S -> S * (A + raised)) operation max_attempts base_delay max_delay policy s :
  mk_RetryPolicy max_attempts base_delay max_delay (fun _ => None) = Ok policy ->
  exists s' sl out,
    execute_with_retry (Z.to_nat max_attempts) fn operation policy 0 [] s = Some (s', sl, out) /\
    Z.of_nat (length sl) < max_attempts /\
    (_MUTATIONS operation = true -> s' = (fn s).1 /\ out = (fn s).2 /\ sl = []).
Proof.
  unfold mk_RetryPolicy. destruct (Z.ltb_spec max_attempts 1) as [|Hm]; [done|].
  destruct (_ || _); [done|]. intros [= <-]. set (policy := {| rp_max_attempts := _ |}).
  destruct (retry_total fn operation policy (Z.to_nat max_attempts) 0 [] s) as (s' & sl & out & He & Hl);
    [lia|cbn; lia|lia|].
  rewrite app_nil_l in He. exists s', sl, out. split; [done|]. split; [cbn [rp_max_attempts policy] in Hl; lia|].
  intros Hmut. destruct (Z.to_nat max_attempts) as [|fuel] eqn:Ef; [lia|].
  cbn [execute_with_retry] in He. destruct (fn s) as [s1 [a|exc]]; [by injection He as <- <- <-|].
  assert (Hno : should_retry policy operation (0 + 1) exc.1 = false).
  { unfold should_retry. cbn [policy rp_safety default]. unfold DEFAULT_OPERATION_SAFETY. by rewrite Hmut. }
  rewrite Hno in He. cbn [negb] in He. destruct (is_adapter_error exc.1); by injection He as <- <- <-.
Qed.

Lemma retry_bounded_witness :
  exists s' sl out,
    execute_with_retry 3 (fun n : Z => (n + 1, @inr Z raised (ExchangeTimeoutError, None))) Operation.PLACE_ORDER
      {| rp_max_attempts := 3; rp_base_delay := 1 # 2; rp_max_delay := 10;
         rp_safety := DEFAULT_OPERATION_SAFETY |} 0 [] 0 = Some (s', sl, out) /\
    Z.of_nat (length sl) < 3 /\
    (_MUTATIONS Operation.PLACE_ORDER = true -> s' = 1 /\ out = inr (ExchangeTimeoutError, None) /\ sl = []).
Proof.
  exact (retry_bounded (fun n : Z => (n + 1, @inr Z raised (ExchangeTimeoutError, None))) Operation.PLACE_ORDER
    3 (1 # 2) 10 _ 0 eq_refl).
Defined.
