(* ===== verification/MockExchange.v ===== *)
(** * The in-memory exchange (src/exchange_adapter/mock_adapter.py)

    The concrete adapter the repository ships: its hooks, queries and fixture
    helpers over in-memory dictionaries. The signing boundary (whose signatures
    it discards) and the answers of the clock are part of the state. It gives
    the [Exchange] instance the managers' witnesses run on. *)

From Stdlib Require Import ssreflect ZArith Lia Ascii String.
From stdpp Require Import base strings numbers gmap sets list.
From S2P Require Import Prelude PyText PyDict PyBytes PyJson PyDecimal ExchangeModels ExchangeAdapter.
From S2P Require SecretsBoundary.
#[local] Open Scope Z_scope.

Definition DEFAULT_MOCK_CAPABILITIES : ExchangeCapabilities :=
  {| supports_reduce_only := true; supports_post_only := true; supports_ioc := true; supports_fok := false;
     supports_market_orders := true; supports_limit_orders := true; supports_trigger_orders := false;
     supports_partial_fill_notifications := true; supports_funding_rate := true;
     supports_cross_margin := true; supports_isolated_margin := true; cap_extra := [] |}.

Record MockExchange := {
  mk_capabilities : ExchangeCapabilities;
  mk_connected : bool;
  mk_orders : list (string * Order);
  mk_positions : list (string * Position);
  mk_balances : list (string * Balance);
  mk_mark_prices : list (string * MarkPrice);
  mk_funding_rates : list (string * FundingRate);
  mk_fills : list Fill;
  mk_next_order_seq : Z;
  mk_stale_snapshot : bool;
  mk_sequence_gap : bool;
  mk_fail_next : list (string * exn);
  mk_signing : SecretsBoundary.SigningBoundary;
  mk_signing_key_ref : string;
  (* the environment: the clock's next readings *)
  mk_clock : list string
}.

Definition mock_init (signing_boundary : SecretsBoundary.SigningBoundary) (signing_key_ref : string)
    (capabilities : ExchangeCapabilities) (clock : list string) : MockExchange :=
  {| mk_capabilities := capabilities; mk_connected := false; mk_orders := []; mk_positions := [];
     mk_balances := []; mk_mark_prices := []; mk_funding_rates := []; mk_fills := []; mk_next_order_seq := 0;
     mk_stale_snapshot := false; mk_sequence_gap := false; mk_fail_next := [];
     mk_signing := signing_boundary; mk_signing_key_ref := signing_key_ref; mk_clock := clock |}.

(** ** Field updates *)

Definition with_connected b s := {| mk_capabilities := mk_capabilities s; mk_connected := b;
  mk_orders := mk_orders s; mk_positions := mk_positions s; mk_balances := mk_balances s;
  mk_mark_prices := mk_mark_prices s; mk_funding_rates := mk_funding_rates s; mk_fills := mk_fills s;
  mk_next_order_seq := mk_next_order_seq s; mk_stale_snapshot := mk_stale_snapshot s;
  mk_sequence_gap := mk_sequence_gap s; mk_fail_next := mk_fail_next s; mk_signing := mk_signing s;
  mk_signing_key_ref := mk_signing_key_ref s; mk_clock := mk_clock s |}.
Definition with_orders o s := {| mk_capabilities := mk_capabilities s; mk_connected := mk_connected s;
  mk_orders := o; mk_positions := mk_positions s; mk_balances := mk_balances s;
  mk_mark_prices := mk_mark_prices s; mk_funding_rates := mk_funding_rates s; mk_fills := mk_fills s;
  mk_next_order_seq := mk_next_order_seq s; mk_stale_snapshot := mk_stale_snapshot s;
  mk_sequence_gap := mk_sequence_gap s; mk_fail_next := mk_fail_next s; mk_signing := mk_signing s;
  mk_signing_key_ref := mk_signing_key_ref s; mk_clock := mk_clock s |}.
Definition with_seq n s := {| mk_capabilities := mk_capabilities s; mk_connected := mk_connected s;
  mk_orders := mk_orders s; mk_positions := mk_positions s; mk_balances := mk_balances s;
  mk_mark_prices := mk_mark_prices s; mk_funding_rates := mk_funding_rates s; mk_fills := mk_fills s;
  mk_next_order_seq := n; mk_stale_snapshot := mk_stale_snapshot s;
  mk_sequence_gap := mk_sequence_gap s; mk_fail_next := mk_fail_next s; mk_signing := mk_signing s;
  mk_signing_key_ref := mk_signing_key_ref s; mk_clock := mk_clock s |}.
Definition with_fills f s := {| mk_capabilities := mk_capabilities s; mk_connected := mk_connected s;
  mk_orders := mk_orders s; mk_positions := mk_positions s; mk_balances := mk_balances s;
  mk_mark_prices := mk_mark_prices s; mk_funding_rates := mk_funding_rates s; mk_fills := f;
  mk_next_order_seq := mk_next_order_seq s; mk_stale_snapshot := mk_stale_snapshot s;
  mk_sequence_gap := mk_sequence_gap s; mk_fail_next := mk_fail_next s; mk_signing := mk_signing s;
  mk_signing_key_ref := mk_signing_key_ref s; mk_clock := mk_clock s |}.
Definition with_market pos bal mps frs s := {| mk_capabilities := mk_capabilities s; mk_connected := mk_connected s;
  mk_orders := mk_orders s; mk_positions := pos; mk_balances := bal;
  mk_mark_prices := mps; mk_funding_rates := frs; mk_fills := mk_fills s;
  mk_next_order_seq := mk_next_order_seq s; mk_stale_snapshot := mk_stale_snapshot s;
  mk_sequence_gap := mk_sequence_gap s; mk_fail_next := mk_fail_next s; mk_signing := mk_signing s;
  mk_signing_key_ref := mk_signing_key_ref s; mk_clock := mk_clock s |}.
Definition with_simulated stale gap fail s := {| mk_capabilities := mk_capabilities s; mk_connected := mk_connected s;
  mk_orders := mk_orders s; mk_positions := mk_positions s; mk_balances := mk_balances s;
  mk_mark_prices := mk_mark_prices s; mk_funding_rates := mk_funding_rates s; mk_fills := mk_fills s;
  mk_next_order_seq := mk_next_order_seq s; mk_stale_snapshot := stale;
  mk_sequence_gap := gap; mk_fail_next := fail; mk_signing := mk_signing s;
  mk_signing_key_ref := mk_signing_key_ref s; mk_clock := mk_clock s |}.
Definition with_env clock signing s := {| mk_capabilities := mk_capabilities s; mk_connected := mk_connected s;
  mk_orders := mk_orders s; mk_positions := mk_positions s; mk_balances := mk_balances s;
  mk_mark_prices := mk_mark_prices s; mk_funding_rates := mk_funding_rates s; mk_fills := mk_fills s;
  mk_next_order_seq := mk_next_order_seq s; mk_stale_snapshot := mk_stale_snapshot s;
  mk_sequence_gap := mk_sequence_gap s; mk_fail_next := mk_fail_next s; mk_signing := signing;
  mk_signing_key_ref := mk_signing_key_ref s; mk_clock := clock |}.

(** ** Fixture helpers *)

Definition simulate_disconnect : MockExchange -> MockExchange := with_connected false.
Definition simulate_stale_snapshot (stale : bool) (s : MockExchange) : MockExchange :=
  with_simulated stale (mk_sequence_gap s) (mk_fail_next s) s.
Definition simulate_sequence_gap (gap : bool) (s : MockExchange) : MockExchange :=
  with_simulated (mk_stale_snapshot s) gap (mk_fail_next s) s.
Definition fail_next (method_name : string) (e : exn) (s : MockExchange) : MockExchange :=
  with_simulated (mk_stale_snapshot s) (mk_sequence_gap s) (dset method_name e (mk_fail_next s)) s.
Definition set_position (p : Position) (s : MockExchange) : MockExchange :=
  with_market (dset (sym_value (po_symbol p)) p (mk_positions s)) (mk_balances s) (mk_mark_prices s) (mk_funding_rates s) s.
Definition set_balance (b : Balance) (s : MockExchange) : MockExchange :=
  with_market (mk_positions s) (dset (sym_value (ba_asset b)) b (mk_balances s)) (mk_mark_prices s) (mk_funding_rates s) s.
Definition set_mark_price (p : MarkPrice) (s : MockExchange) : MockExchange :=
  with_market (mk_positions s) (mk_balances s) (dset (sym_value (mp_symbol p)) p (mk_mark_prices s)) (mk_funding_rates s) s.
Definition set_funding_rate (r : FundingRate) (s : MockExchange) : MockExchange :=
  with_market (mk_positions s) (mk_balances s) (mk_mark_prices s) (dset (sym_value (fr_symbol r)) r (mk_funding_rates s)) s.

Definition _maybe_raise (method_name : string) : M MockExchange unit := fun s =>
  match dget method_name (mk_fail_next s) with
  | Some e => (with_simulated (mk_stale_snapshot s) (mk_sequence_gap s) (dpop method_name (mk_fail_next s)) s, Err e)
  | None => (s, Ok tt)
  end.

Definition _require_connected : M MockExchange unit := fun s =>
  (s, if mk_connected s then Ok tt else Err ExchangeConnectionError).

(** [_now()] *)
Definition now : M MockExchange string := fun s =>
  match mk_clock s with
  | t :: ts => (with_env ts (mk_signing s) s, Ok t)
  | [] => (s, Ok "")
  end.

(** [self._signing.sign(self._signing_key_ref, purpose, payload.encode("utf-8"))],
    its signature unused. *)
Definition sign (purpose : SecretsBoundary.SigningPurpose) (payload : string) : M MockExchange unit := fun s =>
  (s, _ ← SecretsBoundary.sign (mk_signing s) (mk_signing_key_ref s) purpose (utf8 payload); Ok tt).

(** [f"{value}"] of a decimal or [None]. *)
Definition opt_dec_str (value : option decimal) : string := match value with Some d => dec_str d | None => "None" end.

(** ** Connection and reads *)

Definition health : M MockExchange HealthStatus :=
  _maybe_raise "health";;
  s ← get;
  t ← now;
  let state := if negb (mk_connected s) then ConnectionState.DISCONNECTED
               else if mk_sequence_gap s || mk_stale_snapshot s then ConnectionState.DEGRADED
               else ConnectionState.CONNECTED in
  mret {| hs_connection_state := state; hs_websocket_connected := mk_connected s;
          hs_rest_reachable := mk_connected s;
          hs_last_message_age_ms := Some (if mk_stale_snapshot s then dint 60000 else d0);
          hs_sequence_gap_detected := mk_sequence_gap s; hs_checked_at_utc := t |}.

Definition connect : M MockExchange HealthStatus :=
  _maybe_raise "connect";;
  sign SecretsBoundary.SigningPurpose.AUTH "connect";;
  modify (with_connected true);;
  health.

Definition disconnect : M MockExchange unit := modify (with_connected false).

Definition get_positions : M MockExchange (list Position) :=
  _maybe_raise "get_positions";;
  _require_connected;;
  s ← get;
  if mk_stale_snapshot s then raise StaleSnapshotError
  else if mk_sequence_gap s then raise SequenceGapError
  else mret (dvalues (mk_positions s)).

Definition mock_get_orders : M MockExchange (list Order) :=
  _maybe_raise "get_orders";;
  _require_connected;;
  s ← get;
  mret (dvalues (mk_orders s)).

Definition get_balances : M MockExchange (list Balance) :=
  _maybe_raise "get_balances";;
  _require_connected;;
  s ← get;
  mret (dvalues (mk_balances s)).

Definition get_mark_price (symbol : Symbol) : M MockExchange MarkPrice :=
  _maybe_raise "get_mark_price";;
  _require_connected;;
  s ← get;
  lift (of_option ExchangeAdapterError (dget (sym_value symbol) (mk_mark_prices s))).

Definition get_funding_rate (symbol : Symbol) : M MockExchange FundingRate :=
  _maybe_raise "get_funding_rate";;
  _require_connected;;
  s ← get;
  if negb (supports_funding_rate (mk_capabilities s)) then raise ExchangeAdapterError
  else lift (of_option ExchangeAdapterError (dget (sym_value symbol) (mk_funding_rates s))).

Definition get_order_status (exchange_order_id : string) : M MockExchange Order :=
  _maybe_raise "get_order_status";;
  _require_connected;;
  s ← get;
  lift (of_option OrderUnknownError (dget exchange_order_id (mk_orders s))).

Definition get_fills (since_utc : option string) : M MockExchange (list Fill) :=
  _maybe_raise "get_fills";;
  _require_connected;;
  s ← get;
  mret (match since_utc with
        | None => mk_fills s
        | Some since => List.filter (fun f => String.leb since (fl_timestamp_utc f)) (mk_fills s)
        end).

(** [{p.symbol.value: p for p in positions}] *)
Definition by_symbol (ps : list Position) : list (string * Position) :=
  foldl (fun d p => dset (sym_value (po_symbol p)) p d) [] ps.

Definition quantity_or_zero (p : option Position) : decimal :=
  match p with Some p => po_quantity p | None => d0 end.

(** The discrepancies; the set's iteration order is unspecified and is taken to
    be the local symbols first. *)
Definition position_discrepancies (local_positions exchange_positions : list Position) : list string :=
  let local_by_symbol := by_symbol local_positions in
  let exch_by_symbol := by_symbol exchange_positions in
  let symbols := dkeys local_by_symbol ++
    List.filter (fun k => negb (din k local_by_symbol)) (dkeys exch_by_symbol) in
  flat_map (fun symbol_value =>
    let local_qty := quantity_or_zero (dget symbol_value local_by_symbol) in
    let exch_qty := quantity_or_zero (dget symbol_value exch_by_symbol) in
    if deqb local_qty exch_qty then []
    else [symbol_value +:+ ": local=" +:+ dec_str local_qty +:+ " exchange=" +:+ dec_str exch_qty]) symbols.

Definition reconcile (local_positions : list Position) : M MockExchange ReconciliationReport :=
  _maybe_raise "reconcile";;
  _require_connected;;
  s ← get;
  let exchange_positions := dvalues (mk_positions s) in
  let discrepancies := position_discrepancies local_positions exchange_positions in
  t ← now;
  mret {| rr_matches := (length discrepancies =? 0)%nat; rr_local_positions := local_positions;
          rr_exchange_positions := exchange_positions; rr_discrepancies := discrepancies;
          rr_checked_at_utc := t |}.

(** ** Transmission hooks *)

Definition _next_exchange_order_id : M MockExchange string := fun s =>
  let n := mk_next_order_seq s + 1 in (with_seq n s, Ok ("mock-order-" +:+ int_str n)).

Definition store_order (o : Order) : M MockExchange Order := fun s =>
  (with_orders (dset (default "" (o_exchange_order_id o)) o (mk_orders s)) s, Ok o).

Definition mock_place_order (request : OrderRequest) : M MockExchange Order :=
  _maybe_raise "place_order";;
  _require_connected;;
  s ← get;
  if bool_decide (or_order_type request = OrderType.MARKET) && negb (supports_market_orders (mk_capabilities s))
  then raise ExchangeRejectedOrderError else
  if bool_decide (or_order_type request = OrderType.LIMIT) && negb (supports_limit_orders (mk_capabilities s))
  then raise ExchangeRejectedOrderError else
  if or_reduce_only request && negb (supports_reduce_only (mk_capabilities s))
  then raise ExchangeRejectedOrderError else
  sign SecretsBoundary.SigningPurpose.ORDER (or_client_order_id request +:+ ":" +:+ sym_value (or_symbol request) +:+ ":" +:+ enum_value (or_side request) +:+ ":" +:+
    dec_str (or_quantity request));;
  t ← now;
  id ← _next_exchange_order_id;
  store_order {| o_client_order_id := or_client_order_id request; o_exchange_order_id := Some id;
    o_symbol := or_symbol request; o_side := or_side request; o_order_type := or_order_type request;
    o_quantity := or_quantity request; o_filled_quantity := d0; o_limit_price := or_limit_price request;
    o_status := OrderStatus.ACKNOWLEDGED; o_time_in_force := or_time_in_force request;
    o_reduce_only := or_reduce_only request; o_created_at_utc := t; o_updated_at_utc := t |}.

(** The order under its exchange id, or [OrderUnknownError]. *)
Definition known_order (exchange_order_id : string) : M MockExchange Order := fun s =>
  (s, of_option OrderUnknownError (dget exchange_order_id (mk_orders s))).

(** The fields an update keeps. *)
Definition replace_order (o : Order) (quantity filled_quantity : decimal) (limit_price : option decimal)
    (status : OrderStatus) (updated_at : string) : Order :=
  {| o_client_order_id := o_client_order_id o; o_exchange_order_id := o_exchange_order_id o;
     o_symbol := o_symbol o; o_side := o_side o; o_order_type := o_order_type o; o_quantity := quantity;
     o_filled_quantity := filled_quantity; o_limit_price := limit_price; o_status := status;
     o_time_in_force := o_time_in_force o; o_reduce_only := o_reduce_only o;
     o_created_at_utc := o_created_at_utc o; o_updated_at_utc := updated_at |}.

Definition mock_amend_order (request : AmendRequest) : M MockExchange Order :=
  _maybe_raise "amend_order";;
  _require_connected;;
  existing ← known_order (am_exchange_order_id request);
  sign SecretsBoundary.SigningPurpose.AMEND (am_request_id request +:+ ":" +:+ am_exchange_order_id request +:+ ":" +:+ opt_dec_str (am_new_quantity request) +:+ ":" +:+
    opt_dec_str (am_new_limit_price request));;
  t ← now;
  store_order (replace_order existing (default (o_quantity existing) (am_new_quantity request))
    (o_filled_quantity existing)
    (match am_new_limit_price request with Some p => Some p | None => o_limit_price existing end)
    (o_status existing) t).

Definition mock_cancel_order (request : CancelRequest) : M MockExchange Order :=
  _maybe_raise "cancel_order";;
  _require_connected;;
  existing ← known_order (cn_exchange_order_id request);
  sign SecretsBoundary.SigningPurpose.CANCEL (cn_request_id request +:+ ":" +:+ cn_exchange_order_id request);;
  t ← now;
  store_order (replace_order existing (o_quantity existing) (o_filled_quantity existing)
    (o_limit_price existing) OrderStatus.CANCELLED t).

Definition cancellable (request : CancelAllRequest) (o : Order) : bool :=
  negb (bool_decide (o_status o = OrderStatus.CANCELLED) || bool_decide (o_status o = OrderStatus.FILLED)
        || bool_decide (o_status o = OrderStatus.REJECTED)) &&
  match ca_symbol request with
  | Some s => String.eqb (sym_value (o_symbol o)) (sym_value s)
  | None => true
  end.

(** The loop over [list(self._orders.items())]. *)
Fixpoint cancel_each (request : CancelAllRequest) (items : list (string * Order)) : M MockExchange (list Order) :=
  match items with
  | [] => mret []
  | (order_id, order) :: items =>
      if cancellable request order then
        t ← now;
        let updated := replace_order order (o_quantity order) (o_filled_quantity order)
                         (o_limit_price order) OrderStatus.CANCELLED t in
        modify (fun s => with_orders (dset order_id updated (mk_orders s)) s);;
        rest ← cancel_each request items;
        mret (updated :: rest)
      else cancel_each request items
  end.

Definition mock_cancel_all (request : CancelAllRequest) : M MockExchange (list Order) :=
  _maybe_raise "cancel_all";;
  _require_connected;;
  sign SecretsBoundary.SigningPurpose.CANCEL (ca_request_id request +:+ ":" +:+ match ca_symbol request with Some s => sym_value s | None => "*" end);;
  s ← get;
  cancel_each request (mk_orders s).

Definition simulate_fill (exchange_order_id : string) (fill_quantity fill_price : decimal) : M MockExchange Order :=
  existing ← known_order exchange_order_id;
  let new_filled := dadd (o_filled_quantity existing) fill_quantity in
  let status := if dleb (o_quantity existing) new_filled then OrderStatus.FILLED else OrderStatus.PARTIALLY_FILLED in
  t ← now;
  let updated := replace_order existing (o_quantity existing) new_filled (o_limit_price existing) status t in
  modify (fun s => with_orders (dset exchange_order_id updated (mk_orders s)) s);;
  t' ← now;
  s ← get;
  let fill := {| fl_fill_id := "mock-fill-" +:+ int_str (Z.of_nat (length (mk_fills s)) + 1);
                 fl_client_order_id := o_client_order_id existing; fl_exchange_order_id := exchange_order_id;
                 fl_symbol := o_symbol existing; fl_side := o_side existing; fl_price := fill_price;
                 fl_quantity := fill_quantity; fl_fee := d0; fl_timestamp_utc := t' |} in
  modify (with_fills (mk_fills s ++ [fill]));;
  mret updated.

(** ** The adapter over these hooks *)

#[global] Instance mock_hooks : AdapterHooks MockExchange := {
  get_orders := mock_get_orders;
  transmit_place_order := mock_place_order;
  transmit_amend_order := mock_amend_order;
  transmit_cancel_order := mock_cancel_order;
  transmit_cancel_all := mock_cancel_all
}.

(** A query runs on the hooks' state. *)
Definition query {A} (m : M MockExchange A) : M (ExchangeAdapter MockExchange) A :=
  zoom ea_hooks set_hooks m.

#[global] Instance mock_exchange : Exchange (ExchangeAdapter MockExchange) := {
  ex_place_order r := x ← place_order r; lift (as_order x);
  ex_amend_order r := x ← amend_order r; lift (as_order x);
  ex_cancel_order r := x ← cancel_order r; lift (as_order x);
  ex_cancel_all r := x ← cancel_all r; lift (as_orders x);
  ex_find_order := find_order;
  ex_get_order_status id := query (get_order_status id);
  ex_get_fills since := query (get_fills since);
  ex_get_positions := query get_positions;
  ex_get_mark_price s := query (get_mark_price s);
  ex_reconcile ps := query (reconcile ps)
}.

(** A boundary with one secret, and a connected exchange with no orders. *)
Definition sample_boundary : SecretsBoundary.SigningBoundary :=
  {| SecretsBoundary.sb_engine_version := "1.0.0"; SecretsBoundary.sb_exchange_name := "mock"; SecretsBoundary.sb_expected_refs := ["key_v1"];
     SecretsBoundary.sb_backend :=
       {| SecretsBoundary.bk_env := []; SecretsBoundary.bk_materials := [("key_v1", utf8 "secret")]; SecretsBoundary.bk_loaded := true |};
     SecretsBoundary.sb_revoked := ∅ |}.
Definition mock_sample : ExchangeAdapter MockExchange :=
  {| ea_exchange_name := "mock"; ea_adapter_version := "1"; ea_idempotency := []; ea_audit_log := [];
     ea_clock := []; ea_hooks := with_connected true (mock_init sample_boundary "key_v1" DEFAULT_MOCK_CAPABILITIES []) |}.

(** ** Properties *)

Lemma dget_foldl_dset {V} (key : V -> string) ps d k :
  dget k (foldl (fun d p => dset (key p) p d) d ps) =
  match List.find (fun p => String.eqb k (key p)) (rev ps) with Some p => Some p | None => dget k d end.
Proof.
  revert d; induction ps as [|p ps IH]; intros d; [done|]. cbn [foldl rev]. rewrite IH.
  rewrite find_app. destruct (List.find _ (rev ps)); [done|]. cbn [List.find]. rewrite dget_dset.
  by destruct (String.eqb k (key p)).
Qed.

(** The quantity a list of positions gives a symbol: the last one wins. *)
Definition quantity_of (ps : list Position) (k : string) : decimal :=
  quantity_or_zero (List.find (fun p => String.eqb k (sym_value (po_symbol p))) (rev ps)).

Lemma quantity_by_symbol ps k : quantity_or_zero (dget k (by_symbol ps)) = quantity_of ps k.
Proof.
  unfold by_symbol, quantity_of. rewrite (dget_foldl_dset (fun p => sym_value (po_symbol p))).
  by destruct (List.find _ _).
Qed.

Lemma reconcile_inv local s s' rep : reconcile local s = (s', Ok rep) -> exists t,
  rep = {| rr_matches := (length (position_discrepancies local (dvalues (mk_positions s))) =? 0)%nat;
           rr_local_positions := local; rr_exchange_positions := dvalues (mk_positions s);
           rr_discrepancies := position_discrepancies local (dvalues (mk_positions s)); rr_checked_at_utc := t |}.
Proof.
  unfold reconcile, mbind, M_bind, _maybe_raise, _require_connected, get, now, mret, M_ret.
  destruct (dget "reconcile" (mk_fail_next s)); [done|]. destruct (mk_connected s); [|done].
  destruct (mk_clock s) as [|t ts]; intros [= _ <-]; by eexists.
Qed.

(** Reconciliation is exact. A report says the positions match precisely when
    the exchange and the local book give every symbol the same signed quantity,
    a symbol missing on one side counting as zero there. *)
Theorem reconcile_exact local s s' rep :
  reconcile local s = (s', Ok rep) ->
  rr_matches rep = true <->
  forall k, deqb (quantity_of local k) (quantity_of (dvalues (mk_positions s)) k) = true.
Proof.
  intros E. apply reconcile_inv in E as [t ->]. cbn [rr_matches].
  set (l := by_symbol local). set (x := by_symbol (dvalues (mk_positions s))).
  rewrite Nat.eqb_eq length_zero_iff_nil. unfold position_discrepancies. fold l x.
  set (syms := dkeys l ++ _).
  assert (Hsyms : forall k, k ∉ syms -> dget k l = None /\ dget k x = None).
  { intros k Hk. subst syms. rewrite not_elem_of_app in Hk. destruct Hk as [Hl Hx].
    apply dget_None in Hl. split; [done|]. apply dget_None. intros Hin. apply Hx.
    apply list_elem_of_In, filter_In. split; [by apply list_elem_of_In|]. unfold din. by rewrite Hl. }
  split.
  - intros Hnil k. rewrite -!quantity_by_symbol. fold l x.
    destruct (decide (k ∈ syms)) as [Hin|Hn].
    + apply list_elem_of_In in Hin. apply in_split in Hin as (l1 & l2 & E). rewrite E flat_map_app in Hnil.
      apply app_nil in Hnil as [_ Hnil]. cbn [flat_map] in Hnil.
      by destruct (deqb _ _).
    + destruct (Hsyms k Hn) as [-> ->]. reflexivity.
  - intros Hk. clear Hsyms. induction syms as [|k ks IH]; [done|]. cbn [flat_map].
    specialize (Hk k) as Hkk. rewrite -!quantity_by_symbol in Hkk. fold l x in Hkk. by rewrite Hkk.
Qed.

Lemma reconcile_exact_witness :
  match reconcile [] (ea_hooks mock_sample) with
  | (_, Ok rep) => rr_matches rep = true <-> forall k, deqb (quantity_of [] k)
       (quantity_of (dvalues (mk_positions (ea_hooks mock_sample))) k) = true
  | _ => False
  end.
Proof.
  destruct (reconcile [] (ea_hooks mock_sample)) as [s' [rep|e]] eqn:E.
  - exact (reconcile_exact [] (ea_hooks mock_sample) s' rep E).
  - vm_compute in E. discriminate E.
Defined.

Definition sample_request (id : string) (q : decimal) : OrderRequest :=
  {| or_client_order_id := id; or_symbol := {| sym_value := "BTC" |}; or_side := OrderSide.BUY;
     or_order_type := OrderType.MARKET; or_quantity := q; or_limit_price := None;
     or_time_in_force := TimeInForce.GTC; or_reduce_only := false |}.

Lemma adapter_idempotent_witness :
  match do_call (Place (sample_request "c1" (dint 2))) mock_sample with
  | (a1, Ok v) =>
      do_call (Place (sample_request "c1" (dint 5))) (run_calls [Place (sample_request "c2" d1)] a1).1
      = ((run_calls [Place (sample_request "c2" d1)] a1).1, Ok v) /\
      "c1" ∉ (run_calls [Place (sample_request "c2" d1)] a1).2.*1
  | _ => False
  end.
Proof.
  destruct (do_call (Place (sample_request "c1" (dint 2))) mock_sample) as [a1 [v|e]] eqn:E.
  - exact (adapter_idempotent (Place (sample_request "c1" (dint 2))) mock_sample a1 v
      [Place (sample_request "c2" d1)] (Place (sample_request "c1" (dint 5))) E eq_refl).
  - lazy in E. discriminate E.
Defined.
