(* ===== verification/Journal.v ===== *)
(** * Components whose state is rebuilt from their events

    A position or portfolio manager is a state over the event log: it appends an
    event, applies it to the state, and a new instance applies its own events in
    order. What such a component needs for a restart to rebuild it, stated once. *)

From Stdlib Require Import ssreflect ZArith Lia Ascii String.
From stdpp Require Import base strings numbers gmap sets list.
From S2P Require Import Prelude PyText PyDict PyBytes PyJson PyJsonFacts EventStore EventStoreFacts EventLog.
#[local] Open Scope Z_scope.

(** A component's state [S], with what applying an event returns. *)
Class Journaled (S R : Type) := {
  j_own : Event -> bool;
  j_key : string -> string;
  j_apply : Event -> M S R;
  j_applied : S -> gset Z;
  (** Live states and the states rebuilt from the log. *)
  j_sim : S -> S -> Prop;
  j_key_inj k k' : j_key k = j_key k' -> k = k';
  j_sim_refl s : j_sim s s;
  j_sim_applied a b : j_sim a b -> j_applied a = j_applied b;
  j_apply_sim e : simulates j_sim (j_apply e);
  j_apply_dup e s : ev_id e ∈ j_applied s -> (j_apply e s).1 = s;
  j_apply_new e s : ev_id e ∉ j_applied s -> j_applied (j_apply e s).1 = {[ev_id e]} ∪ j_applied s
}.

Section journal.
Context {S R : Type} (J : Journaled S R).
Context {L : Type} `{EventLog L}.
Implicit Types (w : L * S) (es : list Event) (m : S).

(** One step of a constructor's loop. *)
Definition replay_step (e : Event) : M S unit := if j_own e then _ ← j_apply e; mret tt else mret tt.
Definition replay_all (es : list Event) : M S unit := for_each replay_step es.

Definition on_log {X} (m : M L X) : M (L * S) X := zoom fst (fun l w => (l, w.2)) m.
Definition on_state {X} (m : M S X) : M (L * S) X := zoom snd (fun s w => (w.1, s)) m.

(** [self._apply_event(self._persist(...))] *)
Definition record (ty : EventType) (payload : list (string * json)) (key : string) : M (L * S) R :=
  event ← on_log (log_append ty payload (Some (j_key key)));
  on_state (j_apply event).

(** [m] is what the log rebuilds, starting from [s0]. *)
Record rebuilds (s0 : S) es m : Prop := {
  rb_replay : replay_all es s0 = (m, Ok tt);
  rb_own e : e ∈ es -> j_own e = true -> ev_id e ∈ j_applied m;
  rb_applied id : id ∈ j_applied m -> exists e, e ∈ es /\ ev_id e = id;
  rb_keys e k : e ∈ es -> key_of e = Some (j_key k) -> j_own e = true
}.

Lemma journal_replay_other e m : j_own e = false -> replay_step e m = (m, Ok tt).
Proof. intros He. unfold replay_step. by rewrite He. Qed.

Lemma rebuilds_other s0 es m e : rebuilds s0 es m -> j_own e = false ->
  (forall k, key_of e <> Some (j_key k)) -> rebuilds s0 (es ++ [e]) m.
Proof.
  intros [Hr Ho Ha Hk] He Hn. split.
  - unfold replay_all in *. by rewrite (for_each_snoc _ _ _ _ _ Hr) journal_replay_other.
  - intros x [Hx|Hx%list_elem_of_singleton]%elem_of_app Hox; [by apply Ho|congruence].
  - intros id Hid. destruct (Ha id Hid) as (x & Hx & Hxe). exists x. split; [apply elem_of_app; by left|done].
  - intros x k [Hx|Hx%list_elem_of_singleton]%elem_of_app Hkx; [by eapply Hk|]. subst. by destruct (Hn k).
Qed.

Lemma rebuilds_own s0 es m m' r e : rebuilds s0 es m -> j_own e = true -> ev_id e ∉ j_applied m ->
  j_apply e m = (m', Ok r) -> rebuilds s0 (es ++ [e]) m'.
Proof.
  intros [Hr Ho Ha Hk] He Hid Hap. pose proof (j_apply_new e m Hid) as Happ. rewrite Hap in Happ. cbn [fst] in Happ. split.
  - unfold replay_all in *. rewrite (for_each_snoc _ _ _ _ _ Hr). unfold replay_step. rewrite He run_bind. by rewrite Hap.
  - intros x [Hx|Hx%list_elem_of_singleton]%elem_of_app Hox; rewrite Happ.
    + apply elem_of_union. right. by apply Ho.
    + subst. apply elem_of_union. left. by apply elem_of_singleton.
  - intros id. rewrite Happ. intros [->%elem_of_singleton|Hin]%elem_of_union.
    + exists e. split; [apply elem_of_app; right; by left|done].
    + destruct (Ha id Hin) as (x & Hx & Hxe). exists x. split; [apply elem_of_app; by left|done].
  - intros x k' [Hx|Hx%list_elem_of_singleton]%elem_of_app Hkx; [by eapply Hk|]. by subst.
Qed.

(** The outcomes of recording an event. *)
Inductive recorded (payload : list (string * json)) (key : string) w : (L * S) -> result R -> Prop :=
  | rec_err l x : log_events l = log_events w.1 -> x ∈ [MalformedEventError; OSError; StructError] ->
      recorded payload key w (l, w.2) (Err x)
  | rec_old l e r : log_events l = log_events w.1 -> e ∈ log_events w.1 -> key_of e = Some (j_key key) ->
      r = (j_apply e w.2).2 -> recorded payload key w (l, w.2) r
  | rec_new l e : log_events l = log_events w.1 ++ [e] -> ev_payload e = JObj payload ->
      key_of e = Some (j_key key) -> ev_id e ∉ j_applied w.2 ->
      (forall x, x ∈ log_events w.1 -> key_of x <> Some (j_key key)) ->
      recorded payload key w (l, (j_apply e w.2).1) (j_apply e w.2).2.

(** The invariant of such a component: [X] is what it says about its log and the
    rebuilt state, beyond agreeing with it. *)
Section inv.
Context (s0 : S) (X : list Event -> S -> Prop) (es0 : list Event).

Record jinv w : Prop := {
  ji_log : log_ok w.1;
  ji_state : exists m, rebuilds s0 (log_events w.1) m /\ j_sim w.2 m /\ X (log_events w.1) m;
  ji_grows : es0 `prefix_of` log_events w.1
}.

(** Same events, related state. *)
Lemma jinv_same w l s : jinv w -> log_ok l -> log_events l = log_events w.1 ->
  (forall m, j_sim w.2 m -> j_sim s m) -> jinv (l, s).
Proof. intros [_ (m & Hr & Hs & HX) Hg] Hl He Hsim. split; cbn [fst snd]; rewrite ?He //. exists m. auto. Qed.

Lemma jinv_other w l e : jinv w -> log_ok l -> log_events l = log_events w.1 ++ [e] -> j_own e = false ->
  (forall k, key_of e <> Some (j_key k)) ->
  (forall es m, X es m -> X (es ++ [e]) m) -> jinv (l, w.2).
Proof.
  intros [_ (m & Hr & Hs & HX) Hg] Hl He Ho Hk HXe. split; cbn [fst snd]; rewrite ?He //; [|by apply prefix_app_r].
  exists m. split; [by apply rebuilds_other|auto].
Qed.

End inv.

Lemma jinv_weaken s0 (X X' : list Event -> S -> Prop) es0 w : (forall es m, X es m -> X' es m) -> jinv s0 X es0 w -> jinv s0 X' es0 w.
Proof. intros HX [Hl (m & Hr & Hs & Hx) Hg]. split; [done| |done]. exists m. auto. Qed.

(** Recording an event: [X] is known before, [X'] holds after. *)
Lemma journal_record_spec s0 (X X' : list Event -> S -> Prop) es0 ty payload key w :
  (forall es m, X es m -> X' es m) ->
  jinv s0 X es0 w -> json_wf (JObj payload) = true ->
  (forall e, ev_payload e = JObj payload -> j_own e = true) ->
  (forall e m, ev_payload e = JObj payload -> key_of e = Some (j_key key) -> ev_id e ∉ j_applied m ->
     j_sim w.2 m -> X (log_events w.1) m -> rebuilds s0 (log_events w.1) m ->
     exists r, (j_apply e m).2 = Ok r /\ X' (log_events w.1 ++ [e]) (j_apply e m).1) ->
  let m := record ty payload key w in
  recorded payload key w m.1 m.2 /\ jinv s0 X' es0 m.1.
Proof.
  intros HXX Hi Hwf Hown Hap. pose proof (jinv_weaken _ _ _ _ _ HXX Hi) as Hi'. destruct w as [l s]. destruct (Hi) as [Hl (m & Hr & Hs & HX) Hg]. cbn [fst snd] in *.
  unfold record. rewrite run_bind. unfold on_log, zoom. cbn [fst snd].
  pose proof (log_append_ok ty payload (Some (j_key key)) l Hl Hwf) as Hl'.
  destruct (log_append ty payload _ l) as [l' r] eqn:Ea. cbn [fst] in Hl'.
  apply log_append_cases in Ea; [|done]. remember (log_events l') as es' eqn:Hes. symmetry in Hes.
  destruct Ea as [k' e Hk Hf|e Hnone Hty Hpay Hke Hide|x Hx].
  - injection Hk as <-. apply find_event_Some in Hf as [He Hke].
    pose proof (rb_own _ _ _ Hr e He (rb_keys _ _ _ Hr e _ He Hke)) as Happ.
    rewrite -(j_sim_applied _ _ Hs) in Happ. pose proof (j_apply_dup e s Happ) as Hsame.
    unfold on_state, zoom. cbn [fst snd]. pose proof (eq_refl (j_apply e s)) as Ej.
    destruct (j_apply e s) as [s' r] eqn:Es in Ej |- *. rewrite Es in Hsame. cbn [fst snd] in *. subst s'. split.
    + apply (rec_old payload key (l, s) l' e); cbn [fst snd]; try done. by rewrite Es.
    + by apply (jinv_same s0 X' es0 (l, s)).
  - assert (Hnew : ev_id e ∉ j_applied m).
    { intros (x & Hx & Hxe)%(rb_applied _ _ _ Hr). pose proof (next_id_fresh None _ _ (log_monotone _ Hl) Hx). lia. }
    destruct (Hap e m Hpay Hke Hnew Hs HX Hr) as (r & Hok & HX').
    unfold on_state, zoom. cbn [fst snd]. destruct (j_apply_sim e s m Hs) as [_ Hsim].
    rewrite -(j_sim_applied _ _ Hs) in Hnew. split.
    + destruct (j_apply e s) as [s' r'] eqn:Es.
      pose proof (rec_new payload key (l, s) l' e) as Hrec. cbn [fst snd] in Hrec. rewrite Es in Hrec. cbn [fst snd] in *.
      apply Hrec; try done. by apply find_event_None, Hnone.
    + rewrite (j_sim_applied _ _ Hs) in Hnew. destruct (j_apply e s) as [s' r'].
      destruct (j_apply e m) as [m' rm] eqn:Em. cbn [fst snd] in *. subst rm.
      split; cbn [fst snd]; rewrite ?Hes //; [|by apply prefix_app_r]. exists m'. split; [|done].
      eapply rebuilds_own; [done|by apply Hown|done|exact Em].
  - split; [|by apply (jinv_same s0 X' es0 (l, s))]. by apply (rec_err payload key (l, s)).
Qed.
End journal.
