(* ===== verification/Payload.v ===== *)
(** * Reading and writing event payloads

    The accessors the managers use on the payloads of their events (enum
    members, decimals and strings under a key) and the values they write. *)

From Stdlib Require Import ssreflect ZArith Lia Ascii String.
From stdpp Require Import base strings numbers gmap sets list.
From S2P Require Import Prelude PyText PyDict PyJson PyDecimal PyDecimalFacts.
#[local] Open Scope Z_scope.

(** [_dec(d.get(k))]: the payloads hold strings or [None]. *)
Definition _dec (value : option json) : result (option decimal) :=
  match value with
  | None | Some JNull => Ok None
  | Some (JStr s) => d ← of_option InvalidOperation (dec_parse s); Ok (Some d)
  | Some (JInt z) => Ok (Some (dint z))
  | _ => Err TypeError
  end.

(** [details[k]] *)
Definition item (k : string) (details : json) : result json :=
  match details with JObj o => of_option KeyError (dget k o) | _ => Err TypeError end.

(** [Decimal(details[k])] *)
Definition dec_item (k : string) (details : json) : result decimal :=
  j ← item k details;
  d ← _dec (Some j);
  of_option TypeError d.

(** [Enum(payload[k])] *)
Definition enum_item {A} `{PyEnum A} (k : string) (payload : json) : result A :=
  j ← item k payload;
  of_option ValueError (jenum (Some j)).

(** A value that must be a string, or a boolean, where the writers store one. *)
Definition str_of (j : json) : result string := of_option TypeError (as_str j).
Definition bool_of (j : json) : result bool := match j with JBool b => Ok b | _ => Err TypeError end.

Definition opt_value {E} `{PyEnum E} (x : option E) : json :=
  match x with Some x => JStr (enum_value x) | None => JNull end.

Definition opt_str (s : option string) : json := match s with Some s => JStr s | None => JNull end.


(** ** Reading back what was written *)

Lemma enum_item_opt {E} `{PyEnum E} k o (x : E) :
  dget k o = Some (opt_value (Some x)) -> enum_item k (JObj o) = Ok x.
Proof. intros Hk. unfold enum_item, item. rewrite Hk. cbn [of_option mbind result_bind opt_value]. by rewrite jenum_value. Qed.

Lemma dec_item_str k o x : dget k o = Some (JStr (dec_str x)) -> dec_item k (JObj o) = Ok x.
Proof. intros Hk. unfold dec_item, item. rewrite Hk. cbn -[dec_parse]. by rewrite dec_parse_str. Qed.

Lemma str_item k o x : dget k o = Some (JStr x) -> (j ← item k (JObj o); str_of j) = Ok x.
Proof. intros Hk. unfold item. by rewrite Hk. Qed.
