(* ===== verification/OrderStates.v ===== *)
(** * Order lifecycle (src/order_manager/states.py, snapshot.py, ids.py)

    The states and triggers of one order, the frozen transition table, the ranks
    that tell a stale notification from an inconsistent one, and the snapshot. *)

From Stdlib Require Import ssreflect ZArith Lia Ascii String.
From stdpp Require Import base strings numbers gmap sets list.
From S2P Require Import Prelude PyText PyDict PyJson PyDecimal ExchangeModels.
#[local] Open Scope Z_scope.

Module OrderLifecycleState.
Inductive OrderLifecycleState :=
  | NEW | SUBMITTED | ACKNOWLEDGED | PARTIALLY_FILLED | FILLED | CANCEL_PENDING |
  CANCELLED | REJECTED | EXPIRED | FAILED.
#[global] Instance OrderLifecycleState_eq_dec : EqDecision OrderLifecycleState.
Proof. solve_decision. Defined.

Definition value (x : OrderLifecycleState) : string :=
  match x with
  | NEW => "NEW" | SUBMITTED => "SUBMITTED" | ACKNOWLEDGED => "ACKNOWLEDGED" |
  PARTIALLY_FILLED => "PARTIALLY_FILLED" | FILLED => "FILLED" | CANCEL_PENDING =>
  "CANCEL_PENDING" | CANCELLED => "CANCELLED" | REJECTED => "REJECTED" | EXPIRED =>
  "EXPIRED" | FAILED => "FAILED"
  end.

#[global] Program Instance OrderLifecycleState_enum : PyEnum OrderLifecycleState := {
  enum_all := [NEW; SUBMITTED; ACKNOWLEDGED; PARTIALLY_FILLED; FILLED; CANCEL_PENDING;
  CANCELLED; REJECTED; EXPIRED; FAILED];
  enum_value := value
}.
Solve Obligations with solve_enum.
End OrderLifecycleState.
Notation OrderLifecycleState := OrderLifecycleState.OrderLifecycleState.

Module OrderLifecycleTrigger.
Inductive OrderLifecycleTrigger :=
  | SUBMIT | ACKNOWLEDGED | REJECTED | SUBMIT_FAILED | PARTIAL_FILL | FULL_FILL |
  CANCEL_REQUESTED | CANCEL_RETRY_ACKNOWLEDGED | CANCEL_CONFIRMED | CANCEL_FAILED |
  EXPIRED.
#[global] Instance OrderLifecycleTrigger_eq_dec : EqDecision OrderLifecycleTrigger.
Proof. solve_decision. Defined.

Definition value (x : OrderLifecycleTrigger) : string :=
  match x with
  | SUBMIT => "SUBMIT" | ACKNOWLEDGED => "ACKNOWLEDGED" | REJECTED => "REJECTED" |
  SUBMIT_FAILED => "SUBMIT_FAILED" | PARTIAL_FILL => "PARTIAL_FILL" | FULL_FILL =>
  "FULL_FILL" | CANCEL_REQUESTED => "CANCEL_REQUESTED" | CANCEL_RETRY_ACKNOWLEDGED =>
  "CANCEL_RETRY_ACKNOWLEDGED" | CANCEL_CONFIRMED => "CANCEL_CONFIRMED" | CANCEL_FAILED =>
  "CANCEL_FAILED" | EXPIRED => "EXPIRED"
  end.

#[global] Program Instance OrderLifecycleTrigger_enum : PyEnum OrderLifecycleTrigger := {
  enum_all := [SUBMIT; ACKNOWLEDGED; REJECTED; SUBMIT_FAILED; PARTIAL_FILL; FULL_FILL;
  CANCEL_REQUESTED; CANCEL_RETRY_ACKNOWLEDGED; CANCEL_CONFIRMED; CANCEL_FAILED; EXPIRED];
  enum_value := value
}.
Solve Obligations with solve_enum.
End OrderLifecycleTrigger.
Notation OrderLifecycleTrigger := OrderLifecycleTrigger.OrderLifecycleTrigger.

Module _S := OrderLifecycleState.
Module _T := OrderLifecycleTrigger.

Definition _EDGES : list (OrderLifecycleState * OrderLifecycleTrigger * OrderLifecycleState) := [
    (_S.NEW, _T.SUBMIT, _S.SUBMITTED);

    (_S.SUBMITTED, _T.ACKNOWLEDGED, _S.ACKNOWLEDGED);
    (_S.SUBMITTED, _T.REJECTED, _S.REJECTED);
    (_S.SUBMITTED, _T.SUBMIT_FAILED, _S.FAILED);

    (_S.ACKNOWLEDGED, _T.PARTIAL_FILL, _S.PARTIALLY_FILLED);
    (_S.ACKNOWLEDGED, _T.FULL_FILL, _S.FILLED);
    (_S.ACKNOWLEDGED, _T.CANCEL_REQUESTED, _S.CANCEL_PENDING);
    (_S.ACKNOWLEDGED, _T.EXPIRED, _S.EXPIRED);

    (_S.PARTIALLY_FILLED, _T.PARTIAL_FILL, _S.PARTIALLY_FILLED);
    (_S.PARTIALLY_FILLED, _T.FULL_FILL, _S.FILLED);
    (_S.PARTIALLY_FILLED, _T.CANCEL_REQUESTED, _S.CANCEL_PENDING);
    (_S.PARTIALLY_FILLED, _T.EXPIRED, _S.EXPIRED);
    (_S.PARTIALLY_FILLED, _T.CANCEL_CONFIRMED, _S.CANCELLED);

    (_S.CANCEL_PENDING, _T.CANCEL_CONFIRMED, _S.CANCELLED);
    (_S.CANCEL_PENDING, _T.PARTIAL_FILL, _S.PARTIALLY_FILLED);
    (_S.CANCEL_PENDING, _T.FULL_FILL, _S.FILLED);
    (_S.CANCEL_PENDING, _T.CANCEL_RETRY_ACKNOWLEDGED, _S.CANCEL_PENDING);
    (_S.CANCEL_PENDING, _T.CANCEL_FAILED, _S.FAILED) ].

Definition TRANSITION_TABLE (from_state : OrderLifecycleState) (trigger : OrderLifecycleTrigger)
    : option OrderLifecycleState :=
  foldl (fun acc e => if bool_decide (e.1 = (from_state, trigger)) then Some e.2 else acc) None _EDGES.

Definition LEGAL_TRIGGERS_BY_STATE (s : OrderLifecycleState) : list OrderLifecycleTrigger :=
  List.filter (fun t => existsb (fun e => bool_decide (e.1 = (s, t))) _EDGES) enum_all.

Definition TERMINAL_STATES (s : OrderLifecycleState) : bool :=
  match LEGAL_TRIGGERS_BY_STATE s with [] => true | _ => false end.

Definition is_legal (from_state : OrderLifecycleState) (trigger : OrderLifecycleTrigger) : bool :=
  match TRANSITION_TABLE from_state trigger with Some _ => true | None => false end.

Definition next_state (from_state : OrderLifecycleState) (trigger : OrderLifecycleTrigger)
    : result OrderLifecycleState :=
  of_option KeyError (TRANSITION_TABLE from_state trigger).

Definition state_rank (s : OrderLifecycleState) : Z :=
  match s with
  | _S.NEW => 0 | _S.SUBMITTED => 1 | _S.ACKNOWLEDGED => 2 | _S.PARTIALLY_FILLED => 3
  | _S.CANCEL_PENDING => 3 | _S.FILLED => 4 | _S.CANCELLED => 4 | _S.REJECTED => 4
  | _S.EXPIRED => 4 | _S.FAILED => 4
  end.

(** [min] of the ranks; it raises on an empty sequence. *)
Definition trigger_min_target_rank (trigger : OrderLifecycleTrigger) : result Z :=
  let targets := List.filter (fun e => bool_decide (e.1.2 = trigger)) _EDGES in
  match map (fun e => state_rank e.2) targets with
  | [] => Err ValueError
  | r :: rs => Ok (foldl Z.min r rs)
  end.

(** Timestamps are those of the events. *)
Record OrderSnapshot := {
  sn_client_order_id : string;
  sn_lifecycle_state : OrderLifecycleState;
  sn_exchange_order_id : option string;
  sn_symbol : Symbol;
  sn_side : OrderSide;
  sn_order_type : OrderType;
  sn_quantity : decimal;
  sn_filled_quantity : decimal;
  sn_limit_price : option decimal;
  sn_time_in_force : TimeInForce;
  sn_reduce_only : bool;
  sn_created_at_utc : json;
  sn_updated_at_utc : json;
  sn_reject_reason : option string
}.

Definition make_id (om_id : string) (seq : Z) (suffix : string) : string :=
  "om:" +:+ om_id +:+ ":" +:+ int_str seq +:+ ":" +:+ suffix.

(** ** Facts about the table *)

Lemma terminal_no_edge s t : TERMINAL_STATES s = true -> TRANSITION_TABLE s t = None.
Proof. destruct s; try discriminate; by destruct t. Qed.

Lemma edge_not_terminal s t s' : TRANSITION_TABLE s t = Some s' -> TERMINAL_STATES s = false.
Proof. destruct s, t; try discriminate; reflexivity. Qed.

Lemma is_legal_edge s t : is_legal s t = true <-> exists s', TRANSITION_TABLE s t = Some s'.
Proof.
  unfold is_legal. destruct (TRANSITION_TABLE s t) as [b|]; split; [by exists b|done|done|by intros [? ?]].
Qed.

Lemma make_id_inj om n m suffix : 0 <= n -> 0 <= m -> make_id om n suffix = make_id om m suffix -> n = m.
Proof.
  intros Hn Hm E. unfold make_id in E. apply app_inj_l_s, app_inj_l_s, app_inj_l_s in E.
  by apply int_str_colon_inj in E as [? _].
Qed.
