(* ===== verification/OrderManager.v ===== *)
(** * The order manager (src/order_manager/manager.py)

    Every order operation over the four objects it touches: the event log, the
    exchange adapter, the execution state machine and the manager itself. The
    per-order locks are not modelled: operations run one after the other. *)

From Stdlib Require Import ssreflect ZArith Lia Ascii String.
From stdpp Require Import base strings numbers gmap sets list.
From S2P Require Import Prelude PyText PyDict PyBytes PyJson PyDecimal EventStore EventStoreFacts EventLog Payload.
From S2P Require ExecStateMachine.
From S2P Require Import ExchangeModels ExchangeAdapter OrderStates.
#[local] Open Scope Z_scope.

Module ESM := ExecStateMachine.

Definition _EVENT_SOURCE_TAG : string := "order_manager".
Definition _MAX_OM_ID_LENGTH : Z := 60.

Definition _STATUS_TO_TRIGGER (status : OrderStatus) : option OrderLifecycleTrigger :=
  match status with
  | OrderStatus.ACKNOWLEDGED => Some _T.ACKNOWLEDGED
  | OrderStatus.CANCELLED => Some _T.CANCEL_CONFIRMED
  | OrderStatus.REJECTED => Some _T.REJECTED
  | _ => None
  end.

Definition _is_own_event (event : Event) (om_id : string) : bool :=
  bool_decide (jstr "source" (ev_payload event) = Some _EVENT_SOURCE_TAG)
  && bool_decide (jstr "om_id" (ev_payload event) = Some om_id).

Definition _event_type_for_action (action : string) (to_state : option OrderLifecycleState) : EventType :=
  if String.eqb action "SUBMIT" then EventType.ORDER_SUBMITTED
  else if String.eqb action "FILL" then EventType.ORDER_FILLED
  else if String.eqb action "AMEND_REQUESTED" || String.eqb action "AMEND" then EventType.POSITION_UPDATED
  else if String.eqb action "CANCEL_ALL_REQUESTED" then EventType.ORDER_CANCELLED
  else if String.eqb action "STATUS_UPDATE" then
    match to_state with
    | Some _S.ACKNOWLEDGED => EventType.ORDER_ACKNOWLEDGED
    | Some _S.CANCELLED | Some _S.REJECTED | Some _S.EXPIRED | Some _S.FAILED => EventType.ORDER_CANCELLED
    | _ => EventType.ORDER_ACKNOWLEDGED
    end
  else EventType.HEALTH_ALERT.

(** ** The manager's own state *)

Record OrderManager := {
  om_id : string;
  om_snapshots : list (string * OrderSnapshot);
  om_processed_fill_ids : list (string * gset string);
  om_applied_event_ids : gset Z;
  om_next_seq : Z
}.

Definition set_snapshots x m := {| om_id := om_id m; om_snapshots := x;
  om_processed_fill_ids := om_processed_fill_ids m; om_applied_event_ids := om_applied_event_ids m;
  om_next_seq := om_next_seq m |}.
Definition set_fills x m := {| om_id := om_id m; om_snapshots := om_snapshots m;
  om_processed_fill_ids := x; om_applied_event_ids := om_applied_event_ids m;
  om_next_seq := om_next_seq m |}.
Definition set_applied x m := {| om_id := om_id m; om_snapshots := om_snapshots m;
  om_processed_fill_ids := om_processed_fill_ids m; om_applied_event_ids := x;
  om_next_seq := om_next_seq m |}.
Definition set_seq x m := {| om_id := om_id m; om_snapshots := om_snapshots m;
  om_processed_fill_ids := om_processed_fill_ids m; om_applied_event_ids := om_applied_event_ids m;
  om_next_seq := x |}.

(** [self._processed_fill_ids.setdefault(cid, set())] and [.add(fill_id)] on it. *)
Definition setdefault_fills (cid : string) m := set_fills (dsetdefault cid ∅ (om_processed_fill_ids m)) m.
Definition add_fill (cid fill_id : string) m :=
  set_fills (dset cid ({[fill_id]} ∪ default ∅ (dget cid (om_processed_fill_ids m))) (om_processed_fill_ids m)) m.

(** ** Applying an event *)

(** [a.get(k) or b] for strings: an empty string counts as missing. *)
Definition get_or (k : string) (details : json) (b : option string) : option string :=
  match jstr k details with Some EmptyString | None => b | Some s => Some s end.

(** The snapshot a SUBMIT event creates. *)
Definition submit_snapshot (client_order_id : string) (details timestamp : json) : result OrderSnapshot :=
  sym ← item "symbol" details;
  sym ← str_of sym;
  symbol ← mk_Symbol sym;
  side ← enum_item "side" details;
  order_type ← enum_item "order_type" details;
  quantity ← dec_item "quantity" details;
  limit_price ← _dec (jget "limit_price" details);
  time_in_force ← enum_item "time_in_force" details;
  ro ← item "reduce_only" details;
  reduce_only ← bool_of ro;
  Ok {| sn_client_order_id := client_order_id; sn_lifecycle_state := _S.SUBMITTED;
        sn_exchange_order_id := None; sn_symbol := symbol; sn_side := side; sn_order_type := order_type;
        sn_quantity := quantity; sn_filled_quantity := d0; sn_limit_price := limit_price;
        sn_time_in_force := time_in_force; sn_reduce_only := reduce_only;
        sn_created_at_utc := timestamp; sn_updated_at_utc := timestamp; sn_reject_reason := None |}.

Definition replace_fill (x : OrderSnapshot) (st : OrderLifecycleState) (filled : decimal) (ts : json) : OrderSnapshot :=
  {| sn_client_order_id := sn_client_order_id x; sn_lifecycle_state := st;
     sn_exchange_order_id := sn_exchange_order_id x; sn_symbol := sn_symbol x; sn_side := sn_side x;
     sn_order_type := sn_order_type x; sn_quantity := sn_quantity x; sn_filled_quantity := filled;
     sn_limit_price := sn_limit_price x; sn_time_in_force := sn_time_in_force x;
     sn_reduce_only := sn_reduce_only x; sn_created_at_utc := sn_created_at_utc x; sn_updated_at_utc := ts;
     sn_reject_reason := sn_reject_reason x |}.

Definition replace_status (x : OrderSnapshot) (st : OrderLifecycleState) (exchange_id reason : option string)
    (ts : json) : OrderSnapshot :=
  {| sn_client_order_id := sn_client_order_id x; sn_lifecycle_state := st;
     sn_exchange_order_id := exchange_id; sn_symbol := sn_symbol x; sn_side := sn_side x;
     sn_order_type := sn_order_type x; sn_quantity := sn_quantity x; sn_filled_quantity := sn_filled_quantity x;
     sn_limit_price := sn_limit_price x; sn_time_in_force := sn_time_in_force x;
     sn_reduce_only := sn_reduce_only x; sn_created_at_utc := sn_created_at_utc x; sn_updated_at_utc := ts;
     sn_reject_reason := reason |}.

Definition replace_amend (x : OrderSnapshot) (quantity : decimal) (limit_price : option decimal) (ts : json)
    : OrderSnapshot :=
  {| sn_client_order_id := sn_client_order_id x; sn_lifecycle_state := sn_lifecycle_state x;
     sn_exchange_order_id := sn_exchange_order_id x; sn_symbol := sn_symbol x; sn_side := sn_side x;
     sn_order_type := sn_order_type x; sn_quantity := quantity; sn_filled_quantity := sn_filled_quantity x;
     sn_limit_price := limit_price; sn_time_in_force := sn_time_in_force x;
     sn_reduce_only := sn_reduce_only x; sn_created_at_utc := sn_created_at_utc x; sn_updated_at_utc := ts;
     sn_reject_reason := sn_reject_reason x |}.

(** [if seq is not None: self._next_seq = max(self._next_seq, int(seq) + 1)] *)
Definition bump_seq (seq : option json) : M OrderManager unit :=
  match seq with
  | None | Some JNull => mret tt
  | Some (JInt z) => modify (fun m => set_seq (Z.max (om_next_seq m) (z + 1)) m)
  | _ => raise TypeError
  end.

Definition put_snapshot (cid : string) (x : OrderSnapshot) : M OrderManager (option OrderSnapshot) :=
  modify (fun m => set_snapshots (dset cid x (om_snapshots m)) m);;
  mret (Some x).

(** STATUS_UPDATE and FILL: the recorded edge must start at the snapshot's state
    and be in the table. *)
Definition apply_transition (event : Event) (action cid : string) (existing : OrderSnapshot)
    : M OrderManager (option OrderSnapshot) :=
  let p := ev_payload event in
  trigger ← lift (enum_item "trigger" p);
  from_state ← lift (enum_item "from_state" p);
  to_state ← lift (enum_item "to_state" p);
  if negb (bool_decide (from_state = sn_lifecycle_state existing)) then raise ReplayIntegrityError else
  if negb (is_legal from_state trigger) || negb (bool_decide (next_state from_state trigger = Ok to_state))
  then raise ReplayIntegrityError else
  let details := default (JObj []) (jget "details" p) in
  if String.eqb action "FILL" then
    fj ← lift (item "fill_id" details);
    fill_id ← lift (str_of fj);
    modify (add_fill cid fill_id);;
    q ← lift (dec_item "fill_quantity" details);
    put_snapshot cid (replace_fill existing to_state (dadd (sn_filled_quantity existing) q) (ev_timestamp_utc event))
  else
    put_snapshot cid (replace_status existing to_state
      (get_or "exchange_order_id" details (sn_exchange_order_id existing))
      (get_or "reject_reason" details (sn_reject_reason existing)) (ev_timestamp_utc event)).

Definition apply_amend (event : Event) (cid : string) (existing : OrderSnapshot) : M OrderManager (option OrderSnapshot) :=
  let details := default (JObj []) (jget "details" (ev_payload event)) in
  nq ← lift (_dec (jget "new_quantity" details));
  nl ← lift (match jget "new_limit_price" details with
             | Some j => _dec (Some j)
             | None => Ok (sn_limit_price existing)
             end);
  let quantity := match nq with
                  | Some q => if deqb q d0 then sn_quantity existing else q
                  | None => sn_quantity existing
                  end in
  put_snapshot cid (replace_amend existing quantity nl (ev_timestamp_utc event)).

Definition _apply_event (event : Event) : M OrderManager (option OrderSnapshot) :=
  self ← get;
  let p := ev_payload event in
  if bool_decide (ev_id event ∈ om_applied_event_ids self) then
    cid ← lift (of_option TypeError (jstr "client_order_id" p));
    mret (dget cid (om_snapshots self))
  else
    modify (set_applied ({[ev_id event]} ∪ om_applied_event_ids self));;
    action ← lift (of_option ReplayIntegrityError (jstr "action" p));
    cid ← lift (of_option TypeError (jstr "client_order_id" p));
    bump_seq (jget "seq" p);;
    if String.eqb action "SUBMIT" then
      snapshot ← lift (submit_snapshot cid (default (JObj []) (jget "details" p)) (ev_timestamp_utc event));
      modify (fun m => set_snapshots (dset cid snapshot (om_snapshots m)) m);;
      modify (setdefault_fills cid);;
      mret (Some snapshot)
    else if String.eqb action "CANCEL_ALL_REQUESTED" || String.eqb action "AMEND_REQUESTED" then
      mret (dget cid (om_snapshots self))
    else
      existing ← lift (of_option ReplayIntegrityError (dget cid (om_snapshots self)));
      if String.eqb action "STATUS_UPDATE" || String.eqb action "FILL" then apply_transition event action cid existing
      else if String.eqb action "AMEND" then apply_amend event cid existing
      else raise ReplayIntegrityError.

(** One step of the constructor's loop. *)
Definition replay_step (om : string) (event : Event) : M OrderManager unit :=
  if _is_own_event event om then _ ← _apply_event event; mret tt else mret tt.

Definition om_empty (om : string) : OrderManager :=
  {| om_id := om; om_snapshots := []; om_processed_fill_ids := []; om_applied_event_ids := ∅; om_next_seq := 1 |}.

(** [OrderManager(adapter, store, esm, om_id)] on arguments of the right types. *)
Definition om_init `{EventLog L} (store : L) (om : string) : result OrderManager :=
  if blank om then Err ValueError else
  if _MAX_OM_ID_LENGTH <? slen om then Err ValueError else
  events ← log_replay store;
  match for_each (replay_step om) events (om_empty om) with
  | (m, Ok _) => Ok m
  | (_, Err e) => Err e
  end.

(** ** The objects an operation works on *)

Record World (L A : Type) := {
  w_store : L;
  w_adapter : A;
  w_esm : ESM.ExecutionStateMachine;
  w_om : OrderManager
}.
Arguments w_store {L A}.
Arguments w_adapter {L A}.
Arguments w_esm {L A}.
Arguments w_om {L A}.

Section manager.
Context {L A : Type} `{EventLog L} `{Exchange A}.
Notation W := (World L A).

Definition on_store {X} : M L X -> M W X :=
  zoom w_store (fun l w => {| w_store := l; w_adapter := w_adapter w; w_esm := w_esm w; w_om := w_om w |}).
Definition on_adapter {X} : M A X -> M W X :=
  zoom w_adapter (fun a w => {| w_store := w_store w; w_adapter := a; w_esm := w_esm w; w_om := w_om w |}).
Definition on_esm {X} : M (L * ESM.ExecutionStateMachine) X -> M W X :=
  zoom (fun w => (w_store w, w_esm w))
       (fun p w => {| w_store := p.1; w_adapter := w_adapter w; w_esm := p.2; w_om := w_om w |}).
Definition on_om {X} : M OrderManager X -> M W X :=
  zoom w_om (fun m w => {| w_store := w_store w; w_adapter := w_adapter w; w_esm := w_esm w; w_om := m |}).

Definition _next_id (suffix : string) : M W (Z * string) :=
  on_om (fun m => (set_seq (om_next_seq m + 1) m, Ok (om_next_seq m, make_id (om_id m) (om_next_seq m) suffix))).

Definition om_payload (om action client_order_id : string) (seq : option Z)
    (trigger : option OrderLifecycleTrigger) (from_state to_state : option OrderLifecycleState)
    (details : list (string * json)) : list (string * json) :=
  [("source", JStr _EVENT_SOURCE_TAG); ("om_id", JStr om);
   ("seq", match seq with Some n => JInt n | None => JNull end); ("action", JStr action);
   ("client_order_id", JStr client_order_id); ("trigger", opt_value trigger);
   ("from_state", opt_value from_state); ("to_state", opt_value to_state); ("details", JObj details)].

Definition om_key (om idempotency_key : string) : string :=
  _EVENT_SOURCE_TAG +:+ ":" +:+ om +:+ ":" +:+ idempotency_key.

Definition _persist (action client_order_id : string) (seq : option Z)
    (trigger : option OrderLifecycleTrigger) (from_state to_state : option OrderLifecycleState)
    (details : list (string * json)) (idempotency_key : string) : M W Event :=
  w ← get;
  on_store (log_append (_event_type_for_action action to_state)
    (om_payload (om_id (w_om w)) action client_order_id seq trigger from_state to_state details)
    (Some (om_key (om_id (w_om w)) idempotency_key))).

(** [self._apply_event(self._persist(...))] *)
Definition record (action client_order_id : string) (seq : option Z)
    (trigger : option OrderLifecycleTrigger) (from_state to_state : option OrderLifecycleState)
    (details : list (string * json)) (idempotency_key : string) : M W (option OrderSnapshot) :=
  event ← _persist action client_order_id seq trigger from_state to_state details idempotency_key;
  on_om (_apply_event event).

(** What an operation reports to the execution state machine. *)
Inductive drive := DriveSubmit | DriveTrigger (t : OrderLifecycleTrigger).

Definition exec_trigger_of (trigger : drive) (from_state : option OrderLifecycleState)
    (snapshot : option OrderSnapshot) : result (option ESM.Trigger) :=
  match trigger with
  | DriveSubmit => Ok (Some ESM.Trigger.ORDER_PLACED)
  | DriveTrigger _T.REJECTED => Ok (Some ESM.Trigger.ORDER_REJECTED)
  | DriveTrigger _T.PARTIAL_FILL => Ok (Some ESM.Trigger.PARTIAL_FILL_RECEIVED)
  | DriveTrigger _T.FULL_FILL =>
      Ok (Some (if bool_decide (from_state = Some _S.PARTIALLY_FILLED)
                then ESM.Trigger.REMAINDER_FILLED else ESM.Trigger.FULLY_FILLED))
  | DriveTrigger _T.CANCEL_CONFIRMED =>
      if bool_decide (from_state = Some _S.CANCEL_PENDING) then
        match snapshot with
        | Some s => Ok (if deqb (sn_filled_quantity s) d0 then Some ESM.Trigger.ORDER_CANCELLED else None)
        | None => Err AttributeError
        end
      else Ok None
  | DriveTrigger _ => Ok None
  end.

Definition exec_request_id (client_order_id : string) (t : ESM.Trigger) : string :=
  str_take 40 (hex (sha256 (utf8 (client_order_id +:+ ":" +:+ enum_value t)))).

Definition _drive_execution_sm (client_order_id : string) (trigger : drive)
    (from_state : option OrderLifecycleState) (snapshot : option OrderSnapshot) : M W unit :=
  t ← lift (exec_trigger_of trigger from_state snapshot);
  match t with
  | None => mret tt
  | Some t =>
      catch (fun e => bool_decide (e = IllegalTransitionError))
        (_ ← on_esm (ESM.transition t (exec_request_id client_order_id t)
                       [("client_order_id", JStr client_order_id)]); mret tt)
        (mret tt)
  end.

(** [self._snapshots[cid]] *)
Definition snapshot_of (cid : string) : M W OrderSnapshot := fun w =>
  (w, of_option KeyError (dget cid (om_snapshots (w_om w)))).

(** [self._snapshots.get(cid)], [OrderNotFoundError] when it is missing. *)
Definition tracked (cid : string) : M W OrderSnapshot := fun w =>
  (w, of_option OrderNotFoundError (dget cid (om_snapshots (w_om w)))).

(** [return self._apply_event(event)] where the result is used as a snapshot. *)
Definition the_snapshot (s : option OrderSnapshot) : M W OrderSnapshot := lift (of_option AttributeError s).

Definition _ingest_status (client_order_id : string) (status : OrderStatus)
    (exchange_order_id reason : option string) : M W OrderSnapshot :=
  match _STATUS_TO_TRIGGER status with
  | None => snapshot_of client_order_id
  | Some trigger =>
      existing ← snapshot_of client_order_id;
      let current := sn_lifecycle_state existing in
      match TRANSITION_TABLE current trigger with
      | Some to_state =>
          snapshot ← record "STATUS_UPDATE" client_order_id None (Some trigger) (Some current) (Some to_state)
            [("exchange_order_id", opt_str exchange_order_id); ("reject_reason", opt_str reason)]
            (client_order_id +:+ ":status:" +:+ enum_value trigger +:+ ":" +:+ enum_value current);
          _drive_execution_sm client_order_id (DriveTrigger trigger) (Some current) snapshot;;
          the_snapshot snapshot
      | None =>
          if TERMINAL_STATES current then mret existing else
          min_rank ← lift (trigger_min_target_rank trigger);
          if min_rank <=? state_rank current then mret existing
          else raise OrderStateInconsistencyError
      end
  end.

Definition submit_details (symbol : Symbol) (side : OrderSide) (order_type : OrderType) (quantity : decimal)
    (limit_price : option decimal) (time_in_force : TimeInForce) (reduce_only : bool) : list (string * json) :=
  [("symbol", JStr (sym_value symbol)); ("side", JStr (enum_value side));
   ("order_type", JStr (enum_value order_type)); ("quantity", JStr (dec_str quantity));
   ("limit_price", opt_dec limit_price); ("time_in_force", JStr (enum_value time_in_force));
   ("reduce_only", JBool reduce_only)].

(** What the failure handlers record: [{"error": str(exc)}]; messages are not
    modelled and the text is the exception's name. *)
Definition error_details : list (string * json) := [("error", JStr "exchange error")].

(** The [except ExchangeAdapterError] handlers of placing and cancelling. *)
Definition record_failure (client_order_id : string) (trigger : OrderLifecycleTrigger) (key : string) : M W unit :=
  existing ← snapshot_of client_order_id;
  let current := sn_lifecycle_state existing in
  match TRANSITION_TABLE current trigger with
  | Some to_state =>
      _ ← record "STATUS_UPDATE" client_order_id None (Some trigger) (Some current) (Some to_state) error_details key;
      mret tt
  | None => mret tt
  end.

Definition place_order (symbol : Symbol) (side : OrderSide) (order_type : OrderType) (quantity : decimal)
    (limit_price : option decimal) (time_in_force : TimeInForce) (reduce_only : bool) : M W OrderSnapshot :=
  '(seq, client_order_id) ← _next_id "place";
  snapshot ← record "SUBMIT" client_order_id (Some seq) None None None
    (submit_details symbol side order_type quantity limit_price time_in_force reduce_only) client_order_id;
  _drive_execution_sm client_order_id DriveSubmit (Some _S.NEW) snapshot;;
  request ← lift (mk_OrderRequest
    {| or_client_order_id := client_order_id; or_symbol := symbol; or_side := side;
       or_order_type := order_type; or_quantity := quantity; or_limit_price := limit_price;
       or_time_in_force := time_in_force; or_reduce_only := reduce_only |});
  order ← on_exception is_adapter_error (on_adapter (ex_place_order request))
            (record_failure client_order_id _T.SUBMIT_FAILED (client_order_id +:+ ":submit_failed"));
  if bool_decide (o_status order = OrderStatus.REJECTED)
  then _ingest_status client_order_id OrderStatus.REJECTED (o_exchange_order_id order) None
  else _ingest_status client_order_id OrderStatus.ACKNOWLEDGED (o_exchange_order_id order) None.

Definition amend_order (client_order_id : string) (new_quantity new_limit_price : option decimal) : M W OrderSnapshot :=
  if bool_decide (new_quantity = None) && bool_decide (new_limit_price = None) then raise ValueError else
  existing ← tracked client_order_id;
  if negb (bool_decide (sn_lifecycle_state existing = _S.ACKNOWLEDGED)
           || bool_decide (sn_lifecycle_state existing = _S.PARTIALLY_FILLED))
  then raise IllegalOrderTransitionError else
  match sn_exchange_order_id existing with
  | None => raise OrderStateInconsistencyError
  | Some exchange_order_id =>
      '(seq, request_id) ← _next_id "amend";
      _ ← record "AMEND_REQUESTED" client_order_id (Some seq) None None None
        [("request_id", JStr request_id); ("new_quantity", opt_dec new_quantity);
         ("new_limit_price", opt_dec new_limit_price)]
        (client_order_id +:+ ":amend_req:" +:+ request_id);
      request ← lift (mk_AmendRequest {| am_request_id := request_id;
        am_exchange_order_id := exchange_order_id; am_new_quantity := new_quantity;
        am_new_limit_price := new_limit_price |});
      order ← on_adapter (ex_amend_order request);
      snapshot ← record "AMEND" client_order_id None None None None
        [("new_quantity", JStr (dec_str (o_quantity order))); ("new_limit_price", opt_dec (o_limit_price order))]
        (client_order_id +:+ ":amend_applied:" +:+ request_id);
      the_snapshot snapshot
  end.

Definition cancel_order (client_order_id : string) : M W OrderSnapshot :=
  existing ← tracked client_order_id;
  let current := sn_lifecycle_state existing in
  if bool_decide (current = _S.CANCEL_PENDING) then mret existing else
  match TRANSITION_TABLE current _T.CANCEL_REQUESTED with
  | None => raise IllegalOrderTransitionError
  | Some to_state =>
      match sn_exchange_order_id existing with
      | None => raise OrderStateInconsistencyError
      | Some exchange_order_id =>
          '(seq, request_id) ← _next_id "cancel";
          _ ← record "STATUS_UPDATE" client_order_id (Some seq) (Some _T.CANCEL_REQUESTED) (Some current)
            (Some to_state) [("request_id", JStr request_id)]
            (client_order_id +:+ ":cancel:" +:+ request_id);
          request ← lift (mk_CancelRequest {| cn_request_id := request_id; cn_exchange_order_id := exchange_order_id |});
          order ← on_exception is_adapter_error (on_adapter (ex_cancel_order request))
            (record_failure client_order_id _T.CANCEL_FAILED (client_order_id +:+ ":cancel_failed:" +:+ request_id));
          _ingest_status client_order_id (o_status order) (o_exchange_order_id order) None
      end
  end.

(** One order the exchange reports cancelled. *)
Definition confirm_cancel (request_id : string) (order : Order) : M W (list OrderSnapshot) :=
  let cid := o_client_order_id order in
  w ← get;
  match dget cid (om_snapshots (w_om w)) with
  | None => mret []
  | Some existing =>
      let current := sn_lifecycle_state existing in
      current ← (if bool_decide (current = _S.ACKNOWLEDGED) || bool_decide (current = _S.PARTIALLY_FILLED) then
                   pend_state ← lift (next_state current _T.CANCEL_REQUESTED);
                   _ ← record "STATUS_UPDATE" cid None (Some _T.CANCEL_REQUESTED) (Some current) (Some pend_state)
                     [("request_id", JStr request_id)] (cid +:+ ":cancel_all_pending:" +:+ request_id);
                   mret pend_state
                 else mret current);
      if bool_decide (current = _S.CANCEL_PENDING) then
        conf_state ← lift (next_state current _T.CANCEL_CONFIRMED);
        snapshot ← record "STATUS_UPDATE" cid None (Some _T.CANCEL_CONFIRMED) (Some current) (Some conf_state)
          [("exchange_order_id", opt_str (o_exchange_order_id order))] (cid +:+ ":cancel_all_confirm:" +:+ request_id);
        _drive_execution_sm cid (DriveTrigger _T.CANCEL_CONFIRMED) (Some _S.CANCEL_PENDING) snapshot;;
        s ← the_snapshot snapshot;
        mret [s]
      else mret []
  end.

Fixpoint confirm_all (request_id : string) (orders : list Order) : M W (list OrderSnapshot) :=
  match orders with
  | [] => mret []
  | o :: orders =>
      r ← confirm_cancel request_id o;
      rs ← confirm_all request_id orders;
      mret (r ++ rs)
  end.

Definition cancel_all (symbol : option Symbol) : M W (list OrderSnapshot) :=
  '(seq, request_id) ← _next_id "cancel_all";
  _ ← record "CANCEL_ALL_REQUESTED" "*" (Some seq) None None None
    [("request_id", JStr request_id); ("symbol", match symbol with Some s => JStr (sym_value s) | None => JNull end)]
    ("cancel_all:" +:+ request_id);
  request ← lift (mk_CancelAllRequest {| ca_request_id := request_id; ca_symbol := symbol |});
  orders ← on_adapter (ex_cancel_all request);
  confirm_all request_id orders.

Definition report_fill (client_order_id : string) (fill : Fill) : M W OrderSnapshot :=
  existing ← tracked client_order_id;
  w ← get;
  if bool_decide (fl_fill_id fill ∈ (default ∅ (dget client_order_id (om_processed_fill_ids (w_om w))) : gset string))
  then mret existing else
  if TERMINAL_STATES (sn_lifecycle_state existing) then
    on_om (modify (add_fill client_order_id (fl_fill_id fill)));;
    mret existing
  else
    let new_filled := dadd (sn_filled_quantity existing) (fl_quantity fill) in
    let trigger := if dleb (sn_quantity existing) new_filled then _T.FULL_FILL else _T.PARTIAL_FILL in
    let current := sn_lifecycle_state existing in
    match TRANSITION_TABLE current trigger with
    | None => raise OrderStateInconsistencyError
    | Some to_state =>
        snapshot ← record "FILL" client_order_id None (Some trigger) (Some current) (Some to_state)
          [("fill_id", JStr (fl_fill_id fill)); ("fill_quantity", JStr (dec_str (fl_quantity fill)));
           ("fill_price", JStr (dec_str (fl_price fill)))]
          (client_order_id +:+ ":fill:" +:+ fl_fill_id fill);
        _drive_execution_sm client_order_id (DriveTrigger trigger) (Some current) snapshot;;
        the_snapshot snapshot
    end.

Definition report_order_update (client_order_id : string) (order : Order) : M W OrderSnapshot :=
  _ ← tracked client_order_id;
  _ingest_status client_order_id (o_status order) (o_exchange_order_id order) None.

Definition get_order_status (client_order_id : string) : M W OrderSnapshot := tracked client_order_id.

Definition get_fills (client_order_id : option string) : M W (list Fill) :=
  fills ← on_adapter (ex_get_fills None);
  mret (match client_order_id with
        | Some cid => List.filter (fun f => String.eqb (fl_client_order_id f) cid) fills
        | None => fills
        end).

Definition in_doubt_client_order_ids (m : OrderManager) : list string :=
  map fst (List.filter (fun p => bool_decide (sn_lifecycle_state p.2 = _S.SUBMITTED)
                                 || bool_decide (sn_lifecycle_state p.2 = _S.CANCEL_PENDING)) (om_snapshots m)).

Definition resync_order (client_order_id : string) : M W OrderSnapshot :=
  existing ← tracked client_order_id;
  match sn_exchange_order_id existing with
  | None =>
      request ← lift (mk_OrderRequest
        {| or_client_order_id := sn_client_order_id existing; or_symbol := sn_symbol existing;
           or_side := sn_side existing; or_order_type := sn_order_type existing;
           or_quantity := sn_quantity existing; or_limit_price := sn_limit_price existing;
           or_time_in_force := sn_time_in_force existing; or_reduce_only := sn_reduce_only existing |});
      match_ ← on_adapter (ex_find_order request);
      match match_ with
      | None => mret existing
      | Some o => _ingest_status client_order_id (o_status o) (o_exchange_order_id o) None
      end
  | Some exchange_order_id =>
      order ← on_adapter (ex_get_order_status exchange_order_id);
      _ingest_status client_order_id (o_status order) (o_exchange_order_id order) None
  end.
End manager.
