(* ===== verification/OrderManagerFacts.v ===== *)
(** * The order manager: replay, uniqueness of ids, stability of closed orders *)

From Stdlib Require Import ssreflect ZArith Lia Ascii String.
From stdpp Require Import base strings numbers gmap sets list.
From S2P Require Import Prelude PyText PyDict PyBytes PyJson PyJsonFacts PyDecimal PyDecimalFacts.
From S2P Require Import EventStore EventStoreFacts EventLog Payload.
From S2P Require ExecStateMachine ExecStateMachineFacts.
From S2P Require Import ExchangeModels ExchangeAdapter OrderStates OrderManager.
#[local] Open Scope Z_scope.

(** ** What applying an event depends on *)

(** A live manager and the one rebuilt from its log: they differ only in late
    fills and in ids whose event was never recorded. *)
Record rebuilt (live m : OrderManager) : Prop := {
  rb_id : om_id live = om_id m;
  rb_snapshots : om_snapshots live = om_snapshots m;
  rb_applied : om_applied_event_ids live = om_applied_event_ids m;
  rb_seq : om_next_seq m <= om_next_seq live;
  rb_fills cid x : x ∈ (default ∅ (dget cid (om_processed_fill_ids m)) : gset string) ->
    x ∈ (default ∅ (dget cid (om_processed_fill_ids live)) : gset string)
}.

Lemma rebuilt_refl m : rebuilt m m.
Proof. by split. Qed.

Lemma dget_setdefault cid k (d : list (string * gset string)) :
  (default ∅ (dget k (dsetdefault cid ∅ d)) : gset string) = default ∅ (dget k d).
Proof.
  unfold dsetdefault, din. destruct (dget cid d) eqn:E; [done|]. rewrite dget_dset.
  destruct (String.eqb k cid) eqn:Ek; [|done]. apply String.eqb_eq in Ek as ->. by rewrite E.
Qed.

Lemma apply_event_simulates e : simulates rebuilt (_apply_event e).
Proof.
  unfold _apply_event. apply simulates_get.
  2:{ intros a b Hab. by rewrite (rb_snapshots a b Hab) (rb_applied a b Hab). }
  intros s. apply simulates_if.
  { apply simulates_bind; [auto with turtle|intros cid; auto with turtle]. }
  apply simulates_bind. { apply simulates_modify. intros a b [? ? ? ? ?]. by split. }
  intros _. apply simulates_bind; [auto with turtle|]. intros action.
  apply simulates_bind; [auto with turtle|]. intros cid.
  apply simulates_bind.
  { unfold bump_seq. repeat case_match; auto with turtle.
    apply simulates_modify. intros a b [? ? ? ? ?]. split; try done. cbn. lia. }
  assert (Hput : forall x, simulates rebuilt (put_snapshot cid x)).
  { intros x. apply simulates_bind; [|auto with turtle]. apply simulates_modify.
    intros a b [? Hs ? ? ?]. split; try done. cbn. by rewrite Hs. }
  intros _. apply simulates_if.
  { apply simulates_bind; [auto with turtle|]. intros x. apply simulates_bind.
    { apply simulates_modify. intros a b [? Hs ? ? ?]. split; try done. cbn. by rewrite Hs. }
    intros _. apply simulates_bind; [|auto with turtle]. apply simulates_modify.
    intros a b [? ? ? ? Hf]. split; try done. cbn. intros c y. rewrite !dget_setdefault. apply Hf. }
  apply simulates_if; [auto with turtle|].
  apply simulates_bind; [auto with turtle|]. intros existing. apply simulates_if.
  { unfold apply_transition. apply simulates_bind; [auto with turtle|]. intros t.
    apply simulates_bind; [auto with turtle|]. intros a.
    apply simulates_bind; [auto with turtle|]. intros b.
    apply simulates_if; [auto with turtle|]. apply simulates_if; [auto with turtle|].
    apply simulates_if; [|apply Hput].
    apply simulates_bind; [auto with turtle|]. intros fj. apply simulates_bind; [auto with turtle|]. intros fid.
    apply simulates_bind.
    { apply simulates_modify. intros x y [? ? ? ? Hf]. split; try done. cbn. intros c z. rewrite !dget_dset.
      destruct (String.eqb c cid); [|apply Hf]. cbn. specialize (Hf cid z). rewrite !elem_of_union. naive_solver. }
    intros _. apply simulates_bind; [auto with turtle|]. intros q. apply Hput. }
  apply simulates_if; [|auto with turtle].
  unfold apply_amend. apply simulates_bind; [auto with turtle|]. intros nq.
  apply simulates_bind; [auto with turtle|]. intros nl. apply Hput.
Qed.

(** ** What each recorded event does *)

Definition bump (seq : option Z) (n : Z) : Z := match seq with Some z => Z.max n (z + 1) | None => n end.

(** Applying an event with payload [p] to a manager whose snapshots are [sn]
    succeeds, and does this. *)
Definition applicable (p : list (string * json)) (seq : option Z) (sn : list (string * OrderSnapshot))
    (sn' : json -> list (string * OrderSnapshot)) (ret : json -> option OrderSnapshot) : Prop :=
  forall e m, ev_payload e = JObj p -> ev_id e ∉ om_applied_event_ids m -> om_snapshots m = sn ->
  exists fills, _apply_event e m =
    ({| om_id := om_id m; om_snapshots := sn' (ev_timestamp_utc e); om_processed_fill_ids := fills;
        om_applied_event_ids := {[ev_id e]} ∪ om_applied_event_ids m; om_next_seq := bump seq (om_next_seq m) |},
     Ok (ret (ev_timestamp_utc e))) /\
    (forall cid x, x ∈ (default ∅ (dget cid (om_processed_fill_ids m)) : gset string) ->
                   x ∈ (default ∅ (dget cid fills) : gset string)).

Lemma bump_seq_run seq m :
  bump_seq (Some (match seq with Some n => JInt n | None => JNull end)) m
  = (set_seq (bump seq (om_next_seq m)) m, Ok tt).
Proof. destruct seq; cbn; [done|]. by destruct m. Qed.

(** The common prefix of applying a new event of the manager. *)
Lemma apply_event_new om action cid seq t a b details e m :
  ev_payload e = JObj (om_payload om action cid seq t a b details) -> ev_id e ∉ om_applied_event_ids m ->
  _apply_event e m =
  (if String.eqb action "SUBMIT" then
     snapshot ← lift (submit_snapshot cid (JObj details) (ev_timestamp_utc e));
     modify (fun m => set_snapshots (dset cid snapshot (om_snapshots m)) m);;
     modify (setdefault_fills cid);;
     mret (Some snapshot)
   else if String.eqb action "CANCEL_ALL_REQUESTED" || String.eqb action "AMEND_REQUESTED" then
     mret (dget cid (om_snapshots m))
   else
     existing ← lift (of_option ReplayIntegrityError (dget cid (om_snapshots m)));
     if String.eqb action "STATUS_UPDATE" || String.eqb action "FILL" then apply_transition e action cid existing
     else if String.eqb action "AMEND" then apply_amend e cid existing
     else raise ReplayIntegrityError)
  (set_seq (bump seq (om_next_seq m)) (set_applied ({[ev_id e]} ∪ om_applied_event_ids m) m)).
Proof.
  intros Hp Hn. unfold _apply_event. unfold mbind at 1, M_bind at 1, get. rewrite bool_decide_eq_false_2 // Hp.
  unfold mbind at 1, M_bind at 1, modify at 1. unfold mbind at 1, M_bind at 1, lift at 1.
  change (jstr "action" _) with (Some action). cbn [of_option].
  unfold mbind at 1, M_bind at 1, lift at 1. change (jstr "client_order_id" _) with (Some cid). cbn [of_option].
  unfold mbind at 1, M_bind at 1.
  change (jget "seq" _) with (Some (match seq with Some n => JInt n | None => JNull end)).
  by rewrite bump_seq_run.
Qed.

Section apply.
Context (om cid : string) (seq : option Z) (sn : list (string * OrderSnapshot)).

Lemma apply_intent action details : action = "CANCEL_ALL_REQUESTED" \/ action = "AMEND_REQUESTED" ->
  applicable (om_payload om action cid seq None None None details) seq sn (fun _ => sn) (fun _ => dget cid sn).
Proof.
  intros Ha e m Hp Hn Hsn. rewrite (apply_event_new om action cid seq None None None details) //.
  exists (om_processed_fill_ids m). split; [|done].
  destruct Ha as [->| ->]; unfold mret, M_ret, set_seq, set_applied; cbn; by rewrite Hsn.
Qed.

Lemma apply_submit symbol side order_type quantity limit_price tif reduce_only :
  blank (sym_value symbol) = false ->
  let x ts := {| sn_client_order_id := cid; sn_lifecycle_state := _S.SUBMITTED;
        sn_exchange_order_id := None; sn_symbol := symbol; sn_side := side; sn_order_type := order_type;
        sn_quantity := quantity; sn_filled_quantity := d0; sn_limit_price := limit_price;
        sn_time_in_force := tif; sn_reduce_only := reduce_only;
        sn_created_at_utc := ts; sn_updated_at_utc := ts; sn_reject_reason := None |} in
  applicable (om_payload om "SUBMIT" cid seq None None None
      (submit_details symbol side order_type quantity limit_price tif reduce_only)) seq sn
    (fun ts => dset cid (x ts) sn) (fun ts => Some (x ts)).
Proof.
  intros Hb x e m Hp Hn Hsn. rewrite (apply_event_new om "SUBMIT" cid seq None None None
    (submit_details symbol side order_type quantity limit_price tif reduce_only)) //. cbn [String.eqb Ascii.eqb Bool.eqb].
  assert (Hs : submit_snapshot cid (JObj (submit_details symbol side order_type quantity limit_price tif reduce_only))
                 (ev_timestamp_utc e) = Ok (x (ev_timestamp_utc e))).
  { unfold submit_snapshot. cbn -[mk_Symbol jenum dec_parse enum_value]. unfold mk_Symbol. rewrite Hb.
    cbn -[jenum dec_parse enum_value]. rewrite !jenum_value. cbn -[jenum dec_parse enum_value].
    rewrite dec_parse_str. cbn -[jenum dec_parse enum_value].
    destruct limit_price as [lp|]; cbn -[jenum dec_parse enum_value]; rewrite ?dec_parse_str;
      cbn -[jenum enum_value]; rewrite ?jenum_value; cbn; by destruct symbol. }
  rewrite Hs. unfold mbind, M_bind, lift, modify, mret, M_ret. cbn -[dset dsetdefault]. eexists. rewrite Hsn. split; [reflexivity|]. intros c y. by rewrite dget_setdefault.
Qed.

Lemma apply_status t a b details x :
  dget cid sn = Some x -> sn_lifecycle_state x = a -> TRANSITION_TABLE a t = Some b ->
  let x' ts := replace_status x b (get_or "exchange_order_id" (JObj details) (sn_exchange_order_id x))
                 (get_or "reject_reason" (JObj details) (sn_reject_reason x)) ts in
  applicable (om_payload om "STATUS_UPDATE" cid seq (Some t) (Some a) (Some b) details) seq sn
    (fun ts => dset cid (x' ts) sn) (fun ts => Some (x' ts)).
Proof.
  intros Hx Ha Ht x' e m Hp Hn Hsn.
  rewrite (apply_event_new om "STATUS_UPDATE" cid seq (Some t) (Some a) (Some b) details) //.
  cbn [String.eqb Ascii.eqb Bool.eqb orb]. unfold mbind at 1, M_bind at 1, lift at 1.
  rewrite Hsn Hx. cbn [of_option]. unfold apply_transition. rewrite Hp.
  unfold mbind, M_bind, lift.
  rewrite (enum_item_opt "trigger" _ t) // (enum_item_opt "from_state" _ a) // (enum_item_opt "to_state" _ b) //.
  rewrite bool_decide_eq_true_2 //. cbn [negb]. unfold is_legal, next_state. rewrite Ht.
  cbn [of_option negb orb]. rewrite bool_decide_eq_true_2 //. cbn -[dset replace_status get_or].
  unfold put_snapshot, mbind, M_bind, modify, mret, M_ret. cbn -[dset replace_status get_or].
  rewrite Hsn. eexists. split; [reflexivity|done].
Qed.

Lemma apply_fill t a b x fill_id q price :
  dget cid sn = Some x -> sn_lifecycle_state x = a -> TRANSITION_TABLE a t = Some b ->
  let x' ts := replace_fill x b (dadd (sn_filled_quantity x) q) ts in
  applicable (om_payload om "FILL" cid seq (Some t) (Some a) (Some b)
      [("fill_id", JStr fill_id); ("fill_quantity", JStr (dec_str q)); ("fill_price", JStr price)]) seq sn
    (fun ts => dset cid (x' ts) sn) (fun ts => Some (x' ts)).
Proof.
  intros Hx Ha Ht x' e m Hp Hn Hsn.
  rewrite (apply_event_new om "FILL" cid seq (Some t) (Some a) (Some b)
    [("fill_id", JStr fill_id); ("fill_quantity", JStr (dec_str q)); ("fill_price", JStr price)]) //.
  cbn [String.eqb Ascii.eqb Bool.eqb orb]. unfold mbind at 1, M_bind at 1, lift at 1.
  rewrite Hsn Hx. cbn [of_option]. unfold apply_transition. rewrite Hp.
  unfold mbind, M_bind, lift.
  rewrite (enum_item_opt "trigger" _ t) // (enum_item_opt "from_state" _ a) // (enum_item_opt "to_state" _ b) //.
  rewrite bool_decide_eq_true_2 //. cbn [negb]. unfold is_legal, next_state. rewrite Ht.
  cbn [of_option negb orb]. rewrite bool_decide_eq_true_2 //. cbn -[dset replace_fill dec_parse].
  rewrite dec_parse_str. unfold put_snapshot, mbind, M_bind, modify, mret, M_ret. cbn -[dset replace_fill]. rewrite Hsn. eexists. split; [reflexivity|].
  intros c y. cbn. rewrite dget_dset. destruct (String.eqb c cid) eqn:Ec; [|done].
  apply String.eqb_eq in Ec as ->. cbn. set_solver.
Qed.

Lemma apply_amended q lp x : dget cid sn = Some x ->
  let x' ts := replace_amend x (if deqb q d0 then sn_quantity x else q) lp ts in
  applicable (om_payload om "AMEND" cid seq None None None
      [("new_quantity", JStr (dec_str q)); ("new_limit_price", opt_dec lp)]) seq sn
    (fun ts => dset cid (x' ts) sn) (fun ts => Some (x' ts)).
Proof.
  intros Hx x' e m Hp Hn Hsn.
  rewrite (apply_event_new om "AMEND" cid seq None None None
    [("new_quantity", JStr (dec_str q)); ("new_limit_price", opt_dec lp)]) //.
  cbn [String.eqb Ascii.eqb Bool.eqb orb]. unfold mbind at 1, M_bind at 1, lift at 1.
  rewrite Hsn Hx. cbn [of_option]. unfold apply_amend. rewrite Hp.
  unfold mbind, M_bind, lift. cbn -[dec_parse dset replace_amend deqb]. rewrite dec_parse_str.
  cbn -[dec_parse dset replace_amend deqb].
  destruct lp as [lp|]; cbn -[dec_parse dset replace_amend deqb]; rewrite ?dec_parse_str;
    unfold put_snapshot, mbind, M_bind, modify, mret, M_ret; cbn -[dset replace_amend deqb];
    rewrite Hsn; eexists; by split.
Qed.
End apply.

(** ** Idempotency keys *)

Definition place_id (om : string) (n : Z) : string := make_id om n "place".

(** The key of a cancel-all's first record for an order. *)
Definition pending_key (om cid : string) (n : Z) : string :=
  cid +:+ ":cancel_all_pending:" +:+ make_id om n "cancel_all".

(** [k] is not a key that sequence numbers from [s] on will use. *)
Definition unused_key (om : string) (s : Z) (k : string) : Prop :=
  forall n, s <= n -> k <> place_id om n /\ k <> "cancel_all:" +:+ make_id om n "cancel_all" /\
    forall m, 0 <= m -> k <> pending_key om (place_id om m) n.

Lemma place_id_tail om n m t t' : 0 <= n -> 0 <= m -> place_id om n +:+ t = place_id om m +:+ t' -> n = m /\ t = t'.
Proof.
  intros Hn Hm E. unfold place_id, make_id in E. rewrite !app_assoc_s in E.
  apply app_inj_l_s, app_inj_l_s, app_inj_l_s in E. apply int_str_colon_inj in E as [-> E]; [|done..].
  split; [done|]. by apply app_inj_l_s in E.
Qed.

Lemma unused_place om n s : 0 <= n < s -> unused_key om s (place_id om n).
Proof.
  intros Hn k Hk. split_and!; [|discriminate|].
  - intros E. apply make_id_inj in E; lia.
  - intros m Hm E. rewrite -(app_nil_r_s (place_id om n)) in E. apply place_id_tail in E as [_ E]; [done|lia|lia].
Qed.

(** A key made of an order id and a tail. *)
Lemma unused_tail om n s t : 0 <= n -> 0 <= s -> t <> "" ->
  (forall x, t <> ":cancel_all_pending:" +:+ x) -> unused_key om s (place_id om n +:+ t).
Proof.
  intros Hn Hs Ht Hp k Hk. split_and!; [|discriminate|].
  - intros E. rewrite -(app_nil_r_s (place_id om k)) in E. apply place_id_tail in E as [_ E]; [done|lia|lia].
  - intros m Hm E. apply place_id_tail in E as [_ E]; [by eapply Hp|lia|lia].
Qed.

Lemma unused_pending om n m s : 0 <= n -> 0 <= m < s -> unused_key om s (pending_key om (place_id om n) m).
Proof.
  intros Hn Hm k Hk. split_and!; [|discriminate|].
  - intros E. rewrite -(app_nil_r_s (place_id om k)) in E. apply place_id_tail in E as [_ E]; [done|lia|lia].
  - intros m' Hm' E. apply place_id_tail in E as [_ E]; [|lia|lia]. apply app_inj_l_s in E.
    apply make_id_inj in E; lia.
Qed.

Lemma unused_cancel_all om n s : 0 <= n < s -> unused_key om s ("cancel_all:" +:+ make_id om n "cancel_all").
Proof.
  intros Hn k Hk. split_and!; [discriminate| |discriminate].
  intros E. apply app_inj_l_s in E. apply make_id_inj in E; lia.
Qed.

Lemma unused_mono om s s' k : s <= s' -> unused_key om s k -> unused_key om s' k.
Proof. intros Hs Hk n Hn. apply Hk. lia. Qed.

Lemma om_key_inj om k k' : om_key om k = om_key om k' -> k = k'.
Proof. unfold om_key. intros E. by apply app_inj_l_s, app_inj_l_s, app_inj_l_s, app_inj_l_s in E. Qed.

(** ** The log and the manager rebuilt from it *)

Record good (om : string) (es : list Event) (m : OrderManager) : Prop := {
  g_replay : for_each (replay_step om) es (om_empty om) = (m, Ok tt);
  g_id : om_id m = om;
  g_own e : e ∈ es -> _is_own_event e om = true -> ev_id e ∈ om_applied_event_ids m;
  g_applied id : id ∈ om_applied_event_ids m -> exists e, e ∈ es /\ ev_id e = id;
  g_keys e k : e ∈ es -> key_of e = Some (om_key om k) -> _is_own_event e om = true;
  g_fresh e k : e ∈ es -> key_of e = Some (om_key om k) -> unused_key om (om_next_seq m) k;
  g_cids cid x : dget cid (om_snapshots m) = Some x -> exists n, 1 <= n < om_next_seq m /\ cid = place_id om n;
  g_seq : 1 <= om_next_seq m
}.

Lemma replay_step_other om e m : _is_own_event e om = false -> replay_step om e m = (m, Ok tt).
Proof. intros He. unfold replay_step. by rewrite He. Qed.

(** Events of other components change nothing. *)
Lemma good_other om es e m : good om es m -> _is_own_event e om = false ->
  (forall k, key_of e <> Some (om_key om k)) -> good om (es ++ [e]) m.
Proof.
  intros [Hr Hi Ho Ha Hk Hf Hc Hs] He Hn. split; try done.
  - by rewrite (for_each_snoc _ _ _ _ _ Hr) replay_step_other.
  - intros x [Hx|Hx%list_elem_of_singleton]%elem_of_app Hox; [by apply Ho|]. subst. congruence.
  - intros id Hid. destruct (Ha id Hid) as (x & Hx & Hxe). exists x. split; [apply elem_of_app; by left|done].
  - intros x k [Hx|Hx%list_elem_of_singleton]%elem_of_app Hkx; [by eapply Hk|]. subst. by destruct (Hn k).
  - intros x k [Hx|Hx%list_elem_of_singleton]%elem_of_app Hkx; [by eapply Hf|]. subst. by destruct (Hn k).
Qed.

Lemma own_payload_own om action cid seq t a b details e :
  ev_payload e = JObj (om_payload om action cid seq t a b details) -> _is_own_event e om = true.
Proof.
  intros Hp. unfold _is_own_event. rewrite Hp.
  change (jstr "source" _) with (Some _EVENT_SOURCE_TAG). change (jstr "om_id" _) with (Some om).
  by rewrite !bool_decide_eq_true_2.
Qed.

(** A new event of the manager. *)
Lemma good_own om es e k m m' s : good om es m -> _is_own_event e om = true -> key_of e = Some (om_key om k) ->
  _apply_event e m = (m', Ok s) ->
  om_id m' = om -> om_applied_event_ids m' = {[ev_id e]} ∪ om_applied_event_ids m ->
  om_next_seq m <= om_next_seq m' -> unused_key om (om_next_seq m') k ->
  (forall cid x, dget cid (om_snapshots m') = Some x ->
     (exists y, dget cid (om_snapshots m) = Some y) \/ exists n, 1 <= n < om_next_seq m' /\ cid = place_id om n) ->
  good om (es ++ [e]) m'.
Proof.
  intros [Hr Hi Ho Ha Hk Hf Hc Hs] He Hke Hap Hid Happ Hseq Hun Hcid. split; try done.
  - rewrite (for_each_snoc _ _ _ _ _ Hr). unfold replay_step. rewrite He. unfold mbind, M_bind. by rewrite Hap.
  - intros x [Hx|Hx%list_elem_of_singleton]%elem_of_app Hox; rewrite Happ.
    + apply elem_of_union. right. by apply Ho.
    + subst. apply elem_of_union. left. by apply elem_of_singleton.
  - intros id. rewrite Happ. intros [->%elem_of_singleton|Hin]%elem_of_union.
    + exists e. split; [apply elem_of_app; right; by left|done].
    + destruct (Ha id Hin) as (x & Hx & Hxe). exists x. split; [apply elem_of_app; by left|done].
  - intros x k' [Hx|Hx%list_elem_of_singleton]%elem_of_app Hkx; [by eapply Hk|]. by subst.
  - intros x k' [Hx|Hx%list_elem_of_singleton]%elem_of_app Hkx; [eapply unused_mono; [done|by eapply Hf]|].
    rewrite Hx Hke in Hkx. assert (Ek : om_key om k = om_key om k') by congruence. by apply om_key_inj in Ek as <-.
  - intros cid x Hx. destruct (Hcid cid x Hx) as [[y Hy]|?]; [|done].
    destruct (Hc cid y Hy) as (n & Hn & ->). exists n. split; [lia|done].
  - lia.
Qed.

(** Orders that have reached a terminal state keep their snapshot. *)
Definition stable (sn sn' : list (string * OrderSnapshot)) : Prop :=
  forall cid x, dget cid sn = Some x -> TERMINAL_STATES (sn_lifecycle_state x) = true -> dget cid sn' = Some x.

Lemma stable_refl sn : stable sn sn.
Proof. by intros cid x ? ?. Qed.

Lemma stable_trans sn1 sn2 sn3 : stable sn1 sn2 -> stable sn2 sn3 -> stable sn1 sn3.
Proof. intros H1 H2 cid x Hx Ht. apply H2; [|done]. by apply H1. Qed.

Lemma stable_dset sn cid y : (forall x, dget cid sn = Some x -> TERMINAL_STATES (sn_lifecycle_state x) = false) ->
  stable sn (dset cid y sn).
Proof.
  intros Hn c x Hx Ht. rewrite dget_dset. destruct (String.eqb c cid) eqn:E; [|done].
  apply String.eqb_eq in E as ->. rewrite (Hn x Hx) in Ht. done.
Qed.

Section world.
Context {L A : Type} `{EventLog L} `{Exchange A}.
Notation W := (World L A).

(** The manager agrees with its log, which extends [es0]; [sn0]'s closed orders
    are unchanged; the sequence numbers up to [s0] are used up in the log. *)
Record inv (om : string) (sn0 : list (string * OrderSnapshot)) (es0 : list Event) (s0 : Z) (w : W) : Prop := {
  i_log : log_ok (w_store w);
  i_good : exists m, good om (log_events (w_store w)) m /\ rebuilt (w_om w) m /\ s0 <= om_next_seq m;
  i_stable : stable sn0 (om_snapshots (w_om w));
  i_grows : es0 `prefix_of` log_events (w_store w)
}.

Lemma inv_id om sn0 es0 s0 w : inv om sn0 es0 s0 w -> om_id (w_om w) = om.
Proof. intros [_ (m & Hg & Hr & _) _ _]. by rewrite (rb_id _ _ Hr) (g_id _ _ _ Hg). Qed.

Lemma inv_cid om sn0 es0 s0 w cid x : inv om sn0 es0 s0 w -> dget cid (om_snapshots (w_om w)) = Some x ->
  exists n, 1 <= n < om_next_seq (w_om w) /\ cid = place_id om n.
Proof.
  intros [_ (m & Hg & Hr & _) _ _] Hx. rewrite (rb_snapshots _ _ Hr) in Hx.
  destruct (g_cids _ _ _ Hg cid x Hx) as (n & Hn & ->). exists n. split; [|done].
  pose proof (rb_seq _ _ Hr). lia.
Qed.

(** The outcomes of recording an event: nothing happened; the key was already
    used and nothing changed; or the event is in the log and applied. *)
Inductive recorded (p : list (string * json)) (sn' : json -> list (string * OrderSnapshot)) (ret : json -> option OrderSnapshot) (k : string)
    (w : W) : W -> result (option OrderSnapshot) -> Prop :=
  | rec_err w' x : w_om w' = w_om w -> w_esm w' = w_esm w -> w_adapter w' = w_adapter w ->
      log_events (w_store w') = log_events (w_store w) ->
      x ∈ [MalformedEventError; OSError; StructError] ->
      recorded p sn' ret k w w' (Err x)
  | rec_old w' e s : w_om w' = w_om w -> w_esm w' = w_esm w -> w_adapter w' = w_adapter w ->
      log_events (w_store w') = log_events (w_store w) ->
      e ∈ log_events (w_store w) -> key_of e = Some (om_key (om_id (w_om w)) k) ->
      recorded p sn' ret k w w' s
  | rec_new w' e : w_esm w' = w_esm w -> w_adapter w' = w_adapter w ->
      log_events (w_store w') = log_events (w_store w) ++ [e] ->
      (forall x, x ∈ log_events (w_store w) -> key_of x <> Some (om_key (om_id (w_om w)) k)) ->
      ev_payload e = JObj p -> key_of e = Some (om_key (om_id (w_om w)) k) ->
      om_snapshots (w_om w') = sn' (ev_timestamp_utc e) ->
      recorded p sn' ret k w w' (Ok (ret (ev_timestamp_utc e))).

Lemma record_spec om sn0 es0 s0 w action cid seq t a b details k sn' ret :
  inv om sn0 es0 s0 w -> json_wf (JObj details) = true ->
  applicable (om_payload om action cid seq t a b details) seq (om_snapshots (w_om w)) sn' ret ->
  (forall s, s0 <= s -> match seq with Some z => z < s | None => True end -> unused_key om s k) ->
  (forall ts c x, dget c (sn' ts) = Some x -> (exists y, dget c (om_snapshots (w_om w)) = Some y) \/
     exists n, seq = Some n /\ 1 <= n /\ c = place_id om n) ->
  (forall ts, stable (om_snapshots (w_om w)) (sn' ts)) ->
  let '(w', r) := record action cid seq t a b details k w in
  recorded (om_payload om action cid seq t a b details) sn' ret k w w' r /\
  inv om sn0 es0 s0 w' /\
  (forall s n, r = Ok s -> seq = Some n ->
     (forall e, e ∈ log_events (w_store w) -> key_of e <> Some (om_key om k)) -> inv om sn0 es0 (Z.max s0 (n + 1)) w').
Proof.
  intros Hi Hwf Hap Hun Hcid Hst. pose proof (inv_id _ _ _ _ _ Hi) as Hid.
  destruct Hi as [Hl (m & Hg & Hr & Hs0) Hstab Hgr].
  unfold record, mbind, M_bind, _persist, mbind, M_bind, get, on_store, zoom. cbv beta iota zeta. rewrite Hid.
  set (p := om_payload om action cid seq t a b details).
  assert (Hpwf : json_wf (JObj p) = true).
  { apply json_wf_obj. split; [apply (bool_decide_eq_true_1 _); vm_compute; reflexivity|].
    unfold p, om_payload. repeat (apply Forall_cons; split;
      [first [done | by destruct seq | by destruct t | by destruct a | by destruct b | exact Hwf]|]). by apply Forall_nil. }
  pose proof (log_append_ok (_event_type_for_action action b) p (Some (om_key om k)) (w_store w) Hl Hpwf) as Hl'.
  destruct (log_append _ p _ (w_store w)) as [l' r] eqn:Ea. cbn [fst] in Hl'.
  apply log_append_cases in Ea; [|done]. remember (log_events l') as es' eqn:Hes. symmetry in Hes.
  assert (Hsame : log_events l' = log_events (w_store w) -> forall o, rebuilt o m -> om_snapshots o = om_snapshots (w_om w) ->
     inv om sn0 es0 s0 {| w_store := l'; w_adapter := w_adapter w; w_esm := w_esm w; w_om := o |}).
  { intros E o Ho Hso. split; cbn; [done| |by rewrite Hso|by rewrite E]. exists m. by rewrite E. }
  destruct Ea as [k' e Hk Hf|e Hnone Hty Hpay Hke Hide|x Hx].
  - injection Hk as <-. apply find_event_Some in Hf as [He Hke].
    pose proof (g_keys _ _ _ Hg e k He Hke) as Hown. pose proof (g_own _ _ _ Hg e He Hown) as Happ.
    rewrite -(rb_applied _ _ Hr) in Happ. unfold on_om, zoom. cbn [w_om].
    assert (Hsnd : (_apply_event e (w_om w)).1 = w_om w).
    { unfold _apply_event, mbind, M_bind, get. rewrite bool_decide_eq_true_2 //. unfold lift.
      by destruct (of_option _ _). }
    destruct (_apply_event e (w_om w)) as [o s]. cbn [fst] in Hsnd. subst o.
    split; [|split].
    + apply (rec_old _ _ _ _ _ _ e); try done. cbn. by rewrite Hid.
    + destruct s; by apply Hsame.
    + intros s' n _ _ Hno. by destruct (Hno e He).
  - pose proof (own_payload_own _ _ _ _ _ _ _ _ _ Hpay) as Hown.
    assert (Hnew : ev_id e ∉ om_applied_event_ids m).
    { intros (x & Hx & Hxe)%(g_applied _ _ _ Hg). pose proof (next_id_fresh None _ _ (log_monotone _ Hl) Hx). lia. }
    destruct (Hap e m Hpay Hnew) as (fm & Hmm & Hfm); [symmetry; apply (rb_snapshots _ _ Hr)|].
    rewrite -(rb_applied _ _ Hr) in Hnew.
    destruct (Hap e (w_om w) Hpay Hnew eq_refl) as (fw & Hww & Hfw).
    unfold on_om, zoom. cbn [w_om w_store w_adapter w_esm]. rewrite Hww.
    pose proof (apply_event_simulates e (w_om w) m Hr) as [_ Hsim]. rewrite Hww Hmm in Hsim. cbn [fst] in Hsim.
    set (m' := {| om_id := om_id m; om_snapshots := _ |}) in Hsim, Hmm.
    assert (Hg' : good om (log_events (w_store w) ++ [e]) m').
    { apply (good_own om _ e k m m' (ret (ev_timestamp_utc e))); try done.
      - cbn. apply (g_id _ _ _ Hg).
      - cbn. destruct seq; cbn; lia.
      - apply Hun; cbn; destruct seq; cbn; lia.
      - cbn. intros c x Hx. destruct (Hcid _ _ _ Hx) as [[y Hy]|(n & -> & Hn & ->)].
        + left. exists y. by rewrite -(rb_snapshots _ _ Hr).
        + right. exists n. split; [cbn; lia|done]. }
    assert (Hinv : forall s1, s1 <= om_next_seq m' -> inv om sn0 es0 s1
      {| w_store := l'; w_adapter := w_adapter w; w_esm := w_esm w;
         w_om := {| om_id := om_id (w_om w); om_snapshots := sn' (ev_timestamp_utc e); om_processed_fill_ids := fw;
                    om_applied_event_ids := {[ev_id e]} ∪ om_applied_event_ids (w_om w);
                    om_next_seq := bump seq (om_next_seq (w_om w)) |} |}).
    { intros s1 Hs1. split; cbn; [done| |by eapply stable_trans|rewrite Hes; by apply prefix_app_r]. exists m'. by rewrite Hes. }
    split; [|split].
    + apply (rec_new _ _ _ _ _ _ e); try done; cbn; rewrite ?Hid //. by apply find_event_None, Hnone.
    + apply Hinv. cbn. destruct seq; cbn; lia.
    + intros s' n [= <-] -> _. apply Hinv. cbn. lia.
  - split; [by apply rec_err|]. split; [|done]. by apply Hsame.
Qed.

(** ** The pieces of an operation keep the invariant *)

Context (om : string) (sn0 : list (string * OrderSnapshot)) (es0 : list Event).

Lemma inv_weaken s0 s1 w : s0 <= s1 -> inv om sn0 es0 s1 w -> inv om sn0 es0 s0 w.
Proof. intros Hs [Hl (m & Hg & Hr & Hm) Hst Hgr]. split; try done. exists m. split_and!; try done. lia. Qed.

Lemma adapter_preserves s0 {X} (m : M A X) : preserves (inv om sn0 es0 s0) (on_adapter m).
Proof.
  intros w [Hl Hg Hst Hgr]. unfold on_adapter, zoom. destruct (m (w_adapter w)) as [a r]. by split.
Qed.

(** Nothing in the log uses the number [n] yet. *)
Record fresh (n : Z) (w : W) : Prop := {
  fs_pos : 1 <= n;
  fs_place e : e ∈ log_events (w_store w) -> key_of e <> Some (om_key om (place_id om n));
  fs_all e : e ∈ log_events (w_store w) -> key_of e <> Some (om_key om ("cancel_all:" +:+ make_id om n "cancel_all"));
  fs_pending e m : e ∈ log_events (w_store w) -> 0 <= m ->
    key_of e <> Some (om_key om (pending_key om (place_id om m) n));
  fs_new : dget (place_id om n) (om_snapshots (w_om w)) = None
}.

Lemma next_id_triple s0 suffix :
  triple (inv om sn0 es0 s0) (_next_id suffix) (fun r w =>
    inv om sn0 es0 s0 w /\ match r with
                        | Ok (n, id) => id = make_id om n suffix /\ s0 <= n /\ fresh n w
                        | Err _ => False
                        end).
Proof.
  intros w Hi. pose proof (inv_id _ _ _ _ _ Hi) as Hid. destruct Hi as [Hl (m & Hg & Hr & Hm) Hst Hgr].
  unfold _next_id, on_om, zoom. cbn [fst snd]. rewrite Hid. set (n := om_next_seq (w_om w)).
  pose proof (rb_seq _ _ Hr) as Hseq. fold n in Hseq. pose proof (g_seq _ _ _ Hg) as H1.
  split; [|split; [done|split; [lia|]]].
  - split; [done| |done|done]. exists m. split; [done|]. split; [|done].
    destruct Hr as [? ? ? ? ?]. split; try done. cbn. lia.
  - split; cbn [w_store w_om om_snapshots set_seq].
    + lia.
    + intros e He Hk. destruct (g_fresh _ _ _ Hg e _ He Hk n ltac:(lia)) as [Hne _]. by apply Hne.
    + intros e He Hk. destruct (g_fresh _ _ _ Hg e _ He Hk n ltac:(lia)) as (_ & Hne & _). by apply Hne.
    + intros e k He Hk0 Hk. destruct (g_fresh _ _ _ Hg e _ He Hk n ltac:(lia)) as (_ & _ & Hne). by apply (Hne k Hk0).
    + destruct (dget (place_id om n) (om_snapshots (w_om w))) as [x|] eqn:E; [|done].
      rewrite (rb_snapshots _ _ Hr) in E. destruct (g_cids _ _ _ Hg _ x E) as (k & Hk & Ek).
      apply make_id_inj in Ek; lia.
Qed.

(** What another component records (here: the execution state machine). *)
Lemma inv_other s0 w w' e : inv om sn0 es0 s0 w -> log_ok (w_store w') -> w_om w' = w_om w ->
  log_events (w_store w') = log_events (w_store w) ++ [e] ->
  _is_own_event e om = false -> (forall k, key_of e <> Some (om_key om k)) -> inv om sn0 es0 s0 w'.
Proof.
  intros [Hl (m & Hg & Hr & Hm) Hst Hgr] Hl' Ho He Hown Hk. split; [done| |by rewrite Ho|rewrite He; by apply prefix_app_r].
  exists m. rewrite He Ho. split; [by apply good_other|done].
Qed.

Lemma esm_key_other mid rid k : ESM._namespaced_key mid rid <> om_key om k.
Proof. discriminate. Qed.

Lemma esm_event_other mid t a b ctx e : ExecStateMachineFacts.own_event mid t a b ctx e -> _is_own_event e om = false.
Proof.
  intros He. unfold _is_own_event. rewrite He.
  change (jstr "source" _) with (Some ESM._EVENT_SOURCE_TAG). by rewrite bool_decide_eq_false_2.
Qed.

(** The effect of a report to the execution state machine: at most one event
    of its own is added to the log. *)
Definition quiet (w w' : W) : Prop :=
  log_ok (w_store w') /\ w_om w' = w_om w /\ w_adapter w' = w_adapter w /\
  (log_events (w_store w') = log_events (w_store w) \/
   exists e, log_events (w_store w') = log_events (w_store w) ++ [e] /\ _is_own_event e om = false /\
             forall k, key_of e <> Some (om_key om k)).

Lemma esm_quiet t rid cid w : log_ok (w_store w) ->
  quiet w (on_esm (ESM.transition t rid [("client_order_id", JStr cid)]) w).1.
Proof.
  intros Hl. unfold on_esm, zoom.
  pose proof (ExecStateMachineFacts.transition_log_ok t rid [("client_order_id", JStr cid)] (w_store w, w_esm w)
    eq_refl Hl) as Hl'.
  pose proof (ExecStateMachineFacts.transition_spec t rid [("client_order_id", JStr cid)] (w_store w, w_esm w) Hl) as Hs.
  destruct (ESM.transition t rid _ (w_store w, w_esm w)) as [[l' m'] r]. cbn [fst snd] in *.
  split; [done|]. split; [done|]. split; [done|]. cbn [w_store].
  inversion Hs as [| | |b store x ? ? ? ? He ?|b store e ? ? ? Ht Ho Hk He]; subst; try by left.
  right. exists e. split; [exact He|]. split; [by eapply esm_event_other|].
  intros k Hk'. rewrite Hk in Hk'. apply (esm_key_other (ESM.esm_machine_id (w_esm w)) rid k).
  by apply (inj Some).
Qed.

Lemma quiet_inv s0 w w' : inv om sn0 es0 s0 w -> quiet w w' -> inv om sn0 es0 s0 w'.
Proof.
  intros Hi (Hl & Ho & _ & [He|(e & He & Hown & Hk)]).
  - destruct Hi as [_ (m & Hg & Hr & Hm) Hst Hgr]. split; rewrite ?Ho ?He //. by exists m.
  - by eapply inv_other.
Qed.

Lemma drive_quiet cid t a s w : log_ok (w_store w) -> quiet w (_drive_execution_sm cid t a s w).1.
Proof.
  intros Hl. assert (Hsame : quiet w w) by (split_and!; auto).
  unfold _drive_execution_sm, mbind at 1, M_bind at 1, lift.
  destruct (exec_trigger_of t a s) as [[tr|]|e]; [|done|done]. unfold catch.
  pose proof (esm_quiet tr (exec_request_id cid tr) cid w Hl) as Hq.
  unfold mbind, M_bind. destruct (on_esm _ w) as [w' [x|e]]; [done|]. cbn in *. by destruct (bool_decide _).
Qed.

Lemma drive_preserves s0 cid t a s : preserves (inv om sn0 es0 s0) (_drive_execution_sm cid t a s).
Proof. intros w Hi. eapply quiet_inv; [done|]. apply drive_quiet. apply (i_log _ _ _ _ _ Hi). Qed.

Section operations.
Context (s0 : Z) (Hs0 : 0 <= s0).
Implicit Types (w : W).
Notation I := (inv om sn0 es0 s0).

(** Reading an order's snapshot first. *)
Lemma preserves_snapshot {X} cid (f : OrderSnapshot -> M W X) :
  (forall x w, I w -> dget cid (om_snapshots (w_om w)) = Some x -> I (f x w).1) ->
  preserves I (x ← snapshot_of cid; f x).
Proof.
  intros Hf w Hi. unfold mbind, M_bind, snapshot_of. destruct (dget cid (om_snapshots (w_om w))) as [x|] eqn:E; [|done].
  by apply Hf.
Qed.

Lemma preserves_tracked {X} cid (f : OrderSnapshot -> M W X) :
  (forall x w, I w -> dget cid (om_snapshots (w_om w)) = Some x -> I (f x w).1) ->
  preserves I (x ← tracked cid; f x).
Proof.
  intros Hf w Hi. unfold mbind, M_bind, tracked. destruct (dget cid (om_snapshots (w_om w))) as [x|] eqn:E; [|done].
  by apply Hf.
Qed.

(** Recording something about an order that is already tracked. *)
Lemma record_tracked w action cid seq t a b details k x y ret :
  I w -> dget cid (om_snapshots (w_om w)) = Some x -> TERMINAL_STATES (sn_lifecycle_state x) = false ->
  json_wf (JObj details) = true ->
  applicable (om_payload om action cid seq t a b details) seq (om_snapshots (w_om w))
    (fun ts => dset cid (y ts) (om_snapshots (w_om w))) ret ->
  (forall s, s0 <= s -> match seq with Some z => z < s | None => True end -> unused_key om s k) ->
  let m := record action cid seq t a b details k w in
  recorded (om_payload om action cid seq t a b details) (fun ts => dset cid (y ts) (om_snapshots (w_om w))) ret k w m.1 m.2 /\
  I m.1.
Proof.
  intros Hi Hx Ht Hwf Hap Hk.
  pose proof (record_spec om sn0 es0 s0 w action cid seq t a b details k _ ret Hi Hwf Hap Hk) as Hr.
  destruct (record _ _ _ _ _ _ _ _ w) as [w' r]. destruct Hr as (Hr1 & Hr2 & _); [| |by split].
  - intros ts c z. rewrite dget_dset. destruct (String.eqb c cid) eqn:E.
    + apply String.eqb_eq in E as ->. left. by exists x.
    + left. by exists z.
  - intros ts. apply stable_dset. congruence.
Qed.

(** The key of a record about a tracked order. *)
Lemma tracked_key w cid x tail s : I w -> dget cid (om_snapshots (w_om w)) = Some x -> s0 <= s ->
  tail <> "" -> (forall y, tail <> ":cancel_all_pending:" +:+ y) -> unused_key om s (cid +:+ tail).
Proof.
  intros Hi Hx Hs H1 H2. destruct (inv_cid _ _ _ _ _ _ _ Hi Hx) as (n & Hn & ->). apply unused_tail; lia || done.
Qed.

Lemma record_status w cid seq t a b details tail x :
  I w -> dget cid (om_snapshots (w_om w)) = Some x -> sn_lifecycle_state x = a -> TRANSITION_TABLE a t = Some b ->
  json_wf (JObj details) = true -> tail <> "" -> (forall y, tail <> ":cancel_all_pending:" +:+ y) ->
  I (record "STATUS_UPDATE" cid seq (Some t) (Some a) (Some b) details (cid +:+ tail) w).1.
Proof.
  intros Hi Hx Ha Ht Hwf H1 H2. eapply proj2, (record_tracked w _ cid seq); [done|exact Hx| |done|by apply apply_status|].
  - rewrite Ha. by eapply edge_not_terminal.
  - intros s Hs _. by eapply tracked_key.
Qed.

Lemma ingest_preserves cid status ex reason : preserves I (_ingest_status cid status ex reason).
Proof.
  unfold _ingest_status. destruct (_STATUS_TO_TRIGGER status) as [t|].
  2: by intros w Hi.
  apply preserves_snapshot. intros x w Hi Hx. destruct (TRANSITION_TABLE (sn_lifecycle_state x) t) as [b|] eqn:Ht.
  - apply bind_fst.
    + eapply record_status; try done. by destruct ex, reason.
    + intros s. apply preserves_bind; [apply drive_preserves|]. intros _. unfold the_snapshot. auto with turtle.
  - destruct (TERMINAL_STATES _); [done|]. unfold mbind, M_bind, lift.
    destruct (trigger_min_target_rank t); [|done]. by destruct (_ <=? _).
Qed.

Lemma record_failure_preserves cid t tail : tail <> "" -> (forall y, tail <> ":cancel_all_pending:" +:+ y) ->
  preserves I (record_failure cid t (cid +:+ tail)).
Proof.
  intros H1 H2. apply preserves_snapshot. intros x w Hi Hx.
  destruct (TRANSITION_TABLE (sn_lifecycle_state x) t) as [b|] eqn:Ht; [|done].
  apply bind_fst; [|auto with turtle]. by eapply record_status.
Qed.

Lemma report_order_update_preserves cid o : preserves I (report_order_update cid o).
Proof. apply preserves_tracked. intros x w Hi _. by apply ingest_preserves. Qed.

Lemma add_fill_preserves cid f : preserves I (on_om (modify (add_fill cid f))).
Proof.
  intros w [Hl (m & Hg & Hr & Hm) Hst Hgr]. split; try done. exists m. split_and!; try done.
  destruct Hr as [? ? ? ? Hf]. split; try done. cbn. intros c x Hx. apply Hf in Hx. rewrite dget_dset.
  destruct (String.eqb c cid) eqn:E; [|done]. apply String.eqb_eq in E as ->. cbn. set_solver.
Qed.

Lemma report_fill_preserves cid f : preserves I (report_fill cid f).
Proof.
  apply preserves_tracked. intros x w Hi Hx. unfold mbind at 1, M_bind at 1, get. case_bool_decide; [done|].
  destruct (TERMINAL_STATES (sn_lifecycle_state x)) eqn:Hterm.
  { apply bind_fst; [by apply add_fill_preserves|auto with turtle]. }
  set (t := if dleb _ _ then _ else _). destruct (TRANSITION_TABLE (sn_lifecycle_state x) t) as [b|] eqn:Ht; [|done].
  apply bind_fst.
  - eapply proj2, (record_tracked w _ cid None); [done|exact Hx|done|done|by apply apply_fill|].
    intros s Hs _. by eapply tracked_key.
  - intros s. apply preserves_bind; [apply drive_preserves|]. intros _. unfold the_snapshot. auto with turtle.
Qed.

Lemma resync_preserves cid : preserves I (resync_order cid).
Proof.
  apply preserves_tracked. intros x w Hi _. destruct (sn_exchange_order_id x) as [i|].
  - apply bind_fst; [by apply adapter_preserves|]. intros o. apply ingest_preserves.
  - apply bind_fst; [done|]. intros req. apply preserves_bind; [apply adapter_preserves|].
    intros [o|]; [apply ingest_preserves|auto with turtle].
Qed.

(** The fixed shape of an operation with a new id: take it, then go on. *)
Lemma with_id {X} suffix (f : Z * string -> M W X) w : I w ->
  (forall n w', I w' -> s0 <= n -> fresh n w' -> om_snapshots (w_om w') = om_snapshots (w_om w) ->
     w_store w' = w_store w -> w_adapter w' = w_adapter w -> I (f (n, make_id om n suffix) w').1) ->
  I ((_next_id suffix ≫= f) w).1.
Proof.
  intros Hi Hf. pose proof (next_id_triple s0 suffix w Hi) as Ht. unfold mbind, M_bind.
  assert (Hsame : om_snapshots (w_om (_next_id suffix w).1) = om_snapshots (w_om w) /\
                  w_store (_next_id suffix w).1 = w_store w /\ w_adapter (_next_id suffix w).1 = w_adapter w) by done.
  destruct (_next_id suffix w) as [w' [[n i]|e]]; cbn [fst snd] in *; [|by destruct Ht].
  destruct Ht as (Hi' & -> & Hn & Hfr), Hsame as (? & ? & ?). by apply Hf.
Qed.

(** An intent changes no order. *)
Lemma record_intent w action cid n details tail x : action = "AMEND_REQUESTED" ->
  I w -> dget cid (om_snapshots (w_om w)) = Some x -> json_wf (JObj details) = true ->
  tail <> "" -> (forall y, tail <> ":cancel_all_pending:" +:+ y) ->
  let m := record action cid (Some n) None None None details (cid +:+ tail) w in
  I m.1 /\ om_snapshots (w_om m.1) = om_snapshots (w_om w).
Proof.
  intros Ha Hi Hx Hwf H1 H2.
  pose proof (record_spec om sn0 es0 s0 w action cid (Some n) None None None details (cid +:+ tail) _ _ Hi Hwf
    (apply_intent om cid (Some n) (om_snapshots (w_om w)) action details (or_intror Ha))) as Hr.
  destruct (record _ _ _ _ _ _ _ _ w) as [w' r].
  destruct Hr as (Hr & Hi' & _); [| | |split; [done|]].
  - intros s Hs _. by eapply tracked_key.
  - intros _ c z Hz. left. by exists z.
  - intros _. apply stable_refl.
  - destruct Hr as [w' e Ho|w' e s' Ho|w' e _ _ _ _ _ _ Ho]; cbn; by rewrite Ho.
Qed.

Lemma amend_preserves cid q lp : preserves I (amend_order cid q lp).
Proof.
  unfold amend_order. destruct (_ && _); [apply preserves_raise|].
  apply preserves_tracked. intros x w Hi Hx. destruct (_ || _) eqn:Hst; [|done]. cbn [negb].
  destruct (sn_exchange_order_id x) as [ex|]; [|done].
  assert (Hterm : TERMINAL_STATES (sn_lifecycle_state x) = false).
  { apply orb_true_iff in Hst as [Hst|Hst]; apply bool_decide_eq_true in Hst; by rewrite Hst. }
  apply with_id; [done|]. intros n w1 Hi1 Hn Hfr Hsn _ _. rewrite -Hsn in Hx. unfold mbind at 1, M_bind at 1.
  match goal with |- context [record "AMEND_REQUESTED" cid _ _ _ _ ?d (cid +:+ ?t) w1] =>
    pose proof (record_intent w1 "AMEND_REQUESTED" cid n d t x eq_refl Hi1 Hx) as Hr end.
  destruct (record "AMEND_REQUESTED" _ _ _ _ _ _ _ w1) as [w2 [r|e]];
    (destruct Hr as [Hi2 Hsn2]; [by destruct q, lp|done|done|]); [|done].
  cbn [fst] in Hi2, Hsn2. rewrite -Hsn2 in Hx.
  unfold mbind at 1, M_bind at 1, lift at 1. destruct (mk_AmendRequest _) as [req|e]; [|done].
  unfold mbind at 1, M_bind at 1. pose proof (adapter_preserves s0 (ex_amend_order req) w2 Hi2) as Hi3.
  assert (Hsn3 : w_om (on_adapter (ex_amend_order req) w2).1 = w_om w2).
  { unfold on_adapter, zoom. by destruct (ex_amend_order req (w_adapter w2)). }
  destruct (on_adapter (ex_amend_order req) w2) as [w3 [o|e]]; [|done]. cbn [fst] in Hi3, Hsn3. rewrite -Hsn3 in Hx.
  apply bind_fst; [|intros s; unfold the_snapshot; auto with turtle].
  eapply proj2, (record_tracked w3 _ cid None); [done|exact Hx|done|by destruct (o_limit_price o)|by apply apply_amended|].
  intros s Hs _. by eapply tracked_key.
Qed.

Lemma cancel_preserves cid : preserves I (cancel_order cid).
Proof.
  apply preserves_tracked. intros x w Hi Hx. case_bool_decide; [done|].
  destruct (TRANSITION_TABLE (sn_lifecycle_state x) _T.CANCEL_REQUESTED) as [b|] eqn:Ht; [|done].
  destruct (sn_exchange_order_id x) as [ex|]; [|done].
  apply with_id; [done|]. intros n w1 Hi1 Hn Hfr Hsn _ _. rewrite -Hsn in Hx.
  apply bind_fst; [by eapply record_status|]. intros _. apply preserves_bind; [auto with turtle|]. intros req.
  apply preserves_bind; [apply preserves_on_exception; [apply adapter_preserves|]|].
  - by apply (record_failure_preserves cid _T.CANCEL_FAILED (":cancel_failed:" +:+ _)).
  - intros o. apply ingest_preserves.
Qed.

Lemma submit_details_wf symbol side order_type quantity limit_price tif ro :
  json_wf (JObj (submit_details symbol side order_type quantity limit_price tif ro)) = true.
Proof. by destruct limit_price. Qed.

(** The submission record of a new order: in the log under a key that was not
    there, or the operation stops. *)
Lemma record_submit w n symbol side order_type quantity limit_price tif ro :
  I w -> s0 <= n -> fresh n w -> blank (sym_value symbol) = false ->
  let cid := place_id om n in
  let details := submit_details symbol side order_type quantity limit_price tif ro in
  let m := record "SUBMIT" cid (Some n) None None None details cid w in
  I m.1 /\ match m.2 with
           | Ok _ => exists e, log_events (w_store m.1) = log_events (w_store w) ++ [e] /\
               key_of e = Some (om_key om cid) /\
               ev_payload e = JObj (om_payload om "SUBMIT" cid (Some n) None None None details) /\
               w_adapter m.1 = w_adapter w /\
               exists x, m.2 = Ok (Some x) /\ dget cid (om_snapshots (w_om m.1)) = Some x /\
                 sn_lifecycle_state x = _S.SUBMITTED /\ sn_exchange_order_id x = None /\ sn_quantity x = quantity
           | Err _ => w_om m.1 = w_om w /\ log_events (w_store m.1) = log_events (w_store w) /\ w_adapter m.1 = w_adapter w
           end.
Proof.
  intros Hi Hn Hf Hb cid details. pose proof (fs_pos _ _ Hf) as Hpos.
  pose proof (record_spec om sn0 es0 s0 w "SUBMIT" cid (Some n) None None None details cid _ _ Hi
    (submit_details_wf _ _ _ _ _ _ _)
    (apply_submit om cid (Some n) (om_snapshots (w_om w)) symbol side order_type quantity limit_price tif ro Hb)) as Hr.
  pose proof (inv_id _ _ _ _ _ Hi) as Hid.
  destruct (record _ _ _ _ _ _ _ _ w) as [w' r].
  destruct Hr as (Hr & Hi' & _); [| | |split; [done|]].
  - intros s _ Hs. apply unused_place. lia.
  - intros ts c z. rewrite dget_dset. destruct (String.eqb c cid) eqn:E.
    + apply String.eqb_eq in E as ->. right. by exists n.
    + left. by exists z.
  - intros ts. apply stable_dset. intros z Hz. pose proof (fs_new _ _ Hf) as Hnone. unfold cid in Hz. congruence.
  - destruct Hr as [w' e Ho Hes Had Hev|w' e s' Ho Hes Had Hev Hin Hk|w' e Hes Had Hev _ Hp Hk Ho]; cbn.
    + by rewrite Ho Hev Had.
    + rewrite Hid in Hk. by destruct (fs_place _ _ Hf e Hin).
    + exists e. rewrite Hev Had Ho Hk Hid Hp dget_dset_eq. split_and!; try done. by eexists.
Qed.

(** What [place_order] does after the submission is recorded. *)
Definition place_rest (symbol : Symbol) side order_type quantity limit_price tif ro client_order_id
    (snapshot : option OrderSnapshot) : M W OrderSnapshot :=
  _drive_execution_sm client_order_id DriveSubmit (Some _S.NEW) snapshot;;
  request ← lift (mk_OrderRequest
    {| or_client_order_id := client_order_id; or_symbol := symbol; or_side := side;
       or_order_type := order_type; or_quantity := quantity; or_limit_price := limit_price;
       or_time_in_force := tif; or_reduce_only := ro |});
  order ← on_exception is_adapter_error (on_adapter (ex_place_order request))
            (record_failure client_order_id _T.SUBMIT_FAILED (client_order_id +:+ ":submit_failed"));
  if bool_decide (o_status order = OrderStatus.REJECTED)
  then _ingest_status client_order_id OrderStatus.REJECTED (o_exchange_order_id order) None
  else _ingest_status client_order_id OrderStatus.ACKNOWLEDGED (o_exchange_order_id order) None.

Lemma place_rest_preserves symbol side order_type quantity limit_price tif ro cid s :
  preserves I (place_rest symbol side order_type quantity limit_price tif ro cid s).
Proof.
  apply preserves_bind; [apply drive_preserves|]. intros _. apply preserves_bind; [auto with turtle|]. intros req.
  apply preserves_bind; [apply preserves_on_exception; [apply adapter_preserves|by apply record_failure_preserves]|].
  intros o. destruct (bool_decide _); apply ingest_preserves.
Qed.

Lemma place_preserves symbol side order_type quantity limit_price tif ro : blank (sym_value symbol) = false ->
  preserves I (place_order symbol side order_type quantity limit_price tif ro).
Proof.
  intros Hb w Hi. apply with_id; [done|]. intros n w1 Hi1 Hn Hfr Hsn _ _.
  apply bind_fst; [|intros s; apply place_rest_preserves]. by apply record_submit.
Qed.
End operations.

(** ** Cancelling every order *)

Section cancel_all.
Context (n : Z) (Hn : 1 <= n).
Notation request_id := (make_id om n "cancel_all").

(** An order with a pending record of this request is not open any more. *)
Definition pended (w : W) : Prop := forall e m x, e ∈ log_events (w_store w) -> 0 <= m ->
  key_of e = Some (om_key om (pending_key om (place_id om m) n)) ->
  dget (place_id om m) (om_snapshots (w_om w)) = Some x ->
  sn_lifecycle_state x <> _S.ACKNOWLEDGED /\ sn_lifecycle_state x <> _S.PARTIALLY_FILLED.

Definition cancelling (w : W) : Prop := inv om sn0 es0 (n + 1) w /\ pended w.

Lemma pended_same w w' : om_snapshots (w_om w') = om_snapshots (w_om w) ->
  log_events (w_store w') = log_events (w_store w) -> pended w -> pended w'.
Proof. intros Ho He Hp. unfold pended. by rewrite Ho He. Qed.

Lemma cancelling_quiet w w' : quiet w w' -> cancelling w -> cancelling w'.
Proof.
  intros Hq [Hi Hp]. split; [by eapply quiet_inv|]. destruct Hq as (_ & Ho & _ & [He|(e & He & _ & Hk)]).
  - by eapply pended_same; [rewrite Ho| |].
  - intros x m y. rewrite He Ho. intros [Hx|Hx%list_elem_of_singleton]%elem_of_app; [by apply Hp|].
    subst. intros _ Hkx. by destruct (Hk _ Hkx).
Qed.

(** Moving an order to a state that is not open. *)
Lemma record_pended w cid t a b details k x : cancelling w ->
  dget cid (om_snapshots (w_om w)) = Some x -> sn_lifecycle_state x = a -> TRANSITION_TABLE a t = Some b ->
  json_wf (JObj details) = true ->
  (forall s, n + 1 <= s -> unused_key om s k) ->
  (forall m, 0 <= m -> k = pending_key om (place_id om m) n -> cid = place_id om m) ->
  b <> _S.ACKNOWLEDGED -> b <> _S.PARTIALLY_FILLED ->
  let m := record "STATUS_UPDATE" cid None (Some t) (Some a) (Some b) details k w in
  cancelling m.1 /\
  (is_ok m.2 = true -> (exists e, e ∈ log_events (w_store w) /\ key_of e = Some (om_key om k)) \/
     exists y, dget cid (om_snapshots (w_om m.1)) = Some y /\ sn_lifecycle_state y = b).
Proof.
  intros [Hi Hp] Hx Ha Ht Hwf Hk Hcid Hb1 Hb2. pose proof (inv_id _ _ _ _ _ Hi) as Hid.
  assert (Hterm : TERMINAL_STATES (sn_lifecycle_state x) = false) by (rewrite Ha; by eapply edge_not_terminal).
  destruct (record_tracked (n + 1) w "STATUS_UPDATE" cid None (Some t) (Some a) (Some b) details k x _ _ Hi Hx Hterm Hwf
      (apply_status om cid None _ t a b details x Hx Ha Ht)) as [Hr Hi']; [intros s Hs _; by apply Hk|].
  set (m := record _ _ _ _ _ _ _ _ w) in *. cbv zeta in Hr. split; [split; [done|]|].
  - destruct Hr as [w' e Ho Hes Had Hev|w' e s' Ho Hes Had Hev Hin Hke|w' e Hes Had Hev _ _ Hke Ho].
    + apply (pended_same w); by rewrite ?Ho ?Hev.
    + apply (pended_same w); by rewrite ?Ho ?Hev.
    + intros e' m' y. rewrite Hev Ho dget_dset. intros He' Hm' Hke' Hy.
      destruct (String.eqb (place_id om m') cid) eqn:Ec; [by injection Hy as <-|].
      apply elem_of_app in He' as [He'|He'%list_elem_of_singleton]; [by eapply Hp|]. exfalso. subst e'.
      rewrite Hid in Hke. assert (Ek : om_key om k = om_key om (pending_key om (place_id om m') n)) by congruence.
      apply om_key_inj, Hcid in Ek; [|done]. rewrite Ek String.eqb_refl in Ec. done.
  - destruct Hr as [w' e Ho Hes Had Hev|w' e s' Ho Hes Had Hev Hin Hke|w' e Hes Had Hev _ _ Hke Ho]; [done| |].
    + left. exists e. split; [done|]. by rewrite -Hid.
    + right. rewrite Ho dget_dset_eq. eexists. split; [reflexivity|]. done.
Qed.

(** The second half of confirming one order. *)
Definition confirm_rest cid (ex : option string) (current : OrderLifecycleState) : M W (list OrderSnapshot) :=
  if bool_decide (current = _S.CANCEL_PENDING) then
    conf_state ← lift (next_state current _T.CANCEL_CONFIRMED);
    snapshot ← record "STATUS_UPDATE" cid None (Some _T.CANCEL_CONFIRMED) (Some current) (Some conf_state)
      [("exchange_order_id", opt_str ex)] (cid +:+ ":cancel_all_confirm:" +:+ request_id);
    _drive_execution_sm cid (DriveTrigger _T.CANCEL_CONFIRMED) (Some _S.CANCEL_PENDING) snapshot;;
    s ← the_snapshot snapshot;
    mret [s]
  else mret [].

Lemma confirm_rest_cancelling cid ex x w : cancelling w -> dget cid (om_snapshots (w_om w)) = Some x ->
  cancelling (confirm_rest cid ex (sn_lifecycle_state x) w).1.
Proof.
  intros Hw Hx. destruct (inv_cid _ _ _ _ _ _ _ (proj1 Hw) Hx) as (k & Hk & ->).
  unfold confirm_rest. case_bool_decide as Hs; [|done]. rewrite Hs.
  change (next_state _S.CANCEL_PENDING _T.CANCEL_CONFIRMED) with (Ok _S.CANCELLED).
  change (lift (Ok _S.CANCELLED) ≫= ?f) with (f _S.CANCELLED).
  apply (bind_fst _ _ cancelling).
  - eapply (record_pended w _ _ _ _ _ _ x); try done; [by destruct ex| |].
    + intros s Hs1. apply unused_tail; lia || done.
    + intros m Hm E. apply place_id_tail in E as [_ E]; [done|lia|lia].
  - intros snap. apply preserves_bind.
    + intros w1 Hw1. eapply cancelling_quiet; [|done]. apply drive_quiet. apply (i_log _ _ _ _ _ (proj1 Hw1)).
    + intros _. unfold the_snapshot. apply preserves_bind; auto with turtle.
Qed.

Lemma confirm_cancelling o : preserves cancelling (confirm_cancel request_id o).
Proof.
  intros w Hw. unfold confirm_cancel, mbind at 1, M_bind at 1, get.
  set (cid := o_client_order_id o). destruct (dget cid (om_snapshots (w_om w))) as [x|] eqn:Hx; [|done].
  destruct (inv_cid _ _ _ _ _ _ _ (proj1 Hw) Hx) as (k & Hk & Ek).
  destruct (bool_decide (sn_lifecycle_state x = _S.ACKNOWLEDGED) || _) eqn:Hopen.
  2:{ by apply (confirm_rest_cancelling cid (o_exchange_order_id o) x). }
  assert (Hst : sn_lifecycle_state x = _S.ACKNOWLEDGED \/ sn_lifecycle_state x = _S.PARTIALLY_FILLED).
  { apply orb_true_iff in Hopen as [H1|H1]; apply bool_decide_eq_true in H1; auto. }
  assert (Ht : TRANSITION_TABLE (sn_lifecycle_state x) _T.CANCEL_REQUESTED = Some _S.CANCEL_PENDING)
    by (destruct Hst as [-> | ->]; reflexivity).
  unfold mbind at 1, M_bind at 1, mbind at 1, M_bind at 1, lift at 1, next_state at 1. rewrite Ht. cbn [of_option].
  unfold mbind at 1, M_bind at 1.
  pose proof (record_pended w cid _T.CANCEL_REQUESTED (sn_lifecycle_state x) _S.CANCEL_PENDING
    [("request_id", JStr request_id)] (pending_key om cid n) x Hw Hx eq_refl Ht eq_refl) as Hr.
  fold (pending_key om cid n).
  destruct (record "STATUS_UPDATE" _ _ _ _ _ _ _ w) as [w1 r].
  destruct Hr as [Hw1 Hout]; try done; cbn [fst snd] in *.
  - intros s Hs. rewrite Ek. apply unused_pending; lia.
  - intros m Hm E. rewrite Ek. rewrite Ek in E. apply place_id_tail in E as [-> _]; [done|lia|lia].
  - destruct r as [snap|e]; [|done]. unfold mret at 1, M_ret at 1.
    destruct (Hout eq_refl) as [(e & He & Hke)|(y & Hy & Hsy)].
    + exfalso. rewrite Ek in Hke, Hx. destruct (proj2 Hw e k x He ltac:(lia) Hke Hx). tauto.
    + pose proof (confirm_rest_cancelling cid (o_exchange_order_id o) y w1 Hw1 Hy) as Hrest.
      rewrite Hsy in Hrest. exact Hrest.
Qed.

Lemma confirm_all_cancelling os : preserves cancelling (confirm_all request_id os).
Proof.
  induction os as [|o os IH]; [apply preserves_ret|].
  apply preserves_bind; [apply confirm_cancelling|]. intros r. apply preserves_bind; [done|]. auto with turtle.
Qed.
End cancel_all.

Lemma cancel_all_preserves s0 symbol : 0 <= s0 -> preserves (inv om sn0 es0 s0) (cancel_all symbol).
Proof.
  intros Hs0 w Hi. apply with_id; [done|]. intros n w1 Hi1 Hn Hf Hsn _ _. pose proof (fs_pos _ _ Hf) as Hpos.
  set (d := [("request_id", _); _]).
  assert (Hd : json_wf (JObj d) = true) by (by destruct symbol).
  pose proof (record_spec om sn0 es0 s0 w1 "CANCEL_ALL_REQUESTED" "*" (Some n) None None None d
    ("cancel_all:" +:+ make_id om n "cancel_all") _ _ Hi1 Hd
    (apply_intent om "*" (Some n) _ "CANCEL_ALL_REQUESTED" d (or_introl eq_refl))) as Hr.
  unfold mbind at 1, M_bind at 1. pose proof (inv_id _ _ _ _ _ Hi1) as Hid.
  destruct (record "CANCEL_ALL_REQUESTED" _ _ _ _ _ _ _ w1) as [w2 r].
  destruct Hr as (Hr & Hi2 & Hnew).
  { intros s _ Hs. apply unused_cancel_all. lia. }
  { intros _ c z Hz. left. by exists z. }
  { intros _. apply stable_refl. }
  destruct r as [snap|e]; [|done].
  assert (Hc : cancelling n w2).
  { split.
    - apply (inv_weaken _ (s0 `max` (n + 1))); [lia|]. apply (Hnew _ _ eq_refl eq_refl). apply (fs_all _ _ Hf).
    - intros e m x He Hm Hk Hx. exfalso. revert He Hk.
      destruct Hr as [w2 e' Ho Hes Had Hev|w2 e' s' Ho Hes Had Hev|w2 e' Hes Had Hev _ _ Hke Ho]; rewrite Hev.
      1,2: intros He; by apply (fs_pending _ _ Hf).
      intros [He|He%list_elem_of_singleton]%elem_of_app; [by apply (fs_pending _ _ Hf)|].
      subst e. rewrite Hke Hid. intros E.
      assert (E' : om_key om ("cancel_all:" +:+ make_id om n "cancel_all") = om_key om (pending_key om (place_id om m) n))
        by congruence. by apply om_key_inj in E'. }
  apply (inv_weaken s0 (n + 1)); [lia|]. refine (proj1 (bind_fst _ _ (cancelling n) _ _ _)); [done|]. intros req.
  apply preserves_bind; [|intros os; apply confirm_all_cancelling; lia].
  intros w3 [Hi3 Hp3]. split; [by apply adapter_preserves|].
  assert (Hsame : w_om (on_adapter (ex_cancel_all req) w3).1 = w_om w3 /\ w_store (on_adapter (ex_cancel_all req) w3).1 = w_store w3).
  { unfold on_adapter, zoom. by destruct (ex_cancel_all req (w_adapter w3)). }
  destruct Hsame as [Ho Hl]. eapply pended_same; [by rewrite Ho|by rewrite Hl|done].
Qed.
End world.
