(* ===== verification/OrderManagerSpec.v ===== *)
(** * The order manager: its runs and what holds of them

    A run interleaves the manager's operations, what the rest of the process
    does to the shared log, adapter and execution state machine, and restarts.
    A crash between two records of one operation is the run in which the store
    refuses (or the adapter raises) from there on, followed by a restart. *)

From Stdlib Require Import ssreflect ZArith Lia Ascii String.
From stdpp Require Import base strings numbers gmap sets list.
From S2P Require Import Prelude PyText PyDict PyBytes PyJson PyDecimal EventStore EventStoreFacts EventLog Payload.
From S2P Require ExecStateMachine ExecStateMachineFacts.
From S2P Require Import ExchangeModels ExchangeAdapter OrderStates OrderManager OrderManagerFacts.
#[local] Open Scope Z_scope.

(** The operations that change something, as data. *)
Inductive om_op :=
  | OpPlace (symbol : Symbol) (side : OrderSide) (order_type : OrderType) (quantity : decimal)
      (limit_price : option decimal) (time_in_force : TimeInForce) (reduce_only : bool)
  | OpAmend (client_order_id : string) (new_quantity new_limit_price : option decimal)
  | OpCancel (client_order_id : string)
  | OpCancelAll (symbol : option Symbol)
  | OpFill (client_order_id : string) (fill : Fill)
  | OpUpdate (client_order_id : string) (order : Order)
  | OpResync (client_order_id : string).

(** What the type of a symbol guarantees. *)
Definition op_ok (op : om_op) : Prop :=
  match op with OpPlace symbol _ _ _ _ _ _ => blank (sym_value symbol) = false | _ => True end.

Section runs.
Context {L A : Type} `{EventLog L} `{Exchange A}.
Notation W := (World L A).
Implicit Types (w : W).

Definition run_op (op : om_op) : M W unit :=
  match op with
  | OpPlace symbol side ty q lp tif ro => _ ← place_order symbol side ty q lp tif ro; mret tt
  | OpAmend cid q lp => _ ← amend_order cid q lp; mret tt
  | OpCancel cid => _ ← cancel_order cid; mret tt
  | OpCancelAll symbol => _ ← cancel_all symbol; mret tt
  | OpFill cid f => _ ← report_fill cid f; mret tt
  | OpUpdate cid o => _ ← report_order_update cid o; mret tt
  | OpResync cid => _ ← resync_order cid; mret tt
  end.

(** An event that is not of the manager [om]. *)
Definition foreign (om : string) (e : Event) : Prop :=
  _is_own_event e om = false /\ forall k, key_of e <> Some (om_key om k).

Inductive om_step (om : string) : W -> W -> Prop :=
  | s_op op w : op_ok op -> om_step om w (run_op op w).1
  | s_other w w' : log_ok (w_store w') -> w_om w' = w_om w ->
      (log_events (w_store w') = log_events (w_store w) \/
       exists e, log_events (w_store w') = log_events (w_store w) ++ [e] /\ foreign om e) ->
      om_step om w w'
  | s_restart w w' : w_store w' = w_store w -> om_init (w_store w) om = Ok (w_om w') -> om_step om w w'.

(** A manager built over a log that has no event of its name yet. *)
Record om_start (om : string) (w : W) : Prop := {
  st_log : log_ok (w_store w);
  st_foreign : Forall (foreign om) (log_events (w_store w));
  st_init : om_init (w_store w) om = Ok (w_om w)
}.

Lemma om_init_replay om w m : log_ok (w_store w) -> om_init (w_store w) om = Ok m ->
  for_each (replay_step om) (log_events (w_store w)) (om_empty om) = (m, Ok tt).
Proof.
  intros Hl. unfold om_init. destruct (blank om); [done|]. destruct (_ <? _); [done|].
  rewrite log_replay_events //. cbn. destruct (for_each _ _ _) as [m' [[]|e]]; [|done]. by intros [= ->].
Qed.

Lemma om_init_good om w m m' : log_ok (w_store w) -> om_init (w_store w) om = Ok m ->
  good om (log_events (w_store w)) m' -> om_init (w_store w) om = Ok m'.
Proof.
  intros Hl Hi Hg. revert Hi. unfold om_init. destruct (blank om); [done|]. destruct (_ <? _); [done|].
  rewrite log_replay_events //. cbn. by rewrite (g_replay _ _ _ Hg).
Qed.

Lemma good_foreign om es : Forall (foreign om) es -> good om es (om_empty om).
Proof.
  induction es as [|e es IH] using rev_ind; intros Hf.
  - split; cbn; done || set_solver.
  - apply Forall_app in Hf as [Hf [He _]%Forall_cons]. apply good_other; [by apply IH|apply He..].
Qed.

Lemma start_inv om w : om_start om w ->
  inv om (om_snapshots (w_om w)) (log_events (w_store w)) 0 w /\ om_snapshots (w_om w) = [].
Proof.
  intros [Hl Hf Hi]. pose proof (good_foreign om _ Hf) as Hg. pose proof (om_init_good _ _ _ _ Hl Hi Hg) as Hi'.
  assert (Ho : w_om w = om_empty om) by congruence. split; [|by rewrite Ho].
  split; [done| |apply stable_refl|done]. exists (om_empty om). rewrite Ho. split_and!; [done|apply rebuilt_refl|done].
Qed.

Lemma run_op_preserves om sn0 es0 op : op_ok op -> preserves (inv om sn0 es0 0) (run_op op).
Proof.
  destruct op; intros Hop; apply preserves_bind; auto with turtle.
  - by apply place_preserves.
  - by apply amend_preserves.
  - by apply cancel_preserves.
  - by apply cancel_all_preserves.
  - by apply report_fill_preserves.
  - by apply report_order_update_preserves.
  - by apply resync_preserves.
Qed.

Lemma step_inv om sn0 es0 w w' : om_step om w w' -> inv om sn0 es0 0 w -> inv om sn0 es0 0 w'.
Proof.
  intros [op w0 Hop|w0 w0' Hl Ho He|w0 w0' Hs Hi] Hinv.
  - by apply run_op_preserves.
  - destruct He as [He|(e & He & Hown & Hk)].
    + destruct Hinv as [_ (m & Hg & Hr & Hm) Hst Hgr]. split; rewrite ?Ho ?He //. by exists m.
    + by eapply inv_other.
  - destruct Hinv as [Hl (m & Hg & Hr & Hm) Hst Hgr]. pose proof (om_init_good _ _ _ _ Hl Hi Hg) as Hi'.
    assert (Eo : w_om w0' = m) by congruence. split; rewrite ?Hs ?Eo //.
    + exists m. split_and!; [done|apply rebuilt_refl|done].
    + by rewrite -(rb_snapshots _ _ Hr).
Qed.

Lemma steps_inv om sn0 es0 w w' : rtc (om_step om) w w' -> inv om sn0 es0 0 w -> inv om sn0 es0 0 w'.
Proof. induction 1 as [|w1 w2 w3 Hs _ IH]; [done|]. intros Hi. apply IH. by eapply step_inv. Qed.

(** Taking the present snapshots and log as the reference. *)
Lemma inv_now om sn0 es0 s0 w : inv om sn0 es0 s0 w ->
  inv om (om_snapshots (w_om w)) (log_events (w_store w)) s0 w.
Proof. intros [Hl Hg _ _]. split; [done|done|apply stable_refl|done]. Qed.

Lemma reach_inv om w0 w : om_start om w0 -> rtc (om_step om) w0 w ->
  inv om (om_snapshots (w_om w)) (log_events (w_store w)) 0 w.
Proof. intros Hs Hr. apply start_inv in Hs as [Hs _]. eapply inv_now, steps_inv; done. Qed.

(** Construction from the log after any run succeeds, with the same books. *)
Lemma init_after om w0 w : om_start om w0 -> rtc (om_step om) w0 w ->
  exists m, om_init (w_store w) om = Ok m /\ rebuilt (w_om w) m.
Proof.
  intros Hs Hr. destruct (reach_inv _ _ _ Hs Hr) as [Hl (m & Hg & Hb & _) _ _]. exists m. split; [|done].
  destruct Hs as [_ _ Hi]. revert Hi. unfold om_init. destruct (blank om); [done|]. destruct (_ <? _); [done|].
  intros _. rewrite log_replay_events //. cbn. by rewrite (g_replay _ _ _ Hg).
Qed.

(** C10: a restart rebuilds every order. However the operations went before (all
    their failures included), constructing the manager from the log succeeds and
    yields the same snapshots, so the same orders in doubt; the same applied
    events; and a sequence number no larger than the live one. *)
Theorem restart_rebuilds_orders om w0 w : om_start om w0 -> rtc (om_step om) w0 w ->
  exists m, om_init (w_store w) om = Ok m /\ om_snapshots m = om_snapshots (w_om w) /\
    in_doubt_client_order_ids m = in_doubt_client_order_ids (w_om w) /\
    om_applied_event_ids m = om_applied_event_ids (w_om w) /\ om_next_seq m <= om_next_seq (w_om w).
Proof.
  intros Hs Hr. destruct (init_after _ _ _ Hs Hr) as (m & Hi & Hb). exists m.
  unfold in_doubt_client_order_ids. rewrite (rb_snapshots _ _ Hb) (rb_applied _ _ Hb).
  split_and!; try done. apply (rb_seq _ _ Hb).
Qed.

(** C22: closed orders stay closed. Once an order is filled, cancelled, rejected,
    expired or failed, no operation on any order, no late notification and no
    restart changes its snapshot again. *)
Theorem terminal_orders_final om w0 w w' cid x : om_start om w0 -> rtc (om_step om) w0 w -> rtc (om_step om) w w' ->
  dget cid (om_snapshots (w_om w)) = Some x -> TERMINAL_STATES (sn_lifecycle_state x) = true ->
  dget cid (om_snapshots (w_om w')) = Some x.
Proof. intros Hs Hr Hr' Hx Ht. eapply (i_stable _ _ _ _ _ (steps_inv _ _ _ _ _ Hr' (reach_inv _ _ _ Hs Hr))); done. Qed.

Lemma place_order_eq symbol side ty q lp tif ro w :
  place_order symbol side ty q lp tif ro w =
  match _next_id "place" w with
  | (w1, Ok (n, cid)) =>
      match record "SUBMIT" cid (Some n) None None None (submit_details symbol side ty q lp tif ro) cid w1 with
      | (w2, Ok s) => place_rest symbol side ty q lp tif ro cid s w2
      | (w2, Err e) => (w2, Err e)
      end
  | (w1, Err e) => (w1, Err e)
  end.
Proof. unfold place_order, mbind at 1, M_bind at 1. by destruct (_next_id "place" w) as [w1 [[n cid]|e]]. Qed.

(** C23: write-ahead. [place_order] hands nothing to the exchange unless the
    submission, with the order's parameters, was first appended to the log under
    an order id that no tracked order and no logged event had. *)
Theorem place_writes_ahead om w0 w symbol side ty q lp tif ro : om_start om w0 -> rtc (om_step om) w0 w ->
  blank (sym_value symbol) = false ->
  let w' := (place_order symbol side ty q lp tif ro w).1 in
  w_adapter w' = w_adapter w \/
  exists n e, let cid := place_id om n in
    dget cid (om_snapshots (w_om w)) = None /\
    (forall x, x ∈ log_events (w_store w) -> key_of x <> Some (om_key om cid)) /\
    log_events (w_store w) ++ [e] `prefix_of` log_events (w_store w') /\
    key_of e = Some (om_key om cid) /\
    ev_payload e = JObj (om_payload om "SUBMIT" cid (Some n) None None None (submit_details symbol side ty q lp tif ro)).
Proof.
  intros Hs Hr Hb. pose proof (reach_inv _ _ _ Hs Hr) as Hi.
  pose proof (next_id_triple om _ _ 0 "place" w Hi) as Hid.
  assert (Hsame : w_adapter (_next_id "place" w).1 = w_adapter w /\ w_store (_next_id "place" w).1 = w_store w /\
                  om_snapshots (w_om (_next_id "place" w).1) = om_snapshots (w_om w)) by done.
  cbv zeta. rewrite place_order_eq. destruct (_next_id "place" w) as [w1 [[n cid]|e]]; [|by destruct Hid].
  cbn [fst snd] in *. destruct Hid as (Hi1 & -> & Hn & Hf), Hsame as (Ha & Hst & Hsn).
  pose proof (record_submit om _ _ 0 w1 n symbol side ty q lp tif ro Hi1 Hn Hf Hb) as [Hi2 Hrec].
  fold (place_id om n).
  destruct (record "SUBMIT" _ _ _ _ _ _ _ w1) as [w2 [s|e]]; cbn [fst snd] in *; [|left; by destruct Hrec as (_ & _ & ->)].
  destruct Hrec as (e & Hev & Hk & Hp & _). right. exists n, e. cbv zeta. rewrite -Hsn -Hst.
  split; [apply (fs_new _ _ _ Hf)|]. split; [apply (fs_place _ _ _ Hf)|]. split; [|done].
  apply inv_now in Hi2. rewrite Hev in Hi2.
  pose proof (place_rest_preserves om _ _ 0 ltac:(done) symbol side ty q lp tif ro (place_id om n) s w2 Hi2) as Hi3.
  exact (i_grows _ _ _ _ _ Hi3).
Qed.

(** ** Fills *)

Definition fill_key (om cid : string) (f : Fill) : string := om_key om (cid +:+ ":fill:" +:+ fl_fill_id f).

Definition fill_logged (om cid : string) (f : Fill) (w : W) : Prop :=
  exists e, e ∈ log_events (w_store w) /\ key_of e = Some (fill_key om cid f).

Lemma drive_snapshot cid d a r (s : option OrderSnapshot) w :
  let m := (_drive_execution_sm cid d a r;; the_snapshot s) w in
  m.1 = (_drive_execution_sm cid d a r w).1 /\ forall y, m.2 = Ok y -> s = Some y.
Proof.
  cbv zeta. rewrite run_bind. destruct (_drive_execution_sm cid d a r w) as [w2 [[]|x]]; [|done].
  split; [done|]. intros y. by destruct s as [s|]; intros [= ->].
Qed.

(** Reporting to the execution state machine changes no order and only extends
    the log. *)
Lemma drive_then cid d a (m : M W (option OrderSnapshot)) w : log_ok (w_store (m w).1) ->
  let w' := ((s ← m; _drive_execution_sm cid d a s;; the_snapshot s) w).1 in
  w_om w' = w_om (m w).1 /\ log_events (w_store (m w).1) `prefix_of` log_events (w_store w').
Proof.
  intros Hl. rewrite run_bind. destruct (m w) as [w1 [s|x]]; [|done]. cbn [fst] in *.
  destruct (drive_quiet "" cid d a s w1 Hl) as (_ & Ho & _ & He).
  rewrite (proj1 (drive_snapshot cid d a s s w1)). split; [done|]. destruct He as [->|(e & -> & _)]; [done|by apply prefix_app_r].
Qed.

(** A report changes no order, or records a fill whose key was unused. *)
Lemma report_fill_cases om sn0 es0 cid f w : inv om sn0 es0 0 w ->
  om_snapshots (w_om (report_fill cid f w).1) = om_snapshots (w_om w) \/
  (~ fill_logged om cid f w) /\ fill_logged om cid f (report_fill cid f w).1.
Proof.
  intros Hi. pose proof (inv_id _ _ _ _ _ Hi) as Hid. unfold report_fill. rewrite run_bind. unfold tracked.
  destruct (dget cid (om_snapshots (w_om w))) as [x|] eqn:Hx; [|by left]. cbn [of_option].
  cbv beta iota. rewrite run_get. case_bool_decide; [by left|].
  destruct (TERMINAL_STATES (sn_lifecycle_state x)) eqn:Hterm; [by left|].
  set (t := if dleb _ _ then _ else _). destruct (TRANSITION_TABLE (sn_lifecycle_state x) t) as [b|] eqn:Ht; [|by left].
  destruct (record_tracked om sn0 es0 0 w "FILL" cid None (Some t) (Some (sn_lifecycle_state x)) (Some b)
    [("fill_id", JStr (fl_fill_id f)); ("fill_quantity", JStr (dec_str (fl_quantity f)));
     ("fill_price", JStr (dec_str (fl_price f)))] (cid +:+ ":fill:" +:+ fl_fill_id f) x _ _ Hi Hx Hterm eq_refl
    (apply_fill om cid None _ t _ b x (fl_fill_id f) (fl_quantity f) (dec_str (fl_price f)) Hx eq_refl Ht)) as [Hr Hi'].
  { intros s Hs _. by apply (tracked_key om sn0 es0 0 ltac:(done) w cid x). }
  cbv zeta in Hr, Hi'. set (rec := record _ _ _ _ _ _ _ _) in *.
  destruct (drive_then cid (DriveTrigger t) (Some (sn_lifecycle_state x)) rec w (i_log _ _ _ _ _ Hi')) as [Ho' Hp'].
  cbv zeta in Ho', Hp'. rewrite Ho'. clear Ho'.
  inversion Hr as [w' e Ho|w' e s' Ho|w' e Hes Had Hev Hno Hp Hk Ho]; subst w'; [left; by rewrite Ho..|].
  right. unfold fill_key. rewrite Hid in Hno, Hk. split.
  - intros (e' & He' & Hke). by eapply Hno.
  - exists e. split; [|done]. eapply elem_of_prefix; [|exact Hp']. rewrite Hev. apply elem_of_app. right. by left.
Qed.

(** C14: no fill is counted twice. Once the report of a fill has changed an order,
    then after whatever follows, restarts included, no further report carrying
    the same fill id for that order changes any order's snapshot, whatever its
    quantity and price say. *)
Theorem fill_counted_once om w0 w w' cid f f' : om_start om w0 -> rtc (om_step om) w0 w ->
  om_snapshots (w_om (report_fill cid f w).1) <> om_snapshots (w_om w) ->
  rtc (om_step om) (report_fill cid f w).1 w' -> fl_fill_id f' = fl_fill_id f ->
  om_snapshots (w_om (report_fill cid f' w').1) = om_snapshots (w_om w').
Proof.
  intros Hs Hr Hch Hr' Hf. pose proof (reach_inv _ _ _ Hs Hr) as Hi.
  destruct (report_fill_cases om _ _ cid f w Hi) as [Hsame|[_ (e & He & Hk)]]; [done|].
  pose proof (report_fill_preserves om _ _ 0 ltac:(done) cid f w Hi) as Hi1. apply inv_now in Hi1.
  pose proof (steps_inv _ _ _ _ _ Hr' Hi1) as Hi2.
  destruct (report_fill_cases om _ _ cid f' w' Hi2) as [Hsame|[Hno _]]; [done|]. destruct Hno.
  exists e. split; [eapply elem_of_prefix; [exact He|apply (i_grows _ _ _ _ _ Hi2)]|].
  unfold fill_key. by rewrite Hf.
Qed.

(** ** Two behaviours worth knowing *)

(** A submission with a quantity that is not positive strands the order. The
    quantity is checked when the exchange request is built, after the submission
    is durable: the call raises without touching the exchange, and leaves an
    order in doubt that re-synchronising can never resolve and cancelling never
    close. *)
Theorem invalid_quantity_strands om w0 w symbol side ty q lp tif ro : om_start om w0 -> rtc (om_step om) w0 w ->
  blank (sym_value symbol) = false -> dleb q d0 = true ->
  let '(w', r) := place_order symbol side ty q lp tif ro w in
  is_ok r = false /\ w_adapter w' = w_adapter w /\
  (om_snapshots (w_om w') <> om_snapshots (w_om w) -> exists cid,
     cid ∈ in_doubt_client_order_ids (w_om w') /\
     resync_order cid w' = (w', Err ValueError) /\
     cancel_order cid w' = (w', Err IllegalOrderTransitionError)).
Proof.
  intros Hs Hr Hb Hq. pose proof (reach_inv _ _ _ Hs Hr) as Hi.
  pose proof (next_id_triple om _ _ 0 "place" w Hi) as Hid.
  assert (Hsame : w_adapter (_next_id "place" w).1 = w_adapter w /\
                  om_snapshots (w_om (_next_id "place" w).1) = om_snapshots (w_om w)) by done.
  rewrite place_order_eq. destruct (_next_id "place" w) as [w1 [[n cid]|e]]; [|by destruct Hid].
  cbn [fst snd] in *. destruct Hid as (Hi1 & -> & Hn & Hf), Hsame as (Ha & Hsn).
  pose proof (record_submit om _ _ 0 w1 n symbol side ty q lp tif ro Hi1 Hn Hf Hb) as [Hi2 Hrec].
  fold (place_id om n).
  destruct (record "SUBMIT" _ _ _ _ _ _ _ w1) as [w2 [s|e]]; cbn [fst snd] in *.
  2:{ destruct Hrec as (Ho & _ & ->). split_and!; [done|done|]. rewrite Ho -Hsn. done. }
  destruct Hrec as (e & Hev & Hk & Hp & Ha2 & x & [= ->] & Hx & Hst & Hex & Hqx).
  destruct (drive_quiet om (place_id om n) DriveSubmit (Some _S.NEW) (Some x) w2 (i_log _ _ _ _ _ Hi2)) as (Hl3 & Ho3 & Ha3 & _).
  assert (Hreq : forall r, or_quantity r = q -> mk_OrderRequest r = Err ValueError).
  { intros r Hrq. unfold mk_OrderRequest. rewrite Hrq Hq. by destruct (blank (or_client_order_id r)). }
  unfold place_rest. unfold mbind at 1, M_bind at 1.
  destruct (_drive_execution_sm _ _ _ _ w2) as [w3 d]. cbn [fst] in *. rewrite -Ho3 in Hx.
  set (cid := place_id om n) in *.
  assert (Hstuck : cid ∈ in_doubt_client_order_ids (w_om w3) /\
     resync_order cid w3 = (w3, Err ValueError) /\ cancel_order cid w3 = (w3, Err IllegalOrderTransitionError)).
  { split_and!.
    - unfold in_doubt_client_order_ids. apply list_elem_of_In, in_map_iff. exists (cid, x). split; [done|]. apply List.filter_In.
      split; [by apply list_elem_of_In, dget_elem|]. by rewrite Hst.
    - unfold resync_order, tracked, mbind, M_bind. rewrite Hx. cbn [of_option]. rewrite Hex. unfold lift.
      by rewrite Hreq.
    - unfold cancel_order, tracked, mbind, M_bind. rewrite Hx. cbn [of_option]. by rewrite Hst. }
  destruct d as [[]|x']; [unfold mbind at 1, M_bind at 1, lift at 1; rewrite Hreq //|].
  all: split_and!; [done|congruence|intros _; by exists cid].
Qed.

(** A trigger the execution state machine has no edge for leaves it alone. *)
Lemma transition_no_edge t rid cid w : log_ok (w_store w) ->
  ESM.TRANSITION_TABLE (ESM.esm_current_state (w_esm w)) t = None ->
  w_esm (on_esm (ESM.transition t rid [("client_order_id", JStr cid)]) w).1 = w_esm w.
Proof.
  intros Hl Ht. unfold on_esm, zoom.
  pose proof (ExecStateMachineFacts.transition_spec t rid [("client_order_id", JStr cid)] (w_store w, w_esm w) Hl) as Hs.
  destruct (ESM.transition t rid _ (w_store w, w_esm w)) as [[l' m'] r]. cbn [fst snd w_esm] in *.
  inversion Hs; subst; try done; cbn [snd] in *; congruence.
Qed.

(** A fill that overtakes a cancel strands the execution state machine. When
    the remainder of a partially filled order is filled while its cancellation
    is pending, the manager reports [FULLY_FILLED], for which the machine has no
    edge out of PARTIALLY_FILLED (the edge it has is [REMAINDER_FILLED]), and the
    refusal is swallowed: the order becomes FILLED and the machine never learns
    of the position. *)
Theorem cancel_race_strands_execution om w0 w cid f x : om_start om w0 -> rtc (om_step om) w0 w ->
  dget cid (om_snapshots (w_om w)) = Some x -> sn_lifecycle_state x = _S.CANCEL_PENDING ->
  ESM.esm_current_state (w_esm w) = ESM.State.PARTIALLY_FILLED ->
  fl_fill_id f ∉ (default ∅ (dget cid (om_processed_fill_ids (w_om w))) : gset string) ->
  dleb (sn_quantity x) (dadd (sn_filled_quantity x) (fl_quantity f)) = true ->
  w_esm (report_fill cid f w).1 = w_esm w /\
  (~ fill_logged om cid f w -> forall s, (report_fill cid f w).2 = Ok s -> sn_lifecycle_state s = _S.FILLED).
Proof.
  intros Hs Hrun Hx Hst Hesm Hnew Hfull. pose proof (reach_inv _ _ _ Hs Hrun) as Hi.
  pose proof (inv_id _ _ _ _ _ Hi) as Hid.
  unfold report_fill. rewrite run_bind. unfold tracked. rewrite Hx. cbv beta iota. cbn [of_option].
  rewrite run_get bool_decide_eq_false_2 // Hst Hfull. cbn [TERMINAL_STATES].
  change (TERMINAL_STATES _S.CANCEL_PENDING) with false.
  change (TRANSITION_TABLE _S.CANCEL_PENDING _T.FULL_FILL) with (Some _S.FILLED). cbv beta iota zeta.
  destruct (record_tracked om _ _ 0 w "FILL" cid None (Some _T.FULL_FILL) (Some _S.CANCEL_PENDING) (Some _S.FILLED)
    [("fill_id", JStr (fl_fill_id f)); ("fill_quantity", JStr (dec_str (fl_quantity f)));
     ("fill_price", JStr (dec_str (fl_price f)))] (cid +:+ ":fill:" +:+ fl_fill_id f) x _ _ Hi Hx ltac:(by rewrite Hst) eq_refl
    (apply_fill om cid None _ _T.FULL_FILL _S.CANCEL_PENDING _S.FILLED x (fl_fill_id f) (fl_quantity f)
       (dec_str (fl_price f)) Hx Hst eq_refl)) as [Hr Hi'].
  { intros s Hs0 _. by apply (tracked_key om _ _ 0 ltac:(done) w cid x _ _ Hi). }
  cbv zeta in Hr, Hi'. rewrite run_bind.
  destruct (record "FILL" _ _ _ _ _ _ _ w) as [w1 r]. cbn [fst snd] in *.
  assert (He1 : w_esm w1 = w_esm w) by (by destruct Hr). pose proof (i_log _ _ _ _ _ Hi') as Hl.
  destruct r as [s|e]; [|done].
  destruct (drive_snapshot cid (DriveTrigger _T.FULL_FILL) (Some _S.CANCEL_PENDING) s s w1) as [E1 E2].
  rewrite E1. clear E1. split.
  - unfold _drive_execution_sm. rewrite run_bind. cbn [exec_trigger_of].
    rewrite bool_decide_eq_false_2 //. unfold lift, catch. cbv beta iota. rewrite run_bind.
    pose proof (transition_no_edge ESM.Trigger.FULLY_FILLED (exec_request_id cid ESM.Trigger.FULLY_FILLED) cid w1 Hl) as Hno.
    rewrite He1 Hesm in Hno. specialize (Hno eq_refl).
    destruct (on_esm _ w1) as [w2 [t|e]]; cbn [fst snd] in *; [done|]. by destruct (bool_decide _).
  - intros Hnl y ->%E2. 
    inversion Hr as [|w' e s' Ho Hes Had Hev Hin Hk|w' e Hes Had Hev Hno Hp Hk Ho]; subst; [|done].
    destruct Hnl. exists e. split; [done|]. exact Hk.
Qed.
End runs.

(** ** A concrete run

    An exchange that accepts every order and acknowledges every cancel request
    without deciding it yet; it counts the requests it has seen. *)

Record Counting := { ct_requests : Z }.

Definition ct_order (cid : string) (q : decimal) (status : OrderStatus) : Order :=
  {| o_client_order_id := cid; o_exchange_order_id := Some "x1"; o_symbol := {| sym_value := "BTC" |};
     o_side := OrderSide.BUY; o_order_type := OrderType.MARKET; o_quantity := q; o_filled_quantity := d0;
     o_limit_price := None; o_status := status; o_time_in_force := TimeInForce.GTC; o_reduce_only := false;
     o_created_at_utc := ""; o_updated_at_utc := "" |}.

Definition ct_answer (status : OrderStatus) (cid : string) (q : decimal) : M Counting Order := fun c =>
  ({| ct_requests := ct_requests c + 1 |}, Ok (ct_order cid q status)).

#[local] Instance counting_exchange : Exchange Counting := {
  ex_place_order r := ct_answer OrderStatus.ACKNOWLEDGED (or_client_order_id r) (or_quantity r);
  ex_amend_order r := ct_answer OrderStatus.ACKNOWLEDGED "" d1;
  ex_cancel_order r := ct_answer OrderStatus.ACKNOWLEDGED "" d1;
  ex_cancel_all r := mret [];
  ex_find_order r := mret None;
  ex_get_order_status i := ct_answer OrderStatus.ACKNOWLEDGED "" d1;
  ex_get_fills i := mret [];
  ex_get_positions := mret [];
  ex_get_mark_price s := raise ExchangeAdapterError;
  ex_reconcile p := raise ExchangeAdapterError
}.

(** An empty log, a manager built over it, an execution state machine that is
    waiting for an order. *)
Definition sample_world : World MemLog Counting :=
  {| w_store := mem_empty; w_adapter := {| ct_requests := 0 |};
     w_esm := {| ESM.esm_machine_id := "esm"; ESM.esm_current_state := ESM.State.SIGNAL_PENDING |};
     w_om := om_empty "om" |}.

Definition btc : Symbol := {| sym_value := "BTC" |}.
Definition sample_place : om_op := OpPlace btc OrderSide.BUY OrderType.MARKET (dint 10) None TimeInForce.GTC false.
Definition sample_fill (id : string) (q : decimal) : Fill :=
  {| fl_fill_id := id; fl_client_order_id := place_id "om" 1; fl_exchange_order_id := "x1"; fl_symbol := btc;
     fl_side := OrderSide.BUY; fl_price := d1; fl_quantity := q; fl_fee := d0; fl_timestamp_utc := "" |}.

Definition world_placed := (run_op sample_place sample_world).1.
Definition world_filled := (run_op (OpFill (place_id "om" 1) (sample_fill "f1" (dint 4))) world_placed).1.
Definition world_racing := (run_op (OpCancel (place_id "om" 1)) world_filled).1.

Lemma sample_start : om_start "om" sample_world.
Proof. by split; [apply mem_empty_ok|constructor|]. Qed.

Lemma sample_runs : rtc (om_step "om") sample_world world_placed /\ rtc (om_step "om") sample_world world_filled /\
  rtc (om_step "om") sample_world world_racing.
Proof.
  assert (H1 : rtc (om_step "om") sample_world world_placed) by (apply rtc_once, s_op; reflexivity).
  assert (H2 : rtc (om_step "om") sample_world world_filled) by (eapply rtc_r; [exact H1|]; by apply s_op).
  split_and!; [done|done|]. eapply rtc_r; [exact H2|]. by apply s_op.
Qed.

Lemma restart_rebuilds_orders_witness :
  exists m, om_init (w_store world_racing) "om" = Ok m /\ om_snapshots m = om_snapshots (w_om world_racing) /\
    in_doubt_client_order_ids m = in_doubt_client_order_ids (w_om world_racing) /\
    om_applied_event_ids m = om_applied_event_ids (w_om world_racing) /\ om_next_seq m <= om_next_seq (w_om world_racing).
Proof. exact (restart_rebuilds_orders "om" _ _ sample_start (proj2 (proj2 sample_runs))). Defined.

Lemma terminal_orders_final_witness :
  let w := (run_op (OpFill (place_id "om" 1) (sample_fill "f2" (dint 6))) world_filled).1 in
  let w' := (run_op (OpFill (place_id "om" 1) (sample_fill "f3" (dint 5))) w).1 in
  match dget (place_id "om" 1) (om_snapshots (w_om w)) with
  | Some x => dget (place_id "om" 1) (om_snapshots (w_om w')) = Some x
  | None => False
  end.
Proof.
  intros w w'. destruct (dget (place_id "om" 1) (om_snapshots (w_om w))) as [x|] eqn:E.
  - refine (terminal_orders_final "om" sample_world w w' _ x sample_start _ _ E _).
    + eapply rtc_r; [exact (proj1 (proj2 sample_runs))|]. by apply s_op.
    + apply rtc_once. by apply s_op.
    + vm_compute in E. injection E as <-. reflexivity.
  - vm_compute in E. discriminate E.
Defined.

Lemma place_writes_ahead_witness :
  let w' := (place_order btc OrderSide.SELL OrderType.LIMIT d1 (Some (dint 7)) TimeInForce.GTC true world_racing).1 in
  w_adapter w' = w_adapter world_racing \/
  exists n e, let cid := place_id "om" n in
    dget cid (om_snapshots (w_om world_racing)) = None /\
    (forall x, x ∈ log_events (w_store world_racing) -> key_of x <> Some (om_key "om" cid)) /\
    log_events (w_store world_racing) ++ [e] `prefix_of` log_events (w_store w') /\
    key_of e = Some (om_key "om" cid) /\
    ev_payload e = JObj (om_payload "om" "SUBMIT" cid (Some n) None None None
      (submit_details btc OrderSide.SELL OrderType.LIMIT d1 (Some (dint 7)) TimeInForce.GTC true)).
Proof.
  exact (place_writes_ahead "om" _ _ btc OrderSide.SELL OrderType.LIMIT d1 (Some (dint 7)) TimeInForce.GTC true
    sample_start (proj2 (proj2 sample_runs)) eq_refl).
Defined.

Lemma fill_counted_once_witness :
  let f := sample_fill "f1" (dint 4) in
  let w' := (run_op (OpCancel (place_id "om" 1)) (report_fill (place_id "om" 1) f world_placed).1).1 in
  om_snapshots (w_om (report_fill (place_id "om" 1) (sample_fill "f1" (dint 9)) w').1) = om_snapshots (w_om w').
Proof.
  intros f w'. refine (fill_counted_once "om" sample_world world_placed w' (place_id "om" 1) f (sample_fill "f1" (dint 9))
    sample_start (proj1 sample_runs) _ _ eq_refl).
  - intros E. apply (f_equal (fun d => match dget (place_id "om" 1) d with Some x => bool_decide (sn_lifecycle_state x = _S.PARTIALLY_FILLED) | None => false end)) in E. vm_compute in E. discriminate E.
  - apply rtc_once. by apply (s_op "om" (OpCancel (place_id "om" 1))).
Defined.

Lemma invalid_quantity_strands_witness :
  let '(w', r) := place_order btc OrderSide.BUY OrderType.MARKET d0 None TimeInForce.GTC false world_placed in
  is_ok r = false /\ w_adapter w' = w_adapter world_placed /\
  (om_snapshots (w_om w') <> om_snapshots (w_om world_placed) -> exists cid,
     cid ∈ in_doubt_client_order_ids (w_om w') /\
     resync_order cid w' = (w', Err ValueError) /\
     cancel_order cid w' = (w', Err IllegalOrderTransitionError)).
Proof.
  exact (invalid_quantity_strands "om" sample_world world_placed btc OrderSide.BUY OrderType.MARKET d0 None TimeInForce.GTC
    false sample_start (proj1 sample_runs) eq_refl eq_refl).
Defined.

Lemma cancel_race_strands_execution_witness :
  match dget (place_id "om" 1) (om_snapshots (w_om world_racing)) with
  | Some x =>
      w_esm (report_fill (place_id "om" 1) (sample_fill "f2" (dint 6)) world_racing).1 = w_esm world_racing /\
      (~ fill_logged "om" (place_id "om" 1) (sample_fill "f2" (dint 6)) world_racing ->
       forall s, (report_fill (place_id "om" 1) (sample_fill "f2" (dint 6)) world_racing).2 = Ok s ->
                 sn_lifecycle_state s = _S.FILLED)
  | None => False
  end.
Proof.
  destruct (dget (place_id "om" 1) (om_snapshots (w_om world_racing))) as [x|] eqn:E.
  - refine (cancel_race_strands_execution "om" sample_world world_racing _ _ x sample_start (proj2 (proj2 sample_runs)) E _ _ _ _).
    + vm_compute in E. injection E as <-. reflexivity.
    + vm_compute. reflexivity.
    + apply (bool_decide_eq_true_1 _). vm_compute. reflexivity.
    + vm_compute in E. injection E as <-. reflexivity.
  - vm_compute in E. discriminate E.
Defined.
