(* ===== verification/PositionStates.v ===== *)
(** * Position lifecycle and profit arithmetic (src/position_manager/states.py, pnl.py, snapshot.py, ids.py)

    The states and triggers of one position, the frozen transition table and its
    ranks, the snapshot and the closed legs, and the formulas for realised and
    unrealised profit and R-multiples in decimal arithmetic. *)

From Stdlib Require Import ssreflect ZArith Lia Ascii String.
From stdpp Require Import base strings numbers gmap sets list.
From S2P Require Import Prelude PyText PyDict PyJson PyDecimal ExchangeModels.
#[local] Open Scope Z_scope.

Module PositionLifecycleState.
Inductive PositionLifecycleState :=
  | NEW | OPEN | PARTIALLY_FILLED | FULLY_FILLED | T1_REACHED | BREAKEVEN_ACTIVE |
  T2_REACHED | STOP_TRIGGERED | CLOSED | ARCHIVED.
#[global] Instance PositionLifecycleState_eq_dec : EqDecision PositionLifecycleState.
Proof. solve_decision. Defined.

Definition value (x : PositionLifecycleState) : string :=
  match x with
  | NEW => "NEW" | OPEN => "OPEN" | PARTIALLY_FILLED => "PARTIALLY_FILLED" | FULLY_FILLED
  => "FULLY_FILLED" | T1_REACHED => "T1_REACHED" | BREAKEVEN_ACTIVE => "BREAKEVEN_ACTIVE"
  | T2_REACHED => "T2_REACHED" | STOP_TRIGGERED => "STOP_TRIGGERED" | CLOSED => "CLOSED" |
  ARCHIVED => "ARCHIVED"
  end.

#[global] Program Instance PositionLifecycleState_enum : PyEnum PositionLifecycleState := {
  enum_all := [NEW; OPEN; PARTIALLY_FILLED; FULLY_FILLED; T1_REACHED; BREAKEVEN_ACTIVE;
  T2_REACHED; STOP_TRIGGERED; CLOSED; ARCHIVED];
  enum_value := value
}.
Solve Obligations with solve_enum.
End PositionLifecycleState.
Notation PositionLifecycleState := PositionLifecycleState.PositionLifecycleState.

Module PositionLifecycleTrigger.
Inductive PositionLifecycleTrigger :=
  | FIRST_FILL | ENTRY_PARTIAL | ENTRY_COMPLETE | T1 | BREAKEVEN | T2 | STOP | CLOSE |
  COMPLETE_CLOSE | ARCHIVE.
#[global] Instance PositionLifecycleTrigger_eq_dec : EqDecision PositionLifecycleTrigger.
Proof. solve_decision. Defined.

Definition value (x : PositionLifecycleTrigger) : string :=
  match x with
  | FIRST_FILL => "FIRST_FILL" | ENTRY_PARTIAL => "ENTRY_PARTIAL" | ENTRY_COMPLETE =>
  "ENTRY_COMPLETE" | T1 => "T1" | BREAKEVEN => "BREAKEVEN" | T2 => "T2" | STOP => "STOP" |
  CLOSE => "CLOSE" | COMPLETE_CLOSE => "COMPLETE_CLOSE" | ARCHIVE => "ARCHIVE"
  end.

#[global] Program Instance PositionLifecycleTrigger_enum : PyEnum PositionLifecycleTrigger := {
  enum_all := [FIRST_FILL; ENTRY_PARTIAL; ENTRY_COMPLETE; T1; BREAKEVEN; T2; STOP; CLOSE;
  COMPLETE_CLOSE; ARCHIVE];
  enum_value := value
}.
Solve Obligations with solve_enum.
End PositionLifecycleTrigger.
Notation PositionLifecycleTrigger := PositionLifecycleTrigger.PositionLifecycleTrigger.

Module _S := PositionLifecycleState.
Module _T := PositionLifecycleTrigger.

Definition _EDGES : list (PositionLifecycleState * PositionLifecycleTrigger * PositionLifecycleState) := [
    (_S.NEW, _T.FIRST_FILL, _S.OPEN);

    (_S.OPEN, _T.ENTRY_PARTIAL, _S.PARTIALLY_FILLED);
    (_S.OPEN, _T.ENTRY_COMPLETE, _S.FULLY_FILLED);

    (_S.PARTIALLY_FILLED, _T.ENTRY_PARTIAL, _S.PARTIALLY_FILLED);
    (_S.PARTIALLY_FILLED, _T.ENTRY_COMPLETE, _S.FULLY_FILLED);
    (_S.PARTIALLY_FILLED, _T.CLOSE, _S.CLOSED);
    (_S.PARTIALLY_FILLED, _T.STOP, _S.STOP_TRIGGERED);

    (_S.FULLY_FILLED, _T.T1, _S.T1_REACHED);
    (_S.FULLY_FILLED, _T.STOP, _S.STOP_TRIGGERED);
    (_S.FULLY_FILLED, _T.CLOSE, _S.CLOSED);

    (_S.T1_REACHED, _T.BREAKEVEN, _S.BREAKEVEN_ACTIVE);

    (_S.BREAKEVEN_ACTIVE, _T.T2, _S.T2_REACHED);
    (_S.BREAKEVEN_ACTIVE, _T.STOP, _S.STOP_TRIGGERED);
    (_S.BREAKEVEN_ACTIVE, _T.CLOSE, _S.CLOSED);

    (_S.T2_REACHED, _T.COMPLETE_CLOSE, _S.CLOSED);
    (_S.STOP_TRIGGERED, _T.COMPLETE_CLOSE, _S.CLOSED);

    (_S.CLOSED, _T.ARCHIVE, _S.ARCHIVED) ].

Definition TRANSITION_TABLE (from_state : PositionLifecycleState) (trigger : PositionLifecycleTrigger)
    : option PositionLifecycleState :=
  foldl (fun acc e => if bool_decide (e.1 = (from_state, trigger)) then Some e.2 else acc) None _EDGES.

Definition LEGAL_TRIGGERS_BY_STATE (s : PositionLifecycleState) : list PositionLifecycleTrigger :=
  List.filter (fun t => existsb (fun e => bool_decide (e.1 = (s, t))) _EDGES) enum_all.

Definition TERMINAL_STATES (s : PositionLifecycleState) : bool :=
  match LEGAL_TRIGGERS_BY_STATE s with [] => true | _ => false end.

Definition is_legal (from_state : PositionLifecycleState) (trigger : PositionLifecycleTrigger) : bool :=
  match TRANSITION_TABLE from_state trigger with Some _ => true | None => false end.

Definition next_state (from_state : PositionLifecycleState) (trigger : PositionLifecycleTrigger)
    : result PositionLifecycleState :=
  of_option KeyError (TRANSITION_TABLE from_state trigger).

Definition state_rank (s : PositionLifecycleState) : Z :=
  match s with
  | _S.NEW => 0 | _S.OPEN => 1 | _S.PARTIALLY_FILLED => 2 | _S.FULLY_FILLED => 3 | _S.T1_REACHED => 4
  | _S.BREAKEVEN_ACTIVE => 5 | _S.T2_REACHED => 6 | _S.STOP_TRIGGERED => 6 | _S.CLOSED => 7 | _S.ARCHIVED => 8
  end.

Definition trigger_min_target_rank (trigger : PositionLifecycleTrigger) : result Z :=
  let targets := List.filter (fun e => bool_decide (e.1.2 = trigger)) _EDGES in
  match map (fun e => state_rank e.2) targets with
  | [] => Err ValueError
  | r :: rs => Ok (foldl Z.min r rs)
  end.

(** ** pnl.py *)

Definition fraction_of_original (quantity_closed original_intended_quantity : decimal) : result decimal :=
  if dleb original_intended_quantity d0 then Err ValueError
  else ddiv quantity_closed original_intended_quantity.

Definition fee_in_r_units (fee_amount entry_price quantity_closed stop_d : decimal) : result decimal :=
  if dleb entry_price d0 || dleb quantity_closed d0 || dleb stop_d d0 then Ok d0 else
  let notional := dmul entry_price quantity_closed in
  if dleb notional d0 then Ok d0 else
  fee_fraction_of_notional ← ddiv fee_amount notional;
  ddiv fee_fraction_of_notional stop_d.

Definition leg_r_multiple (entry_price exit_price stop_d fraction fee_amount quantity_closed : decimal)
    : result decimal :=
  if dleb entry_price d0 then Err ValueError else
  if dleb stop_d d0 then Err ValueError else
  ratio ← ddiv exit_price entry_price;
  per_stop ← ddiv (dsub ratio d1) stop_d;
  let price_return := dmul per_stop fraction in
  fee_r ← fee_in_r_units fee_amount entry_price quantity_closed stop_d;
  Ok (dsub price_return fee_r).

Definition leg_pct (entry_price exit_price fraction : decimal) : result decimal :=
  if dleb entry_price d0 then Err ValueError else
  ratio ← ddiv exit_price entry_price;
  Ok (dmul (dmul (dsub ratio d1) (dint 100)) fraction).

Definition leg_realized_pnl (entry_price exit_price quantity_closed fee_amount : decimal) : decimal :=
  dsub (dmul (dsub exit_price entry_price) quantity_closed) fee_amount.

Definition unrealized_pnl (avg_entry_price mark_price remaining_quantity : decimal) : decimal :=
  dmul (dsub mark_price avg_entry_price) remaining_quantity.

Definition weighted_average_price (current_avg : option decimal) (current_qty new_price new_qty : decimal)
    : result decimal :=
  match current_avg with
  | None => Ok new_price
  | Some avg =>
      if deqb current_qty d0 then Ok new_price
      else ddiv (dadd (dmul avg current_qty) (dmul new_price new_qty)) (dadd current_qty new_qty)
  end.

(** ** snapshot.py, ids.py *)

Record PositionSnapshot := {
  ps_position_id : string;
  ps_lifecycle_state : PositionLifecycleState;
  ps_symbol : Symbol;
  ps_side : OrderSide;
  ps_intended_quantity : decimal;
  ps_filled_quantity : decimal;
  ps_remaining_quantity : decimal;
  ps_avg_entry_price : option decimal;
  ps_stop_price : decimal;
  ps_stop_d : decimal;
  ps_t1_price : decimal;
  ps_t2_price : decimal;
  ps_conviction : option decimal;
  ps_realized_pnl : decimal;
  ps_realized_r : decimal;
  ps_fees_paid : decimal;
  ps_funding_paid : decimal;
  ps_created_at_utc : json;
  ps_updated_at_utc : json
}.

Record ClosedLeg := {
  lg_position_id : string;
  lg_symbol : string;
  lg_r : decimal;
  lg_pct : decimal;
  lg_reason : string;
  lg_conv : option decimal;
  lg_entry_at_utc : json;
  lg_exit_at_utc : json;
  lg_entry_px : option decimal;
  lg_exit_px : decimal;
  lg_stop_d : decimal;
  lg_quantity : decimal;
  lg_fee : decimal;
  lg_realized_pnl : decimal
}.

Definition make_id (pm_id : string) (seq : Z) (suffix : string) : string :=
  "pm:" +:+ pm_id +:+ ":" +:+ int_str seq +:+ ":" +:+ suffix.

(** ** Facts about the table *)

(** Every edge moves up in rank, but for a further partial entry. *)
Lemma edge_rank s t s' : TRANSITION_TABLE s t = Some s' ->
  state_rank s < state_rank s' \/ s = s' /\ t = _T.ENTRY_PARTIAL.
Proof. destruct s, t; try discriminate; intros [= <-]; (by right) || (left; reflexivity). Qed.

Lemma pos_id_inj pm n m suffix : 0 <= n -> 0 <= m -> make_id pm n suffix = make_id pm m suffix -> n = m.
Proof.
  intros Hn Hm E. unfold make_id in E. apply app_inj_l_s, app_inj_l_s, app_inj_l_s in E.
  by apply int_str_colon_inj in E as [? _].
Qed.
