(* ===== verification/PositionManager.v ===== *)
(** * The position manager (src/position_manager/manager.py)

    Applying an event, the constructor that replays the log, and every operation
    over the log and the manager. The per-position locks are not modelled. *)

From Stdlib Require Import ssreflect ZArith Lia Ascii String.
From stdpp Require Import base strings numbers gmap sets list.
From S2P Require Import Prelude PyText PyDict PyJson PyDecimal EventStore EventLog Journal Payload.
From S2P Require Import ExchangeModels ExchangeAdapter PositionStates.
#[local] Open Scope Z_scope.

Definition _EVENT_SOURCE_TAG : string := "position_manager".
Definition _MAX_PM_ID_LENGTH : Z := 60.

Definition _EXIT_TRIGGER_REASON (t : PositionLifecycleTrigger) : result string :=
  match t with _T.T1 => Ok "t1_half" | _T.T2 => Ok "t2" | _ => Err KeyError end.

Definition _is_own_event (pm_id : string) (event : Event) : bool :=
  bool_decide (jstr "source" (ev_payload event) = Some _EVENT_SOURCE_TAG)
  && bool_decide (jstr "pm_id" (ev_payload event) = Some pm_id).

Definition _event_type_for_action (action : string) (to_state : option PositionLifecycleState) : EventType :=
  if String.eqb action "CREATE" then EventType.POSITION_OPENED
  else if String.eqb action "ENTRY_FILL" then EventType.POSITION_UPDATED
  else if String.eqb action "EXIT" then
    match to_state with
    | Some _S.STOP_TRIGGERED => EventType.STOP_UPDATED
    | Some _S.T1_REACHED | Some _S.T2_REACHED => EventType.TAKE_PROFIT_UPDATED
    | _ => EventType.POSITION_CLOSED
    end
  else if String.eqb action "BREAKEVEN" then EventType.STOP_UPDATED
  else if String.eqb action "COMPLETE_CLOSE" then EventType.POSITION_CLOSED
  else if String.eqb action "ARCHIVE" then EventType.POSITION_UPDATED
  else if String.eqb action "FUNDING" then EventType.POSITION_UPDATED
  else EventType.HEALTH_ALERT.

Record PositionManager := {
  pm_snapshots : list (string * PositionSnapshot);
  pm_closed_legs : list (string * list ClosedLeg);
  pm_processed_fill_ids : list (string * gset string);
  pm_applied_event_ids : gset Z;
  pm_next_seq : Z
}.

Definition set_snapshots x m := {| pm_snapshots := x; pm_closed_legs := pm_closed_legs m;
  pm_processed_fill_ids := pm_processed_fill_ids m; pm_applied_event_ids := pm_applied_event_ids m;
  pm_next_seq := pm_next_seq m |}.
Definition set_legs x m := {| pm_snapshots := pm_snapshots m; pm_closed_legs := x;
  pm_processed_fill_ids := pm_processed_fill_ids m; pm_applied_event_ids := pm_applied_event_ids m;
  pm_next_seq := pm_next_seq m |}.
Definition set_fills x m := {| pm_snapshots := pm_snapshots m; pm_closed_legs := pm_closed_legs m;
  pm_processed_fill_ids := x; pm_applied_event_ids := pm_applied_event_ids m;
  pm_next_seq := pm_next_seq m |}.
Definition set_applied x m := {| pm_snapshots := pm_snapshots m; pm_closed_legs := pm_closed_legs m;
  pm_processed_fill_ids := pm_processed_fill_ids m; pm_applied_event_ids := x;
  pm_next_seq := pm_next_seq m |}.
Definition set_seq x m := {| pm_snapshots := pm_snapshots m; pm_closed_legs := pm_closed_legs m;
  pm_processed_fill_ids := pm_processed_fill_ids m; pm_applied_event_ids := pm_applied_event_ids m;
  pm_next_seq := x |}.

Definition fills_of (pid : string) (m : PositionManager) : gset string := default ∅ (dget pid (pm_processed_fill_ids m)).
Definition legs_of (pid : string) (m : PositionManager) : list ClosedLeg := default [] (dget pid (pm_closed_legs m)).

(** [setdefault(pid, set()).add(fill_id)] *)
Definition add_fill (pid fill_id : string) m :=
  set_fills (dset pid ({[fill_id]} ∪ fills_of pid m) (pm_processed_fill_ids m)) m.
(** [setdefault(pid, []).append(leg)] *)
Definition add_leg (pid : string) (leg : ClosedLeg) m :=
  set_legs (dset pid (legs_of pid m ++ [leg]) (pm_closed_legs m)) m.

(** ** Applying an event *)

(** [Decimal(details.get(k, "0"))] *)
Definition dec_get0 (k : string) (details : json) : result decimal :=
  match jget k details with None => Ok d0 | Some _ => dec_item k details end.

Definition create_snapshot (pid : string) (details timestamp : json) : result PositionSnapshot :=
  sym ← item "symbol" details;
  sym ← str_of sym;
  symbol ← mk_Symbol sym;
  side ← enum_item "side" details;
  intended_quantity ← dec_item "intended_quantity" details;
  stop_price ← dec_item "stop_price" details;
  stop_d ← dec_item "stop_d" details;
  t1_price ← dec_item "t1_price" details;
  t2_price ← dec_item "t2_price" details;
  conviction ← _dec (jget "conviction" details);
  Ok {| ps_position_id := pid; ps_lifecycle_state := _S.NEW; ps_symbol := symbol; ps_side := side;
        ps_intended_quantity := intended_quantity; ps_filled_quantity := d0; ps_remaining_quantity := d0;
        ps_avg_entry_price := None; ps_stop_price := stop_price; ps_stop_d := stop_d;
        ps_t1_price := t1_price; ps_t2_price := t2_price; ps_conviction := conviction;
        ps_realized_pnl := d0; ps_realized_r := d0; ps_fees_paid := d0; ps_funding_paid := d0;
        ps_created_at_utc := timestamp; ps_updated_at_utc := timestamp |}.

(** [dataclasses.replace(existing, ...)] of the fields the actions change. *)
Definition replace_position (x : PositionSnapshot) (state : PositionLifecycleState) (filled remaining : decimal)
    (avg : option decimal) (pnl r fees funding : decimal) (ts : json) : PositionSnapshot :=
  {| ps_position_id := ps_position_id x; ps_lifecycle_state := state; ps_symbol := ps_symbol x; ps_side := ps_side x;
     ps_intended_quantity := ps_intended_quantity x; ps_filled_quantity := filled; ps_remaining_quantity := remaining;
     ps_avg_entry_price := avg; ps_stop_price := ps_stop_price x; ps_stop_d := ps_stop_d x;
     ps_t1_price := ps_t1_price x; ps_t2_price := ps_t2_price x; ps_conviction := ps_conviction x;
     ps_realized_pnl := pnl; ps_realized_r := r; ps_fees_paid := fees; ps_funding_paid := funding;
     ps_created_at_utc := ps_created_at_utc x; ps_updated_at_utc := ts |}.

Definition entry_position (x : PositionSnapshot) state avg filled fees ts :=
  replace_position x state filled filled (Some avg) (ps_realized_pnl x) (ps_realized_r x) fees (ps_funding_paid x) ts.
Definition exit_position (x : PositionSnapshot) state (leg : ClosedLeg) ts :=
  replace_position x state (ps_filled_quantity x) (dsub (ps_remaining_quantity x) (lg_quantity leg))
    (ps_avg_entry_price x) (dadd (ps_realized_pnl x) (lg_realized_pnl leg)) (dadd (ps_realized_r x) (lg_r leg))
    (dadd (ps_fees_paid x) (lg_fee leg)) (ps_funding_paid x) ts.
Definition moved_position (x : PositionSnapshot) state ts :=
  replace_position x state (ps_filled_quantity x) (ps_remaining_quantity x) (ps_avg_entry_price x)
    (ps_realized_pnl x) (ps_realized_r x) (ps_fees_paid x) (ps_funding_paid x) ts.
Definition funded_position (x : PositionSnapshot) amount ts :=
  replace_position x (ps_lifecycle_state x) (ps_filled_quantity x) (ps_remaining_quantity x) (ps_avg_entry_price x)
    (ps_realized_pnl x) (ps_realized_r x) (ps_fees_paid x) (dadd (ps_funding_paid x) amount) ts.

Definition bump_seq (seq : option json) : M PositionManager unit :=
  match seq with
  | None | Some JNull => mret tt
  | Some (JInt z) => modify (fun m => set_seq (Z.max (pm_next_seq m) (z + 1)) m)
  | _ => raise TypeError
  end.

Definition put_snapshot (pid : string) (x : PositionSnapshot) : M PositionManager (option PositionSnapshot) :=
  modify (fun m => set_snapshots (dset pid x (pm_snapshots m)) m);;
  mret (Some x).

Definition apply_entry (pid : string) (existing : PositionSnapshot) (to_state : PositionLifecycleState)
    (details timestamp : json) : M PositionManager (option PositionSnapshot) :=
  fj ← lift (item "fill_id" details);
  fill_id ← lift (str_of fj);
  modify (add_fill pid fill_id);;
  price ← lift (dec_item "fill_price" details);
  q ← lift (dec_item "fill_quantity" details);
  new_avg ← lift (weighted_average_price (ps_avg_entry_price existing) (ps_filled_quantity existing) price q);
  fee ← lift (dec_get0 "fee" details);
  put_snapshot pid (entry_position existing to_state new_avg (dadd (ps_filled_quantity existing) q)
    (dadd (ps_fees_paid existing) fee) timestamp).

Definition exit_leg (pid : string) (existing : PositionSnapshot) (details timestamp : json) : result ClosedLeg :=
  qty_closed ← dec_item "fill_quantity" details;
  r ← dec_item "r" details;
  pct ← dec_item "pct" details;
  rj ← item "reason" details;
  reason ← str_of rj;
  price ← dec_item "fill_price" details;
  fee ← dec_get0 "fee" details;
  realized_pnl ← dec_item "realized_pnl" details;
  Ok {| lg_position_id := pid; lg_symbol := sym_value (ps_symbol existing); lg_r := r; lg_pct := pct;
        lg_reason := reason; lg_conv := ps_conviction existing; lg_entry_at_utc := ps_created_at_utc existing;
        lg_exit_at_utc := timestamp; lg_entry_px := ps_avg_entry_price existing; lg_exit_px := price;
        lg_stop_d := ps_stop_d existing; lg_quantity := qty_closed; lg_fee := fee; lg_realized_pnl := realized_pnl |}.

Definition apply_exit (pid : string) (existing : PositionSnapshot) (to_state : PositionLifecycleState)
    (details timestamp : json) : M PositionManager (option PositionSnapshot) :=
  fj ← lift (item "fill_id" details);
  fill_id ← lift (str_of fj);
  modify (add_fill pid fill_id);;
  leg ← lift (exit_leg pid existing details timestamp);
  modify (add_leg pid leg);;
  put_snapshot pid (exit_position existing to_state leg timestamp).

Definition is_transition (action : string) : bool :=
  String.eqb action "ENTRY_FILL" || String.eqb action "EXIT" || String.eqb action "BREAKEVEN"
  || String.eqb action "COMPLETE_CLOSE" || String.eqb action "ARCHIVE".

Definition apply_transition (event : Event) (action pid : string) (existing : PositionSnapshot)
    : M PositionManager (option PositionSnapshot) :=
  let p := ev_payload event in
  trigger ← lift (enum_item "trigger" p);
  from_state ← lift (enum_item "from_state" p);
  to_state ← lift (enum_item "to_state" p);
  if negb (bool_decide (from_state = ps_lifecycle_state existing)) then raise ReplayIntegrityError else
  if negb (is_legal from_state trigger) || negb (bool_decide (next_state from_state trigger = Ok to_state))
  then raise ReplayIntegrityError else
  let details := default (JObj []) (jget "details" p) in
  if String.eqb action "ENTRY_FILL" then apply_entry pid existing to_state details (ev_timestamp_utc event)
  else if String.eqb action "EXIT" then apply_exit pid existing to_state details (ev_timestamp_utc event)
  else put_snapshot pid (moved_position existing to_state (ev_timestamp_utc event)).

Definition _apply_event (event : Event) : M PositionManager (option PositionSnapshot) :=
  self ← get;
  let p := ev_payload event in
  if bool_decide (ev_id event ∈ pm_applied_event_ids self) then
    pid ← lift (of_option TypeError (jstr "position_id" p));
    mret (dget pid (pm_snapshots self))
  else
    modify (set_applied ({[ev_id event]} ∪ pm_applied_event_ids self));;
    action ← lift (of_option ReplayIntegrityError (jstr "action" p));
    pid ← lift (of_option TypeError (jstr "position_id" p));
    bump_seq (jget "seq" p);;
    if String.eqb action "CREATE" then
      details ← lift (item "details" p);
      snapshot ← lift (create_snapshot pid details (ev_timestamp_utc event));
      modify (fun m => set_snapshots (dset pid snapshot (pm_snapshots m)) m);;
      modify (fun m => set_legs (dsetdefault pid [] (pm_closed_legs m)) m);;
      modify (fun m => set_fills (dsetdefault pid ∅ (pm_processed_fill_ids m)) m);;
      mret (Some snapshot)
    else
      existing ← lift (of_option ReplayIntegrityError (dget pid (pm_snapshots self)));
      if is_transition action then apply_transition event action pid existing
      else if String.eqb action "FUNDING" then
        amount ← lift (dec_item "amount" (default (JObj []) (jget "details" p)));
        put_snapshot pid (funded_position existing amount (ev_timestamp_utc event))
      else raise ReplayIntegrityError.

Definition pm_empty : PositionManager :=
  {| pm_snapshots := []; pm_closed_legs := []; pm_processed_fill_ids := []; pm_applied_event_ids := ∅;
     pm_next_seq := 1 |}.

Definition pm_key (pm_id idempotency_key : string) : string :=
  _EVENT_SOURCE_TAG +:+ ":" +:+ pm_id +:+ ":" +:+ idempotency_key.

(** One step of the constructor's loop. *)
Definition replay_event (pm_id : string) (event : Event) : M PositionManager unit :=
  if _is_own_event pm_id event then _ ← _apply_event event; mret tt else mret tt.

(** [PositionManager(store, pm_id)] on arguments of the right types. *)
Definition pm_init `{EventLog L} (store : L) (pm_id : string) : result PositionManager :=
  if blank pm_id then Err ValueError else
  if _MAX_PM_ID_LENGTH <? slen pm_id then Err ValueError else
  events ← log_replay store;
  match for_each (replay_event pm_id) events pm_empty with
  | (m, Ok _) => Ok m
  | (_, Err e) => Err e
  end.

(** ** Operations *)

Section manager.
Context {L : Type} `{EventLog L} (pm_id : string).
Notation W := (L * PositionManager)%type.

Definition on_pm {X} (m : M PositionManager X) : M W X := zoom snd (fun s w => (w.1, s)) m.

Definition _next_id (suffix : string) : M W (Z * string) :=
  on_pm (fun m => (set_seq (pm_next_seq m + 1) m, Ok (pm_next_seq m, make_id pm_id (pm_next_seq m) suffix))).

Definition pm_payload (action position_id : string) (seq : option Z) (trigger : option PositionLifecycleTrigger)
    (from_state to_state : option PositionLifecycleState) (details : list (string * json)) : list (string * json) :=
  [("source", JStr _EVENT_SOURCE_TAG); ("pm_id", JStr pm_id);
   ("seq", match seq with Some n => JInt n | None => JNull end); ("action", JStr action);
   ("position_id", JStr position_id); ("trigger", opt_value trigger);
   ("from_state", opt_value from_state); ("to_state", opt_value to_state); ("details", JObj details)].

Definition _persist (action position_id : string) (seq : option Z) (trigger : option PositionLifecycleTrigger)
    (from_state to_state : option PositionLifecycleState) (details : list (string * json))
    (idempotency_key : string) : M W Event :=
  zoom fst (fun l w => (l, w.2))
    (log_append (_event_type_for_action action to_state)
       (pm_payload action position_id seq trigger from_state to_state details)
       (Some (pm_key pm_id idempotency_key))).

(** [self._apply_event(self._persist(...))] *)
Definition record (action position_id : string) (seq : option Z) (trigger : option PositionLifecycleTrigger)
    (from_state to_state : option PositionLifecycleState) (details : list (string * json))
    (idempotency_key : string) : M W (option PositionSnapshot) :=
  event ← _persist action position_id seq trigger from_state to_state details idempotency_key;
  on_pm (_apply_event event).

(** The result of [_apply_event], used as a snapshot. *)
Definition the_snapshot (s : option PositionSnapshot) : M W PositionSnapshot := lift (of_option AttributeError s).

Definition _try_transition (trigger : PositionLifecycleTrigger) (current : PositionLifecycleState)
    : result (option PositionLifecycleState) :=
  if is_legal current trigger then s ← next_state current trigger; Ok (Some s)
  else if TERMINAL_STATES current then Ok None
  else
    rank ← trigger_min_target_rank trigger;
    if rank <=? state_rank current then Ok None else Err PositionStateInconsistencyError.

(** [self._snapshots.get(pid)], [PositionNotFoundError] when it is missing. *)
Definition tracked (pid : string) : M W PositionSnapshot := fun w =>
  (w, of_option PositionNotFoundError (dget pid (pm_snapshots w.2))).

Definition create_position (symbol : Symbol) (side : OrderSide)
    (intended_quantity stop_price stop_d t1_price t2_price : decimal) (conviction : option decimal)
    : M W PositionSnapshot :=
  if dleb intended_quantity d0 then raise ValueError else
  if dleb stop_d d0 then raise ValueError else
  '(seq, position_id) ← _next_id "position";
  snapshot ← record "CREATE" position_id (Some seq) None None None
    [("symbol", JStr (sym_value symbol)); ("side", JStr (enum_value side));
     ("intended_quantity", JStr (dec_str intended_quantity)); ("stop_price", JStr (dec_str stop_price));
     ("stop_d", JStr (dec_str stop_d)); ("t1_price", JStr (dec_str t1_price));
     ("t2_price", JStr (dec_str t2_price)); ("conviction", opt_dec conviction)] position_id;
  the_snapshot snapshot.

(** NEW -> OPEN on the first fill. *)
Definition open_position (position_id : string) (fill : Fill) (current : PositionLifecycleState)
    : M W PositionLifecycleState :=
  if bool_decide (current = _S.NEW) then
    to_open ← lift (next_state current _T.FIRST_FILL);
    _ ← record "ENTRY_FILL" position_id None (Some _T.FIRST_FILL) (Some current) (Some to_open)
      [("fill_id", JStr (fl_fill_id fill +:+ ":open")); ("fill_price", JStr (dec_str (fl_price fill)));
       ("fill_quantity", JStr "0"); ("fee", JStr "0")]
      (position_id +:+ ":open:" +:+ fl_fill_id fill);
    mret to_open
  else mret current.

Definition record_entry_fill (position_id : string) (fill : Fill) : M W PositionSnapshot :=
  existing ← tracked position_id;
  w ← get;
  if bool_decide (fl_fill_id fill ∈ fills_of position_id w.2) then mret existing else
  if negb (bool_decide (ps_lifecycle_state existing ∈ [_S.NEW; _S.OPEN; _S.PARTIALLY_FILLED]))
  then raise IllegalPositionTransitionError else
  let new_filled := dadd (ps_filled_quantity existing) (fl_quantity fill) in
  current ← open_position position_id fill (ps_lifecycle_state existing);
  let classify_trigger := if dleb (ps_intended_quantity existing) new_filled then _T.ENTRY_COMPLETE
                          else _T.ENTRY_PARTIAL in
  to_state ← lift (_try_transition classify_trigger current);
  match to_state with
  | None => w ← get; lift (of_option KeyError (dget position_id (pm_snapshots w.2)))
  | Some to_state =>
      snapshot ← record "ENTRY_FILL" position_id None (Some classify_trigger) (Some current) (Some to_state)
        [("fill_id", JStr (fl_fill_id fill)); ("fill_price", JStr (dec_str (fl_price fill)));
         ("fill_quantity", JStr (dec_str (fl_quantity fill))); ("fee", JStr (dec_str (fl_fee fill)))]
        (position_id +:+ ":entry:" +:+ fl_fill_id fill);
      the_snapshot snapshot
  end.

Definition is_exit_trigger (t : PositionLifecycleTrigger) : bool :=
  match t with _T.T1 | _T.T2 | _T.STOP | _T.CLOSE => true | _ => false end.

Definition leg_reason (trigger : PositionLifecycleTrigger) (current : PositionLifecycleState) (reason : option string)
    : result string :=
  match trigger with
  | _T.STOP => Ok (if bool_decide (current = _S.BREAKEVEN_ACTIVE) then "stop_after_t1" else "stop_before_t1")
  | _T.CLOSE => Ok (match reason with None | Some EmptyString => "signal_loss" | Some r => r end)
  | _ => _EXIT_TRIGGER_REASON trigger
  end.

Definition record_exit (position_id : string) (fill : Fill) (trigger : PositionLifecycleTrigger)
    (reason : option string) : M W PositionSnapshot :=
  if negb (is_exit_trigger trigger) then raise ValueError else
  existing ← tracked position_id;
  w ← get;
  if bool_decide (fl_fill_id fill ∈ fills_of position_id w.2) then mret existing else
  if TERMINAL_STATES (ps_lifecycle_state existing) then
    on_pm (modify (add_fill position_id (fl_fill_id fill)));; mret existing
  else
    let current := ps_lifecycle_state existing in
    to_state ← lift (_try_transition trigger current);
    match to_state with
    | None => on_pm (modify (add_fill position_id (fl_fill_id fill)));; mret existing
    | Some to_state =>
        match ps_avg_entry_price existing with
        | None => raise PositionStateInconsistencyError
        | Some avg =>
            fraction ← lift (fraction_of_original (fl_quantity fill) (ps_intended_quantity existing));
            r ← lift (leg_r_multiple avg (fl_price fill) (ps_stop_d existing) fraction (fl_fee fill) (fl_quantity fill));
            pct ← lift (leg_pct avg (fl_price fill) fraction);
            let realized_pnl := leg_realized_pnl avg (fl_price fill) (fl_quantity fill) (fl_fee fill) in
            reason ← lift (leg_reason trigger current reason);
            snapshot ← record "EXIT" position_id None (Some trigger) (Some current) (Some to_state)
              [("fill_id", JStr (fl_fill_id fill)); ("fill_price", JStr (dec_str (fl_price fill)));
               ("fill_quantity", JStr (dec_str (fl_quantity fill))); ("fee", JStr (dec_str (fl_fee fill)));
               ("r", JStr (dec_str r)); ("pct", JStr (dec_str pct)); ("reason", JStr reason);
               ("realized_pnl", JStr (dec_str realized_pnl))]
              (position_id +:+ ":exit:" +:+ fl_fill_id fill);
            the_snapshot snapshot
        end
    end.

Definition _pure_transition (position_id : string) (trigger : PositionLifecycleTrigger) (action tag : string)
    : M W PositionSnapshot :=
  existing ← tracked position_id;
  let current := ps_lifecycle_state existing in
  to_state ← lift (_try_transition trigger current);
  match to_state with
  | None => mret existing
  | Some to_state =>
      snapshot ← record action position_id None (Some trigger) (Some current) (Some to_state) []
        (position_id +:+ ":" +:+ tag);
      the_snapshot snapshot
  end.

Definition confirm_breakeven (position_id : string) := _pure_transition position_id _T.BREAKEVEN "BREAKEVEN" "breakeven".
Definition complete_close (position_id : string) := _pure_transition position_id _T.COMPLETE_CLOSE "COMPLETE_CLOSE" "complete_close".
Definition archive_position (position_id : string) := _pure_transition position_id _T.ARCHIVE "ARCHIVE" "archive".

Definition record_funding_payment (position_id : string) (amount : decimal) (timestamp_utc funding_id : string)
    : M W PositionSnapshot :=
  _ ← tracked position_id;
  snapshot ← record "FUNDING" position_id None None None None
    [("amount", JStr (dec_str amount)); ("timestamp_utc", JStr timestamp_utc); ("funding_id", JStr funding_id)]
    (position_id +:+ ":funding:" +:+ funding_id);
  the_snapshot snapshot.

Definition get_position (position_id : string) : M W PositionSnapshot := tracked position_id.

Definition get_closed_legs (position_id : string) : M W (list ClosedLeg) :=
  _ ← tracked position_id;
  w ← get;
  mret (legs_of position_id w.2).

Definition unrealized_pnl_of (position_id : string) (mark_price : decimal) : M W decimal :=
  snapshot ← get_position position_id;
  match ps_avg_entry_price snapshot with
  | None => mret d0
  | Some avg => if dleb (ps_remaining_quantity snapshot) d0 then mret d0
                else mret (unrealized_pnl avg mark_price (ps_remaining_quantity snapshot))
  end.
End manager.
