(* ===== verification/PositionManagerFacts.v ===== *)
(** * The position manager: how events are applied, and its invariant *)

From Stdlib Require Import ssreflect ZArith Lia Ascii String QArith.
From stdpp Require Import base strings numbers gmap sets list.
From S2P Require Import Prelude PyText PyDict PyBytes PyJson PyJsonFacts PyDecimal PyDecimalFacts.
From S2P Require Import EventStore EventStoreFacts EventLog Journal Payload.
From S2P Require Import ExchangeModels ExchangeAdapter PositionStates PositionManager.
#[local] Open Scope Z_scope.

(** ** Live and rebuilt managers *)

Record rebuilt (live m : PositionManager) : Prop := {
  rb_snapshots : pm_snapshots live = pm_snapshots m;
  rb_legs : pm_closed_legs live = pm_closed_legs m;
  rb_applied : pm_applied_event_ids live = pm_applied_event_ids m;
  rb_seq : pm_next_seq m <= pm_next_seq live;
  rb_fills pid x : x ∈ fills_of pid m -> x ∈ fills_of pid live
}.

Lemma fills_of_add pid' pid f m :
  fills_of pid' (add_fill pid f m) = if String.eqb pid' pid then {[f]} ∪ fills_of pid m else fills_of pid' m.
Proof. unfold fills_of, add_fill. cbn. rewrite dget_dset. by destruct (String.eqb pid' pid). Qed.

Lemma legs_of_add pid' pid leg m :
  legs_of pid' (add_leg pid leg m) = if String.eqb pid' pid then legs_of pid m ++ [leg] else legs_of pid' m.
Proof. unfold legs_of, add_leg. cbn. rewrite dget_dset. by destruct (String.eqb pid' pid). Qed.

Lemma default_setdefault {V} (v : V) pid k (d : list (string * V)) :
  default v (dget k (dsetdefault pid v d)) = default v (dget k d).
Proof.
  unfold dsetdefault, din. destruct (dget pid d) eqn:E; [done|]. rewrite dget_dset.
  destruct (String.eqb k pid) eqn:Ek; [|done]. apply String.eqb_eq in Ek as ->. by rewrite E.
Qed.

Lemma sim_add_fill pid f : simulates rebuilt (modify (add_fill pid f)).
Proof.
  apply simulates_modify. intros a b [Hs Hl Ha Hq Hf]. split; try done. intros p x. rewrite !fills_of_add.
  destruct (String.eqb p pid); [|apply Hf]. specialize (Hf pid x). rewrite !elem_of_union. naive_solver.
Qed.

Lemma sim_put pid x : simulates rebuilt (put_snapshot pid x).
Proof.
  apply simulates_bind; [|auto with turtle]. apply simulates_modify.
  intros a b [Hs ? ? ? ?]. split; try done. cbn. by rewrite Hs.
Qed.

Lemma sim_transition e action pid x : simulates rebuilt (apply_transition e action pid x).
Proof.
  unfold apply_transition, apply_entry, apply_exit.
  do 3 (apply simulates_bind; [auto with turtle|intros ?]).
  apply simulates_if; [auto with turtle|]. apply simulates_if; [auto with turtle|].
  apply simulates_if; [|apply simulates_if; [|apply sim_put]].
  - do 2 (apply simulates_bind; [auto with turtle|intros ?]). apply simulates_bind; [apply sim_add_fill|intros ?].
    do 4 (apply simulates_bind; [auto with turtle|intros ?]). apply sim_put.
  - do 2 (apply simulates_bind; [auto with turtle|intros ?]). apply simulates_bind; [apply sim_add_fill|intros ?].
    apply simulates_bind; [auto with turtle|intros ?]. apply simulates_bind; [|intros ?; apply sim_put].
    apply simulates_modify. intros u v [Hs Hl ? ? ?]. split; try done. cbn. unfold legs_of. by rewrite Hl.
Qed.

Lemma pm_apply_event_simulates e : simulates rebuilt (_apply_event e).
Proof.
  unfold _apply_event. apply simulates_get.
  2:{ intros a b Hab. by rewrite (rb_snapshots a b Hab) (rb_applied a b Hab). }
  intros s. apply simulates_if.
  { apply simulates_bind; [auto with turtle|intros cid; auto with turtle]. }
  apply simulates_bind. { apply simulates_modify. intros a b [? ? ? ? ?]. by split. }
  intros _. apply simulates_bind; [auto with turtle|]. intros action.
  apply simulates_bind; [auto with turtle|]. intros pid.
  apply simulates_bind.
  { unfold bump_seq. repeat case_match; auto with turtle.
    apply simulates_modify. intros a b [? ? ? ? ?]. split; try done. cbn. lia. }
  intros _. apply simulates_if.
  { do 2 (apply simulates_bind; [auto with turtle|intros ?]). apply simulates_bind.
    { apply simulates_modify. intros u v [Hs ? ? ? ?]. split; try done. cbn. by rewrite Hs. }
    intros _. apply simulates_bind.
    { apply simulates_modify. intros u v [? Hl ? ? ?]. split; try done. cbn. by rewrite Hl. }
    intros _. apply simulates_bind; [|auto with turtle]. apply simulates_modify.
    intros u v [? ? ? ? Hf]. split; try done. unfold fills_of. cbn. intros p x. rewrite !default_setdefault. apply Hf. }
  apply simulates_bind; [auto with turtle|]. intros existing. apply simulates_if; [apply sim_transition|].
  apply simulates_if; [|auto with turtle]. apply simulates_bind; [auto with turtle|]. intros amount. apply sim_put.
Qed.

(** Everything after the event is marked as applied leaves the marks alone. *)
Lemma apply_event_new_applied e m : ev_id e ∉ pm_applied_event_ids m ->
  pm_applied_event_ids (_apply_event e m).1 = {[ev_id e]} ∪ pm_applied_event_ids m.
Proof.
  intros Hn. unfold _apply_event. rewrite run_get bool_decide_eq_false_2 // run_bind. unfold modify at 1.
  set (A := {[ev_id e]} ∪ _). set (I := fun m => pm_applied_event_ids m = A).
  enough (Hp : forall k : M PositionManager (option PositionSnapshot), preserves I k ->
    pm_applied_event_ids (k (set_applied A m)).1 = A); [|by intros k Hk; apply Hk].
  apply Hp. clear Hp.
  assert (Hput : forall pid x, preserves I (put_snapshot pid x)).
  { intros. apply preserves_bind; [by apply preserves_modify|auto with turtle]. }
  assert (Hmod : forall f, (forall m, pm_applied_event_ids (f m) = pm_applied_event_ids m) -> preserves I (modify f)).
  { intros f Hf. apply preserves_modify. intros s Hs. unfold I. by rewrite Hf. }
  assert (Htr : forall action pid x, preserves I (apply_transition e action pid x)).
  { intros action pid x. unfold apply_transition, apply_entry, apply_exit.
    do 3 (apply preserves_bind; [auto with turtle|intros ?]).
    destruct (negb _); [auto with turtle|]. destruct (_ || _); [auto with turtle|].
    destruct (String.eqb action "ENTRY_FILL"); [|destruct (String.eqb action "EXIT"); [|apply Hput]].
    - do 2 (apply preserves_bind; [auto with turtle|intros ?]). apply preserves_bind; [by apply Hmod|intros ?].
      do 4 (apply preserves_bind; [auto with turtle|intros ?]). apply Hput.
    - do 2 (apply preserves_bind; [auto with turtle|intros ?]). apply preserves_bind; [by apply Hmod|intros ?].
      apply preserves_bind; [auto with turtle|intros ?]. apply preserves_bind; [by apply Hmod|intros ?]. apply Hput. }
  do 2 (apply preserves_bind; [auto with turtle|intros ?]). apply preserves_bind.
  { unfold bump_seq. repeat case_match; auto with turtle. }
  intros _. destruct (String.eqb _ "CREATE").
  - do 2 (apply preserves_bind; [auto with turtle|intros ?]).
    do 3 (apply preserves_bind; [by apply Hmod|intros ?]). auto with turtle.
  - apply preserves_bind; [auto with turtle|intros ?]. destruct (is_transition _); [apply Htr|].
    destruct (String.eqb _ "FUNDING"); [|auto with turtle]. apply preserves_bind; [auto with turtle|intros ?]. apply Hput.
Qed.

#[global] Program Instance position_journal (pm_id : string) : Journaled PositionManager (option PositionSnapshot) := {
  j_own := _is_own_event pm_id;
  j_key := pm_key pm_id;
  j_apply := _apply_event;
  j_applied := pm_applied_event_ids;
  j_sim := rebuilt
}.
Next Obligation. intros pm k k'. unfold pm_key. intros E. by apply app_inj_l_s, app_inj_l_s, app_inj_l_s, app_inj_l_s in E. Qed.
Next Obligation. by intros _ s. Qed.
Next Obligation. intros _ a b Hab. apply (rb_applied _ _ Hab). Qed.
Next Obligation. intros _ e. apply pm_apply_event_simulates. Qed.
Next Obligation.
  intros _ e s He. unfold _apply_event. rewrite run_get bool_decide_eq_true_2 // run_bind. unfold lift.
  by destruct (of_option _ _).
Qed.
Next Obligation. intros _ e s. apply apply_event_new_applied. Qed.

(** ** What each recorded event does *)

Definition bump (seq : option Z) (n : Z) : Z := match seq with Some z => Z.max n (z + 1) | None => n end.

(** The update of one position: its snapshot, its legs, nothing else. *)
Record updates (pid : string) (y : PositionSnapshot) (legs : list ClosedLeg) (m m' : PositionManager) : Prop := {
  up_snapshots : pm_snapshots m' = dset pid y (pm_snapshots m);
  up_legs p : legs_of p m' = if String.eqb p pid then legs else legs_of p m;
  up_seq : pm_next_seq m' = pm_next_seq m
}.

(** A payload whose application to any manager that has [x] at [pid], with
    [legs], replaces them by [y ts] and [legs' ts]. *)
Definition applicable (p : list (string * json)) (pid : string) (x : PositionSnapshot) (legs : list ClosedLeg)
    (y : json -> PositionSnapshot) (legs' : json -> list ClosedLeg) : Prop :=
  forall e m, ev_payload e = JObj p -> ev_id e ∉ pm_applied_event_ids m ->
    dget pid (pm_snapshots m) = Some x -> legs_of pid m = legs ->
    (_apply_event e m).2 = Ok (Some (y (ev_timestamp_utc e))) /\
    updates pid (y (ev_timestamp_utc e)) (legs' (ev_timestamp_utc e)) m (_apply_event e m).1.

Lemma pm_apply_event_new pm action pid seq t a b details e m :
  ev_payload e = JObj (pm_payload pm action pid seq t a b details) -> ev_id e ∉ pm_applied_event_ids m ->
  _apply_event e m =
  (if String.eqb action "CREATE" then
      snapshot ← lift (create_snapshot pid (JObj details) (ev_timestamp_utc e));
      modify (fun m => set_snapshots (dset pid snapshot (pm_snapshots m)) m);;
      modify (fun m => set_legs (dsetdefault pid [] (pm_closed_legs m)) m);;
      modify (fun m => set_fills (dsetdefault pid ∅ (pm_processed_fill_ids m)) m);;
      mret (Some snapshot)
    else
      existing ← lift (of_option ReplayIntegrityError (dget pid (pm_snapshots m)));
      if is_transition action then apply_transition e action pid existing
      else if String.eqb action "FUNDING" then
        amount ← lift (dec_item "amount" (JObj details));
        put_snapshot pid (funded_position existing amount (ev_timestamp_utc e))
      else raise ReplayIntegrityError)
  (set_seq (bump seq (pm_next_seq m)) (set_applied ({[ev_id e]} ∪ pm_applied_event_ids m) m)).
Proof.
  intros Hp Hn. unfold _apply_event. rewrite run_get bool_decide_eq_false_2 // Hp run_bind. unfold modify at 1.
  rewrite run_bind. unfold lift at 1. change (jstr "action" _) with (Some action). cbn [of_option].
  rewrite run_bind. unfold lift at 1. change (jstr "position_id" _) with (Some pid). cbn [of_option].
  rewrite run_bind. change (jget "seq" _) with (Some (match seq with Some n => JInt n | None => JNull end)).
  assert (Hb : forall m, bump_seq (Some (match seq with Some n => JInt n | None => JNull end)) m
    = (set_seq (bump seq (pm_next_seq m)) m, Ok tt)).
  { intros m'. destruct seq; cbn; [done|]. by destruct m'. }
  rewrite Hb. cbn [pm_next_seq set_applied]. destruct (String.eqb action "CREATE"); [|done].
  by rewrite run_bind.
Qed.

Section apply.
Context (pm pid : string) (x : PositionSnapshot) (legs : list ClosedLeg).

(** The checks a recorded edge passes. *)
Lemma apply_edge action t a b details e m seq :
  ev_payload e = JObj (pm_payload pm action pid seq (Some t) (Some a) (Some b) details) ->
  ps_lifecycle_state x = a -> TRANSITION_TABLE a t = Some b ->
  apply_transition e action pid x m =
  (if String.eqb action "ENTRY_FILL" then apply_entry pid x b (JObj details) (ev_timestamp_utc e)
   else if String.eqb action "EXIT" then apply_exit pid x b (JObj details) (ev_timestamp_utc e)
   else put_snapshot pid (moved_position x b (ev_timestamp_utc e))) m.
Proof.
  intros Hp Ha Ht. unfold apply_transition. rewrite Hp !run_bind. unfold lift at 1.
  rewrite (enum_item_opt "trigger" _ t) // run_bind. unfold lift at 1.
  rewrite (enum_item_opt "from_state" _ a) // run_bind. unfold lift at 1.
  rewrite (enum_item_opt "to_state" _ b) // Ha bool_decide_eq_true_2 //. cbn [negb].
  unfold is_legal, next_state. rewrite Ht. cbn [of_option negb orb]. by rewrite bool_decide_eq_true_2.
Qed.

Lemma put_snapshot_updates y m m0 ls : (forall p, legs_of p m = if String.eqb p pid then ls else legs_of p m0) ->
  pm_snapshots m = pm_snapshots m0 -> pm_next_seq m = pm_next_seq m0 ->
  (put_snapshot pid y m).2 = Ok (Some y) /\ updates pid y ls m0 (put_snapshot pid y m).1.
Proof. intros Hl Hs Hq. unfold put_snapshot, mbind, M_bind, modify, mret, M_ret. cbn. split; [done|]. split; cbn; congruence || done. Qed.

Lemma apply_entry_fill t a b fid price q fee avg :
  ps_lifecycle_state x = a -> TRANSITION_TABLE a t = Some b ->
  weighted_average_price (ps_avg_entry_price x) (ps_filled_quantity x) price q = Ok avg ->
  applicable (pm_payload pm "ENTRY_FILL" pid None (Some t) (Some a) (Some b)
      [("fill_id", JStr fid); ("fill_price", JStr (dec_str price));
       ("fill_quantity", JStr (dec_str q)); ("fee", JStr (dec_str fee))]) pid x legs
    (entry_position x b avg (dadd (ps_filled_quantity x) q) (dadd (ps_fees_paid x) fee)) (fun _ => legs).
Proof.
  intros Ha Ht Havg e m Hp Hn Hx Hl. rewrite (pm_apply_event_new _ _ _ _ _ _ _ _ _ _ Hp Hn).
  cbn [String.eqb Ascii.eqb Bool.eqb]. rewrite run_lift Hx. cbn [of_option].
  change (is_transition "ENTRY_FILL") with true. cbv beta iota. rewrite (apply_edge _ _ _ _ _ _ _ _ Hp Ha Ht).
  cbn [String.eqb Ascii.eqb Bool.eqb]. unfold apply_entry. rewrite run_lift.
  set (d := JObj _). change (item "fill_id" d) with (Ok (JStr fid)). cbv beta iota.
  rewrite run_lift. change (str_of (JStr fid)) with (Ok fid). cbv beta iota. rewrite run_modify.
  rewrite run_lift (dec_item_str "fill_price" _ price) // run_lift (dec_item_str "fill_quantity" _ q) //.
  rewrite run_lift Havg run_lift.
  assert (Hfee : dec_get0 "fee" d = Ok fee) by (unfold dec_get0; cbn [jget d]; by rewrite (dec_item_str "fee" _ fee)).
  rewrite Hfee. apply put_snapshot_updates; [|done|done].
  intros p. change (legs_of p (add_fill _ _ _)) with (legs_of p m). destruct (String.eqb p pid) eqn:E; [|done].
  by apply String.eqb_eq in E as ->.
Qed.

Lemma apply_exit_fill t a b fid price q fee r pct reason pnl :
  ps_lifecycle_state x = a -> TRANSITION_TABLE a t = Some b ->
  let leg ts := {| lg_position_id := pid; lg_symbol := sym_value (ps_symbol x); lg_r := r; lg_pct := pct;
        lg_reason := reason; lg_conv := ps_conviction x; lg_entry_at_utc := ps_created_at_utc x;
        lg_exit_at_utc := ts; lg_entry_px := ps_avg_entry_price x; lg_exit_px := price;
        lg_stop_d := ps_stop_d x; lg_quantity := q; lg_fee := fee; lg_realized_pnl := pnl |} in
  applicable (pm_payload pm "EXIT" pid None (Some t) (Some a) (Some b)
      [("fill_id", JStr fid); ("fill_price", JStr (dec_str price)); ("fill_quantity", JStr (dec_str q));
       ("fee", JStr (dec_str fee)); ("r", JStr (dec_str r)); ("pct", JStr (dec_str pct)); ("reason", JStr reason);
       ("realized_pnl", JStr (dec_str pnl))]) pid x legs
    (fun ts => exit_position x b (leg ts) ts) (fun ts => legs ++ [leg ts]).
Proof.
  intros Ha Ht leg e m Hp Hn Hx Hl. rewrite (pm_apply_event_new _ _ _ _ _ _ _ _ _ _ Hp Hn).
  cbn [String.eqb Ascii.eqb Bool.eqb]. rewrite run_lift Hx. cbn [of_option].
  change (is_transition "EXIT") with true. cbv beta iota. rewrite (apply_edge _ _ _ _ _ _ _ _ Hp Ha Ht).
  cbn [String.eqb Ascii.eqb Bool.eqb]. unfold apply_exit. rewrite run_lift.
  set (d := JObj _). change (item "fill_id" d) with (Ok (JStr fid)). cbv beta iota.
  rewrite run_lift. change (str_of (JStr fid)) with (Ok fid). cbv beta iota. rewrite run_modify run_lift.
  assert (Hleg : forall ts, exit_leg pid x d ts = Ok (leg ts)).
  { intros ts. unfold exit_leg.
    rewrite (dec_item_str "fill_quantity" _ q) // (dec_item_str "r" _ r) // (dec_item_str "pct" _ pct) //.
    unfold mbind at 1 2 3, result_bind at 1 2 3. change (item "reason" d) with (Ok (JStr reason)).
    unfold mbind at 1 2, result_bind at 1 2. change (str_of (JStr reason)) with (Ok reason).
    rewrite (dec_item_str "fill_price" _ price) // (dec_item_str "realized_pnl" _ pnl) //.
    unfold dec_get0. cbn [jget d]. by rewrite (dec_item_str "fee" _ fee). }
  rewrite Hleg run_modify. apply put_snapshot_updates; [|done|done].
  intros p. rewrite legs_of_add. destruct (String.eqb p pid) eqn:E; [|done]. unfold legs_of in *. cbn. by rewrite Hl.
Qed.

Lemma apply_moved action t a b :
  action = "BREAKEVEN" \/ action = "COMPLETE_CLOSE" \/ action = "ARCHIVE" ->
  ps_lifecycle_state x = a -> TRANSITION_TABLE a t = Some b ->
  applicable (pm_payload pm action pid None (Some t) (Some a) (Some b) []) pid x legs
    (moved_position x b) (fun _ => legs).
Proof.
  intros Hact Ha Ht e m Hp Hn Hx Hl. rewrite (pm_apply_event_new _ _ _ _ _ _ _ _ _ _ Hp Hn).
  assert (Hb : String.eqb action "CREATE" = false /\ is_transition action = true /\
    String.eqb action "ENTRY_FILL" = false /\ String.eqb action "EXIT" = false) by (by destruct Hact as [->|[->| ->]]).
  destruct Hb as (E1 & E2 & E3 & E4). rewrite E1 run_lift Hx. cbn [of_option]. rewrite E2.
  rewrite (apply_edge _ _ _ _ _ _ _ _ Hp Ha Ht) E3 E4. apply put_snapshot_updates; [|done|done].
  intros p. destruct (String.eqb p pid) eqn:E; [|done]. by apply String.eqb_eq in E as ->.
Qed.

Lemma apply_funding amount ts0 fid :
  applicable (pm_payload pm "FUNDING" pid None None None None
      [("amount", JStr (dec_str amount)); ("timestamp_utc", JStr ts0); ("funding_id", JStr fid)]) pid x legs
    (funded_position x amount) (fun _ => legs).
Proof.
  intros e m Hp Hn Hx Hl. rewrite (pm_apply_event_new _ _ _ _ _ _ _ _ _ _ Hp Hn).
  cbn [String.eqb Ascii.eqb Bool.eqb]. rewrite run_lift Hx. cbn [of_option].
  change (is_transition "FUNDING") with false. cbv beta iota. rewrite run_lift (dec_item_str "amount" _ amount) //.
  apply put_snapshot_updates; [|done|done].
  intros p. destruct (String.eqb p pid) eqn:E; [|done]. by apply String.eqb_eq in E as ->.
Qed.
End apply.

(** The snapshot of a new position. *)
Definition new_position pid symbol side iq sp sd t1 t2 conv (ts : json) : PositionSnapshot :=
  {| ps_position_id := pid; ps_lifecycle_state := _S.NEW; ps_symbol := symbol; ps_side := side;
     ps_intended_quantity := iq; ps_filled_quantity := d0; ps_remaining_quantity := d0;
     ps_avg_entry_price := None; ps_stop_price := sp; ps_stop_d := sd;
     ps_t1_price := t1; ps_t2_price := t2; ps_conviction := conv;
     ps_realized_pnl := d0; ps_realized_r := d0; ps_fees_paid := d0; ps_funding_paid := d0;
     ps_created_at_utc := ts; ps_updated_at_utc := ts |}.

Lemma apply_create pm pid n symbol side iq sp sd t1 t2 conv e m :
  blank (sym_value symbol) = false ->
  ev_payload e = JObj (pm_payload pm "CREATE" pid (Some n) None None None
    [("symbol", JStr (sym_value symbol)); ("side", JStr (enum_value side));
     ("intended_quantity", JStr (dec_str iq)); ("stop_price", JStr (dec_str sp));
     ("stop_d", JStr (dec_str sd)); ("t1_price", JStr (dec_str t1));
     ("t2_price", JStr (dec_str t2)); ("conviction", opt_dec conv)]) ->
  ev_id e ∉ pm_applied_event_ids m ->
  let y := new_position pid symbol side iq sp sd t1 t2 conv (ev_timestamp_utc e) in
  let m' := (_apply_event e m).1 in
  (_apply_event e m).2 = Ok (Some y) /\ pm_snapshots m' = dset pid y (pm_snapshots m) /\
  (forall p, legs_of p m' = legs_of p m) /\ pm_next_seq m' = Z.max (pm_next_seq m) (n + 1).
Proof.
  intros Hb Hp Hn. cbv zeta. rewrite (pm_apply_event_new _ _ _ _ _ _ _ _ _ _ Hp Hn).
  cbn [String.eqb Ascii.eqb Bool.eqb]. rewrite run_lift. set (d := JObj _).
  assert (Hs : create_snapshot pid d (ev_timestamp_utc e)
             = Ok (new_position pid symbol side iq sp sd t1 t2 conv (ev_timestamp_utc e))).
  { unfold create_snapshot. change (item "symbol" d) with (Ok (JStr (sym_value symbol))).
    unfold mbind at 1 2, result_bind at 1 2. cbn [str_of as_str of_option].
    unfold mk_Symbol. rewrite Hb. unfold mbind at 1, result_bind at 1.
    rewrite (enum_item_opt "side" _ side) //.
    rewrite (dec_item_str "intended_quantity" _ iq) // (dec_item_str "stop_price" _ sp) // (dec_item_str "stop_d" _ sd) //
      (dec_item_str "t1_price" _ t1) // (dec_item_str "t2_price" _ t2) //.
    change (jget "conviction" d) with (Some (opt_dec conv)).
    destruct conv as [c|]; cbn -[dec_parse]; rewrite ?dec_parse_str; by destruct symbol. }
  rewrite Hs !run_modify. split; [done|]. split; [done|]. split; [|done].
  intros p. unfold legs_of. cbn. by rewrite default_setdefault.
Qed.
