(* ===== verification/PositionManagerSpec.v ===== *)
(** * The position manager: its runs and what holds of them

    The invariant ties every position's totals to its closed legs, its state to
    what has been filled and to the exits recorded, and the log to the manager
    that a restart rebuilds from it. *)

From Stdlib Require Import ssreflect ZArith Lia Ascii String QArith Lqa.
From stdpp Require Import base strings numbers gmap sets list.
From S2P Require Import Prelude PyText PyDict PyBytes PyJson PyJsonFacts PyDecimal PyDecimalFacts.
From S2P Require Import EventStore EventStoreFacts EventLog Journal Payload.
From S2P Require Import ExchangeModels ExchangeAdapter PositionStates PositionManager PositionManagerFacts.
#[local] Open Scope Z_scope.

Definition position_id (pm : string) (n : Z) : string := make_id pm n "position".

Lemma position_id_tail pm n m t t' : 0 <= n -> 0 <= m ->
  position_id pm n +:+ t = position_id pm m +:+ t' -> n = m /\ t = t'.
Proof.
  intros Hn Hm E. unfold position_id, make_id in E. rewrite !app_assoc_s in E.
  apply app_inj_l_s, app_inj_l_s, app_inj_l_s in E. apply int_str_colon_inj in E as [-> E]; [|done..].
  split; [done|]. by apply app_inj_l_s in E.
Qed.

(** ** The books of one position *)

(** The exits a state allows, by the reasons of the legs: a first target, then a
    second one, a stop or a close; or a stop or a close straight away. *)
Definition exit_path (s : PositionLifecycleState) (reasons : list string) : Prop :=
  match s with
  | _S.NEW | _S.OPEN | _S.PARTIALLY_FILLED | _S.FULLY_FILLED => reasons = []
  | _S.T1_REACHED | _S.BREAKEVEN_ACTIVE => reasons = ["t1_half"]
  | _S.T2_REACHED => reasons = ["t1_half"; "t2"]
  | _S.STOP_TRIGGERED => reasons = ["stop_before_t1"] \/ reasons = ["t1_half"; "stop_after_t1"]
  | _S.CLOSED | _S.ARCHIVED => exists r, reasons = [r] \/ reasons = ["t1_half"; r]
  end.

(** What has been filled, by state. *)
Definition entry_path (s : PositionLifecycleState) (filled intended : decimal) (avg : option decimal) : Prop :=
  match s with
  | _S.NEW => filled = d0 /\ avg = None
  | _S.OPEN => filled = d0 /\ avg <> None
  | _S.PARTIALLY_FILLED => (0 < value filled)%Q /\ (value filled < value intended)%Q /\ avg <> None
  | _S.FULLY_FILLED | _S.T1_REACHED | _S.BREAKEVEN_ACTIVE | _S.T2_REACHED =>
      (0 < value filled)%Q /\ (value intended <= value filled)%Q /\ avg <> None
  | _S.STOP_TRIGGERED | _S.CLOSED | _S.ARCHIVED => (0 < value filled)%Q /\ avg <> None
  end.

Record position_ok (pid : string) (x : PositionSnapshot) (legs : list ClosedLeg) : Prop := {
  po_id : ps_position_id x = pid;
  po_pnl : ps_realized_pnl x = foldl dadd d0 (map lg_realized_pnl legs);
  po_r : ps_realized_r x = foldl dadd d0 (map lg_r legs);
  po_remaining : ps_remaining_quantity x = foldl dsub (ps_filled_quantity x) (map lg_quantity legs);
  po_exits : exit_path (ps_lifecycle_state x) (map lg_reason legs);
  po_entries : entry_path (ps_lifecycle_state x) (ps_filled_quantity x) (ps_intended_quantity x) (ps_avg_entry_price x)
}.

(** A position may have moved on, but is the same position. *)
Record advanced (x y : PositionSnapshot) : Prop := {
  ad_rank : state_rank (ps_lifecycle_state x) <= state_rank (ps_lifecycle_state y);
  ad_terms : (ps_symbol y, ps_side y, ps_intended_quantity y, ps_stop_price y, ps_stop_d y)
           = (ps_symbol x, ps_side x, ps_intended_quantity x, ps_stop_price x, ps_stop_d x)
}.

Definition positions_advanced (sn sn' : list (string * PositionSnapshot)) : Prop :=
  forall pid x, dget pid sn = Some x -> exists y, dget pid sn' = Some y /\ advanced x y.

Lemma advanced_refl x : advanced x x.
Proof. split; [lia|done]. Qed.

Lemma advanced_trans x y z : advanced x y -> advanced y z -> advanced x z.
Proof. intros [? Ht] [? Ht']. split; [lia|by rewrite Ht']. Qed.

Lemma positions_advanced_refl sn : positions_advanced sn sn.
Proof. intros pid x Hx. exists x. split; [done|apply advanced_refl]. Qed.

Lemma positions_advanced_dset sn0 sn pid y : positions_advanced sn0 sn ->
  (forall x, dget pid sn = Some x -> advanced x y) -> positions_advanced sn0 (dset pid y sn).
Proof.
  intros H Hy p x Hx. destruct (H p x Hx) as (z & Hz & Ha). rewrite dget_dset. destruct (String.eqb p pid) eqn:E.
  - apply String.eqb_eq in E as ->. exists y. split; [done|]. eapply advanced_trans; [exact Ha|]. by apply Hy.
  - by exists z.
Qed.

(** What is counted of a position: the quantity filled and the legs closed. *)
Definition booked (pid : string) (m : PositionManager) : option decimal * list ClosedLeg :=
  (ps_filled_quantity <$> dget pid (pm_snapshots m), legs_of pid m).

Lemma booked_update pid x y m m' : dget pid (pm_snapshots m) = Some x -> updates pid y (legs_of pid m) m m' ->
  ps_filled_quantity y = ps_filled_quantity x -> forall p, booked p m' = booked p m.
Proof.
  intros Hx [Us Ul _] Hf p. unfold booked. rewrite Us Ul dget_dset. destruct (String.eqb p pid) eqn:E; [|done].
  apply String.eqb_eq in E as ->. rewrite Hx. cbn. by rewrite Hf.
Qed.

(** ** The manager's books and its log *)

Section spec.
Context (pm : string) (sn0 : list (string * PositionSnapshot)).

Record books (es : list Event) (m : PositionManager) : Prop := {
  bk_keys e k n t : e ∈ es -> key_of e = Some (pm_key pm k) -> pm_next_seq m <= n -> k <> position_id pm n +:+ t;
  bk_ids pid x : dget pid (pm_snapshots m) = Some x -> exists n, 1 <= n < pm_next_seq m /\ pid = position_id pm n;
  bk_seq : 1 <= pm_next_seq m;
  bk_opened e pid f x : e ∈ es -> key_of e = Some (pm_key pm (pid +:+ ":open:" +:+ f)) ->
    dget pid (pm_snapshots m) = Some x -> ps_lifecycle_state x <> _S.NEW;
  bk_positions pid x : dget pid (pm_snapshots m) = Some x -> position_ok pid x (legs_of pid m);
  bk_legs pid : dget pid (pm_snapshots m) = None -> legs_of pid m = [];
  bk_advanced : positions_advanced sn0 (pm_snapshots m)
}.

Lemma books_empty : sn0 = [] -> books [] pm_empty.
Proof.
  intros Hsn. split; try done; cbn.
  - by intros e k n t ?%elem_of_nil.
  - rewrite Hsn. apply positions_advanced_refl.
Qed.

(** Other components' events say nothing about positions. *)
Lemma books_other es m e : books es m -> (forall k, key_of e <> Some (pm_key pm k)) -> books (es ++ [e]) m.
Proof.
  intros [Hk Hi Hq Ho Hp Hleg Ha] He. split; try done.
  - intros x k n t [Hx|Hx%list_elem_of_singleton]%elem_of_app Hkx; [by eapply Hk|]. subst. by destruct (He k).
  - intros x pid f y [Hx|Hx%list_elem_of_singleton]%elem_of_app Hkx; [by eapply Ho|]. subst. by eapply He in Hkx.
Qed.

(** The event of a tracked position's update. *)
Lemma books_update es m m' e pid x y legs tail : books es m -> dget pid (pm_snapshots m) = Some x ->
  key_of e = Some (pm_key pm (pid +:+ tail)) -> updates pid y legs m m' ->
  position_ok pid y legs -> advanced x y -> ps_lifecycle_state y <> _S.NEW \/ (forall f, tail <> ":open:" +:+ f) /\ ps_lifecycle_state y = ps_lifecycle_state x ->
  books (es ++ [e]) m'.
Proof.
  intros [Hk Hi Hq Ho Hp Hleg Ha] Hx He [Us Ul Uq] Hok Hadv Hnew. destruct (Hi pid x Hx) as (n & Hn & Epid).
  assert (Hkey : forall k, key_of e = Some (pm_key pm k) -> k = pid +:+ tail).
  { intros k E. rewrite E in He. apply (j_key_inj (Journaled := position_journal pm)). cbn. congruence. }
  split.
  - intros z k i t Hz Hkz. rewrite Uq. intros Hi'. apply elem_of_app in Hz as [Hz|Hz%list_elem_of_singleton]; [by eapply Hk|].
    subst z. rewrite (Hkey k Hkz) Epid. intros E. apply position_id_tail in E as [-> _]; lia.
  - intros p z. rewrite Us Uq dget_dset. destruct (String.eqb p pid) eqn:E; [|apply Hi].
    apply String.eqb_eq in E as ->. intros _. by exists n.
  - by rewrite Uq.
  - intros z p f w Hz Hkz. rewrite Us dget_dset. destruct (String.eqb p pid) eqn:E.
    + apply String.eqb_eq in E as ->. intros [= <-]. destruct Hnew as [Hnew|[Ht Hsame]]; [done|].
      apply elem_of_app in Hz as [Hz|Hz%list_elem_of_singleton]; [rewrite Hsame; by eapply Ho|].
      subst z. apply Hkey in Hkz. apply app_inj_l_s in Hkz. by destruct (Ht f).
    + intros Hw. apply elem_of_app in Hz as [Hz|Hz%list_elem_of_singleton]; [by eapply Ho|].
      subst z. apply Hkey in Hkz. destruct (Hi p w Hw) as (i & Hi' & Ep). rewrite Ep Epid in Hkz.
      apply position_id_tail in Hkz as [-> _]; [|lia..]. by rewrite Ep Epid String.eqb_refl in E.
  - intros p z. rewrite Us Ul dget_dset. destruct (String.eqb p pid) eqn:E; [|apply Hp].
    apply String.eqb_eq in E as ->. by intros [= <-].
  - intros p. rewrite Us Ul dget_dset. destruct (String.eqb p pid) eqn:E; [done|apply Hleg].
  - rewrite Us. apply positions_advanced_dset; [done|]. intros z Hz. congruence.
Qed.

(** A new position under an id never used. *)
Lemma books_create es m m' e n y : books es m -> 1 <= n -> pm_next_seq m <= n ->
  key_of e = Some (pm_key pm (position_id pm n)) ->
  pm_snapshots m' = dset (position_id pm n) y (pm_snapshots m) ->
  (forall p, legs_of p m' = legs_of p m) ->
  pm_next_seq m' = Z.max (pm_next_seq m) (n + 1) -> position_ok (position_id pm n) y [] ->
  books (es ++ [e]) m'.
Proof.
  intros [Hk Hi Hq Ho Hp Hleg Ha] Hn1 Hn He Us Ul Uq Hok.
  assert (Hkey : forall k, key_of e = Some (pm_key pm k) -> k = position_id pm n).
  { intros k E. rewrite E in He. apply (j_key_inj (Journaled := position_journal pm)). cbn. congruence. }
  assert (Hnone : dget (position_id pm n) (pm_snapshots m) = None).
  { destruct (dget _ _) as [z|] eqn:E; [|done]. destruct (Hi _ z E) as (i & Hi' & Ei).
    rewrite -(app_nil_r_s (position_id pm n)) -(app_nil_r_s (position_id pm i)) in Ei.
    apply position_id_tail in Ei as [-> _]; lia. }
  split.
  - intros z k i t Hz Hkz. rewrite Uq. intros Hi'.
    apply elem_of_app in Hz as [Hz|Hz%list_elem_of_singleton]; [eapply Hk; [done|done|lia]|].
    subst z. rewrite (Hkey k Hkz) -(app_nil_r_s (position_id pm n)). intros E. apply position_id_tail in E as [E _]; lia.
  - intros p z. rewrite Us Uq dget_dset. destruct (String.eqb p _) eqn:E.
    + apply String.eqb_eq in E as ->. intros _. exists n. split; [lia|done].
    + intros Hz. destruct (Hi p z Hz) as (i & Hi' & ->). exists i. split; [lia|done].
  - rewrite Uq. lia.
  - intros z p f w Hz Hkz. rewrite Us dget_dset.
    apply elem_of_app in Hz as [Hz|Hz%list_elem_of_singleton].
    + destruct (String.eqb p _) eqn:E; [|by eapply Ho]. apply String.eqb_eq in E as ->. by destruct (Hk z _ n (":open:" +:+ f) Hz Hkz Hn).
    + subst z. apply Hkey in Hkz. destruct (String.eqb p _) eqn:E.
      * apply String.eqb_eq in E as ->. rewrite -{2}(app_nil_r_s (position_id pm n)) in Hkz. by apply app_inj_l_s in Hkz.
      * intros Hw. destruct (Hi p w Hw) as (i & Hi' & Ep). rewrite Ep -{1}(app_nil_r_s (position_id pm n)) in Hkz.
        apply position_id_tail in Hkz as [_ Hkz]; [done|lia..].
  - intros p z. rewrite Us Ul dget_dset. destruct (String.eqb p _) eqn:E; [|apply Hp].
    apply String.eqb_eq in E as ->. intros [= <-]. by rewrite Hleg.
  - intros p. rewrite Us Ul dget_dset. destruct (String.eqb p _) eqn:E; [done|apply Hleg].
  - rewrite Us. apply positions_advanced_dset; [done|]. intros z Hz. congruence.
Qed.
End spec.

(** ** The operations keep the books *)

Lemma try_transition_Some t a b : _try_transition t a = Ok (Some b) -> TRANSITION_TABLE a t = Some b.
Proof.
  unfold _try_transition, is_legal, next_state. destruct (TRANSITION_TABLE a t) as [b'|]; [by intros [= ->]|].
  destruct (TERMINAL_STATES a); [done|]. destruct (trigger_min_target_rank t); cbn; [|done]. by destruct (_ <=? _).
Qed.

Section operations.
Context {L : Type} `{EventLog L}.
Context (pm : string) (sn0 : list (string * PositionSnapshot)) (es0 : list Event).
Notation W := (L * PositionManager)%type.
Notation J := (position_journal pm).
Notation I := (jinv J pm_empty (books pm sn0) es0).
Implicit Types (w : W).

Lemma own_payload e action pid seq t a b details :
  ev_payload e = JObj (pm_payload pm action pid seq t a b details) -> _is_own_event pm e = true.
Proof.
  intros Hp. unfold _is_own_event. rewrite Hp.
  change (jstr "source" _) with (Some _EVENT_SOURCE_TAG). change (jstr "pm_id" _) with (Some pm).
  by rewrite !bool_decide_eq_true_2.
Qed.

Lemma payload_wf action pid seq t a b details : json_wf (JObj details) = true ->
  json_wf (JObj (pm_payload pm action pid seq t a b details)) = true.
Proof.
  intros Hwf. apply json_wf_obj. split; [apply (bool_decide_eq_true_1 _); vm_compute; reflexivity|].
  unfold pm_payload. repeat (apply Forall_cons; split;
    [first [done | by destruct seq | by destruct t | by destruct a | by destruct b | exact Hwf]|]). by apply Forall_nil.
Qed.

(** The books of a tracked position. *)
Lemma inv_position w pid x : I w -> dget pid (pm_snapshots w.2) = Some x -> position_ok pid x (legs_of pid w.2).
Proof.
  intros [_ (m & _ & Hs & Hb) _] Hx. unfold legs_of. rewrite (rb_legs _ _ Hs). apply (bk_positions _ _ _ _ Hb).
  by rewrite -(rb_snapshots _ _ Hs).
Qed.

(** No position is NEW once its opening is logged. *)
Lemma inv_opened w e pid f x : I w -> e ∈ log_events w.1 -> key_of e = Some (pm_key pm (pid +:+ ":open:" +:+ f)) ->
  dget pid (pm_snapshots w.2) = Some x -> ps_lifecycle_state x <> _S.NEW.
Proof.
  intros [_ (m & _ & Hs & Hb) _] He Hk Hx. rewrite (rb_snapshots _ _ Hs) in Hx. by eapply (bk_opened _ _ _ _ Hb).
Qed.

Lemma record_update w action pid t a b details tail x y legs' :
  I w -> dget pid (pm_snapshots w.2) = Some x -> json_wf (JObj details) = true ->
  applicable (pm_payload pm action pid None t a b details) pid x (legs_of pid w.2) y legs' ->
  (forall ts, position_ok pid (y ts) (legs' ts)) -> (forall ts, advanced x (y ts)) ->
  (forall ts, ps_lifecycle_state (y ts) <> _S.NEW \/
              (forall f, tail <> ":open:" +:+ f) /\ ps_lifecycle_state (y ts) = ps_lifecycle_state x) ->
  let m := record pm action pid None t a b details (pid +:+ tail) w in
  recorded J (pm_payload pm action pid None t a b details) (pid +:+ tail) w m.1 m.2 /\ I m.1.
Proof.
  intros Hi Hx Hwf Hap Hok Hadv Hnew.
  apply (journal_record_spec J pm_empty (books pm sn0) (books pm sn0) es0); [done|done|by apply payload_wf|intros e He; by eapply own_payload|].
  intros e m Hp Hk Hid Hsim Hb _. assert (Hxm : dget pid (pm_snapshots m) = Some x) by (by rewrite -(rb_snapshots _ _ Hsim)).
  assert (Hlm : legs_of pid m = legs_of pid w.2) by (unfold legs_of; by rewrite (rb_legs _ _ Hsim)).
  destruct (Hap e m Hp Hid Hxm Hlm) as [Hr Hu]. eexists. split; [exact Hr|].
  eapply (books_update pm sn0 _ m _ e pid x); [done|done|exact Hk|exact Hu|done|done|done].
Qed.

Lemma add_fill_keeps pid f : preserves I (on_pm (modify (add_fill pid f))).
Proof.
  intros [l s] Hi. apply (jinv_same J _ _ _ (l, s)); [done|apply (ji_log _ _ _ _ _ Hi)|done|].
  intros m [? ? ? ? Hf]. split; try done. intros p x Hx. apply Hf in Hx. cbn [snd] in *. rewrite fills_of_add.
  destruct (String.eqb p pid) eqn:E; [|done]. apply String.eqb_eq in E as ->. set_solver.
Qed.

Lemma pm_preserves_tracked {X} pid (f : PositionSnapshot -> M W X) :
  (forall x w, I w -> dget pid (pm_snapshots w.2) = Some x -> I (f x w).1) ->
  preserves I (x ← tracked pid; f x).
Proof.
  intros Hf w Hi. unfold mbind, M_bind, tracked. destruct (dget pid (pm_snapshots w.2)) as [x|] eqn:E; [|done].
  by apply Hf.
Qed.

Lemma create_keeps symbol side iq sp sd t1 t2 conv : blank (sym_value symbol) = false ->
  preserves I (create_position pm symbol side iq sp sd t1 t2 conv).
Proof.
  intros Hb. unfold create_position. destruct (dleb iq d0); [apply preserves_raise|].
  destruct (dleb sd d0); [apply preserves_raise|].
  intros w Hi. rewrite run_bind. set (n := pm_next_seq w.2).
  assert (Hn : (_next_id pm "position" w).2 = Ok (n, position_id pm n)) by done.
  assert (Hi1 : jinv J pm_empty (fun es m => books pm sn0 es m /\ pm_next_seq m <= n) es0 (_next_id pm "position" w).1).
  { destruct Hi as [Hl (m & Hr & Hs & Hbk) Hg]. split; [done| |done]. exists m. pose proof (rb_seq _ _ Hs). split; [done|].
    split; [|done]. destruct Hs as [? ? ? ? ?]. split; try done. cbn. lia. }
  destruct (_next_id pm "position" w) as [w1 r]. cbn [fst snd] in *. subst r.
  apply bind_fst; [|intros s; unfold the_snapshot; auto with turtle].
  eapply proj2, (journal_record_spec J pm_empty (fun es m => books pm sn0 es m /\ pm_next_seq m <= n) (books pm sn0) es0 _ _ _ w1);
    [by intros ? ? [? ?]|exact Hi1|apply payload_wf; by destruct conv|intros e He; by eapply own_payload|].
  intros e m Hp Hk Hid Hsim [Hbk Hmn] _.
  destruct (apply_create pm (position_id pm n) n symbol side iq sp sd t1 t2 conv e m Hb Hp Hid) as (Hr & Hs & Hl & Hq).
  eexists. split; [exact Hr|]. pose proof (bk_seq _ _ _ _ Hbk).
  eapply (books_create pm sn0 _ m _ e n); [done|lia|done|exact Hk|exact Hs|done|done|by split].
Qed.

(** Opening: the first fill moves a new position to OPEN without counting yet. *)
Lemma open_keeps w pid x f : I w -> dget pid (pm_snapshots w.2) = Some x ->
  ps_lifecycle_state x ∈ [_S.NEW; _S.OPEN; _S.PARTIALLY_FILLED] ->
  let m := open_position pm pid f (ps_lifecycle_state x) w in
  I m.1 /\ (forall p, booked p m.1.2 = booked p w.2) /\ log_events w.1 `prefix_of` log_events m.1.1 /\
  match m.2 with
  | Ok c => exists y, dget pid (pm_snapshots m.1.2) = Some y /\ ps_lifecycle_state y = c /\
      (c = _S.OPEN \/ c = _S.PARTIALLY_FILLED) /\ ps_filled_quantity y = ps_filled_quantity x /\
      ps_intended_quantity y = ps_intended_quantity x
  | Err _ => True
  end.
Proof.
  intros Hi Hx Hst. cbv zeta. unfold open_position. case_bool_decide as Hn.
  2:{ split_and!; try done. exists x. split_and!; try done. set_solver. }
  rewrite Hn run_lift. change (next_state _S.NEW _T.FIRST_FILL) with (Ok _S.OPEN). cbv beta iota.
  pose proof (inv_position w pid x Hi Hx) as [Hid Hpnl Hr Hrem Hex Hen]. rewrite Hn in Hex, Hen. destruct Hen as [Hf Havg].
  assert (Hlegs : legs_of pid w.2 = []) by (by apply map_eq_nil in Hex).
  set (y := entry_position x _S.OPEN (fl_price f) (dadd (ps_filled_quantity x) d0) (dadd (ps_fees_paid x) d0)).
  destruct (record_update w "ENTRY_FILL" pid (Some _T.FIRST_FILL) (Some _S.NEW) (Some _S.OPEN)
    [("fill_id", JStr (fl_fill_id f +:+ ":open")); ("fill_price", JStr (dec_str (fl_price f)));
     ("fill_quantity", JStr "0"); ("fee", JStr "0")] (":open:" +:+ fl_fill_id f) x y (fun _ => legs_of pid w.2) Hi Hx eq_refl)
    as [Hrec Hi'].
  - apply (apply_entry_fill pm pid x (legs_of pid w.2) _T.FIRST_FILL _S.NEW _S.OPEN _ (fl_price f) d0 d0); [done|done|].
    by rewrite Havg.
  - intros ts. rewrite Hlegs in Hpnl, Hr |- *. split; cbn; try done; by rewrite Hf.
  - intros ts. split; [cbn; by rewrite Hn|done].
  - intros ts. by left.
  - rewrite run_bind. set (m := record pm "ENTRY_FILL" pid _ _ _ _ _ _ w) in *.
    destruct m as [w' r] eqn:Em. cbn [fst snd] in *.
    assert (Hres : (forall p, booked p w'.2 = booked p w.2) /\ log_events w.1 `prefix_of` log_events w'.1 /\
      (is_ok r = true -> exists z, dget pid (pm_snapshots w'.2) = Some z /\ ps_lifecycle_state z = _S.OPEN /\
        ps_filled_quantity z = ps_filled_quantity x /\ ps_intended_quantity z = ps_intended_quantity x)).
    { clear Hid. inversion Hrec as [l e Hl|l e r' Hl He Hk Hr'|l e Hl Hp Hk Hnew Hno]; subst; cbn [fst snd].
      - by rewrite Hl.
      - by destruct (inv_opened w e pid (fl_fill_id f) x Hi He Hk Hx).
      - destruct (apply_entry_fill pm pid x (legs_of pid w.2) _T.FIRST_FILL _S.NEW _S.OPEN (fl_fill_id f +:+ ":open") (fl_price f) d0 d0
          (fl_price f) Hn eq_refl ltac:(by rewrite Havg) e w.2 Hp Hnew Hx eq_refl) as [_ Hu].
        change (j_apply (Journaled := J) e) with (_apply_event e). split; [|split].
        + eapply booked_update; [exact Hx|exact Hu|]. cbn. by rewrite Hf.
        + rewrite Hl. by apply prefix_app_r.
        + intros _. rewrite (up_snapshots _ _ _ _ _ Hu) dget_dset_eq. eexists. split; [reflexivity|].
          split_and!; try done. cbn. by rewrite Hf. }
    destruct Hres as (Hb & Hpre & Hz). destruct r as [s|e]; [|by split_and!].
    destruct (Hz eq_refl) as (z & ? & ? & ? & ?). split_and!; try done. exists z. split_and!; try done. by left.
Qed.

(** Counting a fill of an open position. *)
Lemma classify_keeps w pid x f t b : I w -> dget pid (pm_snapshots w.2) = Some x -> (0 < value (fl_quantity f))%Q ->
  ps_lifecycle_state x = _S.OPEN \/ ps_lifecycle_state x = _S.PARTIALLY_FILLED ->
  t = (if dleb (ps_intended_quantity x) (dadd (ps_filled_quantity x) (fl_quantity f)) then _T.ENTRY_COMPLETE else _T.ENTRY_PARTIAL) ->
  TRANSITION_TABLE (ps_lifecycle_state x) t = Some b ->
  let details := [("fill_id", JStr (fl_fill_id f)); ("fill_price", JStr (dec_str (fl_price f)));
       ("fill_quantity", JStr (dec_str (fl_quantity f))); ("fee", JStr (dec_str (fl_fee f)))] in
  let m := record pm "ENTRY_FILL" pid None (Some t) (Some (ps_lifecycle_state x)) (Some b) details
      (pid +:+ ":entry:" +:+ fl_fill_id f) w in
  recorded J (pm_payload pm "ENTRY_FILL" pid None (Some t) (Some (ps_lifecycle_state x)) (Some b) details)
    (pid +:+ ":entry:" +:+ fl_fill_id f) w m.1 m.2 /\ I m.1.
Proof.
  intros Hi Hx Hq Hst Ht Hb. pose proof (inv_position w pid x Hi Hx) as [Hid Hpnl Hr Hrem Hex Hen].
  assert (Hlegs : legs_of pid w.2 = []) by (destruct Hst as [E|E]; rewrite E in Hex; by apply map_eq_nil in Hex).
  assert (H0 : (0 <= value (ps_filled_quantity x))%Q /\ ps_avg_entry_price x <> None /\
    (ps_filled_quantity x = d0 \/ (0 < value (ps_filled_quantity x))%Q)).
  { destruct Hst as [E|E]; rewrite E in Hen; cbn in Hen.
    - destruct Hen as [-> ?]. split_and!; [by rewrite value_d0|done|by left].
    - destruct Hen as (? & _ & ?). split_and!; [by apply Qlt_le_weak|done|by right]. }
  destruct H0 as (H0 & Havg & H0').
  assert (Hsum : (0 < value (dadd (ps_filled_quantity x) (fl_quantity f)))%Q) by (apply dadd_pos; lra).
  assert (Hw : exists avg, weighted_average_price (ps_avg_entry_price x) (ps_filled_quantity x) (fl_price f) (fl_quantity f) = Ok avg).
  { unfold weighted_average_price. destruct (ps_avg_entry_price x) as [a|]; [|done]. destruct (deqb _ _); [by eexists|].
    by apply ddiv_Ok. }
  destruct Hw as [avg Hw].
  eapply (record_update w "ENTRY_FILL" pid (Some t) _ (Some b) _ (":entry:" +:+ fl_fill_id f) x); [done|done|done| | | |].
  - by eapply (apply_entry_fill pm pid x (legs_of pid w.2) t _ b).
  - intros ts. rewrite Hlegs in Hpnl, Hr |- *.
    assert (Hb' : b = _S.FULLY_FILLED /\ (value (ps_intended_quantity x) <= value (dadd (ps_filled_quantity x) (fl_quantity f)))%Q \/
                  b = _S.PARTIALLY_FILLED /\ (value (dadd (ps_filled_quantity x) (fl_quantity f)) < value (ps_intended_quantity x))%Q).
    { subst t. destruct (dleb _ _) eqn:E; [apply dleb_spec in E|apply dleb_nspec in E];
        destruct Hst as [Es|Es]; rewrite Es in Hb; injection Hb as <-; auto. }
    destruct Hb' as [[-> Hc]|[-> Hc]]; split; cbn; try done.
  - intros ts. split; [|done]. cbn. destruct (edge_rank _ _ _ Hb) as [?|[-> _]]; lia.
  - intros ts. left. cbn. intros ->. by destruct t, (ps_lifecycle_state x).
Qed.

Lemma entry_keeps pid f : (0 < value (fl_quantity f))%Q -> preserves I (record_entry_fill pm pid f).
Proof.
  intros Hq. apply pm_preserves_tracked. intros x w Hi Hx. rewrite run_get. case_bool_decide; [done|].
  case_bool_decide as Hst; [|done]. cbn [negb].
  destruct (open_keeps w pid x f Hi Hx Hst) as (Hi1 & _ & _ & Hopen). rewrite run_bind.
  destruct (open_position pm pid f (ps_lifecycle_state x) w) as [w1 [c|e]]; [|done]. cbn [fst snd] in *.
  destruct Hopen as (y & Hy & Hc & Hoc & Hf & Hint). rewrite run_lift.
  set (t := if dleb _ _ then _ else _).
  destruct (_try_transition t c) as [[b|]|e] eqn:Ht; [|done|done]. apply try_transition_Some in Ht.
  apply bind_fst; [|intros s; unfold the_snapshot; auto with turtle]. subst c.
  eapply proj2, (classify_keeps w1 pid y); try done. unfold t. by rewrite Hf Hint.
Qed.

(** The path of exits goes on. *)
Lemma exit_path_step a t b reasons reason r : TRANSITION_TABLE a t = Some b -> is_exit_trigger t = true ->
  leg_reason t a reason = Ok r -> exit_path a reasons -> exit_path b (reasons ++ [r]).
Proof.
  destruct a, t; try discriminate; intros [= <-] _; cbn; try (intros [= <-] ->; auto; fail).
  all: intros _ ->; eexists; cbn; auto.
Qed.

Lemma exit_entry_path a t b filled intended avg : TRANSITION_TABLE a t = Some b -> is_exit_trigger t = true ->
  entry_path a filled intended avg -> entry_path b filled intended avg.
Proof. destruct a, t; try discriminate; intros [= <-] _; cbn; tauto. Qed.

Lemma exit_record_keeps w pid x f t reason b avg r pct why : I w -> dget pid (pm_snapshots w.2) = Some x ->
  is_exit_trigger t = true -> TRANSITION_TABLE (ps_lifecycle_state x) t = Some b ->
  leg_reason t (ps_lifecycle_state x) reason = Ok why ->
  let details := [("fill_id", JStr (fl_fill_id f)); ("fill_price", JStr (dec_str (fl_price f)));
     ("fill_quantity", JStr (dec_str (fl_quantity f))); ("fee", JStr (dec_str (fl_fee f)));
     ("r", JStr (dec_str r)); ("pct", JStr (dec_str pct)); ("reason", JStr why);
     ("realized_pnl", JStr (dec_str (leg_realized_pnl avg (fl_price f) (fl_quantity f) (fl_fee f))))] in
  let m := record pm "EXIT" pid None (Some t) (Some (ps_lifecycle_state x)) (Some b) details
      (pid +:+ ":exit:" +:+ fl_fill_id f) w in
  recorded J (pm_payload pm "EXIT" pid None (Some t) (Some (ps_lifecycle_state x)) (Some b) details)
    (pid +:+ ":exit:" +:+ fl_fill_id f) w m.1 m.2 /\ I m.1.
Proof.
  intros Hi Hx Het Ht Hwhy. pose proof (inv_position w pid x Hi Hx) as [Hid Hpnl Hr Hrem Hex Hen].
  eapply (record_update w "EXIT" pid (Some t) _ (Some b) _ (":exit:" +:+ fl_fill_id f) x); [done|done|done| | | |].
  - by eapply (apply_exit_fill pm pid x (legs_of pid w.2) t _ b).
  - intros ts. split; cbn; rewrite ?map_app ?foldl_app; cbn; try congruence.
    + by eapply exit_path_step.
    + by eapply exit_entry_path.
  - intros ts. split; [|done]. cbn. destruct (edge_rank _ _ _ Ht) as [?|[-> ->]]; [lia|done].
  - intros ts. left. cbn. intros ->. by destruct t, (ps_lifecycle_state x).
Qed.

Lemma exit_keeps pid f t reason : preserves I (record_exit pm pid f t reason).
Proof.
  unfold record_exit. destruct (is_exit_trigger t) eqn:Het; [|apply preserves_raise]. cbn [negb].
  apply pm_preserves_tracked. intros x w Hi Hx. rewrite run_get. case_bool_decide; [done|].
  destruct (TERMINAL_STATES _). { apply bind_fst; [by apply add_fill_keeps|auto with turtle]. }
  rewrite run_lift. destruct (_try_transition t _) as [[b|]|e] eqn:Ht; [| |done].
  2:{ apply bind_fst; [by apply add_fill_keeps|auto with turtle]. }
  apply try_transition_Some in Ht. destruct (ps_avg_entry_price x) as [avg|] eqn:Havg; [|done].
  rewrite run_lift. destruct (fraction_of_original _ _) as [fraction|]; [|done].
  rewrite run_lift. destruct (leg_r_multiple _ _ _ _ _ _) as [r|]; [|done].
  rewrite run_lift. destruct (leg_pct _ _ _) as [pct|]; [|done].
  rewrite run_lift. destruct (leg_reason t _ reason) as [why|] eqn:Hwhy; [|done].
  apply bind_fst; [|intros s; unfold the_snapshot; auto with turtle].
  by eapply proj2, exit_record_keeps.
Qed.

Lemma pure_keeps pid t action tag :
  action = "BREAKEVEN" \/ action = "COMPLETE_CLOSE" \/ action = "ARCHIVE" ->
  t = _T.BREAKEVEN \/ t = _T.COMPLETE_CLOSE \/ t = _T.ARCHIVE -> preserves I (_pure_transition pm pid t action tag).
Proof.
  intros Hact Htr. apply pm_preserves_tracked. intros x w Hi Hx. cbv zeta. rewrite run_lift.
  destruct (_try_transition t _) as [[b|]|e] eqn:Ht; [|done|done]. apply try_transition_Some in Ht.
  apply bind_fst; [|intros s; unfold the_snapshot; auto with turtle].
  pose proof (inv_position w pid x Hi Hx) as [Hid Hpnl Hr Hrem Hex Hen].
  eapply proj2, (record_update w action pid (Some t) _ (Some b) [] (":" +:+ tag) x); [done|done|done| | | |].
  - by eapply (apply_moved pm pid x (legs_of pid w.2) action t).
  - intros ts. split; cbn; try done.
    + destruct Htr as [->|[->| ->]], (ps_lifecycle_state x); try discriminate Ht; injection Ht as <-; cbn in Hex |- *; try done.
      * exists "t2". by right.
      * destruct Hex as [-> | ->]; [exists "stop_before_t1"; by left|exists "stop_after_t1"; by right].
    + destruct Htr as [->|[->| ->]], (ps_lifecycle_state x); try discriminate Ht; injection Ht as <-; cbn in Hen |- *; tauto.
  - intros ts. split; [|done]. cbn. destruct (edge_rank _ _ _ Ht) as [?|[-> ->]]; [lia|done].
  - intros ts. left. cbn. intros ->. by destruct t, (ps_lifecycle_state x).
Qed.

Lemma funding_keeps pid amount ts fid : preserves I (record_funding_payment pm pid amount ts fid).
Proof.
  apply pm_preserves_tracked. intros x w Hi Hx. apply bind_fst; [|intros s; unfold the_snapshot; auto with turtle].
  pose proof (inv_position w pid x Hi Hx) as [Hid Hpnl Hr Hrem Hex Hen].
  eapply proj2, (record_update w "FUNDING" pid None None None _ (":funding:" +:+ fid) x);
    [done|done|done|by apply apply_funding|by intros ts'; split|intros ts'; by split|intros ts'; right; by split].
Qed.
(** ** Counting a fill once *)

Definition logged (tag pid : string) (f : Fill) w : Prop :=
  exists e, e ∈ log_events w.1 /\ key_of e = Some (pm_key pm (pid +:+ tag +:+ fl_fill_id f)).

(** A record either counts nothing or was not logged before. *)
Lemma recorded_counts p0 pid tag f w m : (forall w', w' = m.1 -> recorded J p0 (pid +:+ tag +:+ fl_fill_id f) w m.1 m.2) ->
  (forall p, booked p m.1.2 = booked p w.2) \/ (~ logged tag pid f w) /\ logged tag pid f m.1.
Proof.
  intros Hr. specialize (Hr _ eq_refl). inversion Hr as [l e Hl|l e r' Hl He Hk Hr'|l e Hl Hp Hk Hnew Hno]; [by left|by left|].
  right. split.
  - intros (e' & He' & Hk'). by eapply Hno.
  - exists e. cbn [fst]. rewrite Hl. split; [|done]. apply elem_of_app. right. by left.
Qed.

Lemma bind_snapshot (m : M W (option PositionSnapshot)) w : ((s ← m; the_snapshot s) w).1 = (m w).1.
Proof. rewrite run_bind. by destruct (m w) as [w' [s|e]]. Qed.

Lemma entry_counts pid f w : I w -> (0 < value (fl_quantity f))%Q ->
  let w' := (record_entry_fill pm pid f w).1 in
  (forall p, booked p w'.2 = booked p w.2) \/ (~ logged ":entry:" pid f w) /\ logged ":entry:" pid f w'.
Proof.
  intros Hi Hq. cbv zeta. unfold record_entry_fill. rewrite run_bind. unfold tracked.
  destruct (dget pid (pm_snapshots w.2)) as [x|] eqn:Hx; [|by left]. cbn [of_option]. cbv beta iota. rewrite run_get.
  case_bool_decide; [by left|]. case_bool_decide as Hst; [|by left]. cbn [negb]. rewrite run_bind.
  destruct (open_keeps w pid x f Hi Hx Hst) as (Hi1 & Hb1 & Hpre & Hopen).
  destruct (open_position pm pid f (ps_lifecycle_state x) w) as [w1 [c|e]]; [|by left]. cbn [fst snd] in *.
  destruct Hopen as (y & Hy & Hc & Hoc & Hf & Hint). rewrite run_lift. set (t := if dleb _ _ then _ else _).
  destruct (_try_transition t c) as [[b|]|e] eqn:Ht; [|by left|by left]. apply try_transition_Some in Ht.
  rewrite bind_snapshot. subst c.
  destruct (classify_keeps w1 pid y f t b Hi1 Hy Hq Hoc ltac:(unfold t; by rewrite Hf Hint) Ht) as [Hr _].
  destruct (recorded_counts _ pid ":entry:" f w1 _ (fun _ _ => Hr)) as [Hsame|[Hno Hyes]].
  - left. intros p. by rewrite Hsame.
  - right. split; [|done]. intros (e & He & Hk). apply Hno. exists e. split; [by eapply elem_of_prefix|done].
Qed.

Lemma exit_counts pid f t reason w : I w ->
  let w' := (record_exit pm pid f t reason w).1 in
  (forall p, booked p w'.2 = booked p w.2) \/ (~ logged ":exit:" pid f w) /\ logged ":exit:" pid f w'.
Proof.
  intros Hi. cbv zeta. unfold record_exit. destruct (is_exit_trigger t) eqn:Het; [|by left]. cbn [negb].
  rewrite run_bind. unfold tracked. destruct (dget pid (pm_snapshots w.2)) as [x|] eqn:Hx; [|by left].
  cbn [of_option]. cbv beta iota. rewrite run_get. case_bool_decide; [by left|]. destruct (TERMINAL_STATES _); [by left|].
  rewrite run_lift. destruct (_try_transition t _) as [[b|]|e] eqn:Ht; [|by left|by left].
  apply try_transition_Some in Ht. destruct (ps_avg_entry_price x) as [avg|] eqn:Havg; [|by left].
  rewrite run_lift. destruct (fraction_of_original _ _) as [fraction|]; [|by left].
  rewrite run_lift. destruct (leg_r_multiple _ _ _ _ _ _) as [r|]; [|by left].
  rewrite run_lift. destruct (leg_pct _ _ _) as [pct|]; [|by left].
  rewrite run_lift. destruct (leg_reason t _ reason) as [why|] eqn:Hwhy; [|by left]. rewrite bind_snapshot.
  destruct (exit_record_keeps w pid x f t reason b avg r pct why Hi Hx Het Ht Hwhy) as [Hr _].
  by apply (recorded_counts _ pid ":exit:" f w _ (fun _ _ => Hr)).
Qed.
End operations.

(** ** Runs *)

Inductive pm_op :=
  | OpCreate (symbol : Symbol) (side : OrderSide) (iq sp sd t1 t2 : decimal) (conv : option decimal)
  | OpEntry (pid : string) (fill : Fill)
  | OpExit (pid : string) (fill : Fill) (trigger : PositionLifecycleTrigger) (reason : option string)
  | OpBreakeven (pid : string)
  | OpCompleteClose (pid : string)
  | OpArchive (pid : string)
  | OpFunding (pid : string) (amount : decimal) (ts fid : string).

(** A symbol is not blank; an entry fill fills something. *)
Definition op_ok (op : pm_op) : Prop :=
  match op with
  | OpCreate symbol _ _ _ _ _ _ _ => blank (sym_value symbol) = false
  | OpEntry _ f => (0 < value (fl_quantity f))%Q
  | _ => True
  end.

Section runs.
Context {L : Type} `{EventLog L} (pm : string).
Notation W := (L * PositionManager)%type.
Implicit Types (w : W).

Definition run_op (op : pm_op) : M W unit :=
  match op with
  | OpCreate symbol side iq sp sd t1 t2 conv => _ ← create_position pm symbol side iq sp sd t1 t2 conv; mret tt
  | OpEntry pid f => _ ← record_entry_fill pm pid f; mret tt
  | OpExit pid f t reason => _ ← record_exit pm pid f t reason; mret tt
  | OpBreakeven pid => _ ← confirm_breakeven pm pid; mret tt
  | OpCompleteClose pid => _ ← complete_close pm pid; mret tt
  | OpArchive pid => _ ← archive_position pm pid; mret tt
  | OpFunding pid amount ts fid => _ ← record_funding_payment pm pid amount ts fid; mret tt
  end.

(** An event that is not of the manager. *)
Definition foreign (e : Event) : Prop := _is_own_event pm e = false /\ forall k, key_of e <> Some (pm_key pm k).

Inductive pm_step : W -> W -> Prop :=
  | s_op op w : op_ok op -> pm_step w (run_op op w).1
  | s_other w l : log_ok l ->
      (log_events l = log_events w.1 \/ exists e, log_events l = log_events w.1 ++ [e] /\ foreign e) -> pm_step w (l, w.2)
  | s_restart w m : pm_init w.1 pm = Ok m -> pm_step w (w.1, m).

(** A manager built over a log that has no event of its name yet. *)
Record pm_start w : Prop := {
  st_log : log_ok w.1;
  st_foreign : Forall foreign (log_events w.1);
  st_init : pm_init w.1 pm = Ok w.2
}.

Notation I sn0 es0 := (jinv (position_journal pm) pm_empty (books pm sn0) es0).

Lemma run_op_keeps sn0 es0 op : op_ok op -> preserves (I sn0 es0) (run_op op).
Proof.
  destruct op; intros Hop; apply preserves_bind; auto with turtle.
  - by apply create_keeps.
  - by apply entry_keeps.
  - apply exit_keeps.
  - apply pure_keeps; tauto.
  - apply pure_keeps; tauto.
  - apply pure_keeps; tauto.
  - apply funding_keeps.
Qed.

(** What a restart builds is the rebuilt manager. *)
Lemma init_rebuilds w m m' : log_ok w.1 -> pm_init w.1 pm = Ok m ->
  rebuilds (position_journal pm) pm_empty (log_events w.1) m' -> m = m'.
Proof.
  intros Hl. unfold pm_init. destruct (blank pm); [done|]. destruct (_ <? _); [done|].
  rewrite log_replay_events //. intros Hi Hr. pose proof (rb_replay _ _ _ _ Hr) as Hrep.
  change (replay_all (position_journal pm) (log_events w.1) pm_empty)
    with (for_each (replay_event pm) (log_events w.1) pm_empty) in Hrep.
  cbn in Hi. rewrite Hrep in Hi. congruence.
Qed.

Lemma step_keeps sn0 es0 w w' : pm_step w w' -> I sn0 es0 w -> I sn0 es0 w'.
Proof.
  intros [op w0 Hop|w0 l Hl [He|(e & He & Ho & Hk)]|w0 m Hm] Hi.
  - by apply run_op_keeps.
  - by apply (jinv_same (position_journal pm) _ _ _ w0).
  - eapply (jinv_other _ _ _ _ w0); try done. intros es m Hb. by apply books_other.
  - destruct Hi as [Hl (m' & Hr & Hs & Hb) Hg]. split; [done| |done]. exists m'.
    rewrite (init_rebuilds w0 m m' Hl Hm Hr). split; [done|]. split; [done|done].
Qed.

Lemma steps_keep sn0 es0 w w' : rtc pm_step w w' -> I sn0 es0 w -> I sn0 es0 w'.
Proof. induction 1 as [|w1 w2 w3 Hs _ IH]; [done|]. intros Hi. apply IH. by eapply step_keeps. Qed.

Lemma rebuilds_foreign es : Forall foreign es ->
  rebuilds (position_journal pm) pm_empty es pm_empty /\ books pm [] es pm_empty.
Proof.
  induction es as [|e es IH] using rev_ind; intros Hf.
  - split; [|by apply books_empty]. split; cbn; done || set_solver.
  - apply Forall_app in Hf as [Hf [[He1 He2] _]%Forall_cons]. destruct (IH Hf) as [Hr Hb].
    split; [by apply rebuilds_other|by apply books_other].
Qed.

Lemma pm_start_inv w : pm_start w -> I [] (log_events w.1) w.
Proof.
  intros [Hl Hf Hi]. destruct (rebuilds_foreign _ Hf) as [Hr Hb]. split; [done| |done].
  exists pm_empty. split; [done|]. rewrite (init_rebuilds _ _ _ Hl Hi Hr). by split.
Qed.

(** Taking the present as the reference. *)
Lemma pm_inv_now sn0 es0 w : I sn0 es0 w -> I (pm_snapshots w.2) (log_events w.1) w.
Proof.
  intros [Hl (m & Hr & Hs & [? ? ? ? ? ? ?]) _]. split; [done| |done]. exists m. split; [done|]. split; [done|].
  split; try done. rewrite (rb_snapshots _ _ Hs). apply positions_advanced_refl.
Qed.

Lemma pm_reach_inv w0 w : pm_start w0 -> rtc pm_step w0 w -> I (pm_snapshots w.2) (log_events w.1) w.
Proof. intros Hs Hr. eapply pm_inv_now, steps_keep; [done|]. by apply pm_start_inv. Qed.

(** Construction from the log after any run succeeds, with the same books. *)
Lemma pm_init_after w0 w : pm_start w0 -> rtc pm_step w0 w -> exists m, pm_init w.1 pm = Ok m /\ rebuilt w.2 m.
Proof.
  intros Hs Hr. destruct (pm_reach_inv _ _ Hs Hr) as [Hl (m & Hg & Hb & _) _]. exists m. split; [|done].
  destruct Hs as [_ _ Hi]. revert Hi. unfold pm_init. destruct (blank pm); [done|]. destruct (_ <? _); [done|].
  intros _. rewrite log_replay_events //. cbn. pose proof (rb_replay _ _ _ _ Hg) as Hrep.
  change (replay_all (position_journal pm) (log_events w.1) pm_empty)
    with (for_each (replay_event pm) (log_events w.1) pm_empty) in Hrep. by rewrite Hrep.
Qed.

(** A restart rebuilds every position. After any run, failures included,
    constructing the manager from the log succeeds and yields the same
    snapshots and closed legs. *)
Theorem restart_rebuilds_positions w0 w : pm_start w0 -> rtc pm_step w0 w ->
  exists m, pm_init w.1 pm = Ok m /\ pm_snapshots m = pm_snapshots w.2 /\ pm_closed_legs m = pm_closed_legs w.2 /\
    pm_next_seq m <= pm_next_seq w.2.
Proof.
  intros Hs Hr. destruct (pm_init_after _ _ Hs Hr) as (m & Hi & Hb). exists m.
  rewrite (rb_snapshots _ _ Hb) (rb_legs _ _ Hb). split_and!; try done. apply (rb_seq _ _ Hb).
Qed.

(** C12: the books of a position balance. After any run each tracked position's
    realised profit and R are the sums of its closed legs', its remaining
    quantity is what was filled less what the legs closed, what is filled agrees
    with its state, and the legs' reasons form one of the allowed exit paths. *)
Theorem position_books_balance w0 w pid x : pm_start w0 -> rtc pm_step w0 w ->
  dget pid (pm_snapshots w.2) = Some x -> position_ok pid x (legs_of pid w.2).
Proof. intros Hs Hr Hx. by eapply inv_position; [apply (pm_reach_inv w0)|]. Qed.

(** A position's life goes one way. Whatever happens later, restarts
    included, a tracked position stays tracked with the same terms and its state
    never falls in rank. *)
Theorem lifecycle_monotone w0 w w' pid x : pm_start w0 -> rtc pm_step w0 w -> rtc pm_step w w' ->
  dget pid (pm_snapshots w.2) = Some x -> exists y, dget pid (pm_snapshots w'.2) = Some y /\ advanced x y.
Proof.
  intros Hs Hr Hr' Hx. destruct (steps_keep _ _ _ _ Hr' (pm_reach_inv _ _ Hs Hr)) as [_ (m & _ & Hb & Hbk) _].
  rewrite (rb_snapshots _ _ Hb). by apply (bk_advanced _ _ _ _ Hbk).
Qed.

(** A report of a fill, as an entry or as an exit with a trigger and a reason. *)
Definition report (exit : option (PositionLifecycleTrigger * option string)) (pid : string) (f : Fill)
    : M W PositionSnapshot :=
  match exit with
  | None => record_entry_fill pm pid f
  | Some (t, reason) => record_exit pm pid f t reason
  end.

(** A fill is booked once. Once reporting a fill to a position, as an entry
    or as an exit, has changed what is counted (a quantity filled or a closed
    leg), then after whatever follows, restarts included, reporting a fill with
    the same id the same way counts nothing more. *)
Theorem position_fill_once w0 w w' pid f f' k k' : pm_start w0 -> rtc pm_step w0 w ->
  (0 < value (fl_quantity f))%Q -> (0 < value (fl_quantity f'))%Q ->
  booked pid (report k pid f w).1.2 <> booked pid w.2 ->
  rtc pm_step (report k pid f w).1 w' -> fl_fill_id f' = fl_fill_id f ->
  (k' = None <-> k = None) ->
  forall p, booked p (report k' pid f' w').1.2 = booked p w'.2.
Proof.
  intros Hs Hr Hq Hq' Hch Hr' Hf Hk. pose proof (pm_reach_inv _ _ Hs Hr) as Hi.
  set (tag := match k with None => ":entry:" | Some _ => ":exit:" end).
  assert (Hc : forall k2 g w2 sn es, (k2 = None <-> k = None) -> (0 < value (fl_quantity g))%Q -> I sn es w2 ->
    (forall p, booked p (report k2 pid g w2).1.2 = booked p w2.2) \/
    (~ logged pm tag pid g w2) /\ logged pm tag pid g (report k2 pid g w2).1).
  { intros k2 g w2 sn es Hk2 Hg Hi2. unfold report, tag. destruct k2 as [[t2 r2]|], k as [[t r]|].
    - by eapply exit_counts.
    - discriminate (proj2 Hk2 eq_refl).
    - discriminate (proj1 Hk2 eq_refl).
    - by eapply entry_counts. }
  destruct (Hc k f w _ _ (iff_refl _) Hq Hi) as [Hsame|[_ (e & He & Hke)]]; [by rewrite Hsame in Hch|].
  assert (Hi1 : I (pm_snapshots w.2) (log_events w.1) (report k pid f w).1).
  { unfold report. destruct k as [[t r]|]; [by apply exit_keeps|by apply entry_keeps]. }
  apply pm_inv_now in Hi1. pose proof (steps_keep _ _ _ _ Hr' Hi1) as Hi2.
  destruct (Hc k' f' w' _ _ Hk Hq' Hi2) as [Hsame|[Hno _]]; [done|]. destruct Hno.
  exists e. split; [eapply elem_of_prefix; [exact He|apply (ji_grows _ _ _ _ _ Hi2)]|]. by rewrite Hf.
Qed.
End runs.

(** ** A concrete run *)

Definition btc : Symbol := {| sym_value := "BTC" |}.
Definition sample_fill (id : string) (price q : decimal) : Fill :=
  {| fl_fill_id := id; fl_client_order_id := "c1"; fl_exchange_order_id := "x1"; fl_symbol := btc;
     fl_side := OrderSide.BUY; fl_price := price; fl_quantity := q; fl_fee := Dec 1 (-1); fl_timestamp_utc := "" |}.

Definition sample_world : MemLog * PositionManager := (mem_empty, pm_empty).
Definition sample_pid : string := position_id "pm" 1.
Definition world_created :=
  (run_op "pm" (OpCreate btc OrderSide.BUY (dint 10) (dint 90) (dint 10) (dint 110) (dint 120) None) sample_world).1.
Definition world_entered := (run_op "pm" (OpEntry sample_pid (sample_fill "f1" (dint 100) (dint 10))) world_created).1.
Definition world_half := (run_op "pm" (OpExit sample_pid (sample_fill "f2" (dint 110) (dint 5)) _T.T1 None) world_entered).1.

Lemma pm_sample_start : pm_start "pm" sample_world.
Proof. split; [apply mem_empty_ok|constructor|reflexivity]. Qed.

Lemma pm_sample_runs : rtc (pm_step "pm") sample_world world_entered /\ rtc (pm_step "pm") sample_world world_half.
Proof.
  assert (H1 : rtc (pm_step "pm") sample_world world_created) by (apply rtc_once, s_op; reflexivity).
  assert (H2 : rtc (pm_step "pm") sample_world world_entered) by (eapply rtc_r; [exact H1|]; by apply s_op).
  split; [done|]. eapply rtc_r; [exact H2|]. by apply s_op.
Qed.

Lemma restart_rebuilds_positions_witness :
  exists m, pm_init world_half.1 "pm" = Ok m /\ pm_snapshots m = pm_snapshots world_half.2 /\
    pm_closed_legs m = pm_closed_legs world_half.2 /\ pm_next_seq m <= pm_next_seq world_half.2.
Proof. exact (restart_rebuilds_positions "pm" _ _ pm_sample_start (proj2 pm_sample_runs)). Defined.

Lemma position_books_balance_witness :
  match dget sample_pid (pm_snapshots world_half.2) with
  | Some x => position_ok sample_pid x (legs_of sample_pid world_half.2)
  | None => False
  end.
Proof.
  destruct (dget sample_pid (pm_snapshots world_half.2)) as [x|] eqn:E.
  - exact (position_books_balance "pm" _ _ _ x pm_sample_start (proj2 pm_sample_runs) E).
  - vm_compute in E. discriminate E.
Defined.

Lemma lifecycle_monotone_witness :
  match dget sample_pid (pm_snapshots world_entered.2) with
  | Some x => exists y, dget sample_pid (pm_snapshots world_half.2) = Some y /\ advanced x y
  | None => False
  end.
Proof.
  destruct (dget sample_pid (pm_snapshots world_entered.2)) as [x|] eqn:E.
  - refine (lifecycle_monotone "pm" _ _ world_half _ x pm_sample_start (proj1 pm_sample_runs) _ E).
    apply rtc_once. by apply (s_op "pm" (OpExit sample_pid (sample_fill "f2" (dint 110) (dint 5)) _T.T1 None)).
  - vm_compute in E. discriminate E.
Defined.

Definition world_sold := (report "pm" (Some (_T.T1, None)) sample_pid (sample_fill "f2" (dint 110) (dint 5)) world_entered).1.
Definition world_even := (run_op "pm" (OpBreakeven sample_pid) world_sold).1.

Lemma position_fill_once_witness :
  booked sample_pid (report "pm" (Some (_T.T2, None)) sample_pid (sample_fill "f2" (dint 120) (dint 5)) world_even).1.2
  = booked sample_pid world_even.2.
Proof.
  refine (position_fill_once "pm" sample_world world_entered world_even sample_pid
    (sample_fill "f2" (dint 110) (dint 5)) (sample_fill "f2" (dint 120) (dint 5)) (Some (_T.T1, None)) _ pm_sample_start (proj1 pm_sample_runs)
    eq_refl eq_refl _ _ eq_refl _ sample_pid).
  - intros E. apply (f_equal (fun x => length x.2)) in E. vm_compute in E. discriminate E.
  - apply rtc_once. by apply (s_op "pm" (OpBreakeven sample_pid)).
  - by split.
Defined.
