(* ===== verification/PortfolioManager.v ===== *)
(** * The portfolio manager (src/portfolio_manager/manager.py, snapshot.py)

    The two ledgers, the application of events with the check that they agree,
    the constructor that replays the log, and every operation over the log and
    the manager. The single lock is not modelled. *)

From Stdlib Require Import ssreflect ZArith Lia Ascii String.
From stdpp Require Import base strings numbers gmap sets list.
From S2P Require Import Prelude PyText PyDict PyJson PyDecimal EventStore EventLog Journal Payload.
#[local] Open Scope Z_scope.

Definition _EVENT_SOURCE_TAG : string := "portfolio_manager".
Definition _MAX_PM_ID_LENGTH : Z := 60.

Definition _is_own_event (pm_id : string) (event : Event) : bool :=
  bool_decide (jstr "source" (ev_payload event) = Some _EVENT_SOURCE_TAG)
  && bool_decide (jstr "pm_id" (ev_payload event) = Some pm_id).

Definition _event_type_for_action (action : string) : EventType := EventType.POSITION_UPDATED.

(** ** snapshot.py *)

Record PortfolioSnapshot := {
  pf_available_cash : decimal;
  pf_reserved_margin : decimal;
  pf_used_margin : decimal;
  pf_unrealized_pnl : decimal;
  pf_realized_pnl_cumulative : decimal;
  pf_funding_cumulative : decimal;
  pf_fees_cumulative : decimal;
  pf_deposits_cumulative : decimal;
  pf_withdrawals_cumulative : decimal;
  pf_exposure : decimal;
  pf_heat : decimal;
  pf_open_position_ids : list string;
  pf_updated_at_utc : json
}.

Definition wallet_balance (s : PortfolioSnapshot) : decimal :=
  dsub (dadd (dadd (dsub (pf_deposits_cumulative s) (pf_withdrawals_cumulative s)) (pf_realized_pnl_cumulative s))
             (pf_funding_cumulative s)) (pf_fees_cumulative s).
Definition equity (s : PortfolioSnapshot) : decimal := dadd (wallet_balance s) (pf_unrealized_pnl s).
Definition assets (s : PortfolioSnapshot) : decimal :=
  dadd (dadd (dadd (pf_available_cash s) (pf_reserved_margin s)) (pf_used_margin s)) (pf_unrealized_pnl s).
Definition liabilities (s : PortfolioSnapshot) : decimal := d0.
Definition leverage (s : PortfolioSnapshot) : result decimal :=
  if deqb (equity s) d0 then Ok d0 else ddiv (pf_exposure s) (equity s).
Definition position_count (s : PortfolioSnapshot) : Z := Z.of_nat (length (pf_open_position_ids s)).

(** ** The manager's state *)

Record PortfolioManager := {
  pf_ledger : PortfolioSnapshot; (* the amounts; its ids and time are those of [_snapshot] *)
  pf_open : gset string;
  pf_reserved_by_position : list (string * decimal);
  pf_used_by_position : list (string * decimal);
  pf_released : gset string;
  pf_applied_event_ids : gset Z
}.

(** Sorting by code points, as [sorted] does. *)
Fixpoint insert_sorted (x : string) (l : list string) : list string :=
  match l with
  | [] => [x]
  | y :: l => if String.leb x y then x :: y :: l else y :: insert_sorted x l
  end.
Definition sorted (l : list string) : list string := foldr insert_sorted [] l.

Definition set_amounts (cash reserved used unrealized realized funding fees deposits withdrawals : decimal)
    (s : PortfolioSnapshot) : PortfolioSnapshot :=
  {| pf_available_cash := cash; pf_reserved_margin := reserved; pf_used_margin := used; pf_unrealized_pnl := unrealized;
     pf_realized_pnl_cumulative := realized; pf_funding_cumulative := funding; pf_fees_cumulative := fees;
     pf_deposits_cumulative := deposits; pf_withdrawals_cumulative := withdrawals; pf_exposure := pf_exposure s;
     pf_heat := pf_heat s; pf_open_position_ids := pf_open_position_ids s; pf_updated_at_utc := pf_updated_at_utc s |}.

(** Moving cash and one of the cumulative figures. *)
Definition with_cash cash s := set_amounts cash (pf_reserved_margin s) (pf_used_margin s) (pf_unrealized_pnl s)
  (pf_realized_pnl_cumulative s) (pf_funding_cumulative s) (pf_fees_cumulative s) (pf_deposits_cumulative s)
  (pf_withdrawals_cumulative s) s.
Definition with_margins reserved used s := set_amounts (pf_available_cash s) reserved used (pf_unrealized_pnl s)
  (pf_realized_pnl_cumulative s) (pf_funding_cumulative s) (pf_fees_cumulative s) (pf_deposits_cumulative s)
  (pf_withdrawals_cumulative s) s.
Definition with_flows realized funding fees deposits withdrawals s :=
  set_amounts (pf_available_cash s) (pf_reserved_margin s) (pf_used_margin s) (pf_unrealized_pnl s)
    realized funding fees deposits withdrawals s.
Definition with_marks unrealized exposure heat s : PortfolioSnapshot :=
  {| pf_available_cash := pf_available_cash s; pf_reserved_margin := pf_reserved_margin s;
     pf_used_margin := pf_used_margin s; pf_unrealized_pnl := unrealized;
     pf_realized_pnl_cumulative := pf_realized_pnl_cumulative s; pf_funding_cumulative := pf_funding_cumulative s;
     pf_fees_cumulative := pf_fees_cumulative s; pf_deposits_cumulative := pf_deposits_cumulative s;
     pf_withdrawals_cumulative := pf_withdrawals_cumulative s; pf_exposure := exposure; pf_heat := heat;
     pf_open_position_ids := pf_open_position_ids s; pf_updated_at_utc := pf_updated_at_utc s |}.
Definition with_time ts s : PortfolioSnapshot :=
  {| pf_available_cash := pf_available_cash s; pf_reserved_margin := pf_reserved_margin s;
     pf_used_margin := pf_used_margin s; pf_unrealized_pnl := pf_unrealized_pnl s;
     pf_realized_pnl_cumulative := pf_realized_pnl_cumulative s; pf_funding_cumulative := pf_funding_cumulative s;
     pf_fees_cumulative := pf_fees_cumulative s; pf_deposits_cumulative := pf_deposits_cumulative s;
     pf_withdrawals_cumulative := pf_withdrawals_cumulative s; pf_exposure := pf_exposure s; pf_heat := pf_heat s;
     pf_open_position_ids := pf_open_position_ids s; pf_updated_at_utc := ts |}.

Definition set_ledger l m := {| pf_ledger := l; pf_open := pf_open m;
  pf_reserved_by_position := pf_reserved_by_position m; pf_used_by_position := pf_used_by_position m;
  pf_released := pf_released m; pf_applied_event_ids := pf_applied_event_ids m |}.
Definition set_positions open reserved used released m := {| pf_ledger := pf_ledger m; pf_open := open;
  pf_reserved_by_position := reserved; pf_used_by_position := used; pf_released := released;
  pf_applied_event_ids := pf_applied_event_ids m |}.
Definition set_applied ids m := {| pf_ledger := pf_ledger m; pf_open := pf_open m;
  pf_reserved_by_position := pf_reserved_by_position m; pf_used_by_position := pf_used_by_position m;
  pf_released := pf_released m; pf_applied_event_ids := ids |}.

(** [self._snapshot()] *)
Definition _snapshot (m : PortfolioManager) : PortfolioSnapshot :=
  let s := pf_ledger m in
  {| pf_available_cash := pf_available_cash s; pf_reserved_margin := pf_reserved_margin s;
     pf_used_margin := pf_used_margin s; pf_unrealized_pnl := pf_unrealized_pnl s;
     pf_realized_pnl_cumulative := pf_realized_pnl_cumulative s; pf_funding_cumulative := pf_funding_cumulative s;
     pf_fees_cumulative := pf_fees_cumulative s; pf_deposits_cumulative := pf_deposits_cumulative s;
     pf_withdrawals_cumulative := pf_withdrawals_cumulative s; pf_exposure := pf_exposure s; pf_heat := pf_heat s;
     pf_open_position_ids := sorted (elements (pf_open m)); pf_updated_at_utc := pf_updated_at_utc s |}.

Definition _assert_invariant (s : PortfolioSnapshot) : result unit :=
  require (deqb (assets s) (dadd (liabilities s) (equity s))) AccountingInvariantError.

(** ** Applying an event *)

Definition amount_of (pid : string) (d : list (string * decimal)) : decimal := default d0 (dget pid d).

Definition on_ledger (f : PortfolioSnapshot -> PortfolioSnapshot) (m : PortfolioManager) : PortfolioManager :=
  set_ledger (f (pf_ledger m)) m.

Definition do_deposit amt s :=
  with_flows (pf_realized_pnl_cumulative s) (pf_funding_cumulative s) (pf_fees_cumulative s)
    (dadd (pf_deposits_cumulative s) amt) (pf_withdrawals_cumulative s) (with_cash (dadd (pf_available_cash s) amt) s).
Definition do_withdraw amt s :=
  with_flows (pf_realized_pnl_cumulative s) (pf_funding_cumulative s) (pf_fees_cumulative s)
    (pf_deposits_cumulative s) (dadd (pf_withdrawals_cumulative s) amt) (with_cash (dsub (pf_available_cash s) amt) s).
Definition do_realized amt s :=
  with_flows (dadd (pf_realized_pnl_cumulative s) amt) (pf_funding_cumulative s) (pf_fees_cumulative s)
    (pf_deposits_cumulative s) (pf_withdrawals_cumulative s) (with_cash (dadd (pf_available_cash s) amt) s).
Definition do_funding amt s :=
  with_flows (pf_realized_pnl_cumulative s) (dadd (pf_funding_cumulative s) amt) (pf_fees_cumulative s)
    (pf_deposits_cumulative s) (pf_withdrawals_cumulative s) (with_cash (dadd (pf_available_cash s) amt) s).
Definition do_fee amt s :=
  with_flows (pf_realized_pnl_cumulative s) (pf_funding_cumulative s) (dadd (pf_fees_cumulative s) amt)
    (pf_deposits_cumulative s) (pf_withdrawals_cumulative s) (with_cash (dsub (pf_available_cash s) amt) s).

Definition do_reserve pid amt m :=
  let s := pf_ledger m in
  set_positions (pf_open m) (dset pid (dadd (amount_of pid (pf_reserved_by_position m)) amt) (pf_reserved_by_position m))
    (pf_used_by_position m) (pf_released m)
    (set_ledger (with_margins (dadd (pf_reserved_margin s) amt) (pf_used_margin s)
                   (with_cash (dsub (pf_available_cash s) amt) s)) m).
Definition do_allocate pid amt m :=
  let s := pf_ledger m in
  set_positions ({[pid]} ∪ pf_open m)
    (dset pid (dsub (amount_of pid (pf_reserved_by_position m)) amt) (pf_reserved_by_position m))
    (dset pid (dadd (amount_of pid (pf_used_by_position m)) amt) (pf_used_by_position m)) (pf_released m)
    (set_ledger (with_margins (dsub (pf_reserved_margin s) amt) (dadd (pf_used_margin s) amt) s) m).
Definition do_release pid m :=
  let s := pf_ledger m in
  let reserved := amount_of pid (pf_reserved_by_position m) in
  let used := amount_of pid (pf_used_by_position m) in
  set_positions (pf_open m ∖ {[pid]}) (dpop pid (pf_reserved_by_position m)) (dpop pid (pf_used_by_position m))
    ({[pid]} ∪ pf_released m)
    (set_ledger (with_cash (dadd (pf_available_cash s) (dadd reserved used))
                   (with_margins (dsub (pf_reserved_margin s) reserved) (dsub (pf_used_margin s) used) s)) m).

(** The body of [_apply_event]'s case analysis. *)
Definition apply_action (action : string) (details : json) : M PortfolioManager unit :=
  let amt := dec_item "amount" details in
  let pid := (j ← item "position_id" details; str_of j) in
  if String.eqb action "DEPOSIT" then a ← lift amt; modify (on_ledger (do_deposit a))
  else if String.eqb action "WITHDRAW" then a ← lift amt; modify (on_ledger (do_withdraw a))
  else if String.eqb action "RESERVE_MARGIN" then p ← lift pid; a ← lift amt; modify (do_reserve p a)
  else if String.eqb action "ALLOCATE_MARGIN" then p ← lift pid; a ← lift amt; modify (do_allocate p a)
  else if String.eqb action "RELEASE_MARGIN" then p ← lift pid; modify (do_release p)
  else if String.eqb action "REALIZED_PNL" then a ← lift amt; modify (on_ledger (do_realized a))
  else if String.eqb action "FUNDING" then a ← lift amt; modify (on_ledger (do_funding a))
  else if String.eqb action "FEE" then a ← lift amt; modify (on_ledger (do_fee a))
  else if String.eqb action "UPDATE_MARKS" then
    u ← lift (dec_item "unrealized_pnl" details);
    modify (on_ledger (fun s => with_marks u (pf_exposure s) (pf_heat s) s));;
    e ← lift (dec_item "exposure" details);
    modify (on_ledger (fun s => with_marks (pf_unrealized_pnl s) e (pf_heat s) s));;
    h ← lift (dec_item "heat" details);
    modify (on_ledger (fun s => with_marks (pf_unrealized_pnl s) (pf_exposure s) h s))
  else raise ReplayIntegrityError.

Definition _apply_event (event : Event) : M PortfolioManager PortfolioSnapshot :=
  self ← get;
  if bool_decide (ev_id event ∈ pf_applied_event_ids self) then mret (_snapshot self)
  else
    modify (set_applied ({[ev_id event]} ∪ pf_applied_event_ids self));;
    aj ← lift (item "action" (ev_payload event));
    action ← lift (of_option ReplayIntegrityError (as_str aj));
    apply_action action (default (JObj []) (jget "details" (ev_payload event)));;
    modify (on_ledger (with_time (ev_timestamp_utc event)));;
    self ← get;
    let snapshot := _snapshot self in
    lift (_assert_invariant snapshot);;
    mret snapshot.

(** The state before any event; [now] is the clock's answer. *)
Definition pf_empty (now : string) : PortfolioManager :=
  {| pf_ledger := {| pf_available_cash := d0; pf_reserved_margin := d0; pf_used_margin := d0; pf_unrealized_pnl := d0;
       pf_realized_pnl_cumulative := d0; pf_funding_cumulative := d0; pf_fees_cumulative := d0;
       pf_deposits_cumulative := d0; pf_withdrawals_cumulative := d0; pf_exposure := d0; pf_heat := d0;
       pf_open_position_ids := []; pf_updated_at_utc := JStr now |};
     pf_open := ∅; pf_reserved_by_position := []; pf_used_by_position := []; pf_released := ∅;
     pf_applied_event_ids := ∅ |}.

(** One step of the constructor's loop. *)
Definition replay_event (pm_id : string) (event : Event) : M PortfolioManager unit :=
  if _is_own_event pm_id event then _ ← _apply_event event; mret tt else mret tt.

Definition pf_init `{EventLog L} (now : string) (store : L) (pm_id : string) : result PortfolioManager :=
  if blank pm_id then Err ValueError else
  if _MAX_PM_ID_LENGTH <? slen pm_id then Err ValueError else
  events ← log_replay store;
  match for_each (replay_event pm_id) events (pf_empty now) with
  | (m, Ok _) => Ok m
  | (_, Err e) => Err e
  end.

(** ** Operations *)

Definition _namespaced_key (pm_id key : string) : string := _EVENT_SOURCE_TAG +:+ ":" +:+ pm_id +:+ ":" +:+ key.

Section manager.
Context {L : Type} `{EventLog L} (pm_id : string).
Notation W := (L * PortfolioManager)%type.

Definition on_pf {X} (m : M PortfolioManager X) : M W X := zoom snd (fun s w => (w.1, s)) m.

Definition _get_cached (key : string) : M W (option PortfolioSnapshot) :=
  w ← get;
  match log_find (_namespaced_key pm_id key) w.1 with
  | Some existing => s ← on_pf (_apply_event existing); mret (Some s)
  | None => mret None
  end.

Definition pf_payload (action : string) (details : list (string * json)) : list (string * json) :=
  [("source", JStr _EVENT_SOURCE_TAG); ("pm_id", JStr pm_id); ("action", JStr action); ("details", JObj details)].

Definition _persist (action : string) (details : list (string * json)) (key : string) : M W Event :=
  zoom fst (fun l w => (l, w.2))
    (log_append (_event_type_for_action action) (pf_payload action details) (Some (_namespaced_key pm_id key))).

(** [self._apply_event(self._persist(...))] *)
Definition record (action : string) (details : list (string * json)) (key : string) : M W PortfolioSnapshot :=
  event ← _persist action details key;
  on_pf (_apply_event event).

(** [cached = self._get_cached(key); if cached is not None: return cached], then the rest. *)
Definition once (key : string) (body : M W PortfolioSnapshot) : M W PortfolioSnapshot :=
  cached ← _get_cached key;
  match cached with Some s => mret s | None => body end.

Definition deposit (amount : decimal) (request_id : string) : M W PortfolioSnapshot :=
  if dleb amount d0 then raise ValueError else
  let key := "deposit:" +:+ request_id in
  once key (record "DEPOSIT" [("amount", JStr (dec_str amount))] key).

Definition withdraw (amount : decimal) (request_id : string) : M W PortfolioSnapshot :=
  if dleb amount d0 then raise ValueError else
  let key := "withdraw:" +:+ request_id in
  once key
    (w ← get;
     if dltb (pf_available_cash (pf_ledger w.2)) amount then raise InsufficientFundsError
     else record "WITHDRAW" [("amount", JStr (dec_str amount))] key).

Definition margin_details (position_id : string) (amount : decimal) : list (string * json) :=
  [("position_id", JStr position_id); ("amount", JStr (dec_str amount))].

Definition reserve_margin (position_id : string) (amount : decimal) (request_id : string) : M W PortfolioSnapshot :=
  if dleb amount d0 then raise ValueError else
  let key := "reserve_margin:" +:+ position_id +:+ ":" +:+ request_id in
  once key
    (w ← get;
     if dltb (pf_available_cash (pf_ledger w.2)) amount then raise InsufficientFundsError
     else record "RESERVE_MARGIN" (margin_details position_id amount) key).

Definition allocate_margin (position_id : string) (amount : decimal) (request_id : string) : M W PortfolioSnapshot :=
  if dleb amount d0 then raise ValueError else
  let key := "allocate_margin:" +:+ position_id +:+ ":" +:+ request_id in
  once key
    (w ← get;
     if dltb (amount_of position_id (pf_reserved_by_position w.2)) amount then raise InsufficientMarginError
     else record "ALLOCATE_MARGIN" (margin_details position_id amount) key).

Definition release_margin (position_id : string) (request_id : string) : M W PortfolioSnapshot :=
  w ← get;
  if bool_decide (position_id ∈ pf_released w.2) then mret (_snapshot w.2)
  else
    let key := "release_margin:" +:+ position_id +:+ ":" +:+ request_id in
    once key (record "RELEASE_MARGIN" [("position_id", JStr position_id)] key).

Definition apply_realized_pnl (position_id leg_id : string) (amount : decimal) (request_id : string)
    : M W PortfolioSnapshot :=
  let key := "realized_pnl:" +:+ position_id +:+ ":" +:+ leg_id in
  once key (record "REALIZED_PNL"
    [("position_id", JStr position_id); ("leg_id", JStr leg_id); ("amount", JStr (dec_str amount))] key).

Definition apply_funding (position_id funding_id : string) (amount : decimal) (request_id : string)
    : M W PortfolioSnapshot :=
  let key := "funding:" +:+ position_id +:+ ":" +:+ funding_id in
  once key (record "FUNDING"
    [("position_id", JStr position_id); ("funding_id", JStr funding_id); ("amount", JStr (dec_str amount))] key).

Definition apply_fee (reference_id fee_id : string) (amount : decimal) (request_id : string) : M W PortfolioSnapshot :=
  if dltb amount d0 then raise ValueError else
  let key := "fee:" +:+ reference_id +:+ ":" +:+ fee_id in
  once key (record "FEE"
    [("reference_id", JStr reference_id); ("fee_id", JStr fee_id); ("amount", JStr (dec_str amount))] key).

Definition update_marks (unrealized_pnl exposure heat : decimal) (request_id : string) : M W PortfolioSnapshot :=
  let key := "update_marks:" +:+ request_id in
  once key (record "UPDATE_MARKS"
    [("unrealized_pnl", JStr (dec_str unrealized_pnl)); ("exposure", JStr (dec_str exposure));
     ("heat", JStr (dec_str heat))] key).

Definition get_snapshot : M W PortfolioSnapshot := w ← get; mret (_snapshot w.2).
End manager.
