(* ===== verification/PortfolioManagerFacts.v ===== *)
(** * The portfolio manager: its two ledgers in exact arithmetic *)

From Stdlib Require Import ssreflect ZArith Lia Ascii String QArith Qabs Lqa.
From stdpp Require Import base strings numbers gmap sets list.
From S2P Require Import Prelude PyText PyDict PyBytes PyJson PyJsonFacts PyDecimal PyDecimalFacts.
From S2P Require Import EventStore EventStoreFacts EventLog Journal Payload PortfolioManager.
#[local] Open Scope Z_scope.

(** ** A journaled component

    Two managers are alike when they differ at most in the time of their last
    update: before any event that is the time of construction. *)

Definition erase (m : PortfolioManager) : PortfolioManager := on_ledger (with_time JNull) m.
Definition alike (a b : PortfolioManager) : Prop := erase a = erase b.

Definition apply_only (e : Event) : M PortfolioManager unit := _ ← _apply_event e; mret tt.

Lemma alike_set a b : alike a b -> exists t, b = on_ledger (with_time t) a.
Proof.
  destruct a as [[] ? ? ? ? ?], b as [[] ? ? ? ? ?]. intros E. unfold alike, erase, on_ledger, set_ledger, with_time in E.
  cbn in E. injection E as <- <- <- <- <- <- <- <- <- <- <- <- <- <- <- <- <-. by eexists.
Qed.

Lemma alike_modify f : (forall t m, erase (f (on_ledger (with_time t) m)) = erase (f m)) ->
  simulates alike (modify f).
Proof. intros Hf. apply simulates_modify. intros a b [t ->]%alike_set. symmetry. apply Hf. Qed.

Lemma alike_action action details : simulates alike (apply_action action details).
Proof.
  unfold apply_action.
  repeat (apply simulates_if; [repeat (apply simulates_bind; [auto with turtle|intros ?]); by apply alike_modify|]).
  auto with turtle.
Qed.

Lemma alike_assets a b : alike a b -> _assert_invariant (_snapshot a) = _assert_invariant (_snapshot b).
Proof.
  intros [t ->]%alike_set. unfold _assert_invariant, assets, equity, wallet_balance, _snapshot, on_ledger, set_ledger, with_time.
  cbn -[dadd dsub deqb require]. reflexivity.
Qed.

Lemma apply_only_simulates e : simulates alike (apply_only e).
Proof.
  unfold apply_only. intros a b Hab.
  assert (Hs : is_ok (_apply_event e a).2 = is_ok (_apply_event e b).2 /\
    (forall x, (_apply_event e a).2 = Err x <-> (_apply_event e b).2 = Err x) /\
    alike (_apply_event e a).1 (_apply_event e b).1).
  { destruct (alike_set _ _ Hab) as [t Eb]. unfold _apply_event. rewrite !run_get.
    assert (Happ : pf_applied_event_ids a = pf_applied_event_ids b) by (by rewrite Eb).
    rewrite -Happ. destruct (bool_decide _); [done|]. rewrite !run_modify.
    set (a1 := set_applied _ a). set (b1 := set_applied _ b).
    assert (Hab1 : alike a1 b1) by (unfold a1, b1; by rewrite Eb).
    rewrite !run_lift. destruct (item "action" _) as [aj|]; [|done]. rewrite !run_lift.
    destruct (of_option _ (as_str aj)) as [action|]; [|done]. rewrite !run_bind.
    destruct (alike_action action (default (JObj []) (jget "details" (ev_payload e))) a1 b1 Hab1) as [Hr Hs].
    destruct (apply_action action _ a1) as [a2 r], (apply_action action _ b1) as [b2 r']. cbn [fst snd] in *. subst r'.
    destruct r as [u|x]; [|done]. rewrite !run_modify !run_get.
    set (a3 := on_ledger _ a2). set (b3 := on_ledger _ b2).
    assert (Hab3 : alike a3 b3).
    { destruct (alike_set _ _ Hs) as [t2 ->]. done. }
    cbv zeta. rewrite !run_lift (alike_assets a3 b3 Hab3).
    destruct (_assert_invariant _); [|done]. split_and!; [done|by intros x; split|done]. }
  rewrite !run_bind. destruct (_apply_event e a) as [a1 [x|x]], (_apply_event e b) as [b1 [y|y]];
    cbn [fst snd is_ok] in *; destruct Hs as (H1 & H2 & H3); try done. split; [|done].
  destruct (H2 x) as [Hx _]. specialize (Hx eq_refl). congruence.
Qed.

Lemma apply_action_applied action details m : pf_applied_event_ids (apply_action action details m).1 = pf_applied_event_ids m.
Proof.
  set (I := fun m' => pf_applied_event_ids m' = pf_applied_event_ids m).
  enough (Hp : preserves I (apply_action action details)) by (by apply Hp).
  assert (Hm : forall f, (forall m, pf_applied_event_ids (f m) = pf_applied_event_ids m) -> preserves I (modify f)).
  { intros f Hf. apply preserves_modify. intros s Hs. unfold I. by rewrite Hf. }
  unfold apply_action.
  repeat (destruct (String.eqb _ _); [repeat (apply preserves_bind; [auto with turtle|intros ?]); by apply Hm|]).
  auto with turtle.
Qed.

Lemma apply_event_applied e m : ev_id e ∉ pf_applied_event_ids m ->
  pf_applied_event_ids (_apply_event e m).1 = {[ev_id e]} ∪ pf_applied_event_ids m.
Proof.
  intros Hn. unfold _apply_event. rewrite run_get bool_decide_eq_false_2 // run_modify.
  rewrite run_lift. destruct (item "action" _) as [aj|]; [|done]. rewrite run_lift.
  destruct (of_option _ (as_str aj)) as [action|]; [|done]. rewrite run_bind.
  pose proof (apply_action_applied action (default (JObj []) (jget "details" (ev_payload e)))
    (set_applied ({[ev_id e]} ∪ pf_applied_event_ids m) m)) as Ha.
  destruct (apply_action action _ _) as [m1 [u|x]]; [|done]. rewrite run_modify run_get. cbv zeta. rewrite run_lift.
  by destruct (_assert_invariant _).
Qed.

Lemma apply_event_dup e m : ev_id e ∈ pf_applied_event_ids m -> _apply_event e m = (m, Ok (_snapshot m)).
Proof. intros He. unfold _apply_event. by rewrite run_get bool_decide_eq_true_2. Qed.

Lemma apply_only_fst e m : (apply_only e m).1 = (_apply_event e m).1.
Proof. unfold apply_only. rewrite run_bind. by destruct (_apply_event e m) as [m' [x|x]]. Qed.

#[global] Program Instance portfolio_journal (pm_id : string) : Journaled PortfolioManager unit := {
  j_own := _is_own_event pm_id;
  j_key := _namespaced_key pm_id;
  j_apply := apply_only;
  j_applied := pf_applied_event_ids;
  j_sim := alike
}.
Next Obligation. intros pm k k'. unfold _namespaced_key. intros E. by apply app_inj_l_s, app_inj_l_s, app_inj_l_s, app_inj_l_s in E. Qed.
Next Obligation. done. Qed.
Next Obligation. intros _ a b [t ->]%alike_set. done. Qed.
Next Obligation. intros _ e. apply apply_only_simulates. Qed.
Next Obligation. intros _ e s He. by rewrite apply_only_fst apply_event_dup. Qed.
Next Obligation. intros _ e s He. rewrite apply_only_fst. by apply apply_event_applied. Qed.

(** ** Sums of the per-position amounts *)

Definition psum (d : list (string * decimal)) : Q := foldr (fun p q => (value p.2 + q)%Q) 0%Q d.

Lemma psum_cons p d : (psum (p :: d) = value p.2 + psum d)%Q.
Proof. done. Qed.

Lemma psum_dset pid x d : (psum (dset pid x d) == psum d - value (amount_of pid d) + value x)%Q.
Proof.
  unfold amount_of. induction d as [|[k v] d IH]; cbn [dset dget].
  - rewrite psum_cons. cbn [psum foldr snd default]. rewrite value_d0. ring.
  - destruct (String.eqb pid k); rewrite !psum_cons; cbn -[value psum Qplus Qminus]; [ring|]. rewrite IH. ring.
Qed.

Lemma dpop_absent pid (d : list (string * decimal)) : pid ∉ dkeys d -> dpop pid d = d.
Proof.
  induction d as [|[k v] d IH]; [done|]. cbn. rewrite not_elem_of_cons. intros [Hk Hd].
  destruct (String.eqb_spec pid k); [done|]. cbn. f_equal. by apply IH.
Qed.

Lemma psum_dpop pid d : NoDup (dkeys d) -> (psum (dpop pid d) == psum d - value (amount_of pid d))%Q.
Proof.
  unfold amount_of. induction d as [|[k v] d IH]; cbn [dget].
  - intros _. cbn. rewrite value_d0. ring.
  - unfold dkeys. rewrite fmap_cons. intros [Hk Hd]%NoDup_cons. cbn [dpop List.filter fst].
    destruct (String.eqb_spec pid k) as [->|Hne]; cbn [negb].
    + fold (dpop k d). rewrite dpop_absent // psum_cons. cbn -[value psum Qplus Qminus]. ring.
    + fold (dpop pid d). rewrite !psum_cons IH //. cbn -[value psum Qplus Qminus]. ring.
Qed.

Record positions_ok (k : Z) (d : list (string * decimal)) (total : Q) : Prop := {
  ps_keys : NoDup (dkeys d);
  ps_amounts : Forall (fun p => (0 <= value p.2)%Q /\ on_grid k (value p.2)) d;
  ps_total : (psum d == total)%Q
}.

Lemma psum_nonneg d : Forall (fun p => (0 <= value p.2)%Q) d -> (0 <= psum d)%Q.
Proof.
  intros H. induction H as [|p d Hp Hd IH]; [by cbn|].
  change (psum (p :: d)) with (value p.2 + psum d)%Q. lra.
Qed.

Lemma amount_ok k d total pid : positions_ok k d total ->
  (0 <= value (amount_of pid d))%Q /\ (value (amount_of pid d) <= total)%Q /\ on_grid k (value (amount_of pid d)).
Proof.
  intros [_ Ha <-]. unfold amount_of.
  induction Ha as [|[k' v] d [Hv Hg] Hd IH]; cbn [dget].
  - cbn [default]. rewrite value_d0. cbn. split_and!; [lra|lra|apply on_grid_0].
  - assert (Hn : (0 <= psum d)%Q) by (apply psum_nonneg; eapply Forall_impl; [exact Hd|]; tauto).
    cbn [snd] in Hv, Hg. change (psum ((k', v) :: d)) with (value v + psum d)%Q.
    destruct (String.eqb pid k'); [cbn -[value psum Qplus]; split_and!; [done|lra|done]|].
    destruct IH as (H1 & H2 & H3). split_and!; [done|lra|done].
Qed.

Lemma positions_dset k d total pid x t' : positions_ok k d total -> (0 <= value x)%Q -> on_grid k (value x) ->
  (t' == total - value (amount_of pid d) + value x)%Q -> positions_ok k (dset pid x d) t'.
Proof.
  intros [Hk Ha Ht] Hx Hg E. split; [by apply dset_NoDup| |by rewrite psum_dset Ht E].
  clear -Ha Hx Hg. induction Ha as [|[k' v] d [Hv Hg'] Hd IH]; cbn [dset].
  - by apply Forall_singleton.
  - destruct (String.eqb pid k'); by apply Forall_cons.
Qed.

Lemma positions_dpop k d total pid t' : positions_ok k d total ->
  (t' == total - value (amount_of pid d))%Q -> positions_ok k (dpop pid d) t'.
Proof.
  intros [Hk Ha Ht] E. split; [| |by rewrite psum_dpop // Ht E].
  - unfold dpop, dkeys. clear -Hk. induction d as [|[k' v] d IH]; [done|]. unfold dkeys in Hk. rewrite fmap_cons in Hk.
    apply NoDup_cons in Hk as [Hn Hd]. cbn. destruct (String.eqb pid k'); cbn; [by apply IH|].
    apply NoDup_cons. split; [|by apply IH]. intros (p & E & Hp)%list_elem_of_fmap. apply Hn.
    apply list_elem_of_fmap. exists p. split; [done|]. apply list_elem_of_In, List.filter_In in Hp as [Hp _]. by apply list_elem_of_In.
  - apply Forall_forall. intros p Hp%list_elem_of_In. apply List.filter_In in Hp as [Hp%list_elem_of_In _].
    by eapply (proj1 (Forall_forall _ _) Ha).
Qed.

(** ** The ledger *)

(** The numbers of a ledger that has moved at most [v] in all: cash and margins
    are what flowed in less what flowed out. *)
Definition balanced (v c r u d w rl fn fe : Q) : Prop :=
  (c + r + u == d - w + rl + fn - fe /\ 0 <= r /\ 0 <= u /\ 0 <= d /\ 0 <= w /\ 0 <= fe /\
   exists a b g, -a <= rl /\ rl <= a /\ -b <= fn /\ fn <= b /\ r + u <= g /\ d + w + fe + a + b + g <= v)%Q.

(** [v] bounds what has moved, [U] the marks; amounts are multiples of [10^-k]
    and everything stays below 28 digits. *)
Record ledger_ok (k : Z) (v U : Q) (s : PortfolioSnapshot) : Prop := {
  lk_balanced : balanced v (value (pf_available_cash s)) (value (pf_reserved_margin s)) (value (pf_used_margin s))
    (value (pf_deposits_cumulative s)) (value (pf_withdrawals_cumulative s)) (value (pf_realized_pnl_cumulative s))
    (value (pf_funding_cumulative s)) (value (pf_fees_cumulative s));
  lk_cash : on_grid k (value (pf_available_cash s));
  lk_reserved : on_grid k (value (pf_reserved_margin s));
  lk_used : on_grid k (value (pf_used_margin s));
  lk_unrealized : on_grid k (value (pf_unrealized_pnl s));
  lk_deposits : on_grid k (value (pf_deposits_cumulative s));
  lk_withdrawals : on_grid k (value (pf_withdrawals_cumulative s));
  lk_realized : on_grid k (value (pf_realized_pnl_cumulative s));
  lk_funding : on_grid k (value (pf_funding_cumulative s));
  lk_fees : on_grid k (value (pf_fees_cumulative s));
  lk_marks : (- U <= value (pf_unrealized_pnl s) <= U)%Q
}.

Section exact.
Context (k : Z).

Lemma add_exact a b v : (v < p10 (prec - k))%Q -> on_grid k (value a) -> on_grid k (value b) ->
  (- v <= value a + value b)%Q -> (value a + value b <= v)%Q ->
  (value (dadd a b) == value a + value b)%Q /\ on_grid k (value (dadd a b)).
Proof.
  intros Hv Ha Hb H1 H2. assert (E : (value (dadd a b) == value a + value b)%Q).
  { eapply dadd_grid; [exact Ha|exact Hb|]. apply Qabs_Qlt_condition. split; lra. }
  split; [done|]. rewrite E. by apply on_grid_plus.
Qed.

Lemma sub_exact a b v : (v < p10 (prec - k))%Q -> on_grid k (value a) -> on_grid k (value b) ->
  (- v <= value a - value b)%Q -> (value a - value b <= v)%Q ->
  (value (dsub a b) == value a - value b)%Q /\ on_grid k (value (dsub a b)).
Proof.
  intros Hv Ha Hb H1 H2. assert (E : (value (dsub a b) == value a - value b)%Q).
  { eapply dsub_grid; [exact Ha|exact Hb|]. apply Qabs_Qlt_condition. split; lra. }
  split; [done|]. rewrite E. by apply on_grid_minus.
Qed.

(** The check passes. *)
Lemma ledger_invariant v U s : ledger_ok k v U s -> (0 <= U)%Q -> (v + U < p10 (prec - k))%Q ->
  _assert_invariant s = Ok tt /\
  (value (assets s) == value (pf_available_cash s) + value (pf_reserved_margin s) + value (pf_used_margin s)
                       + value (pf_unrealized_pnl s))%Q /\
  (value (equity s) == value (assets s))%Q.
Proof.
  intros [(Hb & Hr & Hu & Hd & Hw & Hf & a & b & g & ? & ? & ? & ? & ? & Hsum) G1 G2 G3 G4 G5 G6 G7 G8 G9 [HU1 HU2]] HU Hlt.
  unfold assets, equity, wallet_balance, liabilities, _assert_invariant.
  destruct (add_exact (pf_available_cash s) (pf_reserved_margin s) (v + U) Hlt) as [E1 g1]; [done|done|lra|lra|].
  destruct (add_exact (dadd (pf_available_cash s) (pf_reserved_margin s)) (pf_used_margin s) (v + U) Hlt) as [E2 g2]; [done|done|lra|lra|].
  destruct (add_exact (dadd (dadd (pf_available_cash s) (pf_reserved_margin s)) (pf_used_margin s)) (pf_unrealized_pnl s) (v + U) Hlt)
    as [E3 g3]; [done|done|lra|lra|].
  destruct (sub_exact (pf_deposits_cumulative s) (pf_withdrawals_cumulative s) (v + U) Hlt) as [F1 h1]; [done|done|lra|lra|].
  set (w1 := dsub (pf_deposits_cumulative s) (pf_withdrawals_cumulative s)) in *.
  destruct (add_exact w1 (pf_realized_pnl_cumulative s) (v + U) Hlt) as [F2 h2]; [done|done|lra|lra|].
  set (w2 := dadd w1 _) in *.
  destruct (add_exact w2 (pf_funding_cumulative s) (v + U) Hlt) as [F3 h3]; [done|done|lra|lra|].
  set (w3 := dadd w2 _) in *.
  destruct (sub_exact w3 (pf_fees_cumulative s) (v + U) Hlt) as [F4 h4]; [done|done|lra|lra|].
  set (w4 := dsub w3 _) in *.
  destruct (add_exact w4 (pf_unrealized_pnl s) (v + U) Hlt) as [F5 h5]; [done|done|lra|lra|].
  set (eq := dadd w4 _) in *. set (as_ := dadd (dadd _ _) (pf_unrealized_pnl s)) in *.
  destruct (add_exact d0 eq (v + U) Hlt) as [F6 _]; [rewrite value_d0; apply on_grid_0|done|rewrite value_d0; lra|rewrite value_d0; lra|].
  split; [|split; lra].
  unfold require. assert (Hd' : deqb as_ (dadd d0 eq) = true) by (apply deqb_spec; rewrite F6 value_d0; lra).
  by rewrite Hd'.
Qed.
End exact.

(** ** The actions

    What each recorded action does, by its numbers: [pf_action] is the action
    with its details parsed, [do_action] its effect, [volume] how much it moves. *)

Inductive pf_action :=
  | ADeposit (a : decimal)
  | AWithdraw (a : decimal)
  | AReserve (pid : string) (a : decimal)
  | AAllocate (pid : string) (a : decimal)
  | ARelease (pid : string)
  | ARealized (pid leg : string) (a : decimal)
  | AFunding (pid fid : string) (a : decimal)
  | AFee (ref fid : string) (a : decimal)
  | AMarks (u e h : decimal).

Definition action_name (a : pf_action) : string :=
  match a with
  | ADeposit _ => "DEPOSIT" | AWithdraw _ => "WITHDRAW" | AReserve _ _ => "RESERVE_MARGIN"
  | AAllocate _ _ => "ALLOCATE_MARGIN" | ARelease _ => "RELEASE_MARGIN" | ARealized _ _ _ => "REALIZED_PNL"
  | AFunding _ _ _ => "FUNDING" | AFee _ _ _ => "FEE" | AMarks _ _ _ => "UPDATE_MARKS"
  end.

Definition action_details (a : pf_action) : list (string * json) :=
  match a with
  | ADeposit x | AWithdraw x => [("amount", JStr (dec_str x))]
  | AReserve pid x | AAllocate pid x => margin_details pid x
  | ARelease pid => [("position_id", JStr pid)]
  | ARealized pid leg x => [("position_id", JStr pid); ("leg_id", JStr leg); ("amount", JStr (dec_str x))]
  | AFunding pid fid x => [("position_id", JStr pid); ("funding_id", JStr fid); ("amount", JStr (dec_str x))]
  | AFee ref fid x => [("reference_id", JStr ref); ("fee_id", JStr fid); ("amount", JStr (dec_str x))]
  | AMarks u e h => [("unrealized_pnl", JStr (dec_str u)); ("exposure", JStr (dec_str e)); ("heat", JStr (dec_str h))]
  end.

Definition do_action (a : pf_action) : PortfolioManager -> PortfolioManager :=
  match a with
  | ADeposit x => on_ledger (do_deposit x)
  | AWithdraw x => on_ledger (do_withdraw x)
  | AReserve pid x => do_reserve pid x
  | AAllocate pid x => do_allocate pid x
  | ARelease pid => do_release pid
  | ARealized _ _ x => on_ledger (do_realized x)
  | AFunding _ _ x => on_ledger (do_funding x)
  | AFee _ _ x => on_ledger (do_fee x)
  | AMarks u e h => on_ledger (with_marks u e h)
  end.

Lemma apply_action_do a m :
  apply_action (action_name a) (JObj (action_details a)) m = (do_action a m, Ok tt).
Proof.
  unfold apply_action.
  destruct a; cbn [action_name String.eqb Ascii.eqb Bool.eqb]; cbv zeta; rewrite ?run_lift;
    first [rewrite (str_item "position_id" _ pid) // run_lift | idtac].
  all: try (match goal with |- context [dec_item "amount" (JObj (action_details ?a))] => idtac end;
            erewrite (dec_item_str "amount") by reflexivity; reflexivity).
  rewrite (dec_item_str "unrealized_pnl" _ u) // run_modify run_lift (dec_item_str "exposure" _ e) //.
  rewrite run_modify run_lift (dec_item_str "heat" _ h) //.
Qed.

(** How much an action moves. *)
Definition volume (a : pf_action) : Q :=
  match a with
  | ADeposit x | AWithdraw x | AReserve _ x | ARealized _ _ x | AFunding _ _ x | AFee _ _ x => Qabs (value x)
  | _ => 0
  end.

(** What the operations check before they record, and what is asked of the
    amounts. *)
Definition allowed (k : Z) (U : Q) (a : pf_action) (m : PortfolioManager) : Prop :=
  match a with
  | ADeposit x => (0 < value x)%Q /\ on_grid k (value x)
  | AWithdraw x => (0 < value x)%Q /\ on_grid k (value x)
  | AReserve _ x => (0 < value x)%Q /\ on_grid k (value x)
  | AAllocate pid x => (0 < value x)%Q /\ on_grid k (value x) /\
      (value x <= value (amount_of pid (pf_reserved_by_position m)))%Q
  | ARelease _ => True
  | ARealized _ _ x | AFunding _ _ x => on_grid k (value x)
  | AFee _ _ x => (0 <= value x)%Q /\ on_grid k (value x)
  | AMarks u _ _ => on_grid k (value u) /\ (- U <= value u <= U)%Q
  end.

Record portfolio_ok (k : Z) (U v : Q) (m : PortfolioManager) : Prop := {
  pk_ledger : ledger_ok k v U (pf_ledger m);
  pk_reserved : positions_ok k (pf_reserved_by_position m) (value (pf_reserved_margin (pf_ledger m)));
  pk_used : positions_ok k (pf_used_by_position m) (value (pf_used_margin (pf_ledger m)))
}.

Section actions.
Context (k : Z) (U : Q).

(** The ledger after a change whose amounts are exact. *)
Ltac ledger_parts Hl :=
  destruct Hl as [(Hb & Hr & Hu & Hd & Hw & Hf & a1 & b1 & g1 & ? & ? & ? & ? & ? & Hsum) G1 G2 G3 G4 G5 G6 G7 G8 G9 [HU1 HU2]].
Ltac exact_add x y v E G :=
  match goal with Hv : (v < p10 (prec - k))%Q |- _ =>
    destruct (add_exact k x y v Hv) as [E G]; [done|done|lra|lra|] end.
Ltac exact_sub x y v E G :=
  match goal with Hv : (v < p10 (prec - k))%Q |- _ =>
    destruct (sub_exact k x y v Hv) as [E G]; [done|done|lra|lra|] end.

(** A flow: cash and one cumulative figure move by the same amount. *)
Lemma flow_ok s v x : ledger_ok k v U s -> on_grid k (value x) -> (v + Qabs (value x) < p10 (prec - k))%Q ->
  ((0 <= value x)%Q -> ledger_ok k (v + Qabs (value x)) U (do_deposit x s)) /\
  ((0 <= value x)%Q -> ledger_ok k (v + Qabs (value x)) U (do_withdraw x s)) /\
  ((0 <= value x)%Q -> ledger_ok k (v + Qabs (value x)) U (do_fee x s)) /\
  ledger_ok k (v + Qabs (value x)) U (do_realized x s) /\
  ledger_ok k (v + Qabs (value x)) U (do_funding x s).
Proof.
  intros Hl Hg Hlt. ledger_parts Hl. set (q := Qabs (value x)) in *.
  assert (Hq : (- q <= value x /\ value x <= q)%Q) by (by apply Qabs_Qle_condition, Qle_refl).
  destruct Hq as [Hq1 Hq2]. set (v' := (v + q)%Q) in *.
  assert (Hv' : (v' == v + q)%Q) by (unfold v'; reflexivity).
  exact_add (pf_available_cash s) x v' Ec Gc. exact_sub (pf_available_cash s) x v' Es Gs.
  exact_add (pf_realized_pnl_cumulative s) x v' Er Gr. exact_add (pf_funding_cumulative s) x v' Ef Gf.
  split_and!; try (intros Hx; assert (Hxq : (q == value x)%Q) by (by apply Qabs_pos)).
  - exact_add (pf_deposits_cumulative s) x v' Ed Gd. split; try done. cbn -[value dadd dsub].
    split_and!; try lra. exists a1, b1, g1. split_and!; lra.
  - exact_add (pf_withdrawals_cumulative s) x v' Ed Gd. split; try done. cbn -[value dadd dsub].
    split_and!; try lra. exists a1, b1, g1. split_and!; lra.
  - exact_add (pf_fees_cumulative s) x v' Ed Gd. split; try done. cbn -[value dadd dsub].
    split_and!; try lra. exists a1, b1, g1. split_and!; lra.
  - split; try done. cbn -[value dadd dsub]. split_and!; try lra. exists (a1 + q)%Q, b1, g1. split_and!; lra.
  - split; try done. cbn -[value dadd dsub]. split_and!; try lra. exists a1, (b1 + q)%Q, g1. split_and!; lra.
Qed.

(** The totals of the per-position amounts. *)
Lemma portfolio_parts v m pid : portfolio_ok k U v m ->
  (0 <= value (amount_of pid (pf_reserved_by_position m)) /\ 0 <= value (amount_of pid (pf_used_by_position m)) /\
   value (amount_of pid (pf_reserved_by_position m)) <= value (pf_reserved_margin (pf_ledger m)) /\
   value (amount_of pid (pf_used_by_position m)) <= value (pf_used_margin (pf_ledger m)))%Q /\
  on_grid k (value (amount_of pid (pf_reserved_by_position m))) /\
  on_grid k (value (amount_of pid (pf_used_by_position m))).
Proof.
  intros [_ Hr Hu]. destruct (amount_ok _ _ _ pid Hr) as (? & ? & ?), (amount_ok _ _ _ pid Hu) as (? & ? & ?). done.
Qed.

Lemma reserve_ok v m pid x : portfolio_ok k U v m -> (0 < value x)%Q -> on_grid k (value x) ->
  (v + Qabs (value x) < p10 (prec - k))%Q -> portfolio_ok k U (v + Qabs (value x)) (do_reserve pid x m).
Proof.
  intros Hm Hx Hg Hlt. pose proof (portfolio_parts v m pid Hm) as ((P1 & _ & P2 & _) & P3 & _).
  destruct Hm as [Hl Hr' Hu']. ledger_parts Hl. set (v' := (v + Qabs (value x))%Q) in *.
  assert (Hv' : (v' == v + value x)%Q) by (unfold v'; by rewrite Qabs_pos; [apply Qlt_le_weak|]).
  exact_sub (pf_available_cash (pf_ledger m)) x v' Ec Gc. exact_add (pf_reserved_margin (pf_ledger m)) x v' Er Gr.
  exact_add (amount_of pid (pf_reserved_by_position m)) x v' Ea Ga. split.
  - split; try done. cbn -[value dadd dsub amount_of]. split_and!; try lra. exists a1, b1, (g1 + value x)%Q. split_and!; lra.
  - eapply positions_dset; [exact Hr'|lra|done|]. cbn -[value dadd dsub amount_of]. lra.
  - done.
Qed.

Lemma allocate_ok v m pid x : portfolio_ok k U v m -> (0 < value x)%Q -> on_grid k (value x) ->
  (value x <= value (amount_of pid (pf_reserved_by_position m)))%Q ->
  (v < p10 (prec - k))%Q -> portfolio_ok k U v (do_allocate pid x m).
Proof.
  intros Hm Hx Hg Hle Hlt. pose proof (portfolio_parts v m pid Hm) as ((P1 & P2 & P3 & P4) & P5 & P6).
  destruct Hm as [Hl Hr' Hu']. ledger_parts Hl.
  exact_sub (pf_reserved_margin (pf_ledger m)) x v Er Gr. exact_add (pf_used_margin (pf_ledger m)) x v Eu Gu.
  exact_sub (amount_of pid (pf_reserved_by_position m)) x v Ea Ga.
  exact_add (amount_of pid (pf_used_by_position m)) x v Eb Gb. split.
  - split; try done. cbn -[value dadd dsub amount_of]. split_and!; try lra. exists a1, b1, g1. split_and!; lra.
  - eapply positions_dset; [exact Hr'|lra|done|]. cbn -[value dadd dsub amount_of]. lra.
  - eapply positions_dset; [exact Hu'|lra|done|]. cbn -[value dadd dsub amount_of]. lra.
Qed.

Lemma release_ok v m pid : portfolio_ok k U v m -> (v < p10 (prec - k))%Q -> portfolio_ok k U v (do_release pid m).
Proof.
  intros Hm Hlt. pose proof (portfolio_parts v m pid Hm) as ((P1 & P2 & P3 & P4) & P5 & P6).
  destruct Hm as [Hl Hr' Hu']. ledger_parts Hl.
  set (r := amount_of pid (pf_reserved_by_position m)) in *. set (u := amount_of pid (pf_used_by_position m)) in *.
  exact_add r u v Es Gs. exact_add (pf_available_cash (pf_ledger m)) (dadd r u) v Ec Gc.
  exact_sub (pf_reserved_margin (pf_ledger m)) r v Er Gr. exact_sub (pf_used_margin (pf_ledger m)) u v Eu Gu. split.
  - split; try done. cbn -[value dadd dsub amount_of]. fold r u. split_and!; try lra. exists a1, b1, g1. split_and!; lra.
  - eapply positions_dpop; [exact Hr'|]. cbn -[value dadd dsub amount_of]. by rewrite Er.
  - eapply positions_dpop; [exact Hu'|]. cbn -[value dadd dsub amount_of]. by rewrite Eu.
Qed.

Lemma marks_ok v s u e h : ledger_ok k v U s -> on_grid k (value u) -> (- U <= value u <= U)%Q ->
  ledger_ok k v U (with_marks u e h s).
Proof. by intros [] ? ?. Qed.

(** A larger volume bounds as well. *)
Lemma portfolio_ok_volume v v' m : portfolio_ok k U v m -> (v <= v')%Q -> portfolio_ok k U v' m.
Proof.
  intros [Hl Hr' Hu'] Hle. split; [|done..]. ledger_parts Hl. split; try done.
  split_and!; try done. exists a1, b1, g1. split_and!; lra.
Qed.

Lemma volume_nonneg a : (0 <= volume a)%Q.
Proof. destruct a; cbn [volume]; apply Qabs_nonneg || apply Qle_refl. Qed.

(** Every action keeps the ledger's equation, exactly. *)
Lemma do_action_ok v a m : portfolio_ok k U v m -> allowed k U a m -> (v + volume a < p10 (prec - k))%Q ->
  portfolio_ok k U (v + volume a) (do_action a m).
Proof.
  intros Hm Ha Hlt. pose proof (volume_nonneg a) as Hv0. destruct a; cbn [allowed volume do_action] in *;
    try (eapply (portfolio_ok_volume v); [|by rewrite Qplus_0_r; apply Qle_refl]);
    try (assert (Hv : (v < p10 (prec - k))%Q) by lra).
  - destruct Ha as [Hx Hg], Hm as [Hl Hr Hu]. destruct (flow_ok _ v a Hl Hg Hlt) as (H & _). split; [apply H; lra|done..].
  - destruct Ha as [Hx Hg], Hm as [Hl Hr Hu]. destruct (flow_ok _ v a Hl Hg Hlt) as (_ & H & _). split; [apply H; lra|done..].
  - destruct Ha as [Hx Hg]. by apply reserve_ok.
  - destruct Ha as (Hx & Hg & Hle). by apply allocate_ok.
  - by apply release_ok.
  - destruct Hm as [Hl Hr Hu]. destruct (flow_ok _ v a Hl Ha Hlt) as (_ & _ & _ & H & _). by split.
  - destruct Hm as [Hl Hr Hu]. destruct (flow_ok _ v a Hl Ha Hlt) as (_ & _ & _ & _ & H). by split.
  - destruct Ha as [Hx Hg], Hm as [Hl Hr Hu]. destruct (flow_ok _ v a Hl Hg Hlt) as (_ & _ & H & _). split; [by apply H|done..].
  - destruct Ha as [Hg HU], Hm as [Hl Hr Hu]. split; [by apply marks_ok|done..].
Qed.
End actions.

(** Applying an event of the manager's own. *)
Definition after_action (a : pf_action) (e : Event) (m : PortfolioManager) : PortfolioManager :=
  on_ledger (with_time (ev_timestamp_utc e)) (do_action a (set_applied ({[ev_id e]} ∪ pf_applied_event_ids m) m)).

Lemma apply_event_action pm a e m : ev_payload e = JObj (pf_payload pm (action_name a) (action_details a)) ->
  ev_id e ∉ pf_applied_event_ids m ->
  _apply_event e m = (after_action a e m, match _assert_invariant (_snapshot (after_action a e m)) with
                                          | Ok _ => Ok (_snapshot (after_action a e m)) | Err x => Err x end).
Proof.
  intros Hp Hn. unfold _apply_event. rewrite run_get bool_decide_eq_false_2 // run_modify Hp.
  change (item "action" _) with (Ok (JStr (action_name a))). rewrite run_lift. cbn [as_str of_option]. rewrite run_lift.
  change (default _ (jget "details" _)) with (JObj (action_details a)). rewrite run_bind apply_action_do run_modify run_get.
  cbv zeta. rewrite run_lift. fold (after_action a e m). by destruct (_assert_invariant _).
Qed.

Lemma allowed_alike k U a x y : alike x y -> allowed k U a x -> allowed k U a y.
Proof. intros [t ->]%alike_set. by destruct a. Qed.

Lemma portfolio_ok_alike k U v x y : alike x y -> portfolio_ok k U v x -> portfolio_ok k U v y.
Proof. intros [t ->]%alike_set [[] Hr Hu]. by split. Qed.

Lemma snapshot_ledger_ok k v U m : ledger_ok k v U (pf_ledger m) -> ledger_ok k v U (_snapshot m).
Proof. by intros []. Qed.

Lemma after_action_ok k U v a e m : portfolio_ok k U v m -> allowed k U a m -> (0 <= U)%Q ->
  (v + volume a + U < p10 (prec - k))%Q ->
  portfolio_ok k U (v + volume a) (after_action a e m) /\
  _assert_invariant (_snapshot (after_action a e m)) = Ok tt.
Proof.
  intros Hm Ha HU Hlt. set (m1 := set_applied ({[ev_id e]} ∪ pf_applied_event_ids m) m).
  assert (H1 : portfolio_ok k U (v + volume a) (do_action a m1)).
  { apply do_action_ok; [by destruct Hm|by destruct a|lra]. }
  assert (H2 : portfolio_ok k U (v + volume a) (after_action a e m)).
  { eapply portfolio_ok_alike; [|exact H1]. done. }
  split; [done|]. eapply ledger_invariant; [by apply snapshot_ledger_ok, H2|done|done].
Qed.
