(* ===== verification/PortfolioManagerSpec.v ===== *)
(** * The portfolio manager: its runs and what holds of them

    While the amounts are multiples of [10^-k] and what moves, with the marks,
    stays below 28 digits, the two ledgers agree exactly; beyond that they need
    not, and the manager can then neither go on nor restart. *)

From Stdlib Require Import ssreflect ZArith Lia Ascii String QArith Qabs Lqa.
From stdpp Require Import base strings numbers gmap sets list.
From S2P Require Import Prelude PyText PyDict PyBytes PyJson PyJsonFacts PyDecimal PyDecimalFacts.
From S2P Require Import EventStore EventStoreFacts EventLog Journal Payload PortfolioManager PortfolioManagerFacts.
#[local] Open Scope Z_scope.

(** ** The operations, uniformly *)

Inductive pf_op :=
  | OpDeposit (amount : decimal) (request_id : string)
  | OpWithdraw (amount : decimal) (request_id : string)
  | OpReserve (pid : string) (amount : decimal) (request_id : string)
  | OpAllocate (pid : string) (amount : decimal) (request_id : string)
  | OpRelease (pid : string) (request_id : string)
  | OpRealized (pid leg : string) (amount : decimal) (request_id : string)
  | OpFunding (pid fid : string) (amount : decimal) (request_id : string)
  | OpFee (ref fid : string) (amount : decimal) (request_id : string)
  | OpMarks (u e h : decimal) (request_id : string).

Definition op_action (op : pf_op) : pf_action :=
  match op with
  | OpDeposit a _ => ADeposit a | OpWithdraw a _ => AWithdraw a
  | OpReserve p a _ => AReserve p a | OpAllocate p a _ => AAllocate p a | OpRelease p _ => ARelease p
  | OpRealized p l a _ => ARealized p l a | OpFunding p f a _ => AFunding p f a | OpFee r f a _ => AFee r f a
  | OpMarks u e h _ => AMarks u e h
  end.

Definition op_key (op : pf_op) : string :=
  match op with
  | OpDeposit _ r => "deposit:" +:+ r | OpWithdraw _ r => "withdraw:" +:+ r
  | OpReserve p _ r => "reserve_margin:" +:+ p +:+ ":" +:+ r
  | OpAllocate p _ r => "allocate_margin:" +:+ p +:+ ":" +:+ r
  | OpRelease p r => "release_margin:" +:+ p +:+ ":" +:+ r
  | OpRealized p l _ _ => "realized_pnl:" +:+ p +:+ ":" +:+ l
  | OpFunding p f _ _ => "funding:" +:+ p +:+ ":" +:+ f
  | OpFee r f _ _ => "fee:" +:+ r +:+ ":" +:+ f
  | OpMarks _ _ _ r => "update_marks:" +:+ r
  end.

(** The check of the arguments, before anything else. *)
Definition arg_ok (op : pf_op) : bool :=
  match op with
  | OpDeposit a _ | OpWithdraw a _ | OpReserve _ a _ | OpAllocate _ a _ => negb (dleb a d0)
  | OpFee _ _ a _ => negb (dltb a d0)
  | _ => true
  end.

(** The check of the funds, after the look-up of the request. *)
Definition lacking (op : pf_op) (m : PortfolioManager) : option exn :=
  match op with
  | OpWithdraw a _ | OpReserve _ a _ =>
      if dltb (pf_available_cash (pf_ledger m)) a then Some InsufficientFundsError else None
  | OpAllocate p a _ =>
      if dltb (amount_of p (pf_reserved_by_position m)) a then Some InsufficientMarginError else None
  | _ => None
  end.

Definition already_released (op : pf_op) (m : PortfolioManager) : bool :=
  match op with OpRelease p _ => bool_decide (p ∈ pf_released m) | _ => false end.

(** Amounts are multiples of [10^-k], marks are within [U]. *)
Definition op_ok (k : Z) (U : Q) (op : pf_op) : Prop :=
  match op with
  | OpDeposit a _ | OpWithdraw a _ | OpReserve _ a _ | OpAllocate _ a _
  | OpRealized _ _ a _ | OpFunding _ _ a _ | OpFee _ _ a _ => on_grid k (value a)
  | OpRelease _ _ => True
  | OpMarks u _ _ _ => on_grid k (value u) /\ (- U <= value u <= U)%Q
  end.

Lemma op_allowed k U op m : op_ok k U op -> arg_ok op = true -> lacking op m = None -> allowed k U (op_action op) m.
Proof.
  destruct op; cbn [op_ok arg_ok lacking op_action allowed]; intros Hg Ha Hf; try done.
  all: try (apply negb_true_iff, dleb_nspec in Ha; rewrite value_d0 in Ha).
  - done.
  - done.
  - done.
  - destruct (dltb _ _) eqn:E; [done|]. by apply dltb_nspec in E.
  - apply negb_true_iff, dltb_nspec in Ha. by rewrite value_d0 in Ha.
Qed.

Section operations.
Context {L : Type} `{EventLog L} (pm : string).
Notation W := (L * PortfolioManager)%type.
Notation J := (portfolio_journal pm).
Implicit Types (w : W) (op : pf_op) (v : Q).

Definition run_op (op : pf_op) : M W PortfolioSnapshot :=
  match op with
  | OpDeposit a r => deposit pm a r
  | OpWithdraw a r => withdraw pm a r
  | OpReserve p a r => reserve_margin pm p a r
  | OpAllocate p a r => allocate_margin pm p a r
  | OpRelease p r => release_margin pm p r
  | OpRealized p l a r => apply_realized_pnl pm p l a r
  | OpFunding p f a r => apply_funding pm p f a r
  | OpFee ref f a r => apply_fee pm ref f a r
  | OpMarks u e h r => update_marks pm u e h r
  end.

(** Every operation is: check the arguments, look the request up, check the
    funds, record. *)
Definition op_record op : M W PortfolioSnapshot :=
  record pm (action_name (op_action op)) (action_details (op_action op)) (op_key op).

Lemma run_op_eq op w :
  run_op op w =
  if negb (arg_ok op) then (w, Err ValueError) else
  if already_released op w.2 then (w, Ok (_snapshot w.2)) else
  once pm (op_key op) (fun w => match lacking op w.2 with Some x => (w, Err x) | None => op_record op w end) w.
Proof.
  assert (Hb : forall key (b b' : M W PortfolioSnapshot), (forall w, b w = b' w) -> once pm key b w = once pm key b' w).
  { intros key b b' Hb. unfold once. rewrite !run_bind. destruct (_get_cached pm key w) as [w' [[s|]|x]]; [done|apply Hb|done]. }
  destruct op; cbn [run_op arg_ok already_released];
    unfold deposit, withdraw, reserve_margin, allocate_margin, release_margin, apply_realized_pnl, apply_funding, apply_fee, update_marks;
    cbv zeta; try rewrite negb_involutive.
  all: try (destruct (dleb _ _); [done|]).
  all: try (destruct (dltb _ _); [done|]).
  all: try rewrite run_get.
  all: try (destruct (bool_decide _); [done|]).
  all: apply Hb; intros w0; cbn [lacking]; rewrite ?run_get; try reflexivity.
  all: by destruct (dltb _ _).
Qed.

Lemma record_journal a d key w :
  Journal.record J EventType.POSITION_UPDATED (pf_payload pm a d) key w =
  ((record pm a d key w).1, match (record pm a d key w).2 with Ok _ => Ok tt | Err x => Err x end).
Proof.
  unfold Journal.record, record, _persist, on_log. rewrite !run_bind.
  change (j_key key) with (_namespaced_key pm key). change (_event_type_for_action a) with EventType.POSITION_UPDATED.
  destruct (zoom _ _ _ w) as [w' [e|x]]; [|done].
  unfold on_state, on_pf, zoom. change (j_apply e) with (apply_only e). unfold apply_only. rewrite run_bind.
  by destruct (_apply_event e w'.2) as [m [s|x]].
Qed.

Lemma own_action e a d : ev_payload e = JObj (pf_payload pm a d) -> _is_own_event pm e = true.
Proof.
  intros Hp. unfold _is_own_event. rewrite Hp.
  change (jstr "source" _) with (Some _EVENT_SOURCE_TAG). change (jstr "pm_id" _) with (Some pm).
  by rewrite !bool_decide_eq_true_2.
Qed.

Lemma action_wf a : json_wf (JObj (pf_payload pm (action_name a) (action_details a))) = true.
Proof.
  assert (Hd : json_wf (JObj (action_details a)) = true).
  { apply json_wf_obj. destruct a; (split; [apply (bool_decide_eq_true_1 _); vm_compute; reflexivity|]);
      repeat (apply Forall_cons; split; [done|]); by apply Forall_nil. }
  apply json_wf_obj. split; [apply (bool_decide_eq_true_1 _); vm_compute; reflexivity|].
  repeat (apply Forall_cons; split; [first [done | exact Hd]|]). by apply Forall_nil.
Qed.

Context (now0 : string) (k : Z) (U : Q) (rel0 : gset string) (es0 : list Event).

(** The totals balance, and a released position stays released. *)
Definition sound v (_ : list Event) (m : PortfolioManager) : Prop :=
  portfolio_ok k U v m /\ rel0 ⊆ pf_released m.
Notation I v := (jinv J (pf_empty now0) (sound v) es0).

Lemma inv_live v w : I v w -> sound v [] w.2.
Proof.
  intros [_ (m & _ & Hs & Hok & Hrel) _]. assert (Ha : alike m w.2) by (by symmetry). split; [by eapply portfolio_ok_alike|].
  destruct (alike_set _ _ Ha) as [t ->]. done.
Qed.

Definition known op w : Prop := exists e, e ∈ log_events w.1 /\ key_of e = Some (_namespaced_key pm (op_key op)).

Lemma known_dec op w : known op w \/ ~ known op w.
Proof.
  unfold known. destruct (find_event (_namespaced_key pm (op_key op)) (log_events w.1)) as [e|] eqn:E.
  - apply find_event_Some in E as [He Hk]. left. by exists e.
  - right. intros (e & He & Hk). by destruct (proj1 (find_event_None _ _) E e He).
Qed.

Lemma inv_applied v w e key : I v w -> e ∈ log_events w.1 -> key_of e = Some (_namespaced_key pm key) ->
  _apply_event e w.2 = (w.2, Ok (_snapshot w.2)).
Proof.
  intros [_ (m & Hr & Hs & _) _] He Hk. apply apply_event_dup.
  pose proof (j_sim_applied (Journaled := J) _ _ Hs) as Happ. cbn in Happ. rewrite Happ.
  eapply (rb_own _ _ _ _ Hr); [done|]. by eapply (rb_keys _ _ _ _ Hr).
Qed.

(** A request the log knows changes nothing. *)
Lemma once_known v key body w : I v w ->
  (exists e, e ∈ log_events w.1 /\ key_of e = Some (_namespaced_key pm key)) ->
  once pm key body w = (w, Ok (_snapshot w.2)).
Proof.
  intros Hi (e & He & Hk). unfold once, _get_cached. rewrite run_bind run_get.
  rewrite (log_find_event _ _ (ji_log _ _ _ _ _ Hi)).
  destruct (find_event (_namespaced_key pm key) (log_events w.1)) as [e'|] eqn:E.
  - apply find_event_Some in E as [He' Hk']. rewrite run_bind. unfold on_pf, zoom.
    rewrite (inv_applied v w e' key) //. by destruct w.
  - by destruct (proj1 (find_event_None _ _) E e He).
Qed.

Lemma once_fresh v key body w : I v w ->
  ~ (exists e, e ∈ log_events w.1 /\ key_of e = Some (_namespaced_key pm key)) -> once pm key body w = body w.
Proof.
  intros Hi Hn. unfold once, _get_cached. rewrite run_bind run_get.
  rewrite (log_find_event _ _ (ji_log _ _ _ _ _ Hi)).
  destruct (find_event (_namespaced_key pm key) (log_events w.1)) as [e'|] eqn:E; [|done].
  apply find_event_Some in E as [He' Hk']. destruct Hn. by exists e'.
Qed.

Lemma released_after a e m : pf_released m ⊆ pf_released (after_action a e m).
Proof. destruct a; try done. cbn. set_solver. Qed.

Hypothesis HU : (0 <= U)%Q.

Lemma apply_event_snapshot e m s : (_apply_event e m).2 = Ok s -> s = _snapshot (_apply_event e m).1.
Proof.
  unfold _apply_event. rewrite run_get. case_bool_decide; [by intros [= <-]|]. rewrite run_modify run_lift.
  destruct (item "action" _) as [aj|]; [|done]. rewrite run_lift. destruct (of_option _ _) as [action|]; [|done].
  rewrite run_bind. destruct (apply_action _ _ _) as [m1 [u|x]]; [|done]. rewrite run_modify run_get. cbv zeta. rewrite run_lift.
  destruct (_assert_invariant _); [|done]. by intros [= <-].
Qed.

Lemma record_snapshot a d key w s : (record pm a d key w).2 = Ok s -> s = _snapshot (record pm a d key w).1.2.
Proof.
  unfold record. rewrite run_bind. destruct (_persist _ _ _ _ w) as [w1 [e|x]]; [|done]. unfold on_pf, zoom.
  pose proof (apply_event_snapshot e w1.2) as Hs. destruct (_apply_event e w1.2) as [m r]. cbn. apply Hs.
Qed.

(** The outcomes of an operation: nothing changed, or its action was logged and
    applied. *)
Inductive outcome op w : W -> result PortfolioSnapshot -> Prop :=
  | out_err l x : log_events l = log_events w.1 ->
      x ∈ [ValueError; InsufficientFundsError; InsufficientMarginError; MalformedEventError; OSError; StructError] ->
      outcome op w (l, w.2) (Err x)
  | out_same : outcome op w w (Ok (_snapshot w.2))
  | out_done l e : log_events l = log_events w.1 ++ [e] -> ev_payload e = JObj (pf_payload pm (action_name (op_action op)) (action_details (op_action op))) ->
      key_of e = Some (_namespaced_key pm (op_key op)) ->
      outcome op w (l, after_action (op_action op) e w.2) (Ok (_snapshot (after_action (op_action op) e w.2))).

Lemma record_outcome v op w : I v w -> allowed k U (op_action op) w.2 -> ~ known op w ->
  (v + volume (op_action op) + U < p10 (prec - k))%Q ->
  outcome op w (op_record op w).1 (op_record op w).2 /\ I (v + volume (op_action op)) (op_record op w).1 /\
  (is_ok (op_record op w).2 = true -> known op (op_record op w).1).
Proof.
  intros Hi Ha Hn Hlt. pose proof (inv_live _ _ Hi) as [Hok _]. set (a := op_action op) in *.
  pose proof (volume_nonneg a) as Hv0.
  destruct (journal_record_spec J (pf_empty now0) (sound v) (sound (v + volume a)) es0 EventType.POSITION_UPDATED
    (pf_payload pm (action_name a) (action_details a)) (op_key op) w) as [Hrec Hi'].
  - intros es m [Hm Hr]. split; [eapply portfolio_ok_volume; [done|lra]|done].
  - done.
  - apply action_wf.
  - intros e He. by eapply own_action.
  - intros e m Hp _ Hid Hs [Hm Hr] _. exists tt. pose proof (allowed_alike k U a _ _ Hs Ha) as Ham.
    destruct (after_action_ok k U v a e m Hm Ham HU Hlt) as [Hm' Hinv].
    change (j_apply e m) with (apply_only e m). rewrite apply_only_fst. unfold apply_only. rewrite run_bind.
    rewrite (apply_event_action pm a e m Hp Hid) Hinv. split; [done|]. split; [done|].
    etransitivity; [exact Hr|apply released_after].
  - rewrite record_journal in Hrec, Hi'. cbn [fst snd] in Hrec, Hi'.
    enough (Hout : outcome op w (op_record op w).1 (op_record op w).2 /\
      (is_ok (op_record op w).2 = true -> known op (op_record op w).1)) by (destruct Hout; by split_and!).
    fold a in Hrec. unfold op_record. fold a.
    set (m := record pm (action_name a) (action_details a) (op_key op) w) in *.
    remember (m.1) as w' eqn:Ew. remember (match m.2 with Ok _ => Ok tt | Err x => Err x end) as r eqn:Er.
    destruct Hrec as [l x Hl Hx|l e r Hl He Hk Hr|l e Hl Hp Hk Hid Hno].
    + destruct m as [w1 [s|y]]; cbn [fst snd] in *; [done|]. injection Er as <-. subst w1. split; [|done]. apply out_err; [done|]. rewrite !elem_of_cons in Hx |- *. tauto.
    + by destruct Hn; exists e.
    + assert (Em : m = ((l, after_action a e w.2), Ok (_snapshot (after_action a e w.2)))).
      { destruct (after_action_ok k U v a e w.2 Hok Ha HU Hlt) as [_ Hinv].
        pose proof (apply_event_action pm a e w.2 Hp Hid) as Hap. rewrite Hinv in Hap.
        change (j_apply e w.2) with (apply_only e w.2) in Er, Ew. rewrite apply_only_fst Hap in Ew.
        unfold apply_only in Er. rewrite run_bind Hap in Er. cbn [fst snd] in Ew, Er.
        pose proof (record_snapshot (action_name a) (action_details a) (op_key op) w) as Hs. fold m in Hs.
        destruct m as [w1 [s|y]]; [|done]. cbn [fst snd] in Ew. subst w1. by rewrite (Hs s eq_refl). }
      rewrite Ew Em. cbn [fst snd]. split; [by apply out_done|]. intros _. exists e. cbn [fst]. rewrite Hl. split; [set_solver|done].
Qed.

Lemma run_op_outcome v op w : I v w -> op_ok k U op -> (v + volume (op_action op) + U < p10 (prec - k))%Q ->
  outcome op w (run_op op w).1 (run_op op w).2 /\ I (v + volume (op_action op)) (run_op op w).1 /\
  (is_ok (run_op op w).2 = true -> known op (run_op op w).1 \/ already_released op w.2 = true).
Proof.
  intros Hi Hop Hlt. pose proof (volume_nonneg (op_action op)) as Hv0.
  assert (Hiv : I (v + volume (op_action op)) w).
  { eapply jinv_weaken; [|exact Hi]. intros es m [Hm Hr]. split; [|done]. eapply portfolio_ok_volume; [done|lra]. }
  assert (Herr : forall x, x ∈ [ValueError; InsufficientFundsError; InsufficientMarginError; MalformedEventError; OSError; StructError] ->
    outcome op w w (Err x)) by (intros x Hx; destruct w as [l s]; by apply (out_err op (l, s) l)).
  rewrite run_op_eq. destruct (arg_ok op) eqn:Ha; cbn [negb].
  2:{ split_and!; [apply Herr; set_solver|done|done]. }
  destruct (already_released op w.2) eqn:Hrel; [split_and!; [by apply out_same|done|by right]|].
  destruct (known_dec op w) as [Hk|Hk].
  - rewrite (once_known v) //. split_and!; [by apply out_same|done|by left].
  - rewrite (once_fresh v) //. destruct (lacking op w.2) as [x|] eqn:Hl.
    + split_and!; [|done|done]. apply Herr. destruct op; cbn [lacking] in Hl; try done;
        case_match; simplify_eq; set_solver.
    + destruct (record_outcome v op w Hi (op_allowed _ _ _ _ Hop Ha Hl) Hk Hlt) as (Hout & Hi' & Hok). split_and!; [done|done|].
      intros E. left. by apply Hok.
Qed.
End operations.

(** ** Runs *)

(** What a repetition of a request repeats: the amount may differ. *)
Definition request (op : pf_op) : string * list string :=
  match op with
  | OpDeposit _ r => ("deposit", [r]) | OpWithdraw _ r => ("withdraw", [r])
  | OpReserve p _ r => ("reserve", [p; r]) | OpAllocate p _ r => ("allocate", [p; r])
  | OpRelease p r => ("release", [p; r])
  | OpRealized p l _ _ => ("realized", [p; l]) | OpFunding p f _ _ => ("funding", [p; f])
  | OpFee r f _ _ => ("fee", [r; f])
  | OpMarks _ _ _ r => ("marks", [r])
  end.

Lemma request_key op op' : request op = request op' ->
  op_key op = op_key op' /\ forall m, already_released op m = already_released op' m.
Proof. destruct op, op'; intros E; cbn in E; simplify_eq; done. Qed.

Section runs.
Context {L : Type} `{EventLog L} (pm : string) (k : Z) (U : Q).
Notation W := (L * PortfolioManager)%type.
Notation J := (portfolio_journal pm).
Notation I now rel es v := (jinv J (pf_empty now) (sound k U rel v) es).
Implicit Types (w : W) (v : Q).

Definition foreign (e : Event) : Prop := _is_own_event pm e = false /\ forall key, key_of e <> Some (_namespaced_key pm key).

(** One step and how much it may move. *)
Inductive pf_step : W -> Q -> W -> Prop :=
  | s_op op w : op_ok k U op -> pf_step w (volume (op_action op)) (run_op pm op w).1
  | s_other w l : log_ok l ->
      (log_events l = log_events w.1 \/ exists e, log_events l = log_events w.1 ++ [e] /\ foreign e) -> pf_step w 0 (l, w.2)
  | s_restart now w m : pf_init now w.1 pm = Ok m -> pf_step w 0 (w.1, m).

Inductive pf_run (w : W) : Q -> W -> Prop :=
  | run_refl : pf_run w 0 w
  | run_step v w1 q w2 : pf_run w v w1 -> pf_step w1 q w2 -> pf_run w (v + q) w2.

(** A manager built over a log that has no event of its name yet. *)
Record pf_start (now : string) (w : W) : Prop := {
  st_log : log_ok w.1;
  st_foreign : Forall foreign (log_events w.1);
  st_init : pf_init now w.1 pm = Ok w.2
}.

(** The largest total for which the sums are exact: 28 digits, [k] of them
    decimals. *)
Definition within (v : Q) : Prop := (0 <= U)%Q /\ (v + U < p10 (prec - k))%Q.

Lemma alike_empty now now' : alike (pf_empty now) (pf_empty now').
Proof. done. Qed.

Lemma pf_init_replay now w : log_ok w.1 -> blank pm = false -> _MAX_PM_ID_LENGTH <? slen pm = false ->
  pf_init now w.1 pm = match replay_all J (log_events w.1) (pf_empty now) with
                       | (m, Ok _) => Ok m | (_, Err e) => Err e end.
Proof.
  intros Hl Hb Hn. unfold pf_init. rewrite Hb Hn log_replay_events //. unfold replay_all.
  rewrite -(for_each_ext (replay_event pm) (replay_step J)) //.
  intros e m. unfold replay_event, replay_step. change (j_own e) with (_is_own_event pm e).
  destruct (_is_own_event pm e); [|done]. change (j_apply e) with (apply_only e). unfold apply_only.
  rewrite !run_bind. by destruct (_apply_event e m) as [m' [s|x]].
Qed.

(** What a restart builds is the rebuilt manager, up to the time of the last
    update. *)
Lemma init_alike now now' w m : log_ok w.1 -> blank pm = false -> _MAX_PM_ID_LENGTH <? slen pm = false ->
  rebuilds J (pf_empty now') (log_events w.1) m -> exists m', pf_init now w.1 pm = Ok m' /\ alike m' m.
Proof.
  intros Hl Hb Hn Hr. rewrite pf_init_replay //.
  assert (Hs : simulates alike (replay_all J (log_events w.1))).
  { apply simulates_for_each. intros e. unfold replay_step. apply simulates_if; [|apply simulates_ret].
    apply simulates_bind; [apply (j_apply_sim (Journaled := J))|]. intros u. apply simulates_ret. }
  destruct (Hs _ _ (alike_empty now now')) as [H1 H2]. rewrite (rb_replay _ _ _ _ Hr) in H1, H2.
  destruct (replay_all J _ (pf_empty now)) as [m' [u|x]]; [|done]. by exists m'.
Qed.

Lemma init_named now w m : pf_init now w.1 pm = Ok m -> blank pm = false /\ _MAX_PM_ID_LENGTH <? slen pm = false.
Proof. unfold pf_init. destruct (blank pm); [done|]. by destruct (_ <? _). Qed.

Lemma step_volume w q w' : pf_step w q w' -> (0 <= q)%Q.
Proof. intros []; [apply volume_nonneg|apply Qle_refl..]. Qed.

Lemma weaken_volume now rel es v v' w : I now rel es v w -> (v <= v')%Q -> I now rel es v' w.
Proof.
  intros Hi Hv. eapply jinv_weaken; [|exact Hi]. intros es' m [Hm Hr]. split; [|done]. by eapply portfolio_ok_volume.
Qed.

Lemma pf_step_keeps now rel es v w q w' : I now rel es v w -> pf_step w q w' -> within (v + q) -> I now rel es (v + q) w'.
Proof.
  intros Hi Hst [HU Hlt]. destruct Hst as [op w Hop|w l Hl He|now' w m Hm].
  - by destruct (run_op_outcome pm now k U rel es HU v op w Hi Hop Hlt) as (_ & Hi' & _).
  - apply (weaken_volume _ _ _ v); [|lra]. destruct He as [He|(e & He & Ho & Hk)]; [by apply (jinv_same J _ _ _ w)|].
    by apply (jinv_other J _ _ _ w l e).
  - apply (weaken_volume _ _ _ v); [|lra]. destruct Hi as [Hl (m' & Hr & Hs & Hok) Hg]. split; [done| |done].
    exists m'. split; [done|]. split; [|done]. destruct (init_named _ _ _ Hm) as [Hb Hn].
    destruct (init_alike now' now w m' Hl Hb Hn Hr) as (m2 & Hm2 & Ha). cbn [fst snd] in *. rewrite Hm2 in Hm. by injection Hm as <-.
Qed.

Lemma run_volume w v w' : pf_run w v w' -> (0 <= v)%Q.
Proof. induction 1 as [|v w1 q w2 _ IH Hs]; [apply Qle_refl|]. apply step_volume in Hs. lra. Qed.

Lemma pf_run_keeps now rel es u v w w' : I now rel es u w -> pf_run w v w' -> within (u + v) -> I now rel es (u + v) w'.
Proof.
  intros Hi Hr. induction Hr as [|v w1 q w2 Hr IH Hs]; intros [HU Hw].
  - apply (weaken_volume _ _ _ u); [done|lra].
  - pose proof (step_volume _ _ _ Hs) as Hq. assert (Hi1 : I now rel es (u + v) w1) by (apply IH; split; lra).
    apply (weaken_volume _ _ _ (u + v + q)); [|lra]. eapply pf_step_keeps; [done..|]. split; lra.
Qed.

Lemma pf_empty_ok now : (0 <= U)%Q -> portfolio_ok k U 0 (pf_empty now).
Proof.
  intros HU. assert (H0 : on_grid k (value d0)) by (rewrite value_d0; apply on_grid_0).
  assert (Hp : positions_ok k [] (value d0)) by (split; [constructor|constructor|by rewrite value_d0]).
  split; [|exact Hp..]. split; try exact H0; cbn [pf_empty pf_ledger pf_available_cash pf_reserved_margin pf_used_margin
    pf_unrealized_pnl pf_deposits_cumulative pf_withdrawals_cumulative pf_realized_pnl_cumulative pf_funding_cumulative pf_fees_cumulative].
  - pose proof value_d0. split_and!; try lra. exists 0%Q, 0%Q, 0%Q. split_and!; lra.
  - pose proof value_d0. split; lra.
Qed.

Lemma pf_rebuilds_foreign now es : Forall foreign es -> rebuilds J (pf_empty now) es (pf_empty now).
Proof.
  induction es as [|e es IH] using rev_ind; intros Hf.
  - split; cbn; done || set_solver.
  - apply Forall_app in Hf as [Hf [[He1 He2] _]%Forall_cons]. by apply rebuilds_other; [apply IH|..].
Qed.

Lemma pf_start_inv now w : (0 <= U)%Q -> pf_start now w -> I now ∅ [] 0 w.
Proof.
  intros HU [Hl Hf Hi]. destruct (init_named _ _ _ Hi) as [Hb Hn]. pose proof (pf_rebuilds_foreign now _ Hf) as Hr.
  split; [done| |by apply prefix_nil]. exists (pf_empty now). split; [done|]. split; [|split; [by apply pf_empty_ok|set_solver]].
  destruct (init_alike now now w _ Hl Hb Hn Hr) as (m & Hm & Ha). cbn. congruence.
Qed.

(** Taking the present as the reference. *)
Lemma pf_inv_now now rel es v w : I now rel es v w -> I now (pf_released w.2) (log_events w.1) v w.
Proof.
  intros [Hl (m & Hr & Hs & Hm & _) _]. split; [done| |done]. exists m. split_and!; try done. split; [done|].
  destruct (alike_set _ _ Hs) as [t ->]. done.
Qed.

Lemma pf_reach now v w0 w : within v -> pf_start now w0 -> pf_run w0 v w -> I now (pf_released w.2) (log_events w.1) v w.
Proof.
  intros [HU Hw] Hs Hr. eapply pf_inv_now, (weaken_volume _ _ _ (0 + v)); [|lra].
  eapply pf_run_keeps; [by apply pf_start_inv|done|]. split; [done|lra].
Qed.

(** C11: the two ledgers agree. After any run whose amounts are multiples of
    [10^-k] and whose volume, with the bound on the marks, stays below
    [10^(28-k)], what is held (cash and margins) is exactly what flowed in less
    what flowed out, the margins are never negative and are the sums of the
    positions' margins, and the check of assets against equity passes. *)
Theorem ledgers_balance now v w0 w : within v -> pf_start now w0 -> pf_run w0 v w ->
  let s := pf_ledger w.2 in
  (value (pf_available_cash s) + value (pf_reserved_margin s) + value (pf_used_margin s) ==
   value (pf_deposits_cumulative s) - value (pf_withdrawals_cumulative s) + value (pf_realized_pnl_cumulative s)
   + value (pf_funding_cumulative s) - value (pf_fees_cumulative s))%Q /\
  (0 <= value (pf_reserved_margin s))%Q /\ (psum (pf_reserved_by_position w.2) == value (pf_reserved_margin s))%Q /\
  (0 <= value (pf_used_margin s))%Q /\ (psum (pf_used_by_position w.2) == value (pf_used_margin s))%Q /\
  _assert_invariant (_snapshot w.2) = Ok tt /\
  (value (equity (_snapshot w.2)) == value (pf_available_cash s) + value (pf_reserved_margin s)
     + value (pf_used_margin s) + value (pf_unrealized_pnl s))%Q.
Proof.
  intros Hw Hs Hr. pose proof (pf_reach now v w0 w Hw Hs Hr) as Hi.
  destruct (inv_live _ _ _ _ _ _ _ _ Hi) as [[Hl Hres Hus] _]. destruct Hw as [HU Hlt].
  destruct (ledger_invariant k v U _ (snapshot_ledger_ok _ _ _ _ Hl) HU Hlt) as (Hinv & Ha & He).
  pose proof (ps_total _ _ _ Hres) as Ht1. pose proof (ps_total _ _ _ Hus) as Ht2.
  destruct Hl as [(Hb & Hr0 & Hu0 & _)]. split_and!; try done. by rewrite He Ha.
Qed.

(** C24: a failing operation changes nothing, and the accounting check never
    fails. Within the same bounds, an operation that raises leaves the manager
    and the log's events as they were, and what it raises is a refusal (a bad
    amount, missing funds or margin) or a failure of the log. *)
Theorem portfolio_failures_atomic now v w0 w op x : within (v + volume (op_action op)) -> pf_start now w0 ->
  pf_run w0 v w -> op_ok k U op -> (run_op pm op w).2 = Err x ->
  (run_op pm op w).1.2 = w.2 /\ log_events (run_op pm op w).1.1 = log_events w.1 /\
  x ∈ [ValueError; InsufficientFundsError; InsufficientMarginError; MalformedEventError; OSError; StructError].
Proof.
  intros [HU Hlt] Hs Hr Hop He. pose proof (volume_nonneg (op_action op)).
  assert (Hi : I now (pf_released w.2) (log_events w.1) v w) by (apply (pf_reach now v w0 w); [split; [done|lra]|done..]).
  destruct (run_op_outcome pm now k U _ _ HU v op w Hi Hop Hlt) as (Hout & _ & _).
  destruct Hout as [l y Hl Hy| |]; [|done..]. by injection He as <-.
Qed.

(** A restart rebuilds the ledger. Within the same bounds, constructing the
    manager from the log after any run succeeds, and the manager differs at most
    in the time of its last update. *)
Theorem restart_rebuilds_portfolio now now' v w0 w : within v -> pf_start now w0 -> pf_run w0 v w ->
  exists m, pf_init now' w.1 pm = Ok m /\ erase m = erase w.2.
Proof.
  intros Hw Hs Hr. destruct (pf_reach now v w0 w Hw Hs Hr) as [Hl (m & Hg & Ha & _) _].
  destruct (init_named _ _ _ (st_init _ _ Hs)) as [Hb Hn].
  destruct (init_alike now' now w m Hl Hb Hn Hg) as (m' & Hm' & Ha'). exists m'. split; [done|].
  rewrite (Ha' : erase m' = erase m). by symmetry.
Qed.

(** A request is applied once. Once an operation has succeeded, repeating
    the request after whatever follows, restarts included, returns the current
    snapshot and changes neither the manager nor the log, even if the amount is
    another. *)
Theorem request_applied_once now v v' w0 w w' op op' : within (v + volume (op_action op) + v') ->
  pf_start now w0 -> pf_run w0 v w -> op_ok k U op -> is_ok (run_op pm op w).2 = true ->
  pf_run (run_op pm op w).1 v' w' -> request op' = request op -> arg_ok op' = true ->
  run_op pm op' w' = (w', Ok (_snapshot w'.2)).
Proof.
  intros [HU Hlt] Hs Hr Hop Hok Hr' Hreq Harg. destruct (request_key _ _ Hreq) as [Hkey Hrel].
  pose proof (volume_nonneg (op_action op)). pose proof (run_volume _ _ _ Hr').
  assert (Hi : I now (pf_released w.2) (log_events w.1) v w) by (apply (pf_reach now v w0 w); [split; [done|lra]|done..]).
  destruct (run_op_outcome pm now k U _ _ HU v op w Hi Hop ltac:(lra)) as (_ & Hi1 & Hdone). specialize (Hdone Hok).
  pose proof (inv_live _ _ _ _ _ _ _ _ Hi1) as [_ Hrel1]. apply pf_inv_now in Hi1.
  pose proof (pf_run_keeps _ _ _ _ _ _ _ Hi1 Hr' ltac:(split; [done|lra])) as Hi2.
  pose proof (inv_live _ _ _ _ _ _ _ _ Hi2) as [_ Hrel2].
  rewrite run_op_eq Harg Hrel. cbn [negb]. destruct (already_released op w'.2) eqn:Ea; [done|].
  eapply once_known; [exact Hi2|]. rewrite Hkey. destruct Hdone as [(e & He & Hke)|Hd].
  - exists e. split; [|done]. eapply elem_of_prefix; [exact He|apply (ji_grows _ _ _ _ _ Hi2)].
  - destruct op; try done. cbn [already_released] in Hd, Ea. apply bool_decide_eq_true in Hd.
    apply bool_decide_eq_false in Ea. destruct Ea. by apply Hrel2, Hrel1.
Qed.
End runs.

(** ** Concrete runs *)

Definition pf_world : MemLog * PortfolioManager := (mem_empty, pf_empty "t0").
Definition world_funded := (run_op "pm" (OpDeposit (dint 1000) "r1") pf_world).1.
Definition world_reserved := (run_op "pm" (OpReserve "p" (dint 250) "r2") world_funded).1.

Lemma pf_sample_start : pf_start "pm" "t0" pf_world.
Proof. split; [apply mem_empty_ok|constructor|reflexivity]. Qed.

Lemma dint_grid n : on_grid 0 (value (dint n)).
Proof. by exists n. Qed.

Lemma pf_sample_runs : pf_run "pm" 0 1000 pf_world (0 + 1000)%Q world_funded /\
  pf_run "pm" 0 1000 pf_world (0 + 1000 + 250)%Q world_reserved.
Proof.
  assert (H1 : pf_run "pm" 0 1000 pf_world (0 + 1000)%Q world_funded).
  { eapply run_step; [apply run_refl|]. apply (s_op "pm" 0 1000 (OpDeposit (dint 1000) "r1")), dint_grid. }
  split; [done|]. eapply run_step; [done|]. apply (s_op "pm" 0 1000 (OpReserve "p" (dint 250) "r2")), dint_grid.
Qed.

Lemma ledgers_balance_witness :
  let s := pf_ledger world_reserved.2 in
  (value (pf_available_cash s) + value (pf_reserved_margin s) + value (pf_used_margin s) ==
   value (pf_deposits_cumulative s) - value (pf_withdrawals_cumulative s) + value (pf_realized_pnl_cumulative s)
   + value (pf_funding_cumulative s) - value (pf_fees_cumulative s))%Q /\
  (0 <= value (pf_reserved_margin s))%Q /\ (psum (pf_reserved_by_position world_reserved.2) == value (pf_reserved_margin s))%Q /\
  (0 <= value (pf_used_margin s))%Q /\ (psum (pf_used_by_position world_reserved.2) == value (pf_used_margin s))%Q /\
  _assert_invariant (_snapshot world_reserved.2) = Ok tt /\
  (value (equity (_snapshot world_reserved.2)) == value (pf_available_cash s) + value (pf_reserved_margin s)
     + value (pf_used_margin s) + value (pf_unrealized_pnl s))%Q.
Proof.
  refine (ledgers_balance "pm" 0 1000 "t0" _ _ _ _ pf_sample_start (proj2 pf_sample_runs)). by split.
Defined.

Lemma portfolio_failures_atomic_witness :
  (run_op "pm" (OpWithdraw (dint 5000) "r3") world_reserved).1.2 = world_reserved.2 /\
  log_events (run_op "pm" (OpWithdraw (dint 5000) "r3") world_reserved).1.1 = log_events world_reserved.1 /\
  InsufficientFundsError ∈ [ValueError; InsufficientFundsError; InsufficientMarginError; MalformedEventError; OSError; StructError].
Proof.
  refine (portfolio_failures_atomic "pm" 0 1000 "t0" _ _ _ (OpWithdraw (dint 5000) "r3") _ _ pf_sample_start (proj2 pf_sample_runs) _ _).
  - by split.
  - apply dint_grid.
  - vm_compute. reflexivity.
Defined.

Lemma restart_rebuilds_portfolio_witness :
  exists m, pf_init "t9" world_reserved.1 "pm" = Ok m /\ erase m = erase world_reserved.2.
Proof. refine (restart_rebuilds_portfolio "pm" 0 1000 "t0" "t9" _ _ _ _ pf_sample_start (proj2 pf_sample_runs)). by split. Defined.

Lemma request_applied_once_witness :
  run_op "pm" (OpReserve "p" (dint 999) "r2") world_reserved = (world_reserved, Ok (_snapshot world_reserved.2)).
Proof.
  refine (request_applied_once "pm" 0 1000 "t0" _ 0 _ _ _ (OpReserve "p" (dint 250) "r2") (OpReserve "p" (dint 999) "r2")
    _ pf_sample_start (proj1 pf_sample_runs) _ _ _ _ _).
  - by split.
  - apply dint_grid.
  - vm_compute. reflexivity.
  - apply run_refl.
  - reflexivity.
  - reflexivity.
Defined.

(** ** Beyond 28 digits *)

(** A third of ten, to 28 digits: what a division returns. *)
Definition third : decimal := Dec 3333333333333333333333333333 (-28).

Definition world_fees : MemLog * PortfolioManager :=
  (run_op "pm" (OpFee "o" "f1" third "r2") (run_op "pm" (OpDeposit (dint 10) "r1") pf_world).1).1.

(** Rounding makes the ledgers disagree for good. Sums are rounded to 28
    digits, and the two sides of the check round differently: after a deposit of
    10 a second fee of 0.333... (28 digits) is logged and then raises the
    accounting error, although nothing is corrupt; the event stays in the log,
    and constructing the manager from that log raises the same error. *)
Theorem rounding_bricks_portfolio :
  let r := run_op "pm" (OpFee "o" "f2" third "r3") world_fees in
  r.2 = Err AccountingInvariantError /\
  length (log_events r.1.1) = S (length (log_events world_fees.1)) /\
  pf_init "t1" r.1.1 "pm" = Err AccountingInvariantError.
Proof. vm_compute. split_and!; reflexivity. Qed.
