(* ===== verification/Quantization.v ===== *)
(** * Venue order quantization (src/trading_system/execution/quantization.py)

    Size rounds towards zero to the asset's decimals; price rounds to five
    significant figures and the allowed decimals, down for a buy and up for a
    sell. *)

From Stdlib Require Import ssreflect ZArith Lia Ascii String QArith Qpower Lqa.
From stdpp Require Import base strings numbers gmap sets list.
From S2P Require Import Prelude PyText PyDict PyDecimal PyDecimalFacts ExchangeModels.
#[local] Open Scope Z_scope.

Definition PRICE_SIG_FIGS : Z := 5.
Definition PRICE_MAX_DECIMALS : Z := 6.

Record SymbolRules := { sz_decimals : Z }.
Definition mk_SymbolRules (n : Z) : result SymbolRules :=
  if (0 <=? n) && (n <=? PRICE_MAX_DECIMALS) then Ok {| sz_decimals := n |} else Err ExecutionError.
Definition max_price_decimals (r : SymbolRules) : Z := PRICE_MAX_DECIMALS - sz_decimals r.

(** A dict from the symbol's name. *)
Definition QuantizationRules : Type := list (string * SymbolRules).

Definition quantize_size (quantity : decimal) (rules : SymbolRules) : result decimal :=
  quantize ROUND_DOWN quantity (- sz_decimals rules).

Definition price_exponent (price : decimal) (rules : SymbolRules) : Z :=
  let sig_exponent := adjusted price - (PRICE_SIG_FIGS - 1) in
  let exponent := Z.max sig_exponent (- max_price_decimals rules) in
  if 0 <? exponent then 0 else exponent.

Definition quantize_price (price : decimal) (side : OrderSide) (rules : SymbolRules) : result decimal :=
  if deqb price (to_integral_value price) then Ok (to_integral_value price)
  else
    let mode := if bool_decide (side = OrderSide.BUY) then ROUND_FLOOR else ROUND_CEILING in
    quantize mode price (price_exponent price rules).

Example quantize_ex :
  map (fun p => dec_str <$> match quantize_price p OrderSide.BUY {| sz_decimals := 2 |} with Ok d => Some d | _ => None end)
    [Dec 1234567 (-2); Dec 1234567 (-4); Dec 1234567 (-6); Dec 12 (-1); Dec 1234567 1]
  = [Some "12345"; Some "123.45"; Some "1.2345"; Some "1.2000"; Some "1.234567E+7"].
Proof. vm_compute. reflexivity. Qed.

(** ** Rounding never hurts *)

(** What the venue accepts: a whole number, or at most five significant figures
    and the allowed decimals. *)
Definition venue_price (rules : SymbolRules) (q : Q) : Prop :=
  exists c e, (q == inject_Z c * p10 e)%Q /\ - max_price_decimals rules <= e <= 0 /\ (e = 0 \/ Z.abs c <= 10 ^ PRICE_SIG_FIGS).

Lemma quantize_grid r d e q : quantize r d e = Ok q -> (value q == inject_Z (dcoef q) * p10 e)%Q.
Proof. intros H. apply quantize_Ok in H as [He _]. by rewrite /value He. Qed.

Lemma adjusted_value d : (0 < value d)%Q -> (value d < p10 (adjusted d + 1))%Q.
Proof.
  intros Hd. apply value_pos in Hd. unfold adjusted. replace (dexp d + ndigits (dcoef d) - 1 + 1) with (dexp d + ndigits (dcoef d)) by lia.
  pose proof (ndigits_ge1 (dcoef d)). rewrite p10_split; [lia|]. apply inject_p10_lt. destruct (ndigits_bounds (dcoef d)); lia.
Qed.

(** A number below [10^(e+5)], rounded up or down to a multiple of [10^e], has
    at most five significant figures. *)
Lemma rounded_figures d q e : (0 < value d)%Q -> adjusted d - 4 <= e ->
  (0 <= value q)%Q -> (value q < value d + p10 e)%Q -> (value q == inject_Z (dcoef q) * p10 e)%Q ->
  Z.abs (dcoef q) <= 10 ^ 5.
Proof.
  intros Hd He H0 Hq Hg. pose proof (adjusted_value d Hd) as Ha.
  assert (Hp : (p10 (adjusted d + 1) <= inject_Z (10 ^ 5) * p10 e)%Q).
  { rewrite -p10_split; [lia|]. rewrite (p10_up (e + 5) (adjusted d + 1)); [lia|].
    rewrite -{1}(Qmult_1_l (p10 (adjusted d + 1))). apply (inject_p10_le 1).
    pose proof (pow10_pos (e + 5 - (adjusted d + 1))). lia. }
  assert (Hlt : (inject_Z (dcoef q) * p10 e < inject_Z (10 ^ 5 + 1) * p10 e)%Q).
  { rewrite -Hg inject_Z_plus Qmult_plus_distr_l Qmult_1_l. lra. }
  apply Qmult_lt_r in Hlt; [|apply p10_pos]. rewrite -Zlt_Qlt in Hlt.
  assert (0 <= dcoef q); [|lia]. apply value_nonneg. exact H0.
Qed.

Lemma integral_legal rules d : sz_decimals rules <= 6 -> venue_price rules (value (to_integral_value d)).
Proof.
  intros Hs. unfold to_integral_value. destruct (Z.leb_spec 0 (dexp d)) as [H|H].
  - exists (dcoef d * 10 ^ dexp d), 0. unfold max_price_decimals, PRICE_MAX_DECIMALS. split; [|lia].
    by rewrite /value inject_Z_mult -(p10_Z _ H) Qmult_1_r.
  - exists (dcoef (rescale ROUND_HALF_EVEN d 0)), 0. unfold max_price_decimals, PRICE_MAX_DECIMALS. split; [|lia].
    by rewrite {1}/value dexp_rescale.
Qed.

Lemma quantize_size_spec rules quantity q : (0 <= value quantity)%Q -> quantize_size quantity rules = Ok q ->
  (0 <= value q /\ value q <= value quantity /\ value quantity < value q + p10 (- sz_decimals rules))%Q /\
  on_grid (sz_decimals rules) (value q).
Proof.
  intros H0 Hq. pose proof (quantize_grid _ _ _ _ Hq) as Hgrid. apply quantize_Ok in Hq as [_ Eq].
  destruct (rescale_down quantity (- sz_decimals rules)) as [[H1 H2] H3]; [done|].
  split; [rewrite Eq; lra|]. by exists (dcoef q).
Qed.

(** Not worse for the side that trades, by less than a tick. *)
Definition no_worse (side : OrderSide) (price p : decimal) (tick : Q) : Prop :=
  match side with
  | OrderSide.BUY => value p <= value price /\ value price < value p + tick
  | OrderSide.SELL => value price <= value p /\ value p < value price + tick
  end%Q.

Lemma quantize_price_spec rules price side p : 0 <= sz_decimals rules <= 6 -> (0 < value price)%Q ->
  quantize_price price side rules = Ok p ->
  no_worse side price p (p10 (price_exponent price rules)) /\ venue_price rules (value p).
Proof.
  intros Hsz Hp0. pose proof (p10_pos (price_exponent price rules)) as Ht. unfold quantize_price.
  destruct (deqb price _) eqn:Eint.
  { intros [= <-]. apply deqb_spec in Eint. split; [destruct side; split; lra|]. apply integral_legal; lia. }
  intros Hp. pose proof (quantize_grid _ _ _ _ Hp) as Hg. apply quantize_Ok in Hp as [_ Ep].
  set (e := price_exponent price rules) in *.
  assert (He : - max_price_decimals rules <= e <= 0 /\ (e = 0 \/ adjusted price - 4 <= e)).
  { unfold e, price_exponent, max_price_decimals, PRICE_MAX_DECIMALS, PRICE_SIG_FIGS.
    destruct (Z.ltb_spec 0 (Z.max (adjusted price - (5 - 1)) (- (6 - sz_decimals rules)))); lia. }
  destruct He as [He1 He2].
  assert (Hfig : (0 <= value p)%Q -> (value p < value price + p10 e)%Q -> venue_price rules (value p)).
  { intros Hnn Hlt. exists (dcoef p), e. split_and!; [done|lia|lia|]. destruct He2 as [|He2]; [by left|right].
    by apply (rounded_figures price p e). }
  destruct side; cbn [bool_decide] in Ep.
  - destruct (rescale_floor price e) as [H4 H5]. rewrite -Ep in H4, H5. split; [by split|]. apply Hfig; [|lra].
    apply value_nonneg. assert (Hlt : (inject_Z 0 * p10 e < inject_Z (dcoef p + 1) * p10 e)%Q).
    { rewrite inject_Z_plus Qmult_plus_distr_l Qmult_0_l Qmult_1_l -Hg. lra. }
    apply Qmult_lt_r in Hlt; [|apply p10_pos]. rewrite -Zlt_Qlt in Hlt. lia.
  - destruct (rescale_ceiling price e) as [H4 H5]. rewrite -Ep in H4, H5. split; [by split|]. apply Hfig; lra.
Qed.

(** C28: quantization never makes an order worse, and makes it legal. A size
    rounds to a multiple of [10^-szDecimals], not above the approved size and
    less than a unit below it; a buy's price is not raised and a sell's not
    lowered, each by less than a tick, and the price is a whole number or has at
    most five significant figures and [6 - szDecimals] decimals. *)
Theorem quantization_never_worse rules quantity price side q p :
  0 <= sz_decimals rules <= 6 -> (0 < value quantity)%Q -> (0 < value price)%Q ->
  quantize_size quantity rules = Ok q -> quantize_price price side rules = Ok p ->
  (0 <= value q /\ value q <= value quantity /\ value quantity < value q + p10 (- sz_decimals rules))%Q /\
  on_grid (sz_decimals rules) (value q) /\
  no_worse side price p (p10 (price_exponent price rules)) /\ venue_price rules (value p).
Proof.
  intros Hsz Hq0 Hp0 Hq Hp. destruct (quantize_size_spec _ _ _ (Qlt_le_weak _ _ Hq0) Hq) as [H1 H2].
  destruct (quantize_price_spec _ _ _ _ Hsz Hp0 Hp) as [H3 H4]. split; [exact H1|]. by split.
Qed.

Lemma quantization_never_worse_witness :
  (0 <= value (Dec 19417 (-2)) /\ value (Dec 19417 (-2)) <= value (Dec 1941747 (-4)) /\
   value (Dec 1941747 (-4)) < value (Dec 19417 (-2)) + p10 (-2))%Q /\
  on_grid 2 (value (Dec 19417 (-2))) /\
  no_worse OrderSide.SELL (Dec 1234567 (-4)) (Dec 12346 (-2)) (p10 (price_exponent (Dec 1234567 (-4)) {| sz_decimals := 2 |})) /\
  venue_price {| sz_decimals := 2 |} (value (Dec 12346 (-2))).
Proof.
  apply (quantization_never_worse {| sz_decimals := 2 |} (Dec 1941747 (-4)) (Dec 1234567 (-4)) OrderSide.SELL);
    first [split; intros E; discriminate E | vm_compute; reflexivity].
Defined.
