(* ===== verification/RiskManager.v ===== *)
(** * The risk manager (src/risk_manager/models.py, manager.py)

    The models with the checks of their constructors, and [evaluate]. Parsing an
    ISO 8601 date is the standard library's: it is an argument, from a string to
    microseconds and the offset from UTC if the string gives one. *)

From Stdlib Require Import ssreflect ZArith Lia Ascii String QArith.
From stdpp Require Import base strings numbers gmap sets list.
From S2P Require Import Prelude PyText PyDict PyJson PyDecimal PyFloat.
From S2P Require Import ExecStateMachine ExchangeModels PositionStates PortfolioManager.
#[local] Open Scope Z_scope.

(** ** models.py *)

Definition CORRELATION_THRESHOLD : decimal := Dec 5 (-1).

Module Decision.
Inductive Decision :=
  | APPROVED | REJECTED | BLOCKED | FAIL_SAFE.
#[global] Instance Decision_eq_dec : EqDecision Decision.
Proof. solve_decision. Defined.

Definition value (x : Decision) : string :=
  match x with
  | APPROVED => "APPROVED" | REJECTED => "REJECTED" | BLOCKED => "BLOCKED" | FAIL_SAFE =>
  "FAIL_SAFE"
  end.

#[global] Program Instance Decision_enum : PyEnum Decision := {
  enum_all := [APPROVED; REJECTED; BLOCKED; FAIL_SAFE];
  enum_value := value
}.
Solve Obligations with solve_enum.
End Decision.
Notation Decision := Decision.Decision.

Module ReasonCode.
Inductive ReasonCode :=
  | OK | KILL_SWITCH_SOFT | KILL_SWITCH_HARD | KILL_SWITCH_EMERGENCY | ENGINE_STOPPED |
  RISK_PER_TRADE_EXCEEDED | PORTFOLIO_HEAT_EXCEEDED | MAX_POSITIONS_EXCEEDED |
  INSUFFICIENT_MARGIN | LEVERAGE_EXCEEDED | LIQUIDATION_TOO_CLOSE | FUNDING_RATE_TOO_HIGH
  | CORRELATION_LIMIT_EXCEEDED | EXCHANGE_CAPABILITY_UNSUPPORTED | NON_POSITIVE_EQUITY |
  MISSING_REQUIRED_DATA | STALE_DATA.
#[global] Instance ReasonCode_eq_dec : EqDecision ReasonCode.
Proof. solve_decision. Defined.

Definition value (x : ReasonCode) : string :=
  match x with
  | OK => "OK" | KILL_SWITCH_SOFT => "KILL_SWITCH_SOFT" | KILL_SWITCH_HARD =>
  "KILL_SWITCH_HARD" | KILL_SWITCH_EMERGENCY => "KILL_SWITCH_EMERGENCY" | ENGINE_STOPPED
  => "ENGINE_STOPPED" | RISK_PER_TRADE_EXCEEDED => "RISK_PER_TRADE_EXCEEDED" |
  PORTFOLIO_HEAT_EXCEEDED => "PORTFOLIO_HEAT_EXCEEDED" | MAX_POSITIONS_EXCEEDED =>
  "MAX_POSITIONS_EXCEEDED" | INSUFFICIENT_MARGIN => "INSUFFICIENT_MARGIN" |
  LEVERAGE_EXCEEDED => "LEVERAGE_EXCEEDED" | LIQUIDATION_TOO_CLOSE =>
  "LIQUIDATION_TOO_CLOSE" | FUNDING_RATE_TOO_HIGH => "FUNDING_RATE_TOO_HIGH" |
  CORRELATION_LIMIT_EXCEEDED => "CORRELATION_LIMIT_EXCEEDED" |
  EXCHANGE_CAPABILITY_UNSUPPORTED => "EXCHANGE_CAPABILITY_UNSUPPORTED" |
  NON_POSITIVE_EQUITY => "NON_POSITIVE_EQUITY" | MISSING_REQUIRED_DATA =>
  "MISSING_REQUIRED_DATA" | STALE_DATA => "STALE_DATA"
  end.

#[global] Program Instance ReasonCode_enum : PyEnum ReasonCode := {
  enum_all := [OK; KILL_SWITCH_SOFT; KILL_SWITCH_HARD; KILL_SWITCH_EMERGENCY;
  ENGINE_STOPPED; RISK_PER_TRADE_EXCEEDED; PORTFOLIO_HEAT_EXCEEDED;
  MAX_POSITIONS_EXCEEDED; INSUFFICIENT_MARGIN; LEVERAGE_EXCEEDED; LIQUIDATION_TOO_CLOSE;
  FUNDING_RATE_TOO_HIGH; CORRELATION_LIMIT_EXCEEDED; EXCHANGE_CAPABILITY_UNSUPPORTED;
  NON_POSITIVE_EQUITY; MISSING_REQUIRED_DATA; STALE_DATA];
  enum_value := value
}.
Solve Obligations with solve_enum.
End ReasonCode.
Notation ReasonCode := ReasonCode.ReasonCode.

(** config/schema.py *)
Record RiskProfileParams := {
  rp_risk_pct_per_trade : float;
  rp_max_positions : Z;
  rp_sizing_mode : string;
  rp_heat_cap : float;
  rp_ruin_threshold : float
}.

Record TradeRequest := {
  tr_symbol : Symbol;
  tr_side : OrderSide;
  tr_order_type : OrderType;
  tr_time_in_force : TimeInForce;
  tr_reduce_only : bool;
  tr_quantity : decimal;
  tr_entry_price : decimal;
  tr_stop_price : decimal;
  tr_proposed_risk_amount : decimal;
  tr_proposed_notional : decimal;
  tr_proposed_margin_required : decimal;
  tr_leverage : decimal;
  tr_estimated_liquidation_price : option decimal
}.

(** [__post_init__], on arguments of the right types. *)
Definition mk_TradeRequest (r : TradeRequest) : result TradeRequest :=
  if existsb (fun v => dleb v d0) [tr_quantity r; tr_entry_price r; tr_stop_price r; tr_proposed_notional r;
       tr_proposed_margin_required r; tr_leverage r] then Err RiskManagerConfigurationError
  else if dleb (tr_proposed_risk_amount r) d0 then Err RiskManagerConfigurationError
  else Ok r.

Record FundingInfo := { fi_symbol : Symbol; fi_funding_rate : decimal; fi_as_of_utc : string }.

Record CorrelationEntry := { ce_symbol : Symbol; ce_correlation : decimal }.
Definition mk_CorrelationEntry (symbol : Symbol) (correlation : decimal) : result CorrelationEntry :=
  if negb (dleb (dint (-1)) correlation && dleb correlation d1) then Err RiskManagerConfigurationError
  else Ok {| ce_symbol := symbol; ce_correlation := correlation |}.

Record CorrelationInfo := { ci_entries : list CorrelationEntry; ci_as_of_utc : string }.

Record RiskManagerLimits := {
  max_leverage : decimal;
  min_liquidation_buffer_pct : decimal;
  max_funding_rate_abs : decimal;
  max_correlated_positions : Z;
  max_stale_data_seconds : Z
}.
Definition mk_RiskManagerLimits (l : RiskManagerLimits) : result RiskManagerLimits :=
  if dleb (max_leverage l) d0 then Err RiskManagerConfigurationError
  else if negb (dleb d0 (min_liquidation_buffer_pct l)) then Err RiskManagerConfigurationError
  else if dltb (max_funding_rate_abs l) d0 then Err RiskManagerConfigurationError
  else if max_correlated_positions l <? 0 then Err RiskManagerConfigurationError
  else if max_stale_data_seconds l <=? 0 then Err RiskManagerConfigurationError
  else Ok l.

Record RiskDecision := {
  rd_decision : Decision;
  rd_reason_codes : list ReasonCode;
  rd_violated_limits : list string;
  rd_calculated_exposure : option decimal;
  rd_calculated_heat : option decimal;
  rd_leverage : option decimal;
  rd_liquidation_buffer : option decimal;
  rd_funding_estimate : option decimal;
  rd_timestamp_utc : string;
  rd_audit_metadata : list (string * json)
}.

(** ** manager.py *)

Definition _BLOCKING_STATES (s : State) : option ReasonCode :=
  match s with
  | State.SOFT_KILL => Some ReasonCode.KILL_SWITCH_SOFT
  | State.HARD_KILL => Some ReasonCode.KILL_SWITCH_HARD
  | State.EMERGENCY_KILL => Some ReasonCode.KILL_SWITCH_EMERGENCY
  | State.STOPPED => Some ReasonCode.ENGINE_STOPPED
  | _ => None
  end.

(** A violation: its code and its text. The two lists of the code grow together. *)
Definition violation : Type := ReasonCode * string.
Definition check (violated : bool) (code : ReasonCode) (text : string) : list violation :=
  if violated then [(code, text)] else [].

Definition _timestamps_to_check (portfolio_snapshot : option PortfolioSnapshot)
    (open_positions : option (list PositionSnapshot)) (funding_info : option FundingInfo)
    (correlation_info : option CorrelationInfo) : list (string * json) :=
  match portfolio_snapshot with Some p => [("portfolio_snapshot", pf_updated_at_utc p)] | None => [] end ++
  match open_positions with
  | Some ps => map (fun pos => ("position:" +:+ ps_position_id pos, ps_updated_at_utc pos)) ps
  | None => []
  end ++
  match funding_info with Some f => [("funding_info", JStr (fi_as_of_utc f))] | None => [] end ++
  match correlation_info with Some c => [("correlation_info", JStr (ci_as_of_utc c))] | None => [] end.

Definition _liquidation_buffer (trade_request : TradeRequest) : option decimal :=
  match tr_estimated_liquidation_price trade_request with
  | None => None
  | Some liq =>
      if String.eqb (OrderSide.value (tr_side trade_request)) "BUY" then Some (dsub (tr_stop_price trade_request) liq)
      else Some (dsub liq (tr_stop_price trade_request))
  end.

Definition _capability_violation (r : TradeRequest) (capabilities : ExchangeCapabilities) : option string :=
  if bool_decide (tr_order_type r = OrderType.MARKET) && negb (supports_market_orders capabilities)
  then Some "order_type:MARKET not supported"
  else if bool_decide (tr_order_type r = OrderType.LIMIT) && negb (supports_limit_orders capabilities)
  then Some "order_type:LIMIT not supported"
  else if tr_reduce_only r && negb (supports_reduce_only capabilities)
  then Some "reduce_only not supported"
  else if bool_decide (tr_time_in_force r = TimeInForce.IOC) && negb (supports_ioc capabilities)
  then Some "time_in_force:IOC not supported"
  else if bool_decide (tr_time_in_force r = TimeInForce.FOK) && negb (supports_fok capabilities)
  then Some "time_in_force:FOK not supported"
  else if bool_decide (tr_time_in_force r = TimeInForce.POST_ONLY) && negb (supports_post_only capabilities)
  then Some "time_in_force:POST_ONLY not supported"
  else None.

(** The data [evaluate] is given, each of which may be missing. *)
Record RiskInputs := {
  in_kill_switch_state : option State;
  in_portfolio_snapshot : option PortfolioSnapshot;
  in_open_positions : option (list PositionSnapshot);
  in_capabilities : option ExchangeCapabilities;
  in_funding_info : option FundingInfo;
  in_correlation_info : option CorrelationInfo
}.

Definition missing_data (r : TradeRequest) (i : RiskInputs) : list violation :=
  let missing {A} (x : option A) text :=
    check (match x with None => true | Some _ => false end) ReasonCode.MISSING_REQUIRED_DATA text in
  missing (in_kill_switch_state i) "kill_switch_state:missing" ++
  missing (in_portfolio_snapshot i) "portfolio_snapshot:missing" ++
  missing (in_open_positions i) "open_positions:missing" ++
  missing (in_capabilities i) "capabilities:missing" ++
  missing (in_funding_info i) "funding_info:missing" ++
  missing (in_correlation_info i) "correlation_info:missing" ++
  missing (tr_estimated_liquidation_price r) "trade_request.estimated_liquidation_price:missing".

Section manager.
(** [datetime.fromisoformat]: microseconds, and the offset from UTC. *)
Context (fromisoformat : string -> result (Z * option Z)).

Definition _parse_utc (value : json) : result Z :=
  s ← of_option TypeError (as_str value);
  dt ← fromisoformat s;
  Ok (match dt.2 with Some offset => dt.1 - offset | None => dt.1 end).

(** [timedelta.total_seconds()] divides the microseconds by a million. *)
Definition _age_seconds (evaluated_at_utc : string) (data_at_utc : json) : result float :=
  now ← _parse_utc (JStr evaluated_at_utc);
  at_ ← _parse_utc data_at_utc;
  Ok (true_div (now - at_) (10 ^ 6)).

Fixpoint stale_data (limits : RiskManagerLimits) (evaluated_at_utc : string) (pairs : list (string * json))
    : result (list violation) :=
  match pairs with
  | [] => Ok []
  | (label, ts) :: pairs =>
      age ← _age_seconds evaluated_at_utc ts;
      rest ← stale_data limits evaluated_at_utc pairs;
      Ok (check (fltb_int age 0 || negb (fleb_int age (max_stale_data_seconds limits))) ReasonCode.STALE_DATA
            (label +:+ ":stale(age=" +:+ float_repr age +:+ "s)") ++ rest)
  end.

Definition non_positive_equity (p : option PortfolioSnapshot) : list violation :=
  match p with
  | Some p => check (dleb (equity p) d0) ReasonCode.NON_POSITIVE_EQUITY "portfolio_snapshot.equity:non_positive"
  | None => []
  end.

(** The figures the business rules compare. *)
Definition heat_contribution (r : TradeRequest) (p : PortfolioSnapshot) : result decimal :=
  ddiv (tr_proposed_risk_amount r) (equity p).
Definition min_required_buffer (limits : RiskManagerLimits) (r : TradeRequest) : decimal :=
  dmul (min_liquidation_buffer_pct limits) (dabs (dsub (tr_entry_price r) (tr_stop_price r))).
Definition funding_cost_rate (r : TradeRequest) (f : FundingInfo) : decimal :=
  if String.eqb (OrderSide.value (tr_side r)) "BUY" then fi_funding_rate f else dneg (fi_funding_rate f).
Definition correlated_count (c : CorrelationInfo) : Z :=
  Z.of_nat (length (List.filter (fun e => dleb CORRELATION_THRESHOLD (dabs (ce_correlation e))) (ci_entries c))).

Definition gt (a b : string) : string := a +:+ " > " +:+ b.

Definition business_rules (limits : RiskManagerLimits) (r : TradeRequest) (rp : RiskProfileParams) (p : PortfolioSnapshot)
    (positions : list PositionSnapshot) (caps : ExchangeCapabilities) (f : FundingInfo) (c : CorrelationInfo)
    (heat : decimal) : list violation :=
  let calculated_heat := dadd (pf_heat p) heat in
  let n := Z.of_nat (length positions) in
  let buffer := _liquidation_buffer r in
  let cost := funding_cost_rate r f in
  check (fltb_dec (rp_risk_pct_per_trade rp) heat) ReasonCode.RISK_PER_TRADE_EXCEEDED
    ("risk_pct_per_trade: " +:+ gt (dec_str heat) (float_repr (rp_risk_pct_per_trade rp))) ++
  check (fltb_dec (rp_heat_cap rp) calculated_heat) ReasonCode.PORTFOLIO_HEAT_EXCEEDED
    ("heat_cap: " +:+ gt (dec_str calculated_heat) (float_repr (rp_heat_cap rp))) ++
  check (rp_max_positions rp <=? n) ReasonCode.MAX_POSITIONS_EXCEEDED
    ("max_positions: " +:+ int_str n +:+ " >= " +:+ int_str (rp_max_positions rp)) ++
  check (dltb (pf_available_cash p) (tr_proposed_margin_required r)) ReasonCode.INSUFFICIENT_MARGIN
    ("available_cash: " +:+ gt (dec_str (tr_proposed_margin_required r)) (dec_str (pf_available_cash p))) ++
  check (dltb (max_leverage limits) (tr_leverage r)) ReasonCode.LEVERAGE_EXCEEDED
    ("max_leverage: " +:+ gt (dec_str (tr_leverage r)) (dec_str (max_leverage limits))) ++
  check (match buffer with None => true | Some b => dltb b (min_required_buffer limits r) end)
    ReasonCode.LIQUIDATION_TOO_CLOSE
    ("liquidation_buffer: " +:+ match buffer with Some b => dec_str b | None => "None" end +:+ " < "
       +:+ dec_str (min_required_buffer limits r)) ++
  check (dltb (max_funding_rate_abs limits) cost) ReasonCode.FUNDING_RATE_TOO_HIGH
    ("max_funding_rate_abs: " +:+ gt (dec_str cost) (dec_str (max_funding_rate_abs limits))) ++
  check (max_correlated_positions limits <? correlated_count c) ReasonCode.CORRELATION_LIMIT_EXCEEDED
    ("max_correlated_positions: " +:+ gt (int_str (correlated_count c)) (int_str (max_correlated_positions limits))) ++
  match _capability_violation r caps with
  | Some text => [(ReasonCode.EXCHANGE_CAPABILITY_UNSUPPORTED, text)]
  | None => []
  end.

Definition _decision (d : Decision) (violations : list violation) (at_ : string) (exposure heat leverage buffer funding : option decimal)
    (audit : list (string * json)) : RiskDecision :=
  {| rd_decision := d; rd_reason_codes := map fst violations; rd_violated_limits := map snd violations;
     rd_calculated_exposure := exposure; rd_calculated_heat := heat; rd_leverage := leverage;
     rd_liquidation_buffer := buffer; rd_funding_estimate := funding; rd_timestamp_utc := at_;
     rd_audit_metadata := audit |}.

(** The approval has a code and no violated limit. *)
Definition approve (d : RiskDecision) : RiskDecision :=
  {| rd_decision := Decision.APPROVED; rd_reason_codes := [ReasonCode.OK]; rd_violated_limits := [];
     rd_calculated_exposure := rd_calculated_exposure d; rd_calculated_heat := rd_calculated_heat d;
     rd_leverage := rd_leverage d; rd_liquidation_buffer := rd_liquidation_buffer d;
     rd_funding_estimate := rd_funding_estimate d; rd_timestamp_utc := rd_timestamp_utc d;
     rd_audit_metadata := [("stage", JStr "approved")] |}.

(** The rules, once every input is there. *)
Definition judge (limits : RiskManagerLimits) (r : TradeRequest) (rp : RiskProfileParams) (at_ : string)
    (p : PortfolioSnapshot) (positions : list PositionSnapshot) (caps : ExchangeCapabilities) (f : FundingInfo)
    (c : CorrelationInfo) : result RiskDecision :=
  heat ← heat_contribution r p;
  let violations := business_rules limits r rp p positions caps f c heat in
  let d := _decision Decision.REJECTED violations at_
    (Some (dadd (pf_exposure p) (tr_proposed_notional r))) (Some (dadd (pf_heat p) heat)) (Some (tr_leverage r))
    (_liquidation_buffer r) (Some (dmul (funding_cost_rate r f) (tr_proposed_notional r)))
    [("stage", JStr "business_rules")] in
  Ok (match violations with [] => approve d | _ => d end).

Definition evaluate (limits : RiskManagerLimits) (r : TradeRequest) (rp : RiskProfileParams) (evaluated_at_utc : string)
    (i : RiskInputs) : result RiskDecision :=
  if fleb_int (rp_risk_pct_per_trade rp) 0 || fleb_int (rp_heat_cap rp) 0 || (rp_max_positions rp <=? 0)
  then Err RiskManagerConfigurationError else
  if blank evaluated_at_utc then Err RiskManagerConfigurationError else
  match in_kill_switch_state i ≫= (fun s => pair s <$> _BLOCKING_STATES s) with
  | Some (s, reason) =>
      Ok (_decision Decision.BLOCKED [(reason, ReasonCode.value reason)] evaluated_at_utc None None None None None
            [("kill_switch_state", JStr (State.value s))])
  | None =>
      stale ← stale_data limits evaluated_at_utc
                (_timestamps_to_check (in_portfolio_snapshot i) (in_open_positions i) (in_funding_info i) (in_correlation_info i));
      match missing_data r i ++ stale ++ non_positive_equity (in_portfolio_snapshot i) with
      | v :: vs =>
          Ok (_decision Decision.FAIL_SAFE (v :: vs) evaluated_at_utc None None (Some (tr_leverage r)) None None
                [("stage", JStr "data_verification")])
      | [] =>
          match in_portfolio_snapshot i, in_open_positions i, in_capabilities i, in_funding_info i, in_correlation_info i with
          | Some p, Some positions, Some caps, Some f, Some c => judge limits r rp evaluated_at_utc p positions caps f c
          | _, _, _, _, _ => Err AttributeError
          end
      end
  end.
End manager.
