(* ===== verification/Config.v ===== *)
(** * The configuration (src/config/schema.py, loader.py)

    The document a TOML file is read into, the overrides from the environment,
    the checks that collect every issue, and the configuration built when there
    is none. The file's parse is an input: its outcome is a [toml_file]. *)

From Stdlib Require Import ssreflect ZArith Lia Ascii String QArith.
From stdpp Require Import base strings numbers gmap sets list.
From S2P Require Import Prelude PyText PyDict PyDecimal PyFloat ExchangeModels RiskManager.
#[local] Open Scope Z_scope.

(** ** Numbers and documents *)

(** A float with the values TOML can write beyond the finite ones. *)
Inductive xfloat := Fin (f : float) | PInf | NInf | NaN.

(** A Python number that is no bool. *)
Inductive num := Int (z : Z) | Flt (x : xfloat).

Inductive toml :=
  | TStr (s : string) | TInt (z : Z) | TFloat (x : xfloat) | TBool (b : bool)
  | TTime (text : string) (* a date, a time or both *)
  | TList (l : list toml) | TTable (d : list (string * toml)).

Inductive toml_file :=
  | NoFile | Unreadable | NotToml | NotUtf8
  | Parsed (d : list (string * toml)).

(** [0 < x], [x <= 1], [x < 1], exact as Python's comparisons are. *)
Definition above (k : Z) (x : num) : bool :=
  match x with Int z => k <? z | Flt (Fin f) => negb (fleb_int f k) | Flt PInf => true | Flt _ => false end.
Definition at_most (x : num) (k : Z) : bool :=
  match x with Int z => z <=? k | Flt (Fin f) => fleb_int f k | Flt NInf => true | Flt _ => false end.
Definition below (x : num) (k : Z) : bool :=
  match x with Int z => z <? k | Flt (Fin f) => fltb_int f k | Flt NInf => true | Flt _ => false end.

(** [a < b] and [a <= b]. *)
Definition num_lt (a b : num) : bool :=
  match a, b with
  | _, Flt NaN | Flt NaN, _ | _, Flt NInf | Flt PInf, _ => false
  | _, Flt PInf | Flt NInf, _ => true
  | Int m, Int n => m <? n
  | Int m, Flt (Fin g) => negb (fleb_int g m)
  | Flt (Fin f), Int n => fltb_int f n
  | Flt (Fin f), Flt (Fin g) => fltb f g
  end.
Definition is_nan (a : num) : bool := match a with Flt NaN => true | _ => false end.
Definition num_le (a b : num) : bool := negb (is_nan a) && negb (is_nan b) && negb (num_lt b a).

(** [float(n)]: an integer that rounds beyond the largest float is an [OverflowError]. *)
Definition float_of_Z (n : Z) : result float :=
  if Z.abs n <? 2 ^ 1024 - 2 ^ 970 then Ok (float_of_int n) else Err OverflowError.
Definition to_float (x : num) : result xfloat :=
  match x with Int z => f ← float_of_Z z; Ok (Fin f) | Flt x => Ok x end.

(** [n * x] for an integer [n] and a fraction [x]. *)
Definition times (n : Z) (x : num) : result num :=
  match x with
  | Int z => Ok (Int (n * z))
  | Flt (Fin f) => g ← float_of_Z n; Ok (Flt (Fin (fmul g f)))
  | Flt x => Ok (Flt x)
  end.

(** [isinstance(value, (int, float)) and not isinstance(value, bool)] *)
Definition number (value : option toml) : option num :=
  match value with Some (TInt z) => Some (Int z) | Some (TFloat x) => Some (Flt x) | _ => None end.

(** ** schema.py *)

Definition SUPPORTED_EXCHANGES : list string := ["hyperliquid"].
Definition SUPPORTED_NETWORKS : list string := ["mainnet"; "testnet"].
Definition SUPPORTED_ENVIRONMENTS : list string := ["paper"; "live"].
Definition SUPPORTED_RISK_PROFILE_NAMES : list string := ["GROWTH"; "BALANCED"; "CAPITAL_PRESERVATION"].
Definition SUPPORTED_SIZING_MODES : list string := ["fixed"; "vol_targeted"; "conviction_weighted"].
Definition SUPPORTED_LOG_LEVELS : list string := ["DEBUG"; "INFO"; "WARNING"; "ERROR"; "CRITICAL"].

Record ExchangeConfig := { xc_name : string; xc_network : string }.

Record RiskConfig := {
  rk_active_profile : string;
  rk_profiles : list (string * RiskProfileParams);
  rk_max_daily_loss_pct : xfloat;
  rk_max_drawdown_from_peak_pct : xfloat;
  rk_auto_flatten_enabled : bool;
  rk_auto_flatten_confirmation_seconds : xfloat
}.

(** A missing key is a [KeyError]. *)
Definition active_profile_params (risk : RiskConfig) : result RiskProfileParams :=
  of_option KeyError (dget (rk_active_profile risk) (rk_profiles risk)).

Record OperationalConfig := {
  oc_max_retries : Z;
  oc_retry_base_delay_seconds : xfloat;
  oc_retry_max_delay_seconds : xfloat;
  oc_clock_drift_tolerance_ms : xfloat;
  oc_data_staleness_price_ms : xfloat;
  oc_data_staleness_orderbook_ms : xfloat;
  oc_data_staleness_position_ms : xfloat
}.

Record SecretsConfig := { sc_signing_key_ref : string; sc_telegram_bot_token_ref : string; sc_wallet_key_ref : option string }.

(** The chat id is whatever the document has when Telegram is off. *)
Record TelegramConfig := { tc_enabled : bool; tc_chat_id : toml }.

Record LoggingConfig := { lc_level : string; lc_directory : string }.

Record EngineConfig := {
  cf_environment : string;
  cf_exchange : ExchangeConfig;
  cf_universe : list string;
  cf_risk : RiskConfig;
  cf_operational : OperationalConfig;
  cf_secrets : SecretsConfig;
  cf_telegram : TelegramConfig;
  cf_logging : LoggingConfig
}.

(** ** loader.py: reading and overriding *)

Definition _ENV_MODE_OVERRIDE : string := "TURTLE_EXEC_MODE".
Definition _ENV_SIGNING_KEY_REF_OVERRIDE : string := "TURTLE_EXEC_SIGNING_KEY_REF".
Definition _ENV_TELEGRAM_TOKEN_REF_OVERRIDE : string := "TURTLE_EXEC_TELEGRAM_BOT_TOKEN_REF".
Definition _ENV_WALLET_KEY_REF_OVERRIDE : string := "TURTLE_EXEC_WALLET_KEY_REF".
Definition _MAX_PLAUSIBLE_REF_LENGTH : Z := 100.

Definition _read_toml (file : toml_file) : result (list (string * toml)) :=
  match file with
  | NoFile | Unreadable | NotToml => Err ConfigFileError
  | NotUtf8 => Err UnicodeDecodeError
  | Parsed d => Ok d
  end.

(** [raw[section] = {**raw.get(section, {}), key: env[variable]}], if the
    variable is set; what is there and no table is a [TypeError]. *)
Definition override (variable section key : string) (env : list (string * string)) (raw : list (string * toml)) :
    result (list (string * toml)) :=
  match dget variable env with
  | None => Ok raw
  | Some value =>
      match dget section raw with
      | None => Ok (dset section (TTable [(key, TStr value)]) raw)
      | Some (TTable d) => Ok (dset section (TTable (dset key (TStr value) d)) raw)
      | Some _ => Err TypeError
      end
  end.

Definition _apply_env_overrides (raw : list (string * toml)) (env : list (string * string)) : result (list (string * toml)) :=
  raw ← override _ENV_MODE_OVERRIDE "environment" "mode" env raw;
  raw ← override _ENV_SIGNING_KEY_REF_OVERRIDE "secrets" "signing_key_ref" env raw;
  raw ← override _ENV_TELEGRAM_TOKEN_REF_OVERRIDE "secrets" "telegram_bot_token_ref" env raw;
  override _ENV_WALLET_KEY_REF_OVERRIDE "secrets" "wallet_key_ref" env raw.

(** ** loader.py: checks *)

(** An issue: what it is about and what is wrong there. *)
Inductive problem :=
  | Required | NotSupported | NotList | NotText | Duplicates | NotUpper | NoProfiles | NotTable | NotDefined
  | NotFraction | NotBool | NotNonNegative | Unconfirmed | NotPositiveInt | NoHeadroom | NotNonNegativeInt
  | NotPositive | BaseOverMax | RawSecret.
Definition issue : Type := string * problem.

(** The issues of the checks in order; the first exception ends them. *)
Definition both (a b : result (list issue)) : result (list issue) := x ← a; y ← b; Ok (x ++ y).
#[local] Infix ";+" := both (at level 60, right associativity).
Definition report (ok : bool) (at_ : string) (p : problem) : result (list issue) := Ok (if ok then [] else [(at_, p)]).

(** [value in frozenset({...})]: a list or a table cannot be hashed. *)
Definition supported (values : list string) (value : option toml) : result bool :=
  match value with
  | Some (TStr s) => Ok (existsb (String.eqb s) values)
  | Some (TList _) | Some (TTable _) => Err TypeError
  | _ => Ok false
  end.
Definition check_supported (values : list string) (value : option toml) (at_ : string) : result (list issue) :=
  ok ← supported values value; report ok at_ NotSupported.

Definition with_section (raw : list (string * toml)) (section : string) (check : list (string * toml) -> result (list issue)) :
    result (list issue) :=
  match dget section raw with Some (TTable d) => check d | _ => Ok [(section, Required)] end.

Definition _is_fraction (value : option toml) : bool :=
  match number value with Some x => above 0 x && at_most x 1 | None => false end.
Definition _is_positive_number (value : option toml) : bool :=
  match number value with Some x => above 0 x | None => false end.
Definition _is_nonnegative_number (value : option toml) : bool :=
  match number value with Some x => num_le (Int 0) x | None => false end.

(** A string with something in it. *)
Definition text (value : option toml) : option string :=
  match value with Some (TStr s) => if blank s then None else Some s | _ => None end.

(** [^0x[0-9a-fA-F]{64}$] *)
Definition hex_char (c : ascii) : bool :=
  let n := N_of_ascii c in ((48 <=? n) && (n <=? 57) || (65 <=? n) && (n <=? 70) || (97 <=? n) && (n <=? 102))%N.
Definition raw_hex_key (value : string) : bool :=
  String.prefix "0x" value && (slen value <=? 67) && (66 <=? slen value) &&
  str_forall hex_char (str_take 64 (str_drop 2 value)) && String.eqb (str_drop 66 value) (if slen value =? 66 then "" else String "010" "").
Definition _looks_like_raw_secret (value : string) : bool := raw_hex_key value || (_MAX_PLAUSIBLE_REF_LENGTH <? slen value).

Definition _validate_environment (raw : list (string * toml)) : result (list issue) :=
  with_section raw "environment" (fun section => check_supported SUPPORTED_ENVIRONMENTS (dget "mode" section) "environment.mode").

Definition _validate_exchange (raw : list (string * toml)) : result (list issue) :=
  with_section raw "exchange" (fun section =>
    check_supported SUPPORTED_EXCHANGES (dget "name" section) "exchange.name" ;+
    check_supported SUPPORTED_NETWORKS (dget "network" section) "exchange.network").

(** A character [upper()] leaves. *)
Definition upper_stable (c : ascii) : bool :=
  let n := N_of_ascii c in negb ((97 <=? n) && (n <=? 122) || (n =? 181) || (223 <=? n) && negb (n =? 247))%N.

Definition texts (l : list toml) : option (list string) := mapM (fun v => text (Some v)) l.

Definition _validate_universe (raw : list (string * toml)) : result (list issue) :=
  with_section raw "universe" (fun section =>
    match dget "symbols" section with
    | Some (TList (s :: symbols)) =>
        match texts (s :: symbols) with
        | None => Ok [("universe.symbols", NotText)]
        | Some l =>
            report (bool_decide (NoDup l)) "universe.symbols" Duplicates ;+
            report (forallb (str_forall upper_stable) l) "universe.symbols" NotUpper
        end
    | _ => Ok [("universe.symbols", NotList)]
    end).

Definition positive_int (value : option toml) : option Z :=
  match value with Some (TInt z) => if 1 <=? z then Some z else None | _ => None end.

Definition _validate_risk_profile_params (prefix : string) (params : list (string * toml)) : result (list issue) :=
  let risk_pct := dget "risk_pct_per_trade" params in
  let max_positions := positive_int (dget "max_positions" params) in
  let heat_cap := dget "heat_cap" params in
  report (_is_fraction risk_pct) (prefix +:+ ".risk_pct_per_trade") NotFraction ;+
  report (match max_positions with Some _ => true | None => false end) (prefix +:+ ".max_positions") NotPositiveInt ;+
  check_supported SUPPORTED_SIZING_MODES (dget "sizing_mode" params) (prefix +:+ ".sizing_mode") ;+
  (if negb (_is_fraction heat_cap) then Ok [(prefix +:+ ".heat_cap", NotFraction)] else
   match _is_fraction risk_pct, max_positions, number risk_pct, number heat_cap with
   | true, Some n, Some r, Some h => required_headroom ← times n r; report (negb (num_le h required_headroom)) (prefix +:+ ".heat_cap") NoHeadroom
   | _, _, _, _ => Ok []
   end) ;+
  report (match number (dget "ruin_threshold" params) with Some x => above 0 x && below x 1 | None => false end)
    (prefix +:+ ".ruin_threshold") NotFraction.

Fixpoint validate_profiles (profiles : list (string * toml)) : result (list issue) :=
  match profiles with
  | [] => Ok []
  | (name, params) :: profiles =>
      let prefix := "risk.profiles." +:+ name in
      match params with TTable params => _validate_risk_profile_params prefix params | _ => Ok [(prefix, NotTable)] end ;+
      validate_profiles profiles
  end.

Definition _validate_risk (raw : list (string * toml)) : result (list issue) :=
  with_section raw "risk" (fun section =>
    active_ok ← supported SUPPORTED_RISK_PROFILE_NAMES (dget "profile" section);
    let '(no_profiles, profiles) := match dget "profiles" section with
                                    | Some (TTable ((p :: d) as profiles)) => (false, profiles) | _ => (true, []) end in
    let auto_flatten := dget "auto_flatten_enabled" section in
    let confirm_seconds := dget "auto_flatten_confirmation_seconds" section in
    report active_ok "risk.profile" NotSupported ;+
    report (negb no_profiles) "risk.profiles" NoProfiles ;+
    validate_profiles profiles ;+
    report (negb (active_ok && match dget "profile" section with Some (TStr active) => negb (din active profiles) | _ => false end))
      "risk.profile" NotDefined ;+
    report (_is_fraction (dget "max_daily_loss_pct" section)) "risk.max_daily_loss_pct" NotFraction ;+
    report (_is_fraction (dget "max_drawdown_from_peak_pct" section)) "risk.max_drawdown_from_peak_pct" NotFraction ;+
    report (match auto_flatten with Some (TBool _) => true | _ => false end) "risk.auto_flatten_enabled" NotBool ;+
    (if negb (_is_nonnegative_number confirm_seconds) then Ok [("risk.auto_flatten_confirmation_seconds", NotNonNegative)] else
     report (negb (match auto_flatten with Some (TBool b) => b | _ => false end && negb (_is_positive_number confirm_seconds)))
       "risk.auto_flatten_confirmation_seconds" Unconfirmed)).

Definition staleness_fields : list string :=
  ["clock_drift_tolerance_ms"; "data_staleness_price_ms"; "data_staleness_orderbook_ms"; "data_staleness_position_ms"].
Fixpoint check_positive (section : list (string * toml)) (fields : list string) : result (list issue) :=
  match fields with
  | [] => Ok []
  | f :: fields => report (_is_positive_number (dget f section)) ("operational." +:+ f) NotPositive ;+ check_positive section fields
  end.

Definition _validate_operational (raw : list (string * toml)) : result (list issue) :=
  with_section raw "operational" (fun section =>
    let base_delay := dget "retry_base_delay_seconds" section in
    let max_delay := dget "retry_max_delay_seconds" section in
    report (match dget "max_retries" section with Some (TInt z) => 0 <=? z | _ => false end) "operational.max_retries" NotNonNegativeInt ;+
    report (_is_positive_number base_delay) "operational.retry_base_delay_seconds" NotPositive ;+
    report (_is_positive_number max_delay) "operational.retry_max_delay_seconds" NotPositive ;+
    report (negb (_is_positive_number base_delay && _is_positive_number max_delay &&
                  match number base_delay, number max_delay with Some b, Some m => num_lt m b | _, _ => false end))
      "operational.retry_base_delay_seconds" BaseOverMax ;+
    check_positive section staleness_fields).

Definition check_ref (value : option toml) (at_ : string) : result (list issue) :=
  match text value with
  | None => Ok [(at_, NotText)]
  | Some s => report (negb (_looks_like_raw_secret s)) at_ RawSecret
  end.

Definition _validate_secrets (raw : list (string * toml)) : result (list issue) :=
  with_section raw "secrets" (fun section =>
    check_ref (dget "signing_key_ref" section) "secrets.signing_key_ref" ;+
    check_ref (dget "telegram_bot_token_ref" section) "secrets.telegram_bot_token_ref" ;+
    match dget "wallet_key_ref" section with None => Ok [] | v => check_ref v "secrets.wallet_key_ref" end).

Definition _validate_telegram (raw : list (string * toml)) : result (list issue) :=
  with_section raw "telegram" (fun section =>
    let enabled := dget "enabled" section in
    report (match enabled with Some (TBool _) => true | _ => false end) "telegram.enabled" NotBool ;+
    report (negb (match enabled with Some (TBool b) => b | _ => false end && match text (dget "chat_id" section) with None => true | _ => false end))
      "telegram.chat_id" NotText).

Definition _validate_logging (raw : list (string * toml)) : result (list issue) :=
  with_section raw "logging" (fun section =>
    check_supported SUPPORTED_LOG_LEVELS (dget "level" section) "logging.level" ;+
    report (match text (dget "directory" section) with Some _ => true | None => false end) "logging.directory" NotText).

Definition _validate (raw : list (string * toml)) : result (list issue) :=
  _validate_environment raw ;+ _validate_exchange raw ;+ _validate_universe raw ;+ _validate_risk raw ;+
  _validate_operational raw ;+ _validate_secrets raw ;+ _validate_telegram raw ;+ _validate_logging raw.

(** ** loader.py: construction *)

(** [d[key]] *)
Definition item (key : string) (d : list (string * toml)) : result toml := of_option KeyError (dget key d).
Definition table (v : toml) : result (list (string * toml)) := match v with TTable d => Ok d | _ => Err TypeError end.
Definition section_of (key : string) (raw : list (string * toml)) : result (list (string * toml)) := v ← item key raw; table v.
Definition str_item (key : string) (d : list (string * toml)) : result string :=
  v ← item key d; match v with TStr s => Ok s | _ => Err TypeError end.
Definition float_item (key : string) (d : list (string * toml)) : result xfloat :=
  v ← item key d; match number (Some v) with Some x => to_float x | None => Err TypeError end.
Definition int_item (key : string) (d : list (string * toml)) : result Z :=
  v ← item key d; match v with TInt z => Ok z | _ => Err TypeError end.
Definition bool_item (key : string) (d : list (string * toml)) : result bool :=
  v ← item key d; match v with TBool b => Ok b | _ => Err TypeError end.
(** A fraction is finite. *)
Definition finite (x : xfloat) : result float := match x with Fin f => Ok f | _ => Err ValueError end.
Definition fraction_item (key : string) (d : list (string * toml)) : result float := x ← float_item key d; finite x.

Definition build_profile (params : toml) : result RiskProfileParams :=
  params ← table params;
  r ← fraction_item "risk_pct_per_trade" params;
  n ← int_item "max_positions" params;
  m ← str_item "sizing_mode" params;
  h ← fraction_item "heat_cap" params;
  t ← fraction_item "ruin_threshold" params;
  Ok {| rp_risk_pct_per_trade := r; rp_max_positions := n; rp_sizing_mode := m; rp_heat_cap := h; rp_ruin_threshold := t |}.

Fixpoint build_profiles (profiles : list (string * toml)) : result (list (string * RiskProfileParams)) :=
  match profiles with
  | [] => Ok []
  | (name, params) :: profiles => p ← build_profile params; ps ← build_profiles profiles; Ok ((name, p) :: ps)
  end.

Definition truthy_toml (v : toml) : bool :=
  match v with
  | TStr s => negb (String.eqb s "") | TInt z => negb (z =? 0) | TFloat (Fin f) => negb (fmant f =? 0) | TFloat _ => true
  | TBool b => b | TTime _ => true | TList l => match l with [] => false | _ => true end | TTable d => match d with [] => false | _ => true end
  end.

Definition strings_of (v : toml) : result (list string) :=
  match v with TList l => of_option TypeError (texts l) | _ => Err TypeError end.

Definition build_risk (section : list (string * toml)) : result RiskConfig :=
  active ← str_item "profile" section;
  profiles ← section_of "profiles" section;
  profiles ← build_profiles profiles;
  loss ← float_item "max_daily_loss_pct" section;
  drawdown ← float_item "max_drawdown_from_peak_pct" section;
  flatten ← bool_item "auto_flatten_enabled" section;
  confirmation ← float_item "auto_flatten_confirmation_seconds" section;
  Ok {| rk_active_profile := active; rk_profiles := profiles; rk_max_daily_loss_pct := loss;
        rk_max_drawdown_from_peak_pct := drawdown; rk_auto_flatten_enabled := flatten;
        rk_auto_flatten_confirmation_seconds := confirmation |}.

Definition build_operational (section : list (string * toml)) : result OperationalConfig :=
  retries ← int_item "max_retries" section;
  base ← float_item "retry_base_delay_seconds" section;
  max ← float_item "retry_max_delay_seconds" section;
  drift ← float_item "clock_drift_tolerance_ms" section;
  price ← float_item "data_staleness_price_ms" section;
  orderbook ← float_item "data_staleness_orderbook_ms" section;
  position ← float_item "data_staleness_position_ms" section;
  Ok {| oc_max_retries := retries; oc_retry_base_delay_seconds := base; oc_retry_max_delay_seconds := max;
        oc_clock_drift_tolerance_ms := drift; oc_data_staleness_price_ms := price;
        oc_data_staleness_orderbook_ms := orderbook; oc_data_staleness_position_ms := position |}.

Definition build_secrets (section : list (string * toml)) : result SecretsConfig :=
  signing ← str_item "signing_key_ref" section;
  telegram ← str_item "telegram_bot_token_ref" section;
  wallet ← match dget "wallet_key_ref" section with None => Ok None | Some _ => s ← str_item "wallet_key_ref" section; Ok (Some s) end;
  Ok {| sc_signing_key_ref := signing; sc_telegram_bot_token_ref := telegram; sc_wallet_key_ref := wallet |}.

Definition build_exchange (section : list (string * toml)) : result ExchangeConfig :=
  name ← str_item "name" section;
  network ← str_item "network" section;
  Ok {| xc_name := name; xc_network := network |}.

Definition build_universe (section : list (string * toml)) : result (list string) :=
  symbols ← item "symbols" section;
  strings_of symbols.

Definition build_telegram (section : list (string * toml)) : result TelegramConfig :=
  enabled ← bool_item "enabled" section;
  let chat_id := match dget "chat_id" section with Some v => if truthy_toml v then v else TStr "" | None => TStr "" end in
  Ok {| tc_enabled := enabled; tc_chat_id := chat_id |}.

Definition build_logging (section : list (string * toml)) : result LoggingConfig :=
  level ← str_item "level" section;
  directory ← str_item "directory" section;
  Ok {| lc_level := level; lc_directory := directory |}.

Definition _build (raw : list (string * toml)) : result EngineConfig :=
  env_section ← section_of "environment" raw;
  exch_section ← section_of "exchange" raw;
  universe_section ← section_of "universe" raw;
  risk_section ← section_of "risk" raw;
  operational_section ← section_of "operational" raw;
  secrets_section ← section_of "secrets" raw;
  telegram_section ← section_of "telegram" raw;
  logging_section ← section_of "logging" raw;
  environment ← str_item "mode" env_section;
  exchange ← build_exchange exch_section;
  universe ← build_universe universe_section;
  risk ← build_risk risk_section;
  operational ← build_operational operational_section;
  secrets ← build_secrets secrets_section;
  telegram ← build_telegram telegram_section;
  logging ← build_logging logging_section;
  Ok {| cf_environment := environment; cf_exchange := exchange; cf_universe := universe; cf_risk := risk;
        cf_operational := operational; cf_secrets := secrets; cf_telegram := telegram; cf_logging := logging |}.

(** [load_config]: the configuration, or the exception with the issues it carries. *)
Definition load_config (file : toml_file) (env : list (string * string)) : EngineConfig + exn * list issue :=
  match (raw ← _read_toml file; raw ← _apply_env_overrides raw env; issues ← _validate raw; Ok (raw, issues)) with
  | Err e => inr (e, [])
  | Ok (raw, []) => match _build raw with Ok config => inl config | Err e => inr (e, []) end
  | Ok (_, issues) => inr (ConfigValidationError, issues)
  end.
