(* ===== verification/ConfigSpec.v ===== *)
(** * The configuration: what is loaded, and what is reported

    What the checks let through, in exact arithmetic; the requirements of a
    configuration as a table, of which the issues of a refused one are exactly
    those it does not meet; what the environment may change. *)

From Stdlib Require Import ssreflect ZArith Lia Ascii String QArith.
From stdpp Require Import base strings numbers gmap sets list.
From S2P Require Import Prelude PyText PyDict PyDecimal PyFloat ExchangeModels RiskManager Config.
#[local] Open Scope Z_scope.
#[local] Infix ";+" := both (at level 60, right associativity).

(** ** What the checks let through *)

Lemma both_nil a b : (a ;+ b) = Ok [] <-> a = Ok [] /\ b = Ok [].
Proof.
  unfold both. destruct a as [x|]; [|naive_solver]. cbn. destruct b as [y|]; [|naive_solver]. cbn. split.
  - by intros [-> ->]%(inj Ok)%app_nil.
  - by intros [[= ->] [= ->]].
Qed.
Lemma report_nil ok a p : report ok a p = Ok [] <-> ok = true.
Proof. by destruct ok. Qed.
Lemma section_nil raw s check : with_section raw s check = Ok [] <-> exists d, dget s raw = Some (TTable d) /\ check d = Ok [].
Proof.
  unfold with_section. destruct (dget s raw) as [[]|]; try (split; [done|by intros (d & [= ] & _)]). split; [by eexists|].
  by intros (d' & [= ->] & ?).
Qed.
Lemma supported_true values v : supported values v = Ok true <-> exists s, v = Some (TStr s) /\ s ∈ values.
Proof.
  destruct v as [[]|]; cbn; try (split; [done|by intros (? & [= ] & _)]). split.
  - intros [= (x & Hx & ->%String.eqb_eq)%existsb_exists]. exists x. split; [done|by apply list_elem_of_In].
  - intros (s' & [= ->] & Hs). f_equal. apply existsb_exists. exists s'. split; [by apply list_elem_of_In|by apply String.eqb_eq].
Qed.
Lemma check_supported_nil values v a : check_supported values v a = Ok [] <-> exists s, v = Some (TStr s) /\ s ∈ values.
Proof.
  rewrite -supported_true. unfold check_supported. by destruct (supported values v) as [[]|].
Qed.
Lemma text_Some v s : text v = Some s <-> v = Some (TStr s) /\ blank s = false.
Proof.
  destruct v as [[t| | | | | |]|]; try (split; [done|by intros [[= ] _]]). cbn. destruct (blank t) eqn:E; split; try done.
  - intros [[= ->] Hb]. congruence.
  - by intros [= ->].
  - by intros [[= ->] _].
Qed.
Lemma ref_nil v a : check_ref v a = Ok [] <-> exists s, v = Some (TStr s) /\ blank s = false /\ _looks_like_raw_secret s = false.
Proof.
  unfold check_ref. destruct (text v) as [s|] eqn:E.
  - apply text_Some in E as [-> Hb]. rewrite report_nil negb_true_iff. split; [by exists s|]. by intros (s' & [= ->] & _ & ?).
  - split; [done|]. intros (s & -> & Hb & _). cbn in E. by rewrite Hb in E.
Qed.

(** *** Well-formed configurations *)

Definition fraction (x : xfloat) : Prop := exists f, x = Fin f /\ (0 < fvalue f <= 1)%Q.
Definition positive (x : xfloat) : Prop := match x with Fin f => (0 < fvalue f)%Q | PInf => True | _ => False end.

(** The heat cap leaves room above a full book, in exact arithmetic. The check
    multiplies floats; its verdict is that of the exact product for a heat cap
    that is a double and fewer than 2^53 positions, which a float counts
    without rounding. *)
Record profile_ok (p : RiskProfileParams) : Prop := {
  po_risk : (0 < fvalue (rp_risk_pct_per_trade p) <= 1)%Q;
  po_positions : 1 <= rp_max_positions p;
  po_mode : rp_sizing_mode p ∈ SUPPORTED_SIZING_MODES;
  po_heat : (0 < fvalue (rp_heat_cap p) <= 1)%Q;
  po_headroom : double (rp_heat_cap p) -> rp_max_positions p < 2 ^ 53 ->
    (inject_Z (rp_max_positions p) * fvalue (rp_risk_pct_per_trade p) < fvalue (rp_heat_cap p))%Q;
  po_ruin : (0 < fvalue (rp_ruin_threshold p) < 1)%Q
}.

Definition ref_ok (s : string) : Prop := blank s = false /\ _looks_like_raw_secret s = false.

Record config_ok (c : EngineConfig) : Prop := {
  co_environment : cf_environment c ∈ SUPPORTED_ENVIRONMENTS;
  co_exchange : xc_name (cf_exchange c) ∈ SUPPORTED_EXCHANGES /\ xc_network (cf_exchange c) ∈ SUPPORTED_NETWORKS;
  co_universe : cf_universe c <> [] /\ NoDup (cf_universe c) /\
    Forall (fun s => blank s = false /\ str_forall upper_stable s = true) (cf_universe c);
  co_profiles : Forall (fun p => profile_ok p.2) (rk_profiles (cf_risk c));
  co_active : exists p, active_profile_params (cf_risk c) = Ok p /\ profile_ok p;
  co_limits : fraction (rk_max_daily_loss_pct (cf_risk c)) /\ fraction (rk_max_drawdown_from_peak_pct (cf_risk c));
  co_flatten : rk_auto_flatten_enabled (cf_risk c) = true -> positive (rk_auto_flatten_confirmation_seconds (cf_risk c));
  co_retries : 0 <= oc_max_retries (cf_operational c);
  co_delays : positive (oc_retry_base_delay_seconds (cf_operational c)) /\ positive (oc_retry_max_delay_seconds (cf_operational c));
  co_ages : Forall positive [oc_clock_drift_tolerance_ms (cf_operational c); oc_data_staleness_price_ms (cf_operational c);
    oc_data_staleness_orderbook_ms (cf_operational c); oc_data_staleness_position_ms (cf_operational c)];
  co_refs : ref_ok (sc_signing_key_ref (cf_secrets c)) /\ ref_ok (sc_telegram_bot_token_ref (cf_secrets c)) /\
    forall w, sc_wallet_key_ref (cf_secrets c) = Some w -> ref_ok w;
  co_telegram : tc_enabled (cf_telegram c) = true -> exists s, tc_chat_id (cf_telegram c) = TStr s /\ blank s = false;
  co_logging : lc_level (cf_logging c) ∈ SUPPORTED_LOG_LEVELS /\ blank (lc_directory (cf_logging c)) = false
}.

(** *** Numbers *)

Lemma fleb_int_spec f k : fleb_int f k = true <-> (fvalue f <= inject_Z k)%Q.
Proof.
  unfold fleb_int, fvalue. destruct (Z.ltb_spec (fexp f) 0) as [He|He]; rewrite Z.leb_le Zle_Qle ?inject_Z_mult.
  - rewrite p2_Z; [lia|]. rewrite -(Qmult_le_r (inject_Z (fmant f) * _) _ (p2 (- fexp f))); [apply p2_pos|].
    rewrite -Qmult_assoc -p2_plus. replace (fexp f + - fexp f) with 0 by lia. by rewrite Qmult_1_r.
  - rewrite p2_Z //.
Qed.
Lemma fltb_int_spec f k : fltb_int f k = true <-> (fvalue f < inject_Z k)%Q.
Proof.
  unfold fltb_int, fvalue. destruct (Z.ltb_spec (fexp f) 0) as [He|He]; rewrite Z.ltb_lt Zlt_Qlt ?inject_Z_mult.
  - rewrite p2_Z; [lia|]. rewrite -(Qmult_lt_r (inject_Z (fmant f) * _) _ (p2 (- fexp f))); [apply p2_pos|].
    rewrite -Qmult_assoc -p2_plus. replace (fexp f + - fexp f) with 0 by lia. by rewrite Qmult_1_r.
  - rewrite p2_Z //.
Qed.
Lemma fgtb_int_spec f k : fleb_int f k = false <-> (inject_Z k < fvalue f)%Q.
Proof.
  rewrite -not_true_iff_false fleb_int_spec. split; [apply Qnot_le_lt|apply Qlt_not_le].
Qed.

Lemma fltb_spec f g : fltb f g = true <-> (fvalue f < fvalue g)%Q.
Proof. unfold fltb. rewrite Qlt_alt. by destruct (_ ?= _)%Q. Qed.

Lemma div_round_1 n : div_round ROUND_HALF_EVEN n 1 = n.
Proof. apply Z.le_antisymm; [apply div_round_le|apply div_round_ge]; lia. Qed.
Lemma float_of_int_exact n : 0 < n < 2 ^ 53 -> (fvalue (float_of_int n) == inject_Z n)%Q.
Proof.
  intros [Hn Hb]. unfold float_of_int, true_div. destruct (Z.eqb_spec n 0); [lia|]. rewrite Z.abs_eq; [lia|].
  set (e := log2_div n 1 - 52). assert (He : e <= 0).
  { assert (Z.log2 n < 53) by by apply Z.log2_lt_pow2. unfold e, log2_div. change (Z.log2 1) with 0. rewrite Z.sub_0_r. cbv zeta.
    destruct (if _ <=? _ then _ else _); lia. }
  unfold fvalue. cbn [fmant fexp]. destruct (Z.ltb_spec e 0).
  - rewrite div_round_1 inject_Z_mult p2_Z; [lia|]. rewrite -Qmult_assoc -p2_plus. replace (- e + e) with 0 by lia. by rewrite Qmult_1_r.
  - replace e with 0 by lia. rewrite div_round_1. by rewrite Qmult_1_r.
Qed.
Lemma float_of_int_ge n : 0 < n -> (1 <= fvalue (float_of_int n))%Q.
Proof.
  intros Hn. apply (true_div_ge n 1 (Fl 1 0)); [done|done|done|]. rewrite Qmult_1_r. unfold fvalue. cbn [fmant fexp Qpower].
  rewrite Qmult_1_r -Zle_Qle. lia.
Qed.
Lemma float_of_Z_Ok n f : float_of_Z n = Ok f -> f = float_of_int n.
Proof. unfold float_of_Z. destruct (_ <? _); [|done]. by intros ->%(inj Ok). Qed.

(** ** Building what the checks let through *)

Definition unless_overflow {A} (P : A -> Prop) (r : result A) : Prop :=
  match r with Ok x => P x | Err e => e = OverflowError end.
Lemma overflow_bind {A B} (P : A -> Prop) (Q : B -> Prop) (r : result A) (f : A -> result B) :
  unless_overflow P r -> (forall x, P x -> unless_overflow Q (f x)) -> unless_overflow Q (r ≫= f).
Proof. intros Hr Hf. destruct r as [x|e]; [by apply Hf|done]. Qed.

Definition stands_for (x : num) (y : xfloat) : Prop := to_float x = Ok y.

Lemma float_item_ok key d x : number (dget key d) = Some x -> unless_overflow (stands_for x) (float_item key d).
Proof.
  intros Hx. unfold float_item, item. destruct (dget key d) as [v|]; [|done]. cbn [of_option mbind result_bind]. rewrite Hx.
  unfold stands_for. destruct (to_float x) as [y|e] eqn:E; [done|]. destruct x as [z|]; [|done]. cbn in E. unfold float_of_Z in E.
  destruct (_ <? _); [done|]. cbn in E |- *. congruence.
Qed.
Lemma stands_positive x y : above 0 x = true -> stands_for x y -> positive y.
Proof.
  destruct x as [z|[f| | |]]; cbn; try done.
  - intros Hz%Z.ltb_lt. unfold stands_for. cbn. destruct (float_of_Z z) as [f|] eqn:E; [|done]. intros <-%(inj Ok).
    apply float_of_Z_Ok in E as ->. eapply Qlt_le_trans; [|by apply float_of_int_ge]. done.
  - intros Hf%negb_true_iff%fgtb_int_spec <-%(inj Ok). exact Hf.
  - by intros _ <-%(inj Ok).
Qed.
Lemma stands_fraction x y : above 0 x && at_most x 1 = true -> stands_for x y -> fraction y.
Proof.
  intros [Ha Hm]%andb_true_iff. destruct x as [z|[f| | |]]; cbn in *; try done.
  - apply Z.ltb_lt in Ha. apply Z.leb_le in Hm. replace z with 1 by lia. intros <-%(inj Ok). by eexists.
  - intros <-%(inj Ok). exists f. split; [done|]. apply negb_true_iff, fgtb_int_spec in Ha. by apply fleb_int_spec in Hm.
Qed.
Lemma is_fraction_number v : _is_fraction v = true <-> exists x, number v = Some x /\ above 0 x && at_most x 1 = true.
Proof. unfold _is_fraction. destruct (number v); naive_solver. Qed.
Lemma is_positive_number v : _is_positive_number v = true <-> exists x, number v = Some x /\ above 0 x = true.
Proof. unfold _is_positive_number. destruct (number v); naive_solver. Qed.

Lemma fraction_item_ok key d x : number (dget key d) = Some x -> above 0 x && at_most x 1 = true ->
  unless_overflow (fun f => stands_for x (Fin f) /\ (0 < fvalue f <= 1)%Q) (fraction_item key d).
Proof.
  intros Hx Hf. unfold fraction_item. eapply overflow_bind; [by apply float_item_ok|]. intros y Hy.
  destruct (stands_fraction x y Hf Hy) as (f & -> & Hv). done.
Qed.
Lemma str_item_ok key d s : dget key d = Some (TStr s) -> str_item key d = Ok s.
Proof. intros E. unfold str_item, item. by rewrite E. Qed.
Lemma int_item_ok key d z : dget key d = Some (TInt z) -> int_item key d = Ok z.
Proof. intros E. unfold int_item, item. by rewrite E. Qed.
Lemma bool_item_ok key d b : dget key d = Some (TBool b) -> bool_item key d = Ok b.
Proof. intros E. unfold bool_item, item. by rewrite E. Qed.
Lemma section_of_ok key raw d : dget key raw = Some (TTable d) -> section_of key raw = Ok d.
Proof. intros E. unfold section_of, item. by rewrite E. Qed.

(** The check of the headroom, on the numbers of the document. *)
Lemma headroom n x y req r h : 1 <= n -> above 0 x && at_most x 1 = true -> above 0 y && at_most y 1 = true ->
  times n x = Ok req -> num_le y req = false -> stands_for x (Fin r) -> stands_for y (Fin h) ->
  double h -> n < 2 ^ 53 -> (inject_Z n * fvalue r < fvalue h)%Q.
Proof.
  intros Hn Hx Hy Ht Hle Hr Hh Hd Hb.
  assert (Hprod : forall f p, times n (Flt (Fin f)) = Ok p -> (0 < fvalue f)%Q -> forall k, double k -> (fvalue k <= inject_Z n * fvalue f)%Q ->
    exists q, p = Flt (Fin q) /\ (fvalue k <= fvalue q)%Q).
  { intros f p Hp Hf k Hk Hkn. cbn in Hp. destruct (float_of_Z n) as [g|] eqn:Eg; [|done]. apply (inj Ok) in Hp as <-.
    apply float_of_Z_Ok in Eg as ->. eexists. split; [done|].
    assert (En : (fvalue (float_of_int n) == inject_Z n)%Q) by (apply float_of_int_exact; lia).
    apply fmul_ge; [done|rewrite En|by rewrite En]. apply Qmult_lt_0_compat; [rewrite -(Zlt_Qlt 0); lia|done]. }
  assert (Hpos : forall f, above 0 (Flt (Fin f)) && at_most (Flt (Fin f)) 1 = true -> (0 < fvalue f)%Q).
  { intros f [Hf _]%andb_true_iff. by apply negb_true_iff, fgtb_int_spec in Hf. }
  apply Qnot_le_lt. intros Hc. destruct y as [z|[f| | |]]; try done.
  - apply andb_true_iff in Hy as [Hz%Z.ltb_lt Hz1%Z.leb_le]. assert (z = 1) as -> by lia. apply (inj Ok) in Hh. injection Hh as <-.
    destruct x as [z|[f| | |]]; try done; [apply (inj Ok) in Ht as <-|].
    + apply andb_true_iff in Hx as [Hz0%Z.ltb_lt Hz2%Z.leb_le]. assert (z = 1) as -> by lia.
      cbn in Hle. destruct (Z.ltb_spec (n * 1) 1); [lia|done].
    + apply (inj Ok) in Hr. injection Hr as ->. destruct (Hprod r req Ht (Hpos r Hx) (Fl 1 0) eq_refl) as (q & -> & Hq).
      { eapply Qle_trans; [|exact Hc]. done. }
      cbn in Hle. apply negb_false_iff, fltb_int_spec in Hle. eapply Qlt_not_le; [exact Hle|]. eapply Qle_trans; [|exact Hq]. done.
  - apply (inj Ok) in Hh. injection Hh as ->. destruct x as [z|[f| | |]]; try done; [apply (inj Ok) in Ht as <-|].
    + apply andb_true_iff in Hx as [Hz0%Z.ltb_lt Hz2%Z.leb_le]. assert (z = 1) as -> by lia. apply (inj Ok) in Hr. injection Hr as <-.
      cbn in Hle. rewrite negb_involutive in Hle. apply fgtb_int_spec in Hle. rewrite Z.mul_1_r in Hle.
      eapply Qlt_not_le; [exact Hle|]. eapply Qle_trans; [exact Hc|]. rewrite (float_of_int_exact 1) // Qmult_1_r. apply Qle_refl.
    + apply (inj Ok) in Hr. injection Hr as ->. destruct (Hprod r req Ht (Hpos r Hx) h Hd Hc) as (q & -> & Hq).
      cbn in Hle. apply negb_false_iff, fltb_spec in Hle. by eapply Qlt_not_le.
Qed.

Lemma ruin_ok key d x : number (dget key d) = Some x -> above 0 x && below x 1 = true ->
  unless_overflow (fun f => (0 < fvalue f < 1)%Q) (fraction_item key d).
Proof.
  intros Hx [Ha Hb]%andb_true_iff. unfold fraction_item. eapply overflow_bind; [by apply float_item_ok|]. intros y Hy.
  destruct x as [z|[f| | |]]; try done; cbn in Ha, Hb.
  - apply Z.ltb_lt in Ha, Hb. lia.
  - apply (inj Ok) in Hy as <-. apply negb_true_iff, fgtb_int_spec in Ha. by apply fltb_int_spec in Hb.
Qed.

Lemma positive_int_Some v n : positive_int v = Some n -> v = Some (TInt n) /\ 1 <= n.
Proof. destruct v as [[]|]; try done. cbn. destruct (Z.leb_spec 1 z); [|done]. by intros [= ->]. Qed.

Lemma built_profile prefix params : _validate_risk_profile_params prefix params = Ok [] ->
  unless_overflow profile_ok (build_profile (TTable params)).
Proof.
  unfold _validate_risk_profile_params. cbv zeta. rewrite !both_nil !report_nil check_supported_nil.
  intros (Hr & Hp & (m & Hm & Hmode) & Hh & Ht). destruct (is_fraction_number (dget "risk_pct_per_trade" params)) as [Hrf _].
  destruct (Hrf Hr) as (x & Ex & Hx). rewrite Hr Ex in Hh. destruct (positive_int _) as [n|] eqn:En; [|done].
  apply positive_int_Some in En as [En Hn]. destruct (_is_fraction (dget "heat_cap" params)) eqn:Ehf; [|done]. cbn [negb] in Hh.
  apply is_fraction_number in Ehf as (y & Ey & Hy). rewrite Ey in Hh. destruct (number (dget "ruin_threshold" params)) as [t|] eqn:Et; [|done].
  destruct (times n x) as [req|] eqn:Ereq; [|done]. cbn [mbind result_bind] in Hh. rewrite report_nil negb_true_iff in Hh.
  unfold build_profile. cbn [table mbind result_bind]. eapply overflow_bind; [by apply (fraction_item_ok _ _ x)|]. intros r [Hr1 Hr2].
  rewrite (int_item_ok _ _ n En) (str_item_ok _ _ m Hm). cbn [mbind result_bind].
  eapply overflow_bind; [by apply (fraction_item_ok _ _ y)|]. intros h [Hh1 Hh2].
  eapply overflow_bind; [by apply (ruin_ok _ _ t)|]. intros u Hu. split; try done. by apply (headroom _ x y req).
Qed.

Lemma built_profiles profiles : validate_profiles profiles = Ok [] ->
  unless_overflow (fun ps => ps.*1 = profiles.*1 /\ Forall (fun p => profile_ok p.2) ps) (build_profiles profiles).
Proof.
  induction profiles as [|[name params] profiles IH]; [by intros _; split|]. cbn [validate_profiles build_profiles]. cbv zeta.
  rewrite both_nil. intros [Hp Hrest]. destruct params as [| | | | | |params]; try done.
  eapply overflow_bind; [by eapply built_profile|]. intros p Hok. eapply overflow_bind; [by apply IH|]. intros ps [Hk Hall].
  split; [csimpl; by rewrite Hk|by constructor].
Qed.

Lemma dget_in {V} k (d : list (string * V)) : din k d = true -> exists v, dget k d = Some v /\ (k, v) ∈ d.
Proof. unfold din. destruct (dget k d) as [v|] eqn:E; [|done]. intros _. exists v. split; [done|by apply dget_elem]. Qed.
Lemma din_keys {V W} k (d : list (string * V)) (d' : list (string * W)) : d.*1 = d'.*1 -> din k d = din k d'.
Proof. intros E. apply eq_true_iff_eq. rewrite !din_spec /dkeys E. done. Qed.

(** One fact of a configuration's risk section. *)
Definition risk_ok (r : RiskConfig) : Prop :=
  Forall (fun p => profile_ok p.2) (rk_profiles r) /\ (exists p, active_profile_params r = Ok p /\ profile_ok p) /\
  (fraction (rk_max_daily_loss_pct r) /\ fraction (rk_max_drawdown_from_peak_pct r)) /\
  (rk_auto_flatten_enabled r = true -> positive (rk_auto_flatten_confirmation_seconds r)).

Lemma nonneg_number v : _is_nonnegative_number v = true -> exists x, number v = Some x /\ num_le (Int 0) x = true.
Proof. unfold _is_nonnegative_number. destruct (number v); naive_solver. Qed.

Lemma built_risk raw : _validate_risk raw = Ok [] -> exists d, dget "risk" raw = Some (TTable d) /\ unless_overflow risk_ok (build_risk d).
Proof.
  unfold _validate_risk. rewrite section_nil. intros (d & Hd & H). exists d. split; [done|]. clear Hd.
  destruct (supported _ _) as [ok|] eqn:Es; [|done]. cbn [mbind result_bind] in H.
  destruct (match dget "profiles" d with Some (TTable ((p :: d0) as profiles)) => (false, profiles) | _ => (true, []) end) as [none profiles] eqn:Ep.
  cbv zeta in H. rewrite !both_nil !report_nil !is_fraction_number in H.
  destruct H as (-> & Hnone & Hprofiles & Hactive & (l & El & Hl) & (w & Ew & Hw) & Hflat & Hconf).
  apply supported_true in Es as (a & Ea & _). rewrite Ea in Hactive. destruct none; [done|].
  assert (Epr : dget "profiles" d = Some (TTable profiles)) by (destruct (dget "profiles" d) as [[]|]; try done; destruct d0; try done; by injection Ep as <-).
  destruct (dget "auto_flatten_enabled" d) as [[]|] eqn:Ef; try done.
  unfold build_risk. rewrite (str_item_ok _ _ _ Ea) (section_of_ok _ _ _ Epr). cbn [mbind result_bind].
  eapply overflow_bind; [by apply built_profiles|]. intros ps [Hkeys Hall].
  eapply overflow_bind; [by apply (float_item_ok _ _ l)|]. intros l' Hl'. eapply overflow_bind; [by apply (float_item_ok _ _ w)|]. intros w' Hw'.
  rewrite (bool_item_ok _ _ _ Ef). cbn [mbind result_bind].
  destruct (_is_nonnegative_number (dget "auto_flatten_confirmation_seconds" d)) eqn:Ec; [|done]. cbn [negb] in Hconf.
  rewrite report_nil in Hconf. destruct (nonneg_number _ Ec) as (c & Enc & Hc0).
  eapply overflow_bind; [by apply (float_item_ok _ _ c)|]. intros c' Hc'. split_and!; cbn.
  - done.
  - cbn in Hactive. rewrite negb_involutive -(din_keys a ps profiles Hkeys) in Hactive. apply dget_in in Hactive as (p & Hp & Hin).
    exists p. unfold active_profile_params. cbn. rewrite Hp. split; [done|]. by apply (proj1 (Forall_forall _ _) Hall _ Hin).
  - by apply (stands_fraction l).
  - by apply (stands_fraction w).
  - intros ->. cbn in Hconf. rewrite negb_involutive in Hconf. apply is_positive_number in Hconf as (c2 & Ec2 & Hc2). rewrite Enc in Ec2.
    injection Ec2 as <-. by eapply stands_positive.
Qed.

Definition operational_ok (o : OperationalConfig) : Prop :=
  0 <= oc_max_retries o /\ (positive (oc_retry_base_delay_seconds o) /\ positive (oc_retry_max_delay_seconds o)) /\
  Forall positive [oc_clock_drift_tolerance_ms o; oc_data_staleness_price_ms o; oc_data_staleness_orderbook_ms o; oc_data_staleness_position_ms o].

Lemma positive_item key d : _is_positive_number (dget key d) = true -> unless_overflow positive (float_item key d).
Proof.
  intros (x & Ex & Hx)%is_positive_number. pose proof (float_item_ok _ _ _ Ex) as H. unfold unless_overflow in *.
  destruct (float_item key d); [by eapply stands_positive|done].
Qed.

Lemma built_operational raw : _validate_operational raw = Ok [] ->
  exists d, dget "operational" raw = Some (TTable d) /\ unless_overflow operational_ok (build_operational d).
Proof.
  unfold _validate_operational. rewrite section_nil. intros (d & Hd & H). exists d. split; [done|]. clear Hd. cbv zeta in H.
  unfold staleness_fields in H. cbn [check_positive] in H. rewrite !both_nil !report_nil in H.
  destruct H as (Hm & Hb & Hx & _ & H1 & H2 & H3 & H4 & _). destruct (dget "max_retries" d) as [[]|] eqn:Em; try done.
  unfold build_operational. rewrite (int_item_ok _ _ _ Em). cbn [mbind result_bind].
  do 6 (eapply overflow_bind; [by apply positive_item|]; intros ? ?). split_and!; [by apply Z.leb_le|done|done|by repeat constructor].
Qed.

Lemma built_secrets raw : _validate_secrets raw = Ok [] -> exists d s, dget "secrets" raw = Some (TTable d) /\ build_secrets d = Ok s /\
  ref_ok (sc_signing_key_ref s) /\ ref_ok (sc_telegram_bot_token_ref s) /\ forall w, sc_wallet_key_ref s = Some w -> ref_ok w.
Proof.
  unfold _validate_secrets. rewrite section_nil. intros (d & Hd & H). rewrite !both_nil !ref_nil in H.
  destruct H as ((k & Ek & Hk) & (t & Et & Ht) & Hw). exists d. unfold build_secrets. rewrite (str_item_ok _ _ _ Ek) (str_item_ok _ _ _ Et).
  cbn [mbind result_bind]. destruct (dget "wallet_key_ref" d) as [v|] eqn:Ev.
  - rewrite ref_nil in Hw. destruct Hw as (w & Ew & Hw). rewrite (str_item_ok _ _ w); [by rewrite Ev|]. eexists. split_and!; [done..|]. by intros w' [= <-].
  - eexists. by split_and!.
Qed.

Lemma checked_str values section key raw at_ :
  with_section raw section (fun d => check_supported values (dget key d) at_) = Ok [] ->
  exists d s, dget section raw = Some (TTable d) /\ dget key d = Some (TStr s) /\ s ∈ values.
Proof. rewrite section_nil. intros (d & Hd & (s & Hs & Hin)%check_supported_nil). by exists d, s. Qed.

Lemma built_exchange raw : _validate_exchange raw = Ok [] -> exists d x, dget "exchange" raw = Some (TTable d) /\ build_exchange d = Ok x /\
  xc_name x ∈ SUPPORTED_EXCHANGES /\ xc_network x ∈ SUPPORTED_NETWORKS.
Proof.
  unfold _validate_exchange. rewrite section_nil. intros (d & Hd & H). rewrite both_nil !check_supported_nil in H.
  destruct H as ((n & En & Hn) & (w & Ew & Hw)). exists d. eexists. unfold build_exchange.
  rewrite (str_item_ok _ _ _ En) (str_item_ok _ _ _ Ew). by split_and!.
Qed.

Lemma texts_ok l ss : texts l = Some ss -> Forall (fun s => blank s = false) ss /\ length ss = length l.
Proof.
  unfold texts. rewrite mapM_Some. induction 1 as [|v s l ss Hv _ [IH1 IH2]]; [done|]. apply text_Some in Hv as [_ Hb].
  split; [by constructor|by cbn; rewrite IH2].
Qed.

Lemma built_universe raw : _validate_universe raw = Ok [] -> exists d u, dget "universe" raw = Some (TTable d) /\ build_universe d = Ok u /\
  u <> [] /\ NoDup u /\ Forall (fun s => blank s = false /\ str_forall upper_stable s = true) u.
Proof.
  unfold _validate_universe. rewrite section_nil. intros (d & Hd & H). exists d.
  destruct (dget "symbols" d) as [[| | | | |[|v l]|]|] eqn:El; try done. destruct (texts (v :: l)) as [u|] eqn:Eu; [|done].
  rewrite both_nil !report_nil in H. destruct H as [Hn%bool_decide_eq_true Hup]. exists u. destruct (texts_ok _ _ Eu) as [Hb Hlen].
  unfold build_universe, item. rewrite El. cbn [of_option mbind result_bind strings_of]. rewrite Eu. split_and!; try done; [by destruct u|].
  apply Forall_and. split; [done|]. apply Forall_forall. intros s Hs%list_elem_of_In. by apply (proj1 (forallb_forall _ _) Hup).
Qed.

Lemma built_telegram raw : _validate_telegram raw = Ok [] -> exists d t, dget "telegram" raw = Some (TTable d) /\ build_telegram d = Ok t /\
  (tc_enabled t = true -> exists s, tc_chat_id t = TStr s /\ blank s = false).
Proof.
  unfold _validate_telegram. rewrite section_nil. intros (d & Hd & H). exists d. cbv zeta in H. rewrite both_nil !report_nil in H.
  destruct H as [Hb Hc]. destruct (dget "enabled" d) as [[]|] eqn:Ee; try done. unfold build_telegram. rewrite (bool_item_ok _ _ _ Ee).
  cbn [mbind result_bind]. eexists. split_and!; [done..|]. cbn. intros ->. cbn in Hc. destruct (text (dget "chat_id" d)) as [s|] eqn:Et; [|done].
  apply text_Some in Et as [-> Hbl]. exists s. split; [|done]. cbn. by destruct s.
Qed.

Lemma built_logging raw : _validate_logging raw = Ok [] -> exists d l, dget "logging" raw = Some (TTable d) /\ build_logging d = Ok l /\
  lc_level l ∈ SUPPORTED_LOG_LEVELS /\ blank (lc_directory l) = false.
Proof.
  unfold _validate_logging. rewrite section_nil. intros (d & Hd & H). exists d. rewrite both_nil check_supported_nil report_nil in H.
  destruct H as [(l & El & Hl) Ht]. destruct (text (dget "directory" d)) as [s|] eqn:Es; [|done]. apply text_Some in Es as [Es Hb].
  unfold build_logging. rewrite (str_item_ok _ _ _ El) (str_item_ok _ _ _ Es). eexists. by split_and!.
Qed.

Lemma built raw : _validate raw = Ok [] -> unless_overflow config_ok (_build raw).
Proof.
  unfold _validate. rewrite !both_nil. intros (He & Hx & Hu & Hr & Ho & Hs & Ht & Hl).
  apply checked_str in He as (de & m & Ee & Em & Hm). apply built_exchange in Hx as (dx & x & Ex & Bx & Hx).
  apply built_universe in Hu as (du & u & Eu & Bu & Hu). apply built_risk in Hr as (dr & Er & Br).
  apply built_operational in Ho as (dO & Eo & Bo). apply built_secrets in Hs as (ds & s & Es & Bs & Hs).
  apply built_telegram in Ht as (dt & t & Et & Bt & Ht). apply built_logging in Hl as (dl & l & El & Bl & Hl).
  unfold _build. rewrite (section_of_ok _ _ _ Ee) (section_of_ok _ _ _ Ex) (section_of_ok _ _ _ Eu) (section_of_ok _ _ _ Er)
    (section_of_ok _ _ _ Eo) (section_of_ok _ _ _ Es) (section_of_ok _ _ _ Et) (section_of_ok _ _ _ El). cbn [mbind result_bind].
  rewrite (str_item_ok _ _ _ Em) Bx Bu. cbn [mbind result_bind]. eapply overflow_bind; [exact Br|]. intros r (Hr1 & Hr2 & Hr3 & Hr4).
  eapply overflow_bind; [exact Bo|]. intros o (Ho1 & Ho2 & Ho3). rewrite Bs Bt Bl. cbn [mbind result_bind].
  split; cbn; try done.
Qed.

(** ** The requirements *)

(** A requirement and the issue that reports that it is not met. *)
Definition requirement : Type := Prop * issue.

(** The issues of the requirements that are not met, each once, in order. *)
Inductive unmet : list requirement -> list issue -> Prop :=
| unmet_nil : unmet [] []
| unmet_met (req : Prop) i reqs issues : req -> unmet reqs issues -> unmet ((req, i) :: reqs) issues
| unmet_not (req : Prop) i reqs issues : ~ req -> unmet reqs issues -> unmet ((req, i) :: reqs) (i :: issues).

Definition one_of (values : list string) (v : option toml) : Prop := exists s, v = Some (TStr s) /\ s ∈ values.
Definition text_there (v : option toml) : Prop := exists s, v = Some (TStr s) /\ blank s = false.
Definition is_bool (v : option toml) : Prop := exists b, v = Some (TBool b).
(** An integer, or a number, within bounds. *)
Definition integer_from (k : Z) (v : option toml) : Prop := exists z, v = Some (TInt z) /\ k <= z.
Definition number_that (p : num -> bool) (v : option toml) : Prop := exists x, number v = Some x /\ p x = true.
Notation unit_fraction := (number_that (fun x => above 0 x && at_most x 1)).
Notation positive_number := (number_that (above 0)).

(** The requirements on a section that must be there. *)
Definition in_section (raw : list (string * toml)) (section : string) (reqs : list (string * toml) -> list requirement) : list requirement :=
  match dget section raw with Some (TTable d) => reqs d | _ => [(False, (section, Required))] end.

Definition environment_reqs (d : list (string * toml)) : list requirement :=
  [(one_of SUPPORTED_ENVIRONMENTS (dget "mode" d), ("environment.mode", NotSupported))].
Definition exchange_reqs (d : list (string * toml)) : list requirement :=
  [(one_of SUPPORTED_EXCHANGES (dget "name" d), ("exchange.name", NotSupported));
   (one_of SUPPORTED_NETWORKS (dget "network" d), ("exchange.network", NotSupported))].
Definition universe_reqs (d : list (string * toml)) : list requirement :=
  match dget "symbols" d with
  | Some (TList (s :: symbols)) =>
      match texts (s :: symbols) with
      | Some l => [(NoDup l, ("universe.symbols", Duplicates));
                   (Forall (fun s => str_forall upper_stable s = true) l, ("universe.symbols", NotUpper))]
      | None => [(False, ("universe.symbols", NotText))]
      end
  | _ => [(False, ("universe.symbols", NotList))]
  end.

(** The headroom is asked of a profile whose other numbers are in order. *)
Definition headroom_kept (params : list (string * toml)) : Prop :=
  forall n r h required, dget "max_positions" params = Some (TInt n) -> 1 <= n ->
    number (dget "risk_pct_per_trade" params) = Some r -> above 0 r && at_most r 1 = true ->
    number (dget "heat_cap" params) = Some h -> times n r = Ok required -> num_le h required = false.
Definition profile_reqs (at_ : string) (params : list (string * toml)) : list requirement :=
  [(unit_fraction (dget "risk_pct_per_trade" params), (at_ +:+ ".risk_pct_per_trade", NotFraction));
   (integer_from 1 (dget "max_positions" params), (at_ +:+ ".max_positions", NotPositiveInt));
   (one_of SUPPORTED_SIZING_MODES (dget "sizing_mode" params), (at_ +:+ ".sizing_mode", NotSupported))] ++
  (if _is_fraction (dget "heat_cap" params) then [(headroom_kept params, (at_ +:+ ".heat_cap", NoHeadroom))]
   else [(False, (at_ +:+ ".heat_cap", NotFraction))]) ++
  [(number_that (fun x => above 0 x && below x 1) (dget "ruin_threshold" params), (at_ +:+ ".ruin_threshold", NotFraction))].
Definition profiles_of (d : list (string * toml)) : list (string * toml) :=
  match dget "profiles" d with Some (TTable profiles) => profiles | _ => [] end.
Definition profiles_reqs (profiles : list (string * toml)) : list requirement :=
  concat (map (fun p => let at_ := "risk.profiles." +:+ p.1 in
                        match p.2 with TTable params => profile_reqs at_ params | _ => [(False, (at_, NotTable))] end) profiles).
Definition risk_reqs (d : list (string * toml)) : list requirement :=
  [(one_of SUPPORTED_RISK_PROFILE_NAMES (dget "profile" d), ("risk.profile", NotSupported));
   (profiles_of d <> [], ("risk.profiles", NoProfiles))] ++
  profiles_reqs (profiles_of d) ++
  [(forall a, dget "profile" d = Some (TStr a) -> a ∈ SUPPORTED_RISK_PROFILE_NAMES -> a ∈ (profiles_of d).*1, ("risk.profile", NotDefined));
   (unit_fraction (dget "max_daily_loss_pct" d), ("risk.max_daily_loss_pct", NotFraction));
   (unit_fraction (dget "max_drawdown_from_peak_pct" d), ("risk.max_drawdown_from_peak_pct", NotFraction));
   (is_bool (dget "auto_flatten_enabled" d), ("risk.auto_flatten_enabled", NotBool))] ++
  (if _is_nonnegative_number (dget "auto_flatten_confirmation_seconds" d)
   then [(dget "auto_flatten_enabled" d = Some (TBool true) -> positive_number (dget "auto_flatten_confirmation_seconds" d),
          ("risk.auto_flatten_confirmation_seconds", Unconfirmed))]
   else [(False, ("risk.auto_flatten_confirmation_seconds", NotNonNegative))]).
Definition operational_reqs (d : list (string * toml)) : list requirement :=
  [(integer_from 0 (dget "max_retries" d), ("operational.max_retries", NotNonNegativeInt));
   (positive_number (dget "retry_base_delay_seconds" d), ("operational.retry_base_delay_seconds", NotPositive));
   (positive_number (dget "retry_max_delay_seconds" d), ("operational.retry_max_delay_seconds", NotPositive));
   (forall b m, number (dget "retry_base_delay_seconds" d) = Some b -> above 0 b = true ->
      number (dget "retry_max_delay_seconds" d) = Some m -> above 0 m = true -> num_lt m b = false,
    ("operational.retry_base_delay_seconds", BaseOverMax))] ++
  map (fun f => (positive_number (dget f d), ("operational." +:+ f, NotPositive))) staleness_fields.
Definition ref_reqs (v : option toml) (at_ : string) : list requirement :=
  match text v with
  | None => [(False, (at_, NotText))]
  | Some s => [(_looks_like_raw_secret s = false, (at_, RawSecret))]
  end.
Definition secrets_reqs (d : list (string * toml)) : list requirement :=
  ref_reqs (dget "signing_key_ref" d) "secrets.signing_key_ref" ++
  ref_reqs (dget "telegram_bot_token_ref" d) "secrets.telegram_bot_token_ref" ++
  match dget "wallet_key_ref" d with None => [] | v => ref_reqs v "secrets.wallet_key_ref" end.
Definition telegram_reqs (d : list (string * toml)) : list requirement :=
  [(is_bool (dget "enabled" d), ("telegram.enabled", NotBool));
   (dget "enabled" d = Some (TBool true) -> text_there (dget "chat_id" d), ("telegram.chat_id", NotText))].
Definition logging_reqs (d : list (string * toml)) : list requirement :=
  [(one_of SUPPORTED_LOG_LEVELS (dget "level" d), ("logging.level", NotSupported));
   (text_there (dget "directory" d), ("logging.directory", NotText))].

(** Every requirement on a document. *)
Definition requirements (raw : list (string * toml)) : list requirement :=
  in_section raw "environment" environment_reqs ++ in_section raw "exchange" exchange_reqs ++
  in_section raw "universe" universe_reqs ++ in_section raw "risk" risk_reqs ++
  in_section raw "operational" operational_reqs ++ in_section raw "secrets" secrets_reqs ++
  in_section raw "telegram" telegram_reqs ++ in_section raw "logging" logging_reqs.

(** *** Checking them *)

(** A check that returns lists the requirements that are not met. *)
Definition lists (r : result (list issue)) (reqs : list requirement) : Prop := forall issues, r = Ok issues -> unmet reqs issues.

Lemma unmet_app reqs reqs' issues issues' : unmet reqs issues -> unmet reqs' issues' -> unmet (reqs ++ reqs') (issues ++ issues').
Proof. induction 1; intros H'; cbn [app]; [done|by apply unmet_met; auto|by apply unmet_not; auto]. Qed.
Lemma unmet_none reqs : unmet reqs [] -> Forall fst reqs.
Proof. remember [] as issues eqn:E. induction 1; [constructor|constructor; [done|by auto]|done]. Qed.

Lemma lists_both a b reqs reqs' : lists a reqs -> lists b reqs' -> lists (a ;+ b) (reqs ++ reqs').
Proof.
  intros Ha Hb issues. unfold both. destruct a as [x|]; [|done]. destruct b as [y|]; [|done]. cbn. intros [= <-]. apply unmet_app; auto.
Qed.
Lemma lists_cons a b q reqs : lists a [q] -> lists b reqs -> lists (a ;+ b) (q :: reqs).
Proof. apply (lists_both _ _ [q]). Qed.
Lemma lists_report ok (req : Prop) at_ p : (ok = true <-> req) -> lists (report ok at_ p) [(req, (at_, p))].
Proof. intros H issues [= <-]. destruct ok; [apply unmet_met; [by apply H|constructor]|apply unmet_not; [by intros ?%H|constructor]]. Qed.
Lemma lists_fails at_ p : lists (Ok [(at_, p)]) [(False, (at_, p))].
Proof. intros issues [= <-]. apply unmet_not; [by intros []|constructor]. Qed.
Lemma lists_section raw s check reqs : (forall d, lists (check d) (reqs d)) -> lists (with_section raw s check) (in_section raw s reqs).
Proof. intros H. unfold with_section, in_section. destruct (dget s raw) as [[]|]; auto using lists_fails. Qed.
Lemma lists_supported values v at_ : lists (check_supported values v at_) [(one_of values v, (at_, NotSupported))].
Proof.
  intros issues. unfold check_supported. destruct (supported values v) as [ok|] eqn:E; [|done]. cbn [mbind result_bind].
  apply lists_report. unfold one_of. rewrite -supported_true E. split; congruence.
Qed.
Lemma lists_ref v at_ : lists (check_ref v at_) (ref_reqs v at_).
Proof. unfold check_ref, ref_reqs. destruct (text v) as [s|]; [|apply lists_fails]. apply lists_report. by destruct (_looks_like_raw_secret s). Qed.

Lemma text_is_there v : match text v with Some _ => true | None => false end = true <-> text_there v.
Proof.
  unfold text_there. destruct (text v) as [s|] eqn:E; [split; [|done]; intros _; exists s; by apply text_Some|split; [done|]].
  intros (s & Hs). apply text_Some in Hs. congruence.
Qed.
Lemma bool_is_bool v : match v with Some (TBool _) => true | _ => false end = true <-> is_bool v.
Proof. unfold is_bool. destruct v as [[]|]; split; try done; try (by intros (? & [= ])). by eexists. Qed.
Lemma integer_is_integer k v : match v with Some (TInt z) => k <=? z | _ => false end = true <-> integer_from k v.
Proof. unfold integer_from. destruct v as [[]|]; split; try done; try (by intros (? & [= ] & _)); [intros ?%Z.leb_le; by eexists|by intros (? & [= ->] & ?%Z.leb_le)]. Qed.
Lemma positive_int_is v : match positive_int v with Some _ => true | None => false end = true <-> integer_from 1 v.
Proof. rewrite -integer_is_integer. destruct v as [[]|]; try done. cbn. by destruct (1 <=? z). Qed.
Lemma number_is p v : match number v with Some x => p x | None => false end = true <-> number_that p v.
Proof. unfold number_that. destruct (number v); naive_solver. Qed.

Lemma lists_headroom at_ params : lists
  (if negb (_is_fraction (dget "heat_cap" params)) then Ok [(at_ +:+ ".heat_cap", NotFraction)] else
   match _is_fraction (dget "risk_pct_per_trade" params), positive_int (dget "max_positions" params),
         number (dget "risk_pct_per_trade" params), number (dget "heat_cap" params) with
   | true, Some n, Some r, Some h => required_headroom ← times n r; report (negb (num_le h required_headroom)) (at_ +:+ ".heat_cap") NoHeadroom
   | _, _, _, _ => Ok []
   end)
  (if _is_fraction (dget "heat_cap" params) then [(headroom_kept params, (at_ +:+ ".heat_cap", NoHeadroom))]
   else [(False, (at_ +:+ ".heat_cap", NotFraction))]).
Proof.
  destruct (_is_fraction (dget "heat_cap" params)); [|apply lists_fails]. cbn [negb].
  assert (Hvoid : headroom_kept params -> lists (Ok []) [(headroom_kept params, (at_ +:+ ".heat_cap", NoHeadroom))]).
  { intros H issues [= <-]. apply unmet_met; [exact H|constructor]. }
  destruct (_is_fraction (dget "risk_pct_per_trade" params)) eqn:Er.
  2: { apply Hvoid. intros n r h req _ _ E1 E2. unfold _is_fraction in Er. rewrite E1 in Er. congruence. }
  destruct (positive_int (dget "max_positions" params)) as [n|] eqn:En.
  2: { apply Hvoid. intros n r h req E1 E2. rewrite E1 /= in En. destruct (Z.leb_spec 1 n); [done|lia]. }
  destruct (number (dget "risk_pct_per_trade" params)) as [r|] eqn:Enr; [|apply Hvoid; intros ?????; congruence].
  destruct (number (dget "heat_cap" params)) as [h|] eqn:Eh; [|apply Hvoid; intros ?????????; congruence].
  destruct (times n r) as [req|] eqn:Et; [|done]. cbn [mbind result_bind]. apply lists_report. apply positive_int_Some in En as [En Hn].
  unfold headroom_kept. rewrite En Enr Eh negb_true_iff. split.
  - intros H n' r' h' req' [= <-] _ [= <-] _ [= <-]. rewrite Et. by intros [= <-].
  - intros H. apply (H n r h req); try done. unfold _is_fraction in Er. by rewrite Enr in Er.
Qed.

Lemma lists_profile at_ params : lists (_validate_risk_profile_params at_ params) (profile_reqs at_ params).
Proof.
  unfold _validate_risk_profile_params, profile_reqs. cbv zeta. cbn [app].
  apply lists_cons; [apply lists_report; unfold _is_fraction; apply number_is|]. apply lists_cons; [apply lists_report, positive_int_is|].
  apply lists_cons; [apply lists_supported|]. apply lists_both; [apply lists_headroom|]. apply lists_report, number_is.
Qed.
Lemma lists_profiles profiles : lists (validate_profiles profiles) (profiles_reqs profiles).
Proof.
  induction profiles as [|[name v] profiles IH]; [intros issues [= <-]; constructor|]. cbn [validate_profiles]. cbv zeta.
  apply (lists_both _ _ _ (profiles_reqs profiles)); [|exact IH]. cbn [fst snd]. destruct v; auto using lists_fails, lists_profile.
Qed.

Lemma lists_risk d : lists
  (active_ok ← supported SUPPORTED_RISK_PROFILE_NAMES (dget "profile" d);
   let '(no_profiles, profiles) := match dget "profiles" d with
                                   | Some (TTable ((p :: d) as profiles)) => (false, profiles) | _ => (true, []) end in
   let auto_flatten := dget "auto_flatten_enabled" d in
   let confirm_seconds := dget "auto_flatten_confirmation_seconds" d in
   report active_ok "risk.profile" NotSupported ;+
   report (negb no_profiles) "risk.profiles" NoProfiles ;+
   validate_profiles profiles ;+
   report (negb (active_ok && match dget "profile" d with Some (TStr active) => negb (din active profiles) | _ => false end))
     "risk.profile" NotDefined ;+
   report (_is_fraction (dget "max_daily_loss_pct" d)) "risk.max_daily_loss_pct" NotFraction ;+
   report (_is_fraction (dget "max_drawdown_from_peak_pct" d)) "risk.max_drawdown_from_peak_pct" NotFraction ;+
   report (match auto_flatten with Some (TBool _) => true | _ => false end) "risk.auto_flatten_enabled" NotBool ;+
   (if negb (_is_nonnegative_number confirm_seconds) then Ok [("risk.auto_flatten_confirmation_seconds", NotNonNegative)] else
    report (negb (match auto_flatten with Some (TBool b) => b | _ => false end && negb (_is_positive_number confirm_seconds)))
      "risk.auto_flatten_confirmation_seconds" Unconfirmed))
  (risk_reqs d).
Proof.
  intros issues. destruct (supported _ _) as [ok|] eqn:Es; [|done]. cbn [mbind result_bind].
  assert (Hok : ok = true <-> one_of SUPPORTED_RISK_PROFILE_NAMES (dget "profile" d)) by (unfold one_of; rewrite -supported_true Es; split; congruence).
  destruct (match dget "profiles" d with Some (TTable ((p :: d0) as profiles)) => (false, profiles) | _ => (true, []) end) as [none profiles] eqn:Ep.
  assert (Hp : profiles = profiles_of d /\ (negb none = true <-> profiles_of d <> [])).
  { unfold profiles_of. by destruct (dget "profiles" d) as [[| | | | | |[|]]|]; injection Ep as <- <-. }
  destruct Hp as [-> Hnone]. cbv zeta. revert issues. unfold risk_reqs. cbn [app].
  apply lists_cons; [by apply lists_report|]. apply lists_cons; [by apply lists_report|]. apply lists_both; [apply lists_profiles|]. cbn [app].
  apply lists_cons.
  { apply lists_report. rewrite negb_true_iff andb_false_iff. unfold one_of in Hok. destruct (dget "profile" d) as [[a| | | | | |]|];
      try (split; [by intros _ ? [= ]|by right]).
    rewrite negb_false_iff din_spec. split.
    - intros [->|H] a' [= <-] Hin; [|exact H]. assert (false = true); [|done]. apply Hok. by exists a.
    - intros H. destruct ok; [right|by left]. destruct (proj1 Hok eq_refl) as (? & [= <-] & Hin). by apply H. }
  apply lists_cons; [apply lists_report; unfold _is_fraction; apply number_is|].
  apply lists_cons; [apply lists_report; unfold _is_fraction; apply number_is|].
  apply lists_cons; [apply lists_report, bool_is_bool|].
  destruct (_is_nonnegative_number _); [|apply lists_fails]. cbn [negb]. apply lists_report. rewrite -number_is. unfold _is_positive_number.
  rewrite negb_true_iff andb_false_iff negb_false_iff.
  unfold number_that. destruct (dget "auto_flatten_enabled" d) as [[| | |[]| | |]|]; (split; [intros [?|?]; done|intros H; auto]); by left.
Qed.

Lemma lists_operational d : lists
  (report (match dget "max_retries" d with Some (TInt z) => 0 <=? z | _ => false end) "operational.max_retries" NotNonNegativeInt ;+
   report (_is_positive_number (dget "retry_base_delay_seconds" d)) "operational.retry_base_delay_seconds" NotPositive ;+
   report (_is_positive_number (dget "retry_max_delay_seconds" d)) "operational.retry_max_delay_seconds" NotPositive ;+
   report (negb (_is_positive_number (dget "retry_base_delay_seconds" d) && _is_positive_number (dget "retry_max_delay_seconds" d) &&
                 match number (dget "retry_base_delay_seconds" d), number (dget "retry_max_delay_seconds" d) with
                 | Some b, Some m => num_lt m b | _, _ => false end)) "operational.retry_base_delay_seconds" BaseOverMax ;+
   check_positive d staleness_fields)
  (operational_reqs d).
Proof.
  unfold operational_reqs. cbn [app]. apply lists_cons; [apply lists_report, integer_is_integer|].
  apply lists_cons; [apply lists_report, number_is|]. apply lists_cons; [apply lists_report, number_is|]. apply lists_cons.
  - apply lists_report. unfold _is_positive_number. destruct (number (dget "retry_base_delay_seconds" d)) as [b|]; [|split; [by intros _ ? ? [= ]|done]].
    destruct (number (dget "retry_max_delay_seconds" d)) as [m|]; [|split; [by intros _ ? ? _ _ [= ]|by rewrite andb_false_r]].
    rewrite negb_true_iff !andb_false_iff. split; [intros H b' m' [= <-] Hb [= <-] Hm; destruct H as [[H|H]|H]; congruence|].
    intros H. specialize (H b m eq_refl). destruct (above 0 b); [|by left; left]. specialize (H eq_refl eq_refl).
    destruct (above 0 m); [right; by apply H|by left; right].
  - generalize staleness_fields. intros fields. induction fields as [|f fields IH]; [intros issues [= <-]; constructor|].
    cbn [check_positive map]. apply lists_cons; [apply lists_report, number_is|exact IH].
Qed.

(** The checks report exactly the requirements that are not met. *)
Lemma lists_validate raw : lists (_validate raw) (requirements raw).
Proof.
  unfold _validate, requirements. repeat apply lists_both; apply lists_section; intros d.
  - apply lists_supported.
  - apply lists_cons; apply lists_supported.
  - unfold universe_reqs. destruct (dget "symbols" d) as [[| | | | |[|s l]|]|]; auto using lists_fails.
    destruct (texts _) as [ss|]; [|apply lists_fails]. apply lists_cons; apply lists_report; [apply bool_decide_eq_true|].
    by rewrite forallb_forall Forall_forall; setoid_rewrite list_elem_of_In.
  - apply lists_risk.
  - apply lists_operational.
  - apply lists_both; [apply lists_ref|]. apply lists_both; [apply lists_ref|].
    destruct (dget "wallet_key_ref" d); [apply lists_ref|intros issues [= <-]; constructor].
  - apply lists_cons; apply lists_report; [apply bool_is_bool|]. rewrite -text_is_there negb_true_iff andb_false_iff.
    destruct (dget "enabled" d) as [[| | |[]| | |]|], (Config.text _); naive_solver.
  - apply lists_cons; [apply lists_supported|apply lists_report, text_is_there].
Qed.

(** ** Documents for which the loader raises its own exceptions only *)

(** What a set can be asked for, what can be overridden in, and numbers that
    are no integers beyond the floats. *)
Definition hashable (v : option toml) : bool := match v with Some (TList _ | TTable _) => false | _ => true end.
Definition tabular (v : option toml) : bool := match v with None | Some (TTable _) => true | _ => false end.
Fixpoint floats (v : toml) : bool :=
  match v with
  | TInt z => Z.abs z <? 2 ^ 1024 - 2 ^ 970
  | TList l => forallb floats l
  | TTable d => forallb (fun p => floats p.2) d
  | _ => true
  end.

Definition document (file : toml_file) (env : list (string * string)) : result (list (string * toml)) :=
  raw ← _read_toml file; _apply_env_overrides raw env.
Definition overridable : list (string * string) :=
  [(_ENV_MODE_OVERRIDE, "environment"); (_ENV_SIGNING_KEY_REF_OVERRIDE, "secrets");
   (_ENV_TELEGRAM_TOKEN_REF_OVERRIDE, "secrets"); (_ENV_WALLET_KEY_REF_OVERRIDE, "secrets")].

Record plain (raw : list (string * toml)) : Prop := {
  pl_choices : Forall (fun c => forall d, dget c.1 raw = Some (TTable d) -> hashable (dget c.2 d) = true)
    [("environment", "mode"); ("exchange", "name"); ("exchange", "network"); ("risk", "profile"); ("logging", "level")];
  pl_modes : forall d name params, dget "risk" raw = Some (TTable d) -> (name, TTable params) ∈ profiles_of d ->
    hashable (dget "sizing_mode" params) = true;
  pl_floats : floats (TTable raw) = true
}.

(** A file in UTF-8, with tables where the environment overrides something, of
    which the document is plain. *)
Record ordinary (file : toml_file) (env : list (string * string)) : Prop := {
  od_text : file <> NotUtf8;
  od_tables : forall d, file = Parsed d -> Forall (fun o => din o.1 env = true -> tabular (dget o.2 d) = true) overridable;
  od_plain : forall raw, document file env = Ok raw -> plain raw
}.

Lemma floats_get d k v : floats (TTable d) = true -> dget k d = Some v -> floats v = true.
Proof. cbn. rewrite forallb_forall. intros H E%dget_elem%list_elem_of_In. by apply H in E. Qed.

(** *** Overriding *)

Lemma override_tabular v s k env raw raw' s' : override v s k env raw = Ok raw' -> tabular (dget s' raw) = true -> tabular (dget s' raw') = true.
Proof.
  unfold override. destruct (dget v env) as [x|]; [|by intros [= <-]]. intros E Ht. destruct (decide (s' = s)) as [->|Hs].
  - destruct (dget s raw) as [[]|]; try done; injection E as <-; by rewrite dget_dset_eq.
  - destruct (dget s raw) as [[]|]; try done; injection E as <-; by rewrite dget_dset_ne.
Qed.
Lemma override_ok v s k env raw : (din v env = true -> tabular (dget s raw) = true) -> exists raw', override v s k env raw = Ok raw'.
Proof.
  unfold override, din. destruct (dget v env) as [x|]; [|by eexists]. intros H. specialize (H eq_refl).
  destruct (dget s raw) as [[]|]; try done; by eexists.
Qed.
Lemma overrides_ok raw env : Forall (fun o => din o.1 env = true -> tabular (dget o.2 raw) = true) overridable ->
  exists raw', _apply_env_overrides raw env = Ok raw'.
Proof.
  unfold overridable. rewrite !Forall_cons. intros (H1 & H2 & H3 & H4 & _). cbn [fst snd] in *. unfold _apply_env_overrides.
  destruct (override_ok _ _ "mode" env raw H1) as [r1 E1]. rewrite E1. cbn [mbind result_bind].
  destruct (override_ok _ _ "signing_key_ref" env r1 (fun h => override_tabular _ _ _ _ _ _ _ E1 (H2 h))) as [r2 E2]. rewrite E2. cbn [mbind result_bind].
  destruct (override_ok _ _ "telegram_bot_token_ref" env r2 (fun h => override_tabular _ _ _ _ _ _ _ E2 (override_tabular _ _ _ _ _ _ _ E1 (H3 h)))) as [r3 E3].
  rewrite E3. cbn [mbind result_bind].
  apply override_ok. intros h. eapply override_tabular; [exact E3|]. eapply override_tabular; [exact E2|]. eapply override_tabular; [exact E1|]. auto.
Qed.

(** *** Checking *)

Definition calm {A} (r : result A) : Prop := is_ok r = true.
Lemma calm_both a b : calm a -> calm b -> calm (a ;+ b).
Proof. unfold calm, both. destruct a; [|done]. by destruct b. Qed.
Lemma calm_section raw s check : (forall d, dget s raw = Some (TTable d) -> calm (check d)) -> calm (with_section raw s check).
Proof. intros H. unfold with_section. destruct (dget s raw) as [[]|]; try done. by apply H. Qed.
Lemma calm_supported values v : hashable v = true -> exists ok, supported values v = Ok ok.
Proof. destruct v as [[]|]; try done; by eexists. Qed.
Lemma calm_check values v a : hashable v = true -> calm (check_supported values v a).
Proof. intros (ok & E)%(calm_supported values). unfold check_supported. by rewrite E. Qed.
Lemma calm_ref v a : calm (check_ref v a).
Proof. unfold check_ref. by destruct (text v). Qed.

Lemma float_of_Z_ok z : floats (TInt z) = true -> exists f, float_of_Z z = Ok f.
Proof. cbn [floats]. unfold float_of_Z. intros ->. by eexists. Qed.
Lemma calm_times n x : floats (TInt n) = true -> calm (times n x).
Proof. intros (f & E)%float_of_Z_ok. unfold calm. destruct x as [|[]]; try done. cbn [times]. by rewrite E. Qed.

Ltac calming := repeat first
  [ done | apply calm_both | apply calm_ref
  | match goal with |- calm (match ?x with _ => _ end) => destruct x eqn:? end ].

Lemma calm_profile p params : hashable (dget "sizing_mode" params) = true -> floats (TTable params) = true -> calm (_validate_risk_profile_params p params).
Proof.
  intros Hm Hf. unfold _validate_risk_profile_params. cbv zeta. apply calm_both; [done|]. apply calm_both; [done|].
  apply calm_both; [by apply calm_check|]. apply calm_both; [|done]. calming.
  match goal with E : positive_int _ = Some ?n |- _ => apply positive_int_Some in E as [E _]; pose proof (floats_get _ _ _ Hf E) as Hn end.
  match goal with |- calm (times ?n ?x ≫= _) => pose proof (calm_times n x Hn) as Ht; unfold calm in Ht; by destruct (times n x) end.
Qed.
Lemma calm_profiles profiles : floats (TTable profiles) = true ->
  (forall name params, (name, TTable params) ∈ profiles -> hashable (dget "sizing_mode" params) = true) -> calm (validate_profiles profiles).
Proof.
  induction profiles as [|[name v] profiles IH]; [done|]. intros Hf Hm. cbn [validate_profiles]. apply andb_true_iff in Hf as [Hv Hf]. cbn [snd] in Hv.
  apply calm_both; [destruct v as [| | | | | |params]; try done; apply calm_profile; [|done]; apply (Hm name); by left|].
  apply IH; [exact Hf|]. intros n p Hp. apply (Hm n). by right.
Qed.
Lemma calm_validate raw : plain raw -> calm (_validate raw).
Proof.
  intros [Hc Hm Hf]. repeat (apply Forall_cons in Hc as [? Hc]). clear Hc. cbn [fst snd] in *. unfold _validate.
  repeat apply calm_both; apply calm_section; intros d Hd; cbv zeta.
  - apply calm_check; auto.
  - apply calm_both; apply calm_check; auto.
  - calming.
  - destruct (calm_supported SUPPORTED_RISK_PROFILE_NAMES (dget "profile" d)) as (ok & E); [auto|]. rewrite E. cbn [mbind result_bind].
    destruct (match dget "profiles" d with Some (TTable ((p :: d0) as profiles)) => (false, profiles) | _ => (true, []) end) as [none profiles] eqn:Ep.
    assert (Hp : profiles = profiles_of d) by (unfold profiles_of; by destruct (dget "profiles" d) as [[| | | | | |[|]]|]; injection Ep as <- <-).
    subst profiles. pose proof (floats_get _ _ _ Hf Hd) as Hfd. repeat apply calm_both; try done; [|by destruct (negb _)].
    apply calm_profiles; [|by intros name params; apply Hm].
    unfold profiles_of. destruct (dget "profiles" d) as [[| | | | | |ps]|] eqn:Eps; try done. by apply (floats_get _ _ _ Hfd Eps).
  - calming.
  - calming.
  - calming.
  - apply calm_both; [apply calm_check; auto|done].
Qed.

(** *** Building *)

Definition no_overflow {A} (r : result A) : Prop := r <> Err OverflowError.
Lemma no_overflow_bind {A B} (r : result A) (f : A -> result B) : no_overflow r -> (forall x, r = Ok x -> no_overflow (f x)) -> no_overflow (r ≫= f).
Proof. intros Hr Hf. destruct r as [x|e]; [by apply Hf|]. intros [= ->]. by apply Hr. Qed.
Lemma no_overflow_item key d : no_overflow (item key d).
Proof. unfold item. by destruct (dget key d). Qed.
Lemma item_get key d v : item key d = Ok v -> dget key d = Some v.
Proof. unfold item. destruct (dget key d); [by intros [= ->]|done]. Qed.
Lemma no_overflow_section key raw : no_overflow (section_of key raw).
Proof. apply no_overflow_bind; [apply no_overflow_item|]. by intros [] _. Qed.
Lemma section_get key raw d : section_of key raw = Ok d -> dget key raw = Some (TTable d).
Proof.
  unfold section_of, item. destruct (dget key raw) as [[| | | | | |d']|]; try done. cbn. by intros [= ->].
Qed.
Lemma no_overflow_str key d : no_overflow (str_item key d).
Proof. apply no_overflow_bind; [apply no_overflow_item|]. by intros [] _. Qed.
Lemma no_overflow_int key d : no_overflow (int_item key d).
Proof. apply no_overflow_bind; [apply no_overflow_item|]. by intros [] _. Qed.
Lemma no_overflow_bool key d : no_overflow (bool_item key d).
Proof. apply no_overflow_bind; [apply no_overflow_item|]. by intros [] _. Qed.
Lemma no_overflow_float key d : floats (TTable d) = true -> no_overflow (float_item key d).
Proof.
  intros Hf. apply no_overflow_bind; [apply no_overflow_item|]. intros v Hv%item_get. pose proof (floats_get _ _ _ Hf Hv) as Hz.
  destruct v as [|z| | | | |]; try done. cbn [number to_float]. destruct (float_of_Z_ok z Hz) as [f ->]. done.
Qed.
Lemma no_overflow_fraction key d : floats (TTable d) = true -> no_overflow (fraction_item key d).
Proof. intros Hf. apply no_overflow_bind; [by apply no_overflow_float|]. by intros [] _. Qed.

#[local] Hint Resolve no_overflow_section no_overflow_str no_overflow_int no_overflow_bool no_overflow_float no_overflow_fraction no_overflow_item : overflow.
Ltac unflowing := repeat (apply no_overflow_bind; [by auto with overflow|intros ? ?]); try done.

Lemma no_overflow_profiles profiles : floats (TTable profiles) = true -> no_overflow (build_profiles profiles).
Proof.
  induction profiles as [|[name v] profiles IH]; [done|]. intros [Hv Hf]%andb_true_iff. cbn [build_profiles]. cbn [snd] in Hv.
  apply no_overflow_bind; [|intros p _; apply no_overflow_bind; [by apply IH|done]].
  unfold build_profile. destruct v as [| | | | | |params]; try done. cbn [table mbind result_bind]. unflowing.
Qed.
Lemma no_overflow_build raw : floats (TTable raw) = true -> no_overflow (_build raw).
Proof.
  intros Hf. unfold _build. do 3 (apply no_overflow_bind; [by auto with overflow|intros ? ?%section_get]).
  apply no_overflow_bind; [by auto with overflow|intros risk ?%section_get]. apply no_overflow_bind; [by auto with overflow|intros operational ?%section_get].
  do 3 (apply no_overflow_bind; [by auto with overflow|intros ? ?%section_get]).
  assert (Hs : forall k d, dget k raw = Some (TTable d) -> floats (TTable d) = true) by (intros k d E; by apply (floats_get _ _ _ Hf E)).
  apply no_overflow_bind; [by auto with overflow|intros ? _]. apply no_overflow_bind; [unfold build_exchange; unflowing|intros ? _].
  apply no_overflow_bind; [unfold build_universe; apply no_overflow_bind; [by auto with overflow|];
    intros [| | | | |l|] _; try done; cbn [strings_of]; by destruct (texts l)|intros ? _].
  apply no_overflow_bind.
  { unfold build_risk. apply no_overflow_bind; [by auto with overflow|intros ? _]. apply no_overflow_bind; [by auto with overflow|].
    intros ps Hps%section_get. assert (Hd : floats (TTable risk) = true) by eauto.
    apply no_overflow_bind; [apply no_overflow_profiles; by apply (floats_get _ _ _ Hd Hps)|intros ? _]. unflowing. }
  intros ? _. apply no_overflow_bind; [assert (Hd : floats (TTable operational) = true) by eauto; unfold build_operational; unflowing|intros ? _].
  apply no_overflow_bind; [|intros ? _; apply no_overflow_bind; [unfold build_telegram; unflowing|intros ? _];
    apply no_overflow_bind; [unfold build_logging; unflowing|done]].
  unfold build_secrets. do 2 (apply no_overflow_bind; [by auto with overflow|intros ? _]).
  apply no_overflow_bind; [|done]. destruct (dget "wallet_key_ref" _); [unflowing|done].
Qed.

(** C36: loading a configuration, from any file and environment. One that is
    returned meets every requirement, and is well-formed as it is built: its
    active profile is defined, the heat cap of every profile lies strictly above
    a full book in exact arithmetic (for a cap that is a double and fewer than
    2^53 positions, see [profile_ok]), references are no raw keys, delays and
    age limits are positive. A [ConfigValidationError] carries every issue
    found: exactly the requirements the document does not meet, each once, in
    their order, at least one. A [ConfigFileError] is raised for a file that is
    missing, unreadable or no TOML. Nothing else is raised for an ordinary
    document: a file in UTF-8 with tables where something is overridden, no
    list or table where a name is expected and no integer beyond the floats. *)
Theorem load_config_checked file env :
  match load_config file env with
  | inl c => config_ok c /\ exists raw, document file env = Ok raw /\ Forall fst (requirements raw)
  | inr (e, issues) =>
      (e = ConfigFileError /\ issues = [] /\ file ∈ [NoFile; Unreadable; NotToml]) \/
      (e = ConfigValidationError /\ issues <> [] /\ exists raw, document file env = Ok raw /\ unmet (requirements raw) issues) \/
      (issues = [] /\ ~ ordinary file env)
  end.
Proof.
  unfold load_config. destruct (_read_toml file) as [d|e] eqn:Er.
  2: { destruct file; cbn in Er; try done; injection Er as <-; [left; split_and!; [done|done|set_solver]..|].
       right; right. split; [done|]. by intros []. }
  cbn [mbind result_bind]. destruct file as [| | | |d']; try done. injection Er as ->.
  destruct (_apply_env_overrides d env) as [raw|e] eqn:Eo.
  2: { right; right. split; [done|]. intros [_ Ht _]. destruct (overrides_ok d env (Ht d eq_refl)) as [raw E]. congruence. }
  assert (Ed : document (Parsed d) env = Ok raw) by exact Eo.
  cbn [mbind result_bind]. pose proof (lists_validate raw) as Hl. destruct (_validate raw) as [issues|e] eqn:Ev.
  2: { right; right. split; [done|]. intros [_ _ Hp]. pose proof (calm_validate raw (Hp raw Ed)) as Hc. unfold calm in Hc. by rewrite Ev in Hc. }
  cbn [mbind result_bind]. specialize (Hl issues eq_refl). destruct issues as [|i issues]; [|right; left; by split_and!; [| |exists raw]].
  pose proof (built raw Ev) as Hb. destruct (_build raw) as [c|e] eqn:Eb.
  - split; [exact Hb|]. exists raw. split; [done|]. by apply unmet_none.
  - right; right. split; [done|]. intros [_ _ Hp]. apply (no_overflow_build raw (pl_floats _ (Hp raw Ed))). cbn in Hb. by rewrite Eb Hb.
Qed.

(** ** What the environment may change *)

Lemma override_other v s k env raw raw' s' : s' <> s -> override v s k env raw = Ok raw' -> dget s' raw' = dget s' raw.
Proof.
  intros Hs. unfold override. destruct (dget v env) as [x|]; [|by intros <-%(inj Ok)].
  destruct (dget s raw) as [[]|]; try done; intros <-%(inj Ok); by apply dget_dset_ne.
Qed.
Lemma overrides_other env raw raw' s : s ∉ ["environment"; "secrets"] -> _apply_env_overrides raw env = Ok raw' -> dget s raw' = dget s raw.
Proof.
  intros [H1 [H2 _]%not_elem_of_cons]%not_elem_of_cons. unfold _apply_env_overrides.
  destruct (override _ _ _ env raw) as [r1|] eqn:E1; [|done]. cbn [mbind result_bind]. destruct (override _ _ _ env r1) as [r2|] eqn:E2; [|done].
  cbn [mbind result_bind]. destruct (override _ _ _ env r2) as [r3|] eqn:E3; [|done]. intros E4.
  rewrite (override_other _ _ _ _ _ _ s H2 E4) (override_other _ _ _ _ _ _ s H2 E3) (override_other _ _ _ _ _ _ s H2 E2).
  by apply (override_other _ _ _ _ _ _ s H1 E1).
Qed.

(** The parts of a configuration that do not come from the overridable sections. *)
Definition reviewed (c : EngineConfig) := (cf_exchange c, cf_universe c, cf_risk c, cf_operational c, cf_telegram c, cf_logging c).
Definition reviewed_of (raw : list (string * toml)) :=
  (x ← (d ← section_of "exchange" raw; build_exchange d);
   u ← (d ← section_of "universe" raw; build_universe d);
   r ← (d ← section_of "risk" raw; build_risk d);
   o ← (d ← section_of "operational" raw; build_operational d);
   t ← (d ← section_of "telegram" raw; build_telegram d);
   l ← (d ← section_of "logging" raw; build_logging d);
   Ok (x, u, r, o, t, l)).
Lemma build_reviewed raw c : _build raw = Ok c -> reviewed_of raw = Ok (reviewed c).
Proof.
  unfold _build, reviewed_of. destruct (section_of "environment" raw) as [de|]; [|done]. destruct (section_of "exchange" raw) as [dx|]; [|done].
  destruct (section_of "universe" raw) as [du|]; [|done]. destruct (section_of "risk" raw) as [dr|]; [|done].
  destruct (section_of "operational" raw) as [dO|]; [|done]. destruct (section_of "secrets" raw) as [ds|]; [|done].
  destruct (section_of "telegram" raw) as [dt|]; [|done]. destruct (section_of "logging" raw) as [dl|]; [|done]. cbn [mbind result_bind].
  destruct (str_item _ _); [|done]. cbn [mbind result_bind]. destruct (build_exchange _); [|done]. cbn [mbind result_bind].
  destruct (build_universe _); [|done]. cbn [mbind result_bind]. destruct (build_risk _); [|done]. cbn [mbind result_bind].
  destruct (build_operational _); [|done]. cbn [mbind result_bind]. destruct (build_secrets _); [|done]. cbn [mbind result_bind].
  destruct (build_telegram _); [|done]. cbn [mbind result_bind]. destruct (build_logging _); [|done]. by intros <-%(inj Ok).
Qed.

Lemma load_inv file env c : load_config file env = inl c -> exists d raw, file = Parsed d /\ _apply_env_overrides d env = Ok raw /\ _build raw = Ok c.
Proof.
  unfold load_config. destruct file as [| | | |d]; try done. cbn [_read_toml mbind result_bind].
  destruct (_apply_env_overrides d env) as [raw|] eqn:Ea; [|done]. cbn [mbind result_bind]. destruct (_validate raw) as [[|]|]; try done.
  cbn [mbind result_bind]. destruct (_build raw) as [c'|] eqn:Eb; [|done]. intros [= <-]. by exists d, raw.
Qed.

(** Safety. The environment cannot change how the engine trades: whatever
    the two environments, configurations loaded from the same file have the same
    exchange, universe, risk parameters, operational limits, Telegram and
    logging settings; only the mode and the references' names may differ. *)
Theorem environment_cannot_change_trading file env env' c c' :
  load_config file env = inl c -> load_config file env' = inl c' -> reviewed c = reviewed c'.
Proof.
  intros (d & raw & -> & Ha & Hb)%load_inv (d' & raw' & [= <-] & Ha' & Hb')%load_inv. apply (inj Ok).
  rewrite -(build_reviewed _ _ Hb) -(build_reviewed _ _ Hb').
  assert (E : forall s, s ∉ ["environment"; "secrets"] -> section_of s raw = section_of s raw').
  { intros s Hs. unfold section_of, item. by rewrite (overrides_other _ _ _ s Hs Ha) (overrides_other _ _ _ s Hs Ha'). }
  unfold reviewed_of. rewrite !E //; set_solver.
Qed.

(** ** Concrete files *)

Definition tfrac (n m : Z) : toml := TFloat (Fin (true_div n m)).
Definition sample_profile_table (risk : toml) (positions : Z) (heat : toml) : toml :=
  TTable [("risk_pct_per_trade", risk); ("max_positions", TInt positions); ("sizing_mode", TStr "fixed"); ("heat_cap", heat); ("ruin_threshold", tfrac 6 10)].
(** deploy/engine.paper.toml, with the mode, a profile and the staleness of prices left open. *)
Definition sample_toml (mode profile price : toml) : list (string * toml) :=
  [("environment", TTable [("mode", mode)]);
   ("exchange", TTable [("name", TStr "hyperliquid"); ("network", TStr "testnet")]);
   ("universe", TTable [("symbols", TList [TStr "BTC"; TStr "ETH"; TStr "SOL"])]);
   ("risk", TTable [("profile", TStr "BALANCED"); ("max_daily_loss_pct", tfrac 5 100); ("max_drawdown_from_peak_pct", tfrac 2 10);
      ("auto_flatten_enabled", TBool false); ("auto_flatten_confirmation_seconds", TInt 60); ("profiles", TTable [("BALANCED", profile)])]);
   ("operational", TTable [("max_retries", TInt 5); ("retry_base_delay_seconds", tfrac 1 2); ("retry_max_delay_seconds", TInt 30);
      ("clock_drift_tolerance_ms", TInt 250); ("data_staleness_price_ms", price); ("data_staleness_orderbook_ms", TInt 3000);
      ("data_staleness_position_ms", TInt 10000)]);
   ("secrets", TTable [("signing_key_ref", TStr "hyperliquid_signing_key_v1"); ("telegram_bot_token_ref", TStr "telegram_bot_token_v1")]);
   ("telegram", TTable [("enabled", TBool true); ("chat_id", TStr "0")]);
   ("logging", TTable [("level", TStr "INFO"); ("directory", TStr "data/logs")])].
Definition balanced : toml := sample_profile_table (tfrac 1 100) 3 (tfrac 5 100).
Definition sample_file : toml_file := Parsed (sample_toml (TStr "paper") balanced (TInt 5000)).
Definition outcome (r : EngineConfig + exn * list issue) : string + exn * list issue :=
  match r with inl c => inl (cf_environment c) | inr x => inr x end.

(** The default file; a live mode from the environment; a full book of exactly
    the heat cap; and several issues at once. *)
Example loads :
  outcome (load_config sample_file []) = inl "paper" /\
  outcome (load_config sample_file [("TURTLE_EXEC_MODE", "live")]) = inl "live" /\
  outcome (load_config (Parsed (sample_toml (TStr "paper") (sample_profile_table (tfrac 1 10) 3 (tfrac 3 10)) (TInt 0))) []) =
    inr (ConfigValidationError, [("risk.profiles.BALANCED.heat_cap", NoHeadroom); ("operational.data_staleness_price_ms", NotPositive)]) /\
  outcome (load_config sample_file [("TURTLE_EXEC_MODE", "demo"); ("TURTLE_EXEC_SIGNING_KEY_REF", " ")]) =
    inr (ConfigValidationError, [("environment.mode", NotSupported); ("secrets.signing_key_ref", NotText)]).
Proof. by vm_compute. Qed.

(** Documents for which the loader raises none of its own exceptions: a list
    where a name is expected, an integer no float can hold, an overridden
    section that is no table, a file that is not UTF-8. *)
Example undocumented_exceptions :
  outcome (load_config (Parsed (sample_toml (TList [TStr "paper"]) balanced (TInt 5000))) []) = inr (TypeError, []) /\
  outcome (load_config (Parsed (sample_toml (TStr "paper") balanced (TInt (10 ^ 400)))) []) = inr (OverflowError, []) /\
  outcome (load_config (Parsed [("environment", TStr "paper")]) [("TURTLE_EXEC_MODE", "paper")]) = inr (TypeError, []) /\
  outcome (load_config NotUtf8 []) = inr (UnicodeDecodeError, []).
Proof. by vm_compute. Qed.

(** An age limit that never expires is accepted. *)
Example infinite_staleness : outcome (load_config (Parsed (sample_toml (TStr "paper") balanced (TFloat PInf))) []) = inl "paper".
Proof. by vm_compute. Qed.

Lemma environment_cannot_change_trading_witness :
  match load_config sample_file [], load_config sample_file [("TURTLE_EXEC_MODE", "live"); ("TURTLE_EXEC_WALLET_KEY_REF", "wallet_v1")] with
  | inl c, inl c' => reviewed c = reviewed c' /\ cf_environment c <> cf_environment c'
  | _, _ => False
  end.
Proof.
  destruct (load_config sample_file []) as [c|x] eqn:E; [|by vm_compute in E].
  destruct (load_config sample_file [("TURTLE_EXEC_MODE", "live"); ("TURTLE_EXEC_WALLET_KEY_REF", "wallet_v1")]) as [c'|x] eqn:E'; [|by vm_compute in E'].
  split; [exact (environment_cannot_change_trading _ _ _ c c' E E')|].
  vm_compute in E, E'. injection E as <-. injection E' as <-. done.
Defined.

(** A full book of exactly the heat cap and an age limit of zero: both are
    reported, and nothing else. *)
Definition two_faults : toml_file := Parsed (sample_toml (TStr "paper") (sample_profile_table (tfrac 1 10) 3 (tfrac 3 10)) (TInt 0)).

Lemma load_config_checked_witness :
  match load_config two_faults [], load_config sample_file [] with
  | inr (e, issues), inl c =>
      e = ConfigValidationError /\
      issues = [("risk.profiles.BALANCED.heat_cap", NoHeadroom); ("operational.data_staleness_price_ms", NotPositive)] /\
      (exists raw, document two_faults [] = Ok raw /\ unmet (requirements raw) issues) /\ config_ok c
  | _, _ => False
  end.
Proof.
  assert (E : load_config two_faults [] = inr (ConfigValidationError,
    [("risk.profiles.BALANCED.heat_cap", NoHeadroom); ("operational.data_staleness_price_ms", NotPositive)])) by (vm_compute; reflexivity).
  assert (E' : is_Some (match load_config sample_file [] with inl c => Some c | inr _ => None end)) by (vm_compute; by eexists).
  pose proof (load_config_checked two_faults []) as H. pose proof (load_config_checked sample_file []) as H'.
  rewrite E in H. rewrite E. destruct (load_config sample_file []) as [c|x]; [|by destruct E'].
  destruct H as [([=] & _)|[(_ & _ & H)|([=] & _)]]. destruct H' as [H' _]. split; [reflexivity|]. split; [reflexivity|]. split; [exact H|exact H'].
Defined.
