(* ===== verification/RiskManagerSpec.v ===== *)
(** * The risk manager: what a decision means

    The precedence of the decisions, stated over exact numbers, the completeness
    of the reasons given, and that a decision is always reached. *)

From Stdlib Require Import ssreflect ZArith Lia Ascii String QArith Lqa.
From stdpp Require Import base strings numbers gmap sets list.
From S2P Require Import Prelude PyText PyDict PyJson PyDecimal PyDecimalFacts PyFloat.
From S2P Require Import ExecStateMachine ExchangeModels PositionStates PortfolioManager RiskManager.
#[local] Open Scope Z_scope.

(** ** Checks *)

Lemma check_nil b c t : check b c t = [] <-> b = false.
Proof. by destruct b. Qed.

Lemma elem_of_check b c t x : x ∈ (check b c t).*1 <-> b = true /\ x = c.
Proof.
  destruct b; cbn; [rewrite list_elem_of_singleton; tauto|]. rewrite elem_of_nil. by split; [|intros []].
Qed.

Lemma fltb_dec_spec f d : fltb_dec f d = true <-> (fvalue f < value d)%Q.
Proof. unfold fltb_dec. rewrite Qlt_alt. by destruct (fvalue f ?= value d)%Q. Qed.
Lemma fltb_dec_nspec f d : fltb_dec f d = false <-> (value d <= fvalue f)%Q.
Proof. rewrite -not_true_iff_false fltb_dec_spec. split; [apply Qnot_lt_le|apply Qle_not_lt]. Qed.

(** ** What the inputs must be *)

Section spec.
Context (fromisoformat : string -> result (Z * option Z)).
Context (l : RiskManagerLimits) (r : TradeRequest) (rp : RiskProfileParams) (at_ : string).
Notation parse := (_parse_utc fromisoformat).
Notation timestamps i := (_timestamps_to_check (in_portfolio_snapshot i) (in_open_positions i) (in_funding_info i) (in_correlation_info i)).

Definition blocked (i : RiskInputs) : Prop :=
  exists s c, in_kill_switch_state i = Some s /\ _BLOCKING_STATES s = Some c.

(** Dated at most the limit before the evaluation, and not after it. *)
Definition fresh (ts : json) : Prop :=
  exists now t, parse (JStr at_) = Ok now /\ parse ts = Ok t /\ 0 <= now - t <= max_stale_data_seconds l * 10 ^ 6.

(** Everything a decision needs. *)
Record inputs := Inputs {
  i_portfolio : PortfolioSnapshot; i_positions : list PositionSnapshot; i_caps : ExchangeCapabilities;
  i_funding : FundingInfo; i_corr : CorrelationInfo; i_liq : decimal
}.

Record verified (i : RiskInputs) (x : inputs) : Prop := {
  vf_state : exists s, in_kill_switch_state i = Some s;
  vf_portfolio : in_portfolio_snapshot i = Some (i_portfolio x);
  vf_positions : in_open_positions i = Some (i_positions x);
  vf_caps : in_capabilities i = Some (i_caps x);
  vf_funding : in_funding_info i = Some (i_funding x);
  vf_corr : in_correlation_info i = Some (i_corr x);
  vf_liq : tr_estimated_liquidation_price r = Some (i_liq x);
  vf_fresh : Forall (fun p => fresh p.2) (timestamps i);
  vf_equity : (0 < value (equity (i_portfolio x)))%Q
}.

(** ** The limits *)

Definition supported (caps : ExchangeCapabilities) : Prop :=
  (tr_order_type r = OrderType.MARKET -> supports_market_orders caps = true) /\
  (tr_order_type r = OrderType.LIMIT -> supports_limit_orders caps = true) /\
  (tr_reduce_only r = true -> supports_reduce_only caps = true) /\
  (tr_time_in_force r = TimeInForce.IOC -> supports_ioc caps = true) /\
  (tr_time_in_force r = TimeInForce.FOK -> supports_fok caps = true) /\
  (tr_time_in_force r = TimeInForce.POST_ONLY -> supports_post_only caps = true).

Definition buffer_of (liq : decimal) : decimal :=
  if bool_decide (tr_side r = OrderSide.BUY) then dsub (tr_stop_price r) liq else dsub liq (tr_stop_price r).
Definition cost_of (f : FundingInfo) : decimal :=
  if bool_decide (tr_side r = OrderSide.BUY) then fi_funding_rate f else dneg (fi_funding_rate f).

(** The limit behind each code is broken; [heat] is the trade's share of the
    equity. *)
Definition broken (x : inputs) (heat : decimal) (c : ReasonCode) : Prop :=
  let p := i_portfolio x in
  match c with
  | ReasonCode.RISK_PER_TRADE_EXCEEDED => (fvalue (rp_risk_pct_per_trade rp) < value heat)%Q
  | ReasonCode.PORTFOLIO_HEAT_EXCEEDED => (fvalue (rp_heat_cap rp) < value (dadd (pf_heat p) heat))%Q
  | ReasonCode.MAX_POSITIONS_EXCEEDED => rp_max_positions rp <= Z.of_nat (length (i_positions x))
  | ReasonCode.INSUFFICIENT_MARGIN => (value (pf_available_cash p) < value (tr_proposed_margin_required r))%Q
  | ReasonCode.LEVERAGE_EXCEEDED => (value (max_leverage l) < value (tr_leverage r))%Q
  | ReasonCode.LIQUIDATION_TOO_CLOSE => (value (buffer_of (i_liq x)) < value (min_required_buffer l r))%Q
  | ReasonCode.FUNDING_RATE_TOO_HIGH => (value (max_funding_rate_abs l) < value (cost_of (i_funding x)))%Q
  | ReasonCode.CORRELATION_LIMIT_EXCEEDED => max_correlated_positions l < correlated_count (i_corr x)
  | ReasonCode.EXCHANGE_CAPABILITY_UNSUPPORTED => ~ supported (i_caps x)
  | _ => False
  end.

(** The codes of the business rules, in the order of the checks. *)
Definition rule_codes : list ReasonCode :=
  [ReasonCode.RISK_PER_TRADE_EXCEEDED; ReasonCode.PORTFOLIO_HEAT_EXCEEDED; ReasonCode.MAX_POSITIONS_EXCEEDED;
   ReasonCode.INSUFFICIENT_MARGIN; ReasonCode.LEVERAGE_EXCEEDED; ReasonCode.LIQUIDATION_TOO_CLOSE;
   ReasonCode.FUNDING_RATE_TOO_HIGH; ReasonCode.CORRELATION_LIMIT_EXCEEDED; ReasonCode.EXCHANGE_CAPABILITY_UNSUPPORTED].

Lemma cost_of_eq f : funding_cost_rate r f = cost_of f.
Proof. unfold funding_cost_rate, cost_of. by destruct (tr_side r). Qed.

Lemma buffer_of_eq liq : tr_estimated_liquidation_price r = Some liq -> _liquidation_buffer r = Some (buffer_of liq).
Proof. intros E. unfold _liquidation_buffer, buffer_of. rewrite E. by destruct (tr_side r). Qed.

Lemma capability_supported caps : _capability_violation r caps = None <-> supported caps.
Proof.
  assert (Hb : forall a b : bool, (a = true -> b = true) <-> a && negb b = false).
  { by intros [] []; cbn; split; auto; intros H; symmetry; apply H. }
  assert (Hd : forall (P : Prop) `{!base.Decision P} (b : bool), (P -> b = true) <-> bool_decide P && negb b = false).
  { intros P ? b. rewrite -Hb. by rewrite bool_decide_eq_true. }
  unfold _capability_violation, supported. rewrite (Hb (tr_reduce_only r)) !Hd.
  repeat (match goal with |- context [if ?c then Some _ else _] => destruct c end; [intuition discriminate|]). intuition.
Qed.

(** The rules report a code exactly when its limit is broken, each once and in
    order. *)
Lemma business_rules_codes x heat : tr_estimated_liquidation_price r = Some (i_liq x) ->
  let vs := business_rules l r rp (i_portfolio x) (i_positions x) (i_caps x) (i_funding x) (i_corr x) heat in
  sublist (vs.*1) rule_codes /\ forall c, c ∈ vs.*1 <-> broken x heat c.
Proof.
  intros Hl. cbv zeta. unfold business_rules. rewrite (buffer_of_eq _ Hl) cost_of_eq. split.
  - rewrite !fmap_app. unfold rule_codes.
    assert (Hc : forall b c t k k', sublist k k' -> sublist ((check b c t).*1 ++ k) (c :: k')).
    { intros b c t k k' Hk. destruct b; cbn; by constructor. }
    do 8 apply Hc. destruct (_capability_violation r (i_caps x)); cbn; repeat constructor.
  - intros c. rewrite !fmap_app !elem_of_app !elem_of_check.
    rewrite !fltb_dec_spec !dltb_spec Z.leb_le Z.ltb_lt.
    assert (Hcap : c ∈ (match _capability_violation r (i_caps x) with
        | Some t => [(ReasonCode.EXCHANGE_CAPABILITY_UNSUPPORTED, t)] | None => [] end).*1 <->
      ~ supported (i_caps x) /\ c = ReasonCode.EXCHANGE_CAPABILITY_UNSUPPORTED).
    { rewrite -capability_supported. destruct (_capability_violation r (i_caps x)); cbn.
      - rewrite list_elem_of_singleton. naive_solver.
      - rewrite elem_of_nil. naive_solver. }
    rewrite Hcap. clear. destruct c; cbn [broken]; intuition discriminate.
Qed.

(** ** The data checks *)

Hypothesis Hlimit : 0 <= max_stale_data_seconds l < 2 ^ 33.

Lemma age_check now t : let age := true_div (now - t) (10 ^ 6) in
  fltb_int age 0 || negb (fleb_int age (max_stale_data_seconds l)) = false <->
  0 <= now - t <= max_stale_data_seconds l * 10 ^ 6.
Proof.
  cbv zeta. rewrite true_div_neg // orb_false_iff negb_false_iff Z.ltb_ge. split.
  - intros [H1 H2]. split; [done|]. destruct (Z.le_gt_cases (now - t) (max_stale_data_seconds l * 10 ^ 6)) as [?|Hgt]; [done|].
    by rewrite true_div_gt in H2.
  - intros [H1 H2]. split; [done|]. by apply true_div_le; [|lia|].
Qed.

Lemma stale_data_nil pairs vs : stale_data fromisoformat l at_ pairs = Ok vs -> vs = [] <-> Forall (fun p => fresh p.2) pairs.
Proof.
  revert vs. induction pairs as [|[label ts] pairs IH]; intros vs; cbn [stale_data].
  - intros [= <-]. by split; [constructor|].
  - unfold _age_seconds. destruct (parse (JStr at_)) as [now|] eqn:En; [|done]. destruct (parse ts) as [t|] eqn:Et; [|done].
    destruct (stale_data fromisoformat l at_ pairs) as [rest|]; [|done]. intros [= <-].
    rewrite app_nil check_nil age_check (IH rest) // Forall_cons. cbn [snd]. apply and_iff_compat_r.
    split; [intros H; by exists now, t|]. intros (now' & t' & E1 & E2 & H). congruence.
Qed.

Lemma stale_data_total pairs now : parse (JStr at_) = Ok now -> Forall (fun p => is_ok (parse p.2) = true) pairs ->
  exists vs, stale_data fromisoformat l at_ pairs = Ok vs.
Proof.
  intros En H. induction H as [|[label ts] pairs Hp _ [vs Hvs]]; [by eexists|]. cbn [stale_data]. unfold _age_seconds.
  rewrite En. cbn [snd] in Hp. destruct (parse ts) as [t|]; [|done]. rewrite Hvs. by eexists.
Qed.

Lemma equity_nil p : non_positive_equity (Some p) = [] <-> (0 < value (equity p))%Q.
Proof. cbn [non_positive_equity]. by rewrite check_nil dleb_nspec value_d0. Qed.

Lemma missing_nil i : missing_data r i = [] <->
  is_Some (in_kill_switch_state i) /\ is_Some (in_portfolio_snapshot i) /\ is_Some (in_open_positions i) /\
  is_Some (in_capabilities i) /\ is_Some (in_funding_info i) /\ is_Some (in_correlation_info i) /\
  is_Some (tr_estimated_liquidation_price r).
Proof.
  unfold missing_data. destruct i as [[s|] [p|] [ps|] [ca|] [f|] [co|]], (tr_estimated_liquidation_price r) as [lq|]; cbn;
    (split; [intros E; try discriminate E; split_and!; by eexists|]);
    intros (H1 & H2 & H3 & H4 & H5 & H6 & H7); try done; exfalso; by (destruct H1, H2, H3, H4, H5, H6, H7).
Qed.

(** The data checks report nothing exactly when the inputs are verified. *)
Lemma data_verified i vs : stale_data fromisoformat l at_ (timestamps i) = Ok vs ->
  missing_data r i ++ vs ++ non_positive_equity (in_portfolio_snapshot i) = [] <-> exists x, verified i x.
Proof.
  intros Hvs. transitivity (missing_data r i = [] /\ vs = [] /\ non_positive_equity (in_portfolio_snapshot i) = []).
  { split; [by intros [? [? ?]%app_nil]%app_nil|by intros (-> & -> & ->)]. }
  rewrite (stale_data_nil _ _ Hvs) missing_nil. split.
  - intros (([s Es] & [p Ep] & [ps Eps] & [ca Ec] & [f Ef] & [co Eco] & [lq El]) & Hfresh & He).
    exists (Inputs p ps ca f co lq). rewrite Ep in He. apply equity_nil in He. split; try done; by exists s.
  - intros [x [[s Hs] Hp Hps Hc Hf Hco Hl Hfr He]]. split_and!; try (by eexists); try done. rewrite Hp. by apply equity_nil.
Qed.

Definition allowed_by (x : inputs) : Prop :=
  exists heat, ddiv (tr_proposed_risk_amount r) (equity (i_portfolio x)) = Ok heat /\ forall c, ~ broken x heat c.

(** What each decision says of the inputs, in the order of precedence. *)
Definition verdict (i : RiskInputs) (d : Decision) : Prop :=
  match d with
  | Decision.BLOCKED => blocked i
  | Decision.FAIL_SAFE => ~ blocked i /\ ~ (exists x, verified i x)
  | Decision.REJECTED => ~ blocked i /\ exists x, verified i x /\ ~ allowed_by x
  | Decision.APPROVED => ~ blocked i /\ exists x, verified i x /\ allowed_by x
  end.

Lemma verified_inj i x y : verified i x -> verified i y -> x = y.
Proof.
  destruct x, y. intros [_ H1 H2 H3 H4 H5 H6 _ _] [_ G1 G2 G3 G4 G5 G6 _ _]. cbn in *. congruence.
Qed.

Lemma approved_not_rejected i : verdict i Decision.APPROVED -> verdict i Decision.REJECTED -> False.
Proof.
  intros (_ & x & Vx & Ax) (_ & y & Vy & Ny). apply Ny. rewrite -(verified_inj i x y Vx Vy). exact Ax.
Qed.

Lemma verdict_unique i a b : verdict i a -> verdict i b -> a = b.
Proof.
  destruct a, b; intros Ha Hb; first [reflexivity | exfalso].
  - exact (approved_not_rejected i Ha Hb).
  - exact (proj1 Ha Hb).
  - destruct Ha as (_ & x & Vx & _). exact (proj2 Hb (ex_intro _ x Vx)).
  - exact (approved_not_rejected i Hb Ha).
  - exact (proj1 Ha Hb).
  - destruct Ha as (_ & x & Vx & _). exact (proj2 Hb (ex_intro _ x Vx)).
  - exact (proj1 Hb Ha).
  - exact (proj1 Hb Ha).
  - exact (proj1 Hb Ha).
  - destruct Hb as (_ & x & Vx & _). exact (proj2 Ha (ex_intro _ x Vx)).
  - destruct Hb as (_ & x & Vx & _). exact (proj2 Ha (ex_intro _ x Vx)).
  - exact (proj1 Ha Hb).
Qed.

Lemma blocked_case i :
  (exists s c, in_kill_switch_state i = Some s /\ (in_kill_switch_state i ≫= (fun s => pair s <$> _BLOCKING_STATES s)) = Some (s, c)) \/
  (~ blocked i /\ (in_kill_switch_state i ≫= (fun s => pair s <$> _BLOCKING_STATES s)) = None).
Proof.
  destruct (in_kill_switch_state i) as [s|] eqn:Es.
  - destruct (_BLOCKING_STATES s) as [c|] eqn:Ec.
    + left. exists s, c. cbn. by rewrite Ec.
    + right. split; [|cbn; by rewrite Ec]. intros (s' & c & E & E'). congruence.
  - right. split; [|done]. intros (s' & c & E & _). congruence.
Qed.

Lemma judge_spec x d : tr_estimated_liquidation_price r = Some (i_liq x) ->
  judge l r rp at_ (i_portfolio x) (i_positions x) (i_caps x) (i_funding x) (i_corr x) = Ok d ->
  exists heat, ddiv (tr_proposed_risk_amount r) (equity (i_portfolio x)) = Ok heat /\
  ((rd_decision d = Decision.APPROVED /\ rd_reason_codes d = [ReasonCode.OK] /\ rd_violated_limits d = [] /\ forall c, ~ broken x heat c) \/
   (rd_decision d = Decision.REJECTED /\ rd_reason_codes d <> [] /\ length (rd_violated_limits d) = length (rd_reason_codes d) /\
    sublist (rd_reason_codes d) rule_codes /\ forall c, c ∈ rd_reason_codes d <-> broken x heat c)).
Proof.
  intros Hl. unfold judge, heat_contribution. destruct (ddiv _ _) as [heat|] eqn:Eh; [|done]. cbv beta iota.
  destruct (business_rules_codes x heat Hl) as [Hsub Hin]. intros [= <-]. exists heat. split; [done|].
  destruct (business_rules _ _ _ _ _ _ _ _ _) as [|v vs].
  - left. split_and!; try done. intros c Hc. apply Hin in Hc. by apply elem_of_nil in Hc.
  - right. cbn [_decision rd_decision rd_reason_codes rd_violated_limits]. split_and!; [done..| |done|done].
    cbn. by rewrite !length_map.
Qed.

Lemma evaluate_cases i d : evaluate fromisoformat l r rp at_ i = Ok d ->
  (blocked i /\ rd_decision d = Decision.BLOCKED /\ exists c, rd_reason_codes d = [c] /\ length (rd_violated_limits d) = 1%nat) \/
  (~ blocked i /\ ~ (exists x, verified i x) /\ rd_decision d = Decision.FAIL_SAFE /\ rd_reason_codes d <> [] /\
   length (rd_violated_limits d) = length (rd_reason_codes d)) \/
  (~ blocked i /\ exists x, verified i x /\
   judge l r rp at_ (i_portfolio x) (i_positions x) (i_caps x) (i_funding x) (i_corr x) = Ok d).
Proof.
  unfold evaluate. destruct (_ || _); [done|]. destruct (blank at_); [done|].
  destruct (blocked_case i) as [(s & c & Es & Eb)|[Hb Eb]]; rewrite Eb.
  { intros [= <-]. left. split; [|split; [done|by eexists]]. exists s, c. split; [done|]. rewrite Es in Eb. cbn in Eb.
    destruct (_BLOCKING_STATES s); [|done]. cbn in Eb. congruence. }
  destruct (stale_data _ _ _ _) as [vs|] eqn:Est; [|done]. cbn [mbind result_bind].
  pose proof (data_verified i vs Est) as Hv.
  destruct (missing_data r i ++ vs ++ _) as [|v vs'] eqn:Em.
  - destruct (proj1 Hv eq_refl) as [x Hx]. pose proof Hx as [[s Hs] Hp Hps Hc Hf Hco Hl _ _].
    rewrite Hp Hps Hc Hf Hco. intros Hj. right. right. split; [done|]. exists x. split; [exact Hx|exact Hj].
  - intros [= <-]. right. left. split_and!; try done; [|cbn; by rewrite !length_map].
    intros Hx. by apply Hv in Hx.
Qed.

(** The profile has positive limits and the data are dated by ISO dates. *)
Record well_formed (i : RiskInputs) : Prop := {
  wf_risk : fleb_int (rp_risk_pct_per_trade rp) 0 = false;
  wf_heat : fleb_int (rp_heat_cap rp) 0 = false;
  wf_max : 0 < rp_max_positions rp;
  wf_at : blank at_ = false;
  wf_now : is_ok (parse (JStr at_)) = true;
  wf_dates : Forall (fun p => is_ok (parse p.2) = true) (timestamps i)
}.

(** C13: every decision means what it says, and capital protection comes first.
    BLOCKED is decided exactly when a kill switch is set or the engine is
    stopped; otherwise FAIL_SAFE exactly when some input is missing, dated in the
    future or too long ago, or the equity is not positive; otherwise REJECTED
    exactly when a limit is broken, and APPROVED exactly when none is. *)
Theorem decision_precedence i d d' : evaluate fromisoformat l r rp at_ i = Ok d ->
  rd_decision d = d' <-> verdict i d'.
Proof.
  intros He. assert (Hv : verdict i (rd_decision d)).
  { destruct (evaluate_cases i d He) as [(Hb & -> & _)|[(Hb & Hn & -> & _)|(Hb & x & Hx & Hj)]]; [done|done|].
    destruct (judge_spec x d (vf_liq _ _ Hx) Hj) as (heat & Hh & [(-> & _ & _ & Ha)|(-> & Hne & _ & _ & Hr)]).
    - split; [done|]. exists x. split; [done|]. by exists heat.
    - split; [done|]. exists x. split; [done|]. intros (heat' & Hh' & Ha). destruct (rd_reason_codes d) as [|c cs]; [done|].
      assert (heat' = heat) as -> by congruence. apply (Ha c), Hr. by left. }
  split; [by intros <-|]. by apply verdict_unique.
Qed.

(** A rejection gives every reason, and only reasons. The codes of a
    rejected trade are exactly the broken limits, each once and in the order of
    the checks, each with its text: no check hides another. *)
Theorem rejection_complete i d : evaluate fromisoformat l r rp at_ i = Ok d -> rd_decision d = Decision.REJECTED ->
  exists x heat, verified i x /\ ddiv (tr_proposed_risk_amount r) (equity (i_portfolio x)) = Ok heat /\
  sublist (rd_reason_codes d) rule_codes /\ (forall c, c ∈ rd_reason_codes d <-> broken x heat c) /\
  length (rd_violated_limits d) = length (rd_reason_codes d).
Proof.
  intros He Hd. destruct (evaluate_cases i d He) as [(_ & E & _)|[(_ & _ & E & _)|(Hb & x & Hx & Hj)]]; [congruence..|].
  destruct (judge_spec x d (vf_liq _ _ Hx) Hj) as (heat & Hh & [(E & _)|(_ & _ & Hlen & Hsub & Hr)]); [congruence|].
  by exists x, heat.
Qed.

(** C37: evaluation decides. On a profile with positive limits and data dated by
    ISO dates it returns a decision whatever else is missing or wrong, with at
    least one code, and a text for each code unless the trade is approved. *)
Theorem evaluate_decides i : well_formed i ->
  exists d, evaluate fromisoformat l r rp at_ i = Ok d /\ rd_reason_codes d <> [] /\
  (rd_decision d = Decision.APPROVED /\ rd_reason_codes d = [ReasonCode.OK] /\ rd_violated_limits d = [] \/
   rd_decision d <> Decision.APPROVED /\ length (rd_violated_limits d) = length (rd_reason_codes d)).
Proof.
  intros [Hr Hh Hm Ha Hnow Hdates].
  assert (Htotal : exists d, evaluate fromisoformat l r rp at_ i = Ok d).
  { unfold evaluate. rewrite Hr Hh (proj2 (Z.leb_gt _ _) Hm) Ha. cbn [orb].
    destruct (blocked_case i) as [(s & c & _ & Eb)|[Hb Eb]]; rewrite Eb; [by eexists|].
    destruct (parse (JStr at_)) as [now|] eqn:En; [|done].
    destruct (stale_data_total (timestamps i) now En Hdates) as [vs Hvs]. rewrite Hvs. cbn [mbind result_bind].
    pose proof (data_verified i vs Hvs) as Hv. destruct (missing_data r i ++ vs ++ _) as [|v vs']; [|by eexists].
    destruct (proj1 Hv eq_refl) as [x [[s Hs] Hp Hps Hc Hf Hco Hl _ He]]. rewrite Hp Hps Hc Hf Hco.
    unfold judge, heat_contribution. destruct (ddiv_Ok (tr_proposed_risk_amount r) _ He) as [heat ->]. by eexists. }
  destruct Htotal as [d Hd]. exists d. split; [done|].
  destruct (evaluate_cases i d Hd) as [(_ & E & c & Ec & El)|[(_ & _ & E & Ec & El)|(Hb & x & Hx & Hj)]].
  - rewrite E Ec. split; [done|]. right. by rewrite El.
  - rewrite E. split; [done|]. by right.
  - destruct (judge_spec x d (vf_liq _ _ Hx) Hj) as (heat & _ & [(E & Ec & El & _)|(E & Ec & El & _)]).
    + rewrite E Ec El. split; [done|]. by left.
    + rewrite E. split; [done|]. by right.
Qed.
End spec.

(** ** A concrete evaluation *)

(** Dates as seconds of one day, in UTC. *)
Definition clock (s : string) : result (Z * option Z) :=
  if String.eqb s "10:00" then Ok (0, Some 0) else if String.eqb s "10:01" then Ok (60000000, Some 0) else Err ValueError.

Definition risk_limits : RiskManagerLimits :=
  {| max_leverage := dint 5; min_liquidation_buffer_pct := Dec 5 (-1); max_funding_rate_abs := Dec 1 (-3);
     max_correlated_positions := 2; max_stale_data_seconds := 120 |}.
Definition risk_profile : RiskProfileParams :=
  {| rp_risk_pct_per_trade := true_div 1 100; rp_max_positions := 3; rp_sizing_mode := "fixed"; rp_heat_cap := true_div 6 100;
     rp_ruin_threshold := true_div 1 2 |}.
Definition risk_trade (notional leverage : Z) : TradeRequest :=
  {| tr_symbol := {| sym_value := "BTC" |}; tr_side := OrderSide.BUY; tr_order_type := OrderType.LIMIT;
     tr_time_in_force := TimeInForce.GTC; tr_reduce_only := false; tr_quantity := dint 1; tr_entry_price := dint 100;
     tr_stop_price := dint 95; tr_proposed_risk_amount := dint 5; tr_proposed_notional := dint notional;
     tr_proposed_margin_required := dint 50; tr_leverage := dint leverage;
     tr_estimated_liquidation_price := Some (dint 60) |}.
Definition risk_portfolio : PortfolioSnapshot :=
  {| pf_available_cash := dint 1000; pf_reserved_margin := d0; pf_used_margin := d0; pf_unrealized_pnl := d0;
     pf_realized_pnl_cumulative := d0; pf_funding_cumulative := d0; pf_fees_cumulative := d0;
     pf_deposits_cumulative := dint 1000; pf_withdrawals_cumulative := d0; pf_exposure := d0; pf_heat := d0;
     pf_open_position_ids := []; pf_updated_at_utc := JStr "10:00" |}.
Definition risk_inputs : RiskInputs :=
  {| in_kill_switch_state := Some State.READY; in_portfolio_snapshot := Some risk_portfolio; in_open_positions := Some [];
     in_capabilities := Some {| supports_reduce_only := true; supports_post_only := true; supports_ioc := true;
       supports_fok := true; supports_market_orders := true; supports_limit_orders := true; supports_trigger_orders := true;
       supports_partial_fill_notifications := true; supports_funding_rate := true; supports_cross_margin := true;
       supports_isolated_margin := true; cap_extra := [] |};
     in_funding_info := Some {| fi_symbol := {| sym_value := "BTC" |}; fi_funding_rate := Dec 1 (-4); fi_as_of_utc := "10:00" |};
     in_correlation_info := Some {| ci_entries := []; ci_as_of_utc := "10:00" |} |}.

Definition decision_of (r : TradeRequest) : result RiskDecision :=
  evaluate clock risk_limits r risk_profile "10:01" risk_inputs.

Lemma risk_limit_ok : 0 <= max_stale_data_seconds risk_limits < 2 ^ 33.
Proof. by split. Qed.

Lemma decision_precedence_witness :
  match decision_of (risk_trade 100 2) with
  | Ok d => verdict clock risk_limits (risk_trade 100 2) risk_profile "10:01" risk_inputs Decision.APPROVED
  | Err _ => False
  end.
Proof.
  destruct (decision_of (risk_trade 100 2)) as [d|x] eqn:E.
  - apply (decision_precedence clock risk_limits (risk_trade 100 2) risk_profile "10:01" risk_limit_ok _ d _ E).
    vm_compute in E. by injection E as <-.
  - vm_compute in E. discriminate E.
Defined.

Lemma rejection_complete_witness :
  match decision_of (risk_trade 100 9) with
  | Ok d => exists x heat, verified clock risk_limits (risk_trade 100 9) "10:01" risk_inputs x /\
      ddiv (dint 5) (equity (i_portfolio x)) = Ok heat /\ sublist (rd_reason_codes d) rule_codes /\
      (forall c, c ∈ rd_reason_codes d <-> broken risk_limits (risk_trade 100 9) risk_profile x heat c) /\
      length (rd_violated_limits d) = length (rd_reason_codes d)
  | Err _ => False
  end.
Proof.
  destruct (decision_of (risk_trade 100 9)) as [d|x] eqn:E.
  - apply (rejection_complete clock risk_limits (risk_trade 100 9) risk_profile "10:01" risk_limit_ok _ d E).
    vm_compute in E. by injection E as <-.
  - vm_compute in E. discriminate E.
Defined.

Lemma evaluate_decides_witness :
  exists d, decision_of (risk_trade 100 2) = Ok d /\ rd_reason_codes d <> [] /\
  (rd_decision d = Decision.APPROVED /\ rd_reason_codes d = [ReasonCode.OK] /\ rd_violated_limits d = [] \/
   rd_decision d <> Decision.APPROVED /\ length (rd_violated_limits d) = length (rd_reason_codes d)).
Proof.
  refine (evaluate_decides clock risk_limits (risk_trade 100 2) risk_profile "10:01" risk_limit_ok risk_inputs _).
  split; try (vm_compute; reflexivity). repeat constructor.
Defined.
