(* ===== verification/Sizing.v ===== *)
(** * Intents and their sizing (src/trading_system/strategy/models.py,
    sizing/calculator.py)

    A trade intent with the checks of its constructor, and the arithmetic that
    turns it into a fully specified trade request. The loss
    of the sized trade at its stop is the risk budget of its mode, up to the
    rounding of the decimals. *)

From Stdlib Require Import ssreflect ZArith Lia Ascii String QArith Qabs Lqa.
From stdpp Require Import base strings numbers gmap sets list.
From S2P Require Import Prelude PyText PyDict PyJson PyDecimal PyDecimalFacts PyFloat ExecStateMachine ExchangeModels PositionStates PortfolioManager RiskManager.
#[local] Open Scope Z_scope.

(** ** strategy/models.py *)

Record TradeIntent := {
  ti_symbol : Symbol;
  ti_side : OrderSide;
  ti_order_type : OrderType;
  ti_time_in_force : TimeInForce;
  ti_reduce_only : bool;
  ti_stop_price : decimal;
  ti_conviction : option decimal;
  ti_limit_price : option decimal;
  ti_t1_price : option decimal;
  ti_t2_price : option decimal
}.

Definition in_unit (c : decimal) : bool := dleb (dint (-1)) c && dleb c d1.

(** [__post_init__], on arguments of the right types. *)
Definition mk_TradeIntent (i : TradeIntent) : result TradeIntent :=
  if dleb (ti_stop_price i) d0 then Err StrategyError
  else if match ti_conviction i with Some c => negb (in_unit c) | None => false end then Err StrategyError
  else if existsb (fun v => match v with Some p => dleb p d0 | None => false end)
            [ti_limit_price i; ti_t1_price i; ti_t2_price i] then Err StrategyError
  else Ok i.

(** ** sizing/calculator.py *)

Definition _as_decimal (value : float) : result decimal := of_option InvalidOperation (dec_parse (float_repr value)).

(** The risk amount and the distance of a sizing mode. *)
Definition risk_and_distance (intent : TradeIntent) (equity entry_price risk_pct : decimal) (sizing_mode : string)
    (volatility : option decimal) : result (decimal * decimal) :=
  let stop_distance := dabs (dsub entry_price (ti_stop_price intent)) in
  if String.eqb sizing_mode "fixed" then Ok (dmul equity risk_pct, stop_distance)
  else if String.eqb sizing_mode "conviction_weighted" then
    match ti_conviction intent with
    | None => Err SizingError
    | Some c => Ok (dmul (dmul equity risk_pct) (dabs c), stop_distance)
    end
  else if String.eqb sizing_mode "vol_targeted" then
    match volatility with
    | None => Err SizingError
    | Some v => if dleb v d0 then Err SizingError else Ok (dmul equity risk_pct, dmul entry_price v)
    end
  else Err SizingError.

Definition liquidation_price (side : OrderSide) (entry_price inverse_leverage mmr : decimal) : decimal :=
  if bool_decide (side = OrderSide.BUY) then dmul entry_price (dadd (dsub d1 inverse_leverage) mmr)
  else dmul entry_price (dsub (dadd d1 inverse_leverage) mmr).

Definition size_intent (intent : TradeIntent) (equity : decimal) (risk_profile : RiskProfileParams) (current_price : decimal)
    (maintenance_margin_rate target_leverage : decimal) (volatility : option decimal) : result TradeRequest :=
  if dleb equity d0 then Err SizingError else
  if dleb current_price d0 then Err SizingError else
  if negb (dleb d0 maintenance_margin_rate && dltb maintenance_margin_rate d1) then Err SizingError else
  if dleb target_leverage d0 then Err SizingError else
  let entry_price := default current_price (ti_limit_price intent) in
  risk_pct ← _as_decimal (rp_risk_pct_per_trade risk_profile);
  '(risk_amount, distance) ← risk_and_distance intent equity entry_price risk_pct (rp_sizing_mode risk_profile) volatility;
  if dleb distance d0 then Err SizingError else
  quantity ← ddiv risk_amount distance;
  let proposed_notional := dmul quantity entry_price in
  proposed_margin_required ← ddiv proposed_notional target_leverage;
  inverse_leverage ← ddiv d1 target_leverage;
  mk_TradeRequest
    {| tr_symbol := ti_symbol intent; tr_side := ti_side intent; tr_order_type := ti_order_type intent;
       tr_time_in_force := ti_time_in_force intent; tr_reduce_only := ti_reduce_only intent; tr_quantity := quantity;
       tr_entry_price := entry_price; tr_stop_price := ti_stop_price intent; tr_proposed_risk_amount := risk_amount;
       tr_proposed_notional := proposed_notional; tr_proposed_margin_required := proposed_margin_required;
       tr_leverage := target_leverage;
       tr_estimated_liquidation_price :=
         Some (liquidation_price (ti_side intent) entry_price inverse_leverage maintenance_margin_rate) |}.

(** ** The trade risks its budget *)

(** ** Relative errors *)

(** [x] is [y] up to the fraction [e] of it. *)
Definition near (e x y : Q) : Prop := ((1 - e) * y <= x /\ x <= (1 + e) * y)%Q.

(** Half a unit of the last of 28 digits. *)
Definition eps : Q := 1 # 2000000000000000000000000000.

Lemma near_Proper e : Proper (Qeq ==> Qeq ==> iff) (near e).
Proof. intros x x' Hx y y' Hy. unfold near. by rewrite Hx Hy. Qed.
#[export] Existing Instance near_Proper.

Lemma near_abs e x y : (0 <= y)%Q -> (Qabs (x - y) <= e * y)%Q -> near e x y.
Proof. intros Hy [H1 H2]%Qabs_Qle_condition. split; lra. Qed.

Lemma near_dfix d : (0 <= value d)%Q -> near eps (value (dfix d)) (value d).
Proof.
  intros H. apply near_abs; [done|]. pose proof (dfix_error d) as He. rewrite (Qabs_pos _ H) in He.
  assert (E : ((5 # 1) * p10 (- prec) == eps)%Q) by by vm_compute. by rewrite E in He.
Qed.

Lemma near_mul a b : (0 <= value a * value b)%Q -> near eps (value (dmul a b)) (value a * value b).
Proof. intros H. unfold dmul. rewrite -dmul_exact_value. apply near_dfix. by rewrite dmul_exact_value. Qed.

Lemma near_dabs d : near eps (value (dabs d)) (Qabs (value d)).
Proof.
  unfold dabs. assert (E : (value (Dec (Z.abs (dcoef d)) (dexp d)) == Qabs (value d))%Q).
  { unfold value. cbn [dcoef dexp]. by rewrite Qabs_inject_p10. }
  rewrite -E. apply near_dfix. rewrite E. apply Qabs_nonneg.
Qed.

Lemma near_abs_sub a b : near eps (value (dabs (dsub a b))) (Qabs (value a - value b)).
Proof.
  rewrite dabs_value; [apply dfix_digits|]. unfold dsub, dadd. set (x := dadd_exact a (dopp b)).
  assert (E : (value x == value a - value b)%Q) by (unfold x; rewrite dadd_exact_value dopp_value; ring).
  rewrite -E. pose proof (dfix_error x) as He.
  assert (E5 : ((5 # 1) * p10 (- prec) == eps)%Q) by by vm_compute. rewrite E5 in He.
  pose proof (Qabs_triangle_reverse (value (dfix x)) (value x)) as H1.
  pose proof (Qabs_triangle_reverse (value x) (value (dfix x))) as H2. rewrite (Qabs_Qminus (value x)) in H2.
  unfold near. lra.
Qed.

Lemma near_weaken e e' x y : (0 <= y)%Q -> (e <= e')%Q -> near e x y -> near e' x y.
Proof.
  intros Hy He [H1 H2]. pose proof (Qmult_le_compat_r _ _ _ He Hy) as H. unfold near. rewrite !Qmult_plus_distr_l in H1, H2 |- *.
  split; lra.
Qed.

Lemma near_trans e f x y z : (0 <= e <= 1)%Q -> (0 <= f)%Q -> (0 <= z)%Q -> near e x y -> near f y z -> near (e + f + e * f) x z.
Proof.
  intros [He1 He2] Hf Hz [H1 H2] [H3 H4]. split.
  - apply (Qle_trans _ ((1 - e) * y)); [|done]. apply (Qle_trans _ ((1 - e) * ((1 - f) * z))).
    + assert (0 <= e * f * z)%Q; [|lra]. repeat apply Qmult_le_0_compat; done.
    + rewrite (Qmult_comm (1 - e)) (Qmult_comm (1 - e)). apply Qmult_le_compat_r; [done|lra].
  - apply (Qle_trans _ ((1 + e) * y)); [done|]. apply (Qle_trans _ ((1 + e) * ((1 + f) * z))); [|lra].
    rewrite (Qmult_comm (1 + e)) (Qmult_comm (1 + e)). apply Qmult_le_compat_r; [done|lra].
Qed.

Lemma near_scale e x y z : (0 <= z)%Q -> near e x y -> near e (x * z) (y * z).
Proof.
  intros Hz [H1 H2]. split; rewrite Qmult_assoc; by apply Qmult_le_compat_r.
Qed.

(** ** The budget and the distance of a sizing mode *)

(** The fraction of the equity a trade of the mode may risk. *)
Definition weight (intent : TradeIntent) (mode : string) : Q :=
  if String.eqb mode "conviction_weighted" then match ti_conviction intent with Some c => Qabs (value c) | None => 0%Q end else 1%Q.

(** How far the price moves to lose it. *)
Definition gap (intent : TradeIntent) (mode : string) (entry : decimal) (volatility : option decimal) : Q :=
  if String.eqb mode "vol_targeted" then match volatility with Some v => (value entry * value v)%Q | None => 0%Q end
  else Qabs (value entry - value (ti_stop_price intent)).

Section sized.
Context (intent : TradeIntent) (mode : string) (equity entry risk_pct : decimal) (volatility : option decimal).
Hypothesis Hentry : (0 < value entry)%Q.

Lemma budget_near risk distance : risk_and_distance intent equity entry risk_pct mode volatility = Ok (risk, distance) ->
  (0 < value risk)%Q ->
  near (4 * eps) (value risk) (value equity * value risk_pct * weight intent mode) /\
  (0 <= value equity * value risk_pct * weight intent mode)%Q /\
  near eps (value distance) (gap intent mode entry volatility) /\ (0 <= gap intent mode entry volatility)%Q.
Proof.
  unfold risk_and_distance, weight, gap. pose proof (near_abs_sub entry (ti_stop_price intent)) as Hd.
  pose proof (Qabs_nonneg (value entry - value (ti_stop_price intent))) as Hd0.
  destruct (String.eqb_spec mode "fixed") as [->|Hf]; cbn [String.eqb].
  { intros [= <- <-] Hr. change (String.eqb "fixed" _) with false. cbv iota. apply dmul_pos in Hr.
    pose proof (near_mul equity risk_pct (Qlt_le_weak _ _ Hr)) as Hm. rewrite Qmult_1_r. split_and!; [by eapply near_weaken, Hm; [apply Qlt_le_weak|]|by apply Qlt_le_weak|done|done]. }
  destruct (String.eqb_spec mode "conviction_weighted") as [->|Hc].
  { destruct (ti_conviction intent) as [c|]; [|done]. intros [= <- <-] Hr. change (String.eqb _ "vol_targeted") with false. cbv iota.
    apply dmul_pos in Hr. set (b := (value equity * value risk_pct)%Q).
    assert (Hb : (0 < value (dmul equity risk_pct))%Q).
    { destruct (Qlt_le_dec 0 (value (dmul equity risk_pct))) as [|Hn]; [done|]. pose proof (proj2 (dfix_nonneg (Dec (Z.abs (dcoef c)) (dexp c)))) as Hp.
      exfalso. assert (0 <= value (dabs c))%Q; [apply Hp, value_nonneg; cbn; lia|].
      assert (0 <= - value (dmul equity risk_pct) * value (dabs c))%Q; [apply Qmult_le_0_compat; lra|]. lra. }
    apply dmul_pos in Hb as Hb'. fold b in Hb'.
    pose proof (near_mul _ _ (Qlt_le_weak _ _ Hr)) as H1. pose proof (near_mul equity risk_pct (Qlt_le_weak _ _ Hb')) as H2.
    fold b in H2. pose proof (near_dabs c) as H3. pose proof (Qabs_nonneg (value c)) as Hc0.
    assert (H4 : near (eps + eps + eps * eps) (value (dmul equity risk_pct) * value (dabs c)) (b * Qabs (value c))).
    { apply (near_trans _ _ _ (value (dmul equity risk_pct) * Qabs (value c))); [by split| |by apply Qmult_le_0_compat; [apply Qlt_le_weak|]| |]; [done| |].
      - rewrite (Qmult_comm _ (value (dabs c))) (Qmult_comm _ (Qabs (value c))). apply near_scale; [by apply Qlt_le_weak|exact H3].
      - by apply near_scale. }
    assert (0 <= b * Qabs (value c))%Q by (apply Qmult_le_0_compat; [by apply Qlt_le_weak|done]).
    split_and!; [|done|done|done]. eapply near_weaken; [done| |]; last first.
    { eapply near_trans; [| | |exact H1|exact H4]; [by split|done|done]. }
    by vm_compute. }
  destruct (String.eqb_spec mode "vol_targeted") as [->|Hv]; [|done].
  destruct volatility as [v|]; [|done]. destruct (dleb v d0) eqn:Ev; [done|]. intros [= <- <-] Hr.
  apply dleb_nspec in Ev. rewrite value_d0 in Ev. apply dmul_pos in Hr.
  pose proof (near_mul equity risk_pct (Qlt_le_weak _ _ Hr)) as Hm.
  assert (0 < value entry * value v)%Q by by apply Qmult_lt_0_compat.
  rewrite Qmult_1_r. split_and!; [by eapply near_weaken, Hm; [apply Qlt_le_weak|]|by apply Qlt_le_weak|by apply near_mul, Qlt_le_weak|by apply Qlt_le_weak].
Qed.

(** A quotient's loss at the distance. *)
Lemma loss_near risk distance g b quantity : (0 < value risk)%Q -> (0 < value distance)%Q -> ddiv risk distance = Ok quantity ->
  near eps (value distance) g -> (0 <= g)%Q -> near (4 * eps) (value risk) b -> (0 <= b)%Q ->
  near (8 * eps) (value quantity * g) b.
Proof.
  intros Hr Hd Hq [H1 H2] Hg [H3 H4] Hb. pose proof (ddiv_error _ _ _ Hr Hd Hq) as He.
  assert (E : (p10 (-27) == 2 * eps)%Q) by by vm_compute. rewrite E in He. apply Qabs_Qle_condition in He.
  set (q := value quantity) in *.
  assert (Hq0 : (0 <= q)%Q).
  { destruct (Qlt_le_dec q 0) as [Hn|]; [|done]. exfalso.
    assert (0 <= - q * value distance)%Q; [apply Qmult_le_0_compat; lra|]. unfold eps in *. lra. }
  assert (H5 : ((1 - eps) * (q * g) <= q * value distance)%Q).
  { assert ((1 - eps) * (q * g) == q * ((1 - eps) * g))%Q as -> by ring. rewrite !(Qmult_comm q). by apply Qmult_le_compat_r. }
  assert (H6 : (q * value distance <= (1 + eps) * (q * g))%Q).
  { assert ((1 + eps) * (q * g) == q * ((1 + eps) * g))%Q as -> by ring. rewrite !(Qmult_comm q). by apply Qmult_le_compat_r. }
  unfold near, eps in *. split; lra.
Qed.
End sized.

Lemma request_checked x r : mk_TradeRequest x = Ok r ->
  r = x /\ (0 < value (tr_proposed_risk_amount x))%Q /\ (0 < value (tr_proposed_notional x))%Q.
Proof.
  unfold mk_TradeRequest. cbn [existsb]. destruct (dleb (tr_proposed_notional x) d0) eqn:E1.
  { rewrite !orb_true_r. done. }
  destruct (_ || _); [done|]. destruct (dleb (tr_proposed_risk_amount x) d0) eqn:E2; [done|]. intros [= <-].
  apply dleb_nspec in E1, E2. by rewrite value_d0 in E1, E2.
Qed.

Lemma size_intent_terms intent equity profile price mmr leverage volatility r :
  size_intent intent equity profile price mmr leverage volatility = Ok r ->
  tr_symbol r = ti_symbol intent /\ tr_side r = ti_side intent /\ tr_reduce_only r = ti_reduce_only intent.
Proof.
  unfold size_intent. do 4 (case_match; [done|]). cbv zeta.
  destruct (_as_decimal _) as [pct|]; cbn [mbind result_bind]; [|done].
  destruct (risk_and_distance _ _ _ _ _ _) as [[risk distance]|]; cbn [mbind result_bind]; [|done]. case_match; [done|].
  destruct (ddiv risk distance) as [q|]; cbn [mbind result_bind]; [|done].
  destruct (ddiv (dmul q _) leverage) as [margin|]; cbn [mbind result_bind]; [|done].
  destruct (ddiv d1 leverage) as [inv|]; cbn [mbind result_bind]; [|done]. intros Hr. by apply request_checked in Hr as [-> _].
Qed.

(** C29: the sized trade risks its budget. When sizing returns a request, its
    quantity times the distance of its mode (from entry to stop, or the
    volatility's share of the entry price) is the budget of the mode (the risk
    fraction of the equity, by the conviction's size when weighted by it) up to
    [4 * 10^-27] of it; the request's risk amount is the budget up to
    [2 * 10^-27]; its margin times the leverage is its notional up to [10^-27],
    which is quantity times entry price up to [5 * 10^-28]; and the request
    passes its constructor, with the intent's symbol, side, type and stop, and
    the intent's limit price as its entry price where there is one. *)
Theorem sized_to_budget intent equity profile price mmr leverage volatility r :
  size_intent intent equity profile price mmr leverage volatility = Ok r ->
  (forall p, ti_limit_price intent = Some p -> (0 < value p)%Q) ->
  let mode := rp_sizing_mode profile in
  exists risk_pct, _as_decimal (rp_risk_pct_per_trade profile) = Ok risk_pct /\
  let budget := (value equity * value risk_pct * weight intent mode)%Q in
  near (8 * eps) (value (tr_quantity r) * gap intent mode (tr_entry_price r) volatility) budget /\
  near (4 * eps) (value (tr_proposed_risk_amount r)) budget /\
  near (2 * eps) (value (tr_proposed_margin_required r) * value leverage) (value (tr_proposed_notional r)) /\
  near eps (value (tr_proposed_notional r)) (value (tr_quantity r) * value (tr_entry_price r)) /\
  mk_TradeRequest r = Ok r /\ tr_entry_price r = default price (ti_limit_price intent) /\ tr_leverage r = leverage /\
  tr_symbol r = ti_symbol intent /\ tr_side r = ti_side intent /\ tr_order_type r = ti_order_type intent /\
  tr_time_in_force r = ti_time_in_force intent /\ tr_reduce_only r = ti_reduce_only intent /\
  tr_stop_price r = ti_stop_price intent.
Proof.
  unfold size_intent. destruct (dleb equity d0) eqn:E1; [done|]. destruct (dleb price d0) eqn:E2; [done|].
  destruct (negb _); [done|]. destruct (dleb leverage d0) eqn:E3; [done|]. cbv zeta.
  apply dleb_nspec in E1, E2, E3. rewrite value_d0 in E1, E2, E3. intros H Hl.
  destruct (_as_decimal _) as [pct|] eqn:Ep; cbn [mbind result_bind] in H; [|done]. exists pct. split; [done|].
  set (entry := default price (ti_limit_price intent)) in *.
  assert (Hentry : (0 < value entry)%Q). { unfold entry. destruct (ti_limit_price intent); [by apply Hl|done]. }
  destruct (risk_and_distance _ _ _ _ _ _) as [[risk distance]|] eqn:Er; cbn [mbind result_bind] in H; [|done].
  destruct (dleb distance d0) eqn:E4; [done|]. apply dleb_nspec in E4. rewrite value_d0 in E4.
  destruct (ddiv risk distance) as [q|] eqn:Eq; cbn [mbind result_bind] in H; [|done].
  destruct (ddiv (dmul q entry) leverage) as [margin|] eqn:Em; cbn [mbind result_bind] in H; [|done].
  destruct (ddiv d1 leverage) as [inv|]; cbn [mbind result_bind] in H; [|done].
  apply request_checked in H as Hc. destruct Hc as (-> & Hr & Hn). cbn in *.
  destruct (budget_near intent (rp_sizing_mode profile) equity entry pct volatility Hentry risk distance Er Hr)
    as (H1 & H2 & H3 & H4).
  assert (Hqe : (0 < value q * value entry)%Q) by by apply dmul_pos.
  split_and!; try done.
  - by apply (loss_near risk distance).
  - apply near_abs; [by apply Qlt_le_weak|]. pose proof (ddiv_error _ _ _ Hn E3 Em) as He.
    assert (E : (p10 (-27) == 2 * eps)%Q) by by vm_compute. by rewrite E in He.
  - by apply near_mul, Qlt_le_weak.
Qed.

Definition sample_sized : TradeIntent :=
  {| ti_symbol := {| sym_value := "ETH" |}; ti_side := OrderSide.BUY; ti_order_type := OrderType.LIMIT;
     ti_time_in_force := TimeInForce.GTC; ti_reduce_only := false; ti_stop_price := dint 97; ti_conviction := Some (Dec (-7) (-1));
     ti_limit_price := Some (dint 100); ti_t1_price := None; ti_t2_price := None |}.
Definition sized_profile : RiskProfileParams :=
  {| rp_risk_pct_per_trade := true_div 1 100; rp_max_positions := 3; rp_sizing_mode := "conviction_weighted";
     rp_heat_cap := true_div 6 100; rp_ruin_threshold := true_div 1 2 |}.
Definition sized_request : result TradeRequest :=
  size_intent sample_sized (dint 1000) sized_profile (dint 99) (Dec 1 (-2)) (dint 3) None.

Lemma sized_to_budget_witness :
  match sized_request with
  | Ok r => tr_quantity r = Dec 2333333333333333333333333333 (-27) /\
      exists pct, _as_decimal (true_div 1 100) = Ok pct /\ mk_TradeRequest r = Ok r /\
      near (8 * eps) (value (tr_quantity r) * gap sample_sized "conviction_weighted" (tr_entry_price r) None)
        (value (dint 1000) * value pct * weight sample_sized "conviction_weighted")
  | Err _ => False
  end.
Proof.
  destruct sized_request as [r|e] eqn:E; [|vm_compute in E; discriminate E].
  split; [vm_compute in E; injection E as <-; reflexivity|].
  destruct (sized_to_budget sample_sized (dint 1000) sized_profile (dint 99) (Dec 1 (-2)) (dint 3) None r E) as (pct & H1 & H2 & H).
  { intros p [= <-]. reflexivity. }
  exists pct. split; [exact H1|]. split; [apply H|exact H2].
Defined.
