(* ===== verification/Execution.v ===== *)
(** * The execution layer (src/trading_system/execution/executor.py, models.py)

    From an approved request to the order manager, with the quantization of size
    and price before the order is recorded. Only
    approved requests reach the order manager, with the approved size and price
    or the values the venue's grid rounds them to. *)

From Stdlib Require Import ssreflect ZArith Lia Ascii String QArith Lqa.
From stdpp Require Import base strings numbers gmap sets list.
From S2P Require ExecStateMachine.
From S2P Require Import Prelude PyText PyDict PyJson PyDecimal PyDecimalFacts PyFloat EventLog ExchangeModels ExchangeAdapter OrderStates OrderManager OrderManagerSpec Quantization.
From S2P Require Import RiskManager.
#[local] Open Scope Z_scope.

Module ExecutionOperation.
Inductive ExecutionOperation := PLACE | AMEND | CANCEL.
End ExecutionOperation.
Notation ExecutionOperation := ExecutionOperation.ExecutionOperation.

Record ExecutionResult := {
  er_operation : ExecutionOperation;
  er_order_snapshot : OrderSnapshot;
  er_trade_request : option TradeRequest;
  er_decision : option RiskDecision
}.

(** [None] when there are no rules; a symbol they do not cover is refused. *)
Definition _rules_for (symbol : Symbol) (rules : option QuantizationRules) : result (option SymbolRules) :=
  match rules with
  | None => Ok None
  | Some rules => match dget (sym_value symbol) rules with
                  | None => Err ExecutionError
                  | Some r => Ok (Some r)
                  end
  end.

(** A quantized size or price must stay positive. *)
Definition positive (d : decimal) : result decimal := if dleb d d0 then Err ExecutionError else Ok d.

(** The size and limit price an approved request is placed with. *)
Definition placed_values (r : TradeRequest) (rules : option QuantizationRules) : result (decimal * option decimal) :=
  let limit_price := if bool_decide (tr_order_type r = OrderType.LIMIT) then Some (tr_entry_price r) else None in
  symbol_rules ← _rules_for (tr_symbol r) rules;
  match symbol_rules with
  | None => Ok (tr_quantity r, limit_price)
  | Some sr =>
      quantity ← quantize_size (tr_quantity r) sr;
      quantity ← positive quantity;
      match limit_price with
      | None => Ok (quantity, None)
      | Some p => p ← quantize_price p (tr_side r) sr; p ← positive p; Ok (quantity, Some p)
      end
  end.

Section executor.
Context {L A : Type} `{EventLog L} `{Exchange A}.
Notation W := (World L A).

Definition execute_place (r : TradeRequest) (decision : RiskDecision) (rules : option QuantizationRules)
    : M W ExecutionResult :=
  if negb (bool_decide (rd_decision decision = Decision.APPROVED)) then raise ExecutionError else
  '(quantity, limit_price) ← lift (placed_values r rules);
  snapshot ← place_order (tr_symbol r) (tr_side r) (tr_order_type r) quantity limit_price (tr_time_in_force r) (tr_reduce_only r);
  mret {| er_operation := ExecutionOperation.PLACE; er_order_snapshot := snapshot; er_trade_request := Some r;
          er_decision := Some decision |}.

(** The amended values, by the order's own symbol and side. *)
Definition amended_values (existing : OrderSnapshot) (new_quantity new_limit_price : option decimal)
    (rules : option QuantizationRules) : result (option decimal * option decimal) :=
  symbol_rules ← _rules_for (sn_symbol existing) rules;
  match symbol_rules with
  | None => Ok (new_quantity, new_limit_price)
  | Some sr =>
      q ← match new_quantity with
          | Some q => q ← quantize_size q sr; q ← positive q; Ok (Some q)
          | None => Ok None
          end;
      p ← match new_limit_price with
          | Some p => p ← quantize_price p (sn_side existing) sr; p ← positive p; Ok (Some p)
          | None => Ok None
          end;
      Ok (q, p)
  end.

Definition execute_amend (client_order_id : string) (new_quantity new_limit_price : option decimal)
    (rules : option QuantizationRules) : M W ExecutionResult :=
  if blank client_order_id then raise ExecutionError else
  '(q, p) ← (if negb (bool_decide (rules = None))
                && (negb (bool_decide (new_quantity = None)) || negb (bool_decide (new_limit_price = None)))
             then existing ← get_order_status client_order_id;
                  lift (amended_values existing new_quantity new_limit_price rules)
             else mret (new_quantity, new_limit_price));
  snapshot ← amend_order client_order_id q p;
  mret {| er_operation := ExecutionOperation.AMEND; er_order_snapshot := snapshot; er_trade_request := None; er_decision := None |}.

Definition execute_cancel (client_order_id : string) : M W ExecutionResult :=
  if blank client_order_id then raise ExecutionError else
  snapshot ← cancel_order client_order_id;
  mret {| er_operation := ExecutionOperation.CANCEL; er_order_snapshot := snapshot; er_trade_request := None; er_decision := None |}.
End executor.

(** ** What may reach the order manager *)

(** What the constructor of the rules guarantees. *)
Definition rules_ok (rules : option QuantizationRules) : Prop :=
  forall rs s sr, rules = Some rs -> dget s rs = Some sr -> 0 <= sz_decimals sr <= 6.

Definition size_ok (sr : option SymbolRules) (q0 q : decimal) : Prop :=
  match sr with
  | None => q = q0
  | Some sr => (0 < value q /\ value q <= value q0 /\ value q0 < value q + p10 (- sz_decimals sr))%Q /\
      on_grid (sz_decimals sr) (value q)
  end.
Definition price_ok (sr : option SymbolRules) (side : OrderSide) (p0 p : decimal) : Prop :=
  match sr with
  | None => p = p0
  | Some sr => (0 < value p)%Q /\ no_worse side p0 p (p10 (price_exponent p0 sr)) /\ venue_price sr (value p)
  end.

Lemma positive_ok d q : positive d = Ok q -> q = d /\ (0 < value d)%Q.
Proof.
  unfold positive. destruct (dleb d d0) eqn:E; [done|]. intros [= <-]. split; [done|].
  apply dleb_nspec in E. by rewrite value_d0 in E.
Qed.

Lemma sized_ok sr q0 q1 q : (0 < value q0)%Q -> quantize_size q0 sr = Ok q1 -> positive q1 = Ok q -> size_ok (Some sr) q0 q.
Proof.
  intros H0 Hq [-> Hp]%positive_ok. destruct (quantize_size_spec _ _ _ (Qlt_le_weak _ _ H0) Hq) as [(_ & H1 & H2) H3]. by split.
Qed.

Lemma priced_ok sr side p0 p1 p : 0 <= sz_decimals sr <= 6 -> (0 < value p0)%Q -> quantize_price p0 side sr = Ok p1 ->
  positive p1 = Ok p -> price_ok (Some sr) side p0 p.
Proof. intros Hsz H0 Hq [-> Hp]%positive_ok. split; [done|]. by apply quantize_price_spec. Qed.

Lemma rules_for_ok rules s sr : rules_ok rules -> _rules_for s rules = Ok (Some sr) -> 0 <= sz_decimals sr <= 6.
Proof.
  intros Hr. unfold _rules_for. destruct rules as [rs|]; [|done]. destruct (dget _ rs) as [sr'|] eqn:E; [|done].
  intros [= ->]. by eapply Hr.
Qed.

Definition limit_of (r : TradeRequest) : option decimal :=
  if bool_decide (tr_order_type r = OrderType.LIMIT) then Some (tr_entry_price r) else None.

Lemma request_positive r : mk_TradeRequest r = Ok r -> (0 < value (tr_quantity r) /\ 0 < value (tr_entry_price r))%Q.
Proof.
  unfold mk_TradeRequest. cbn [existsb]. destruct (dleb (tr_quantity r) d0) eqn:E1; [done|].
  destruct (dleb (tr_entry_price r) d0) eqn:E2; [done|]. intros _. apply dleb_nspec in E1, E2. by rewrite value_d0 in E1, E2.
Qed.

Lemma placed_values_ok r rules q lp : mk_TradeRequest r = Ok r -> rules_ok rules -> placed_values r rules = Ok (q, lp) ->
  exists sr, _rules_for (tr_symbol r) rules = Ok sr /\ size_ok sr (tr_quantity r) q /\
    option_Forall2 (price_ok sr (tr_side r)) (limit_of r) lp.
Proof.
  intros [Hq Hp]%request_positive Hr. unfold placed_values. fold (limit_of r).
  destruct (_rules_for (tr_symbol r) rules) as [[sr|]|] eqn:Es; cbn [mbind result_bind]; [| |done].
  - destruct (quantize_size _ sr) as [q1|] eqn:E1; cbn [mbind result_bind]; [|done].
    destruct (positive q1) as [q2|] eqn:E2; cbn [mbind result_bind]; [|done].
    pose proof (sized_ok _ _ _ _ Hq E1 E2) as Hs. assert (Hl : forall p, limit_of r = Some p -> (0 < value p)%Q).
    { intros p. unfold limit_of. case_bool_decide; [|done]. by intros [= <-]. }
    destruct (limit_of r) as [p|]; [|intros [= <- <-]; exists (Some sr); split_and!; [done|done|constructor]].
    destruct (quantize_price p _ sr) as [p1|] eqn:E3; cbn [mbind result_bind]; [|done].
    destruct (positive p1) as [p2|] eqn:E4; cbn [mbind result_bind]; [|done].
    intros [= <- <-]. exists (Some sr). split_and!; [done|done|]. constructor.
    eapply priced_ok; [by eapply rules_for_ok|by apply Hl|done|done].
  - intros [= <- <-]. exists None. split_and!; [done|done|]. by destruct (limit_of r); constructor.
Qed.

Section gate.
Context {L A : Type} `{EventLog L} `{Exchange A}.
Notation W := (World L A).

Lemma amended_values_ok x nq np rules q p : rules_ok rules ->
  (forall v, nq = Some v \/ np = Some v -> (0 < value v)%Q) -> amended_values x nq np rules = Ok (q, p) ->
  exists sr, _rules_for (sn_symbol x) rules = Ok sr /\ option_Forall2 (size_ok sr) nq q /\
    option_Forall2 (price_ok sr (sn_side x)) np p.
Proof.
  intros Hr Hpos. unfold amended_values.
  destruct (_rules_for (sn_symbol x) rules) as [[sr|]|] eqn:Es; cbn [mbind result_bind]; [| |done].
  2:{ intros [= <- <-]. exists None. split; [done|]. split; [by destruct nq; constructor|by destruct np; constructor]. }
  set (qm := match nq with Some _ => _ | None => _ end). set (pm := match np with Some _ => _ | None => _ end).
  assert (Hqm : forall q', qm = Ok q' -> option_Forall2 (size_ok (Some sr)) nq q').
  { intros q'. unfold qm. destruct nq as [v|]; [|intros [= <-]; constructor].
    destruct (quantize_size v sr) as [q1|] eqn:E1; cbn [mbind result_bind]; [|done].
    destruct (positive q1) as [q2|] eqn:E2; cbn [mbind result_bind]; [|done]. intros [= <-]. constructor.
    eapply sized_ok; [apply Hpos; by left|done|done]. }
  assert (Hpm : forall p', pm = Ok p' -> option_Forall2 (price_ok (Some sr) (sn_side x)) np p').
  { intros p'. unfold pm. destruct np as [v|]; [|intros [= <-]; constructor].
    destruct (quantize_price v _ sr) as [p1|] eqn:E1; cbn [mbind result_bind]; [|done].
    destruct (positive p1) as [p2|] eqn:E2; cbn [mbind result_bind]; [|done]. intros [= <-]. constructor.
    eapply priced_ok; [by eapply rules_for_ok|apply Hpos; by right|done|done]. }
  destruct qm as [q'|]; cbn [mbind result_bind]; [|done]. destruct pm as [p'|]; cbn [mbind result_bind]; [|done].
  intros [= <- <-]. exists (Some sr). split_and!; [done|by apply Hqm|by apply Hpm].
Qed.

(** C26: the execution gate. Placing a request leaves every part of the engine as
    it was and raises, or the risk manager's decision is APPROVED and the order
    manager places the request's order, with the approved size and limit price
    or what the venue's rules round them to: positive, no larger than approved
    and no worse than approved, each by less than one step of the grid. Amending
    likewise does nothing, or amends to the given values or what the rules of
    the order's own symbol and side round them to. *)
Theorem execution_gate r d rules (w : W) : mk_TradeRequest r = Ok r -> rules_ok rules ->
  ((exists e, execute_place r d rules w = (w, Err e)) \/
   rd_decision d = Decision.APPROVED /\ exists sr q lp,
     _rules_for (tr_symbol r) rules = Ok sr /\ size_ok sr (tr_quantity r) q /\
     option_Forall2 (price_ok sr (tr_side r)) (limit_of r) lp /\
     (execute_place r d rules w).1 =
       (place_order (tr_symbol r) (tr_side r) (tr_order_type r) q lp (tr_time_in_force r) (tr_reduce_only r) w).1) /\
  forall cid nq np, (forall v, nq = Some v \/ np = Some v -> (0 < value v)%Q) ->
  (exists e, execute_amend cid nq np rules w = (w, Err e)) \/
  exists sr side q p, (execute_amend cid nq np rules w).1 = (amend_order cid q p w).1 /\
    option_Forall2 (size_ok sr) nq q /\ option_Forall2 (price_ok sr side) np p /\
    (rules = None \/ nq = None /\ np = None \/
     exists x, dget cid (om_snapshots (w_om w)) = Some x /\ side = sn_side x /\ _rules_for (sn_symbol x) rules = Ok sr).
Proof.
  intros Hreq Hr. split.
  - unfold execute_place. case_bool_decide as Ha; cbn [negb]; [|left; by eexists]. rewrite run_lift.
    destruct (placed_values r rules) as [[q lp]|e] eqn:E; [right|left; by exists e]. split; [done|].
    destruct (placed_values_ok _ _ _ _ Hreq Hr E) as (sr & H1 & H2 & H3). exists sr, q, lp. split_and!; [done..|].
    rewrite run_bind. by destruct (place_order _ _ _ _ _ _ _ w) as [w' []].
  - intros cid nq np Hpos. unfold execute_amend. destruct (blank cid); [left; by eexists|].
    destruct (negb (bool_decide (rules = None)) && _) eqn:Ec.
    + unfold mbind, M_bind, get_order_status, tracked, lift. destruct (dget cid _) as [x|] eqn:Ex; cbn [of_option]; [|left; by eexists].
      destruct (amended_values x nq np rules) as [[q p]|e] eqn:E; [right|left; by exists e].
      destruct (amended_values_ok _ _ _ _ _ _ Hr Hpos E) as (sr & H1 & H2 & H3). exists sr, (sn_side x), q, p.
      split; [by destruct (amend_order cid q p w) as [w' []]|]. split_and!; [done|done|]. right; right. by exists x.
    + right. exists None, OrderSide.BUY, nq, np. unfold mbind, M_bind. cbn [mret M_ret].
      split; [by destruct (amend_order cid nq np w) as [w' []]|].
      split; [by destruct nq; constructor|]. split; [by destruct np; constructor|].
      apply andb_false_iff in Ec as [Ec|[Eq Ep]%orb_false_iff]; [left|right; left].
      * by apply negb_false_iff, bool_decide_eq_true in Ec.
      * by apply negb_false_iff, bool_decide_eq_true in Eq; apply negb_false_iff, bool_decide_eq_true in Ep.
Qed.
End gate.

(** ** A concrete order *)

#[local] Existing Instance counting_exchange.

Definition gate_request : TradeRequest :=
  {| tr_symbol := btc; tr_side := OrderSide.BUY; tr_order_type := OrderType.LIMIT; tr_time_in_force := TimeInForce.GTC;
     tr_reduce_only := false; tr_quantity := Dec 123456 (-5); tr_entry_price := Dec 1234567 (-4); tr_stop_price := dint 100;
     tr_proposed_risk_amount := d1; tr_proposed_notional := d1; tr_proposed_margin_required := d1; tr_leverage := d1;
     tr_estimated_liquidation_price := None |}.
Definition gate_decision (x : Decision) : RiskDecision :=
  {| rd_decision := x; rd_reason_codes := []; rd_violated_limits := []; rd_calculated_exposure := None; rd_calculated_heat := None;
     rd_leverage := None; rd_liquidation_buffer := None; rd_funding_estimate := None; rd_timestamp_utc := ""; rd_audit_metadata := [] |}.
Definition gate_rules : option QuantizationRules := Some [("BTC", {| sz_decimals := 3 |})].

Lemma gate_rules_ok : rules_ok gate_rules.
Proof.
  intros rs s sr [= <-] E. cbn [dget] in E. destruct (String.eqb _ _); [|discriminate E]. injection E as <-. cbn. lia.
Qed.

Lemma execution_gate_witness :
  (exists sr q lp, _rules_for btc gate_rules = Ok sr /\ size_ok sr (Dec 123456 (-5)) q /\
     option_Forall2 (price_ok sr OrderSide.BUY) (Some (Dec 1234567 (-4))) lp /\
     (execute_place gate_request (gate_decision Decision.APPROVED) gate_rules sample_world).1 =
       (place_order btc OrderSide.BUY OrderType.LIMIT q lp TimeInForce.GTC false sample_world).1) /\
  exists e, execute_place gate_request (gate_decision Decision.REJECTED) gate_rules sample_world = (sample_world, Err e).
Proof.
  split.
  - destruct (execution_gate gate_request (gate_decision Decision.APPROVED) gate_rules sample_world eq_refl gate_rules_ok)
      as [[[e E]|[_ H]] _]; [|exact H]. apply (f_equal (fun x => is_ok x.2)) in E. vm_compute in E. discriminate E.
  - destruct (execution_gate gate_request (gate_decision Decision.REJECTED) gate_rules sample_world eq_refl gate_rules_ok)
      as [[H|[E _]] _]; [exact H|discriminate E].
Defined.
