(* ===== verification/Construction.v ===== *)
(** * Portfolio construction (src/trading_system/portfolio_construction/, strategy/models.py,
    market_data/facade.py)

    Filtering by the universe, one intent per symbol, priority by conviction,
    sizing and the risk manager's verdict. The code tells intents apart by
    object identity: here an intent comes with the identity of its object. *)

From Stdlib Require Import ssreflect ZArith Lia Ascii String QArith Lqa.
From stdpp Require Import base strings numbers gmap sets list.
From S2P Require Import Prelude PyText PyDict PyJson PyDecimal PyDecimalFacts PyFloat.
From S2P Require Import ExecStateMachine ExchangeModels PositionStates PortfolioManager RiskManager Sizing.
#[local] Open Scope Z_scope.

(** The market-data view is an argument of what reads it. *)
Record StrategyContext := {
  cx_universe : list Symbol;
  cx_portfolio_snapshot : PortfolioSnapshot;
  cx_open_positions : list PositionSnapshot;
  cx_kill_switch_state : State;
  cx_evaluated_at_utc : string
}.

(** [__post_init__], on arguments of the right types. *)
Definition mk_StrategyContext (c : StrategyContext) : result StrategyContext :=
  if blank (cx_evaluated_at_utc c) then Err StrategyError else Ok c.

(** An object of a class: its identity and its value. *)
Definition obj (T : Type) : Type := Z * T.

(** Why an intent was skipped; the text with the exception's message is not
    modelled. *)
Inductive skip_reason := OutsideUniverse | DuplicateIntent | SizingFailed.

Record SkippedIntent := { sk_intent : obj TradeIntent; sk_reason : skip_reason }.
Record RejectedTrade := { rj_intent : obj TradeIntent; rj_trade_request : TradeRequest; rj_decision : RiskDecision }.
Record ConstructionResult := {
  cr_approved : list TradeRequest;
  cr_rejected : list RejectedTrade;
  cr_skipped : list SkippedIntent
}.

Definition _conviction_sort_key (intent : obj TradeIntent) : decimal :=
  match ti_conviction intent.2 with Some c => dabs c | None => dint (-1) end.

(** [max(group, key=_conviction_sort_key)]: the first of the largest. *)
Fixpoint max_by (best : obj TradeIntent) (group : list (obj TradeIntent)) : obj TradeIntent :=
  match group with
  | [] => best
  | i :: group => max_by (if dltb (_conviction_sort_key best) (_conviction_sort_key i) then i else best) group
  end.

(** [sort(key=_conviction_sort_key, reverse=True)] keeps the order of equals. *)
Fixpoint insert_desc (i : obj TradeIntent) (l : list (obj TradeIntent)) : list (obj TradeIntent) :=
  match l with
  | [] => [i]
  | j :: l => if dleb (_conviction_sort_key j) (_conviction_sort_key i) then i :: j :: l else j :: insert_desc i l
  end.
Definition sort_desc (l : list (obj TradeIntent)) : list (obj TradeIntent) := foldr insert_desc [] l.

Definition symbol_name (i : obj TradeIntent) : string := sym_value (ti_symbol i.2).

(** Symbols are equal when their names are. *)
Definition in_universe (universe : list Symbol) (i : obj TradeIntent) : bool :=
  existsb (fun s => String.eqb (sym_value s) (symbol_name i)) universe.

(** [by_symbol.setdefault(intent.symbol, []).append(intent)] for each intent. *)
Definition add_to_group (groups : list (string * list (obj TradeIntent))) (i : obj TradeIntent) :=
  dset (symbol_name i) (default [] (dget (symbol_name i) groups) ++ [i]) groups.
Definition group_by_symbol (l : list (obj TradeIntent)) : list (string * list (obj TradeIntent)) := foldl add_to_group [] l.

(** The intent a group keeps and the ones it loses. *)
Definition winner_of (group : list (obj TradeIntent)) : list (obj TradeIntent) * list (obj TradeIntent) :=
  match group with
  | [] => ([], [])
  | [i] => ([i], [])
  | i :: rest => let winner := max_by i rest in ([winner], List.filter (fun l => negb (l.1 =? winner.1)) group)
  end.

Section construct.
(** [datetime.fromisoformat]. *)
Context (fromisoformat : string -> result (Z * option Z)).
(** The market-data view: the adapter's two queries. *)
Context {S : Type} (get_mark_price : Symbol -> M S MarkPrice) (get_funding_rate : Symbol -> M S FundingRate).
Context (context : StrategyContext) (limits : RiskManagerLimits) (risk_profile : RiskProfileParams)
  (capabilities : ExchangeCapabilities) (correlation_info : CorrelationInfo)
  (maintenance_margin_rate target_leverage : decimal) (volatility_by_symbol : list (string * decimal)).

Definition risk_inputs_of (funding : FundingInfo) : RiskInputs :=
  {| in_kill_switch_state := Some (cx_kill_switch_state context);
     in_portfolio_snapshot := Some (cx_portfolio_snapshot context);
     in_open_positions := Some (cx_open_positions context); in_capabilities := Some capabilities;
     in_funding_info := Some funding; in_correlation_info := Some correlation_info |}.

Definition size_at (i : obj TradeIntent) (entry_price : decimal) : result TradeRequest :=
  size_intent i.2 (equity (cx_portfolio_snapshot context)) risk_profile entry_price maintenance_margin_rate target_leverage
    (dget (symbol_name i) volatility_by_symbol).

Definition judge_request (trade_request : TradeRequest) (rate : FundingRate) (symbol : Symbol) : result RiskDecision :=
  evaluate fromisoformat limits trade_request risk_profile (cx_evaluated_at_utc context)
    (risk_inputs_of {| fi_symbol := symbol; fi_funding_rate := fr_rate rate; fi_as_of_utc := fr_timestamp_utc rate |}).

(** One turn of the last loop. *)
Definition consider (res : ConstructionResult) (i : obj TradeIntent) : M S ConstructionResult :=
  entry_price ← match ti_limit_price i.2 with
                | Some p => mret p
                | None => mark ← get_mark_price (ti_symbol i.2); mret (mp_price mark)
                end;
  match size_at i entry_price with
  | Err SizingError =>
      mret {| cr_approved := cr_approved res; cr_rejected := cr_rejected res;
              cr_skipped := cr_skipped res ++ [{| sk_intent := i; sk_reason := SizingFailed |}] |}
  | Err e => raise e
  | Ok trade_request =>
      rate ← get_funding_rate (ti_symbol i.2);
      decision ← lift (judge_request trade_request rate (ti_symbol i.2));
      if bool_decide (rd_decision decision = Decision.APPROVED)
      then mret {| cr_approved := cr_approved res ++ [trade_request]; cr_rejected := cr_rejected res; cr_skipped := cr_skipped res |}
      else mret {| cr_approved := cr_approved res;
                   cr_rejected := cr_rejected res ++ [{| rj_intent := i; rj_trade_request := trade_request; rj_decision := decision |}];
                   cr_skipped := cr_skipped res |}
  end.

Fixpoint consider_all (res : ConstructionResult) (l : list (obj TradeIntent)) : M S ConstructionResult :=
  match l with
  | [] => mret res
  | i :: l => res ← consider res i; consider_all res l
  end.

Definition construct_trade_requests (intents : list (obj TradeIntent)) : M S ConstructionResult :=
  let outside := List.filter (fun i => negb (in_universe (cx_universe context) i)) intents in
  let inside := List.filter (in_universe (cx_universe context)) intents in
  let groups := map (fun g => winner_of g.2) (group_by_symbol inside) in
  let survivors := flat_map fst groups in
  let losers := flat_map snd groups in
  consider_all {| cr_approved := []; cr_rejected := [];
                  cr_skipped := map (fun i => {| sk_intent := i; sk_reason := OutsideUniverse |}) outside
                                ++ map (fun i => {| sk_intent := i; sk_reason := DuplicateIntent |}) losers |}
    (sort_desc survivors).
End construct.
