(* ===== verification/ConstructionSpec.v ===== *)
(** * Portfolio construction: the fate of every intent

    Nothing is dropped, one intent per symbol goes to the risk manager, and what
    is approved was approved by it. *)

From Stdlib Require Import ssreflect ZArith Lia Ascii String QArith Lqa Sorted.
From stdpp Require Import base strings numbers gmap sets list.
From S2P Require Import Prelude PyText PyDict PyJson PyDecimal PyDecimalFacts PyFloat.
From S2P Require Import ExecStateMachine ExchangeModels PositionStates PortfolioManager RiskManager RiskManagerSpec Sizing Construction.
#[local] Open Scope Z_scope.

Implicit Types (i : obj TradeIntent) (l : list (obj TradeIntent)).

Lemma filter_split {X} (p : X -> bool) (l : list X) : l ≡ₚ List.filter p l ++ List.filter (fun x => negb (p x)) l.
Proof.
  induction l as [|x l IH]; [done|]. cbn. destruct (p x); cbn; [by f_equiv|]. rewrite -Permutation_middle. by f_equiv.
Qed.

(** ** Groups *)

Definition group_ok (g : string * list (obj TradeIntent)) : Prop :=
  g.2 <> [] /\ Forall (fun i => symbol_name i = g.1) g.2.

Lemma dset_concat k x (d : list (string * list (obj TradeIntent))) :
  concat (map snd (dset k (default [] (dget k d) ++ [x]) d)) ≡ₚ concat (map snd d) ++ [x].
Proof.
  induction d as [|[k' g] d IH]; [done|]. cbn [dset dget]. destruct (String.eqb k k'); cbn [map concat snd].
  - cbn. rewrite -!app_assoc. f_equiv. apply Permutation_app_comm.
  - rewrite IH. by rewrite app_assoc.
Qed.

Lemma dset_groups k g (d : list (string * list (obj TradeIntent))) : group_ok (k, g) -> Forall group_ok d -> Forall group_ok (dset k g d).
Proof.
  intros Hg Hd. induction Hd as [|[k' g'] d H' Hd IH]; cbn [dset]; [by apply Forall_singleton|].
  destruct (String.eqb k k') eqn:E; constructor; try done. by apply String.eqb_eq in E as <-.
Qed.

Lemma group_by_symbol_spec l :
  concat (map snd (group_by_symbol l)) ≡ₚ l /\ NoDup (dkeys (group_by_symbol l)) /\ Forall group_ok (group_by_symbol l).
Proof.
  induction l as [|i l IH] using rev_ind; [by split_and!; constructor|]. unfold group_by_symbol. rewrite foldl_snoc.
  fold (group_by_symbol l). destruct IH as (IH1 & IH2 & IH3). unfold add_to_group. split_and!.
  - by rewrite dset_concat IH1.
  - by apply dset_NoDup.
  - apply dset_groups; [|done]. split; cbn [fst snd]; [by intros [_ ?]%app_nil|]. apply Forall_app. split; [|by apply Forall_singleton].
    destruct (dget (symbol_name i) (group_by_symbol l)) as [g|] eqn:E; [|constructor].
    assert (Hg : (symbol_name i, g) ∈ group_by_symbol l).
    { clear -E. induction (group_by_symbol l) as [|[k' g'] d IH]; [done|]. cbn [dget] in E.
      destruct (String.eqb (symbol_name i) k') eqn:Ek; [|right; by apply IH].
      apply String.eqb_eq in Ek as <-. injection E as ->. by left. }
    exact (proj2 (proj1 (Forall_forall _ _) IH3 _ Hg)).
Qed.

(** ** The winner of a group *)

Lemma max_by_in best l : max_by best l ∈ best :: l.
Proof.
  revert best. induction l as [|i l IH]; intros best; cbn [max_by]; [by left|].
  specialize (IH (if dltb (_conviction_sort_key best) (_conviction_sort_key i) then i else best)).
  destruct (dltb _ _); [by right|]. apply elem_of_cons in IH as [->|IH]; [by left|by right; right].
Qed.

Lemma max_by_max best l i : i ∈ best :: l -> dleb (_conviction_sort_key i) (_conviction_sort_key (max_by best l)) = true.
Proof.
  revert best i. induction l as [|j l IH]; intros best i; cbn [max_by].
  - intros ->%list_elem_of_singleton. apply dleb_spec. lra.
  - set (b := if dltb _ _ then _ else _). intros Hi.
    assert (Hb : (value (_conviction_sort_key b) <= value (_conviction_sort_key (max_by b l)))%Q) by (apply dleb_spec, IH; by left).
    apply dleb_spec. destruct (dltb (_conviction_sort_key best) (_conviction_sort_key j)) eqn:E; subst b.
    + apply dltb_spec in E. apply elem_of_cons in Hi as [->|[->|Hi]%elem_of_cons]; [lra|lra|].
      apply dleb_spec, IH. by right.
    + apply dltb_nspec in E. apply elem_of_cons in Hi as [->|[->|Hi]%elem_of_cons]; [lra|lra|].
      apply dleb_spec, IH. by right.
Qed.

Lemma without_one i l : NoDup (map fst l) -> i ∈ l -> l ≡ₚ i :: List.filter (fun j => negb (j.1 =? i.1)) l.
Proof.
  induction l as [|j l IH]; [by intros _ ?%elem_of_nil|]. cbn [map]. intros [Hj Hl]%NoDup_cons Hi. cbn [List.filter].
  apply elem_of_cons in Hi as [->|Hi].
  - rewrite Z.eqb_refl. cbn [negb]. f_equiv. etransitivity; [apply (filter_split (fun x => negb (x.1 =? j.1)))|].
    assert (E : List.filter (fun x => negb (negb (x.1 =? j.1))) l = []); [|by rewrite E app_nil_r].
    clear IH Hl. induction l as [|x l IH]; [done|]. cbn [map] in Hj. apply not_elem_of_cons in Hj as [Hx Hj]. cbn.
    rewrite negb_involutive. destruct (Z.eqb_spec x.1 j.1) as [E|]; [by rewrite E in Hx|]. by apply IH.
  - assert (Hne : j.1 <> i.1). { intros E. apply Hj. rewrite E. by apply list_elem_of_fmap_2. }
    apply Z.eqb_neq in Hne. rewrite Hne. cbn [negb]. rewrite Permutation_swap. f_equiv. by apply IH.
Qed.

(** The winner has the largest conviction, and the losers are the others. *)
Lemma winner_of_spec l : NoDup (map fst l) -> l <> [] ->
  exists w, (winner_of l).1 = [w] /\ w ∈ l /\ l ≡ₚ w :: (winner_of l).2 /\
  forall i, i ∈ l -> dleb (_conviction_sort_key i) (_conviction_sort_key w) = true.
Proof.
  destruct l as [|i [|j l]]; intros Hd Hne; [done| |].
  - exists i. split_and!; [done|by left|done|]. intros i' ->%list_elem_of_singleton. apply dleb_spec. lra.
  - exists (max_by i (j :: l)). unfold winner_of. cbv zeta. cbn [fst snd]. split_and!; [done|apply max_by_in| |].
    + apply without_one; [done|apply max_by_in].
    + intros i'. apply max_by_max.
Qed.

(** ** Sorting *)

Lemma insert_desc_perm i l : insert_desc i l ≡ₚ i :: l.
Proof. induction l as [|j l IH]; [done|]. cbn. destruct (dleb _ _); [done|]. rewrite IH. apply Permutation_swap. Qed.

Lemma sort_desc_perm l : sort_desc l ≡ₚ l.
Proof. induction l as [|i l IH]; [done|]. cbn [sort_desc foldr]. rewrite insert_desc_perm. by f_equiv. Qed.

(** The groups' winners and losers. *)
Lemma winners_spec (gs : list (string * list (obj TradeIntent))) : NoDup (map fst (concat (map snd gs))) -> Forall group_ok gs ->
  let ws := map (fun g => winner_of g.2) gs in
  flat_map fst ws ++ flat_map snd ws ≡ₚ concat (map snd gs) /\ map symbol_name (flat_map fst ws) = dkeys gs.
Proof.
  intros Hd Hg. cbv zeta. induction Hg as [|[k g] gs [Hne Hk] _ IH]; [done|]. cbn [map concat snd flat_map] in *.
  rewrite map_app in Hd. apply NoDup_app in Hd as (Hd1 & _ & Hd2). destruct (IH Hd2) as [IH1 IH2].
  destruct (winner_of_spec g Hd1 Hne) as (w & Ew & Hw & Hperm & _). rewrite Ew. split.
  - rewrite {2}Hperm -IH1. cbn. f_equiv. rewrite !app_assoc. f_equiv. apply Permutation_app_comm.
  - cbn. f_equal; [|exact IH2]. by apply (proj1 (Forall_forall _ _) Hk).
Qed.

Notation before := (fun i j : obj TradeIntent => dleb (_conviction_sort_key j) (_conviction_sort_key i) = true).

Lemma insert_desc_sorted i l : StronglySorted before l -> StronglySorted before (insert_desc i l).
Proof.
  induction 1 as [|j l Hl IH Hj]; [by repeat constructor|]. cbn [insert_desc].
  destruct (dleb (_conviction_sort_key j) (_conviction_sort_key i)) eqn:E.
  - constructor; [by constructor|]. constructor; [done|]. eapply Forall_impl; [exact Hj|]. intros x Hx.
    apply dleb_spec in E, Hx. apply dleb_spec. lra.
  - constructor; [done|]. rewrite insert_desc_perm. constructor; [|done]. apply dleb_nspec in E. apply dleb_spec. lra.
Qed.

Lemma sort_desc_sorted l : StronglySorted before (sort_desc l).
Proof. induction l as [|i l IH]; [constructor|]. by apply insert_desc_sorted. Qed.

Lemma sublist_sorted {X} (R : X -> X -> Prop) (k l : list X) : sublist k l -> StronglySorted R l -> StronglySorted R k.
Proof.
  induction 1 as [|x k l Hk IH|x k l Hk IH]; [done| |].
  - intros [Hl Hx]%StronglySorted_inv. constructor; [by apply IH|]. apply Forall_forall. intros y Hy.
    exact (proj1 (Forall_forall _ _) Hx y (elem_of_submseteq _ _ _ Hy (sublist_submseteq _ _ Hk))).
  - intros [Hl _]%StronglySorted_inv. by apply IH.
Qed.

(** ** The loop *)

Section spec.
Context (fromisoformat : string -> result (Z * option Z)).
Context {S : Type} (get_mark_price : Symbol -> M S MarkPrice) (get_funding_rate : Symbol -> M S FundingRate).
Context (context : StrategyContext) (limits : RiskManagerLimits) (risk_profile : RiskProfileParams)
  (capabilities : ExchangeCapabilities) (correlation_info : CorrelationInfo)
  (mmr target_leverage : decimal) (volatility : list (string * decimal)).
Notation sized i price := (size_at context risk_profile mmr target_leverage volatility i price).
Notation judged r rate s := (judge_request fromisoformat context limits risk_profile capabilities correlation_info r rate s).
Notation run := (consider_all fromisoformat get_mark_price get_funding_rate context limits risk_profile capabilities
  correlation_info mmr target_leverage volatility).
Notation turn := (consider fromisoformat get_mark_price get_funding_rate context limits risk_profile capabilities
  correlation_info mmr target_leverage volatility).
Notation construct := (construct_trade_requests fromisoformat get_mark_price get_funding_rate context limits risk_profile
  capabilities correlation_info mmr target_leverage volatility).

(** The request is what sizing made of the intent, and the decision is the risk
    manager's verdict on it. *)
Definition verdict_on i (r : TradeRequest) (d : RiskDecision) : Prop :=
  exists price rate, sized i price = Ok r /\ judged r rate (ti_symbol i.2) = Ok d /\
  (forall p, ti_limit_price i.2 = Some p -> price = p).
Definition approved_as i (r : TradeRequest) : Prop := exists d, verdict_on i r d /\ rd_decision d = Decision.APPROVED.
Definition rejected_as (x : RejectedTrade) : Prop :=
  verdict_on (rj_intent x) (rj_trade_request x) (rj_decision x) /\ rd_decision (rj_decision x) <> Decision.APPROVED.

(** Why an intent may be skipped: out of the universe, beaten by another one of
    the same symbol, or refused by sizing. *)
Definition skipped_as l (x : SkippedIntent) : Prop :=
  match sk_reason x with
  | OutsideUniverse => in_universe (cx_universe context) (sk_intent x) = false
  | DuplicateIntent => exists j, j ∈ l /\ j.1 <> (sk_intent x).1 /\ symbol_name j = symbol_name (sk_intent x) /\
      dleb (_conviction_sort_key (sk_intent x)) (_conviction_sort_key j) = true
  | SizingFailed => exists price, sized (sk_intent x) price = Err SizingError
  end.

(** What a stretch of the loop adds to the result, for the intents [l]. *)
Definition adds l (res res' : ConstructionResult) : Prop :=
  exists ap aq rj sk,
    res' = {| cr_approved := cr_approved res ++ aq; cr_rejected := cr_rejected res ++ rj; cr_skipped := cr_skipped res ++ sk |} /\
    l ≡ₚ ap ++ map rj_intent rj ++ map sk_intent sk /\ sublist ap l /\ Forall2 approved_as ap aq /\ Forall rejected_as rj /\ forall all, Forall (skipped_as all) sk.

Lemma consider_adds res i s s' res' : turn res i s = (s', Ok res') -> adds [i] res res'.
Proof.
  unfold consider. rewrite run_bind. set (price := match ti_limit_price i.2 with Some p => _ | None => _ end).
  assert (Hp : forall t p q, price s = (t, Ok p) -> ti_limit_price i.2 = Some q -> p = q).
  { intros t p q E Eq. unfold price in E. rewrite Eq in E. by injection E. }
  destruct (price s) as [t [p|?]] eqn:E; [|done]. specialize (Hp t p). destruct (sized i p) as [r|e] eqn:Er.
  - rewrite run_bind. destruct (get_funding_rate _ t) as [t' [rate|]]; [|done]. rewrite run_lift.
    destruct (judged r rate _) as [d|] eqn:Ed; [|done].
    assert (Hv : verdict_on i r d) by (exists p, rate; split_and!; [done|done|intros q Eq; by apply (Hp q)]).
    case_bool_decide as Ha; intros [= _ <-].
    + exists [i], [r], [], []. rewrite !app_nil_r. split_and!; [done|done|done| |constructor|constructor]. constructor; [by exists d|constructor].
    + eexists [], [], [_], []. rewrite !app_nil_r. cbn. split_and!; [done|done|by apply sublist_nil_l|done| |constructor]. constructor; [|done]. by split.
  - destruct e; try (intros E'; discriminate E'). intros [= _ <-].
    eexists [], [], [], [_]. rewrite !app_nil_r. cbn. split_and!; [done|done|by apply sublist_nil_l|done|constructor|]. intros all. constructor; [|constructor]. by exists p.
Qed.

Lemma adds_cons i l res1 res2 res3 : adds [i] res1 res2 -> adds l res2 res3 -> adds (i :: l) res1 res3.
Proof.
  intros (ap & aq & rj & sk & -> & P1 & S1 & F1 & R1 & K1) (ap' & aq' & rj' & sk' & -> & P2 & S2 & F2 & R2 & K2).
  exists (ap ++ ap'), (aq ++ aq'), (rj ++ rj'), (sk ++ sk'). cbn [cr_approved cr_rejected cr_skipped]. rewrite -!app_assoc. split_and!.
  - done.
  - change (i :: l) with ([i] ++ l). rewrite P1 P2 !map_app. solve_Permutation.
  - by apply (sublist_app _ [i] _ l).
  - by apply Forall2_app.
  - by apply Forall_app.
  - intros all. by apply Forall_app.
Qed.

Lemma run_adds l : forall res s s' res', run res l s = (s', Ok res') -> adds l res res'.
Proof.
  induction l as [|i l IH]; intros res s s' res'; cbn [consider_all].
  - intros [= _ <-]. exists [], [], [], []. rewrite !app_nil_r. split_and!; by destruct res.
  - rewrite run_bind. destruct (turn res i s) as [t [res1|]] eqn:E; [|done]. intros E'.
    apply (adds_cons i l res res1 res'); [by apply (consider_adds _ _ s t)|by apply (IH res1 t s')].
Qed.

(** ** The whole pass *)

Notation inside := (List.filter (in_universe (cx_universe context))).
Notation outside := (List.filter (fun i => negb (in_universe (cx_universe context) i))).

Lemma NoDup_filter_ids (p : obj TradeIntent -> bool) l : NoDup (map fst l) -> NoDup (map fst (List.filter p l)).
Proof.
  induction l as [|i l IH]; [done|]. cbn [map List.filter]. intros [Hi Hl]%NoDup_cons. destruct (p i); [|by apply IH].
  cbn [map]. apply NoDup_cons. split; [|by apply IH]. intros (j & E & Hj)%list_elem_of_fmap. apply Hi.
  rewrite E. apply list_elem_of_fmap_2. apply list_elem_of_In in Hj. apply filter_In in Hj as [Hj _]. by apply list_elem_of_In.
Qed.

Lemma elem_of_inside (p : obj TradeIntent -> bool) l i : i ∈ List.filter p l <-> i ∈ l /\ p i = true.
Proof. rewrite 2!list_elem_of_In. apply filter_In. Qed.

Lemma winner_of_loser (g : list (obj TradeIntent)) : NoDup (map fst g) -> forall w j, (winner_of g).1 = [w] ->
  g ≡ₚ w :: (winner_of g).2 -> j ∈ (winner_of g).2 -> w.1 <> j.1 /\ j ∈ g.
Proof.
  intros Hd w j Hw Hp Hj. split; [|rewrite Hp; by right]. intros E. rewrite Hp in Hd. cbn [map] in Hd.
  apply NoDup_cons in Hd as [Hd _]. apply Hd. rewrite E. by apply list_elem_of_fmap_2.
Qed.

Lemma groups_distinct (gs : list (string * list (obj TradeIntent))) : NoDup (map fst (concat (map snd gs))) ->
  Forall (fun g => NoDup (map fst g.2)) gs.
Proof.
  induction gs as [|g gs IH]; [constructor|]. cbn [map concat]. rewrite map_app. intros (H1 & _ & H2)%NoDup_app.
  constructor; [done|by apply IH].
Qed.

Lemma same_group (gs : list (string * list (obj TradeIntent))) g h : NoDup (dkeys gs) -> g ∈ gs -> h ∈ gs -> g.1 = h.1 -> g = h.
Proof.
  induction gs as [|x gs IH]; [by intros _ ?%elem_of_nil|]. cbn [dkeys map]. intros [Hx Hd]%NoDup_cons Hg Hh E.
  apply elem_of_cons in Hg as [->|Hg], Hh as [->|Hh]; [done| | |by apply IH].
  - exfalso. apply Hx. rewrite E. by apply list_elem_of_fmap_2.
  - exfalso. apply Hx. rewrite -E. by apply list_elem_of_fmap_2.
Qed.

Lemma elem_of_groups {X Y} (f : X -> list Y) (gs : list X) y : y ∈ flat_map f gs <-> exists g, g ∈ gs /\ y ∈ f g.
Proof. rewrite list_elem_of_In in_flat_map. by setoid_rewrite list_elem_of_In. Qed.

(** The winners: one for each symbol with an intent, of the largest conviction;
    each loser has a winner of its symbol. *)
Lemma survivors_spec l : NoDup (map fst l) ->
  let gs := map (fun g => winner_of g.2) (group_by_symbol l) in
  l ≡ₚ flat_map fst gs ++ flat_map snd gs /\ NoDup (map symbol_name (flat_map fst gs)) /\
  (forall w j, w ∈ flat_map fst gs -> j ∈ l -> symbol_name j = symbol_name w -> before w j) /\
  (forall j, j ∈ flat_map snd gs -> exists w, w ∈ l /\ w.1 <> j.1 /\ symbol_name w = symbol_name j /\ before w j).
Proof.
  intros Hd. cbv zeta. destruct (group_by_symbol_spec l) as (Hc & Hk & Hg).
  assert (Hdc : NoDup (map fst (concat (map snd (group_by_symbol l))))) by by rewrite Hc.
  destruct (winners_spec (group_by_symbol l) Hdc Hg) as [Hp Hs]. cbv zeta in Hp, Hs.
  pose proof (groups_distinct _ Hdc) as Hgd. rewrite Forall_forall in Hgd. rewrite Forall_forall in Hg.
  set (gs := group_by_symbol l) in *.
  assert (Hin : forall j, j ∈ l <-> exists g, g ∈ gs /\ j ∈ g.2).
  { intros j. rewrite -Hc -elem_of_groups flat_map_concat_map. done. }
  split_and!; [by rewrite Hp Hc|by rewrite Hs| |].
  - intros w j (x & (g & -> & Hgs)%list_elem_of_fmap & Hw)%elem_of_groups (h & Hhs & Hj)%Hin E.
    destruct (Hg g Hgs) as [Hne Hsym], (Hg h Hhs) as [_ Hsym']. rewrite Forall_forall in Hsym. rewrite Forall_forall in Hsym'.
    destruct (winner_of_spec g.2 (Hgd g Hgs) Hne) as (w' & Ew & Hw' & _ & Hmax). rewrite Ew in Hw.
    apply list_elem_of_singleton in Hw as ->. apply Hmax.
    rewrite (same_group gs g h Hk Hgs Hhs); [|done]. rewrite -(Hsym w' Hw') -(Hsym' j Hj). by symmetry.
  - intros j (x & (g & -> & Hgs)%list_elem_of_fmap & Hj)%elem_of_groups. destruct (Hg g Hgs) as [Hne Hsym].
    rewrite Forall_forall in Hsym. destruct (winner_of_spec g.2 (Hgd g Hgs) Hne) as (w & Ew & Hw & Hperm & Hmax).
    destruct (winner_of_loser g.2 (Hgd g Hgs) w j Ew Hperm Hj) as [Hne' Hj'].
    exists w. split_and!; [apply Hin; by exists g|done|by rewrite (Hsym w Hw) (Hsym j Hj')|by apply Hmax].
Qed.

(** What is approved trades a symbol of the universe. *)
Lemma winner_of_in (g : list (obj TradeIntent)) i : i ∈ (winner_of g).1 -> i ∈ g.
Proof.
  destruct g as [|j [|k g]]; [done|done|]. unfold winner_of. cbv zeta. cbn [fst]. intros ->%list_elem_of_singleton. apply max_by_in.
Qed.

Lemma survivor_in_universe intents i :
  i ∈ sort_desc (flat_map fst (map (fun g => winner_of g.2) (group_by_symbol (inside intents)))) ->
  i ∈ intents /\ in_universe (cx_universe context) i = true.
Proof.
  rewrite sort_desc_perm. intros (x & (g & -> & Hg)%list_elem_of_fmap & Hx)%elem_of_groups.
  apply elem_of_inside. rewrite -(proj1 (group_by_symbol_spec (inside intents))). rewrite -flat_map_concat_map.
  apply elem_of_groups. exists g. split; [done|by apply winner_of_in].
Qed.

(** A request trades what an intent in the universe asked for. *)
Definition stems_from (intents : list (obj TradeIntent)) (r : TradeRequest) : Prop := exists i, i ∈ intents /\
  in_universe (cx_universe context) i = true /\
  tr_symbol r = ti_symbol i.2 /\ tr_side r = ti_side i.2 /\ tr_reduce_only r = ti_reduce_only i.2.

Lemma size_at_terms i p r : sized i p = Ok r ->
  tr_symbol r = ti_symbol i.2 /\ tr_side r = ti_side i.2 /\ tr_reduce_only r = ti_reduce_only i.2.
Proof. unfold size_at. intros Hs. exact (size_intent_terms _ _ _ _ _ _ _ _ Hs). Qed.

Lemma approved_stems intents i r : i ∈ intents -> in_universe (cx_universe context) i = true -> approved_as i r ->
  stems_from intents r.
Proof.
  intros Hi Hu (d & (p & rate & Hs & _) & _). exists i. exact (conj Hi (conj Hu (size_at_terms _ _ _ Hs))).
Qed.

Lemma approved_stem_from intents s s' res : construct intents s = (s', Ok res) -> Forall (stems_from intents) (cr_approved res).
Proof.
  intros Hrun. unfold construct_trade_requests in Hrun. cbv zeta in Hrun.
  apply run_adds in Hrun as (ap & aq & rj & sk & -> & P & S1 & F & _). cbn [cr_approved app].
  assert (Hin : Forall (fun i => i ∈ intents /\ in_universe (cx_universe context) i = true) ap).
  { apply Forall_forall. intros i Hi. apply survivor_in_universe. rewrite P. apply elem_of_app. by left. }
  clear -F Hin. induction F as [|i r ap aq Ha F IH]; [constructor|]. apply Forall_cons in Hin as [[Hi Hu] Hin].
  constructor; [by eapply approved_stems|by apply IH].
Qed.

(** C27: every intent has one fate. When the pass returns, the intents are,
    each once, those behind the approved requests, the rejected ones and the
    skipped ones. A request is approved (or rejected) exactly on the risk
    manager's verdict on what sizing made of its intent, at the intent's own
    limit price where it has one. What reached the risk manager is in the
    universe, at most one per symbol, with the largest conviction of its symbol;
    the approved requests come by falling conviction; and each skipped intent has
    a reason that holds. *)
Theorem every_intent_accounted intents s s' res : NoDup (map fst intents) -> construct intents s = (s', Ok res) ->
  exists approved : list (obj TradeIntent),
  intents ≡ₚ approved ++ map rj_intent (cr_rejected res) ++ map sk_intent (cr_skipped res) /\
  Forall2 approved_as approved (cr_approved res) /\ Forall rejected_as (cr_rejected res) /\
  Forall (skipped_as intents) (cr_skipped res) /\ StronglySorted before approved /\
  NoDup (map symbol_name (approved ++ map rj_intent (cr_rejected res))) /\
  (forall i, i ∈ approved ++ map rj_intent (cr_rejected res) -> in_universe (cx_universe context) i = true /\
     forall j, j ∈ intents -> symbol_name j = symbol_name i -> before i j).
Proof.
  intros Hd Hrun. unfold construct_trade_requests in Hrun. cbv zeta in Hrun.
  destruct (survivors_spec (inside intents) (NoDup_filter_ids _ _ Hd)) as (Hp & Hs & Hmax & Hlose). cbv zeta in Hp, Hs, Hmax, Hlose.
  set (ws := flat_map fst _) in *. set (ls := flat_map snd _) in *.
  apply run_adds in Hrun as (ap & aq & rj & sk & -> & P & S1 & F & R & K).
  cbn [cr_approved cr_rejected cr_skipped] in *. cbn [app].
  assert (Hall : ap ++ map rj_intent rj ++ map sk_intent sk ≡ₚ ws) by by rewrite -P sort_desc_perm.
  assert (Hsub : forall i, i ∈ ap ++ map rj_intent rj -> i ∈ ws) by (intros i Hi; rewrite -Hall app_assoc elem_of_app; by left).
  assert (Hws : forall i, i ∈ ws -> in_universe (cx_universe context) i = true).
  { intros i Hi. apply (elem_of_inside (in_universe (cx_universe context)) intents). rewrite Hp. apply elem_of_app. by left. }
  exists ap. split_and!; [|done|done| | | |].
  - etransitivity; [apply (filter_split (in_universe (cx_universe context)))|]. rewrite Hp -Hall !map_app !map_map /= !map_id. solve_Permutation.
  - apply Forall_app. split; [apply Forall_app; split|by apply K]; apply Forall_fmap, Forall_forall; intros j Hj.
    + apply elem_of_inside in Hj as [_ Hj]. by apply negb_true_iff.
    + destruct (Hlose j Hj) as (w & Hw & H). exists w. split; [|exact H]. by apply elem_of_inside in Hw as [].
  - eapply sublist_sorted; [exact S1|apply sort_desc_sorted].
  - rewrite -Hall app_assoc map_app in Hs. by apply NoDup_app in Hs as [].
  - intros i Hi. pose proof (Hws i (Hsub i Hi)) as Hu. split; [done|]. intros j Hj E. apply Hmax; [by apply Hsub| |done].
    apply elem_of_inside. split; [done|]. unfold in_universe in *. by rewrite E.
Qed.
End spec.

(** ** A concrete pass *)

Definition sample_intent (symbol : string) (conviction : option decimal) : TradeIntent :=
  {| ti_symbol := {| sym_value := symbol |}; ti_side := OrderSide.BUY; ti_order_type := OrderType.LIMIT;
     ti_time_in_force := TimeInForce.GTC; ti_reduce_only := false; ti_stop_price := dint 95; ti_conviction := conviction;
     ti_limit_price := None; ti_t1_price := None; ti_t2_price := None |}.

Definition sample_intents : list (obj TradeIntent) :=
  [(1, sample_intent "BTC" (Some (Dec 5 (-1)))); (2, sample_intent "BTC" (Some (Dec (-9) (-1))));
   (3, sample_intent "DOGE" None); (4, sample_intent "ETH" None); (5, sample_intent "SOL" None)].

Definition sample_context : StrategyContext :=
  {| cx_universe := [{| sym_value := "BTC" |}; {| sym_value := "ETH" |}; {| sym_value := "SOL" |}];
     cx_portfolio_snapshot := risk_portfolio; cx_open_positions := []; cx_kill_switch_state := State.READY;
     cx_evaluated_at_utc := "10:01" |}.

(** The price of SOL is its stop price; the funding of ETH is too high. *)
Definition sample_mark (s : Symbol) : M unit MarkPrice :=
  mret {| mp_symbol := s; mp_price := (if String.eqb (sym_value s) "SOL" then dint 95 else dint 100); mp_timestamp_utc := "10:00" |}.
Definition sample_funding (s : Symbol) : M unit FundingRate :=
  mret {| fr_symbol := s; fr_rate := (if String.eqb (sym_value s) "ETH" then dint 1 else d0);
          fr_next_funding_time_utc := "11:00"; fr_timestamp_utc := "10:00" |}.

Definition sample_caps : ExchangeCapabilities :=
  {| supports_reduce_only := true; supports_post_only := true; supports_ioc := true; supports_fok := true;
     supports_market_orders := true; supports_limit_orders := true; supports_trigger_orders := true;
     supports_partial_fill_notifications := true; supports_funding_rate := true; supports_cross_margin := true;
     supports_isolated_margin := true; cap_extra := [] |}.

Definition sample_pass : unit * result ConstructionResult :=
  construct_trade_requests clock sample_mark sample_funding sample_context risk_limits risk_profile
    sample_caps
    {| ci_entries := []; ci_as_of_utc := "10:00" |} (Dec 1 (-2)) d1 [] sample_intents tt.

Example sample_pass_fates :
  match sample_pass.2 with
  | Ok res => (map (fun r => sym_value (tr_symbol r)) (cr_approved res), map (fun x => (rj_intent x).1) (cr_rejected res),
               map (fun x => ((sk_intent x).1, sk_reason x)) (cr_skipped res))
  | Err _ => ([], [], [])
  end = (["BTC"], [4], [(3, OutsideUniverse); (1, DuplicateIntent); (5, SizingFailed)]).
Proof. vm_compute. reflexivity. Qed.

Lemma every_intent_accounted_witness :
  match sample_pass with
  | (_, Ok res) => exists approved,
      sample_intents ≡ₚ approved ++ map rj_intent (cr_rejected res) ++ map sk_intent (cr_skipped res) /\
      length approved = length (cr_approved res) /\ NoDup (map symbol_name (approved ++ map rj_intent (cr_rejected res)))
  | _ => False
  end.
Proof.
  destruct sample_pass as [u [res|e]] eqn:E; [|vm_compute in E; discriminate E].
  unfold sample_pass in E.
  destruct (every_intent_accounted _ _ _ _ _ _ _ _ _ _ _ sample_intents tt u res
    ltac:(apply (bool_decide_unpack _); vm_compute; exact I) E) as (ap & H1 & H2 & _ & _ & _ & H3 & _).
  exists ap. split; [exact H1|]. split; [exact (Forall2_length _ _ _ H2)|exact H3].
Defined.

(** ** Two flaws *)

Definition sample_profile (mode : string) (risk_pct : float) : RiskProfileParams :=
  {| rp_risk_pct_per_trade := risk_pct; rp_max_positions := 3; rp_sizing_mode := mode; rp_heat_cap := true_div 6 100;
     rp_ruin_threshold := true_div 1 2 |}.

Definition pass_with (profile : RiskProfileParams) (intents : list (obj TradeIntent)) : unit * result ConstructionResult :=
  construct_trade_requests clock sample_mark sample_funding sample_context risk_limits profile
    sample_caps {| ci_entries := []; ci_as_of_utc := "10:00" |} (Dec 1 (-2)) d1 [] intents tt.

(** An intent of conviction zero passes the checks of [TradeIntent]; weighted by
    its conviction it risks nothing, and the request it is sized to is refused
    with an error the pass does not catch: the other intents are lost with it. *)
Lemma zero_conviction_aborts :
  is_ok (mk_TradeIntent (sample_intent "ETH" (Some d0))) = true /\
  is_ok (pass_with (sample_profile "conviction_weighted" (true_div 1 100)) [(1, sample_intent "BTC" (Some d1))]).2 = true /\
  pass_with (sample_profile "conviction_weighted" (true_div 1 100))
    [(1, sample_intent "BTC" (Some d1)); (2, sample_intent "ETH" (Some d0))] = (tt, Err RiskManagerConfigurationError).
Proof. split_and!; vm_compute; reflexivity. Qed.

(** Sizing reads the risk fraction through its decimal text, the risk manager
    compares it as a float: a trade sized to a fraction whose float lies below
    its decimal, as with 0.015, is always over its own limit. *)
Lemma sized_trade_over_its_limit :
  match (pass_with (sample_profile "fixed" (true_div 15 1000)) [(1, sample_intent "BTC" None)]).2 with
  | Ok res => cr_approved res = [] /\ map (fun x => rd_reason_codes (rj_decision x)) (cr_rejected res) =
      [[ReasonCode.RISK_PER_TRADE_EXCEEDED]] /\
      map (fun x => rd_violated_limits (rj_decision x)) (cr_rejected res) = [["risk_pct_per_trade: 0.015 > 0.015"]]
  | Err _ => False
  end.
Proof. vm_compute. split_and!; reflexivity. Qed.
