(* ===== verification/Engine.v ===== *)
(** * The engine and its orchestration (src/composition_root/engine.py, wiring.py,
    deployment.py, src/orchestration/, src/trading_system/market_data/facade.py)

    The managers over one shared event log and one adapter, what an engine is
    built from, the start and stop handshakes, and the coordination steps a
    cycle is made of. *)

From Stdlib Require Import ssreflect ZArith Lia Ascii String.
From stdpp Require Import base strings numbers gmap sets list.
From S2P Require Import Prelude PyText PyDict PyJson PyDecimal EventStore EventLog.
From S2P Require ExecStateMachine SecretsBoundary PositionManager PortfolioManager MockExchange Config.
From S2P Require Import ExchangeModels ExchangeAdapter OrderStates OrderManager PositionStates RiskManager.
#[local] Open Scope Z_scope.

(** What the engine asks of an adapter beyond the order manager's calls. *)
Class Venue (A : Type) := {
  ve_connect : M A HealthStatus;
  ve_disconnect : M A unit;
  ve_get_orders : M A (list Order);
  ve_get_funding_rate : Symbol -> M A FundingRate;
  ve_capabilities : A -> ExchangeCapabilities;
  ve_health : M A HealthStatus
}.

#[global] Instance mock_venue : Venue (ExchangeAdapter MockExchange.MockExchange) := {
  ve_connect := MockExchange.query MockExchange.connect;
  ve_disconnect := MockExchange.query MockExchange.disconnect;
  ve_get_orders := MockExchange.query MockExchange.mock_get_orders;
  ve_get_funding_rate s := MockExchange.query (MockExchange.get_funding_rate s);
  ve_capabilities a := MockExchange.mk_capabilities (ea_hooks a);
  ve_health := MockExchange.query MockExchange.health
}.

(** The boundary and the wallet signer an engine holds are those its adapter
    signs with. *)
Class Signing (A : Type) `{Venue A} := {
  sg_boundary : A -> SecretsBoundary.SigningBoundary;
  sg_set_boundary : SecretsBoundary.SigningBoundary -> A -> A;
  sg_wallet_active : A -> bool;
  sg_wallet_revoke : A -> A;
  sg_set_get b a : sg_boundary (sg_set_boundary b a) = b;
  sg_wallet_boundary a : sg_boundary (sg_wallet_revoke a) = sg_boundary a;
  sg_wallet_revoked a : sg_wallet_active (sg_wallet_revoke a) = false;
  (* asking for the connection's health signs nothing *)
  sg_health a : sg_boundary (ve_health a).1 = sg_boundary a /\ sg_wallet_active (ve_health a).1 = sg_wallet_active a
}.

(** The mock has no wallet. *)
#[global] Program Instance mock_signing : Signing (ExchangeAdapter MockExchange.MockExchange) := {
  sg_boundary a := MockExchange.mk_signing (ea_hooks a);
  sg_set_boundary b a := set_hooks (MockExchange.with_env (MockExchange.mk_clock (ea_hooks a)) b (ea_hooks a)) a;
  sg_wallet_active _ := false;
  sg_wallet_revoke a := a
}.
Next Obligation. done. Qed.
Next Obligation. done. Qed.
Next Obligation. done. Qed.
Next Obligation.
  intros [? ? ? ? ? [? ? ? ? ? ? ? ? ? ? ? fail ? ? clock]]. cbv -[dget dpop dset].
  destruct (dget _ fail); [done|]. by destruct clock.
Qed.

(** ** deployment.py *)

Definition _ACCOUNT_ADDRESS_ENV_VAR : string := "TURTLE_DEPLOYMENT_ACCOUNT_ADDRESS".
Definition _ENGINE_VERSION_ENV_VAR : string := "TURTLE_ENGINE_VERSION".
Definition _DEFAULT_ENGINE_VERSION : string := "1.0.0".

Record DeploymentSettings := { de_engine_version : string; de_account_address : option string }.

(** [environ.get(variable) or None] *)
Definition get_or_none (variable : string) (env : list (string * string)) : option string :=
  match dget variable env with Some "" | None => None | Some s => Some s end.

Definition load_deployment_settings (env : list (string * string)) : DeploymentSettings :=
  {| de_engine_version := default _DEFAULT_ENGINE_VERSION (dget _ENGINE_VERSION_ENV_VAR env);
     de_account_address := get_or_none _ACCOUNT_ADDRESS_ENV_VAR env |}.

(** The default of every manager's id. *)
Definition default_id : string := "default".

(** The components of an engine. The store, the adapter, the order manager and
    the execution state machine are the order manager's world; the position and
    portfolio managers share its store. *)
Record Engine (L A : Type) := {
  en_orders : World L A;
  en_positions : PositionManager.PositionManager;
  en_portfolio : PortfolioManager.PortfolioManager;
  en_limits : RiskManagerLimits;
  en_started : bool
}.
Arguments en_orders {L A}.
Arguments en_positions {L A}.
Arguments en_portfolio {L A}.
Arguments en_limits {L A}.
Arguments en_started {L A}.

Section engine.
Context {L A : Type} `{EventLog L} `{Exchange A} `{Venue A}.
Notation E := (Engine L A).

Definition en_store (e : E) : L := w_store (en_orders e).
Definition with_store (l : L) (w : World L A) : World L A :=
  {| w_store := l; w_adapter := w_adapter w; w_esm := w_esm w; w_om := w_om w |}.
Definition set_orders (w : World L A) (e : E) : E :=
  {| en_orders := w; en_positions := en_positions e; en_portfolio := en_portfolio e; en_limits := en_limits e;
     en_started := en_started e |}.
Definition set_started (b : bool) (e : E) : E :=
  {| en_orders := en_orders e; en_positions := en_positions e; en_portfolio := en_portfolio e; en_limits := en_limits e;
     en_started := b |}.

(** A call on a component runs on its part of the engine. *)
Definition on_order_manager {X} : M (World L A) X -> M E X := zoom en_orders set_orders.
Definition on_position_manager {X} : M (L * PositionManager.PositionManager) X -> M E X :=
  zoom (fun e => (en_store e, en_positions e))
       (fun p e => {| en_orders := with_store p.1 (en_orders e); en_positions := p.2; en_portfolio := en_portfolio e;
                      en_limits := en_limits e; en_started := en_started e |}).
Definition on_portfolio_manager {X} : M (L * PortfolioManager.PortfolioManager) X -> M E X :=
  zoom (fun e => (en_store e, en_portfolio e))
       (fun p e => {| en_orders := with_store p.1 (en_orders e); en_positions := en_positions e; en_portfolio := p.2;
                      en_limits := en_limits e; en_started := en_started e |}).
Definition on_event_store {X} (m : M L X) : M E X := on_order_manager (on_store m).
Definition on_venue {X} (m : M A X) : M E X := on_order_manager (on_adapter m).

(** ** wiring.py *)

Definition _SUPPORTED_ENVIRONMENTS : list string := ["paper"; "live"].
Definition _SUPPORTED_EXCHANGES : list string := ["hyperliquid"].

(** Whether the engine is live. *)
Definition check_config (config : Config.EngineConfig) (deployment : DeploymentSettings) : result bool :=
  if negb (existsb (String.eqb (Config.cf_environment config)) _SUPPORTED_ENVIRONMENTS) then Err UnsupportedEnvironmentError
  else if negb (existsb (String.eqb (Config.xc_name (Config.cf_exchange config))) _SUPPORTED_EXCHANGES) then Err UnsupportedExchangeError
  else
    let is_live := String.eqb (Config.cf_environment config) "live" in
    if is_live && match de_account_address deployment with None | Some EmptyString => true | _ => false end
    then Err MissingDeploymentSettingError
    else Ok is_live.

(** The boundary of an engine: it holds the signing reference alone. *)
Definition engine_boundary (config : Config.EngineConfig) (deployment : DeploymentSettings) (env : list (string * string)) :
    result SecretsBoundary.SigningBoundary :=
  match SecretsBoundary.boundary_init [Config.sc_signing_key_ref (Config.cf_secrets config)] (de_engine_version deployment)
          (Config.xc_name (Config.cf_exchange config)) (SecretsBoundary.backend_init env) with
  | inl boundary => Ok boundary
  | inr (e, _) => Err e
  end.

(** The components over an open store and an adapter; [now] is the clock's
    answer to the portfolio manager. *)
Definition wire (limits : RiskManagerLimits) (now : string) (store : L) (adapter : result A) : result E :=
  esm ← ExecStateMachine.esm_init store default_id;
  adapter ← adapter;
  om ← om_init store default_id;
  pm ← PositionManager.pm_init store default_id;
  pf ← PortfolioManager.pf_init now store default_id;
  Ok {| en_orders := {| w_store := store; w_adapter := adapter; w_esm := esm; w_om := om |};
        en_positions := pm; en_portfolio := pf; en_limits := limits; en_started := false |}.

(** [build_engine]: [opened] is the store's constructor, [make_adapter] builds
    the mock or the live adapter over the boundary and the store. The second
    component says that a store was opened and closed again. *)
Definition build_engine (config : Config.EngineConfig) (deployment : DeploymentSettings) (limits : RiskManagerLimits)
    (now : string) (opened : result L) (env : list (string * string))
    (make_adapter : bool -> SecretsBoundary.SigningBoundary -> L -> result A) : result E * bool :=
  match check_config config deployment with
  | Err e => (Err e, false)
  | Ok is_live =>
      match opened with
      | Err e => (Err e, false)
      | Ok store =>
          match (boundary ← engine_boundary config deployment env;
                 wire limits now store (make_adapter is_live boundary store)) with
          | Ok engine => (Ok engine, false)
          | Err e => (Err e, true)
          end
      end
  end.

(** ** engine.py *)

Definition start : M E HealthStatus :=
  health ← on_venue ve_connect;
  modify (set_started true);;
  mret health.

(** [log_close] is the store's [close]. *)
Definition stop (log_close : M L unit) : M E unit :=
  on_venue ve_disconnect;;
  on_event_store log_close;;
  modify (set_started false).

(** ** orchestration *)

Inductive VenueEvent :=
  | FillObserved (client_order_id : string) (fill : Fill)
  | OrderStatusObserved (client_order_id : string) (order : Order).

Definition dispatch (event : VenueEvent) : M E OrderSnapshot :=
  match event with
  | FillObserved cid fill => on_order_manager (report_fill cid fill)
  | OrderStatusObserved cid order => on_order_manager (report_order_update cid order)
  end.

Fixpoint resync_all (ids : list string) : M E (list OrderSnapshot) :=
  match ids with
  | [] => mret []
  | id :: ids => s ← on_order_manager (resync_order id); ss ← resync_all ids; mret (s :: ss)
  end.

Definition synchronize : M E (list OrderSnapshot) :=
  e ← get;
  resync_all (in_doubt_client_order_ids (w_om (en_orders e))).

(** The view of one open position; [None] when it is flat. *)
Definition local_position (position_id : string) : M E (option Position) :=
  snapshot ← on_position_manager (PositionManager.get_position position_id);
  if deqb (ps_remaining_quantity snapshot) d0 then mret None else
  mark ← on_venue (ex_get_mark_price (ps_symbol snapshot));
  let mark_price := mp_price mark in
  let entry_price := default mark_price (ps_avg_entry_price snapshot) in
  let signed_quantity := if bool_decide (ps_side snapshot = OrderSide.BUY) then ps_remaining_quantity snapshot
                         else dneg (ps_remaining_quantity snapshot) in
  pnl ← on_position_manager (PositionManager.unrealized_pnl_of position_id mark_price);
  mret (Some {| po_symbol := ps_symbol snapshot; po_quantity := signed_quantity; po_entry_price := entry_price;
                po_mark_price := mark_price; po_unrealized_pnl := pnl; po_liquidation_price := None |}).

Fixpoint local_positions (ids : list string) : M E (list Position) :=
  match ids with
  | [] => mret []
  | id :: ids => p ← local_position id; ps ← local_positions ids; mret (option_list p ++ ps)
  end.

Definition _local_positions : M E (list Position) :=
  portfolio_snapshot ← on_portfolio_manager PortfolioManager.get_snapshot;
  local_positions (PortfolioManager.pf_open_position_ids portfolio_snapshot).

Definition reconcile : M E ReconciliationReport :=
  ps ← _local_positions;
  on_venue (ex_reconcile ps).

Record StartupReport := {
  su_health : HealthStatus;
  su_resynced_orders : list OrderSnapshot;
  su_reconciliation : ReconciliationReport
}.

Definition startup : M E StartupReport :=
  health ← start;
  resynced_orders ← synchronize;
  reconciliation ← reconcile;
  mret {| su_health := health; su_resynced_orders := resynced_orders; su_reconciliation := reconciliation |}.

Definition shutdown (log_close : M L unit) : M E unit := stop log_close.
End engine.
