(* ===== verification/TradingCycle.v ===== *)
(** * One trading cycle (src/trading_system/scheduling/cycle.py, models.py)

    The order of the stages, the suppression of intents a live order already
    stands for, and the execution of what the risk manager approved. *)

From Stdlib Require Import ssreflect ZArith Lia Ascii String.
From stdpp Require Import base strings numbers gmap sets list.
From S2P Require Import Prelude PyText PyDict PyJson PyDecimal PyFloat EventLog.
From S2P Require ExecStateMachine PositionManager PortfolioManager.
From S2P Require Import ExchangeModels ExchangeAdapter OrderStates OrderManager PositionStates Quantization RiskManager.
From S2P Require Import Sizing Execution Construction Engine.
#[local] Open Scope Z_scope.

Record CycleResult := {
  cy_started : bool;
  cy_health : option HealthStatus;
  cy_resynced_orders : list OrderSnapshot;
  cy_reconciliation : ReconciliationReport;
  cy_intents : list (obj TradeIntent);
  cy_construction : ConstructionResult;
  cy_executions : list ExecutionResult;
  cy_evaluated_at_utc : string;
  cy_suppressed_by_open_orders : list (obj TradeIntent)
}.

Definition _approved_marker (decision_timestamp : string) : RiskDecision :=
  {| rd_decision := Decision.APPROVED; rd_reason_codes := [ReasonCode.OK]; rd_violated_limits := [];
     rd_calculated_exposure := None; rd_calculated_heat := None; rd_leverage := None; rd_liquidation_buffer := None;
     rd_funding_estimate := None; rd_timestamp_utc := decision_timestamp;
     rd_audit_metadata := [("source", JStr "trading_system.scheduling: reconstructed from ConstructionResult.approved")] |}.

(** An order whose status is not final. *)
Definition live_order (o : Order) : bool :=
  match o_status o with OrderStatus.FILLED | OrderStatus.CANCELLED | OrderStatus.REJECTED => false | _ => true end.

(** [live_order_keys], and whether it holds an intent's key. *)
Definition live_order_keys (orders : list Order) : list (string * bool) :=
  map (fun o => (sym_value (o_symbol o), o_reduce_only o)) (List.filter live_order orders).
Definition suppressed (keys : list (string * bool)) (i : obj TradeIntent) : bool :=
  existsb (fun k => String.eqb k.1 (symbol_name i) && Bool.eqb k.2 (ti_reduce_only i.2)) keys.

Section cycle.
Context {L A X : Type} `{EventLog L} `{Exchange A} `{Venue A}.
(** The engine, and what the caller's hook keeps. *)
Notation W := (Engine L A * X)%type.
Definition on_engine {Y} : M (Engine L A) Y -> M W Y := zoom fst (fun e w => (e, w.2)).

(** A strategy reads its context and, through the context's view of the
    adapter, the market. *)
Definition Strategy : Type := StrategyContext -> M A (list (obj TradeIntent)).

Context (fromisoformat : string -> result (Z * option Z)).
Context (strategies : list Strategy) (universe : list Symbol) (risk_profile : RiskProfileParams)
  (correlation_info : CorrelationInfo) (maintenance_margin_rate target_leverage : decimal)
  (volatility_by_symbol : list (string * decimal)) (now : string)
  (on_execution : option (ExecutionResult -> M W unit)) (quantization_rules : option QuantizationRules).

Fixpoint open_positions (ids : list string) : M (Engine L A) (list PositionSnapshot) :=
  match ids with
  | [] => mret []
  | id :: ids => p ← on_position_manager (PositionManager.get_position id); ps ← open_positions ids; mret (p :: ps)
  end.

Definition strategy_context : M (Engine L A) StrategyContext :=
  portfolio_snapshot ← on_portfolio_manager PortfolioManager.get_snapshot;
  positions ← open_positions (PortfolioManager.pf_open_position_ids portfolio_snapshot);
  e ← get;
  lift (mk_StrategyContext
    {| cx_universe := universe; cx_portfolio_snapshot := portfolio_snapshot; cx_open_positions := positions;
       cx_kill_switch_state := ExecStateMachine.esm_current_state (w_esm (en_orders e)); cx_evaluated_at_utc := now |}).

Fixpoint generate_all (context : StrategyContext) (ss : list Strategy) : M A (list (obj TradeIntent)) :=
  match ss with
  | [] => mret []
  | s :: ss => i ← s context; rest ← generate_all context ss; mret (i ++ rest)
  end.

(** The execution loop. *)
Fixpoint execute_all (executed : list ExecutionResult) (l : list TradeRequest) : M W (list ExecutionResult) :=
  match l with
  | [] => mret executed
  | r :: l =>
      result ← on_engine (on_order_manager (execute_place r (_approved_marker now) quantization_rules));
      match on_execution with Some hook => hook result | None => mret tt end;;
      execute_all (executed ++ [result]) l
  end.

Definition construct_in (context : StrategyContext) (intents : list (obj TradeIntent)) : M (Engine L A) ConstructionResult :=
  e ← get;
  on_venue (construct_trade_requests fromisoformat ex_get_mark_price ve_get_funding_rate context (en_limits e) risk_profile
    (ve_capabilities (w_adapter (en_orders e))) correlation_info maintenance_margin_rate target_leverage volatility_by_symbol
    intents).

Definition run_cycle : M W CycleResult :=
  e ← on_engine get;
  let started := negb (en_started e) in
  health ← (if started then h ← on_engine start; mret (Some h) else mret None);
  resynced_orders ← on_engine synchronize;
  reconciliation ← on_engine reconcile;
  context ← on_engine strategy_context;
  intents ← on_engine (on_venue (generate_all context strategies));
  orders ← on_engine (on_venue ve_get_orders);
  let keys := live_order_keys orders in
  let suppressed_by_open_orders := List.filter (suppressed keys) intents in
  let tradable_intents := List.filter (fun i => negb (suppressed keys i)) intents in
  construction ← on_engine (construct_in context tradable_intents);
  executions ← execute_all [] (cr_approved construction);
  mret {| cy_started := started; cy_health := health; cy_resynced_orders := resynced_orders;
          cy_reconciliation := reconciliation; cy_intents := intents; cy_construction := construction;
          cy_executions := executions; cy_evaluated_at_utc := now;
          cy_suppressed_by_open_orders := suppressed_by_open_orders |}.
End cycle.
