(* ===== verification/Accounting.v ===== *)
(** * Accounting synchronization (src/app/runtime/accounting.py)

    The fills of the venue booked into the order, position and portfolio
    managers, the maps that attribute them, and the marks of the open positions. The maps of
    orders to levels and to positions follow from the events written, and each
    order is under them once. *)

From Stdlib Require Import ssreflect ZArith Lia Ascii String.
From stdpp Require Import base strings numbers gmap sets list.
From S2P Require PositionManager PortfolioManager.
From S2P Require Import Prelude PyText PyDict PyJson PyDecimal EventStore EventStoreFacts EventLog ExchangeModels ExchangeAdapter Payload OrderStates OrderManager PositionStates.
From S2P Require Import RiskManager Execution Engine.
#[local] Open Scope Z_scope.

Definition _SOURCE_TAG : string := "app_accounting".
Definition _ACTION_LEVELS : string := "order_levels_recorded".
Definition _ACTION_MAPPED : string := "order_position_mapped".

Definition _TERMINAL_POSITION_STATES (s : PositionLifecycleState) : bool :=
  match s with PositionLifecycleState.CLOSED | PositionLifecycleState.ARCHIVED => true | _ => false end.

(** The instance's own state: levels (entry, stop) and position of each order,
    and the closed quantities counted in this process. *)
Record Accounting := {
  ac_levels_by_cid : list (string * (decimal * decimal));
  ac_position_by_cid : list (string * string);
  ac_closed_qty_by_pid : list (string * decimal);
  ac_counted_exit_fills : gset string
}.

Definition ac_empty : Accounting :=
  {| ac_levels_by_cid := []; ac_position_by_cid := []; ac_closed_qty_by_pid := []; ac_counted_exit_fills := ∅ |}.
Definition add_levels (cid : string) (entry stop : decimal) (a : Accounting) : Accounting :=
  {| ac_levels_by_cid := dset cid (entry, stop) (ac_levels_by_cid a); ac_position_by_cid := ac_position_by_cid a;
     ac_closed_qty_by_pid := ac_closed_qty_by_pid a; ac_counted_exit_fills := ac_counted_exit_fills a |}.
Definition add_mapping (cid pid : string) (a : Accounting) : Accounting :=
  {| ac_levels_by_cid := ac_levels_by_cid a; ac_position_by_cid := dset cid pid (ac_position_by_cid a);
     ac_closed_qty_by_pid := ac_closed_qty_by_pid a; ac_counted_exit_fills := ac_counted_exit_fills a |}.
Definition closed_qty (pid : string) (a : Accounting) : decimal := default d0 (dget pid (ac_closed_qty_by_pid a)).
(** A fill contributes to what is closed once. *)
Definition count_exit (fill_id pid : string) (quantity : decimal) (a : Accounting) : Accounting :=
  if bool_decide (fill_id ∈ ac_counted_exit_fills a) then a else
  {| ac_levels_by_cid := ac_levels_by_cid a; ac_position_by_cid := ac_position_by_cid a;
     ac_closed_qty_by_pid := dset pid (dadd (closed_qty pid a) quantity) (ac_closed_qty_by_pid a);
     ac_counted_exit_fills := {[fill_id]} ∪ ac_counted_exit_fills a |}.

(** ** The constructor *)

Definition rebuild_event (a : Accounting) (event : Event) : result Accounting :=
  let payload := ev_payload event in
  if negb (bool_decide (jstr "source" payload = Some _SOURCE_TAG)) then Ok a
  else if bool_decide (jstr "action" payload = Some _ACTION_LEVELS) then
    entry ← dec_item "entry_price" payload;
    stop ← dec_item "stop_price" payload;
    cid ← item "client_order_id" payload;
    cid ← str_of cid;
    Ok (add_levels cid entry stop a)
  else if bool_decide (jstr "action" payload = Some _ACTION_MAPPED) then
    pid ← item "position_id" payload;
    pid ← str_of pid;
    cid ← item "client_order_id" payload;
    cid ← str_of cid;
    Ok (add_mapping cid pid a)
  else Ok a.

Definition ac_init `{EventLog L} (store : L) : result Accounting :=
  events ← log_replay store;
  fold_result rebuild_event ac_empty events.

(** ** What is reported instead of raised *)

Inductive note :=
  | FetchFailed (e : exn)
  | Unbookable (fill_id client_order_id : string) (e : exn)
  | UnknownOrder (fill_id client_order_id : string)
  | NoLevels (fill_id client_order_id : string)
  | DegenerateStop (fill_id client_order_id : string)
  | DeadPosition (fill_id position_id : string)
  | MarginFailed (fill_id position_id : string) (e : exn)
  | Unattributed (fill_id : string)
  | PartialClose (fill_id position_id : string) (closed filled : decimal).

Definition is_portfolio_error (e : exn) : bool :=
  match e with InsufficientFundsError | InsufficientMarginError | AccountingInvariantError => true | _ => false end.
(** The errors of one fill that do not stop the others: the managers' own and
    [ValueError] with its subclasses. *)
Definition is_booking_error (e : exn) : bool :=
  is_portfolio_error e ||
  match e with
  | OrderNotFoundError | IllegalOrderTransitionError | OrderStateInconsistencyError
  | PositionNotFoundError | IllegalPositionTransitionError | PositionStateInconsistencyError
  | ValueError | UnicodeDecodeError | JSONDecodeError => true
  | _ => false
  end.

Section accounting.
Context {L A : Type} `{EventLog L} `{Exchange A} `{Venue A}.
Context (target_leverage : decimal).
(** The engine, this instance, and the notes of the running [sync]. *)
Notation E := (Engine L A).
Notation W := (E * Accounting)%type.
Notation N := (W * list note)%type.

Definition in_engine {X} : M E X -> M W X := zoom fst (fun e w => (e, w.2)).
Definition in_books {X} : M Accounting X -> M W X := zoom snd (fun a w => (w.1, a)).
Definition noting {X} : M W X -> M N X := zoom fst (fun w n => (w, n.2)).
Definition add_note (x : note) : M N unit := modify (fun n => (n.1, n.2 ++ [x])).
Definition books : M N Accounting := noting (in_books get).

Definition _append (action key : string) (fields : list (string * json)) : M W unit :=
  _ ← in_engine (on_event_store (log_append EventType.POSITION_UPDATED
    (("source", JStr _SOURCE_TAG) :: ("action", JStr action) :: fields)
    (Some (_SOURCE_TAG +:+ ":" +:+ action +:+ ":" +:+ key))));
  mret tt.

(** ** Levels *)

Definition record_level (x : ExecutionResult) : M W unit :=
  match er_trade_request x with
  | None => mret tt
  | Some r =>
      let cid := sn_client_order_id (er_order_snapshot x) in
      a ← in_books get;
      if din cid (ac_levels_by_cid a) then mret tt else
      _append _ACTION_LEVELS cid
        [("client_order_id", JStr cid); ("entry_price", JStr (dec_str (tr_entry_price r)));
         ("stop_price", JStr (dec_str (tr_stop_price r)))];;
      in_books (modify (add_levels cid (tr_entry_price r) (tr_stop_price r)))
  end.

Definition record_execution_levels (executions : list ExecutionResult) : M W unit := for_each record_level executions.

(** ** Entries *)

Definition map_position (cid pid : string) : M W unit :=
  _append _ACTION_MAPPED cid [("client_order_id", JStr cid); ("position_id", JStr pid)];;
  in_books (modify (add_mapping cid pid)).

(** The position of an entry fill, created for the first one; [None] when it
    cannot be. *)
Definition entry_position (fill : Fill) (intended_quantity : decimal) : M N (option string) :=
  let cid := fl_client_order_id fill in
  a ← books;
  match dget cid (ac_position_by_cid a) with
  | Some pid => mret (Some pid)
  | None =>
      match dget cid (ac_levels_by_cid a) with
      | None => add_note (NoLevels (fl_fill_id fill) cid);; mret None
      | Some (entry, stop) =>
          let stop_d := dabs (dsub entry stop) in
          if dleb stop_d d0 then add_note (DegenerateStop (fl_fill_id fill) cid);; mret None else
          let two := dmul (dint 2) stop_d in
          let '(t1, t2) := if bool_decide (fl_side fill = OrderSide.BUY) then (dadd entry stop_d, dadd entry two)
                           else (dsub entry stop_d, dsub entry two) in
          snapshot ← noting (in_engine (on_position_manager
            (PositionManager.create_position default_id (fl_symbol fill) (fl_side fill) intended_quantity stop stop_d t1 t2 None)));
          noting (map_position cid (ps_position_id snapshot));;
          mret (Some (ps_position_id snapshot))
      end
  end.

(** [try: reserve; allocate except PortfolioManagerError]. *)
Definition book_margin (pid : string) (fill : Fill) (margin : decimal) : M N unit := fun n =>
  match noting (in_engine (on_portfolio_manager
          (_ ← PortfolioManager.reserve_margin default_id pid margin (fl_fill_id fill);
           PortfolioManager.allocate_margin default_id pid margin (fl_fill_id fill)))) n with
  | (n', Err e) => if is_portfolio_error e then add_note (MarginFailed (fl_fill_id fill) pid e) n' else (n', Err e)
  | (n', Ok _) => (n', Ok tt)
  end.

Definition _book_entry (fill : Fill) (intended_quantity : decimal) : M N unit :=
  pid ← entry_position fill intended_quantity;
  match pid with
  | None => mret tt
  | Some pid =>
      before ← noting (in_engine (on_position_manager (PositionManager.get_position pid)));
      snapshot ← noting (in_engine (on_position_manager (PositionManager.record_entry_fill default_id pid fill)));
      if _TERMINAL_POSITION_STATES (ps_lifecycle_state snapshot) then
        if deqb (ps_filled_quantity snapshot) (ps_filled_quantity before) then mret tt
        else add_note (DeadPosition (fl_fill_id fill) pid)
      else
        margin ← lift (ddiv (dmul (fl_quantity fill) (fl_price fill)) target_leverage);
        book_margin pid fill margin;;
        if dltb d0 (fl_fee fill) then
          _ ← noting (in_engine (on_portfolio_manager
                (PortfolioManager.apply_fee default_id pid (fl_fill_id fill) (fl_fee fill) (fl_fill_id fill))));
          mret tt
        else mret tt
  end.

(** ** Exits *)

Definition _find_open_position (symbol : Symbol) (closing_side : OrderSide) (pids : list string)
    (pm : PositionManager.PositionManager) : option string :=
  let opening_side := if bool_decide (closing_side = OrderSide.BUY) then OrderSide.SELL else OrderSide.BUY in
  List.find (fun pid =>
    match dget pid (PositionManager.pm_snapshots pm) with
    | None => false
    | Some pos => String.eqb (sym_value (ps_symbol pos)) (sym_value symbol) && bool_decide (ps_side pos = opening_side)
                  && negb (_TERMINAL_POSITION_STATES (ps_lifecycle_state pos)) && dltb d0 (ps_remaining_quantity pos)
    end) pids.

(** The position an exit order closes, claimed before anything else changes. *)
Definition exit_target (fill : Fill) : M N (option string) :=
  let cid := fl_client_order_id fill in
  a ← books;
  match dget cid (ac_position_by_cid a) with
  | Some pid => mret (Some pid)
  | None =>
      e ← noting (in_engine get);
      match _find_open_position (fl_symbol fill) (fl_side fill) (map snd (ac_position_by_cid a)) (en_positions e) with
      | None => add_note (Unattributed (fl_fill_id fill));; mret None
      | Some pid => noting (map_position cid pid);; mret (Some pid)
      end
  end.

Definition direction_of (side : OrderSide) : decimal := if bool_decide (side = OrderSide.BUY) then d1 else dint (-1).

Definition realized_of (side : OrderSide) (avg : decimal) (fill : Fill) : decimal :=
  dsub (dmul (dmul (direction_of side) (dsub (fl_price fill) avg)) (fl_quantity fill)) (fl_fee fill).

Definition _book_exit (fill : Fill) : M N unit :=
  pid ← exit_target fill;
  match pid with
  | None => mret tt
  | Some pid =>
      position ← noting (in_engine (on_position_manager (PositionManager.get_position pid)));
      match ps_avg_entry_price position with
      | Some avg =>
          _ ← noting (in_engine (on_portfolio_manager
                (PortfolioManager.apply_realized_pnl default_id pid (fl_fill_id fill) (realized_of (ps_side position) avg fill)
                   (fl_fill_id fill))));
          mret tt
      | None => mret tt
      end;;
      noting (in_books (modify (count_exit (fl_fill_id fill) pid (fl_quantity fill))));;
      if _TERMINAL_POSITION_STATES (ps_lifecycle_state position) then mret tt else
      a ← books;
      let closed := closed_qty pid a in
      if dltb closed (ps_filled_quantity position)
      then add_note (PartialClose (fl_fill_id fill) pid closed (ps_filled_quantity position))
      else
        _ ← noting (in_engine (on_position_manager
              (PositionManager.record_exit default_id pid fill PositionLifecycleTrigger.CLOSE (Some "reduce_only_fill"))));
        _ ← noting (in_engine (on_portfolio_manager (PortfolioManager.release_margin default_id pid ("close:" +:+ pid))));
        mret tt
  end.

(** ** Booking the fills *)

Definition _book_one (fill : Fill) : M N unit := fun n =>
  let cid := fl_client_order_id fill in
  match noting (in_engine (dispatch (FillObserved cid fill))) n with
  | (n', Err OrderNotFoundError) => add_note (UnknownOrder (fl_fill_id fill) cid) n'
  | (n', Err e) => (n', Err e)
  | (n', Ok _) =>
      (order ← noting (in_engine (on_order_manager (get_order_status cid)));
       if sn_reduce_only order then _book_exit fill else _book_entry fill (sn_quantity order)) n'
  end.

(** One turn of the loop. *)
Definition book_fill (fill : Fill) : M N unit := fun n =>
  match _book_one fill n with
  | (n', Err e) => if is_booking_error e then add_note (Unbookable (fl_fill_id fill) (fl_client_order_id fill) e) n'
                   else (n', Err e)
  | r => r
  end.

Definition sync : M W (list note) := fun w =>
  match in_engine (on_order_manager (get_fills None)) w with
  | (w', Err e) => (w', Ok [FetchFailed e])
  | (w', Ok fills) =>
      match for_each book_fill fills (w', []) with
      | ((w'', notes), Ok _) => (w'', Ok notes)
      | ((w'', _), Err e) => (w'', Err e)
      end
  end.

(** ** Marks *)

Record Totals := { to_upnl : decimal; to_exposure : decimal; to_open_risk : decimal }.

(** One open position's share of the totals. *)
Definition mark_position (t : Totals) (pid : string) : M E Totals :=
  pos ← on_position_manager (PositionManager.get_position pid);
  match ps_avg_entry_price pos with
  | None => mret t
  | Some avg =>
      if dleb (ps_remaining_quantity pos) d0 then mret t else
      m ← on_venue (ex_get_mark_price (ps_symbol pos));
      let mark := mp_price m in
      let q := ps_remaining_quantity pos in
      mret {| to_upnl := dadd (to_upnl t) (dmul (dmul (direction_of (ps_side pos)) (dsub mark avg)) q);
              to_exposure := dadd (to_exposure t) (dmul q mark);
              to_open_risk := dadd (to_open_risk t) (dmul q (ps_stop_d pos)) |}
  end.

Fixpoint mark_all (t : Totals) (pids : list string) : M E Totals :=
  match pids with
  | [] => mret t
  | pid :: pids => t ← mark_position t pid; mark_all t pids
  end.

Definition zero_totals : Totals := {| to_upnl := d0; to_exposure := d0; to_open_risk := d0 |}.

(** The time of the last event, in the text of the request id. *)
Definition time_text (j : json) : string := match j with JStr s => s | _ => "None" end.

Definition open_pids (a : Accounting) (open : list string) : list string :=
  List.filter (fun pid => existsb (String.eqb pid) open) (map snd (ac_position_by_cid a)).

Definition update_marks : M W unit :=
  a ← in_books get;
  snapshot ← in_engine (on_portfolio_manager PortfolioManager.get_snapshot);
  let pids := open_pids a (PortfolioManager.pf_open_position_ids snapshot) in
  if bool_decide (pids = []) && deqb (PortfolioManager.pf_exposure snapshot) d0
     && deqb (PortfolioManager.pf_unrealized_pnl snapshot) d0 && deqb (PortfolioManager.pf_heat snapshot) d0
  then mret tt
  else
    totals ← in_engine (mark_all zero_totals pids);
    let equity := PortfolioManager.equity snapshot in
    heat ← (if dltb d0 equity then lift (ddiv (to_open_risk totals) equity) else mret d0);
    _ ← in_engine (on_portfolio_manager
          (PortfolioManager.update_marks default_id (to_upnl totals) (to_exposure totals) heat
             ("marks:" +:+ time_text (PortfolioManager.pf_updated_at_utc snapshot) +:+ ":" +:+ dec_str (to_upnl totals)
              +:+ ":" +:+ dec_str (to_exposure totals) +:+ ":" +:+ dec_str heat)));
    mret tt.
End accounting.

(** ** The maps and the log *)

Definition ac_key (action cid : string) : string := _SOURCE_TAG +:+ ":" +:+ action +:+ ":" +:+ cid.

(** An event the accounting does not read, nor one under its keys. *)
Definition ac_foreign (e : Event) : Prop :=
  jstr "source" (ev_payload e) <> Some _SOURCE_TAG /\ forall k, key_of e <> Some (_SOURCE_TAG +:+ ":" +:+ k).

(** The maps of [a] are those a constructor reads from [es], and an event under
    an order's key has its entry in the map. *)
Record accounted (es : list Event) (a : Accounting) : Prop := {
  ac_read : exists m, fold_result rebuild_event ac_empty es = Ok m /\
    ac_levels_by_cid m = ac_levels_by_cid a /\ ac_position_by_cid m = ac_position_by_cid a;
  ac_leveled x cid : x ∈ es -> key_of x = Some (ac_key _ACTION_LEVELS cid) -> din cid (ac_levels_by_cid a) = true;
  ac_mapped x cid : x ∈ es -> key_of x = Some (ac_key _ACTION_MAPPED cid) -> din cid (ac_position_by_cid a) = true
}.

Lemma ac_key_inj action cid cid' : ac_key action cid = ac_key action cid' -> cid = cid'.
Proof. intros E. by apply app_inj_l_s, app_inj_l_s, app_inj_l_s, app_inj_l_s in E. Qed.

Lemma ac_key_apart cid cid' : ac_key _ACTION_LEVELS cid <> ac_key _ACTION_MAPPED cid'.
Proof. discriminate. Qed.

Lemma din_dset_eq {V} (k : string) (v : V) d : din k (dset k v d) = true.
Proof. apply din_spec. rewrite dset_keys. destruct (din k d) eqn:E; [by apply din_spec|set_solver]. Qed.

Lemma rebuild_foreign x a : jstr "source" (ev_payload x) <> Some _SOURCE_TAG -> rebuild_event a x = Ok a.
Proof. intros Hx. unfold rebuild_event. by rewrite bool_decide_eq_false_2. Qed.

Lemma accounted_foreign es a x : accounted es a -> ac_foreign x -> accounted (es ++ [x]) a.
Proof.
  intros [(m & Hm & Hl & Hp) Hle Hma] [Hx Hk]. split.
  - exists m. rewrite fold_result_app Hm. cbn. by rewrite rebuild_foreign.
  - intros y cid [Hy| ->%list_elem_of_singleton]%elem_of_app Hc; [by eapply Hle|]. by destruct (Hk _ Hc).
  - intros y cid [Hy| ->%list_elem_of_singleton]%elem_of_app Hc; [by eapply Hma|]. by destruct (Hk _ Hc).
Qed.

Lemma accounted_all_foreign es : Forall ac_foreign es -> accounted es ac_empty.
Proof.
  induction es as [|x es IH] using rev_ind; intros Hf.
  - split; [by exists ac_empty|intros ? ? []%elem_of_nil..].
  - apply Forall_app in Hf as [Hf [Hx _]%Forall_cons]. by apply accounted_foreign; [apply IH|].
Qed.

Lemma accounted_levels es a x cid entry stop : accounted es a ->
  ev_payload x = JObj [("source", JStr _SOURCE_TAG); ("action", JStr _ACTION_LEVELS); ("client_order_id", JStr cid);
    ("entry_price", JStr (dec_str entry)); ("stop_price", JStr (dec_str stop))] ->
  key_of x = Some (ac_key _ACTION_LEVELS cid) -> accounted (es ++ [x]) (add_levels cid entry stop a).
Proof.
  intros [(m & Hm & Hl & Hp) Hle Hma] Hx Hk. split.
  - exists (add_levels cid entry stop m). rewrite fold_result_app Hm. split; [|by cbn; rewrite Hl Hp]. cbn [fold_result].
    unfold rebuild_event. rewrite Hx. cbn -[dec_item]. rewrite (dec_item_str "entry_price" _ entry) // (dec_item_str "stop_price" _ stop) //.
  - intros y c [Hy| ->%list_elem_of_singleton]%elem_of_app Hc; [by eapply din_dset, Hle|]. rewrite Hk in Hc.
    apply (inj Some), (ac_key_inj _ACTION_LEVELS) in Hc as <-. apply din_dset_eq.
  - intros y c [Hy| ->%list_elem_of_singleton]%elem_of_app Hc; [by eapply Hma|]. rewrite Hk in Hc. by injection Hc.
Qed.

Lemma accounted_mapped es a x cid pid : accounted es a ->
  ev_payload x = JObj [("source", JStr _SOURCE_TAG); ("action", JStr _ACTION_MAPPED); ("client_order_id", JStr cid);
    ("position_id", JStr pid)] ->
  key_of x = Some (ac_key _ACTION_MAPPED cid) -> accounted (es ++ [x]) (add_mapping cid pid a).
Proof.
  intros [(m & Hm & Hl & Hp) Hle Hma] Hx Hk. split.
  - exists (add_mapping cid pid m). rewrite fold_result_app Hm. split; [|by cbn; rewrite Hl Hp]. cbn [fold_result].
    unfold rebuild_event. by rewrite Hx.
  - intros y c [Hy| ->%list_elem_of_singleton]%elem_of_app Hc; [by eapply Hle|]. rewrite Hk in Hc. by injection Hc.
  - intros y c [Hy| ->%list_elem_of_singleton]%elem_of_app Hc; [by eapply din_dset, Hma|]. rewrite Hk in Hc.
    apply (inj Some), (ac_key_inj _ACTION_MAPPED) in Hc as <-. apply din_dset_eq.
Qed.

(** What the constructor reads of such a log. *)
Lemma ac_init_accounted `{EventLog L} (l : L) a : log_ok l -> accounted (log_events l) a ->
  exists m, ac_init l = Ok m /\ ac_levels_by_cid m = ac_levels_by_cid a /\ ac_position_by_cid m = ac_position_by_cid a.
Proof. intros Hl [(m & Hm & Hp) _ _]. exists m. split; [|done]. unfold ac_init. by rewrite log_replay_events. Qed.
