(* ===== verification/SharedLog.v ===== *)
(** * Components over one log

    Each component appends only events under its own source and key prefix. What
    holds of the log and is kept by such appends is kept by every operation of
    that component: the base for composing the components of an engine. *)

From Stdlib Require Import ssreflect ZArith Lia Ascii String QArith.
From stdpp Require Import base strings numbers gmap sets list.
From S2P Require Import Prelude PyText PyDict PyJson PyJsonFacts PyDecimal EventStore EventStoreFacts EventLog Payload.
From S2P Require ExecStateMachine PositionManager PositionManagerSpec PortfolioManager PortfolioManagerFacts PortfolioManagerSpec.
From S2P Require Import ExchangeModels ExchangeAdapter OrderStates OrderManager OrderManagerFacts OrderManagerSpec PositionStates.
#[local] Open Scope Z_scope.
Module ESM := ExecStateMachine.

(** A payload and a key of the component with the source [tag]. *)
Definition tagged (tag : string) (payload : list (string * json)) (key : string) : Prop :=
  (exists fields, payload = ("source", JStr tag) :: fields) /\ exists k, key = tag +:+ ":" +:+ k.

Definition keeps {L} `{EventLog L} (tag : string) (J : L -> Prop) : Prop := forall ty payload key l,
  tagged tag payload key -> json_wf (JObj payload) = true -> J l -> J (log_append ty payload (Some key) l).1.

(** Walks a program for [preserves]: binds, branches and the lemmas at hand. *)
Ltac walk_with tac :=
  repeat first
    [ solve [tac] | solve [auto with turtle]
    | apply preserves_bind; [|intros ?]
    | apply preserves_on_exception
    | match goal with |- preserves _ (match ?x with _ => _ end) => destruct x end
    | match goal with |- preserves _ (let '(_, _) := ?x in _) => destruct x end ].

Lemma preserves_zoom {S T X} (I : S -> Prop) (J : T -> Prop) (view : S -> T) (upd : T -> S -> S) (m : M T X) :
  preserves J m -> (forall s, I s -> J (view s)) -> (forall s t, I s -> J t -> I (upd t s)) -> preserves I (zoom view upd m).
Proof.
  intros Hm Hv Hu s Hs. unfold zoom. specialize (Hm (view s) (Hv s Hs)). destruct (m (view s)) as [t r]. by apply Hu.
Qed.

Lemma preserves_catch {S X} (I : S -> Prop) p (m h : M S X) : preserves I m -> preserves I h -> preserves I (catch p m h).
Proof.
  intros Hm Hh s Hs. unfold catch. specialize (Hm s Hs). destruct (m s) as [s' [x|e]]; [done|]. cbn in *.
  destruct (p e); [by apply Hh|done].
Qed.

Lemma preserves_read {S X} (I : S -> Prop) (f : S -> result X) : preserves I (fun s => (s, f s)).
Proof. by intros s Hs. Qed.

Lemma opt_dec_wf d : json_wf (opt_dec d) = true.
Proof. by destruct d. Qed.
Lemma opt_str_wf s : json_wf (opt_str s) = true.
Proof. by destruct s. Qed.

(** A payload is a dict of well-formed values under distinct names. *)
Ltac wf_fields := apply json_wf_obj; split; [apply (bool_decide_eq_true_1 _); vm_compute; reflexivity|];
  repeat (apply Forall_cons; split; [first [done | apply opt_dec_wf | apply opt_str_wf | by case_match]|]); by apply Forall_nil.

(** ** The execution state machine *)

Lemma transition_log {L} `{EventLog L} (J : L -> Prop) t rid ctx : keeps ESM._EVENT_SOURCE_TAG J -> json_wf (JObj ctx) = true ->
  preserves (fun p => J p.1) (ESM.transition t rid ctx).
Proof.
  intros HJ Hc [l s] Hl. cbn [fst] in Hl. unfold ESM.transition. destruct (blank rid); [done|]. destruct (_ <? _); [done|]. cbv zeta.
  destruct (log_find _ l) as [x|]; [by destruct (negb _)|]. destruct (negb _); [done|].
  destruct (ESM.next_state _ t) as [to|]; [|done].
  set (p := ESM.transition_payload _ _ _ _ _). set (k := ESM._namespaced_key _ _).
  assert (Hk : J (log_append (ESM.TRIGGER_EVENT_TYPE t) p (Some k) l).1).
  { apply HJ; [split; by eexists| |done]. apply json_wf_obj. split; [apply (bool_decide_eq_true_1 _); vm_compute; reflexivity|].
    repeat (apply Forall_cons; split; [first [done | exact Hc]|]). by apply Forall_nil. }
  by destruct (log_append _ p (Some k) l) as [l' [x|y]].
Qed.

(** ** The order manager *)

Section orders.
Context {L A : Type} `{EventLog L} `{Exchange A}.
Notation W := (World L A).
Context (I : L * ESM.ExecutionStateMachine -> Prop).
Hypothesis Hrec : forall m, keeps OrderManager._EVENT_SOURCE_TAG (fun l => I (l, m)).
Hypothesis Hesm : forall t rid ctx, json_wf (JObj ctx) = true -> preserves I (ESM.transition t rid ctx).
Notation IW := (fun w : W => I (w_store w, w_esm w)).

Lemma on_om_log {X} (m : M OrderManager X) : preserves IW (on_om m).
Proof. intros w Hw. unfold on_om, zoom. by destruct (m (w_om w)). Qed.
Lemma on_adapter_log {X} (m : M A X) : preserves IW (on_adapter m).
Proof. intros w Hw. unfold on_adapter, zoom. by destruct (m (w_adapter w)). Qed.
Lemma tracked_log cid : preserves IW (tracked cid).
Proof. by intros w Hw. Qed.
Lemma snapshot_of_log cid : preserves IW (snapshot_of cid).
Proof. by intros w Hw. Qed.
Lemma the_snapshot_log s : preserves IW (the_snapshot s).
Proof. by intros w Hw. Qed.

Lemma om_payload_wf om action cid seq t a b details : json_wf (JObj details) = true ->
  json_wf (JObj (om_payload om action cid seq t a b details)) = true.
Proof.
  intros Hwf. apply json_wf_obj. split; [apply (bool_decide_eq_true_1 _); vm_compute; reflexivity|].
  repeat (apply Forall_cons; split; [first [done | exact Hwf | by destruct seq | by destruct t | by destruct a | by destruct b]|]).
  by apply Forall_nil.
Qed.

Lemma record_log action cid seq t a b details key : json_wf (JObj details) = true ->
  preserves IW (record action cid seq t a b details key).
Proof.
  intros Hwf. unfold record. apply preserves_bind; [|intros e; apply on_om_log]. intros w Hw. unfold _persist.
  rewrite run_get. unfold on_store, zoom. destruct (log_append _ _ _ (w_store w)) as [l r] eqn:E. cbn.
  pose proof (Hrec (w_esm w) (_event_type_for_action action b) (om_payload (om_id (w_om w)) action cid seq t a b details)
    (om_key (om_id (w_om w)) key) (w_store w)) as Hk. rewrite E in Hk. apply Hk; [|by apply om_payload_wf|done].
  split; by eexists.
Qed.

Lemma esm_call_log t rid ctx : json_wf (JObj ctx) = true -> preserves IW (on_esm (ESM.transition t rid ctx)).
Proof. intros Hc. unfold on_esm. apply (preserves_zoom _ I); [by apply Hesm|by intros [] ?|by intros ? [] ? ?]. Qed.
Lemma drive_log cid d a s : preserves IW (_drive_execution_sm cid d a s).
Proof.
  unfold _drive_execution_sm. apply preserves_bind; [auto with turtle|]. intros [t|]; [|auto with turtle].
  apply preserves_catch; [|auto with turtle]. apply preserves_bind; [|intros ?; auto with turtle]. by apply esm_call_log.
Qed.

#[local] Hint Resolve on_om_log on_adapter_log tracked_log snapshot_of_log the_snapshot_log drive_log : turtle.
Ltac wf := first [done | apply submit_details_wf | wf_fields].
Ltac walk := walk_with ltac:(apply record_log; wf).

Lemma ingest_log cid st ex reason : preserves IW (_ingest_status cid st ex reason).
Proof. unfold _ingest_status. walk. Qed.
#[local] Hint Resolve ingest_log : turtle.

Lemma failure_log cid t key : preserves IW (record_failure cid t key).
Proof. unfold record_failure. walk. Qed.
#[local] Hint Resolve failure_log : turtle.

Lemma place_log symbol side ty q lp tif ro : preserves IW (place_order symbol side ty q lp tif ro).
Proof. unfold place_order, _next_id. walk. Qed.
Lemma amend_log cid q p : preserves IW (amend_order cid q p).
Proof. unfold amend_order, _next_id. walk. Qed.
Lemma cancel_log cid : preserves IW (cancel_order cid).
Proof. unfold cancel_order, _next_id. walk. Qed.
Lemma confirm_log request_id o : preserves IW (confirm_cancel request_id o).
Proof. unfold confirm_cancel. walk. Qed.
Lemma confirm_all_log request_id os : preserves IW (confirm_all request_id os).
Proof. induction os as [|o os IH]; cbn [confirm_all]; [auto with turtle|]. pose proof (confirm_log request_id o). walk. Qed.
#[local] Hint Resolve confirm_all_log : turtle.
Lemma cancel_all_log symbol : preserves IW (cancel_all symbol).
Proof. unfold cancel_all, _next_id. walk. Qed.
Lemma report_fill_log cid f : preserves IW (report_fill cid f).
Proof. unfold report_fill. walk. Qed.
Lemma report_update_log cid o : preserves IW (report_order_update cid o).
Proof. unfold report_order_update. walk. Qed.
Lemma resync_log cid : preserves IW (resync_order cid).
Proof. unfold resync_order. walk. Qed.
Lemma get_fills_log cid : preserves IW (get_fills cid).
Proof. unfold get_fills. walk. Qed.
End orders.

(** ** The position manager *)

Section positions.
Import PositionManager.
Context {L : Type} `{EventLog L} (pm : string) (I : L -> Prop).
Hypothesis Hrec : keeps _EVENT_SOURCE_TAG I.
Notation W := (L * PositionManager)%type.
Notation IW := (fun w : W => I w.1).

Lemma on_pm_log {X} (m : M PositionManager X) : preserves IW (on_pm m).
Proof. intros w Hw. unfold on_pm, zoom. by destruct (m w.2). Qed.
Lemma pm_tracked_log pid : preserves IW (PositionManager.tracked pid).
Proof. by intros w Hw. Qed.
Lemma pm_snapshot_log s : preserves IW (PositionManager.the_snapshot s).
Proof. by intros w Hw. Qed.

Lemma pm_record_log action pid seq t a b details key : json_wf (JObj details) = true ->
  preserves IW (PositionManager.record pm action pid seq t a b details key).
Proof.
  intros Hwf. unfold PositionManager.record. apply preserves_bind; [|intros e; apply on_pm_log]. intros w Hw.
  unfold PositionManager._persist, zoom. destruct (log_append _ _ _ w.1) as [l r] eqn:E. cbn.
  pose proof (Hrec (PositionManager._event_type_for_action action b) (pm_payload pm action pid seq t a b details) (pm_key pm key) w.1) as Hk.
  rewrite E in Hk. apply Hk; [|by apply PositionManagerSpec.payload_wf|done]. split; by eexists.
Qed.

#[local] Hint Resolve on_pm_log pm_tracked_log pm_snapshot_log : turtle.
Ltac walk := walk_with ltac:(apply pm_record_log; first [done | wf_fields]).

Lemma create_log symbol side iq sp sd t1 t2 c : preserves IW (create_position pm symbol side iq sp sd t1 t2 c).
Proof. unfold create_position, PositionManager._next_id. walk. Qed.
Lemma open_log pid f s : preserves IW (open_position pm pid f s).
Proof. unfold open_position. walk. Qed.
#[local] Hint Resolve open_log : turtle.
Lemma entry_log pid f : preserves IW (record_entry_fill pm pid f).
Proof. unfold record_entry_fill. walk. Qed.
Lemma exit_log pid f t r : preserves IW (record_exit pm pid f t r).
Proof. unfold record_exit. walk. Qed.
Lemma get_position_log pid : preserves IW (get_position pid).
Proof. apply pm_tracked_log. Qed.
Lemma unrealized_log pid mark : preserves IW (unrealized_pnl_of pid mark).
Proof. unfold unrealized_pnl_of, get_position. walk. Qed.
End positions.

(** ** The portfolio manager *)

Section portfolio.
Import PortfolioManager.
Context {L : Type} `{EventLog L} (pm : string) (I : L -> Prop).
Hypothesis Hrec : keeps _EVENT_SOURCE_TAG I.
Notation W := (L * PortfolioManager)%type.
Notation IW := (fun w : W => I w.1).

Lemma on_pf_log {X} (m : M PortfolioManager X) : preserves IW (on_pf m).
Proof. intros w Hw. unfold on_pf, zoom. by destruct (m w.2). Qed.

Lemma pf_record_log action details key : json_wf (JObj details) = true ->
  preserves IW (PortfolioManager.record pm action details key).
Proof.
  intros Hwf. unfold PortfolioManager.record. apply preserves_bind; [|intros e; apply on_pf_log]. intros w Hw.
  unfold PortfolioManager._persist, zoom. destruct (log_append _ _ _ w.1) as [l r] eqn:E. cbn.
  pose proof (Hrec (PortfolioManager._event_type_for_action action) (pf_payload pm action details) (_namespaced_key pm key) w.1) as Hk.
  rewrite E in Hk. apply Hk; [split; by eexists| |done]. apply json_wf_obj.
  split; [apply (bool_decide_eq_true_1 _); vm_compute; reflexivity|].
  repeat (apply Forall_cons; split; [first [done | exact Hwf]|]). by apply Forall_nil.
Qed.

Lemma once_log key body : preserves IW body -> preserves IW (once pm key body).
Proof.
  intros Hb. unfold once, _get_cached. apply preserves_bind; [|intros [s|]; [auto with turtle|done]].
  apply preserves_bind; [auto with turtle|]. intros w. destruct (log_find _ w.1); [|auto with turtle].
  apply preserves_bind; [apply on_pf_log|]. auto with turtle.
Qed.

Ltac rec_tac := apply pf_record_log; first [done | wf_fields].
Ltac walk := walk_with ltac:(first [rec_tac | cbv zeta; apply once_log; walk_with ltac:(rec_tac)]).

Lemma reserve_log pid amt r : preserves IW (reserve_margin pm pid amt r).
Proof. unfold reserve_margin. walk. Qed.
Lemma allocate_log pid amt r : preserves IW (allocate_margin pm pid amt r).
Proof. unfold allocate_margin. walk. Qed.
Lemma release_log pid r : preserves IW (release_margin pm pid r).
Proof. unfold release_margin. walk. Qed.
Lemma realized_log pid leg amt r : preserves IW (apply_realized_pnl pm pid leg amt r).
Proof. unfold apply_realized_pnl. walk. Qed.
Lemma fee_log ref fee amt r : preserves IW (apply_fee pm ref fee amt r).
Proof. unfold apply_fee. walk. Qed.
Lemma marks_log u x h r : preserves IW (update_marks pm u x h r).
Proof. unfold update_marks. walk. Qed.
Lemma deposit_log amt r : preserves IW (deposit pm amt r).
Proof. unfold deposit. walk. Qed.
Lemma get_snapshot_log : preserves IW get_snapshot.
Proof. unfold get_snapshot. walk. Qed.
End portfolio.
