(* ===== verification/EngineSpec.v ===== *)
(** * The engine's components over their shared log

    Every operation of the engine, failures included, is for each component a
    run of its own operations between events of the others. *)

From Stdlib Require Import ssreflect ZArith Lia Ascii String QArith.
From stdpp Require Import base strings numbers gmap sets list relations.
From S2P Require Import Prelude PyText PyDict PyJson PyJsonFacts PyDecimal PyFloat EventStore EventStoreFacts EventLog Payload.
From S2P Require ExecStateMachine ExecStateMachineFacts PositionManager PositionManagerSpec PortfolioManager.
From S2P Require Import ExchangeModels ExchangeAdapter OrderStates OrderManager OrderManagerSpec PositionStates Quantization.
From S2P Require Import RiskManager Sizing Execution Construction ConstructionSpec Engine TradingCycle Accounting SharedLog.
#[local] Open Scope Z_scope.

(** An operation of a component leaves what the log satisfies, if it only makes
    appends of its own. *)
Section foreign.
Context {L A : Type} `{EventLog L} `{Exchange A} `{Venue A}.
Notation E := (Engine L A).
Notation W := (E * Accounting)%type.

(** What must be shown of each call a cycle or a booking makes. When [strict],
    the fills booked are well-formed. *)
Record keeper (strict : Prop) (I : W -> Prop) : Prop := {
  kp_venue {X} (m : M A X) : preserves I (in_engine (on_venue m));
  kp_started b : preserves I (in_engine (modify (set_started b)));
  kp_place symbol side ty q lp tif ro : blank (sym_value symbol) = false ->
    preserves I (in_engine (on_order_manager (place_order symbol side ty q lp tif ro)));
  kp_amend cid q p : preserves I (in_engine (on_order_manager (amend_order cid q p)));
  kp_cancel cid : preserves I (in_engine (on_order_manager (cancel_order cid)));
  kp_cancel_all symbol : preserves I (in_engine (on_order_manager (cancel_all symbol)));
  kp_transition t rid ctx : json_wf (JObj ctx) = true ->
    preserves I (in_engine (on_order_manager (on_esm (ExecStateMachine.transition t rid ctx))));
  kp_resync cid : preserves I (in_engine (on_order_manager (resync_order cid)));
  kp_fill cid f : preserves I (in_engine (on_order_manager (report_fill cid f)));
  kp_update cid o : preserves I (in_engine (on_order_manager (report_order_update cid o)));
  kp_create symbol side iq sp sd t1 t2 c : (strict -> blank (sym_value symbol) = false) ->
    preserves I (in_engine (on_position_manager (PositionManager.create_position default_id symbol side iq sp sd t1 t2 c)));
  kp_entry pid f : (strict -> (0 < value (fl_quantity f))%Q) ->
    preserves I (in_engine (on_position_manager (PositionManager.record_entry_fill default_id pid f)));
  kp_exit pid f t r : preserves I (in_engine (on_position_manager (PositionManager.record_exit default_id pid f t r)));
  kp_portfolio (m : M (L * PortfolioManager.PortfolioManager) PortfolioManager.PortfolioSnapshot) :
    (forall J : L -> Prop, keeps PortfolioManager._EVENT_SOURCE_TAG J -> preserves (fun p => J p.1) m) ->
    preserves I (in_engine (on_portfolio_manager m));
  kp_level x : preserves I (record_level x);
  kp_map cid pid w : I w -> dget cid (ac_position_by_cid w.2) = None -> I (map_position cid pid w).1;
  kp_count fid pid q : preserves I (in_books (modify (count_exit fid pid q)))
}.

(** ** The steps of a cycle and of a booking, given such a keeper *)

Section walk.
Context (strict : Prop) (I : W -> Prop) (K : keeper strict I).

Lemma read_engine {X} (f : E -> result X) : preserves I (in_engine (fun e => (e, f e))).
Proof. intros [e a] Hw. done. Qed.
Lemma read_orders {X} (f : World L A -> result X) : preserves I (in_engine (on_order_manager (fun w => (w, f w)))).
Proof. intros [[[] ? ? ? ?] a] Hw. done. Qed.
Lemma read_positions {X} (f : L * PositionManager.PositionManager -> result X) :
  preserves I (in_engine (on_position_manager (fun w => (w, f w)))).
Proof. intros [[[] ? ? ? ?] a] Hw. done. Qed.
Lemma read_portfolio {X} (f : L * PortfolioManager.PortfolioManager -> result X) :
  preserves I (in_engine (on_portfolio_manager (fun w => (w, f w)))).
Proof. intros [[[] ? ? ? ?] a] Hw. done. Qed.
Lemma read_books {X} (f : Accounting -> result X) : preserves I (in_books (fun a => (a, f a))).
Proof. intros [e a] Hw. done. Qed.

Lemma in_engine_bind {X Y} (m : M E X) (f : X -> M E Y) : preserves I (in_engine m) ->
  (forall x, preserves I (in_engine (f x))) -> preserves I (in_engine (m ≫= f)).
Proof.
  intros Hm Hf [e a] Hw. specialize (Hm _ Hw). unfold in_engine, zoom in *. cbn [fst snd] in *. rewrite run_bind.
  destruct (m e) as [e' [x|y]]; [|done]. exact (Hf x (e', a) Hm).
Qed.
Lemma on_orders_bind {X Y} (m : M (World L A) X) (f : X -> M (World L A) Y) : preserves I (in_engine (on_order_manager m)) ->
  (forall x, preserves I (in_engine (on_order_manager (f x)))) -> preserves I (in_engine (on_order_manager (m ≫= f))).
Proof.
  intros Hm Hf [[w p q l b] a] Hw. specialize (Hm _ Hw). unfold in_engine, on_order_manager, zoom in *.
  cbn [fst snd en_orders set_orders en_positions en_portfolio en_limits en_started] in *. rewrite run_bind.
  destruct (m w) as [w' [x|y]]; [|done]. exact (Hf x (_, a) Hm).
Qed.
Lemma engine_lift {X} (r : result X) : preserves I (in_engine (lift r)).
Proof. apply read_engine. Qed.
Lemma engine_ret {X} (x : X) : preserves I (in_engine (mret x)).
Proof. apply read_engine. Qed.
Lemma engine_get : preserves I (in_engine get).
Proof. by intros [e a] Hw. Qed.
Lemma orders_lift {X} (r : result X) : preserves I (in_engine (on_order_manager (lift r))).
Proof. apply read_orders. Qed.
Lemma orders_raise {X} x : preserves I (in_engine (on_order_manager (raise (A := X) x))).
Proof. apply read_orders. Qed.
Lemma orders_ret {X} (x : X) : preserves I (in_engine (on_order_manager (mret x))).
Proof. apply read_orders. Qed.
Lemma get_position_keeps pid : preserves I (in_engine (on_position_manager (PositionManager.get_position pid))).
Proof. apply read_positions. Qed.
Lemma get_order_keeps cid : preserves I (in_engine (on_order_manager (get_order_status cid))).
Proof. apply read_orders. Qed.
Lemma get_portfolio_keeps : preserves I (in_engine (on_portfolio_manager PortfolioManager.get_snapshot)).
Proof. apply (read_portfolio (fun w => Ok (PortfolioManager._snapshot w.2))). Qed.
Lemma pnl_keeps pid mark : preserves I (in_engine (on_position_manager (PositionManager.unrealized_pnl_of pid mark))).
Proof.
  assert (E : forall w : L * PositionManager.PositionManager, PositionManager.unrealized_pnl_of pid mark w = (w, (PositionManager.unrealized_pnl_of pid mark w).2)).
  { intros w. unfold PositionManager.unrealized_pnl_of, PositionManager.get_position, PositionManager.tracked. rewrite run_bind.
    destruct (of_option _ _) as [x|]; [|done]. destruct (ps_avg_entry_price x); [|done]. by destruct (dleb _ _). }
  intros [[[] ? ? ? ?] a] Hw. unfold in_engine, on_position_manager, zoom. cbn [fst snd]. by rewrite E.
Qed.
#[local] Hint Resolve engine_lift engine_ret engine_get orders_lift orders_raise orders_ret get_position_keeps get_order_keeps
  get_portfolio_keeps pnl_keeps : turtle.
Lemma venue_keeps {X} (m : M A X) : preserves I (in_engine (on_venue m)).
Proof. apply (kp_venue strict I K). Qed.
Lemma started_keeps b : preserves I (in_engine (modify (set_started b))).
Proof. apply (kp_started strict I K). Qed.
Lemma amend_keeps cid q p : preserves I (in_engine (on_order_manager (amend_order cid q p))).
Proof. apply (kp_amend strict I K). Qed.
Lemma cancel_keeps cid : preserves I (in_engine (on_order_manager (cancel_order cid))).
Proof. apply (kp_cancel strict I K). Qed.
Lemma resync_keeps cid : preserves I (in_engine (on_order_manager (resync_order cid))).
Proof. apply (kp_resync strict I K). Qed.
Lemma dispatch_keeps e : preserves I (in_engine (dispatch e)).
Proof. destruct e; [apply (kp_fill strict I K)|apply (kp_update strict I K)]. Qed.
#[local] Hint Resolve venue_keeps started_keeps amend_keeps cancel_keeps resync_keeps dispatch_keeps : turtle.

Ltac walk := repeat first
  [ solve [auto with turtle]
  | apply in_engine_bind; [|intros ?]
  | apply preserves_bind; [|intros ?]
  | match goal with |- preserves _ (in_engine (match ?x with _ => _ end)) => destruct x end
  | match goal with |- preserves _ (match ?x with _ => _ end) => destruct x end ].

Lemma start_keeps : preserves I (in_engine start).
Proof. unfold start. walk. Qed.
Lemma resync_all_keeps ids : preserves I (in_engine (resync_all ids)).
Proof. induction ids as [|id ids IH]; cbn [resync_all]; walk. Qed.
#[local] Hint Resolve start_keeps resync_all_keeps : turtle.
Lemma synchronize_keeps : preserves I (in_engine synchronize).
Proof. unfold synchronize. walk. Qed.
Lemma local_positions_keeps ids : preserves I (in_engine (local_positions ids)).
Proof. induction ids as [|id ids IH]; cbn [local_positions]; [walk|]. unfold local_position. walk. Qed.
#[local] Hint Resolve synchronize_keeps local_positions_keeps : turtle.
Lemma reconcile_keeps : preserves I (in_engine reconcile).
Proof. unfold reconcile, _local_positions. walk. Qed.
#[local] Hint Resolve reconcile_keeps : turtle.
Lemma startup_keeps : preserves I (in_engine startup).
Proof. unfold startup. walk. Qed.

Lemma open_positions_keeps ids : preserves I (in_engine (open_positions ids)).
Proof. induction ids as [|id ids IH]; cbn [open_positions]; walk. Qed.
#[local] Hint Resolve open_positions_keeps : turtle.
Lemma context_keeps universe now : preserves I (in_engine (strategy_context universe now)).
Proof. unfold strategy_context. walk. Qed.
#[local] Hint Resolve context_keeps : turtle.

(** ** Execution *)

Lemma execute_place_keeps r d rules : blank (sym_value (tr_symbol r)) = false ->
  preserves I (in_engine (on_order_manager (execute_place r d rules))).
Proof.
  intros Hb. unfold execute_place. destruct (negb _); [auto with turtle|]. apply on_orders_bind; [auto with turtle|].
  intros [q lp]. apply on_orders_bind; [by apply (kp_place strict I K)|]. auto with turtle.
Qed.

Lemma execute_amend_keeps cid q p rules : preserves I (in_engine (on_order_manager (execute_amend cid q p rules))).
Proof.
  unfold execute_amend. destruct (blank cid); [auto with turtle|]. apply on_orders_bind.
  - destruct (_ && _); [|auto with turtle]. apply on_orders_bind; auto with turtle.
  - intros [q' p']. apply on_orders_bind; auto with turtle.
Qed.

Lemma execute_cancel_keeps cid : preserves I (in_engine (on_order_manager (execute_cancel cid))).
Proof.
  unfold execute_cancel. destruct (blank cid); [auto with turtle|]. apply on_orders_bind; auto with turtle.
Qed.

Lemma levels_keeps xs : preserves I (record_execution_levels xs).
Proof.
  induction xs as [|x xs IH]; intros w Hw; [done|]. cbn [record_execution_levels for_each].
  pose proof (kp_level strict I K x w Hw) as Hx. destruct (record_level x w) as [w' [u|y]]; [by apply IH|done].
Qed.

Lemma execute_all_keeps now hook rules : (forall x, preserves I (hook x)) -> forall l executed,
  Forall (fun r => blank (sym_value (tr_symbol r)) = false) l ->
  preserves I (execute_all now (Some hook) rules executed l).
Proof.
  intros Hh l. induction l as [|r l IH]; intros executed Hl; cbn [execute_all]; [auto with turtle|].
  apply Forall_cons in Hl as [Hr Hl]. apply preserves_bind; [by apply execute_place_keeps|]. intros x.
  apply preserves_bind; [done|]. intros _. by apply IH.
Qed.

Lemma bind_keeps_val {X Y} (m : M W X) (f : X -> M W Y) (Q : X -> Prop) : preserves I m ->
  (forall w w' x, m w = (w', Ok x) -> Q x) -> (forall x, Q x -> preserves I (f x)) -> preserves I (m ≫= f).
Proof.
  intros Hm HQ Hf w Hw. specialize (Hm w Hw). rewrite run_bind. destruct (m w) as [w' [x|y]] eqn:E; [|done].
  apply (Hf x); [by eapply HQ|done].
Qed.

Lemma in_engine_value {X} (m : M E X) (Q : X -> Prop) : (forall e e' x, m e = (e', Ok x) -> Q x) ->
  forall w w' x, in_engine m w = (w', Ok x) -> Q x.
Proof. intros Hm [e a] w' x. unfold in_engine, zoom. cbn. destruct (m e) as [e' r] eqn:E. intros [= _ ->]. by eapply Hm. Qed.

Lemma context_universe universe now (e e' : E) c : strategy_context universe now e = (e', Ok c) -> cx_universe c = universe.
Proof.
  unfold strategy_context. rewrite run_bind. destruct (on_portfolio_manager _ e) as [e1 [pf|]]; [|done].
  rewrite run_bind. destruct (open_positions _ e1) as [e2 [ps|]]; [|done]. rewrite run_get. unfold lift, mk_StrategyContext.
  destruct (blank _); [done|]. by intros [= _ <-].
Qed.

(** ** The cycle *)

Section cycle.
Context (fromisoformat : string -> result (Z * option Z)) (strategies : list (Strategy (A := A))) (universe : list Symbol)
  (profile : RiskProfileParams) (corr : CorrelationInfo) (mmr leverage : decimal) (vol : list (string * decimal)) (now : string)
  (rules : option QuantizationRules).
Hypothesis Huniverse : Forall (fun u => blank (sym_value u) = false) universe.

Lemma constructed_symbols c intents (e e' : E) res : cx_universe c = universe ->
  construct_in fromisoformat profile corr mmr leverage vol c intents e = (e', Ok res) ->
  Forall (fun r => blank (sym_value (tr_symbol r)) = false) (cr_approved res).
Proof.
  intros Hu. unfold construct_in. rewrite run_get. unfold on_venue, on_order_manager, on_adapter, zoom.
  destruct (construct_trade_requests _ _ _ _ _ _ _ _ _ _ _ intents _) as [a r] eqn:Ec. intros [= _ ->].
  apply approved_stem_from in Ec. eapply Forall_impl; [exact Ec|].
  intros q (i & _ & (u & Hin & Heq%String.eqb_eq)%existsb_exists & -> & _). unfold symbol_name in Heq. rewrite -Heq.
  rewrite Hu in Hin. exact (proj1 (List.Forall_forall _ _) Huniverse u Hin).
Qed.

Lemma construct_keeps c intents : preserves I (in_engine (construct_in fromisoformat profile corr mmr leverage vol c intents)).
Proof. unfold construct_in. apply in_engine_bind; [apply engine_get|]. intros e. apply venue_keeps. Qed.

Lemma cycle_keeps : preserves I (run_cycle fromisoformat strategies universe profile corr mmr leverage vol now
  (Some (fun x => record_execution_levels [x])) rules).
Proof.
  unfold run_cycle. apply preserves_bind; [apply engine_get|]. intros e. cbv zeta. apply preserves_bind.
  { destruct (negb _); [|auto with turtle]. apply preserves_bind; [apply start_keeps|]. auto with turtle. }
  intros health. apply preserves_bind; [apply synchronize_keeps|]. intros resynced.
  apply preserves_bind; [apply reconcile_keeps|]. intros report.
  apply (bind_keeps_val _ _ (fun c => cx_universe c = universe)); [apply context_keeps| |].
  { apply in_engine_value. apply context_universe. }
  intros c Hc. apply preserves_bind; [apply venue_keeps|]. intros intents. apply preserves_bind; [apply venue_keeps|]. intros orders.
  apply (bind_keeps_val _ _ (fun res => Forall (fun r => blank (sym_value (tr_symbol r)) = false) (cr_approved res))).
  { apply construct_keeps. } { apply in_engine_value. intros e1 e2 res. by apply constructed_symbols. }
  intros res Hres. apply preserves_bind; [|auto with turtle]. apply execute_all_keeps; [|done]. intros x. apply levels_keeps.
Qed.
End cycle.

(** ** Booking fills *)

Section booking.
Context (target_leverage : decimal).
Notation N := (W * list note)%type.
Notation IN := (fun n : N => I n.1).

Lemma noting_keeps {X} (m : M W X) : preserves I m -> preserves IN (noting m).
Proof. intros Hm [w n] Hw. specialize (Hm w Hw). unfold noting, zoom. cbn. by destruct (m w). Qed.
Lemma note_keeps x : preserves IN (add_note x).
Proof. by intros n Hn. Qed.
Lemma books_keeps : preserves IN books.
Proof. apply noting_keeps, (read_books (fun a => Ok a)). Qed.
#[local] Hint Resolve note_keeps books_keeps : turtle.
Lemma run_books {X} (k : Accounting -> M N X) n : (books ≫= k) n = k n.1.2 n.
Proof. by destruct n as [[e a] n]. Qed.

Lemma portfolio_keeps (m : M (L * PortfolioManager.PortfolioManager) PortfolioManager.PortfolioSnapshot) :
  (forall J : L -> Prop, keeps PortfolioManager._EVENT_SOURCE_TAG J -> preserves (fun p => J p.1) m) ->
  preserves IN (noting (in_engine (on_portfolio_manager m))).
Proof. intros Hm. by apply noting_keeps, (kp_portfolio strict I K). Qed.

Definition fill_ok (f : Fill) : Prop := (0 < value (fl_quantity f))%Q /\ blank (sym_value (fl_symbol f)) = false.

(** Mapping an order in a state where it was read to be unmapped, after calls
    that do not touch the maps. *)
Definition unmapped cid (n : N) : Prop := I n.1 /\ dget cid (ac_position_by_cid n.1.2) = None.

Lemma engine_unmapped {X} cid (m : M E X) : preserves I (in_engine m) -> preserves (unmapped cid) (noting (in_engine m)).
Proof.
  intros Hm [[e a] n] [Hw Hc]. specialize (Hm _ Hw). unfold unmapped, noting, in_engine, zoom in *. cbn in *.
  by destruct (m e).
Qed.

Lemma map_keeps cid pid n : unmapped cid n -> IN (noting (map_position cid pid) n).1.
Proof.
  intros [Hw Hc]. pose proof (kp_map strict I K cid pid n.1 Hw Hc) as Hm. unfold noting, zoom. by destruct (map_position cid pid n.1).
Qed.

Lemma map_then {X} cid pid (x : X) n : unmapped cid n -> IN ((noting (map_position cid pid);; mret x) n).1.
Proof.
  intros Hn. apply bind_fst; [by apply map_keeps|]. intros _. apply preserves_ret.
Qed.

Lemma entry_position_keeps f q : (strict -> fill_ok f) -> preserves IN (entry_position f q).
Proof.
  intros Hf n Hn. assert (Hb : strict -> blank (sym_value (fl_symbol f)) = false) by (intros Hs; apply (Hf Hs)). unfold entry_position. set (cid := fl_client_order_id f).
  rewrite run_books.
  destruct (dget cid (ac_position_by_cid n.1.2)) as [pid|] eqn:Hc; [done|].
  destruct (dget cid (ac_levels_by_cid n.1.2)) as [[entry stop]|]; [|done]. cbv zeta.
  destruct (dleb _ d0); [done|]. destruct (if bool_decide _ then _ else _) as [t1 t2].
  rewrite run_bind. set (m := noting _). pose proof (engine_unmapped cid _ (kp_create strict I K (fl_symbol f) (fl_side f) q stop
    (dabs (dsub entry stop)) t1 t2 None Hb) n (conj Hn Hc)) as Hu. fold m in Hu.
  destruct (m n) as [n' [snap|e]]; [|by apply Hu]. by apply (map_then cid).
Qed.

Lemma exit_target_keeps f : preserves IN (exit_target f).
Proof.
  intros n Hn. unfold exit_target. set (cid := fl_client_order_id f). rewrite run_books.
  destruct (dget cid (ac_position_by_cid n.1.2)) as [pid|] eqn:Hc; [done|].
  rewrite run_bind. pose proof (engine_unmapped cid get engine_get n (conj Hn Hc)) as Hu.
  destruct (noting (in_engine get) n) as [n' [e|x]]; [|by apply Hu]. cbn [fst] in Hu.
  destruct (_find_open_position _ _ _ _); [by apply (map_then cid)|by apply Hu].
Qed.

Lemma book_margin_keeps pid f margin : preserves IN (book_margin pid f margin).
Proof.
  intros n Hn. unfold book_margin. set (m := noting _).
  assert (Hm : preserves IN m).
  { unfold m. apply portfolio_keeps. intros J HJ. apply preserves_bind; [by apply reserve_log|]. intros _. by apply allocate_log. }
  specialize (Hm n Hn). destruct (m n) as [n' [x|e]]; [done|]. by destruct (is_portfolio_error e).
Qed.

Lemma book_entry_keeps f q : (strict -> fill_ok f) -> preserves IN (_book_entry target_leverage f q).
Proof.
  intros Hf. unfold _book_entry. apply preserves_bind; [by apply entry_position_keeps|]. intros [pid|]; [|auto with turtle].
  apply preserves_bind; [apply noting_keeps, get_position_keeps|]. intros before.
  apply preserves_bind; [apply noting_keeps, (kp_entry strict I K); intros Hs; apply (Hf Hs)|]. intros snap.
  destruct (_TERMINAL_POSITION_STATES _); [destruct (deqb _ _); auto with turtle|].
  apply preserves_bind; [auto with turtle|]. intros margin. apply preserves_bind; [apply book_margin_keeps|]. intros _.
  destruct (dltb d0 _); [|auto with turtle]. apply preserves_bind; [|auto with turtle].
  apply portfolio_keeps. intros J HJ. by apply fee_log.
Qed.

Lemma book_exit_keeps f : preserves IN (_book_exit f).
Proof.
  unfold _book_exit. apply preserves_bind; [apply exit_target_keeps|]. intros [pid|]; [|auto with turtle].
  apply preserves_bind; [apply noting_keeps, get_position_keeps|]. intros pos. apply preserves_bind.
  { destruct (ps_avg_entry_price pos); [|auto with turtle]. apply preserves_bind; [|auto with turtle].
    apply portfolio_keeps. intros J HJ. by apply realized_log. }
  intros _. apply preserves_bind; [apply noting_keeps, (kp_count strict I K)|]. intros _.
  destruct (_TERMINAL_POSITION_STATES _); [auto with turtle|]. apply preserves_bind; [apply books_keeps|]. intros a. cbv zeta.
  destruct (dltb _ _); [auto with turtle|]. apply preserves_bind; [apply noting_keeps, (kp_exit strict I K)|]. intros _.
  apply preserves_bind; [|auto with turtle]. apply portfolio_keeps. intros J HJ. by apply release_log.
Qed.

Lemma book_one_keeps f : (strict -> fill_ok f) -> preserves IN (_book_one target_leverage f).
Proof.
  intros Hf n Hn. unfold _book_one. cbv zeta. set (m := noting _).
  assert (Hm : preserves IN m) by (apply noting_keeps, dispatch_keeps). specialize (Hm n Hn).
  destruct (m n) as [n' [s|e]]; cbn [fst] in Hm; [|by destruct e].
  apply bind_fst; [by apply noting_keeps; [apply get_order_keeps|]|]. intros o.
  destruct (sn_reduce_only o); [apply book_exit_keeps|by apply book_entry_keeps].
Qed.

Lemma book_all_keeps fills : (strict -> Forall fill_ok fills) -> preserves IN (for_each (book_fill target_leverage) fills).
Proof.
  induction fills as [|f fills IH]; intros Hfs n Hn; [done|].
  assert (Hf : strict -> fill_ok f) by (intros Hs; by destruct (Forall_cons_1 _ _ _ (Hfs Hs))).
  assert (Hr : strict -> Forall fill_ok fills) by (intros Hs; by destruct (Forall_cons_1 _ _ _ (Hfs Hs))). cbn [for_each]. pose proof (book_one_keeps f Hf n Hn) as Hb.
  unfold book_fill. destruct (_book_one target_leverage f n) as [n' [u|e]]; cbn [fst] in Hb; [by apply IH|].
  destruct (is_booking_error e); [|done]. by apply IH.
Qed.

Lemma sync_keeps w : (strict -> forall fills, (ex_get_fills None (w_adapter (en_orders w.1))).2 = Ok fills -> Forall fill_ok fills) ->
  I w -> I (sync target_leverage w).1.
Proof.
  intros Hv Hw. unfold sync. set (m := in_engine _).
  assert (Hm : preserves I m).
  { unfold m, get_fills. apply on_orders_bind; [apply (kp_venue strict I K)|]. intros fs. apply orders_ret. }
  assert (Hok : forall w' fills, m w = (w', Ok fills) -> strict -> Forall fill_ok fills).
  { intros w' fills. unfold m, get_fills, in_engine, on_order_manager, on_adapter, zoom. cbn [fst snd]. rewrite run_bind.
    destruct (ex_get_fills None _) as [a' r]. destruct r as [fs|]; [|done]. intros [= _ <-] Hs. by apply (Hv Hs). }
  specialize (Hm w Hw). destruct (m w) as [w' [fills|e]]; [|done].
  pose proof (book_all_keeps fills (Hok w' fills eq_refl) (w', []) Hm) as Hb.
  by destruct (for_each _ fills (w', [])) as [[w'' notes] [u|e]].
Qed.

Lemma mark_all_keeps t pids : preserves I (in_engine (mark_all t pids)).
Proof. revert t. induction pids as [|pid pids IH]; intros t; cbn [mark_all]; [walk|]. unfold mark_position. walk. Qed.

Lemma marks_keeps : preserves I update_marks.
Proof.
  unfold update_marks. apply preserves_bind; [apply (read_books (fun a => Ok a))|]. intros a.
  apply preserves_bind; [apply get_portfolio_keeps|]. intros s. cbv zeta. destruct (_ && _); [auto with turtle|].
  apply preserves_bind; [apply mark_all_keeps|]. intros t. apply preserves_bind.
  { destruct (dltb _ _); auto with turtle. }
  intros heat. apply preserves_bind; [|auto with turtle]. apply (kp_portfolio strict I K). intros J HJ. by apply marks_log.
Qed.
End booking.
End walk.
End foreign.
