(* ===== verification/TradingCycleSpec.v ===== *)
(** * What a cycle executes

    A cycle that returns has executed what the risk manager approved and nothing
    else, and nothing a live order already stands for. *)

From Stdlib Require Import ssreflect ZArith Lia Ascii String.
From stdpp Require Import base strings numbers gmap sets list.
From S2P Require Import Prelude PyText PyDict PyDecimal PyFloat EventLog.
From S2P Require Import ExchangeModels ExchangeAdapter OrderStates OrderManager PositionStates Quantization.
From S2P Require Import RiskManager Sizing Execution Construction ConstructionSpec Engine TradingCycle Accounting EngineSpec.
#[local] Open Scope Z_scope.

Section cycle.
Context {L A X : Type} `{EventLog L} `{Exchange A} `{Venue A}.
Notation E := (Engine L A).
Notation W := (E * X)%type.

Lemma on_engine_ok {Y} (m : M E Y) (w w' : W) y : on_engine m w = (w', Ok y) -> exists e', m w.1 = (e', Ok y) /\ w' = (e', w.2).
Proof. unfold on_engine, zoom. destruct (m w.1) as [e' r]. intros [= <- ->]. by exists e'. Qed.

Lemma on_venue_ok {Y} (m : M A Y) (e e' : E) y : on_venue m e = (e', Ok y) ->
  exists a', m (w_adapter (en_orders e)) = (a', Ok y).
Proof. unfold on_venue, on_order_manager, on_adapter, zoom. destruct (m _) as [a' r]. intros [= _ ->]. by exists a'. Qed.

(** What a placement reports of itself. *)
Definition executes (r : TradeRequest) (x : ExecutionResult) : Prop :=
  er_operation x = ExecutionOperation.PLACE /\ er_trade_request x = Some r /\ rd_decision <$> er_decision x = Some Decision.APPROVED.

Lemma execute_place_ok now r rules (w w' : World L A) x :
  execute_place r (_approved_marker now) rules w = (w', Ok x) -> executes r x.
Proof.
  unfold execute_place. cbn. intros (w1 & [q p] & _ & (w2 & s & _ & Hx)%bind_ok)%bind_ok. by injection Hx as _ <-.
Qed.

Lemma execute_all_ok now hook rules l : forall executed (w w' : W) xs,
  execute_all now hook rules executed l w = (w', Ok xs) -> exists done, xs = executed ++ done /\ Forall2 executes l done.
Proof.
  induction l as [|r l IH]; intros executed w w' xs; cbn [execute_all].
  - intros [= _ <-]. exists []. by rewrite app_nil_r.
  - intros (w1 & x & Hp & (w2 & u & _ & Hr)%bind_ok)%bind_ok. apply IH in Hr as (d & -> & Hd).
    apply on_engine_ok in Hp as (e' & Hp & _). unfold on_order_manager, zoom in Hp.
    destruct (execute_place _ _ _ _) as [w3 r3] eqn:Ep. injection Hp as _ ->. apply execute_place_ok in Ep.
    exists (x :: d). rewrite -app_assoc. split; [done|by constructor].
Qed.

Context (fromisoformat : string -> result (Z * option Z)) (strategies : list (Strategy (A := A))) (universe : list Symbol)
  (profile : RiskProfileParams) (corr : CorrelationInfo) (mmr leverage : decimal) (vol : list (string * decimal)) (now : string)
  (hook : option (ExecutionResult -> M W unit)) (rules : option QuantizationRules).

Lemma suppressed_spec orders i o : suppressed (live_order_keys orders) i = false -> o ∈ orders -> live_order o = true ->
  sym_value (o_symbol o) = symbol_name i -> o_reduce_only o <> ti_reduce_only i.2.
Proof.
  intros Hs Ho Hl Hsym Hr. assert (suppressed (live_order_keys orders) i = true); [|congruence].
  apply existsb_exists. exists (sym_value (o_symbol o), o_reduce_only o). cbn. rewrite Hsym Hr String.eqb_refl eqb_reflx. split; [|done].
  unfold live_order_keys. apply in_map_iff. exists o. split; [by rewrite Hsym Hr|]. apply filter_In. by split; [apply list_elem_of_In|].
Qed.

(** What a returning cycle did: the strategies' intents in their context, the
    orders the venue listed, the construction and the executions. *)
Lemma cycle_stages w w' r :
  run_cycle fromisoformat strategies universe profile corr mmr leverage vol now hook rules w = (w', Ok r) ->
  exists (context : StrategyContext) (b b' a a' : A) (orders : list Order),
    cx_universe context = universe /\ generate_all context strategies b = (b', Ok (cy_intents r)) /\
    ve_get_orders a = (a', Ok orders) /\
    Forall2 executes (cr_approved (cy_construction r)) (cy_executions r) /\
    Forall (fun q => exists i, i ∈ cy_intents r /\ in_universe universe i = true /\ tr_symbol q = ti_symbol i.2 /\
      tr_side q = ti_side i.2 /\ tr_reduce_only q = ti_reduce_only i.2 /\
      forall o, o ∈ orders -> live_order o = true -> sym_value (o_symbol o) = sym_value (tr_symbol q) ->
        o_reduce_only o <> tr_reduce_only q) (cr_approved (cy_construction r)) /\
    cy_suppressed_by_open_orders r = List.filter (suppressed (live_order_keys orders)) (cy_intents r).
Proof.
  unfold run_cycle. intros (w1 & e & _ & Hr)%bind_ok. cbv zeta in Hr. apply bind_ok in Hr as (w2 & health & _ & Hr).
  apply bind_ok in Hr as (w3 & resynced & _ & Hr). apply bind_ok in Hr as (w4 & report & _ & Hr).
  apply bind_ok in Hr as (w5 & context & Hc & Hr). apply bind_ok in Hr as (w6 & intents & Hgen & Hr).
  apply bind_ok in Hr as (w7 & orders & Ho & Hr). apply bind_ok in Hr as (w8 & res & Hres & Hr).
  apply bind_ok in Hr as (w9 & xs & Hx & Hr). injection Hr as _ <-.
  apply on_engine_ok in Hc as (e5 & Hc & _). apply context_universe in Hc.
  apply on_engine_ok in Hgen as (e6 & (b' & Hgen)%on_venue_ok & _).
  apply on_engine_ok in Ho as (e7 & (a' & Ho)%on_venue_ok & _).
  apply on_engine_ok in Hres as (e8 & Hres & _). unfold construct_in in Hres. rewrite run_get in Hres.
  apply on_venue_ok in Hres as (a8 & Hres). apply approved_stem_from in Hres.
  apply execute_all_ok in Hx as (d & -> & Hd). eexists context, _, b', _, a', orders. cbn [cy_construction cy_executions cy_intents cy_suppressed_by_open_orders].
  split_and!; [exact Hc|exact Hgen|exact Ho|exact Hd| |done]. eapply Forall_impl; [exact Hres|]. cbv beta.
  intros q (i & (Hi & Hs)%elem_of_inside & Hu & Hsym & Hsd & Hro). rewrite Hc in Hu. exists i. rewrite Hsym Hro. split_and!; try done.
  intros o Hin Hl E. eapply suppressed_spec; [by apply negb_true_iff|done..].
Qed.
(** C9: a cycle executes the approved requests and nothing else. When a cycle
    returns, there was one placement per approved request, in their order. Each
    approved request trades what an intent of the strategies asked for, on a
    symbol of the universe; and no order the venue listed in the cycle that was
    still live has its symbol and its reduce-only flag. The suppressed intents
    are the ones such an order stands for. *)
Theorem cycle_executes_approved w w' r :
  run_cycle fromisoformat strategies universe profile corr mmr leverage vol now hook rules w = (w', Ok r) ->
  exists (a a' : A) (orders : list Order), ve_get_orders a = (a', Ok orders) /\
    Forall2 executes (cr_approved (cy_construction r)) (cy_executions r) /\
    Forall (fun q => exists i, i ∈ cy_intents r /\ in_universe universe i = true /\ tr_symbol q = ti_symbol i.2 /\
      tr_side q = ti_side i.2 /\ tr_reduce_only q = ti_reduce_only i.2 /\
      forall o, o ∈ orders -> live_order o = true -> sym_value (o_symbol o) = sym_value (tr_symbol q) ->
        o_reduce_only o <> tr_reduce_only q) (cr_approved (cy_construction r)) /\
    cy_suppressed_by_open_orders r = List.filter (suppressed (live_order_keys orders)) (cy_intents r).
Proof.
  intros (context & b & b' & a & a' & orders & _ & _ & Ho & Hx & Hq & Hs)%cycle_stages. by exists a, a', orders.
Qed.

(** Every intent of a cycle is one of the strategies'. *)
Lemma generate_all_elem context ss : forall (a a' : A) l i, generate_all context ss a = (a', Ok l) -> i ∈ l ->
  exists s b b' l', s ∈ ss /\ s context b = (b', Ok l') /\ i ∈ l'.
Proof.
  induction ss as [|s ss IH]; intros a a' l i E Hi; cbn [generate_all] in E; [injection E as _ <-; by apply elem_of_nil in Hi|].
  apply bind_ok in E as (a1 & l1 & E1 & (a2 & l2 & E2 & E)%bind_ok). injection E as _ <-. apply elem_of_app in Hi as [Hi|Hi].
  - exists s, a, a1, l1. split_and!; [by left|done..].
  - destruct (IH _ _ _ _ E2 Hi) as (s' & b & b' & l' & Hs & ? & ?). exists s', b, b', l'. split_and!; [by right|done..].
Qed.
End cycle.
