(* ===== verification/EngineRuns.v ===== *)
(** * The engine's runs

    For each component, the operations of the engine are its own steps between
    events of the others; so what is known of each component over a log holds of
    all of them over the shared one, and a restart rebuilds them together. *)

From Stdlib Require Import ssreflect ZArith Lia Ascii String QArith.
From stdpp Require Import base strings numbers gmap sets list relations.
From S2P Require Import Prelude PyText PyDict PyJson PyJsonFacts PyDecimal PyDecimalFacts PyFloat EventStore EventStoreFacts EventLog Payload.
From S2P Require ExecStateMachine ExecStateMachineFacts PositionManager PositionManagerSpec PortfolioManager.
From S2P Require Import ExchangeModels ExchangeAdapter OrderStates OrderManager OrderManagerFacts OrderManagerSpec PositionStates Quantization.
From S2P Require Import RiskManager Sizing Execution Construction Engine TradingCycle Accounting SharedLog EngineSpec.
#[local] Open Scope Z_scope.
Module ESMF := ExecStateMachineFacts.
Module PMS := PositionManagerSpec.

(** ** Events of other components *)

(** What holds of every event of the component with the source [tag]. *)
Definition of_tag (tag : string) (F : Event -> Prop) : Prop := forall e payload key,
  tagged tag payload key -> ev_payload e = JObj payload -> key_of e = Some key -> F e.

Lemma append_growth {L} `{EventLog L} ty payload key l : log_ok l ->
  let l' := (log_append ty payload (Some key) l).1 in
  log_events l' = log_events l \/
  exists e, log_events l' = log_events l ++ [e] /\ ev_payload e = JObj payload /\ key_of e = Some key /\
    find_event key (log_events l) = None.
Proof.
  intros Hl. cbv zeta. destruct (log_append ty payload (Some key) l) as [l' r] eqn:E. apply log_append_cases in E; [|done].
  cbn [fst]. remember (log_events l') as es'. destruct E as [k e Hk Hf|e Hn Ht Hp Hk Hid|x Hx]; [by left| |by left].
  right. exists e. split_and!; try done. by apply Hn.
Qed.

Ltac other_tag :=
  intros e payload key ((fields & ->) & (k & ->)) Hp Hk;
  split; [unfold OrderManager._is_own_event, PositionManager._is_own_event; rewrite Hp; vm_compute; reflexivity|];
  intros k'; rewrite Hk; intros E; injection E; discriminate.

Lemma other_orders tag :
  tag ∈ [ESM._EVENT_SOURCE_TAG; PositionManager._EVENT_SOURCE_TAG; PortfolioManager._EVENT_SOURCE_TAG; _SOURCE_TAG] ->
  of_tag tag (OrderManagerSpec.foreign default_id).
Proof. rewrite !elem_of_cons elem_of_nil. intros [->|[->|[->|[->|[]]]]]; other_tag. Qed.

Lemma other_positions tag :
  tag ∈ [OrderManager._EVENT_SOURCE_TAG; ESM._EVENT_SOURCE_TAG; PortfolioManager._EVENT_SOURCE_TAG; _SOURCE_TAG] ->
  of_tag tag (PMS.foreign default_id).
Proof. rewrite !elem_of_cons elem_of_nil. intros [->|[->|[->|[->|[]]]]]; other_tag. Qed.

Lemma other_machine tag :
  tag ∈ [OrderManager._EVENT_SOURCE_TAG; PositionManager._EVENT_SOURCE_TAG; PortfolioManager._EVENT_SOURCE_TAG; _SOURCE_TAG] ->
  of_tag tag (fun e => ESM._is_own_event e default_id = false).
Proof.
  rewrite !elem_of_cons elem_of_nil.
  intros [->|[->|[->|[->|[]]]]] e payload key ((fields & ->) & _) Hp _; unfold ESM._is_own_event; rewrite Hp; vm_compute; reflexivity.
Qed.

Lemma other_accounting tag :
  tag ∈ [OrderManager._EVENT_SOURCE_TAG; ESM._EVENT_SOURCE_TAG; PositionManager._EVENT_SOURCE_TAG; PortfolioManager._EVENT_SOURCE_TAG] ->
  of_tag tag ac_foreign.
Proof.
  rewrite !elem_of_cons elem_of_nil.
  intros [->|[->|[->|[->|[]]]]] e payload key ((fields & ->) & (k & ->)) Hp Hk; (split; [rewrite Hp; vm_compute; discriminate|]);
    intros k'; rewrite Hk; intros E; injection E; discriminate.
Qed.

(** ** A component's view of the engine *)

Section runs.
Context {L A : Type} `{EventLog L} `{Exchange A} `{Venue A}.
Notation E := (Engine L A).
Notation W := (E * Accounting)%type.
Implicit Types (e : E) (a : Accounting) (w : W) (l : L).

(** A statement about a component over the log [l], which other components'
    events keep. *)
Section view.
Context (Q : E -> Accounting -> L -> Prop) (tags : list string).
Hypothesis Hok : forall e a l, Q e a l -> log_ok l.
Hypothesis Hgrow : forall e a l l' tag, tag ∈ tags -> Q e a l -> log_ok l' ->
  (log_events l' = log_events l \/ exists x, log_events l' = log_events l ++ [x] /\ (forall F, of_tag tag F -> F x)) -> Q e a l'.
Notation I := (fun w => Q w.1 w.2 (en_store w.1)).

Lemma view_keeps tag e a : tag ∈ tags -> keeps tag (Q e a).
Proof.
  intros Ht ty payload key l Htag Hwf HQ. pose proof (Hok _ _ _ HQ) as Hl. apply (Hgrow e a l _ tag); [done|done|by apply log_append_ok|].
  destruct (append_growth ty payload key l Hl) as [Hs|(x & Hx & Hp & Hk & _)]; [by left|right]. exists x. split; [done|].
  intros F HF. by eapply HF.
Qed.

Lemma view_positions {X} (m : M (L * PositionManager.PositionManager) X) : PositionManager._EVENT_SOURCE_TAG ∈ tags ->
  (forall J : L -> Prop, keeps PositionManager._EVENT_SOURCE_TAG J -> preserves (fun p => J p.1) m) ->
  (forall e a l l' s, Q e a l -> Q {| en_orders := with_store l' (en_orders e); en_positions := s; en_portfolio := en_portfolio e;
     en_limits := en_limits e; en_started := en_started e |} a l) ->
  preserves I (in_engine (on_position_manager m)).
Proof.
  intros Ht Hm Hq [e a] Hw. pose proof (Hm (Q e a) (view_keeps _ e a Ht) (en_store e, en_positions e) Hw) as Hs.
  unfold in_engine, on_position_manager, zoom. cbn [fst snd] in *. destruct (m _) as [[l s] r]. by apply Hq.
Qed.

Lemma view_portfolio {X} (m : M (L * PortfolioManager.PortfolioManager) X) : PortfolioManager._EVENT_SOURCE_TAG ∈ tags ->
  (forall J : L -> Prop, keeps PortfolioManager._EVENT_SOURCE_TAG J -> preserves (fun p => J p.1) m) ->
  (forall e a l l' s, Q e a l -> Q {| en_orders := with_store l' (en_orders e); en_positions := en_positions e; en_portfolio := s;
     en_limits := en_limits e; en_started := en_started e |} a l) ->
  preserves I (in_engine (on_portfolio_manager m)).
Proof.
  intros Ht Hm Hq [e a] Hw. pose proof (Hm (Q e a) (view_keeps _ e a Ht) (en_store e, en_portfolio e) Hw) as Hs.
  unfold in_engine, on_portfolio_manager, zoom. cbn [fst snd] in *. destruct (m _) as [[l s] r]. by apply Hq.
Qed.

Lemma view_orders {X} (m : M (World L A) X) : OrderManager._EVENT_SOURCE_TAG ∈ tags -> ESM._EVENT_SOURCE_TAG ∈ tags ->
  (forall J : L * ESM.ExecutionStateMachine -> Prop, (forall s, keeps OrderManager._EVENT_SOURCE_TAG (fun l => J (l, s))) ->
     (forall t rid ctx, json_wf (JObj ctx) = true -> preserves J (ESM.transition t rid ctx)) ->
     preserves (fun x : World L A => J (w_store x, w_esm x)) m) ->
  (forall e a l x, Q e a l -> Q (set_orders x e) a l) ->
  preserves I (in_engine (on_order_manager m)).
Proof.
  intros Ht1 Ht2 Hm Hq [e a] Hw. pose proof (Hm (fun p => Q e a p.1)) as Hs.
  assert (Hx : Q e a (w_store (m (en_orders e)).1)).
  { apply Hs; [intros s; by apply (view_keeps _ e a Ht1)| |done]. intros t rid ctx Hc. by apply transition_log, Hc; apply view_keeps. }
  unfold in_engine, on_order_manager, zoom. cbn [fst snd] in *. destruct (m (en_orders e)) as [w' r]. by apply Hq.
Qed.

(** The accounting's appends and maps, for the views which do not read its state. *)
Hypothesis Hstore : forall e a l l', Q e a l -> Q (set_orders (with_store l' (en_orders e)) e) a l.

Lemma view_append action key fields : _SOURCE_TAG ∈ tags ->
  json_wf (JObj (("source", JStr _SOURCE_TAG) :: ("action", JStr action) :: fields)) = true -> preserves I (_append action key fields).
Proof.
  intros Ht Hwf. unfold _append. apply preserves_bind; [|by intros _ w Hw]. intros [e a] Hw.
  unfold in_engine, on_event_store, on_order_manager, on_store, zoom. cbn [fst snd].
  pose proof (view_keeps _ e a Ht EventType.POSITION_UPDATED (("source", JStr _SOURCE_TAG) :: ("action", JStr action) :: fields)
    (_SOURCE_TAG +:+ ":" +:+ action +:+ ":" +:+ key) (en_store e)) as Hk.
  unfold en_store in Hk. destruct (log_append _ _ _ (w_store (en_orders e))) as [l r]. apply (Hstore e a l l). apply Hk; [|done|done].
  split; [by eexists|]. by exists (action +:+ ":" +:+ key).
Qed.

Hypothesis Hbooks : forall e a a' l, Q e a l -> Q e a' l.

Lemma view_modify (f : Accounting -> Accounting) : preserves I (in_books (modify f)).
Proof. intros [e a] Hw. by eapply Hbooks. Qed.

Lemma view_level x : _SOURCE_TAG ∈ tags -> preserves I (record_level x).
Proof.
  intros Ht. unfold record_level. destruct (er_trade_request x) as [r|]; [|by intros w Hw].
  apply preserves_bind; [by intros [e a] Hw|]. intros a. destruct (din _ _); [by intros w Hw|].
  apply preserves_bind; [|intros _; apply view_modify]. apply view_append; [done|wf_fields].
Qed.

Lemma view_map cid pid : _SOURCE_TAG ∈ tags -> preserves I (map_position cid pid).
Proof. intros Ht. apply preserves_bind; [|intros _; apply view_modify]. apply view_append; [done|wf_fields]. Qed.
End view.

(** A call of another component, by its own effect on the log. *)
Tactic Notation "by_orders" constr(Q) constr(tags) constr(grow) uconstr(op) :=
  intros; apply (view_orders Q tags); [done|exact grow|set_solver|set_solver| |done]; intros J HJ HJ'; by apply op.
Tactic Notation "by_positions" constr(Q) constr(tags) constr(grow) uconstr(op) :=
  intros; apply (view_positions Q tags); [done|exact grow|set_solver| |done]; intros J HJ; by apply op.

Lemma with_store_same (x : World L A) : with_store (w_store x) x = x.
Proof. by destruct x. Qed.

(** ** The order manager's run *)

Section orders.
Context (x0 : World L A) (Hstart : om_start default_id x0).

Definition order_run e a l : Prop := log_ok l /\ rtc (om_step default_id) x0 (with_store l (en_orders e)).
Notation I := (fun w => order_run w.1 w.2 (en_store w.1)).
Notation tags := [PositionManager._EVENT_SOURCE_TAG; PortfolioManager._EVENT_SOURCE_TAG; _SOURCE_TAG].

Lemma order_run_grow e a l l' tag : tag ∈ tags -> order_run e a l -> log_ok l' ->
  (log_events l' = log_events l \/ exists x, log_events l' = log_events l ++ [x] /\ (forall F, of_tag tag F -> F x)) -> order_run e a l'.
Proof.
  intros Ht [Hl Hr] Hl' Hg. split; [done|]. eapply rtc_r; [exact Hr|]. apply s_other; [done|done|].
  destruct Hg as [Hs|(x & Hx & HF)]; [by left|right]. exists x. split; [done|]. apply HF, other_orders. by right.
Qed.

Lemma order_step {X} (m : M (World L A) X) : (forall x, log_ok (w_store x) -> om_step default_id x (m x).1) ->
  preserves I (in_engine (on_order_manager m)).
Proof.
  intros Hm [e a] [Hl Hr]. unfold en_store in Hr. cbn [fst snd] in *. rewrite with_store_same in Hr.
  pose proof (rtc_r _ _ _ Hr (Hm (en_orders e) Hl)) as Hr'. unfold in_engine, on_order_manager, zoom. cbn [fst snd].
  destruct (m (en_orders e)) as [x r]. cbn in *. split; [|by rewrite with_store_same].
  apply (i_log _ _ _ _ _ (reach_inv _ _ _ Hstart Hr')).
Qed.

Lemma op_step {X} (op : om_op) (m : M (World L A) X) : run_op op = (_ ← m; mret tt) -> op_ok op ->
  forall x, om_step default_id x (m x).1.
Proof.
  intros E Hop x. pose proof (s_op default_id op x Hop) as Hs. rewrite E run_bind in Hs. by destruct (m x) as [x' [y|y]].
Qed.

Lemma run_op_step {X} (op : om_op) (m : M (World L A) X) : run_op op = (_ ← m; mret tt) -> op_ok op ->
  preserves I (in_engine (on_order_manager m)).
Proof. intros E Hop. apply order_step. intros x _. by apply (op_step op). Qed.

(** A transition is an event of another component. *)
Lemma transition_other t rid ctx (x : World L A) : json_wf (JObj ctx) = true -> log_ok (w_store x) ->
  om_step default_id x (on_esm (ESM.transition t rid ctx) x).1.
Proof.
  intros Hc Hl. pose proof (ESMF.transition_log_ok t rid ctx (w_store x, w_esm x) Hc Hl) as Hl'.
  pose proof (ESMF.transition_spec t rid ctx (w_store x, w_esm x) Hl) as Hs. unfold on_esm, zoom.
  destruct (ESM.transition t rid ctx (w_store x, w_esm x)) as [p r]. cbn [fst snd] in *.
  apply s_other; [done|done|]. cbn. destruct Hs as [|?|?|?|b store ev _ _ _ _ Hown Hk Hs]; [by left..|by left|].
  right. exists ev. split; [done|]. eapply (other_orders ESM._EVENT_SOURCE_TAG); [set_solver| |exact Hown|exact Hk].
  split; by eexists.
Qed.

Lemma order_keeper : keeper True I.
Proof.
  assert (Hok : forall e a l, order_run e a l -> log_ok l) by by intros ? ? ? [].
  assert (Hst : forall e a l l', order_run e a l -> order_run (set_orders (with_store l' (en_orders e)) e) a l) by done.
  assert (Hbk : forall e a a' l, order_run e a l -> order_run e a' l) by done.
  assert (Ht : _SOURCE_TAG ∈ tags) by set_solver.
  split.
  - intros X m. apply order_step. intros x Hl. apply s_other; unfold on_adapter, zoom; destruct (m (w_adapter x)); by [|left].
  - by intros b [e a] Hw.
  - intros symbol side ty q lp tif ro Hb. by apply (run_op_step (OpPlace symbol side ty q lp tif ro)).
  - intros cid q p. by apply (run_op_step (OpAmend cid q p)).
  - intros cid. by apply (run_op_step (OpCancel cid)).
  - intros symbol. by apply (run_op_step (OpCancelAll symbol)).
  - intros t rid ctx Hc. apply order_step. intros x Hl. by apply transition_other.
  - intros cid. by apply (run_op_step (OpResync cid)).
  - intros cid f. by apply (run_op_step (OpFill cid f)).
  - intros cid o. by apply (run_op_step (OpUpdate cid o)).
  - by_positions order_run tags order_run_grow create_log.
  - by_positions order_run tags order_run_grow entry_log.
  - by_positions order_run tags order_run_grow exit_log.
  - intros m Hm. by apply (view_portfolio order_run tags); [done|exact order_run_grow|set_solver| |].
  - intros x. by apply (view_level order_run tags Hok order_run_grow Hst Hbk).
  - intros cid pid w Hw _. by apply (view_map order_run tags Hok order_run_grow Hst Hbk).
  - intros fid pid q. by apply (view_modify order_run).
Qed.
End orders.

(** ** The position manager's run *)

Section positions.
Notation P := (L * PositionManager.PositionManager)%type.
Context (p0 : P) (Hstart : PMS.pm_start default_id p0).

Definition position_run e a l : Prop := log_ok l /\ rtc (PMS.pm_step default_id) p0 (l, en_positions e).
Notation I := (fun w => position_run w.1 w.2 (en_store w.1)).
Notation tags := [OrderManager._EVENT_SOURCE_TAG; ESM._EVENT_SOURCE_TAG; PortfolioManager._EVENT_SOURCE_TAG; _SOURCE_TAG].

Lemma position_run_grow e a l l' tag : tag ∈ tags -> position_run e a l -> log_ok l' ->
  (log_events l' = log_events l \/ exists x, log_events l' = log_events l ++ [x] /\ (forall F, of_tag tag F -> F x)) -> position_run e a l'.
Proof.
  intros Ht [Hl Hr] Hl' Hg. split; [done|]. eapply rtc_r; [exact Hr|]. apply (PMS.s_other default_id (l, en_positions e)); [done|].
  destruct Hg as [Hs|(x & Hx & HF)]; [by left|right]. exists x. split; [done|]. by apply HF, other_positions.
Qed.

Lemma position_step {X} (op : PMS.pm_op) (m : M P X) : PMS.run_op default_id op = (_ ← m; mret tt) -> PMS.op_ok op ->
  preserves I (in_engine (on_position_manager m)).
Proof.
  intros E Hop [e a] [Hl Hr]. cbn [fst snd] in *. unfold in_engine, on_position_manager, zoom. cbn [fst snd].
  pose proof (PMS.s_op default_id op (en_store e, en_positions e) Hop) as Hs. rewrite E run_bind in Hs.
  assert (Hr' : rtc (PMS.pm_step default_id) p0 (m (en_store e, en_positions e)).1).
  { eapply rtc_r; [exact Hr|]. by destruct (m _) as [p [x|x]]. }
  destruct (m (en_store e, en_positions e)) as [[l s] r]. split; [|done].
  apply (Journal.ji_log _ _ _ _ _ (PMS.pm_reach_inv default_id _ _ Hstart Hr')).
Qed.

Lemma position_keeper : keeper True I.
Proof.
  assert (Hok : forall e a l, position_run e a l -> log_ok l) by by intros ? ? ? [].
  assert (Hor : forall e a l x, position_run e a l -> position_run (set_orders x e) a l) by done.
  assert (Hbk : forall e a a' l, position_run e a l -> position_run e a' l) by done.
  assert (Ht : _SOURCE_TAG ∈ tags) by set_solver.
  split.
  - intros X m [e a] Hw. unfold in_engine, on_venue, on_order_manager, on_adapter, zoom. cbn. by destruct (m _).
  - by intros b [e a] Hw.
  - by_orders position_run tags position_run_grow place_log.
  - by_orders position_run tags position_run_grow amend_log.
  - by_orders position_run tags position_run_grow cancel_log.
  - by_orders position_run tags position_run_grow cancel_all_log.
  - by_orders position_run tags position_run_grow esm_call_log.
  - by_orders position_run tags position_run_grow resync_log.
  - by_orders position_run tags position_run_grow report_fill_log.
  - by_orders position_run tags position_run_grow report_update_log.
  - intros symbol side iq sp sd t1 t2 c Hb. by apply (position_step (PMS.OpCreate symbol side iq sp sd t1 t2 c)), Hb.
  - intros pid f Hf. by apply (position_step (PMS.OpEntry pid f)), Hf.
  - intros pid f t r. by apply (position_step (PMS.OpExit pid f t r)).
  - intros m Hm. by apply (view_portfolio position_run tags); [done|exact position_run_grow|set_solver| |].
  - intros x. by apply (view_level position_run tags Hok position_run_grow).
  - intros cid pid w Hw _. by apply (view_map position_run tags Hok position_run_grow).
  - intros fid pid q. by apply (view_modify position_run).
Qed.
End positions.

(** ** The execution state machine's run *)

Section machine.
Notation S := (L * ESM.ExecutionStateMachine)%type.
Context (s0 : S) (Hstart : ESMF.esm_ok s0) (Hid : ESM.esm_machine_id s0.2 = default_id).

Definition machine_run e a l : Prop := log_ok l /\ rtc ESMF.esm_step s0 (l, w_esm (en_orders e)).
Notation I := (fun w => machine_run w.1 w.2 (en_store w.1)).
Notation tags := [OrderManager._EVENT_SOURCE_TAG; PositionManager._EVENT_SOURCE_TAG; PortfolioManager._EVENT_SOURCE_TAG; _SOURCE_TAG].

Lemma machine_grow l l' s tag : tag ∈ tags -> rtc ESMF.esm_step s0 (l, s) -> log_ok l' ->
  (log_events l' = log_events l \/ exists x, log_events l' = log_events l ++ [x] /\ (forall F, of_tag tag F -> F x)) ->
  rtc ESMF.esm_step s0 (l', s).
Proof.
  intros Ht Hr Hl' Hg. apply ESMF.esm_steps_ok in Hr as Hw; [|done]. destruct Hw as (_ & Hid' & _). cbn [snd] in Hid'.
  eapply rtc_r; [exact Hr|]. destruct Hg as [Hs|(x & Hx & HF)].
  - apply (ESMF.esm_other l l' s []); [done|by rewrite Hs app_nil_r|done].
  - apply (ESMF.esm_other l l' s [x]); [done|done|]. apply Forall_singleton. rewrite Hid' Hid. by apply HF, other_machine.
Qed.

Lemma machine_run_grow e a l l' tag : tag ∈ tags -> machine_run e a l -> log_ok l' ->
  (log_events l' = log_events l \/ exists x, log_events l' = log_events l ++ [x] /\ (forall F, of_tag tag F -> F x)) -> machine_run e a l'.
Proof. intros Ht [Hl Hr] Hl' Hg. split; [done|]. by eapply machine_grow. Qed.

(** The order manager drives the machine by its transitions only. *)
Definition machine_reached (p : S) : Prop := log_ok p.1 /\ rtc ESMF.esm_step s0 p.
Notation J := machine_reached.

Lemma machine_order_calls {X} (m : M (World L A) X) :
  ((forall s, keeps OrderManager._EVENT_SOURCE_TAG (fun l => J (l, s))) ->
   (forall t rid ctx, json_wf (JObj ctx) = true -> preserves J (ESM.transition t rid ctx)) ->
   preserves (fun x : World L A => J (w_store x, w_esm x)) m) ->
  preserves I (in_engine (on_order_manager m)).
Proof.
  intros Hm [e a] Hw. unfold in_engine, on_order_manager, zoom. cbn [fst snd] in *.
  assert (Hp : J (w_store (m (en_orders e)).1, w_esm (m (en_orders e)).1)).
  { apply Hm; [| |exact Hw].
    - intros s ty payload key l Htag Hwf [Hl Hr]. pose proof (log_append_ok ty payload (Some key) l Hl Hwf) as Hl'. split; [done|].
      apply (machine_grow l _ s OrderManager._EVENT_SOURCE_TAG); [set_solver|done|done|].
      destruct (append_growth ty payload key l Hl) as [Hs|(x & Hx & Hp & Hk & _)]; [by left|right]. exists x.
      split; [done|]. intros F HF. by eapply HF.
    - intros t rid ctx Hc p [Hl Hr]. assert (Hr' : rtc ESMF.esm_step s0 (ESM.transition t rid ctx p).1) by
        (eapply rtc_r; [exact Hr|by apply ESMF.esm_transition]).
      split; [|done]. by apply ESMF.esm_steps_ok in Hr' as ([Hl' _] & _). }
  by destruct (m (en_orders e)) as [x r].
Qed.

Tactic Notation "by_machine" uconstr(op) := intros; apply machine_order_calls; intros HJ HJ'; by apply op.

Lemma machine_keeper strict : keeper strict I.
Proof.
  assert (Hok : forall e a l, machine_run e a l -> log_ok l) by by intros ? ? ? [].
  assert (Hst : forall e a l l', machine_run e a l -> machine_run (set_orders (with_store l' (en_orders e)) e) a l) by done.
  assert (Hbk : forall e a a' l, machine_run e a l -> machine_run e a' l) by done.
  assert (Ht : _SOURCE_TAG ∈ tags) by set_solver.
  split.
  - intros X m [e a] Hw. unfold in_engine, on_venue, on_order_manager, on_adapter, zoom. cbn. by destruct (m _).
  - by intros b [e a] Hw.
  - by_machine (place_log machine_reached).
  - by_machine (amend_log machine_reached).
  - by_machine (cancel_log machine_reached).
  - by_machine (cancel_all_log machine_reached).
  - by_machine (esm_call_log machine_reached).
  - by_machine (resync_log machine_reached).
  - by_machine (report_fill_log machine_reached).
  - by_machine (report_update_log machine_reached).
  - by_positions machine_run tags machine_run_grow create_log.
  - by_positions machine_run tags machine_run_grow entry_log.
  - by_positions machine_run tags machine_run_grow exit_log.
  - intros m Hm. by apply (view_portfolio machine_run tags); [done|exact machine_run_grow|set_solver| |].
  - intros x. by apply (view_level machine_run tags Hok machine_run_grow).
  - intros cid pid w Hw _. by apply (view_map machine_run tags Hok machine_run_grow).
  - intros fid pid q. by apply (view_modify machine_run).
Qed.
End machine.

(** ** The accounting's maps *)

Section maps.
Definition accounting_run e a l : Prop := log_ok l /\ accounted (log_events l) a.
Notation I := (fun w => accounting_run w.1 w.2 (en_store w.1)).
Notation tags := [OrderManager._EVENT_SOURCE_TAG; ESM._EVENT_SOURCE_TAG; PositionManager._EVENT_SOURCE_TAG; PortfolioManager._EVENT_SOURCE_TAG].

Lemma accounting_run_grow e a l l' tag : tag ∈ tags -> accounting_run e a l -> log_ok l' ->
  (log_events l' = log_events l \/ exists x, log_events l' = log_events l ++ [x] /\ (forall F, of_tag tag F -> F x)) -> accounting_run e a l'.
Proof.
  intros Ht [Hl Ha] Hl' Hg. split; [done|]. destruct Hg as [-> |(x & -> & HF)]; [done|].
  apply accounted_foreign; [done|]. by apply HF, other_accounting.
Qed.

(** Writing an entry of a map, for an order that has none. *)
Lemma write_entry action cid fields f w :
  let payload := ("source", JStr _SOURCE_TAG) :: ("action", JStr action) :: fields in
  I w -> json_wf (JObj payload) = true -> (forall x, x ∈ log_events (en_store w.1) -> key_of x <> Some (ac_key action cid)) ->
  (forall x, accounted (log_events (en_store w.1)) w.2 -> ev_payload x = JObj payload -> key_of x = Some (ac_key action cid) ->
     accounted (log_events (en_store w.1) ++ [x]) (f w.2)) ->
  I ((_append action cid fields;; in_books (modify f)) w).1.
Proof.
  intros payload [Hl Ha] Hwf Hnew Hacc. destruct w as [e a]. cbn [fst snd] in *. unfold _append, in_engine, on_event_store, on_order_manager, on_store, zoom.
  rewrite !run_bind. cbn [fst snd]. change (_SOURCE_TAG +:+ ":" +:+ action +:+ ":" +:+ cid) with (ac_key action cid).
  unfold en_store in *. pose proof (log_append_ok EventType.POSITION_UPDATED payload (Some (ac_key action cid)) _ Hl Hwf) as Hl'.
  unfold payload in *.
  destruct (log_append _ _ _ (w_store (en_orders e))) as [l r] eqn:El. cbn [fst] in Hl'. apply log_append_cases in El; [|done].
  remember (log_events l) as es' eqn:Hes. symmetry in Hes.
  destruct El as [k x Hk Hf|x Hn Hty Hp Hk Hid|x Hx]; cbn; split; try done; cbn.
  - injection Hk as <-. apply find_event_Some in Hf as [Hin Hkx]. by destruct (Hnew x Hin).
  - rewrite Hes. by apply Hacc.
  - by rewrite Hes.
Qed.

Lemma accounting_keeper strict : keeper strict I.
Proof.
  assert (Hok : forall e a l, accounting_run e a l -> log_ok l) by by intros ? ? ? [].
  split.
  - intros X m [e a] Hw. unfold in_engine, on_venue, on_order_manager, on_adapter, zoom. cbn. by destruct (m _).
  - by intros b [e a] Hw.
  - by_orders accounting_run tags accounting_run_grow place_log.
  - by_orders accounting_run tags accounting_run_grow amend_log.
  - by_orders accounting_run tags accounting_run_grow cancel_log.
  - by_orders accounting_run tags accounting_run_grow cancel_all_log.
  - by_orders accounting_run tags accounting_run_grow esm_call_log.
  - by_orders accounting_run tags accounting_run_grow resync_log.
  - by_orders accounting_run tags accounting_run_grow report_fill_log.
  - by_orders accounting_run tags accounting_run_grow report_update_log.
  - by_positions accounting_run tags accounting_run_grow create_log.
  - by_positions accounting_run tags accounting_run_grow entry_log.
  - by_positions accounting_run tags accounting_run_grow exit_log.
  - intros m Hm. by apply (view_portfolio accounting_run tags); [done|exact accounting_run_grow|set_solver| |].
  - intros x [e a] Hw. unfold record_level. destruct (er_trade_request x) as [r|]; [|done]. cbv zeta. rewrite run_bind.
    cbn [in_books zoom fst snd get]. destruct (din _ _) eqn:Hd; [done|]. apply write_entry; [done|wf_fields| |].
    + intros y Hy Hk. pose proof (ac_leveled _ _ (proj2 Hw) y _ Hy Hk). cbn in *. congruence.
    + intros y Hacc Hp Hk. by eapply accounted_levels.
  - intros cid pid w Hw Hn. apply write_entry; [done|wf_fields| |].
    + intros y Hy Hk. pose proof (ac_mapped _ _ (proj2 Hw) y _ Hy Hk) as Hd. apply din_spec in Hd.
      by apply dget_None in Hn.
    + intros y Hacc Hp Hk. by eapply accounted_mapped.
  - intros fid pid q [e a] [Hl [(m & Hm & Hml & Hmp) Hle Hma]]. unfold in_books, zoom, modify. cbn [fst snd].
    unfold count_exit. destruct (bool_decide _); split; try done; split; try done; by exists m.
Qed.
End maps.
End runs.
