(* ===== verification/EngineRestart.v ===== *)
(** * Restarting an engine

    The engine's steps, each a call with all its failures, an event of the
    market or a restart of the process, and what a restart rebuilds; then a
    concrete engine, for the witnesses. *)

From Stdlib Require Import ssreflect ZArith Lia Ascii String QArith.
From stdpp Require Import base strings numbers gmap sets list relations.
From S2P Require Import Prelude PyText PyDict PyJson PyJsonFacts PyDecimal PyFloat EventStore EventLog.
From S2P Require MockExchange ExecStateMachine ExecStateMachineFacts PositionManager PositionManagerFacts PositionManagerSpec PortfolioManager.
From S2P Require Import ExchangeModels ExchangeAdapter OrderStates OrderManager OrderManagerFacts OrderManagerSpec PositionStates Quantization.
From S2P Require Import RiskManager RiskManagerSpec Sizing Execution Construction ConstructionSpec Engine TradingCycle Accounting SharedLog EngineSpec.
From S2P Require Import TradingCycleSpec EngineRuns.
#[local] Open Scope Z_scope.

Section engine.
Context {L A : Type} `{EventLog L} `{Exchange A} `{Venue A}.
Notation E := (Engine L A).
Notation W := (E * Accounting)%type.
Implicit Types (w : W) (l : L).

(** ** Steps *)

(** A call of the application, whatever it returns or raises. *)
Inductive en_call w : W -> Prop :=
  | c_startup : en_call w (in_engine startup w).1
  | c_cycle fromisoformat strategies universe profile corr mmr leverage vol now rules :
      Forall (fun u => blank (sym_value u) = false) universe ->
      en_call w (run_cycle fromisoformat strategies universe profile corr mmr leverage vol now
        (Some (fun x => record_execution_levels [x])) rules w).1
  | c_amend cid q p rules : en_call w (in_engine (on_order_manager (execute_amend cid q p rules)) w).1
  | c_cancel cid : en_call w (in_engine (on_order_manager (execute_cancel cid)) w).1
  | c_cancel_all symbol : en_call w (in_engine (on_order_manager (cancel_all symbol)) w).1
  | c_transition t rid ctx : json_wf (JObj ctx) = true ->
      en_call w (in_engine (on_order_manager (on_esm (ExecStateMachine.transition t rid ctx))) w).1
  | c_dispatch event : en_call w (in_engine (dispatch event) w).1
  | c_deposit amount rid : en_call w (in_engine (on_portfolio_manager (PortfolioManager.deposit default_id amount rid)) w).1
  | c_levels xs : en_call w (record_execution_levels xs w).1
  | c_sync target_leverage :
      (forall fills, (ex_get_fills None (w_adapter (en_orders w.1))).2 = Ok fills -> Forall fill_ok fills) ->
      en_call w (sync target_leverage w).1
  | c_marks : en_call w (update_marks w).1.

(** Between calls the venue changes on its own. A restart builds the components
    and the accounting anew over the reopened store. *)
Inductive en_step w : W -> Prop :=
  | e_call w' : en_call w w' -> en_step w w'
  | e_venue {X} (m : M A X) : en_step w (in_engine (on_venue m) w).1
  | e_restart limits now l adapter e a : log_ok l -> log_events l = log_events (en_store w.1) ->
      wire limits now l (Ok adapter) = Ok e -> ac_init l = Ok a -> en_step w (e, a).

(** The first process, over a log without events of the components. *)
Record en_start w : Prop := {
  en_log_ok : log_ok (en_store w.1);
  en_fresh : Forall (fun x => OrderManagerSpec.foreign default_id x /\ PositionManagerSpec.foreign default_id x /\ ac_foreign x)
    (log_events (en_store w.1));
  en_wired : exists limits now, wire limits now (en_store w.1) (Ok (w_adapter (en_orders w.1))) = Ok w.1;
  en_books : ac_init (en_store w.1) = Ok w.2
}.

Lemma call_keeps I w w' : keeper True I -> en_call w w' -> I w -> I w'.
Proof.
  intros K [ |? ? ? ? ? ? ? ? ? ? Hu| | |symbol|t rid ctx Hc| |amount rid| |lev Hv| ] Hw.
  - by apply (startup_keeps True I K).
  - by apply (cycle_keeps True I K).
  - by apply (execute_amend_keeps True I K).
  - by apply (execute_cancel_keeps True I K).
  - by apply (kp_cancel_all True I K).
  - by apply (kp_transition True I K).
  - by apply (dispatch_keeps True I K).
  - apply (kp_portfolio True I K); [|done]. intros J HJ. by apply deposit_log.
  - by apply (levels_keeps True I K).
  - by apply (sync_keeps True I K).
  - by apply (marks_keeps True I K).
Qed.

(** ** Wiring *)

Lemma wire_inv limits now l (adapter : A) (e : E) : wire limits now l (Ok adapter) = Ok e ->
  ExecStateMachine.esm_init l default_id = Ok (w_esm (en_orders e)) /\ om_init l default_id = Ok (w_om (en_orders e)) /\
  PositionManager.pm_init l default_id = Ok (en_positions e) /\ en_store e = l /\ w_adapter (en_orders e) = adapter.
Proof.
  unfold wire. cbn [mbind result_bind]. destruct (ExecStateMachine.esm_init _ _) as [esm|]; [|done]. cbn.
  destruct (om_init _ _) as [om|]; [|done]. cbn. destruct (PositionManager.pm_init _ _) as [pm|]; [|done]. cbn.
  destruct (PortfolioManager.pf_init _ _ _) as [pf|]; [|done]. by intros [= <-].
Qed.

Lemma wire_eq limits now l (adapter : A) esm om pm : ExecStateMachine.esm_init l default_id = Ok esm -> om_init l default_id = Ok om ->
  PositionManager.pm_init l default_id = Ok pm ->
  wire limits now l (Ok adapter) =
    (pf ← PortfolioManager.pf_init now l default_id;
     Ok {| en_orders := {| w_store := l; w_adapter := adapter; w_esm := esm; w_om := om |}; en_positions := pm;
           en_portfolio := pf; en_limits := limits; en_started := false |}).
Proof. unfold wire. by intros -> -> ->. Qed.

(** ** The runs of the components *)

Section run.
Context (w0 : W) (Hstart : en_start w0).
Notation x0 := (en_orders w0.1).
Notation p0 := (en_store w0.1, en_positions w0.1).
Notation s0 := (en_store w0.1, w_esm (en_orders w0.1)).

Lemma start_orders : om_start default_id x0.
Proof.
  destruct Hstart as [Hl Hf (limits & now & Hw) _]. apply wire_inv in Hw as (_ & Hom & _). split; [done| |done].
  eapply Forall_impl; [exact Hf|]. by intros x (Hx & _).
Qed.
Lemma start_positions : PositionManagerSpec.pm_start default_id p0.
Proof.
  destruct Hstart as [Hl Hf (limits & now & Hw) _]. apply wire_inv in Hw as (_ & _ & Hpm & _). split; [done| |done].
  eapply Forall_impl; [exact Hf|]. by intros x (_ & Hx & _).
Qed.
Lemma start_machine : ExecStateMachineFacts.esm_ok s0 /\ ExecStateMachine.esm_machine_id s0.2 = default_id.
Proof.
  destruct Hstart as [Hl _ (limits & now & Hw) _]. apply wire_inv in Hw as (He & _).
  by apply ExecStateMachineFacts.init_ok in He.
Qed.

(** All four at once. *)
Record engine_run w : Prop := {
  er_orders : order_run x0 w.1 w.2 (en_store w.1);
  er_positions : position_run p0 w.1 w.2 (en_store w.1);
  er_machine : machine_run s0 w.1 w.2 (en_store w.1);
  er_accounting : accounting_run w.1 w.2 (en_store w.1)
}.

Lemma with_store_eq w : with_store (en_store w.1) (en_orders w.1) = en_orders w.1.
Proof. apply with_store_same. Qed.

Lemma start_run : engine_run w0.
Proof.
  pose proof (en_log_ok _ Hstart) as Hl. split; split; try done.
  - by rewrite with_store_eq.
  - destruct Hstart as [_ Hf _ Ha].
    assert (Hacc : accounted (log_events (en_store w0.1)) ac_empty).
    { apply accounted_all_foreign. eapply Forall_impl; [exact Hf|]. by intros x (_ & _ & Hx). }
    destruct (ac_read _ _ Hacc) as (m & Hm & Hml & Hmp). revert Ha. unfold ac_init. rewrite log_replay_events // /=.
    rewrite Hm. intros [= <-]. destruct Hacc as [_ Hle Hma]. split; [by exists m|by rewrite Hml|by rewrite Hmp].
Qed.

(** What the constructors make of the log of a run. *)
Lemma rebuilt_all w : engine_run w -> exists om pm a,
  ExecStateMachine.esm_init (en_store w.1) default_id = Ok (w_esm (en_orders w.1)) /\
  (om_init (en_store w.1) default_id = Ok om /\ rebuilt (w_om (en_orders w.1)) om) /\
  (PositionManager.pm_init (en_store w.1) default_id = Ok pm /\ PositionManagerFacts.rebuilt (en_positions w.1) pm) /\
  ac_init (en_store w.1) = Ok a /\ ac_levels_by_cid a = ac_levels_by_cid w.2 /\ ac_position_by_cid a = ac_position_by_cid w.2.
Proof.
  intros [[_ Ho] [_ Hp] [_ Hm] [Hl Ha]]. rewrite with_store_eq in Ho.
  destruct (init_after _ _ _ start_orders Ho) as (om & Hom & Hrb).
  destruct (PositionManagerSpec.pm_init_after _ _ _ start_positions Hp) as (pm & Hpm & Hrp).
  destruct (ac_init_accounted _ _ Hl Ha) as (a & Hac & Hal & Hap). exists om, pm, a. split_and!; try done.
  destruct start_machine as [Hok Hid]. apply ExecStateMachineFacts.esm_steps_ok in Hm as (Hok' & Hid' & _); [|done].
  cbn [snd] in Hid, Hid'. rewrite -Hid -Hid'. apply ExecStateMachineFacts.init_of_ok; rewrite ?Hid' ?Hid //.
Qed.

Lemma esm_init_same l l' mid : log_ok l -> log_ok l' -> log_events l' = log_events l ->
  ExecStateMachine.esm_init l' mid = ExecStateMachine.esm_init l mid.
Proof. intros Hl Hl' E. unfold ExecStateMachine.esm_init. by rewrite !log_replay_events // E. Qed.

Lemma restart_run w limits now l (adapter : A) (e : E) a : engine_run w -> log_ok l -> log_events l = log_events (en_store w.1) ->
  wire limits now l (Ok adapter) = Ok e -> ac_init l = Ok a -> engine_run (e, a).
Proof.
  intros Hrun Hl He Hw Ha. destruct (rebuilt_all w Hrun) as (_ & _ & _ & Hesm & _).
  destruct Hrun as [[Hl0 Ho] [_ Hp] [_ Hm] [_ Hacc]]. rewrite with_store_eq in Ho.
  apply wire_inv in Hw as (Hesm' & Hom & Hpm & Hst & _). rewrite (esm_init_same _ _ _ Hl0 Hl He) Hesm in Hesm'.
  injection Hesm' as Hsame. split; cbn [fst snd]; rewrite Hst; (split; [done|]).
  - rewrite -Hst with_store_same. eapply rtc_r; [eapply rtc_r; [exact Ho|]|].
    + apply (s_other default_id _ {| w_store := l; w_adapter := adapter; w_esm := w_esm (en_orders w.1); w_om := w_om (en_orders w.1) |});
        [done|done|by left].
    + by apply s_restart; [rewrite -Hst|].
  - eapply rtc_r; [eapply rtc_r; [exact Hp|]|].
    + by apply (PositionManagerSpec.s_other default_id (en_store w.1, en_positions w.1) l); [|left].
    + by apply PositionManagerSpec.s_restart.
  - rewrite -Hsame. eapply rtc_r; [exact Hm|]. apply (ExecStateMachineFacts.esm_other _ l _ []); [done|by rewrite app_nil_r|done].
  - rewrite He. destruct Hacc as [(m & Hm' & Hml & Hmp) Hle Hma]. revert Ha. unfold ac_init. rewrite log_replay_events // He /= Hm'.
    intros [= <-]. split; [by exists m|by rewrite Hml|by rewrite Hmp].
Qed.

Lemma step_run w w' : en_step w w' -> engine_run w -> engine_run w'.
Proof.
  intros [w1 Hc|X m|limits now l adapter e a Hl He Hw Ha] Hrun; [..|by eapply restart_run]; destruct Hrun as [Ho Hp Hm Ha].
  - split.
    + by apply (call_keeps _ _ _ (order_keeper _ start_orders) Hc).
    + by apply (call_keeps _ _ _ (position_keeper _ start_positions) Hc).
    + by apply (call_keeps _ _ _ (machine_keeper _ (proj1 start_machine) (proj2 start_machine) True) Hc).
    + by apply (call_keeps _ _ _ (accounting_keeper True) Hc).
  - split.
    + by apply (kp_venue _ _ (order_keeper _ start_orders)).
    + by apply (kp_venue _ _ (position_keeper _ start_positions)).
    + by apply (kp_venue _ _ (machine_keeper _ (proj1 start_machine) (proj2 start_machine) True)).
    + by apply (kp_venue _ _ (accounting_keeper True)).
Qed.

Lemma steps_run w w' : rtc en_step w w' -> engine_run w -> engine_run w'.
Proof. induction 1 as [|w w1 w2 Hs _ IH]; [done|]. intros Hw. by eapply IH, step_run. Qed.
End run.

(** C1: a restart rebuilds the whole engine. After any sequence of cycles,
    startups, notifications, cancellations, transitions of the execution state,
    bookings of fills, marks, deposits and earlier restarts, with the failures of every one of them, wiring the components
    over the log can fail only in the portfolio manager's constructor. What it
    wires has the live execution state, the live orders (so the same orders in
    doubt), the live positions with their closed legs; and the accounting built
    over the same log has the live maps of orders to levels and positions. *)
Theorem engine_restart w0 w limits now (adapter : A) : en_start w0 -> rtc en_step w0 w ->
  exists om pm a,
    wire limits now (en_store w.1) (Ok adapter) =
      (pf ← PortfolioManager.pf_init now (en_store w.1) default_id;
       Ok {| en_orders := {| w_store := en_store w.1; w_adapter := adapter; w_esm := w_esm (en_orders w.1); w_om := om |};
             en_positions := pm; en_portfolio := pf; en_limits := limits; en_started := false |}) /\
    om_snapshots om = om_snapshots (w_om (en_orders w.1)) /\
    in_doubt_client_order_ids om = in_doubt_client_order_ids (w_om (en_orders w.1)) /\
    PositionManager.pm_snapshots pm = PositionManager.pm_snapshots (en_positions w.1) /\
    PositionManager.pm_closed_legs pm = PositionManager.pm_closed_legs (en_positions w.1) /\
    ac_init (en_store w.1) = Ok a /\
    ac_levels_by_cid a = ac_levels_by_cid w.2 /\ ac_position_by_cid a = ac_position_by_cid w.2.
Proof.
  intros Hs Hr. destruct (rebuilt_all w0 Hs w (steps_run w0 Hs _ _ Hr (start_run w0 Hs)))
    as (om & pm & a & Hesm & (Hom & Hrb) & (Hpm & Hrp) & Ha & Hal & Hap).
  exists om, pm, a. unfold in_doubt_client_order_ids. rewrite (rb_snapshots _ _ Hrb).
  rewrite (PositionManagerFacts.rb_snapshots _ _ Hrp) (PositionManagerFacts.rb_legs _ _ Hrp).
  split_and!; try done. by apply wire_eq.
Qed.
End engine.

(** ** A concrete engine

    Over the list-based log and the in-memory exchange: a deposit, a cycle that
    buys, the booking of its fill, a cycle that sells, a partial fill of the
    exit and its booking, and the marks after each. *)

Notation SampleVenue := (ExchangeAdapter MockExchange.MockExchange).
Notation SampleWorld := (Engine MemLog SampleVenue * Accounting)%type.

Definition sample_btc : Symbol := {| sym_value := "BTC" |}.
Definition sample_log : MemLog := {| ml_events := []; ml_outcomes := repeat (Committed "10:00") 100 |}.

(** The market moves; the exchange fills an order. *)
Definition market (price : Z) : M SampleVenue unit := MockExchange.query (modify (fun s =>
  MockExchange.set_funding_rate {| fr_symbol := sample_btc; fr_rate := d0; fr_next_funding_time_utc := "11:00"; fr_timestamp_utc := "10:00" |}
    (MockExchange.set_mark_price {| mp_symbol := sample_btc; mp_price := dint price; mp_timestamp_utc := "10:00" |} s))).
Definition venue_fill (order : string) (quantity price : Z) : M SampleVenue unit :=
  MockExchange.query (_ ← MockExchange.simulate_fill order (dint quantity) (dint price); mret tt).

Definition buy_strategy : Strategy (A := SampleVenue) := fun _ => mret [(1, sample_intent "BTC" None)].
Definition sell_strategy : Strategy (A := SampleVenue) := fun _ => mret [(2,
  {| ti_symbol := sample_btc; ti_side := OrderSide.SELL; ti_order_type := OrderType.LIMIT;
     ti_time_in_force := TimeInForce.GTC; ti_reduce_only := true; ti_stop_price := dint 105; ti_conviction := None;
     ti_limit_price := None; ti_t1_price := None; ti_t2_price := None |})].

Definition sample_cycle (strategy : Strategy) : M SampleWorld CycleResult :=
  run_cycle clock [strategy] [sample_btc] risk_profile {| ci_entries := []; ci_as_of_utc := "10:00" |} (Dec 1 (-2)) d1 [] "10:01"
    (Some (fun x => record_execution_levels [x])) None.

Definition sample_engine : Engine MemLog SampleVenue :=
  {| en_orders := {| w_store := sample_log; w_adapter := MockExchange.mock_sample;
       w_esm := {| ExecStateMachine.esm_machine_id := default_id; ExecStateMachine.esm_current_state := ExecStateMachine.State.INITIALIZING |};
       w_om := om_empty default_id |};
     en_positions := PositionManager.pm_empty; en_portfolio := PortfolioManager.pf_empty "10:00"; en_limits := risk_limits;
     en_started := false |}.

Definition at_start : SampleWorld := (sample_engine, ac_empty).
Definition at_deposit : SampleWorld :=
  (in_engine (on_portfolio_manager (PortfolioManager.deposit default_id (dint 1000) "d1")) at_start).1.
Definition at_market : SampleWorld := (in_engine (on_venue (market 100)) at_deposit).1.
Definition at_bought : SampleWorld := (sample_cycle buy_strategy at_market).1.
Definition at_filled : SampleWorld := (in_engine (on_venue (venue_fill "mock-order-1" 2 100)) at_bought).1.
Definition at_entry : SampleWorld := (sync d1 at_filled).1.
Definition at_marked : SampleWorld := (update_marks at_entry).1.
Definition at_sold : SampleWorld := (sample_cycle sell_strategy at_marked).1.
Definition at_partial : SampleWorld := (in_engine (on_venue (venue_fill "mock-order-2" 1 110)) at_sold).1.
Definition at_exit : SampleWorld := (sync d1 at_partial).1.
Definition at_moved : SampleWorld := (in_engine (on_venue (market 110)) at_exit).1.
Definition at_end : SampleWorld := (update_marks at_moved).1.

Definition exposure_of (w : SampleWorld) : decimal := PortfolioManager.pf_exposure (PortfolioManager._snapshot (en_portfolio w.1)).

(** ** Its run *)

Lemma sample_engine_start : en_start at_start.
Proof.
  split; [| |exists risk_limits, "10:00"|].
  - split; [|done]. by repeat constructor.
  - constructor.
  - by vm_compute.
  - by vm_compute.
Qed.

Ltac booked_fills := let fills := fresh in let E := fresh in
  intros fills E; vm_compute in E; injection E as <-; repeat constructor.

Lemma sample_steps : rtc en_step at_start at_end.
Proof.
  assert (Hu : Forall (fun u => blank (sym_value u) = false) [sample_btc]) by (by repeat constructor).
  refine (rtc_l _ _ at_deposit _ (e_call _ _ (c_deposit at_start _ _)) _).
  refine (rtc_l _ _ at_market _ (e_venue at_deposit _) _).
  refine (rtc_l _ _ at_bought _ (e_call _ _ (c_cycle at_market _ _ _ _ _ _ _ _ _ _ Hu)) _).
  refine (rtc_l _ _ at_filled _ (e_venue at_bought _) _).
  refine (rtc_l _ _ at_entry _ (e_call _ _ (c_sync at_filled d1 _)) _); [booked_fills|].
  refine (rtc_l _ _ at_marked _ (e_call _ _ (c_marks at_entry)) _).
  refine (rtc_l _ _ at_sold _ (e_call _ _ (c_cycle at_marked _ _ _ _ _ _ _ _ _ _ Hu)) _).
  refine (rtc_l _ _ at_partial _ (e_venue at_sold _) _).
  refine (rtc_l _ _ at_exit _ (e_call _ _ (c_sync at_partial d1 _)) _); [booked_fills|].
  refine (rtc_l _ _ at_moved _ (e_venue at_exit _) _).
  exact (rtc_once _ _ (e_call _ _ (c_marks at_moved))).
Qed.

Lemma engine_restart_witness :
  exists om pm a,
    wire risk_limits "10:01" (en_store at_end.1) (Ok MockExchange.mock_sample) =
      (pf ← PortfolioManager.pf_init "10:01" (en_store at_end.1) default_id;
       Ok {| en_orders := {| w_store := en_store at_end.1; w_adapter := MockExchange.mock_sample; w_esm := w_esm (en_orders at_end.1);
               w_om := om |};
             en_positions := pm; en_portfolio := pf; en_limits := risk_limits; en_started := false |}) /\
    om_snapshots om = om_snapshots (w_om (en_orders at_end.1)) /\
    PositionManager.pm_snapshots pm = PositionManager.pm_snapshots (en_positions at_end.1) /\
    ac_init (en_store at_end.1) = Ok a /\ ac_position_by_cid a = ac_position_by_cid at_end.2.
Proof.
  destruct (engine_restart at_start at_end risk_limits "10:01" MockExchange.mock_sample sample_engine_start sample_steps)
    as (om & pm & a & Hw & Ho & _ & Hp & _ & Ha & _ & Hm).
  exists om, pm, a. exact (conj Hw (conj Ho (conj Hp (conj Ha Hm)))).
Defined.

Lemma cycle_executes_approved_witness :
  match sample_cycle buy_strategy at_market with
  | (_, Ok r) => cr_approved (cy_construction r) <> [] /\
      exists (a a' : SampleVenue) (orders : list Order), ve_get_orders a = (a', Ok orders) /\
        Forall2 executes (cr_approved (cy_construction r)) (cy_executions r) /\
        cy_suppressed_by_open_orders r = List.filter (suppressed (live_order_keys orders)) (cy_intents r)
  | (_, Err _) => False
  end.
Proof.
  destruct (sample_cycle buy_strategy at_market) as [w' [r|e]] eqn:E.
  - split.
    + intros Hn. apply (f_equal (fun x => match x.2 with Ok r => length (cr_approved (cy_construction r)) | Err _ => O end)) in E.
      cbn [snd] in E. rewrite Hn in E. vm_compute in E. discriminate E.
    + destruct (cycle_executes_approved _ _ _ _ _ _ _ _ _ _ _ _ _ _ E) as (a & a' & orders & Ho & Hx & _ & Hs).
      exists a, a', orders. exact (conj Ho (conj Hx Hs)).
  - apply (f_equal (fun x => is_ok x.2)) in E. vm_compute in E. discriminate E.
Defined.

(** An exit in progress doubles the marks. The map from orders to positions
    gives the exit order the position its entry has, and [update_marks] adds a
    position once per order: after a partial fill of the exit, one unit of the
    two sold, the exposure it records is twice the position's. *)
Lemma partial_exit_marked_twice :
  ac_position_by_cid at_end.2 = [("om:default:1:place", "pm:default:1:position"); ("om:default:2:place", "pm:default:1:position")] /\
  map (fun x => (x.1, ps_remaining_quantity x.2)) (PositionManager.pm_snapshots (en_positions at_end.1)) =
    [("pm:default:1:position", dint 2)] /\
  exposure_of at_marked = dmul (dint 2) (dint 100) /\
  exposure_of at_end = dadd (dmul (dint 2) (dint 110)) (dmul (dint 2) (dint 110)).
Proof. vm_compute. split_and!; reflexivity. Qed.
