(* ===== verification/PyLines.v ===== *)
(** * JSON records in a text file

    A record cut off anywhere before its end is not a record, and the lines of a
    text file are read back as they were written; [Module Csv]: the module [csv] on
    top of lines. *)

From Stdlib Require Import ssreflect ZArith Lia Ascii String.
From stdpp Require Import base strings numbers gmap sets list.
From S2P Require Import Prelude PyText PyDict PyJson PyJsonFacts.
#[local] Open Scope Z_scope.

(** ** Torn records *)

(** [s] is [t] without some of its end. *)
Definition cut (s t : string) : Prop := exists u, u <> "" /\ t = s +:+ u.

Lemma cut_app s a b : cut s (a +:+ b) -> cut s a \/ exists s', s = a +:+ s' /\ cut s' b.
Proof.
  revert s; induction a as [|c a IH]; intros s (u & Hu & E); [right; exists s; split; [done|by exists u]|].
  destruct s as [|c' s]; [left; by exists (String c a)|]. rewrite !app_cons_s in E. injection E as <- E.
  destruct (IH s) as [(v & Hv & ->)|(s' & -> & Hs')]; [by exists u|left; by exists v|right; by exists s'].
Qed.

Lemma cut_cons s c t : cut s (String c t) -> s = "" \/ exists s', s = String c s' /\ cut s' t.
Proof.
  intros (u & Hu & E). destruct s as [|c' s]; [by left|right]. rewrite app_cons_s in E. injection E as <- ->.
  exists s. split; [done|by exists u].
Qed.

Lemma cut_nil s : ~ cut s "".
Proof. intros (u & Hu & E). by destruct s, u. Qed.

Lemma cut_one s c : cut s (String c "") -> s = "".
Proof. intros [->|(s' & -> & []%cut_nil)]%cut_cons. done. Qed.

Lemma cut_forall p s t : cut s t -> str_forall p t = true -> str_forall p s = true.
Proof. intros (u & _ & ->). rewrite str_forall_app. by intros [? _]%andb_true_iff. Qed.

Lemma cut_length s t : cut s t -> (String.length s < String.length t)%nat.
Proof. intros (u & Hu & ->). rewrite length_app_s. destruct u; [done|simpl; lia]. Qed.

(** ** String literals *)

(** The cuts of a text of six characters at most. *)
Ltac cuts H := repeat (apply cut_cons in H as [->|(? & -> & H)]; [try done|]); try by apply cut_nil in H.

Lemma pstring_char_cut fuel c s : cut s (esc_char c) -> pstring fuel s = None.
Proof.
  intros Hs. destruct fuel as [|fuel]; [by destruct s|].
  destruct c as [[] [] [] [] [] [] [] []]; vm_compute esc_char in Hs; cuts Hs; reflexivity.
Qed.

Lemma pstring_cut k s fuel : cut s (esc k +:+ String (chr 34) "") -> pstring fuel s = None.
Proof.
  revert s fuel; induction k as [|c k IH]; intros s fuel Hs.
  - apply cut_one in Hs as ->. by destruct fuel.
  - cbn [esc] in Hs. rewrite app_assoc_s in Hs. apply cut_app in Hs as [Hs|(s' & -> & Hs)]; [by eapply pstring_char_cut|].
    destruct fuel as [|fuel]; [by destruct (esc_char c +:+ s')|]. by rewrite pstring_esc_char IH.
Qed.

(** ** Values *)

(** Nothing is read, or all of it. *)
Definition short {X} (r : option (X * string)) : Prop := match r with Some (_, rest) => rest = "" | None => True end.

Lemma span_digits_all s : str_forall is_digit s = true -> span_digits s = (s, "").
Proof. intros Hs. rewrite -(app_nil_r_s s) span_digits_app // app_nil_r_s //. Qed.

Lemma pint_cut z s : cut s (int_str z) -> short (pint s).
Proof.
  intros Hs. unfold pint.
  assert (Hd : str_forall is_digit (match s with String "-" s => s | _ => s end) = true).
  { unfold int_str in Hs. destruct (Z.ltb_spec z 0) as [Hz|Hz].
    - apply cut_cons in Hs as [->|(s' & -> & Hs)]; [done|]. eapply cut_forall; [exact Hs|]. apply nat_str_digits. lia.
    - pose proof (cut_forall _ _ _ Hs (nat_str_digits z Hz)) as Hd. destruct s as [|c s]; [done|].
      destruct c as [[] [] [] [] [] [] [] []]; try exact Hd. cbn in Hd. done. }
  destruct (match s with String "-" s => (true, s) | _ => (false, s) end) as [neg s'] eqn:E.
  assert (Hs' : str_forall is_digit s' = true).
  { destruct s as [|c s]; [by injection E as <- <-|]. revert E Hd. destruct c as [[] [] [] [] [] [] [] []]; by intros [= <- <-]. }
  rewrite span_digits_all //. by destruct (int_literal s').
Qed.

Section torn.
Context (sp : string) (Hsp : str_forall json_space sp = true).
Notation dumps := (dumps_with sp).
Notation sep := ("," +:+ sp).

Definition torn (j : json) : Prop := forall fuel s, cut s (dumps j) -> (2 * String.length s <= fuel)%nat ->
  match j with JInt _ => short (pval fuel s) | _ => pval fuel s = None end.

Lemma torn_short j fuel s : torn j -> cut s (dumps j) -> (2 * String.length s <= fuel)%nat -> short (pval fuel s).
Proof. intros Hj Hs Hf. specialize (Hj fuel s Hs Hf). destruct j; by rewrite ?Hj. Qed.

Lemma pval_nil fuel : pval fuel "" = None.
Proof. by destruct fuel. Qed.
Lemma pelems_nil fuel : pelems fuel "" = None.
Proof. destruct fuel as [|fuel]; [done|]. cbn [pelems]. by rewrite pval_nil. Qed.
Lemma pval_blanks fuel s : str_forall json_space s = true -> pval fuel s = None.
Proof. intros Hs. rewrite -(app_nil_r_s s) pval_skip //. apply pval_nil. Qed.
Lemma pelems_blanks fuel s : str_forall json_space s = true -> pelems fuel s = None.
Proof. intros Hs. rewrite -(app_nil_r_s s) pelems_skip //. apply pelems_nil. Qed.
Lemma pmembers_blanks fuel s acc : str_forall json_space s = true -> pmembers fuel s acc = None.
Proof. intros Hs. rewrite -(app_nil_r_s s) pmembers_skip //. by destruct fuel. Qed.

Lemma short_closes {X} n (r : option (X * string)) v rest : short r -> r = Some (v, rest) -> next n (skip_ws rest) = None.
Proof. intros Hr ->. cbn in Hr. by subst rest. Qed.

(** After a value that was read whole, or the text ended. *)
Lemma pelems_cut l : Forall (parses sp) l -> Forall torn l -> l <> [] -> forall fuel s,
  (2 * String.length s + 1 <= fuel)%nat -> cut s (join sep (map dumps l) +:+ "]") -> pelems fuel s = None.
Proof.
  intros Hp. induction Hp as [|x l Hx Hl IH]; [done|]. intros [Htx Ht]%Forall_cons _ [|fuel] s Hf Hs; [lia|]. cbn [pelems].
  assert (E : exists r, join sep (map dumps (x :: l)) +:+ "]" = dumps x +:+ r /\
    (l = [] /\ r = "]" \/ l <> [] /\ r = String "," (sp +:+ join sep (map dumps l) +:+ "]"))).
  { cbn [map join]. destruct l as [|y l]; [exists "]"; split; [done|by left]|].
    eexists. rewrite !app_assoc_s. split; [done|right]. by rewrite app_cons_s app_nil_l_s. }
  destruct E as (r & Er & Hr). rewrite Er in Hs. apply cut_app in Hs as [Hs|(s' & -> & Hs)].
  - pose proof (torn_short x fuel s Htx Hs ltac:(lia)) as Hshort. destruct (pval fuel s) as [[v rest]|]; [|done].
    cbn in Hshort. by subst rest.
  - rewrite length_app_s in Hf.
    assert (Hd : delim s').
    { destruct Hr as [[_ ->]|[_ ->]]; apply cut_cons in Hs as [->|(s2 & -> & _)]; [done|by right; left|done|by left]. }
    rewrite Hx; [lia|done|]. cbn [mbind option_bind].
    destruct Hr as [[_ ->]|[Hne ->]]; [by apply cut_one in Hs as ->|].
    apply cut_cons in Hs as [->|(s2 & -> & Hs)]; [done|]. rewrite next_comma.
    apply cut_app in Hs as [Hs|(s3 & -> & Hs)].
    + rewrite pelems_blanks //. by eapply cut_forall.
    + rewrite pelems_skip // IH //. cbn [String.length] in Hf. rewrite length_app_s in Hf. lia.
Qed.

Definition read_member (fuel : nat) (s : string) : option (string * json * string) :=
  r ← next 34 (skip_ws s);
  '(k, r) ← pstring (S (String.length r)) r;
  r ← next 58 (skip_ws r);
  '(x, r) ← pval fuel r; Some (k, x, r).

Lemma pmembers_read fuel s acc : pmembers (S fuel) s acc =
  match read_member fuel s with
  | Some (k, x, r) => match next 44 (skip_ws r) with
                      | Some r => pmembers fuel r (dset k x acc)
                      | None => r ← next 125 (skip_ws r); Some (dset k x acc, r)
                      end
  | None => None
  end.
Proof.
  unfold read_member. cbn [pmembers]. destruct (next 34 _) as [r|]; [|done]. cbn [mbind option_bind].
  destruct (pstring _ r) as [[k r1]|]; [|done]. cbn [mbind option_bind]. destruct (next 58 _) as [r2|]; [|done].
  cbn [mbind option_bind]. by destruct (pval fuel r2) as [[x r3]|].
Qed.

Lemma read_member_cut fuel k v s : torn v -> cut s (member_text sp (k, v)) -> (2 * String.length s <= fuel)%nat ->
  short (read_member fuel s).
Proof.
  intros Hv Hs Hf. unfold member_text, quote in Hs. cbn [fst snd] in Hs. rewrite app_cons_s in Hs.
  apply cut_cons in Hs as [->|(s1 & -> & Hs)]; [done|]. unfold read_member. cbn [skip_ws].
  change (json_space (chr 34)) with false. cbv iota. cbn [next]. change (N_of_ascii (chr 34) =? 34)%N with true. cbv iota.
  cbn [mbind option_bind]. apply cut_app in Hs as [Hs|(s2 & -> & Hs)]; [by rewrite (pstring_cut k)|].
  rewrite app_assoc_s app_cons_s app_nil_l_s pstring_quote. cbn [mbind option_bind].
  apply cut_cons in Hs as [->|(s3 & -> & Hs)]; [done|]. rewrite next_colon. cbn [mbind option_bind].
  apply cut_app in Hs as [Hs|(s4 & -> & Hs)].
  - rewrite (pval_blanks fuel s3) //. by eapply cut_forall.
  - rewrite pval_skip //. assert (Hl : (2 * String.length s4 <= fuel)%nat).
    { cbn [String.length] in Hf. rewrite !length_app_s in Hf. cbn [String.length] in Hf. rewrite length_app_s in Hf. lia. }
    pose proof (torn_short v fuel s4 Hv Hs Hl) as Hshort. destruct (pval fuel s4) as [[x r]|]; [|done]. exact Hshort.
Qed.

Lemma pmembers_cut o : Forall (fun p => parses sp p.2) o -> Forall (fun p => torn p.2) o -> o <> [] -> forall fuel s acc,
  (2 * String.length s + 1 <= fuel)%nat -> cut s (join sep (map (member_text sp) o) +:+ "}") -> pmembers fuel s acc = None.
Proof.
  intros Hp. induction Hp as [|[k v] o Hx Hl IH]; [done|]. intros [Htx Ht]%Forall_cons _ [|fuel] s acc Hf Hs; [lia|].
  rewrite pmembers_read. cbn [fst snd] in Hx, Htx.
  assert (E : exists r, join sep (map (member_text sp) ((k, v) :: o)) +:+ "}" = member_text sp (k, v) +:+ r /\
    (o = [] /\ r = "}" \/ o <> [] /\ r = String "," (sp +:+ join sep (map (member_text sp) o) +:+ "}"))).
  { cbn [map join]. destruct o as [|q o]; [exists "}"; split; [done|by left]|].
    eexists. rewrite !app_assoc_s. split; [done|right]. by rewrite app_cons_s app_nil_l_s. }
  destruct E as (r & Er & Hr). rewrite Er in Hs. apply cut_app in Hs as [Hs|(s' & -> & Hs)].
  - pose proof (read_member_cut fuel k v s Htx Hs ltac:(lia)) as Hshort.
    destruct (read_member fuel s) as [[[k' x] rest]|]; [|done]. cbn in Hshort. by subst rest.
  - rewrite length_app_s in Hf.
    assert (Hd : delim s').
    { destruct Hr as [[_ ->]|[_ ->]]; apply cut_cons in Hs as [->|(s2 & -> & _)]; [done|by right; right|done|by left]. }
    pose proof (member_value sp Hsp fuel k v s' Hx Hd ltac:(lia)) as Hm. unfold read_member. rewrite Hm.
    destruct Hr as [[_ ->]|[Hne ->]]; [by apply cut_one in Hs as ->|].
    apply cut_cons in Hs as [->|(s2 & -> & Hs)]; [done|]. rewrite next_comma.
    apply cut_app in Hs as [Hs|(s3 & -> & Hs)].
    + rewrite pmembers_blanks //. by eapply cut_forall.
    + rewrite pmembers_skip // IH //. cbn [String.length] in Hf. rewrite length_app_s in Hf. lia.
Qed.

(** The first character of a cut text. *)
Lemma cut_head s t c u : cut s t -> t = String c u -> s = "" \/ exists s', s = String c s'.
Proof. intros Hs ->. apply cut_cons in Hs as [->|(s' & -> & _)]; [by left|right]. by exists s'. Qed.

Lemma dumps_torn j : json_wf j = true -> torn j.
Proof.
  induction j as [|b|z|k|l IH|o IH] using json_ind'; intros Hwf fuel s Hs Hf;
    (destruct fuel as [|fuel]; [by destruct s|]).
  - vm_compute in Hs. cuts Hs.
  - destruct b; vm_compute in Hs; cuts Hs.
  - cbn [dumps_with] in Hs. pose proof (pint_cut z s Hs) as Hshort. destruct (int_str_head z) as (c & u & E & Hc).
    rewrite E in Hs. apply cut_cons in Hs as [->|(s' & -> & _)]; [done|]. rewrite pval_num //.
    by destruct (pint _) as [[]|].
  - cbn [dumps_with] in Hs. unfold quote in Hs. apply cut_cons in Hs as [->|(s' & -> & Hs)]; [done|].
    change (pval (S fuel) (String (chr 34) s')) with ('(x, r) ← pstring (S (String.length s')) s'; Some (JStr x, r)).
    by rewrite (pstring_cut k).
  - cbn [dumps_with json_wf] in *. apply cut_cons in Hs as [->|(s' & -> & Hs)]; [done|]. cbn [String.length] in Hf.
    change (String "[" s') with ("[" +:+ s'). rewrite pval_open_list. unfold open_list.
    destruct l as [|x l]; [apply cut_one in Hs as ->; cbn [next skip_ws]; by rewrite pelems_nil|].
    assert (Hw : Forall (fun x => json_wf x = true) (x :: l)) by (by apply Forall_forall; intros y Hy%list_elem_of_In; eapply forallb_forall in Hwf).
    destruct (dumps_head sp x (match map dumps l with [] => "" | _ => sep +:+ join sep (map dumps l) end +:+ "]"))
      as (c & u & E & Hc1 & Hc2 & Hc3).
    assert (E' : join sep (map dumps (x :: l)) +:+ "]" = String c u).
    { rewrite -E. cbn [map join]. destruct (map dumps l); by rewrite ?app_nil_l_s ?app_assoc_s. }
    assert (Hn : next 93 (skip_ws s') = None).
    { destruct (cut_head _ _ _ _ Hs E') as [->|(s2 & ->)]; [done|]. cbn [skip_ws]. by rewrite Hc1 next_ne. }
    rewrite Hn (pelems_cut (x :: l)) //.
    + eapply Forall_impl; [exact Hw|]. intros y Hy. by apply dumps_parses.
    + rewrite Forall_forall in IH. rewrite Forall_forall in Hw. apply Forall_forall. intros y Hy. apply IH; [done|by apply Hw].
    + lia.
  - cbn [dumps_with json_wf] in *. apply andb_true_iff in Hwf as [Hnd%bool_decide_eq_true Hwf].
    apply cut_cons in Hs as [->|(s' & -> & Hs)]; [done|]. cbn [String.length] in Hf.
    change (String "{" s') with ("{" +:+ s'). rewrite pval_open_obj. unfold open_obj.
    rewrite sort_items_map map_map in Hs. change (fun x : string * json => quote x.1 +:+ ":" +:+ sp +:+ dumps x.2) with (member_text sp) in Hs.
    assert (Hw : Forall (fun p => json_wf p.2 = true) (sort_items o)).
    { rewrite sort_items_perm. by apply Forall_forall; intros y Hy%list_elem_of_In; eapply forallb_forall in Hwf. }
    assert (Hi : Forall (fun p => json_wf p.2 = true -> torn p.2) (sort_items o)) by by rewrite sort_items_perm.
    revert Hs Hw Hi. generalize (sort_items o) as so. intros so Hs Hw Hi.
    destruct so as [|[k v] so]; [apply cut_one in Hs as ->; by destruct fuel|].
    assert (E' : exists u, join sep (map (member_text sp) ((k, v) :: so)) +:+ "}" = String (chr 34) u).
    { cbn [map join]. destruct (map (member_text sp) so); unfold member_text, quote; cbn [fst snd]; by eexists. }
    destruct E' as [u E'].
    assert (Hn : next 125 (skip_ws s') = None) by by destruct (cut_head _ _ _ _ Hs E') as [->|(s2 & ->)].
    rewrite Hn (pmembers_cut ((k, v) :: so)) //.
    + eapply Forall_impl; [exact Hw|]. intros y Hy. by apply dumps_parses.
    + rewrite Forall_forall in Hi. rewrite Forall_forall in Hw. apply Forall_forall. intros y Hy. apply Hi; [done|by apply Hw].
    + lia.
Qed.

(** What is left of a printed object after its end was lost does not parse. *)
Lemma loads_cut o s : json_wf (JObj o) = true -> cut s (dumps (JObj o)) -> loads s = Err JSONDecodeError.
Proof. intros Hwf Hs. unfold loads. by rewrite (dumps_torn (JObj o) Hwf _ s Hs); [lia|]. Qed.
End torn.

(** ** Lines of a file *)

Fixpoint lstrip (s : string) : string :=
  match s with String c s' => if is_space c then lstrip s' else s | "" => "" end.
Fixpoint rstrip (s : string) : string :=
  match s with
  | "" => ""
  | String c s' => match rstrip s' with "" => if is_space c then "" else String c "" | r => String c r end
  end.
Definition strip (s : string) : string := rstrip (lstrip s).

Definition newline : ascii := chr 10.
Definition line_end (c : ascii) : bool := (N_of_ascii c =? 10)%N || (N_of_ascii c =? 13)%N.

(** [f.readlines()] without the line ends; what follows the last one is a line,
    and the two characters of a Windows line end make an empty one more. *)
Fixpoint split_lines (s : string) : list string :=
  match s with
  | "" => [""]
  | String c s' => if line_end c then "" :: split_lines s'
                   else match split_lines s' with l :: ls => String c l :: ls | [] => [String c ""] end
  end.

(** ** Stripping *)

Lemma rstrip_prefix s : exists u, s = rstrip s +:+ u.
Proof.
  induction s as [|c s (u & Hu)]; [by exists ""|]. cbn [rstrip]. destruct (rstrip s) as [|d r].
  - destruct (is_space c); [by exists (String c s)|]. exists u. rewrite app_cons_s. by f_equal.
  - exists u. rewrite app_cons_s. by f_equal.
Qed.

Lemma cut_rstrip s t : cut s t -> cut (rstrip s) t.
Proof.
  intros (u & Hu & ->). destruct (rstrip_prefix s) as (v & Hv). exists (v +:+ u). split; [by destruct v, u|].
  by rewrite -app_assoc_s -Hv.
Qed.

Lemma rstrip_snoc s c : is_space c = false -> rstrip (s +:+ String c "") = s +:+ String c "".
Proof.
  intros Hc. induction s as [|d s IH]; [by cbn [rstrip]; rewrite app_nil_l_s; cbn [rstrip]; rewrite Hc|].
  rewrite app_cons_s. cbn [rstrip]. rewrite IH. by destruct s.
Qed.

(** A text that starts and ends visibly is not stripped. *)
Lemma strip_whole c s d : is_space c = false -> is_space d = false ->
  strip (String c (s +:+ String d "")) = String c (s +:+ String d "").
Proof.
  intros Hc Hd. unfold strip. cbn [lstrip]. rewrite Hc. by rewrite -app_cons_s rstrip_snoc.
Qed.

Lemma strip_cut c s t : is_space c = false -> cut s (String c t) -> cut (strip s) (String c t).
Proof.
  intros Hc Hs. unfold strip. apply cut_rstrip. destruct s as [|d s]; [done|]. pose proof Hs as (u & Hu & E).
  rewrite app_cons_s in E. injection E as <- E. cbn [lstrip]. by rewrite Hc.
Qed.

(** ** Lines *)

Lemma split_lines_app s t : str_forall (fun c => negb (line_end c)) s = true ->
  split_lines (s +:+ t) = match split_lines t with l :: ls => (s +:+ l) :: ls | [] => [s] end.
Proof.
  induction s as [|c s IH].
  - intros _. rewrite app_nil_l_s. destruct (split_lines t) as [|l ls] eqn:E; [|by rewrite app_nil_l_s].
    destruct t as [|c t]; [done|]. cbn [split_lines] in E. destruct (line_end c); [done|]. by destruct (split_lines t).
  - cbn [str_forall]. intros [Hc%negb_true_iff Hs]%andb_true_iff. rewrite app_cons_s. cbn [split_lines]. rewrite Hc IH //.
    by destruct (split_lines t).
Qed.

Lemma split_lines_line s t : str_forall (fun c => negb (line_end c)) s = true ->
  split_lines (s +:+ String newline t) = s :: split_lines t.
Proof. intros Hs. rewrite split_lines_app //. cbn [split_lines]. change (line_end newline) with true. cbv iota. by rewrite app_nil_r_s. Qed.

Lemma split_lines_last s : str_forall (fun c => negb (line_end c)) s = true -> split_lines s = [s].
Proof. intros Hs. pose proof (split_lines_app s "" Hs) as E. rewrite app_nil_r_s in E. rewrite E. cbn [split_lines]. by rewrite app_nil_r_s. Qed.

(** ** Printed JSON is one visible line *)

Definition printable (c : ascii) : bool := ((32 <=? N_of_ascii c) && (N_of_ascii c <=? 126))%N.

Lemma printable_line s : str_forall printable s = true -> str_forall (fun c => negb (line_end c)) s = true.
Proof.
  induction s as [|c s IH]; [done|]. cbn [str_forall]. intros [Hc Hs]%andb_true_iff. rewrite IH // andb_true_r.
  unfold printable in Hc. apply andb_true_iff in Hc as [Hc%N.leb_le _]. unfold line_end.
  apply negb_true_iff, orb_false_iff. split; apply N.eqb_neq; lia.
Qed.

Lemma quote_printable s : str_forall printable (quote s) = true.
Proof.
  assert (H : str_forall printable (esc s) = true).
  { induction s as [|c s IH]; [done|]. cbn [esc]. rewrite str_forall_app IH andb_true_r. by destruct c as [[] [] [] [] [] [] [] []]. }
  unfold quote. cbn [str_forall]. by rewrite str_forall_app H.
Qed.

Lemma int_printable z : str_forall printable (int_str z) = true.
Proof.
  assert (H : forall s, str_forall is_digit s = true -> str_forall printable s = true).
  { induction s as [|c s IH]; [done|]. cbn [str_forall]. intros [Hc Hs]%andb_true_iff. rewrite (IH Hs) andb_true_r.
    unfold is_digit, printable in *. apply andb_true_iff in Hc as [Hc%N.leb_le Hc'%N.leb_le]. apply andb_true_iff.
    split; apply N.leb_le; lia. }
  unfold int_str. destruct (Z.ltb_spec z 0); [cbn [str_forall]; apply andb_true_iff; split; [done|]|]; apply H, nat_str_digits; lia.
Qed.

Lemma dumps_printable sp j : str_forall printable sp = true -> str_forall printable (dumps_with sp j) = true.
Proof.
  intros Hsp. induction j as [|[]|z|s|l IH|o IH] using json_ind'; cbn [dumps_with]; try done.
  - apply int_printable.
  - apply quote_printable.
  - rewrite !str_forall_app. apply andb_true_iff; split; [done|]. apply andb_true_iff; split; [|done].
    apply join_forall; [by rewrite str_forall_app Hsp|]. by apply Forall_map.
  - rewrite !str_forall_app. apply andb_true_iff; split; [done|]. apply andb_true_iff; split; [|done].
    apply join_forall; [by rewrite str_forall_app Hsp|].
    rewrite sort_items_map map_map. apply Forall_map.
    rewrite sort_items_perm. eapply Forall_impl; [exact IH|]. intros [k v] Hv. cbn [fst snd] in *.
    by rewrite !str_forall_app quote_printable Hsp Hv.
Qed.

(** ** Python's [csv] (the dialect excel)

    The writer quotes what it must; the reader is the state machine of the
    module [csv] that is fed a line of the file at a time, with a mark at the end
    of each. [DictReader] and [DictWriter] are on top. The limit on the length of
    a field (131072) is not modelled. *)
Module Csv.


Definition comma : ascii := ",".
Definition dquote : ascii := chr 34.
Definition carriage_return : ascii := chr 13.

(** *** Writing *)

Definition special (c : ascii) : bool := Ascii.eqb c comma || Ascii.eqb c dquote || line_end c.

Fixpoint doubled (s : string) : string :=
  match s with
  | "" => ""
  | String c s => if Ascii.eqb c dquote then String dquote (String dquote (doubled s)) else String c (doubled s)
  end.

Definition quoted (s : string) : string := String dquote (doubled s +:+ String dquote "").

Definition csv_field (s : string) : string := if str_forall (fun c => negb (special c)) s then s else quoted s.

Fixpoint csv_fields (fields : list string) : string :=
  match fields with
  | [] => ""
  | [s] => csv_field s
  | s :: fields => csv_field s +:+ String comma (csv_fields fields)
  end.

(** [writer.writerow(fields)]: a single empty field is quoted. *)
Definition writerow (fields : list string) : string :=
  (match fields with [""] => quoted "" | _ => csv_fields fields end) +:+ String carriage_return (String newline "").

(** *** Reading *)

Inductive reader_state := START_RECORD | START_FIELD | IN_FIELD | IN_QUOTED_FIELD | QUOTE_IN_QUOTED_FIELD | EAT_CRNL.
#[global] Instance reader_state_eq_dec : EqDecision reader_state.
Proof. solve_decision. Defined.

Record reader := { rd_state : reader_state; rd_field : string; rd_fields : list string }.

Definition parse_reset : reader := {| rd_state := START_RECORD; rd_field := ""; rd_fields := [] |}.
Definition goto (s : reader_state) (r : reader) : reader := {| rd_state := s; rd_field := rd_field r; rd_fields := rd_fields r |}.
Definition add_char (c : ascii) (s : reader_state) (r : reader) : reader :=
  {| rd_state := s; rd_field := rd_field r +:+ String c ""; rd_fields := rd_fields r |}.
Definition save_field (s : reader_state) (r : reader) : reader :=
  {| rd_state := s; rd_field := ""; rd_fields := rd_fields r ++ [rd_field r] |}.

(** The end of the line, [None], or one of its characters. *)
Definition at_end (c : option ascii) : bool := match c with None => true | Some c => line_end c end.
Definition after_end (c : option ascii) : reader_state := match c with None => START_RECORD | Some _ => EAT_CRNL end.
Definition is_char (d : ascii) (c : option ascii) : bool := match c with Some c => Ascii.eqb c d | None => false end.
Definition plus_char (c : option ascii) (s : reader_state) (r : reader) : reader :=
  match c with Some c => add_char c s r | None => r end.

Definition start_field (c : option ascii) (r : reader) : reader :=
  if at_end c then save_field (after_end c) r else
  if is_char dquote c then goto IN_QUOTED_FIELD r else
  if is_char comma c then save_field START_FIELD r else
  plus_char c IN_FIELD r.

Definition process_char (c : option ascii) (r : reader) : result reader :=
  match rd_state r with
  | START_RECORD => Ok (match c with
                        | None => r
                        | Some a => if line_end a then goto EAT_CRNL r else start_field c r
                        end)
  | START_FIELD => Ok (start_field c r)
  | IN_FIELD =>
      Ok (if at_end c then save_field (after_end c) r else
          if is_char comma c then save_field START_FIELD r else
          plus_char c IN_FIELD r)
  | IN_QUOTED_FIELD => Ok (if is_char dquote c then goto QUOTE_IN_QUOTED_FIELD r else plus_char c IN_QUOTED_FIELD r)
  | QUOTE_IN_QUOTED_FIELD =>
      Ok (if is_char dquote c then plus_char c IN_QUOTED_FIELD r else
          if is_char comma c then save_field START_FIELD r else
          if at_end c then save_field (after_end c) r else
          plus_char c IN_FIELD r)
  | EAT_CRNL =>
      match c with
      | None => Ok (goto START_RECORD r)
      | Some a => if line_end a then Ok r else Err CsvError
      end
  end.

(** Whether a line of the file ends after [c], which [s] follows: at every line
    feed; for a file opened with [newline=""] at every carriage return that no
    line feed follows, too. *)
Definition line_break (universal : bool) (c : ascii) (s : string) : bool :=
  Ascii.eqb c newline ||
  universal && Ascii.eqb c carriage_return && negb (match s with String d _ => Ascii.eqb d newline | "" => false end).

(** The end of the file inside a record. *)
Definition finish (r : reader) : list (result (list string)) :=
  if negb (String.eqb (rd_field r) "") || (match rd_state r with IN_QUOTED_FIELD => true | _ => false end)
  then [Ok (rd_fields r ++ [rd_field r])] else [].

Section scan.
Context (universal : bool).

(** The records of a file in order; [midline] when the last line is not ended.
    An error ends them. *)
Fixpoint csv_scan (r : reader) (midline : bool) (s : string) : list (result (list string)) :=
  match s with
  | "" =>
      if midline then
        match process_char None r with
        | Err e => [Err e]
        | Ok r => match rd_state r with START_RECORD => [Ok (rd_fields r)] | _ => finish r end
        end
      else finish r
  | String c s =>
      match process_char (Some c) r with
      | Err e => [Err e]
      | Ok r =>
          if line_break universal c s then
            match process_char None r with
            | Err e => [Err e]
            | Ok r => match rd_state r with
                      | START_RECORD => Ok (rd_fields r) :: csv_scan parse_reset false s
                      | _ => csv_scan r false s
                      end
            end
          else csv_scan r true s
      end
  end.

Definition csv_records (s : string) : list (result (list string)) := csv_scan parse_reset false s.
End scan.

Example csv_ex :
  let q := String dquote "" in
  (csv_records true ("a,b" +:+ String newline ("1," +:+ q +:+ "x" +:+ q +:+ q +:+ "," +:+ String newline ("y" +:+ q +:+ String newline (String newline "2,"))))
   = [Ok ["a"; "b"]; Ok ["1"; "x" +:+ q +:+ "," +:+ String newline "y"]; Ok []; Ok ["2"; ""]]) /\
  csv_records false ("a" +:+ String carriage_return "b") = [Err CsvError] /\
  csv_records true ("a" +:+ String carriage_return "b") = [Ok ["a"]; Ok ["b"]].
Proof. vm_compute. done. Qed.

(** *** [DictReader] *)

(** The values of a row by the names of the header; what is missing is [None],
    what is beyond the header is under no name. *)
Definition dict_row (fieldnames row : list string) : list (string * option string) :=
  foldl (fun d k => dset k None d)
    (foldl (fun d p => dset p.1 (Some p.2) d) [] (zip fieldnames row)) (drop (length row) fieldnames).

(** [reader.fieldnames] *)
Definition fieldnames (records : list (result (list string))) : result (option (list string)) :=
  match records with [] => Ok None | Ok names :: _ => Ok (Some names) | Err e :: _ => Err e end.

Definition empty_row (record : result (list string)) : bool := match record with Ok [] => true | _ => false end.

(** The rows after the header; empty lines are skipped. *)
Definition dict_rows (records : list (result (list string))) : list (result (list (string * option string))) :=
  match records with
  | Ok names :: rest => map (fun r => row ← r; Ok (dict_row names row)) (List.filter (fun r => negb (empty_row r)) rest)
  | Err e :: _ => [Err e]
  | [] => []
  end.

(** *** [DictWriter] *)

(** [writer.writerow(rowdict)]: the fields in the order of the header. *)
Definition dict_writerow (names : list string) (row : list (string * string)) : result string :=
  if forallb (fun k => existsb (String.eqb k) names) (dkeys row)
  then Ok (writerow (map (fun k => default "" (dget k row)) names))
  else Err ValueError.

(** *** What is written is read back *)

Section roundtrip.
Context (universal : bool).
Notation scan := (csv_scan universal).

(** Away from the end of the text it does not matter whether a line has begun. *)
Lemma scan_midline r b b' c s : scan r b (String c s) = scan r b' (String c s).
Proof. reflexivity. Qed.

Definition field_added (t : string) (s : reader_state) (r : reader) : reader :=
  {| rd_state := s; rd_field := rd_field r +:+ t; rd_fields := rd_fields r |}.

Lemma field_added_nil r : field_added "" (rd_state r) r = r.
Proof. destruct r. unfold field_added. cbn. by rewrite app_nil_r_s. Qed.

Lemma plain_char c : special c = false -> at_end (Some c) = false /\ is_char comma (Some c) = false /\ is_char dquote (Some c) = false /\
  Ascii.eqb c newline = false /\ Ascii.eqb c carriage_return = false.
Proof. destruct c as [[] [] [] [] [] [] [] []]; vm_compute; by intros. Qed.

Lemma plain_break c s : special c = false -> line_break universal c s = false.
Proof. intros (_ & _ & _ & E1 & E2)%plain_char. unfold line_break. by rewrite E1 E2 andb_false_r. Qed.

(** Plain characters inside a field. *)
Lemma scan_plain t r b d s : rd_state r = IN_FIELD -> str_forall (fun c => negb (special c)) t = true ->
  scan r b (t +:+ String d s) = scan (field_added t IN_FIELD r) b (String d s).
Proof.
  revert r b; induction t as [|c t IH]; intros r b Hr; [by rewrite -{1}Hr field_added_nil|].
  cbn [str_forall]. intros [Hc%negb_true_iff Ht]%andb_true_iff. rewrite app_cons_s. cbn [csv_scan].
  unfold process_char at 1. rewrite Hr. destruct (plain_char c Hc) as (E1 & E2 & E3 & _). rewrite E1 E2 plain_break //.
  cbn [plus_char]. rewrite IH //. unfold field_added, add_char. cbn. by rewrite app_assoc_s.
Qed.

(** The inside of a quoted field. *)
Lemma scan_doubled t r b s : rd_state r = IN_QUOTED_FIELD ->
  scan r b (doubled t +:+ String dquote s) = scan (field_added t IN_QUOTED_FIELD r) b (String dquote s).
Proof.
  revert r b; induction t as [|c t IH]; intros r b Hr; [by rewrite -{1}Hr field_added_nil|].
  assert (Hstep : scan (add_char c IN_QUOTED_FIELD r) b (doubled t +:+ String dquote s) =
    scan (field_added (String c t) IN_QUOTED_FIELD r) b (String dquote s)).
  { rewrite IH //. unfold field_added, add_char. cbn. by rewrite app_assoc_s. }
  assert (Hany : forall b', scan (add_char c IN_QUOTED_FIELD r) b' (doubled t +:+ String dquote s) =
    scan (add_char c IN_QUOTED_FIELD r) b (doubled t +:+ String dquote s)).
  { intros b'. by destruct (doubled t). }
  rewrite -Hstep. cbn [doubled]. destruct (Ascii.eqb c dquote) eqn:E.
  - apply Ascii.eqb_eq in E as ->. rewrite !app_cons_s. cbn [csv_scan]. unfold process_char at 1. rewrite Hr.
    change (is_char dquote (Some dquote)) with true. cbv iota.
    replace (line_break universal dquote _) with false by (by destruct universal). cbn [csv_scan].
    replace (line_break universal dquote _) with false by (by destruct universal).
    apply Hany.
  - rewrite app_cons_s. cbn [csv_scan]. unfold process_char at 1. rewrite Hr. cbn [is_char]. rewrite E. cbn [plus_char].
    destruct (line_break universal c _); apply Hany.
Qed.

(** A field is complete: the next comma or line end saves it. *)
Definition complete (t : string) (fields : list string) (r : reader) : Prop :=
  (rd_state r = IN_FIELD \/ rd_state r = QUOTE_IN_QUOTED_FIELD \/ rd_state r = START_FIELD) /\ rd_field r = t /\ rd_fields r = fields.

Definition saved (s : reader_state) (fields : list string) : reader := {| rd_state := s; rd_field := ""; rd_fields := fields |}.

Lemma complete_comma t fields r b s : complete t fields r ->
  scan r b (String comma s) = scan (saved START_FIELD (fields ++ [t])) true s.
Proof.
  intros (Hr & <- & <-). cbn [csv_scan]. replace (line_break universal comma s) with false by (by destruct universal).
  unfold process_char. by destruct Hr as [-> |[-> | ->]].
Qed.

Lemma complete_line t fields r b s : complete t fields r ->
  scan r b (String carriage_return (String newline s)) = Ok (fields ++ [t]) :: scan parse_reset false s.
Proof.
  intros (Hr & <- & <-). cbn [csv_scan]. replace (line_break universal carriage_return _) with false by (by destruct universal).
  unfold process_char at 1. by destruct Hr as [-> |[-> | ->]].
Qed.

(** A field from its start to the character after it. *)
Lemma scan_field s0 fields t b : s0 = START_RECORD \/ s0 = START_FIELD -> (t = "" -> s0 = START_FIELD) ->
  exists r, complete t fields r /\
  forall d s, exists b', scan (saved s0 fields) b (csv_field t +:+ String d s) = scan r b' (String d s).
Proof.
  intros Hs Ht. unfold csv_field. destruct (str_forall _ t) eqn:E; [destruct t as [|c t]|].
  - exists (saved s0 fields). rewrite (Ht eq_refl). split; [by split; [right; right|]|]. intros d s. exists b. done.
  - cbn [str_forall] in E. apply andb_true_iff in E as [Hc%negb_true_iff E].
    exists {| rd_state := IN_FIELD; rd_field := String c t; rd_fields := fields |}. split; [by split; [left|]|].
    intros d s. exists true. rewrite app_cons_s. cbn [csv_scan]. rewrite plain_break //.
    destruct (plain_char c Hc) as (E1 & E2 & E3 & _). cbn [at_end] in E1.
    assert (Hp : process_char (Some c) (saved s0 fields) = Ok (add_char c IN_FIELD (saved s0 fields))).
    { unfold process_char, start_field. destruct Hs as [-> | ->]; cbn [saved rd_state at_end]; by rewrite ?E1 E3 E2. }
    by rewrite Hp scan_plain.
  - exists {| rd_state := QUOTE_IN_QUOTED_FIELD; rd_field := t; rd_fields := fields |}. split; [by split; [right; left|]|].
    intros d s. exists true. unfold quoted. rewrite app_cons_s app_assoc_s app_cons_s app_nil_l_s. cbn [csv_scan].
    assert (Hp : process_char (Some dquote) (saved s0 fields) = Ok (goto IN_QUOTED_FIELD (saved s0 fields))) by (by destruct Hs as [-> | ->]).
    assert (Hb : forall s, line_break universal dquote s = false) by (by destruct universal).
    rewrite Hp Hb scan_doubled //. cbn [csv_scan]. by rewrite Hb.
Qed.

Lemma scan_fields fields row s0 b s : row <> [] -> row <> [""] \/ s0 = START_FIELD -> s0 = START_RECORD \/ s0 = START_FIELD ->
  scan (saved s0 fields) b (csv_fields row +:+ String carriage_return (String newline s)) =
  Ok (fields ++ row) :: scan parse_reset false s.
Proof.
  revert fields s0 b. induction row as [|t row IH]; [done|]. intros fields s0 b _ Hone Hs. destruct row as [|u row].
  - destruct (scan_field s0 fields t b Hs) as (r & Hr & E); [by intros ->; destruct Hone|].
    destruct (E carriage_return (String newline s)) as (b' & E'). cbn [csv_fields]. rewrite E'. by apply complete_line.
  - cbn [csv_fields]. destruct (decide (t = "" /\ s0 = START_RECORD)) as [[-> ->]|Hne].
    + change (csv_field "") with "". rewrite app_nil_l_s app_cons_s.
      replace (scan (saved START_RECORD fields) b (String comma _)) with
        (scan (saved START_FIELD (fields ++ [""])) true (csv_fields (u :: row) +:+ String carriage_return (String newline s)))
        by (cbn [csv_scan]; by destruct universal).
      rewrite IH; [done|by right|by right|]. by rewrite -app_assoc.
    + destruct (scan_field s0 fields t b Hs) as (r & Hr & E); [intros ->; destruct Hs as [-> |]; naive_solver|].
      rewrite app_assoc_s app_cons_s. edestruct E as (b' & ->). rewrite (complete_comma t fields) // IH; [done|by right|by right|].
      by rewrite -app_assoc.
Qed.

Lemma scan_row row b s : row <> [] -> scan parse_reset b (writerow row +:+ s) = Ok row :: scan parse_reset false s.
Proof.
  intros Hrow. unfold writerow. rewrite app_assoc_s !app_cons_s app_nil_l_s. destruct (decide (row = [""])) as [->|Hne].
  - cbn [csv_scan]. unfold quoted. cbn [doubled]. rewrite !app_cons_s !app_nil_l_s. cbn [csv_scan]. by destruct universal.
  - replace (match row with [""] => quoted "" | _ => csv_fields row end) with (csv_fields row) by (by destruct row as [|[|] [|]]).
    apply (scan_fields [] row START_RECORD); [done|by left|by left].
Qed.

(** [list(csv.reader(f))] of written rows. *)
Lemma csv_records_written rows : Forall (fun row => row <> []) rows ->
  csv_records universal (String.concat "" (map writerow rows)) = map Ok rows.
Proof.
  unfold csv_records. induction 1 as [|row rows Hrow _ IH]; [done|].
  replace (String.concat "" (map writerow (row :: rows))) with (writerow row +:+ String.concat "" (map writerow rows))
    by (destruct rows; cbn [map String.concat]; [by rewrite app_nil_r_s|done]).
  rewrite scan_row //. cbn [map]. f_equal. apply IH.
Qed.
End roundtrip.
End Csv.
