(* ===== verification/RegistryLog.v ===== *)
(** * The experiment registry's log (src/alpha_engine/registry/storage.py)

    The storage interface of the registry, and the file of JSON lines with a
    checksum on each that implements it. *)

From Stdlib Require Import ssreflect ZArith Lia Ascii String.
From stdpp Require Import base strings numbers gmap sets list.
From S2P Require Import Prelude PyText PyDict PyBytes PyJson PyJsonFacts PyLines PySort EventStoreFacts.
#[local] Open Scope Z_scope.

Notation entry := (list (string * json)).

Definition _CHECKSUM_KEY : string := "_checksum".

(** [json.dumps(value, sort_keys=True)] *)
Definition dumps_sorted : json -> string := dumps_with " ".

Definition _entry_checksum (entry_without_checksum : entry) : string :=
  hex (sha256 (encode (dumps_sorted (JObj entry_without_checksum)))).

(** ** The interface *)

(** An entry whose keys are distinct, at every level, and leave the checksum's free. *)
Definition entry_ok (e : entry) : Prop := json_wf (JObj e) = true /\ din _CHECKSUM_KEY e = false.

Class RegistryStorage (T : Type) := {
  rs_append : entry -> M T unit;
  rs_read_all : T -> result (list json);
  (** What a reader is owed. *)
  rs_entries : T -> list json;
  rs_ok : T -> Prop;
  (** An append has failed and left a part of its line, or all of it. *)
  rs_torn : T -> bool;
  rs_read_entries t : rs_ok t -> rs_read_all t = Ok (rs_entries t);
  rs_append_entries e t : entry_ok e -> rs_ok t -> rs_torn t = false ->
    let t' := (rs_append e t).1 in
    rs_ok t' /\
    match (rs_append e t).2 with
    | Ok _ => rs_torn t' = false /\ rs_entries t' = rs_entries t ++ [canon (JObj e)]
    | Err x => x ∈ [RegistryLockError; OSError] /\
        (rs_entries t' = rs_entries t \/ rs_torn t' = true /\ rs_entries t' = rs_entries t ++ [canon (JObj e)])
    end
}.

(** ** The file *)

(** What the system does with the next append: the line is written and synced;
    another writer holds the lock; the first [n] characters reach the file and
    the write or the sync then fails, or the process dies. *)
Inductive disk := Written | Locked | Failed (n : nat).

(** The text of the file, what the system will do, and a history variable: a
    failed append has left something behind. *)
Record FileRegistryStorage := { fr_content : string; fr_disk : list disk; fr_torn : bool }.

Definition entry_line (e : entry) : string := dumps_sorted (JObj (dset _CHECKSUM_KEY (JStr (_entry_checksum e)) e)).

Definition file_append (e : entry) : M FileRegistryStorage unit := fun self =>
  let '(d, ds) := match fr_disk self with d :: ds => (d, ds) | [] => (Written, []) end in
  let payload := entry_line e +:+ String newline "" in
  match d with
  | Locked => ({| fr_content := fr_content self; fr_disk := ds; fr_torn := fr_torn self |}, Err RegistryLockError)
  | Written => ({| fr_content := fr_content self +:+ payload; fr_disk := ds; fr_torn := fr_torn self |}, Ok tt)
  | Failed n => ({| fr_content := fr_content self +:+ str_take n payload; fr_disk := ds; fr_torn := fr_torn self || (0 <? n)%nat |}, Err OSError)
  end.

(** What a parsed line holds; [None] when its checksum is wrong. A line without
    one is taken as it is. *)
Definition verified (parsed : json) : option json :=
  match parsed with
  | JObj o =>
      match dget _CHECKSUM_KEY o with
      | Some claimed =>
          let without_checksum := List.filter (fun p => negb (String.eqb _CHECKSUM_KEY p.1)) o in
          match claimed with
          | JStr c => if String.eqb c (_entry_checksum without_checksum) then Some (JObj without_checksum) else None
          | _ => None
          end
      | None => Some parsed
      end
  | _ => Some parsed
  end.

(** The lines with content: a bad one ends the file if it is the last, and is
    corruption anywhere else. *)
Fixpoint read_lines (ls : list string) : result (list json) :=
  match ls with
  | [] => Ok []
  | line :: rest =>
      let bad : result (list json) := match rest with [] => Ok [] | _ => Err MalformedRegistryLogError end in
      match loads line with
      | Err _ => bad
      | Ok parsed =>
          match verified parsed with
          | Some e => es ← read_lines rest; Ok (e :: es)
          | None => bad
          end
      end
  end.

Definition read_all (self : FileRegistryStorage) : result (list json) :=
  read_lines (List.filter (fun l => negb (String.eqb l "")) (map strip (split_lines (fr_content self)))).

(** ** What a file of whole lines holds *)

Fixpoint lines_of (es : list entry) : string :=
  match es with [] => "" | e :: es => entry_line e +:+ String newline (lines_of es) end.

Lemma lines_of_app es es' : lines_of (es ++ es') = lines_of es +:+ lines_of es'.
Proof. induction es as [|e es IH]; [done|]. cbn [lines_of app]. by rewrite IH app_assoc_s. Qed.

Definition checked (e : entry) : json := JObj (dset _CHECKSUM_KEY (JStr (_entry_checksum e)) e).

Lemma checked_wf e : entry_ok e -> json_wf (checked e) = true.
Proof.
  intros [Hwf Hc]. apply json_wf_obj in Hwf as [Hn Hv]. apply json_wf_obj. split; [by apply dset_NoDup|].
  rewrite dset_fresh //. apply Forall_app. split; [done|by apply Forall_singleton].
Qed.

(** Sorting commutes with leaving a key out. *)
Lemma insert_item_filter {V} (keep : string * V -> bool) p (o : list (string * V)) : Sorted.Sorted item_le o ->
  List.filter keep (insert_item p o) = if keep p then insert_item p (List.filter keep o) else List.filter keep o.
Proof.
  induction 1 as [|q o Ho IH Hq]; [by cbn; destruct (keep p)|]. cbn [insert_item List.filter].
  destruct (String.leb p.1 q.1) eqn:E.
  - cbn [List.filter]. destruct (keep p), (keep q) eqn:Kq; try done; cbn [insert_item].
    + by rewrite E.
    + assert (Hle : Forall (fun r => String.leb p.1 r.1 = true) o).
      { apply Sorted.Sorted_StronglySorted in Ho; [|intros a b c; unfold item_le; apply str_leb_trans].
        assert (Hs : Sorted.StronglySorted item_le (q :: o)).
        { apply Sorted.Sorted_StronglySorted; [intros a b c; unfold item_le; apply str_leb_trans|].
          by constructor; [apply Sorted.StronglySorted_Sorted|]. }
        apply Sorted.StronglySorted_inv in Hs as [_ Hs]. eapply List.Forall_impl; [|exact Hs].
        intros r Hr. by eapply str_leb_trans. }
      clear -Hle. induction Hle as [|r o Hr _ IHo]; [done|]. cbn [List.filter]. destruct (keep r); [|done]. cbn [insert_item].
      by rewrite Hr.
  - cbn [List.filter]. rewrite IH. destruct (keep p), (keep q); try done. cbn [insert_item]. by rewrite E.
Qed.

Lemma sort_items_filter {V} (keep : string * V -> bool) (o : list (string * V)) :
  List.filter keep (sort_items o) = sort_items (List.filter keep o).
Proof.
  induction o as [|p o IH]; [done|]. cbn [sort_items List.filter]. rewrite insert_item_filter; [apply sort_items_sorted|].
  rewrite IH. by destruct (keep p).
Qed.

Lemma fresh_keys {V} (k : string) (d : list (string * V)) : din k d = false ->
  List.filter (fun p => negb (String.eqb k p.1)) d = d.
Proof.
  unfold din. induction d as [|[k' v'] d IH]; [done|]. cbn. destruct (String.eqb k k') eqn:E; [done|]. intros Hd. cbn. by rewrite IH.
Qed.

Lemma din_map {V W} (f : V -> W) k (d : list (string * V)) : din k (map (fun p => (p.1, f p.2)) d) = din k d.
Proof. unfold din. rewrite dget_map. by destruct (dget k d). Qed.

Lemma checked_content e : entry_ok e -> canon (checked e) =
  JObj (sort_items (map (fun p => (p.1, canon p.2)) (e ++ [(_CHECKSUM_KEY, JStr (_entry_checksum e))]))).
Proof. intros [_ Hc]. unfold checked. rewrite dset_fresh //. Qed.

Lemma verified_checked e : entry_ok e -> verified (canon (checked e)) = Some (canon (JObj e)).
Proof.
  intros Hok. pose proof (checked_wf e Hok) as Hwf. pose proof (jget_canon _CHECKSUM_KEY _ Hwf) as Hg.
  rewrite checked_content // in Hg |- *. unfold verified. cbn [jget] in Hg. rewrite Hg. cbn [checked jget]. rewrite dget_dset_eq. cbn [fmap option_fmap option_map canon].
  rewrite sort_items_filter map_app List.filter_app fresh_keys; [by rewrite din_map; apply Hok|]. cbn [map List.filter fst].
  rewrite String.eqb_refl app_nil_r.
  assert (E : _entry_checksum (sort_items (map (fun p => (p.1, canon p.2)) e)) = _entry_checksum e).
  { unfold _entry_checksum, dumps_sorted. do 3 f_equal. apply (dumps_canon " " (JObj e)). }
  cbn [negb]. by rewrite E String.eqb_refl.
Qed.

Lemma loads_line e : entry_ok e -> loads (entry_line e) = Ok (canon (checked e)).
Proof. intros Hok. apply (loads_dumps " "); [done|]. by apply checked_wf. Qed.

Lemma line_shape e : exists s, entry_line e = String "{" (s +:+ String "}" "").
Proof. eexists. reflexivity. Qed.

Lemma strip_line e : strip (entry_line e) = entry_line e.
Proof. destruct (line_shape e) as [s ->]. by apply strip_whole. Qed.

Lemma line_nonempty e : negb (String.eqb (entry_line e) "") = true.
Proof. by destruct (line_shape e) as [s ->]. Qed.

Lemma line_printable e : str_forall printable (entry_line e) = true.
Proof. by apply dumps_printable. Qed.

(** The lines with content of a file of whole lines and a rest. *)
Lemma content_lines es rest :
  List.filter (fun l => negb (String.eqb l "")) (map strip (split_lines (lines_of es +:+ rest))) =
  map entry_line es ++ List.filter (fun l => negb (String.eqb l "")) (map strip (split_lines rest)).
Proof.
  induction es as [|e es IH]; [done|]. cbn [lines_of]. rewrite app_assoc_s app_cons_s split_lines_line; [by apply printable_line, line_printable|].
  cbn [map List.filter app]. by rewrite strip_line line_nonempty IH.
Qed.

Lemma read_lines_app es ls : Forall entry_ok es -> read_lines (map entry_line es ++ ls) =
  match read_lines ls with Ok js => Ok (map (fun e => canon (JObj e)) es ++ js) | Err x => Err x end.
Proof.
  induction 1 as [|e es He _ IH]; [cbn [map app]; by destruct (read_lines ls)|]. cbn [map app read_lines].
  rewrite loads_line // verified_checked // IH. by destruct (read_lines ls).
Qed.

Lemma str_take_app_le n (s t : string) : (n <= String.length s)%nat -> str_take n (s +:+ t) = str_take n s.
Proof.
  revert n; induction s as [|c s IH]; intros [|n] Hn; simpl in Hn; try lia; [by destruct t|done|]. rewrite app_cons_s. cbn [str_take].
  rewrite IH //. lia.
Qed.
Lemma str_take_all n (s : string) : (String.length s <= n)%nat -> str_take n s = s.
Proof.
  revert n; induction s as [|c s IH]; intros [|n] Hn; simpl in Hn; try lia; [done|done|]. cbn [str_take]. rewrite IH //. lia.
Qed.

(** A torn write costs at most its own entry. Whatever prefix of a line a
    failed append leaves after the whole lines of earlier entries, reading the
    file gives those entries, each with its keys sorted, and then the entry of
    the prefix exactly when all of it but the line end is there. With the prefix
    whole, this is the round trip of a log without failures. *)
Theorem torn_tail_recovered es e n ds torn : Forall entry_ok es -> entry_ok e ->
  read_all {| fr_content := lines_of es +:+ str_take n (entry_line e +:+ String newline ""); fr_disk := ds; fr_torn := torn |} =
  Ok (map (fun e => canon (JObj e)) es ++
      if (n <? String.length (entry_line e))%nat then [] else [canon (JObj e)]).
Proof.
  intros Hes He. unfold read_all. cbn [fr_content]. rewrite content_lines read_lines_app //.
  destruct (Nat.ltb_spec n (String.length (entry_line e))) as [Hn|Hn].
  - assert (Hcut : cut (str_take n (entry_line e +:+ String newline "")) (entry_line e)).
    { rewrite str_take_app_le; [lia|]. exists (str_drop n (entry_line e)). split; [|by rewrite str_take_drop].
      intros E. pose proof (f_equal String.length (str_take_drop n (entry_line e))) as Hl. rewrite length_app_s E str_take_length in Hl; [lia|]. cbn [String.length] in Hl. lia. }
    set (s := str_take _ _) in *.
    assert (Hline : str_forall (fun c => negb (line_end c)) s = true).
    { eapply cut_forall; [exact Hcut|]. apply printable_line, line_printable. }
    rewrite split_lines_last //. cbn [map List.filter].
    assert (Hc : cut (strip s) (entry_line e)) by (destruct (line_shape e) as [u Hu]; rewrite Hu in Hcut |- *; by apply strip_cut).
    destruct (negb _); [|done]. cbn [read_lines].
    rewrite (loads_cut " " eq_refl (dset _CHECKSUM_KEY (JStr (_entry_checksum e)) e)); [by apply (checked_wf e)|exact Hc|done].
  - assert (E : exists t, str_take n (entry_line e +:+ String newline "") = entry_line e +:+ t /\ (t = "" \/ t = String newline "")).
    { destruct (decide (n = String.length (entry_line e))) as [->|Hne].
      - exists "". split; [|by left]. rewrite str_take_app_le // str_take_all // app_nil_r_s //.
      - exists (String newline ""). split; [|by right]. rewrite str_take_all //. rewrite length_app_s. cbn [String.length]. lia. }
    destruct E as (t & -> & Ht).
    assert (Hl : List.filter (fun l => negb (String.eqb l "")) (map strip (split_lines (entry_line e +:+ t))) = [entry_line e]).
    { destruct Ht as [->| ->].
      - rewrite app_nil_r_s split_lines_last; [by apply printable_line, line_printable|]. cbn [map List.filter]. by rewrite strip_line line_nonempty.
      - rewrite split_lines_line; [by apply printable_line, line_printable|]. cbn [map List.filter split_lines]. by rewrite strip_line line_nonempty. }
    rewrite Hl. cbn [read_lines]. by rewrite loads_line // verified_checked //.
Qed.

(** ** The file implements the interface *)

(** Whole lines; after a torn append, also a prefix of one more. *)
Definition file_ok (self : FileRegistryStorage) : Prop :=
  exists es, Forall entry_ok es /\
    (fr_content self = lines_of es \/
     fr_torn self = true /\ exists e n, entry_ok e /\ fr_content self = lines_of es +:+ str_take n (entry_line e +:+ String newline "")).
Definition file_entries (self : FileRegistryStorage) : list json := match read_all self with Ok js => js | Err _ => [] end.

Lemma read_whole self es : Forall entry_ok es -> fr_content self = lines_of es ->
  read_all self = Ok (map (fun e => canon (JObj e)) es).
Proof.
  intros Hes Hc. unfold read_all. rewrite Hc. pose proof (content_lines es "") as E. rewrite app_nil_r_s in E.
  rewrite E read_lines_app //. cbn. by rewrite app_nil_r.
Qed.

(** The first torn append. *)
Lemma read_torn self es e n : Forall entry_ok es -> entry_ok e ->
  fr_content self = lines_of es +:+ str_take n (entry_line e +:+ String newline "") ->
  read_all self = Ok (map (fun e => canon (JObj e)) es ++ if (n <? String.length (entry_line e))%nat then [] else [canon (JObj e)]).
Proof. intros Hes He Hc. destruct self as [c ds torn]. cbn in Hc. subst c. by apply torn_tail_recovered. Qed.

Lemma file_reads self : file_ok self -> exists js, read_all self = Ok js.
Proof.
  intros (es & Hes & [Hc|(_ & e & n & He & Hc)]); eexists; [by apply read_whole|by eapply read_torn].
Qed.

(** An append to a file of whole lines. *)
Lemma file_append_spec e self : entry_ok e -> file_ok self -> fr_torn self = false ->
  file_ok (file_append e self).1 /\
  match (file_append e self).2 with
  | Ok _ => fr_torn (file_append e self).1 = false /\ file_entries (file_append e self).1 = file_entries self ++ [canon (JObj e)]
  | Err x => x ∈ [RegistryLockError; OSError] /\
      (file_entries (file_append e self).1 = file_entries self \/
       fr_torn (file_append e self).1 = true /\ file_entries (file_append e self).1 = file_entries self ++ [canon (JObj e)])
  end.
Proof.
  intros He (es & Hes & [Hc|(Ht & _)]) Hn; [|by rewrite Ht in Hn].
  assert (Hr : file_entries self = map (fun e => canon (JObj e)) es) by (unfold file_entries; by rewrite (read_whole self es)).
  assert (Hes' : Forall entry_ok (es ++ [e])) by (apply Forall_app; split; [done|by apply Forall_singleton]).
  assert (Hw : forall self', fr_content self' = fr_content self +:+ entry_line e +:+ String newline "" ->
            file_ok self' /\ file_entries self' = file_entries self ++ [canon (JObj e)]).
  { intros self' Hc'. rewrite Hc in Hc'. replace (lines_of es +:+ _) with (lines_of (es ++ [e])) in Hc' by (by rewrite lines_of_app).
    split; [exists (es ++ [e]); by auto|]. rewrite Hr. unfold file_entries. by rewrite (read_whole self' (es ++ [e])) // map_app. }
  assert (Hs : forall self', fr_content self' = fr_content self -> file_ok self' /\ file_entries self' = file_entries self).
  { intros self' Hc'. rewrite Hc in Hc'. split; [exists es; by auto|]. rewrite Hr. unfold file_entries. by rewrite (read_whole self' es). }
  unfold file_append. destruct (fr_disk self) as [|[| |n] ds]; cbn [fst snd fr_torn].
  - destruct (Hw {| fr_content := fr_content self +:+ entry_line e +:+ String newline ""; fr_disk := []; fr_torn := fr_torn self |}); done.
  - destruct (Hw {| fr_content := fr_content self +:+ entry_line e +:+ String newline ""; fr_disk := ds; fr_torn := fr_torn self |}); done.
  - destruct (Hs {| fr_content := fr_content self; fr_disk := ds; fr_torn := fr_torn self |}) as [? ->]; [done|].
    split; [done|]. split; [by left|by left].
  - destruct n as [|n].
    + destruct (Hs {| fr_content := fr_content self +:+ ""; fr_disk := ds; fr_torn := fr_torn self || false |}) as [H1 H2]; [apply app_nil_r_s|].
      split; [done|]. split; [right; by left|by left].
    + rewrite Hn. cbn [orb]. set (self' := {| fr_content := _ |}).
      assert (Hc' : fr_content self' = lines_of es +:+ str_take (S n) (entry_line e +:+ String newline "")) by (cbn [self' fr_content]; by rewrite Hc).
      split; [exists es; split; [done|]; right; split; [done|]; by exists e, (S n)|]. split; [right; by left|].
      rewrite Hr. unfold file_entries. rewrite (read_torn self' es e (S n)) //.
      destruct (S n <? String.length (entry_line e))%nat; [left; by rewrite app_nil_r|by right].
Qed.

#[global] Program Instance file_storage : RegistryStorage FileRegistryStorage := {
  rs_append := file_append;
  rs_read_all := read_all;
  rs_entries := file_entries;
  rs_ok := file_ok;
  rs_torn := fr_torn
}.
Next Obligation. intros t Ht. unfold file_entries. by destruct (file_reads t Ht) as [js ->]. Qed.
Next Obligation. exact file_append_spec. Qed.

(** ** Concrete files *)

Definition sample_entry (id : string) : entry := [("type", JStr "experiment_sealed"); ("experiment_id", JStr id); ("n", JList [JInt 12; JNull])].

Lemma sample_entry_ok id : entry_ok (sample_entry id).
Proof. split; [by vm_compute|done]. Qed.

Lemma torn_tail_recovered_witness :
  read_all {| fr_content := lines_of [sample_entry "a"; sample_entry "b"] +:+ str_take 31 (entry_line (sample_entry "c") +:+ String newline "");
              fr_disk := []; fr_torn := true |} = Ok [canon (JObj (sample_entry "a")); canon (JObj (sample_entry "b"))].
Proof.
  assert (E : (31 <? String.length (entry_line (sample_entry "c")))%nat = true) by (vm_compute; reflexivity).
  rewrite (torn_tail_recovered [sample_entry "a"; sample_entry "b"] (sample_entry "c") 31 [] true
    (Forall_cons_2 _ _ _ (sample_entry_ok _) (Forall_cons_2 _ _ _ (sample_entry_ok _) (Forall_nil_2 _))) (sample_entry_ok _)) E.
  reflexivity.
Defined.

(** The torn line is never cut off: the next entry is written behind it, on the
    same line. Its append succeeds, but it cannot be read; and one append later
    the file cannot be read at all. *)
Definition file_after (ids : list string) : FileRegistryStorage :=
  foldl (fun self id => (file_append (sample_entry id) self).1) {| fr_content := ""; fr_disk := [Written; Failed 31; Written; Written]; fr_torn := false |} ids.

Lemma append_after_torn_lost :
  (file_append (sample_entry "c") (file_after ["a"; "b"])).2 = Ok tt /\
  read_all (file_after ["a"; "b"; "c"]) = Ok [canon (JObj (sample_entry "a"))] /\
  (file_append (sample_entry "d") (file_after ["a"; "b"; "c"])).2 = Ok tt /\
  read_all (file_after ["a"; "b"; "c"; "d"]) = Err MalformedRegistryLogError.
Proof. split_and!; vm_compute; reflexivity. Qed.
