(* ===== verification/Registry.v ===== *)
(** * The experiment registry (src/alpha_engine/registry/lifecycle.py, models.py, registry.py)

    Experiments from proposal to retirement: the lifecycle table, the record of
    an experiment, and the registry's writes, replay and queries over a storage.
    Copies of JSON values are the values themselves here, and a value that the
    registry writes as a string is read as one. *)

From Stdlib Require Import ssreflect ZArith Lia Ascii String.
From stdpp Require Import base strings numbers gmap sets list.
From S2P Require Import Prelude PyText PyDict PyBytes PyJson PySort Payload RegistryLog.
#[local] Open Scope Z_scope.

(** ** The lifecycle *)

Module LifecycleState.
Inductive LifecycleState :=
  | PROPOSED | VALIDATING | EVIDENCE_SEALED | IN_REVIEW | APPROVED | REJECTED | DEFERRED |
  SHAKEDOWN | FULL_PRODUCTION | FROZEN | RETIRING | RETIRED | WITHDRAWN.
#[global] Instance LifecycleState_eq_dec : EqDecision LifecycleState.
Proof. solve_decision. Defined.

Definition value (x : LifecycleState) : string :=
  match x with
  | PROPOSED => "proposed" | VALIDATING => "validating" | EVIDENCE_SEALED =>
  "evidence_sealed" | IN_REVIEW => "in_review" | APPROVED => "approved" | REJECTED =>
  "rejected" | DEFERRED => "deferred" | SHAKEDOWN => "shakedown" | FULL_PRODUCTION =>
  "full_production" | FROZEN => "frozen" | RETIRING => "retiring" | RETIRED => "retired" |
  WITHDRAWN => "withdrawn"
  end.

#[global] Program Instance LifecycleState_enum : PyEnum LifecycleState := {
  enum_all := [PROPOSED; VALIDATING; EVIDENCE_SEALED; IN_REVIEW; APPROVED; REJECTED;
  DEFERRED; SHAKEDOWN; FULL_PRODUCTION; FROZEN; RETIRING; RETIRED; WITHDRAWN];
  enum_value := value
}.
Solve Obligations with solve_enum.
End LifecycleState.
Notation LifecycleState := LifecycleState.LifecycleState.

Definition INITIAL_STATE : LifecycleState := LifecycleState.PROPOSED.

Definition GOVERNANCE_DECISION_STATES (s : LifecycleState) : bool :=
  match s with LifecycleState.APPROVED | LifecycleState.REJECTED | LifecycleState.DEFERRED => true | _ => false end.
Definition LIVE_STATES (s : LifecycleState) : bool :=
  match s with LifecycleState.SHAKEDOWN | LifecycleState.FULL_PRODUCTION => true | _ => false end.

Definition TERMINAL_STATES (s : LifecycleState) : bool :=
  match s with LifecycleState.RETIRED | LifecycleState.REJECTED | LifecycleState.DEFERRED | LifecycleState.WITHDRAWN => true | _ => false end.

Definition ALLOWED_TRANSITIONS (s : LifecycleState) : list LifecycleState :=
  match s with
  | LifecycleState.PROPOSED => [LifecycleState.VALIDATING; LifecycleState.WITHDRAWN]
  | LifecycleState.VALIDATING => [LifecycleState.EVIDENCE_SEALED; LifecycleState.WITHDRAWN]
  | LifecycleState.EVIDENCE_SEALED => [LifecycleState.IN_REVIEW]
  | LifecycleState.IN_REVIEW => [LifecycleState.APPROVED; LifecycleState.REJECTED; LifecycleState.DEFERRED]
  | LifecycleState.APPROVED => [LifecycleState.SHAKEDOWN]
  | LifecycleState.SHAKEDOWN => [LifecycleState.FULL_PRODUCTION; LifecycleState.FROZEN; LifecycleState.RETIRING]
  | LifecycleState.FULL_PRODUCTION => [LifecycleState.FROZEN; LifecycleState.RETIRING]
  | LifecycleState.FROZEN => [LifecycleState.RETIRING]
  | LifecycleState.RETIRING => [LifecycleState.RETIRED]
  | _ => []
  end.
Definition is_legal_transition (from_state to_state : LifecycleState) : bool :=
  existsb (fun s => bool_decide (s = to_state)) (ALLOWED_TRANSITIONS from_state).

(** ** Records *)

(** The registry's mutable record of an experiment. *)
Record Experiment := {
  x_fingerprint : string;
  x_parent_id : option string;
  x_specification : json;
  x_created_at_utc : string;
  x_sealed : bool;
  x_sealed_at_utc : option string;
  x_evidence : option json;
  x_evidence_fingerprint : option string;
  x_lifecycle_state : LifecycleState;
  x_governance_decision : option json
}.

Definition new_experiment (fingerprint : string) (parent_id : option string) (spec : json) (created_at_utc : string) : Experiment :=
  {| x_fingerprint := fingerprint; x_parent_id := parent_id; x_specification := spec; x_created_at_utc := created_at_utc;
     x_sealed := false; x_sealed_at_utc := None; x_evidence := None; x_evidence_fingerprint := None;
     x_lifecycle_state := INITIAL_STATE; x_governance_decision := None |}.
Definition set_sealed (t : string) (x : Experiment) : Experiment :=
  {| x_fingerprint := x_fingerprint x; x_parent_id := x_parent_id x; x_specification := x_specification x;
     x_created_at_utc := x_created_at_utc x; x_sealed := true; x_sealed_at_utc := Some t; x_evidence := x_evidence x;
     x_evidence_fingerprint := x_evidence_fingerprint x; x_lifecycle_state := x_lifecycle_state x;
     x_governance_decision := x_governance_decision x |}.
Definition set_evidence (evidence : json) (fp : string) (x : Experiment) : Experiment :=
  {| x_fingerprint := x_fingerprint x; x_parent_id := x_parent_id x; x_specification := x_specification x;
     x_created_at_utc := x_created_at_utc x; x_sealed := x_sealed x; x_sealed_at_utc := x_sealed_at_utc x;
     x_evidence := match evidence with JNull => None | _ => Some evidence end;
     x_evidence_fingerprint := Some fp; x_lifecycle_state := x_lifecycle_state x;
     x_governance_decision := x_governance_decision x |}.
Definition set_state (s : LifecycleState) (x : Experiment) : Experiment :=
  {| x_fingerprint := x_fingerprint x; x_parent_id := x_parent_id x; x_specification := x_specification x;
     x_created_at_utc := x_created_at_utc x; x_sealed := x_sealed x; x_sealed_at_utc := x_sealed_at_utc x;
     x_evidence := x_evidence x; x_evidence_fingerprint := x_evidence_fingerprint x; x_lifecycle_state := s;
     x_governance_decision := x_governance_decision x |}.
Definition set_decision (decision : json) (x : Experiment) : Experiment :=
  {| x_fingerprint := x_fingerprint x; x_parent_id := x_parent_id x; x_specification := x_specification x;
     x_created_at_utc := x_created_at_utc x; x_sealed := x_sealed x; x_sealed_at_utc := x_sealed_at_utc x;
     x_evidence := x_evidence x; x_evidence_fingerprint := x_evidence_fingerprint x; x_lifecycle_state := x_lifecycle_state x;
     x_governance_decision := match decision with JNull => None | _ => Some decision end |}.

(** The snapshot given to callers. *)
Record ExperimentRecord := {
  er_experiment_id : string;
  er_fingerprint : string;
  er_parent_id : option string;
  er_specification : json;
  er_created_at_utc : string;
  er_sealed : bool;
  er_sealed_at_utc : option string;
  er_evidence_fingerprint : option string;
  er_lifecycle_state : LifecycleState
}.

Definition is_mapping (j : json) : bool := match j with JObj _ => true | _ => false end.

Definition mk_ExperimentRecord (r : ExperimentRecord) : result ExperimentRecord :=
  if blank (er_experiment_id r) || blank (er_fingerprint r)
     || match er_parent_id r with Some p => blank p | None => false end
     || negb (is_mapping (er_specification r)) || blank (er_created_at_utc r)
     || er_sealed r && bool_decide (er_sealed_at_utc r = None)
     || negb (er_sealed r) && negb (bool_decide (er_sealed_at_utc r = None))
     || match er_evidence_fingerprint r with Some f => blank f | None => false end
  then Err RegistryError else Ok r.

Notation Records := (list (string * Experiment)).

(** [_snapshot]; a specification that is no mapping has no read-only view. *)
Definition snapshot_of (experiment_id : string) (x : Experiment) : result ExperimentRecord :=
  if negb (is_mapping (x_specification x)) then Err TypeError else
  mk_ExperimentRecord
    {| er_experiment_id := experiment_id; er_fingerprint := x_fingerprint x; er_parent_id := x_parent_id x;
       er_specification := x_specification x; er_created_at_utc := x_created_at_utc x; er_sealed := x_sealed x;
       er_sealed_at_utc := x_sealed_at_utc x; er_evidence_fingerprint := x_evidence_fingerprint x;
       er_lifecycle_state := x_lifecycle_state x |}.
Definition _snapshot (experiment_id : string) (records : Records) : result ExperimentRecord :=
  x ← of_option KeyError (dget experiment_id records);
  snapshot_of experiment_id x.

(** ** Replay *)

Definition _ENTRY_CREATED : string := "experiment_created".
Definition _ENTRY_SEALED : string := "experiment_sealed".
Definition _ENTRY_EVIDENCE : string := "evidence_attached".
Definition _ENTRY_STATE : string := "state_changed".
Definition _ENTRY_DECISION : string := "governance_decision".

Definition str_item (k : string) (e : json) : result string := j ← item k e; str_of j.

(** [entry.get("parent_id")], [None] or a registered experiment. *)
Definition entry_parent (records : Records) (e : json) : result (option string) :=
  match jget "parent_id" e with
  | None | Some JNull => Ok None
  | Some (JStr p) => if din p records then Ok (Some p) else Err MalformedRegistryLogError
  | Some (JList _) | Some (JObj _) => Err TypeError
  | Some _ => Err MalformedRegistryLogError
  end.

(** The record an entry is about. *)
Definition entry_record (records : Records) (e : json) : result (string * Experiment) :=
  experiment_id ← str_item "experiment_id" e;
  x ← of_option MalformedRegistryLogError (dget experiment_id records);
  Ok (experiment_id, x).

(** [LifecycleState(entry[k])] *)
Definition entry_state (k : string) (e : json) : result LifecycleState :=
  j ← item k e;
  of_option MalformedRegistryLogError (jenum (Some j)).

Definition apply_created (records : Records) (e : json) : result Records :=
  experiment_id ← str_item "experiment_id" e;
  if din experiment_id records then Err MalformedRegistryLogError else
  parent_id ← entry_parent records e;
  fingerprint ← str_item "fingerprint" e;
  specification ← item "specification" e;
  created_at_utc ← str_item "created_at_utc" e;
  Ok (dset experiment_id (new_experiment fingerprint parent_id specification created_at_utc) records).

Definition apply_sealed (records : Records) (e : json) : result Records :=
  '(experiment_id, x) ← entry_record records e;
  if x_sealed x then Err MalformedRegistryLogError else
  t ← str_item "sealed_at_utc" e;
  Ok (dset experiment_id (set_sealed t x) records).

Definition apply_evidence (records : Records) (e : json) : result Records :=
  '(experiment_id, x) ← entry_record records e;
  if negb (x_sealed x) then Err MalformedRegistryLogError else
  if bool_decide (is_Some (x_evidence x)) then Err MalformedRegistryLogError else
  evidence ← item "evidence" e;
  fp ← str_item "evidence_fingerprint" e;
  Ok (dset experiment_id (set_evidence evidence fp x) records).

Definition apply_state (records : Records) (e : json) : result Records :=
  '(experiment_id, x) ← entry_record records e;
  from_state ← entry_state "from_state" e;
  to_state ← entry_state "to_state" e;
  if negb (bool_decide (x_lifecycle_state x = from_state)) then Err MalformedRegistryLogError else
  if negb (is_legal_transition from_state to_state) then Err MalformedRegistryLogError else
  if GOVERNANCE_DECISION_STATES to_state && negb (bool_decide (is_Some (x_governance_decision x))) then Err MalformedRegistryLogError else
  Ok (dset experiment_id (set_state to_state x) records).

Definition apply_decision (records : Records) (e : json) : result Records :=
  '(experiment_id, x) ← entry_record records e;
  if negb (bool_decide (x_lifecycle_state x = LifecycleState.IN_REVIEW)) then Err MalformedRegistryLogError else
  if bool_decide (is_Some (x_governance_decision x)) then Err MalformedRegistryLogError else
  decision ← item "decision" e;
  Ok (dset experiment_id (set_decision decision x) records).

Definition _apply_entry (records : Records) (e : json) : result Records :=
  match e with
  | JObj _ =>
      match jstr "type" e with
      | Some ty =>
          if String.eqb ty _ENTRY_CREATED then apply_created records e
          else if String.eqb ty _ENTRY_SEALED then apply_sealed records e
          else if String.eqb ty _ENTRY_EVIDENCE then apply_evidence records e
          else if String.eqb ty _ENTRY_STATE then apply_state records e
          else if String.eqb ty _ENTRY_DECISION then apply_decision records e
          else Err MalformedRegistryLogError
      | None => Err MalformedRegistryLogError
      end
  | _ => Err AttributeError
  end.

(** [_replay]: a missing field is corruption. *)
Definition replay_entry (records : Records) (e : json) : result Records :=
  match _apply_entry records e with Err KeyError => Err MalformedRegistryLogError | r => r end.

Definition registry_init {T} `{RegistryStorage T} (storage : T) : result Records :=
  entries ← rs_read_all storage;
  fold_result replay_entry [] entries.

(** ** Writes *)

Definition _fingerprint (specification : json) : string := hex (sha256 (encode (dumps_sorted specification))).

Definition opt_json (s : option string) : json := match s with Some s => JStr s | None => JNull end.

Definition created_entry (experiment_id fingerprint : string) (parent_id : option string) (spec : json) (now : string) : entry :=
  [("type", JStr _ENTRY_CREATED); ("experiment_id", JStr experiment_id); ("fingerprint", JStr fingerprint);
   ("parent_id", opt_json parent_id); ("specification", spec); ("created_at_utc", JStr now)].
Definition sealed_entry (experiment_id now : string) : entry :=
  [("type", JStr _ENTRY_SEALED); ("experiment_id", JStr experiment_id); ("sealed_at_utc", JStr now)].
Definition evidence_entry (experiment_id : string) (evidence : json) (fp : string) : entry :=
  [("type", JStr _ENTRY_EVIDENCE); ("experiment_id", JStr experiment_id); ("evidence", evidence); ("evidence_fingerprint", JStr fp)].
Definition state_entry (experiment_id : string) (from_state to_state : LifecycleState) (now : string) : entry :=
  [("type", JStr _ENTRY_STATE); ("experiment_id", JStr experiment_id); ("from_state", JStr (LifecycleState.value from_state));
   ("to_state", JStr (LifecycleState.value to_state)); ("changed_at_utc", JStr now)].
Definition decision_entry (experiment_id : string) (decision : json) : entry :=
  [("type", JStr _ENTRY_DECISION); ("experiment_id", JStr experiment_id); ("decision", decision)].

Section registry.
Context {T : Type} `{RegistryStorage T}.
Notation W := (T * Records)%type.

Definition append_entry (e : entry) : M W unit := zoom fst (fun t w => (t, w.2)) (rs_append e).
Definition put_record (experiment_id : string) (x : Experiment) : M W unit :=
  modify (fun w => (w.1, dset experiment_id x w.2)).
(** A registered experiment, or [ExperimentNotFoundError]. *)
Definition the_record (experiment_id : string) : M W Experiment := fun w =>
  (w, of_option ExperimentNotFoundError (dget experiment_id w.2)).
Definition the_snapshot (experiment_id : string) : M W ExperimentRecord := fun w => (w, _snapshot experiment_id w.2).

(** [now] is the clock's answer to the call. *)
Definition create (experiment_id : string) (specification : json) (parent_id : option string) (now : string) : M W ExperimentRecord :=
  if blank experiment_id then raise ValueError else
  if negb (is_mapping specification) then raise InvalidSpecificationError else
  if match parent_id with Some p => blank p | None => false end then raise ValueError else
  w ← get;
  if din experiment_id w.2 then raise DuplicateExperimentError else
  if match parent_id with Some p => negb (din p w.2) | None => false end then raise ExperimentNotFoundError else
  let fingerprint := _fingerprint specification in
  append_entry (created_entry experiment_id fingerprint parent_id specification now);;
  put_record experiment_id (new_experiment fingerprint parent_id specification now);;
  the_snapshot experiment_id.

Definition seal (experiment_id now : string) : M W ExperimentRecord :=
  if blank experiment_id then raise ValueError else
  x ← the_record experiment_id;
  if x_sealed x then raise AlreadySealedError else
  append_entry (sealed_entry experiment_id now);;
  put_record experiment_id (set_sealed now x);;
  the_snapshot experiment_id.

(** A mapping with at least one key. *)
Definition nonempty_mapping (j : json) : bool := match j with JObj (_ :: _) => true | _ => false end.

Definition attach_evidence (experiment_id : string) (evidence : json) (evidence_fingerprint : string) : M W ExperimentRecord :=
  if blank experiment_id || blank evidence_fingerprint then raise ValueError else
  if negb (nonempty_mapping evidence) then raise InvalidSpecificationError else
  x ← the_record experiment_id;
  if negb (x_sealed x) then raise ExperimentNotSealedError else
  if bool_decide (is_Some (x_evidence x)) then raise EvidenceAlreadyAttachedError else
  append_entry (evidence_entry experiment_id evidence evidence_fingerprint);;
  put_record experiment_id (set_evidence evidence evidence_fingerprint x);;
  the_snapshot experiment_id.

Definition _transition_locked (experiment_id : string) (x : Experiment) (to_state : LifecycleState) (now : string) : M W ExperimentRecord :=
  if negb (is_legal_transition (x_lifecycle_state x) to_state) then raise IllegalLifecycleTransitionError else
  if bool_decide (to_state = LifecycleState.EVIDENCE_SEALED) && negb (bool_decide (is_Some (x_evidence x))) then raise LifecycleGuardError else
  append_entry (state_entry experiment_id (x_lifecycle_state x) to_state now);;
  put_record experiment_id (set_state to_state x);;
  the_snapshot experiment_id.

Definition transition (experiment_id : string) (to_state : LifecycleState) (now : string) : M W ExperimentRecord :=
  x ← the_record experiment_id;
  if GOVERNANCE_DECISION_STATES to_state then raise GovernanceRequiredError else
  _transition_locked experiment_id x to_state now.

Definition apply_governance_decision (experiment_id : string) (decision : json) (to_state : LifecycleState) (now : string) : M W ExperimentRecord :=
  if negb (GOVERNANCE_DECISION_STATES to_state) then raise ValueError else
  if negb (nonempty_mapping decision) then raise InvalidSpecificationError else
  x ← the_record experiment_id;
  if negb (bool_decide (x_lifecycle_state x = LifecycleState.IN_REVIEW)) then raise LifecycleGuardError else
  if bool_decide (is_Some (x_governance_decision x)) then raise LifecycleGuardError else
  append_entry (decision_entry experiment_id decision);;
  put_record experiment_id (set_decision decision x);;
  _transition_locked experiment_id (set_decision decision x) to_state now.
End registry.

(** ** Queries *)

Definition get_governance_decision (experiment_id : string) (records : Records) : result (option json) :=
  x ← of_option ExperimentNotFoundError (dget experiment_id records); Ok (x_governance_decision x).
Definition get_evidence (experiment_id : string) (records : Records) : result (option json) :=
  x ← of_option ExperimentNotFoundError (dget experiment_id records); Ok (x_evidence x).
Definition registry_get (experiment_id : string) (records : Records) : result ExperimentRecord :=
  x ← of_option ExperimentNotFoundError (dget experiment_id records); snapshot_of experiment_id x.

(** The order of creation times, then of ids. *)
Definition created_of (records : Records) (eid : string) : string :=
  match dget eid records with Some x => x_created_at_utc x | None => "" end.
Definition by_creation (records : Records) (a b : string) : bool :=
  match String.compare (created_of records a) (created_of records b) with
  | Lt => true | Gt => false | Eq => String.leb a b
  end.
Definition _sorted_ids (records : Records) (ids : list string) : list string := sorted_by (by_creation records) ids.

(** The ids whose record satisfies [p], sorted; their snapshots. *)
Definition ids_where (p : Experiment -> bool) (records : Records) : list string :=
  _sorted_ids records (map fst (List.filter (fun r => p r.2) records)).
Fixpoint snapshots (records : Records) (ids : list string) : result (list ExperimentRecord) :=
  match ids with
  | [] => Ok []
  | eid :: ids => s ← _snapshot eid records; ss ← snapshots records ids; Ok (s :: ss)
  end.

Definition list_experiments (sealed : option bool) (state : option LifecycleState) (records : Records) : result (list ExperimentRecord) :=
  snapshots records (ids_where (fun x =>
    match sealed with None => true | Some b => Bool.eqb (x_sealed x) b end
    && match state with None => true | Some s => bool_decide (x_lifecycle_state x = s) end) records).

Definition get_roots (records : Records) : result (list ExperimentRecord) :=
  snapshots records (ids_where (fun x => bool_decide (x_parent_id x = None)) records).

Definition children_ids (experiment_id : string) (records : Records) : list string :=
  ids_where (fun x => bool_decide (x_parent_id x = Some experiment_id)) records.

Definition get_children (experiment_id : string) (records : Records) : result (list ExperimentRecord) :=
  if negb (din experiment_id records) then Err ExperimentNotFoundError else
  snapshots records (children_ids experiment_id records).

(** The loop up the parents; every turn visits one more experiment, so the fuel
    of [get_ancestors] is enough. *)
Fixpoint walk_up (fuel : nat) (records : Records) (visited chain : list string) (current : option string) : result (list string) :=
  match current with
  | None => Ok chain
  | Some c =>
      match fuel with
      | O => Err MalformedRegistryLogError
      | S fuel =>
          if existsb (String.eqb c) visited then Err MalformedRegistryLogError else
          match dget c records with
          | None => Err MalformedRegistryLogError
          | Some x => walk_up fuel records (c :: visited) (chain ++ [c]) (x_parent_id x)
          end
      end
  end.

Definition ancestor_ids (experiment_id : string) (records : Records) : result (list string) :=
  x ← of_option ExperimentNotFoundError (dget experiment_id records);
  chain ← walk_up (S (length records)) records [experiment_id] [] (x_parent_id x);
  Ok (rev chain).

Definition get_ancestors (experiment_id : string) (records : Records) : result (list ExperimentRecord) :=
  ids ← ancestor_ids experiment_id records; snapshots records ids.

(** The children of one experiment, added to what was visited. *)
Fixpoint add_children (visited found : list string) (children : list string) : result (list string * list string) :=
  match children with
  | [] => Ok (visited, found)
  | c :: children => if existsb (String.eqb c) visited then Err MalformedRegistryLogError
                     else add_children (c :: visited) (found ++ [c]) children
  end.

(** The loop over the frontier, breadth first. *)
Fixpoint walk_down (fuel : nat) (records : Records) (visited result_ids frontier : list string) : result (list string) :=
  match frontier with
  | [] => Ok result_ids
  | current :: frontier =>
      match fuel with
      | O => Err MalformedRegistryLogError
      | S fuel =>
          '(visited, found) ← add_children visited [] (children_ids current records);
          walk_down fuel records visited (result_ids ++ found) (frontier ++ found)
      end
  end.

Definition descendant_ids (experiment_id : string) (records : Records) : result (list string) :=
  if negb (din experiment_id records) then Err ExperimentNotFoundError else
  walk_down (S (length records)) records [experiment_id] [] [experiment_id].

Definition get_descendants (experiment_id : string) (records : Records) : result (list ExperimentRecord) :=
  ids ← descendant_ids experiment_id records; snapshots records ids.

Definition find_by_fingerprint (fingerprint : string) (records : Records) : result (list ExperimentRecord) :=
  if blank fingerprint then Err ValueError else
  snapshots records (ids_where (fun x => String.eqb (x_fingerprint x) fingerprint) records).

(** [==] on JSON values: numbers and booleans by value, dicts without order. *)
Definition json_num (j : json) : option Z := match j with JInt z => Some z | JBool b => Some (if b : bool then 1 else 0) | _ => None end.
Fixpoint json_eqb (a b : json) {struct a} : bool :=
  match a, b with
  | JNull, JNull => true
  | JStr s, JStr t => String.eqb s t
  | JList l, JList m =>
      (fix eqs l m := match l, m with [], [] => true | x :: l, y :: m => json_eqb x y && eqs l m | _, _ => false end) l m
  | JObj o, JObj q =>
      (length o =? length q)%nat &&
      (fix sub o := match o with
                    | [] => true
                    | (k, x) :: o => match dget k q with Some y => json_eqb x y && sub o | None => false end
                    end) o
  | _, _ => match json_num a, json_num b with Some x, Some y => x =? y | _, _ => false end
  end.

Definition find_by_specification_field (key : string) (value : json) (records : Records) : result (list ExperimentRecord) :=
  if blank key then Err ValueError else
  snapshots records (ids_where (fun x =>
    match jget key (x_specification x) with Some v => json_eqb v value | None => false end) records).
