(* ===== verification/RegistrySpec.v ===== *)
(** * The registry over its log

    Every write of the registry is an edit of its records together with the
    entry that replays it; so its log rebuilds it, and what each edit keeps,
    every run keeps. *)

From Stdlib Require Import ssreflect ZArith Lia Ascii String.
From stdpp Require Import base strings numbers gmap sets list relations.
From S2P Require Import Prelude PyText PyDict PyBytes PyJson PyJsonFacts PySort Payload EventStoreFacts RegistryLog Registry.
#[local] Open Scope Z_scope.

(** ** Edits *)

Inductive edit (records : Records) : entry -> Records -> Prop :=
  | ed_create id spec parent now : din id records = false -> is_mapping spec = true -> json_wf spec = true ->
      match parent with Some p => din p records = true | None => True end ->
      edit records (created_entry id (_fingerprint spec) parent spec now)
        (dset id (new_experiment (_fingerprint spec) parent spec now) records)
  | ed_seal id x now : dget id records = Some x -> x_sealed x = false ->
      edit records (sealed_entry id now) (dset id (set_sealed now x) records)
  | ed_evidence id x evidence fp : dget id records = Some x -> x_sealed x = true -> x_evidence x = None ->
      nonempty_mapping evidence = true -> json_wf evidence = true -> blank fp = false ->
      edit records (evidence_entry id evidence fp) (dset id (set_evidence evidence fp x) records)
  | ed_state id x to_state now : dget id records = Some x -> is_legal_transition (x_lifecycle_state x) to_state = true ->
      (to_state = LifecycleState.EVIDENCE_SEALED -> is_Some (x_evidence x)) ->
      (GOVERNANCE_DECISION_STATES to_state = true -> is_Some (x_governance_decision x)) ->
      edit records (state_entry id (x_lifecycle_state x) to_state now) (dset id (set_state to_state x) records)
  | ed_decision id x decision : dget id records = Some x -> x_lifecycle_state x = LifecycleState.IN_REVIEW ->
      x_governance_decision x = None -> nonempty_mapping decision = true -> json_wf decision = true ->
      edit records (decision_entry id decision) (dset id (set_decision decision x) records).

(** ** An edit's entry replays it *)

(** A record as its log gives it back: the keys of its values sorted. *)
Definition canon_exp (x : Experiment) : Experiment :=
  {| x_fingerprint := x_fingerprint x; x_parent_id := x_parent_id x; x_specification := canon (x_specification x);
     x_created_at_utc := x_created_at_utc x; x_sealed := x_sealed x; x_sealed_at_utc := x_sealed_at_utc x;
     x_evidence := canon <$> x_evidence x; x_evidence_fingerprint := x_evidence_fingerprint x;
     x_lifecycle_state := x_lifecycle_state x; x_governance_decision := canon <$> x_governance_decision x |}.
Definition canon_records (records : Records) : Records := map (fun p => (p.1, canon_exp p.2)) records.

Lemma dget_canon id records : dget id (canon_records records) = canon_exp <$> dget id records.
Proof. apply (dget_map canon_exp). Qed.
Lemma din_canon id records : din id (canon_records records) = din id records.
Proof. apply (din_map canon_exp). Qed.
Lemma dset_canon id x records : canon_records (dset id x records) = dset id (canon_exp x) (canon_records records).
Proof. induction records as [|[k y] records IH]; [done|]. cbn. destruct (String.eqb id k); [done|]. cbn. by rewrite -IH. Qed.

Lemma canon_exp_idem x : canon_exp (canon_exp x) = canon_exp x.
Proof.
  destruct x; unfold canon_exp; cbn. f_equal; [by rewrite canon_canon| |];
    match goal with |- context [canon <$> ?o] => destruct o; cbn; by rewrite ?canon_canon end.
Qed.
Lemma canon_records_idem records : canon_records (canon_records records) = canon_records records.
Proof. unfold canon_records. rewrite map_map. apply map_ext. intros [k x]. cbn. by rewrite canon_exp_idem. Qed.

Section reading.
Context (e : entry) (Hwf : json_wf (JObj e) = true).

Lemma item_canon k v : dget k e = Some v -> item k (canon (JObj e)) = Ok (canon v).
Proof.
  intros Hk. pose proof (jget_canon k _ Hwf) as Hg. cbn [jget] in Hg. rewrite Hk in Hg.
  unfold item. cbn [canon] in *. cbn [jget] in Hg. by rewrite Hg.
Qed.
Lemma str_item_canon k s : dget k e = Some (JStr s) -> str_item k (canon (JObj e)) = Ok s.
Proof. intros Hk. unfold str_item. by rewrite (item_canon k (JStr s)). Qed.
Lemma jstr_entry k s : dget k e = Some (JStr s) -> jstr k (canon (JObj e)) = Some s.
Proof. intros Hk. rewrite jstr_canon //. unfold jstr. cbn [jget]. by rewrite Hk. Qed.
Lemma entry_state_canon k s : dget k e = Some (JStr (LifecycleState.value s)) -> entry_state k (canon (JObj e)) = Ok s.
Proof.
  intros Hk. unfold entry_state. rewrite (item_canon k _ Hk). cbn [mbind result_bind canon].
  change (LifecycleState.value s) with (enum_value s). by rewrite jenum_value.
Qed.
Lemma entry_record_canon id x records : dget "experiment_id" e = Some (JStr id) -> dget id records = Some x ->
  entry_record (canon_records records) (canon (JObj e)) = Ok (id, canon_exp x).
Proof. intros Hk Hx. unfold entry_record. rewrite (str_item_canon _ id) //. cbn [mbind result_bind]. by rewrite dget_canon Hx. Qed.
End reading.

(** Which branch of [_apply_entry] reads an entry. *)
Lemma apply_entry_of e ty records : json_wf (JObj e) = true -> dget "type" e = Some (JStr ty) ->
  _apply_entry records (canon (JObj e)) =
    if String.eqb ty _ENTRY_CREATED then apply_created records (canon (JObj e))
    else if String.eqb ty _ENTRY_SEALED then apply_sealed records (canon (JObj e))
    else if String.eqb ty _ENTRY_EVIDENCE then apply_evidence records (canon (JObj e))
    else if String.eqb ty _ENTRY_STATE then apply_state records (canon (JObj e))
    else if String.eqb ty _ENTRY_DECISION then apply_decision records (canon (JObj e))
    else Err MalformedRegistryLogError.
Proof. intros Hwf Ht. unfold _apply_entry. by rewrite (jstr_entry e Hwf "type" ty Ht). Qed.

Ltac entry_wf := apply json_wf_obj; split; [apply (bool_decide_eq_true_1 _); vm_compute; reflexivity|];
  repeat (apply Forall_cons; split; [first [done | by case_match]|]); by apply Forall_nil.

Lemma edit_entry_ok records e records' : edit records e records' -> entry_ok e.
Proof. intros [id spec parent now| | | |]; (split; [entry_wf|done]). Qed.

Lemma some_none {X} (o : option X) : o = None -> bool_decide (is_Some o) = false.
Proof. intros ->. apply bool_decide_eq_false. by intros []. Qed.
Lemma canon_none (o : option json) : o = None -> canon <$> o = None.
Proof. by intros ->. Qed.
Lemma canon_some (o : option json) : is_Some o -> is_Some (canon <$> o).
Proof. intros [j ->]. by eexists. Qed.

Lemma mapping_canon j : nonempty_mapping j = true -> match canon j with JNull => None | _ => Some (canon j) end = Some (canon j) /\
  match j with JNull => None | _ => Some j end = Some j.
Proof. by destruct j. Qed.

Lemma edit_replays records e records' : edit records e records' ->
  replay_entry (canon_records records) (canon (JObj e)) = Ok (canon_records records').
Proof.
  intros He. pose proof (edit_entry_ok _ _ _ He) as [Hwf _]. unfold replay_entry.
  destruct He as [id spec parent now Hn Hm Hs Hp|id x now Hx Hs|id x ev fp Hx Hs Hn Hm Hw Hb|id x to now Hx Hl Hev Hg|id x d Hx Hst Hn Hm Hw].
  - rewrite (apply_entry_of _ _ENTRY_CREATED) // String.eqb_refl. unfold apply_created.
    rewrite (str_item_canon _ Hwf "experiment_id" id) //. cbn [mbind result_bind]. rewrite din_canon Hn.
    assert (Hpar : entry_parent (canon_records records) (canon (JObj (created_entry id (_fingerprint spec) parent spec now))) = Ok parent).
    { unfold entry_parent. rewrite jget_canon //. change (jget _ _) with (Some (opt_json parent)).
      destruct parent as [p|]; cbn [fmap option_fmap option_map canon opt_json]; [by rewrite din_canon Hp|done]. }
    rewrite Hpar. cbn [mbind result_bind]. rewrite (str_item_canon _ Hwf "fingerprint" (_fingerprint spec)) //. cbn [mbind result_bind].
    rewrite (item_canon _ Hwf "specification" spec) //. cbn [mbind result_bind]. rewrite (str_item_canon _ Hwf "created_at_utc" now) //. cbn [mbind result_bind].
    by rewrite dset_canon.
  - rewrite (apply_entry_of _ _ENTRY_SEALED) //. change (String.eqb _ENTRY_SEALED _ENTRY_CREATED) with false. rewrite String.eqb_refl. unfold apply_sealed.
    rewrite (entry_record_canon _ Hwf id x) //. cbn [mbind result_bind canon_exp x_sealed]. rewrite Hs (str_item_canon _ Hwf "sealed_at_utc" now) //.
    cbn [mbind result_bind]. by rewrite dset_canon.
  - rewrite (apply_entry_of _ _ENTRY_EVIDENCE) //. change (String.eqb _ENTRY_EVIDENCE _ENTRY_CREATED) with false.
    change (String.eqb _ENTRY_EVIDENCE _ENTRY_SEALED) with false. rewrite String.eqb_refl. unfold apply_evidence.
    rewrite (entry_record_canon _ Hwf id x) //. cbn [mbind result_bind canon_exp x_sealed x_evidence]. rewrite Hs some_none; [by apply canon_none|].
    cbn [negb]. rewrite (item_canon _ Hwf "evidence" ev) // (str_item_canon _ Hwf "evidence_fingerprint" fp) //. cbn [mbind result_bind]. rewrite dset_canon.
    unfold set_evidence, canon_exp. cbn. destruct (mapping_canon ev Hm) as [-> ->]. done.
  - rewrite (apply_entry_of _ _ENTRY_STATE) //. change (String.eqb _ENTRY_STATE _ENTRY_CREATED) with false.
    change (String.eqb _ENTRY_STATE _ENTRY_SEALED) with false. change (String.eqb _ENTRY_STATE _ENTRY_EVIDENCE) with false. rewrite String.eqb_refl. unfold apply_state.
    rewrite (entry_record_canon _ Hwf id x) //. cbn [mbind result_bind].
    rewrite (entry_state_canon _ Hwf "from_state" (x_lifecycle_state x)) // (entry_state_canon _ Hwf "to_state" to) //. cbn [mbind result_bind canon_exp x_lifecycle_state x_governance_decision].
    rewrite bool_decide_eq_true_2 // Hl. cbn [negb].
    assert (E : GOVERNANCE_DECISION_STATES to && negb (bool_decide (is_Some (canon <$> x_governance_decision x))) = false).
    { destruct (GOVERNANCE_DECISION_STATES to); [|done]. by rewrite bool_decide_eq_true_2; [apply canon_some, Hg|]. }
    rewrite E. by rewrite dset_canon.
  - rewrite (apply_entry_of _ _ENTRY_DECISION) //. change (String.eqb _ENTRY_DECISION _ENTRY_CREATED) with false.
    change (String.eqb _ENTRY_DECISION _ENTRY_SEALED) with false. change (String.eqb _ENTRY_DECISION _ENTRY_EVIDENCE) with false.
    change (String.eqb _ENTRY_DECISION _ENTRY_STATE) with false. rewrite String.eqb_refl. unfold apply_decision.
    rewrite (entry_record_canon _ Hwf id x) //. cbn [mbind result_bind canon_exp x_lifecycle_state x_governance_decision].
    rewrite Hst bool_decide_eq_true_2 // some_none; [by apply canon_none|]. cbn [negb]. rewrite (item_canon _ Hwf "decision" d) //. cbn [mbind result_bind].
    rewrite dset_canon. unfold set_decision, canon_exp. cbn. destruct (mapping_canon d Hm) as [-> ->]. done.
Qed.

(** ** What every experiment satisfies *)

(** The states that only evidence leads to, and those only a decision leads to. *)
Definition after_evidence (s : LifecycleState) : bool :=
  match s with LifecycleState.PROPOSED | LifecycleState.VALIDATING | LifecycleState.WITHDRAWN => false | _ => true end.
Definition after_decision (s : LifecycleState) : bool :=
  match s with
  | LifecycleState.PROPOSED | LifecycleState.VALIDATING | LifecycleState.WITHDRAWN | LifecycleState.EVIDENCE_SEALED
  | LifecycleState.IN_REVIEW => false
  | _ => true
  end.

Record experiment_ok (x : Experiment) : Prop := {
  xo_mapping : is_mapping (x_specification x) = true;
  xo_fingerprint : x_fingerprint x = _fingerprint (x_specification x);
  xo_sealed : x_sealed x = bool_decide (is_Some (x_sealed_at_utc x));
  xo_evidence_sealed : is_Some (x_evidence x) -> x_sealed x = true;
  xo_evidence : after_evidence (x_lifecycle_state x) = true -> is_Some (x_evidence x);
  xo_decision : after_decision (x_lifecycle_state x) = true -> is_Some (x_governance_decision x);
  xo_decided : is_Some (x_governance_decision x) ->
    x_lifecycle_state x = LifecycleState.IN_REVIEW \/ after_decision (x_lifecycle_state x) = true
}.

Lemma legal_cases s s' : is_legal_transition s s' = true ->
  (after_evidence s' = true -> after_evidence s = true \/ s' = LifecycleState.EVIDENCE_SEALED) /\
  (after_decision s' = true -> after_decision s = true \/ GOVERNANCE_DECISION_STATES s' = true) /\
  (s = LifecycleState.IN_REVIEW \/ after_decision s = true -> after_decision s' = true).
Proof. intros Hl. destruct s, s'; try (by vm_compute in Hl); split_and!; intros; auto; by destruct_or?. Qed.

Lemma some_mapping j : nonempty_mapping j = true -> is_Some (match j with JNull => None | _ => Some j end).
Proof. intros Hm. destruct j; try done; by eexists. Qed.

Lemma fingerprint_canon j : _fingerprint (canon j) = _fingerprint j.
Proof. unfold _fingerprint, dumps_sorted. by rewrite dumps_canon. Qed.

Lemma experiment_ok_new spec parent now : is_mapping spec = true ->
  experiment_ok (new_experiment (_fingerprint spec) parent spec now).
Proof. intros Hm. split; cbn; try done; try (by intros []). Qed.

Lemma experiment_ok_edit records e records' : edit records e records' ->
  (forall id x, dget id records = Some x -> experiment_ok x) -> forall id x, dget id records' = Some x -> experiment_ok x.
Proof.
  intros He Hall id x. destruct He as [k spec parent now Hn Hm Hs Hp|k y now Hy Hs|k y ev fp Hy Hs Hn Hm Hw Hb|k y to now Hy Hl Hev Hg|k y d Hy Hst Hn Hm Hw];
    rewrite dget_dset; destruct (String.eqb id k); try apply Hall; intros E; injection E as <-;
    [by apply experiment_ok_new| | | |]; destruct (Hall _ _ Hy) as [H1 H2 H3 H4 H5 H6 H7]; split; cbn; try done.
  - intros _. by apply some_mapping.
  - intros Ha. destruct (legal_cases _ _ Hl) as (Hc & _ & _). destruct (Hc Ha) as [?| ->]; [by apply H5|by apply Hev].
  - intros Ha. destruct (legal_cases _ _ Hl) as (_ & Hc & _). destruct (Hc Ha) as [?|?]; [by apply H6|by apply Hg].
  - intros Hd. right. apply (legal_cases _ _ Hl). by apply H7.
  - intros _. by apply some_mapping.
  - intros _. by left.
Qed.

Lemma experiment_ok_canon x : experiment_ok x -> experiment_ok (canon_exp x).
Proof.
  intros [H1 H2 H3 H4 H5 H6 H7]. split; cbn; [|by rewrite fingerprint_canon|done| | | |].
  - by destruct (x_specification x).
  - intros Hs. apply H4. by destruct (x_evidence x), Hs.
  - intros Ha. by apply canon_some, H5.
  - intros Ha. by apply canon_some, H6.
  - intros Hs. apply H7. by destruct (x_governance_decision x), Hs.
Qed.

(** ** How an experiment may change *)

Inductive edge : LifecycleState -> LifecycleState -> Prop :=
  | edge_legal s s' : is_legal_transition s s' = true -> edge s s'.

(** Two values that print to the same JSON. *)
Definition same_json (a b : json) : Prop := canon a = canon b.
Definition kept_once {X} (same : X -> X -> Prop) (a b : option X) : Prop :=
  match a with Some x => exists y, b = Some y /\ same x y | None => True end.

Record evolves (x x' : Experiment) : Prop := {
  ev_fingerprint : x_fingerprint x' = x_fingerprint x;
  ev_parent : x_parent_id x' = x_parent_id x;
  ev_specification : same_json (x_specification x) (x_specification x');
  ev_created : x_created_at_utc x' = x_created_at_utc x;
  ev_sealed : x_sealed x = true -> x_sealed x' = true /\ x_sealed_at_utc x' = x_sealed_at_utc x;
  ev_evidence : kept_once same_json (x_evidence x) (x_evidence x');
  ev_evidence_fp : is_Some (x_evidence x) -> x_evidence_fingerprint x' = x_evidence_fingerprint x;
  ev_decision : kept_once same_json (x_governance_decision x) (x_governance_decision x');
  ev_state : rtc edge (x_lifecycle_state x) (x_lifecycle_state x')
}.

Lemma kept_refl (o : option json) : kept_once same_json o o.
Proof. destruct o; cbn; [by eexists|done]. Qed.
Lemma kept_trans (a b c : option json) : kept_once same_json a b -> kept_once same_json b c -> kept_once same_json a c.
Proof.
  destruct a as [x|]; [|done]. cbn. intros (y & -> & Hy) (z & -> & Hz). exists z. split; [done|]. unfold same_json in *. congruence.
Qed.
#[local] Hint Resolve kept_refl : turtle.

Lemma evolves_refl x : evolves x x.
Proof. split; auto with turtle; done. Qed.

#[global] Instance evolves_preorder : PreOrder evolves.
Proof.
  split; [exact evolves_refl|]. intros x y z [a1 a2 a3 a4 a5 a6 a7 a8 a9] [b1 b2 b3 b4 b5 b6 b7 b8 b9].
  split; unfold same_json in *; try congruence.
  - intros Hs. destruct (a5 Hs) as [Hy Ha]. destruct (b5 Hy) as [Hz Hb]. split; congruence.
  - by eapply kept_trans.
  - intros Hs. rewrite -(a7 Hs). apply b7. destruct (x_evidence x); [|by destruct Hs]. destruct a6 as (? & -> & _). by eexists.
  - by eapply kept_trans.
  - by etransitivity.
Qed.

Lemma evolves_canon x : evolves x (canon_exp x).
Proof.
  split; cbn; try done; unfold same_json; rewrite ?canon_canon //.
  - destruct (x_evidence x); cbn; [|done]. eexists. by split; [done|rewrite /same_json canon_canon].
  - destruct (x_governance_decision x); cbn; [|done]. eexists. by split; [done|rewrite /same_json canon_canon].
Qed.

(** Every experiment is still there, and has only evolved. *)
Definition history (r r' : Records) : Prop :=
  forall id x, dget id r = Some x -> exists x', dget id r' = Some x' /\ evolves x x'.

#[global] Instance history_preorder : PreOrder history.
Proof.
  split; [intros r id x Hx; exists x; by split|]. intros r1 r2 r3 H12 H23 id x Hx. destruct (H12 id x Hx) as (y & Hy & Hxy).
  destruct (H23 id y Hy) as (z & Hz & Hyz). exists z. split; [done|by etransitivity].
Qed.

Lemma history_canon records : history records (canon_records records).
Proof. intros id x Hx. exists (canon_exp x). by rewrite dget_canon Hx; split; [|apply evolves_canon]. Qed.

Lemma history_dset records k y y' : dget k records = Some y -> evolves y y' -> history records (dset k y' records).
Proof.
  intros Hk He id x Hx. rewrite dget_dset. destruct (String.eqb_spec id k) as [->|Hne]; [|by exists x].
  exists y'. split; [done|]. rewrite Hk in Hx. by injection Hx as <-.
Qed.

Lemma history_edit records e records' : edit records e records' -> history records records'.
Proof.
  intros He. destruct He as [k spec parent now Hn Hm Hs Hp|k y now Hy Hs|k y ev fp Hy Hs Hn Hm Hw Hb|k y to now Hy Hl Hev Hg|k y d Hy Hst Hn Hm Hw].
  - intros id x Hx. rewrite dget_dset. destruct (String.eqb_spec id k) as [->|Hne]; [|by exists x]. unfold din in Hn. by rewrite Hx in Hn.
  - eapply history_dset; [done|]. split; cbn; auto with turtle; try done. by rewrite Hs.
  - eapply history_dset; [done|]. split; cbn; auto with turtle; try done; rewrite Hn; [done|by intros []].
  - eapply history_dset; [done|]. split; cbn; auto with turtle; try done. by apply rtc_once.
  - eapply history_dset; [done|]. split; cbn; auto with turtle; try done. by rewrite Hn.
Qed.

(** ** The registry over a storage *)

(** What a caller may ask of the registry. *)
Inductive call :=
  | c_create (id : string) (spec : json) (parent : option string) (now : string)
  | c_seal (id now : string)
  | c_attach (id : string) (evidence : json) (fp : string)
  | c_transition (id : string) (to_state : LifecycleState) (now : string)
  | c_decide (id : string) (decision : json) (to_state : LifecycleState) (now : string).

(** Objects have distinct keys, as dicts do. *)
Definition call_wf (c : call) : Prop :=
  match c with
  | c_create _ j _ _ | c_attach _ j _ | c_decide _ j _ _ => json_wf j = true
  | _ => True
  end.

Section over_storage.
Context {T : Type} `{RegistryStorage T}.
Notation W := (T * Records)%type.

Definition run_call (c : call) : M W ExperimentRecord :=
  match c with
  | c_create id spec parent now => create id spec parent now
  | c_seal id now => seal id now
  | c_attach id evidence fp => attach_evidence id evidence fp
  | c_transition id to_state now => transition id to_state now
  | c_decide id decision to_state now => apply_governance_decision id decision to_state now
  end.

(** A storage that holds whole entries only, and goes on. *)
Definition settled (t : T) : Prop := rs_ok t /\ rs_torn t = false.

(** One append of a call: taken together with its edit, or failed, and then
    possibly torn. *)
Inductive wstep : W -> W -> Prop :=
  | ws_failed e t records records' x : settled t -> edit records e records' -> (rs_append e t).2 = Err x ->
      wstep (t, records) ((rs_append e t).1, records)
  | ws_edit e t records records' : settled t -> edit records e records' -> (rs_append e t).2 = Ok tt ->
      wstep (t, records) ((rs_append e t).1, records').

Lemma append_settled e t : entry_ok e -> settled t -> (rs_append e t).2 = Ok tt -> settled (rs_append e t).1.
Proof. intros He [Hok Ht] Ha. pose proof (rs_append_entries e t He Hok Ht) as [Hok' Hr]. rewrite Ha in Hr. by destruct Hr. Qed.

(** An append followed by its edit and by steps of the rest. *)
Lemma append_then {A} (w : W) e records' (k : W -> W * result A) (m : M W A) : settled w.1 -> edit w.2 e records' ->
  m w = (let '(t, r) := rs_append e w.1 in match r with Ok _ => k (t, records') | Err x => ((t, w.2), Err x) end) ->
  (settled (rs_append e w.1).1 -> rtc wstep ((rs_append e w.1).1, records') (k ((rs_append e w.1).1, records')).1) ->
  rtc wstep w (m w).1.
Proof.
  intros Ht He -> Hk. destruct w as [t records]. cbn [fst snd] in *.
  pose proof (append_settled e t (edit_entry_ok _ _ _ He) Ht) as Ht'.
  pose proof (ws_edit e t records records' Ht He) as Hs. pose proof (fun x => ws_failed e t records records' x Ht He) as Hr.
  destruct (rs_append e t) as [t' [[]|x]]; cbn [fst snd] in *.
  - eapply rtc_l; [by apply Hs|by apply Hk, Ht'].
  - apply rtc_once. by eapply Hr.
Qed.

Lemma the_record_run {A} (w : W) id (f : Experiment -> M W A) :
  (the_record id ≫= f) w = match dget id w.2 with Some x => f x w | None => (w, Err ExperimentNotFoundError) end.
Proof. unfold the_record, mbind, M_bind. by destruct (dget id w.2). Qed.

Lemma append_run {A} (w : W) e id x (m : M W A) : (append_entry e;; put_record id x;; m) w =
  (let '(t, r) := rs_append e w.1 in match r with Ok _ => m (t, dset id x w.2) | Err y => ((t, w.2), Err y) end).
Proof.
  unfold append_entry, zoom, mbind, M_bind. destruct (rs_append e w.1) as [t [[]|y]]; reflexivity.
Qed.

(** Where a write is made, its guards hold. *)
Lemma locked_steps id x to_state now (w : W) : settled w.1 -> dget id w.2 = Some x ->
  (GOVERNANCE_DECISION_STATES to_state = true -> is_Some (x_governance_decision x)) ->
  rtc wstep w (_transition_locked id x to_state now w).1.
Proof.
  intros Ht Hx Hg. unfold _transition_locked.
  destruct (is_legal_transition _ _) eqn:Hl; cbn [negb]; [|done].
  destruct (bool_decide (to_state = LifecycleState.EVIDENCE_SEALED) && _) eqn:He; [done|].
  eapply append_then; [done| |apply append_run|done]. apply ed_state; [done|done| |done].
  intros ->. rewrite bool_decide_eq_true_2 // in He. apply andb_false_iff in He as [?|He]; [done|].
  apply negb_false_iff in He. by apply bool_decide_eq_true_1 in He.
Qed.

Lemma call_steps c (w : W) : settled w.1 -> call_wf c -> rtc wstep w (run_call c w).1.
Proof.
  intros Ht. destruct c as [id spec parent now|id now|id ev fp|id to now|id d to now]; cbn [call_wf run_call]; intros Hwf.
  - unfold create. destruct (blank id); [done|]. destruct (is_mapping spec) eqn:Hm; cbn [negb]; [|done].
    destruct (match parent with Some p => blank p | None => false end); [done|]. rewrite run_get.
    destruct (din id w.2) eqn:Hn; [done|]. destruct (match parent with Some p => negb (din p w.2) | None => false end) eqn:Hp; [done|].
    eapply append_then; [done| |apply append_run|done]. apply ed_create; try done. destruct parent as [p|]; [|done].
    by apply negb_false_iff in Hp.
  - unfold seal. destruct (blank id); [done|]. rewrite the_record_run. destruct (dget id w.2) as [x|] eqn:Hx; [|done].
    destruct (x_sealed x) eqn:Hs; [done|]. eapply append_then; [done| |apply append_run|done]. by apply ed_seal.
  - unfold attach_evidence. destruct (blank id); [done|]. destruct (blank fp) eqn:Hb; [done|]. cbn [orb].
    destruct (nonempty_mapping ev) eqn:Hm; cbn [negb]; [|done]. rewrite the_record_run. destruct (dget id w.2) as [x|] eqn:Hx; [|done].
    destruct (x_sealed x) eqn:Hs; cbn [negb]; [|done]. destruct (x_evidence x) eqn:He; [by rewrite bool_decide_eq_true_2|].
    rewrite some_none //. eapply append_then; [done| |apply append_run|done]. by apply ed_evidence.
  - unfold transition. rewrite the_record_run. destruct (dget id w.2) as [x|] eqn:Hx; [|done].
    destruct (GOVERNANCE_DECISION_STATES to) eqn:Hg; [done|]. apply locked_steps; [done|done|]. by rewrite Hg.
  - unfold apply_governance_decision. destruct (GOVERNANCE_DECISION_STATES to) eqn:Hg; cbn [negb]; [|done].
    destruct (nonempty_mapping d) eqn:Hm; cbn [negb]; [|done]. rewrite the_record_run. destruct (dget id w.2) as [x|] eqn:Hx; [|done].
    case_bool_decide as Hst; cbn [negb]; [|done]. destruct (x_governance_decision x) eqn:Hd; [by rewrite bool_decide_eq_true_2|].
    rewrite some_none //. eapply append_then; [done|by apply ed_decision|apply append_run|]. intros Ht'. apply locked_steps; [done|cbn; apply dget_dset_eq|].
    intros _. cbn. destruct (mapping_canon d Hm) as [_ ->]. by eexists.
Qed.

(** ** Runs *)

(** After a torn append nothing more is called: the process has died, or is
    restarted. *)
Inductive reg_step : W -> W -> Prop :=
  | rs_call c w : call_wf c -> rs_torn w.1 = false -> reg_step w (run_call c w).1
  | rs_restart t records records' : registry_init t = Ok records' -> reg_step (t, records) (t, records').

(** A storage without entries, and the registry made on it. *)
Definition reg_start (w : W) : Prop := settled w.1 /\ rs_entries w.1 = [] /\ w.2 = [].
Definition reg_reach (w : W) : Prop := exists w0, reg_start w0 /\ rtc reg_step w0 w.

(** The records a reader gets from the entries. *)
Definition replays (entries : list json) (records : Records) : Prop := fold_result replay_entry [] entries = Ok (canon_records records).

(** What the storage holds: the records, or, after a torn append, those with
    the edit of the append that failed. *)
Definition held (w : W) (records : Records) : Prop :=
  replays (rs_entries w.1) records /\
  (records = w.2 \/ rs_torn w.1 = true /\ exists e es, edit w.2 e records /\ rs_entries w.1 = es ++ [canon (JObj e)] /\ replays es w.2).

Definition in_step (w : W) : Prop := rs_ok w.1 /\ exists records, held w records.

Lemma wstep_in_step w w' : wstep w w' -> in_step w -> in_step w'.
Proof.
  intros Hs [Hok (r & Hr & Hh)]. assert (Ht : settled w.1) by (by destruct Hs).
  destruct Hh as [->|[Ht' _]]; [|destruct Ht as [_ Ht]; by rewrite Ht in Ht'].
  destruct Hs as [e t records records' x [_ Hu] He Ha|e t records records' [_ Hu] He Ha]; cbn [fst snd] in *;
    pose proof (edit_entry_ok _ _ _ He) as Hoe; pose proof (rs_append_entries e t Hoe Hok Hu) as [Hok' Hae]; rewrite Ha in Hae;
    (split; [done|]); unfold held; cbn [fst snd].
  - destruct Hae as [_ [E|[Ht' E]]]; [exists records; rewrite E; by auto|]. exists records'. rewrite E. split.
    + unfold replays. erewrite fold_result_snoc; [|exact Hr]. by apply edit_replays.
    + right. split; [done|]. by exists e, (rs_entries t).
  - destruct Hae as [_ E]. exists records'. rewrite E. split; [|by left]. unfold replays. erewrite fold_result_snoc; [|exact Hr]. by apply edit_replays.
Qed.

Lemma wsteps_in_step w w' : rtc wstep w w' -> in_step w -> in_step w'.
Proof. induction 1 as [|x y z Hs _ IH]; [done|]. intros Hi. eapply IH, wstep_in_step; eauto. Qed.

Lemma init_held w records : rs_ok w.1 -> held w records -> registry_init w.1 = Ok (canon_records records).
Proof. intros Hok [Hr _]. unfold registry_init. by rewrite rs_read_entries. Qed.

Lemma init_in_step t records : in_step (t, records) -> rs_torn t = false -> registry_init t = Ok (canon_records records).
Proof.
  intros [Hok (r & Hh)] Ht. rewrite (init_held (t, records) r Hok Hh). destruct Hh as [_ [->|[Ht' _]]]; [done|]. cbn in Ht'. by rewrite Ht in Ht'.
Qed.

Lemma step_in_step w w' : reg_step w w' -> in_step w -> in_step w'.
Proof.
  intros [c w0 Hwf Ht|t records records' Hi] Hw; [eapply wsteps_in_step, Hw; apply call_steps; [by destruct Hw|done]|].
  destruct Hw as [Hok (r & Hh)]. rewrite (init_held (t, records) r Hok Hh) in Hi. injection Hi as <-. split; [done|].
  exists (canon_records r). split; [|by left]. unfold replays. rewrite canon_records_idem. by destruct Hh.
Qed.

Lemma steps_in_step w w' : rtc reg_step w w' -> in_step w -> in_step w'.
Proof. induction 1 as [|x y z Hs _ IH]; [done|]. intros Hi. by apply IH, (step_in_step _ _ Hs). Qed.

Lemma start_in_step w : reg_start w -> in_step w.
Proof. intros ([Hok _] & He & Hr). split; [done|]. exists []. split; [by rewrite He|by left]. Qed.

Lemma reach_in_step w : reg_reach w -> in_step w.
Proof. intros (w0 & H0 & Hs). by apply (steps_in_step _ _ Hs), start_in_step. Qed.

(** C30: restarting loses nothing. After any run of calls and restarts over a
    storage, whatever appends it refused and wherever in its line the last one
    failed, a registry made on that storage starts, and has the records of the
    running one, each JSON value with its keys sorted. Only where that last
    append failed with its whole entry written are they the records it was
    making: the log then ends in that entry, and what is before it still gives
    the running records. A run makes no further call once a failed append has left
    something behind ([rs_torn]): the restart is what comes next. *)
Theorem registry_restart w : reg_reach w -> exists records, registry_init w.1 = Ok (canon_records records) /\
  (records = w.2 \/ rs_torn w.1 = true /\
   exists e es, edit w.2 e records /\ rs_entries w.1 = es ++ [canon (JObj e)] /\ fold_result replay_entry [] es = Ok (canon_records w.2)).
Proof. intros Hw. destruct (reach_in_step w Hw) as [Hok (r & Hh)]. exists r. split; [by apply init_held|]. by destruct Hh. Qed.

(** A preorder that holds across every edit, and across reading the records
    back, holds across any run. *)
Lemma steps_relate (R : Records -> Records -> Prop) `{!PreOrder R} :
  (forall records e records', edit records e records' -> R records records') ->
  (forall records, R records (canon_records records)) ->
  forall w w', in_step w -> rtc reg_step w w' -> R w.2 w'.2.
Proof.
  intros Hedit Hcanon w w' Hi Hs. induction Hs as [w|x y z Hxy _ IH]; [done|].
  transitivity y.2; [clear IH|by apply IH, (step_in_step _ _ Hxy)]. destruct Hi as [Hok (r & Hh)].
  destruct Hxy as [c w1 Hwf Ht|t records records' Hini]; cbn [snd].
  - pose proof (call_steps c w1 (conj Hok Ht) Hwf) as Hst. clear Hok Hh Ht. induction Hst as [|a b d Hab _ IHs]; [done|]. transitivity b.2; [|done].
    destruct Hab; [done|by eapply Hedit].
  - rewrite (init_held (t, records) r Hok Hh) in Hini. injection Hini as <-.
    destruct Hh as [_ [->|(_ & e & es & He & _)]]; [apply Hcanon|]. cbn [snd] in He. transitivity r; [by eapply Hedit|apply Hcanon].
Qed.

(** What every edit, and reading the records back, keeps holds after any run. *)
Lemma reach_keeps (P : Records -> Prop) : P [] -> (forall records e records', edit records e records' -> P records -> P records') ->
  (forall records, P records -> P (canon_records records)) -> forall w, reg_reach w -> P w.2.
Proof.
  intros H0 Hedit Hcanon w (w0 & Hst & Hs).
  assert (HR : PreOrder (fun r r' => P r -> P r')) by (split; [by intros ?|intros ?????; auto]).
  apply (steps_relate (fun r r' => P r -> P r') Hedit Hcanon w0 w); [by apply start_in_step|done|]. destruct Hst as (_ & _ & ->). done.
Qed.

Definition all_ok (records : Records) : Prop := forall id x, dget id records = Some x -> experiment_ok x.

Lemma reach_all_ok w : reg_reach w -> all_ok w.2.
Proof.
  apply (reach_keeps all_ok); [done|exact experiment_ok_edit|]. intros records Hall id x. rewrite dget_canon.
  destruct (dget id records) as [y|] eqn:Hy; [|done]. intros E. injection E as <-. by eapply experiment_ok_canon, Hall.
Qed.

(** C5: no promotion without review. After any run, an experiment that is or was
    under review has its specification sealed and its evidence attached; one
    that was ever approved, rejected, deferred or put in production has a
    recorded governance decision; and one with a decision is in review, or in a
    state the lifecycle reaches only from review by a decision. Its fingerprint
    is that of the specification it was registered with. *)
Theorem promotion_needs_governance w id x : reg_reach w -> dget id w.2 = Some x ->
  x_fingerprint x = _fingerprint (x_specification x) /\
  (after_evidence (x_lifecycle_state x) = true -> x_sealed x = true /\ is_Some (x_evidence x)) /\
  (after_decision (x_lifecycle_state x) = true -> is_Some (x_governance_decision x)) /\
  (is_Some (x_governance_decision x) ->
     x_lifecycle_state x = LifecycleState.IN_REVIEW \/ after_decision (x_lifecycle_state x) = true).
Proof.
  intros Hw Hx. destruct (reach_all_ok w Hw id x Hx) as [H1 H2 H3 H4 H5 H6 H7]. split_and!; [done| |done|done].
  intros Ha. split; [by apply H4, H5|by apply H5].
Qed.

(** An experiment's history is append-only. Whatever calls and restarts
    follow, a registered experiment stays registered, with the same
    specification, fingerprint, parent and creation time; once sealed it stays
    sealed at the same time; evidence and decision, once there, stay; and its
    state only ever moves along the edges of the lifecycle table. *)
Theorem history_append_only w w' id x : reg_reach w -> rtc reg_step w w' -> dget id w.2 = Some x ->
  exists x', dget id w'.2 = Some x' /\ evolves x x'.
Proof. intros Hw Hs. by apply (steps_relate history history_edit history_canon w w' (reach_in_step w Hw) Hs). Qed.
End over_storage.
