(* ===== verification/RegistryRuns.v ===== *)
(** * Runs of the experiment registry

    A decision whose transition failed holds its experiment for ever; every other
    experiment can be brought to its end; and the runs the theorems are tried on. *)

From Stdlib Require Import ssreflect ZArith Lia Ascii String.
From stdpp Require Import base strings numbers gmap sets list relations.
From S2P Require Import Prelude PyText PyDict PyBytes PyJson PyJsonFacts PySort Payload EventStoreFacts RegistryLog Registry RegistrySpec.
#[local] Open Scope Z_scope.

(** ** A decision without its transition *)

(** Under review, with a decision recorded. *)
Definition decided (x : Experiment) : Prop := x_lifecycle_state x = LifecycleState.IN_REVIEW /\ is_Some (x_governance_decision x).
Definition stuck (id : string) (records : Records) : Prop := exists x, dget id records = Some x /\ decided x.

Lemma stuck_put id k y records : stuck id records -> (k = id -> decided y) -> stuck id (dset k y records).
Proof.
  intros (x & Hx & Hd) Hy. destruct (String.eqb_spec id k) as [->|Hne].
  - exists y. rewrite dget_dset_eq. auto.
  - exists x. by rewrite dget_dset_ne.
Qed.

Lemma stuck_canon id records : stuck id records -> stuck id (canon_records records).
Proof. intros (x & Hx & Hs & Hd). exists (canon_exp x). rewrite dget_canon Hx. split; [done|]. split; [done|by apply canon_some]. Qed.

Section over_storage.
Context {T : Type} `{RegistryStorage T}.
Notation W := (T * Records)%type.

Lemma append_put id e k y (m : M W ExperimentRecord) (w : W) : stuck id w.2 -> (k = id -> decided y) ->
  (forall w' : W, stuck id w'.2 -> stuck id (m w').1.2) -> stuck id ((append_entry e;; put_record k y;; m) w).1.2.
Proof.
  intros Hst Hy Hm. rewrite append_run. destruct (rs_append e w.1) as [t [[]|x]]; cbn; [|done]. apply Hm. cbn [snd]. by apply stuck_put.
Qed.

Lemma locked_stuck id k x to_state now (w : W) : stuck id w.2 -> k <> id -> stuck id (_transition_locked k x to_state now w).1.2.
Proof.
  intros Hst Hne. unfold _transition_locked. destruct (negb _); [done|]. destruct (_ && _); [done|]. by apply append_put.
Qed.

Lemma call_stuck id c (w : W) : stuck id w.2 -> stuck id (run_call c w).1.2.
Proof.
  intros Hst. pose proof Hst as (y & Hy & Hs & Hd).
  destruct c as [k spec parent now|k now|k ev fp|k to now|k d to now]; cbn [run_call].
  - unfold create. destruct (blank k), (negb (is_mapping spec)), (match parent with Some p => blank p | None => false end); try done. rewrite run_get.
    destruct (din k w.2) eqn:Hn; [done|]. destruct (match parent with Some p => negb (din p w.2) | None => false end); [done|].
    apply append_put; [done| |done]. intros ->. unfold din in Hn. by rewrite Hy in Hn.
  - unfold seal. destruct (blank k); [done|]. rewrite the_record_run. destruct (dget k w.2) as [x|] eqn:Hx; [|done].
    destruct (x_sealed x); [done|]. apply append_put; [done| |done]. intros ->. rewrite Hy in Hx. by injection Hx as <-.
  - unfold attach_evidence. destruct (_ || _); [done|]. destruct (negb _); [done|]. rewrite the_record_run. destruct (dget k w.2) as [x|] eqn:Hx; [|done].
    destruct (negb _); [done|]. destruct (bool_decide _); [done|]. apply append_put; [done| |done]. intros ->. rewrite Hy in Hx. by injection Hx as <-.
  - unfold transition. rewrite the_record_run. destruct (dget k w.2) as [x|] eqn:Hx; [|done].
    destruct (GOVERNANCE_DECISION_STATES to) eqn:Hg; [done|]. destruct (String.eqb_spec k id) as [->|Hne]; [|by apply locked_stuck].
    rewrite Hy in Hx. injection Hx as <-. unfold _transition_locked. rewrite Hs. by destruct to.
  - unfold apply_governance_decision. destruct (negb _); [done|]. destruct (negb _); [done|]. rewrite the_record_run. destruct (dget k w.2) as [x|] eqn:Hx; [|done].
    destruct (negb _); [done|]. destruct (String.eqb_spec k id) as [->|Hne].
    + rewrite Hy in Hx. injection Hx as <-. by rewrite bool_decide_eq_true_2.
    + destruct (bool_decide _); [done|]. apply append_put; [done|done|]. intros w' Hw'. by apply locked_stuck.
Qed.

(** As long as no append is torn. *)
Lemma steps_stuck id (w w' : W) : in_step w -> rtc reg_step w w' -> rs_torn w'.1 = false -> stuck id w.2 -> stuck id w'.2.
Proof.
  intros Hi Hs Ht. assert (H' : rs_torn w.1 = false /\ (stuck id w.2 -> stuck id w'.2)); [|apply H'].
  induction Hs as [|x y z Hxy _ IH]; [done|]. destruct (IH (step_in_step _ _ Hxy Hi) Ht) as [Hy Hst].
  destruct Hxy as [c w1 Hwf Hx|t records records' Hini]; (split; [done|]); intros Hs; apply Hst; [by apply call_stuck|]. cbn [fst snd] in *.
  rewrite (init_in_step t records Hi Hy) in Hini. injection Hini as <-. by apply stuck_canon.
Qed.

(** What every append keeps of the storage, every run keeps. *)
Section keeps.
Context (P : T -> Prop) (HP : forall t e, P t -> P (rs_append e t).1).

Lemma append_keeps {A} (w : W) e k y (m : M W A) : P w.1 -> (forall w' : W, P w'.1 -> P (m w').1.1) ->
  P ((append_entry e;; put_record k y;; m) w).1.1.
Proof.
  intros Hl Hm. rewrite append_run. pose proof (HP w.1 e Hl) as Hl'. destruct (rs_append e w.1) as [t [[]|r]]; [by apply Hm|done].
Qed.

Lemma locked_keeps k x to_state now (w : W) : P w.1 -> P (_transition_locked k x to_state now w).1.1.
Proof. intros Hl. unfold _transition_locked. destruct (negb _); [done|]. destruct (_ && _); [done|]. by apply append_keeps. Qed.

Lemma registry_call_keeps c (w : W) : P w.1 -> P (run_call c w).1.1.
Proof.
  intros Hl. destruct c as [k spec parent now|k now|k ev fp|k to now|k d to now]; cbn [run_call].
  - unfold create. destruct (blank k), (negb (is_mapping spec)), (match parent with Some p => blank p | None => false end); try done. rewrite run_get.
    destruct (din k w.2); [done|]. destruct (match parent with Some p => negb (din p w.2) | None => false end); [done|]. by apply append_keeps.
  - unfold seal. destruct (blank k); [done|]. rewrite the_record_run. destruct (dget k w.2) as [x|]; [|done].
    destruct (x_sealed x); [done|]. by apply append_keeps.
  - unfold attach_evidence. destruct (_ || _); [done|]. destruct (negb _); [done|]. rewrite the_record_run. destruct (dget k w.2) as [x|]; [|done].
    destruct (negb _); [done|]. destruct (bool_decide _); [done|]. by apply append_keeps.
  - unfold transition. rewrite the_record_run. destruct (dget k w.2) as [x|]; [|done].
    destruct (GOVERNANCE_DECISION_STATES to); [done|]. by apply locked_keeps.
  - unfold apply_governance_decision. destruct (negb _); [done|]. destruct (negb _); [done|]. rewrite the_record_run. destruct (dget k w.2) as [x|]; [|done].
    destruct (negb _); [done|]. destruct (bool_decide _); [done|]. apply append_keeps; [done|]. intros w' Hl'. by apply locked_keeps.
Qed.

Lemma registry_steps_keep (w w' : W) : rtc reg_step w w' -> P w.1 -> P w'.1.
Proof. induction 1 as [|x y z Hxy _ IH]; [done|]. intros Hl. apply IH. destruct Hxy; [by apply registry_call_keeps|done]. Qed.
End keeps.

Lemma reach_steps (w w' : W) : reg_reach w -> rtc reg_step w w' -> reg_reach w'.
Proof. intros (w0 & H0 & Hs) Hs'. exists w0. split; [done|by etransitivity]. Qed.

(** A decision and its transition are two appends. Where the storage takes
    the first and refuses the second, [apply_governance_decision] raises, and the
    experiment is under review with a decision from then on: no calls and no
    restarts, whatever appends the storage refuses, ever move it again. *)
Theorem decision_without_transition_strands (w : W) id x d to_state now e : reg_reach w -> rs_torn w.1 = false ->
  dget id w.2 = Some x -> x_lifecycle_state x = LifecycleState.IN_REVIEW -> x_governance_decision x = None ->
  GOVERNANCE_DECISION_STATES to_state = true -> nonempty_mapping d = true -> json_wf d = true ->
  (rs_append (decision_entry id d) w.1).2 = Ok tt ->
  (rs_append (state_entry id LifecycleState.IN_REVIEW to_state now) (rs_append (decision_entry id d) w.1).1).2 = Err e ->
  (apply_governance_decision id d to_state now w).2 = Err e /\
  forall w', rtc reg_step (apply_governance_decision id d to_state now w).1 w' -> rs_torn w'.1 = false ->
    exists x', dget id w'.2 = Some x' /\ x_lifecycle_state x' = LifecycleState.IN_REVIEW.
Proof.
  intros Hw Hu Hx Hs Hd Hg Hm Hwf Ha1 Ha2.
  assert (E : exists t, apply_governance_decision id d to_state now w = ((t, dset id (set_decision d x) w.2), Err e)).
  { unfold apply_governance_decision. rewrite Hg Hm. cbn [negb]. rewrite the_record_run Hx Hs bool_decide_eq_true_2 // some_none //. cbn [negb].
    rewrite append_run. destruct (rs_append (decision_entry id d) w.1) as [t r]. cbn [fst snd] in Ha1, Ha2. subst r. unfold _transition_locked.
    cbn [set_decision x_lifecycle_state]. rewrite Hs. replace (is_legal_transition _ _) with true by (by destruct to_state).
    replace (bool_decide (to_state = LifecycleState.EVIDENCE_SEALED)) with false by (by destruct to_state). cbn [negb andb].
    rewrite append_run. cbn [fst snd]. destruct (rs_append (state_entry _ _ _ _) t) as [t' r]. cbn [snd] in Ha2. subst r. by exists t'. }
  destruct E as [t E]. pose proof (rs_call (c_decide id d to_state now) w Hwf Hu) as Hstep. cbn [run_call] in Hstep.
  rewrite E in Hstep |- *. split; [done|]. intros w' Hs' Ht'. cbn [fst] in *.
  assert (Hst : stuck id w'.2).
  { apply (steps_stuck id _ w') in Hs'; [done|apply (step_in_step _ _ Hstep), reach_in_step, Hw|done|].
    exists (set_decision d x). rewrite dget_dset_eq. split; [done|]. split; [done|by apply some_mapping]. }
  destruct Hst as (x' & Hx' & Hr & _). by exists x'.
Qed.

(** ** Every experiment can be brought to its end *)

Section live.
(** Storages that take every append. *)
Context (live : T -> Prop) (Hlive : forall t e, live t -> (rs_append e t).2 = Ok tt /\ live (rs_append e t).1)
  (Huntorn : forall t, live t -> rs_torn t = false).

Definition can_end (id : string) (w : W) : Prop :=
  exists w' x, rtc reg_step w w' /\ dget id w'.2 = Some x /\ TERMINAL_STATES (x_lifecycle_state x) = true.

Lemma can_end_step id w w' : reg_step w w' -> can_end id w' -> can_end id w.
Proof. intros Hs (w'' & x & Hs' & Hx). exists w'', x. split; [by eapply rtc_l|done]. Qed.

Lemma locked_live id x to_state now (w : W) : live w.1 -> is_legal_transition (x_lifecycle_state x) to_state = true ->
  to_state <> LifecycleState.EVIDENCE_SEALED ->
  let w' := (_transition_locked id x to_state now w).1 in live w'.1 /\ dget id w'.2 = Some (set_state to_state x).
Proof.
  intros Hl Hleg Hne. cbn zeta. unfold _transition_locked. rewrite Hleg bool_decide_eq_false_2 //. cbn [negb andb]. rewrite append_run.
  destruct (Hlive w.1 (state_entry id (x_lifecycle_state x) to_state now) Hl) as [Ha Hl'].
  destruct (rs_append _ w.1) as [t r]. cbn [fst snd] in *. subst r. cbn. split; [done|apply dget_dset_eq].
Qed.

(** One transition, when it is legal and not for governance. *)
Lemma can_end_move id x to_state (w : W) : live w.1 -> dget id w.2 = Some x ->
  is_legal_transition (x_lifecycle_state x) to_state = true -> to_state <> LifecycleState.EVIDENCE_SEALED ->
  GOVERNANCE_DECISION_STATES to_state = false ->
  (forall w' : W, live w'.1 -> dget id w'.2 = Some (set_state to_state x) -> can_end id w') -> can_end id w.
Proof.
  intros Hl Hx Hleg Hne Hg Hk. eapply can_end_step; [by apply (rs_call (c_transition id to_state "")), Huntorn|].
  assert (E : run_call (c_transition id to_state "") w = _transition_locked id x to_state "" w)
    by (cbn [run_call]; unfold transition; by rewrite the_record_run Hx Hg).
  rewrite E. destruct (locked_live id x to_state "" w Hl Hleg Hne). by apply Hk.
Qed.

Lemma can_end_now id x (w : W) : dget id w.2 = Some x -> TERMINAL_STATES (x_lifecycle_state x) = true -> can_end id w.
Proof. intros Hx Ht. by exists w, x. Qed.

(** A rejection. *)
Lemma can_end_review id x (w : W) : live w.1 -> dget id w.2 = Some x -> x_lifecycle_state x = LifecycleState.IN_REVIEW ->
  x_governance_decision x = None -> can_end id w.
Proof.
  intros Hl Hx Hs Hd. set (d := JObj [("decision", JStr "reject")]).
  eapply can_end_step; [by apply (rs_call (c_decide id d LifecycleState.REJECTED "")), Huntorn|].
  cbn [run_call]. unfold apply_governance_decision. cbn [GOVERNANCE_DECISION_STATES negb nonempty_mapping d].
  rewrite the_record_run Hx Hs bool_decide_eq_true_2 // some_none //. cbn [negb]. rewrite append_run. fold d.
  destruct (Hlive w.1 (decision_entry id d) Hl) as [Ha Hl']. destruct (rs_append _ w.1) as [t r]. cbn [fst snd] in *. subst r.
  destruct (locked_live id (set_decision d x) LifecycleState.REJECTED "" (t, dset id (set_decision d x) w.2)) as [_ Hf]; [done|cbn; by rewrite Hs|done|].
  by eapply can_end_now.
Qed.

Ltac move_to s := apply (can_end_move _ _ s _ ltac:(eassumption) ltac:(eassumption));
  [cbn [set_state x_lifecycle_state]; repeat match goal with H : x_lifecycle_state _ = _ |- _ => rewrite H end; reflexivity|done|done|intros ???].
Ltac at_end := eapply can_end_now; [eassumption|cbn [set_state x_lifecycle_state]; repeat match goal with H : x_lifecycle_state _ = _ |- _ => rewrite H end; reflexivity].

(** C34: what can still be finished. Over a storage that takes every append, a
    registered experiment can be brought to a terminal state by some further
    calls exactly when it is not under review with a decision recorded already. *)
Theorem ends_unless_decided (w : W) id x : reg_reach w -> live w.1 -> dget id w.2 = Some x ->
  can_end id w <-> ~ decided x.
Proof.
  intros Hw Hl Hx. split.
  - intros (w' & y & Hs & Hy & Ht) Hd. assert (Hst : stuck id w'.2).
    { apply (steps_stuck id w); [by apply reach_in_step|done| |by exists x]. apply Huntorn. eapply registry_steps_keep; [|exact Hs|done].
      intros t e Hl'. by apply Hlive. }
    destruct Hst as (z & Hz & Hr & _). rewrite Hy in Hz. injection Hz as <-. by rewrite Hr in Ht.
  - intros Hnd. destruct (x_lifecycle_state x) eqn:Hs; try at_end.
    + move_to LifecycleState.WITHDRAWN. at_end.
    + move_to LifecycleState.WITHDRAWN. at_end.
    + destruct (x_governance_decision x) as [d|] eqn:Hd.
      * destruct (xo_decided x (reach_all_ok w Hw id x Hx)) as [E|E]; [by rewrite Hd|by rewrite Hs in E|by rewrite Hs in E].
      * move_to LifecycleState.IN_REVIEW. by eapply can_end_review.
    + eapply can_end_review; try done. destruct (x_governance_decision x) eqn:Hd; [|done]. destruct Hnd. split; [done|by rewrite Hd].
    + move_to LifecycleState.SHAKEDOWN. move_to LifecycleState.RETIRING. move_to LifecycleState.RETIRED. at_end.
    + move_to LifecycleState.RETIRING. move_to LifecycleState.RETIRED. at_end.
    + move_to LifecycleState.RETIRING. move_to LifecycleState.RETIRED. at_end.
    + move_to LifecycleState.RETIRING. move_to LifecycleState.RETIRED. at_end.
    + move_to LifecycleState.RETIRED. at_end.
Qed.
End live.
End over_storage.

(** ** A run over the file *)

Notation W0 := (FileRegistryStorage * Records)%type.

Definition run_calls (cs : list call) (w : W0) : W0 := foldl (fun w c => (run_call c w).1) w cs.

(** No append of the run is torn. *)
Definition whole (d : disk) : Prop := match d with Failed n => n = O | _ => True end.
Definition calm (t : FileRegistryStorage) : Prop := fr_torn t = false /\ Forall whole (fr_disk t).

Lemma append_calm t e : calm t -> calm (rs_append e t).1.
Proof.
  destruct t as [c ds torn]. intros [Ht Hd]. cbn in Ht, Hd. subst torn. cbn. unfold file_append. cbn [fr_disk].
  destruct Hd as [|[| |n] ds Hd Hds]; (split; [|done]); try done. by rewrite Hd.
Qed.

Lemma run_calls_steps cs (w : W0) : Forall call_wf cs -> calm w.1 -> rtc reg_step w (run_calls cs w).
Proof.
  intros Hcs. revert w. induction Hcs as [|c cs Hc _ IH]; intros w Hw; [done|].
  eapply rtc_l; [apply (rs_call c); [done|by destruct Hw]|]. apply IH. by apply registry_call_keeps; [apply append_calm|].
Qed.

Definition sample_spec : json := JObj [("window", JInt 20); ("family", JStr "breakout"); ("universe", JList [JStr "BTC"; JStr "ETH"])].
(** The proposal, and what brings it to its review. *)
Definition sample_calls : list call :=
  [c_create "exp-1" sample_spec None "2026-01-01T00:00:00+00:00";
   c_create "exp-2" sample_spec (Some "exp-1") "2026-01-02T00:00:00+00:00";
   c_seal "exp-1" "2026-01-03T00:00:00+00:00";
   c_transition "exp-1" LifecycleState.VALIDATING "2026-01-04T00:00:00+00:00";
   c_attach "exp-1" (JObj [("sharpe", JStr "1.2")]) "fp";
   c_transition "exp-1" LifecycleState.EVIDENCE_SEALED "2026-01-05T00:00:00+00:00";
   c_transition "exp-1" LifecycleState.IN_REVIEW "2026-01-06T00:00:00+00:00"].
Definition sample_decision : json := JObj [("decision", JStr "approve")].

Definition fresh (ds : list disk) : W0 := ({| fr_content := ""; fr_disk := ds; fr_torn := false |}, []).
Definition in_review (ds : list disk) : W0 := run_calls sample_calls (fresh ds).

Lemma fresh_start ds : reg_start (fresh ds).
Proof. split; [|done]. split; [|done]. exists []. by split; [|left]. Qed.

Lemma sample_wf : Forall call_wf sample_calls.
Proof. repeat (apply Forall_cons; split; [done|]). by apply Forall_nil. Qed.

Lemma in_review_reach ds : Forall whole ds -> reg_reach (in_review ds).
Proof. intros Hd. exists (fresh ds). split; [apply fresh_start|by apply run_calls_steps; [apply sample_wf|]]. Qed.

(** What the run leaves of [exp-1]. *)
Definition sample_exp : Experiment :=
  {| x_fingerprint := _fingerprint sample_spec; x_parent_id := None; x_specification := sample_spec;
     x_created_at_utc := "2026-01-01T00:00:00+00:00"; x_sealed := true; x_sealed_at_utc := Some "2026-01-03T00:00:00+00:00";
     x_evidence := Some (JObj [("sharpe", JStr "1.2")]); x_evidence_fingerprint := Some "fp";
     x_lifecycle_state := LifecycleState.IN_REVIEW; x_governance_decision := None |}.

Lemma in_review_exp ds : ds = [] \/ (exists ds', ds = replicate 7 Written ++ ds') -> dget "exp-1" (in_review ds).2 = Some sample_exp.
Proof. intros [->|[ds' ->]]; reflexivity. Qed.

Definition lock_fails : list disk := replicate 7 Written ++ [Written; Locked].
Lemma lock_fails_ok : Forall whole lock_fails.
Proof. repeat (apply Forall_cons; split; [done|]). by apply Forall_nil. Qed.

Lemma decision_without_transition_strands_witness :
  let w := in_review lock_fails in
  (apply_governance_decision "exp-1" sample_decision LifecycleState.APPROVED "2026-01-07" w).2 = Err RegistryLockError /\
  forall w' : W0, rtc reg_step (apply_governance_decision "exp-1" sample_decision LifecycleState.APPROVED "2026-01-07" w).1 w' -> rs_torn w'.1 = false ->
    exists x', dget "exp-1" w'.2 = Some x' /\ x_lifecycle_state x' = LifecycleState.IN_REVIEW.
Proof.
  apply (decision_without_transition_strands (in_review lock_fails) "exp-1" sample_exp sample_decision LifecycleState.APPROVED "2026-01-07" RegistryLockError);
    [apply in_review_reach, lock_fails_ok|vm_compute; reflexivity|apply in_review_exp; right; by eexists|reflexivity..].
Defined.

(** The decision's line is torn: the registry that is made then is the one under
    review; or its line is whole and the sync fails: the decision counts. *)
Definition torn_at (n : nat) : W0 :=
  (run_call (c_decide "exp-1" sample_decision LifecycleState.APPROVED "2026-01-07") (in_review (replicate 7 Written ++ [Failed n]))).1.

Lemma torn_at_reach n : reg_reach (torn_at n).
Proof.
  exists (fresh (replicate 7 Written ++ [Failed n])). split; [apply fresh_start|]. eapply rtc_r; [|apply rs_call; [done|vm_compute; reflexivity]].
  assert (E : forall cs (w : W0), Forall call_wf cs -> (forall k, (k < length cs)%nat -> rs_torn (run_calls (take k cs) w).1 = false) ->
            rtc reg_step w (run_calls cs w)).
  { intros cs w Hcs. revert w. induction Hcs as [|c cs Hc _ IH]; intros w Ht; [done|]. eapply rtc_l; [apply (rs_call c); [done|]; apply (Ht O); cbn; lia|].
    apply IH. intros k Hk. apply (Ht (S k)). cbn. lia. }
  apply E; [apply sample_wf|]. intros k Hk. do 7 (destruct k as [|k]; [vm_compute; reflexivity|]). cbn in Hk. lia.
Qed.

Lemma registry_restart_witness :
  (exists r, registry_init (torn_at 20).1 = Ok (canon_records r)) /\ exists r, registry_init (torn_at 1000).1 = Ok (canon_records r).
Proof.
  split.
  - destruct (registry_restart (torn_at 20) (torn_at_reach 20)) as (r & Hr & _). by exists r.
  - destruct (registry_restart (torn_at 1000) (torn_at_reach 1000)) as (r & Hr & _). by exists r.
Defined.

Lemma torn_decision_forgotten :
  registry_init (torn_at 20).1 = Ok (canon_records (torn_at 20).2) /\ rs_torn (torn_at 20).1 = true /\
  match registry_init (torn_at 1000).1 with Ok r => x_governance_decision <$> dget "exp-1" r | Err _ => None end = Some (Some sample_decision).
Proof. vm_compute. done. Qed.

Lemma promotion_needs_governance_witness : x_sealed sample_exp = true /\ is_Some (x_evidence sample_exp).
Proof.
  apply (promotion_needs_governance (in_review []) "exp-1" sample_exp (in_review_reach [] (Forall_nil_2 _))
    (in_review_exp [] (or_introl eq_refl))). reflexivity.
Defined.

Definition approved : W0 := (run_call (c_decide "exp-1" sample_decision LifecycleState.APPROVED "2026-01-07") (in_review [])).1.

Lemma approved_steps : rtc reg_step (in_review []) approved.
Proof. apply rtc_once. by apply (rs_call (c_decide _ _ _ _)); [|vm_compute]. Qed.

Lemma history_append_only_witness : exists x', dget "exp-1" approved.2 = Some x' /\ evolves sample_exp x'.
Proof.
  exact (history_append_only (in_review []) approved "exp-1" sample_exp (in_review_reach [] (Forall_nil_2 _)) approved_steps
    (in_review_exp [] (or_introl eq_refl))).
Defined.

(** The file takes every append when the system refuses none. *)
Definition file_live (t : FileRegistryStorage) : Prop := fr_disk t = [] /\ fr_torn t = false.
Lemma file_live_takes t e : file_live t -> (rs_append e t).2 = Ok tt /\ file_live (rs_append e t).1.
Proof. intros [Hd Ht]. destruct t as [c ds torn]. cbn in Hd, Ht. by subst ds torn. Qed.
Lemma file_live_untorn t : file_live t -> rs_torn t = false.
Proof. by intros []. Qed.

Lemma ends_unless_decided_witness : can_end "exp-1" (in_review []).
Proof.
  apply (ends_unless_decided file_live file_live_takes file_live_untorn (in_review []) "exp-1" sample_exp (in_review_reach [] (Forall_nil_2 _)) (conj eq_refl eq_refl)
    (in_review_exp [] (or_introl eq_refl))). intros [_ [j Hj]]. discriminate.
Defined.

(** An append whose sync fails when the whole line is already in the file raises,
    and the registry forgets the entry; the caller's retry appends it again, and
    the log no longer replays. *)
Definition retried : W0 :=
  let c := c_create "exp-1" sample_spec None "2026-01-01T00:00:00+00:00" in
  run_calls [c; c] (fresh [Failed 1000; Written]).

Lemma retry_after_failed_sync :
  (run_call (c_create "exp-1" sample_spec None "2026-01-01T00:00:00+00:00") (fresh [Failed 1000; Written])).2 = Err OSError /\
  din "exp-1" retried.2 = true /\ registry_init retried.1 = Err MalformedRegistryLogError.
Proof. split_and!; vm_compute; reflexivity. Qed.
