(* ===== verification/RegistryLineage.v ===== *)
(** * Lineage in the experiment registry

    The parents form a forest in every registry a run can reach; so the walks up
    and down it never meet a cycle and find exactly the ancestors and descendants. *)

From Stdlib Require Import ssreflect ZArith Lia Ascii String.
From stdpp Require Import base strings numbers gmap sets list relations.
From S2P Require Import Prelude PyText PyDict PyBytes PyJson PyJsonFacts PySort Payload RegistryLog Registry RegistrySpec RegistryRuns.
#[local] Open Scope nat_scope.

Lemma tc_last {A} (R : relation A) x z : tc R x z -> R x z \/ exists y, tc R x y /\ R y z.
Proof.
  induction 1 as [x y Hxy|x y z Hxy _ [IH|(v & IH & Hv)]]; [by left|right; exists y; split; [by apply tc_once|done]|].
  right. exists v. split; [by eapply tc_l|done].
Qed.

(** ** The forest *)

Definition parent_of (records : Records) (id : string) : option string := x ← dget id records; x_parent_id x.
Definition child (records : Records) (a b : string) : Prop := parent_of records b = Some a.

(** Keys are distinct, parents are registered, and some rank grows from parent to child. *)
Definition forest (records : Records) : Prop :=
  NoDup (dkeys records) /\
  exists rank : string -> nat, forall a b, child records a b -> din a records = true /\ rank a < rank b.

Lemma parent_dset records k y x id : dget k records = Some x -> x_parent_id y = x_parent_id x ->
  parent_of (dset k y records) id = parent_of records id.
Proof.
  intros Hk Hp. unfold parent_of. rewrite dget_dset. destruct (String.eqb_spec id k) as [->|Hne]; [|done]. by rewrite Hk.
Qed.

Lemma forest_dset records k y x : dget k records = Some x -> x_parent_id y = x_parent_id x ->
  forest records -> forest (dset k y records).
Proof.
  intros Hk Hp [Hn [rank Hr]]. split; [by apply dset_NoDup|]. exists rank. intros a b Hc. unfold child in Hc.
  rewrite (parent_dset records k y x) // in Hc. destruct (Hr a b Hc) as [Ha Hlt]. split; [by apply din_dset|done].
Qed.

Lemma forest_edit records e records' : edit records e records' -> forest records -> forest records'.
Proof.
  intros [k spec parent now Hn Hm Hs Hp|k y now Hy Hs|k y ev fp Hy Hs Hn Hm Hw Hb|k y to now Hy Hl Hev Hg|k y d Hy Hst Hn Hm Hw];
    [|by apply (forest_dset records k _ y)..].
  intros [Hnd [rank Hr]]. split; [by apply dset_NoDup|].
  exists (fun s => if String.eqb s k then S (match parent with Some p => rank p | None => 0 end) else rank s).
  intros a b Hc. unfold child, parent_of in Hc. rewrite dget_dset in Hc. split.
  - apply din_dset. destruct (String.eqb b k); [cbn in Hc; by subst parent|by apply (Hr a b)].
  - assert (Hak : forall c, din c records = true -> String.eqb c k = false).
    { intros c Hcr. apply String.eqb_neq. intros ->. by rewrite Hcr in Hn. }
    destruct (String.eqb b k) eqn:E.
    + cbn in Hc. subst parent. rewrite Hak //. lia.
    + destruct (Hr a b Hc) as [Ha Hlt]. by rewrite Hak.
Qed.

Lemma parent_canon records id : parent_of (canon_records records) id = parent_of records id.
Proof. unfold parent_of. rewrite dget_canon. by destruct (dget id records). Qed.

Lemma forest_canon records : forest records -> forest (canon_records records).
Proof.
  intros [Hn [rank Hr]]. split; [by unfold canon_records; rewrite (dkeys_map canon_exp)|]. exists rank. intros a b. unfold child.
  rewrite parent_canon din_canon. apply Hr.
Qed.

Lemma reach_forest {T} `{RegistryStorage T} (w : T * Records) : reg_reach w -> forest w.2.
Proof.
  apply (reach_keeps forest); [|exact forest_edit|exact forest_canon]. split; [apply NoDup_nil_2|]. by exists (fun _ => 0).
Qed.

(** ** Walking up *)

(** The chain of parents from a given one to a root. *)
Inductive up_from (records : Records) : option string -> list string -> Prop :=
  | up_root : up_from records None []
  | up_more c l : up_from records (parent_of records c) l -> up_from records (Some c) (c :: l).

Lemma existsb_in c l : existsb (String.eqb c) l = true <-> c ∈ l.
Proof.
  rewrite List.existsb_exists. split.
  - intros (y & Hy & E). apply String.eqb_eq in E as <-. by apply list_elem_of_In.
  - intros Hc. exists c. split; [by apply list_elem_of_In|apply String.eqb_refl].
Qed.
Lemma existsb_notin c l : c ∉ l -> existsb (String.eqb c) l = false.
Proof. intros Hc. destruct (existsb _ l) eqn:E; [|done]. by apply existsb_in in E. Qed.

(** Distinct registered ids are no more than the records. *)
Lemma registered_bound (records : Records) l : NoDup l -> (forall c, c ∈ l -> din c records = true) -> length l <= length records.
Proof.
  intros Hn Hin. rewrite -(length_fmap fst records). apply submseteq_length, NoDup_submseteq; [done|].
  intros c Hc. by apply din_spec, Hin.
Qed.

Section forest.
Context (records : Records) (rank : string -> nat)
  (Hnodup : NoDup (dkeys records))
  (Hrank : forall a b, child records a b -> din a records = true /\ rank a < rank b).

Lemma walk_up_ok fuel visited chain current :
  NoDup visited -> (forall c, c ∈ visited -> din c records = true) ->
  match current with Some c => din c records = true /\ forall v, v ∈ visited -> rank c < rank v | None => True end ->
  length records < fuel + length visited ->
  exists l, walk_up fuel records visited chain current = Ok (chain ++ l) /\ up_from records current l.
Proof.
  revert visited chain current. induction fuel as [|fuel IH]; intros visited chain [c|] Hv Hreg Hc Hf.
  - pose proof (registered_bound records visited Hv Hreg). lia.
  - exists []. rewrite app_nil_r. split; [done|constructor].
  - destruct Hc as [Hc Hlow]. assert (Hnew : c ∉ visited) by (intros Hin; specialize (Hlow c Hin); lia).
    cbn [walk_up]. rewrite existsb_notin //. destruct (dget c records) as [x|] eqn:Hx; [|by unfold din in Hc; rewrite Hx in Hc].
    assert (Hp : parent_of records c = x_parent_id x) by (unfold parent_of; by rewrite Hx).
    destruct (IH (c :: visited) (chain ++ [c]) (x_parent_id x)) as (l & E & Hl).
    + by constructor.
    + intros v [->|Hin]%elem_of_cons; [done|by apply Hreg].
    + destruct (x_parent_id x) as [p|]; [|done]. destruct (Hrank p c Hp) as [Hpr Hlt]. split; [done|].
      intros v [->|Hin]%elem_of_cons; [done|]. specialize (Hlow v Hin). lia.
    + cbn [length]. lia.
    + exists (c :: l). rewrite E -app_assoc. split; [done|]. constructor. by rewrite Hp.
  - exists []. rewrite app_nil_r. split; [done|constructor].
Qed.

Lemma ancestors_ok id : din id records = true ->
  exists l, ancestor_ids id records = Ok (rev l) /\ up_from records (parent_of records id) l.
Proof.
  intros Hid. unfold ancestor_ids, din in *. destruct (dget id records) as [x|] eqn:Hx; [|done]. cbn [of_option mbind result_bind].
  assert (Hp : parent_of records id = x_parent_id x) by (unfold parent_of; by rewrite Hx).
  destruct (walk_up_ok (S (length records)) [id] [] (x_parent_id x)) as (l & E & Hl).
  - apply NoDup_singleton.
  - intros c ->%list_elem_of_singleton. unfold din. by rewrite Hx.
  - destruct (x_parent_id x) as [p|]; [|done]. destruct (Hrank p id Hp) as [Hpr Hlt]. split; [done|].
    by intros v ->%list_elem_of_singleton.
  - cbn [length]. lia.
  - exists l. rewrite E Hp. split; [done|done].
Qed.

Lemma up_from_elem o l a : up_from records o l -> a ∈ l <-> exists c, o = Some c /\ (a = c \/ tc (child records) a c).
Proof.
  induction 1 as [|c l Hl IH].
  - split; [by intros ?%elem_of_nil|by intros (? & ? & _)].
  - rewrite elem_of_cons IH. split.
    + intros [->|(p & Hp & Ha)]; [by exists c; auto|]. exists c. split; [done|right].
      destruct Ha as [->|Ha]; [by apply tc_once|]. eapply tc_r; [exact Ha|exact Hp].
    + intros (c' & [= <-] & [->|Ha]); [by left|right]. apply tc_last in Ha as [Ha|(p & Ha & Hp)].
      * exists a. by split; [|left].
      * exists p. by split; [|right].
Qed.

Lemma tc_rank a b : tc (child records) a b -> rank a < rank b.
Proof. induction 1 as [a b Hab|a b c Hab _ IH]; destruct (Hrank _ _ Hab); lia. Qed.
End forest.

(** ** Walking down *)

Section walk_down.
Context (records : Records) (rank : string -> nat)
  (Hnodup : NoDup (dkeys records))
  (Hrank : forall a b, child records a b -> din a records = true /\ rank a < rank b).

Lemma child_registered a b : child records a b -> din b records = true.
Proof. unfold child, parent_of, din. by destruct (dget b records). Qed.

Lemma ids_where_perm p : ids_where p records ≡ₚ map fst (List.filter (fun r => p r.2) records).
Proof. apply sorted_by_perm. Qed.

Lemma keys_filter_NoDup (keep : string * Experiment -> bool) (l : Records) : NoDup (dkeys l) -> NoDup (map fst (List.filter keep l)).
Proof.
  unfold dkeys. induction l as [|r l IH]; [by intros _; apply NoDup_nil_2|]. csimpl. intros [Hr Hl]%NoDup_cons.
  destruct (keep r); [|by apply IH]. csimpl. constructor; [|by apply IH]. intros Hin. apply Hr.
  apply list_elem_of_In, List.in_map_iff in Hin as (q & Hq & Hin). apply List.filter_In in Hin as [Hin _].
  rewrite -Hq. by apply list_elem_of_fmap_2, list_elem_of_In.
Qed.

Lemma ids_where_NoDup p : NoDup (ids_where p records).
Proof. rewrite ids_where_perm. by apply keys_filter_NoDup. Qed.

Lemma elem_ids_where p id : id ∈ ids_where p records <-> exists x, dget id records = Some x /\ p x = true.
Proof.
  rewrite ids_where_perm list_elem_of_In List.in_map_iff. split.
  - intros ([k x] & <- & Hin). apply List.filter_In in Hin as [Hin Hp]. exists x. split; [|done].
    by apply elem_dget, list_elem_of_In.
  - intros (x & Hx & Hp). exists (id, x). split; [done|]. apply List.filter_In. split; [|done].
    by apply list_elem_of_In, dget_elem.
Qed.

Lemma elem_children a b : b ∈ children_ids a records <-> child records a b.
Proof.
  unfold children_ids. rewrite elem_ids_where. unfold child, parent_of. split.
  - intros (x & -> & Hx). by apply bool_decide_eq_true_1 in Hx.
  - destruct (dget b records) as [x|]; [|done]. intros Hx. exists x. split; [done|]. by apply bool_decide_eq_true_2.
Qed.

Lemma add_children_ok children visited found : NoDup children -> (forall c, c ∈ children -> c ∉ visited) ->
  exists visited', add_children visited found children = Ok (visited', found ++ children) /\
    forall c, c ∈ visited' <-> c ∈ visited \/ c ∈ children.
Proof.
  revert visited found. induction children as [|c l IH]; intros visited found Hn Hc; cbn [add_children].
  - exists visited. rewrite app_nil_r. split; [done|]. intros c. rewrite elem_of_nil. tauto.
  - apply NoDup_cons in Hn as [Hcl Hn]. rewrite existsb_notin; [by apply Hc; left|].
    destruct (IH (c :: visited) (found ++ [c])) as (v & E & Hv); [done| |].
    + intros d Hd [->|Hin]%elem_of_cons; [done|]. apply (Hc d); [by right|done].
    + exists v. rewrite E -app_assoc. split; [done|]. intros d. rewrite Hv !elem_of_cons. tauto.
Qed.

(** Between two turns: [done] is what was taken off the frontier. *)
Record walking (root : string) (done frontier result_ids visited : list string) : Prop := {
  wk_split : root :: result_ids = done ++ frontier;
  wk_visited : forall c, c ∈ visited <-> c ∈ root :: result_ids;
  wk_nodup : NoDup (root :: result_ids);
  wk_registered : forall c, c ∈ root :: result_ids -> din c records = true;
  wk_below : forall c, c ∈ result_ids -> tc (child records) root c /\ exists p, p ∈ done /\ child records p c;
  wk_closed : forall p c, p ∈ done -> child records p c -> c ∈ result_ids
}.

(** The children of the one taken off are new. *)
Lemma children_new root done current frontier result_ids visited c :
  walking root done (current :: frontier) result_ids visited -> child records current c -> c ∉ root :: result_ids.
Proof.
  intros [Hs Hv Hn Hr Hb Hcl] Hc Hin.
  assert (Hcur : current ∈ root :: result_ids) by (rewrite Hs; apply elem_of_app; right; by left).
  apply elem_of_cons in Hin as [->|Hin].
  - destruct (Hrank _ _ Hc) as [_ Hlt]. apply elem_of_cons in Hcur as [->|Hcur]; [lia|].
    destruct (Hb current Hcur) as [Ht _]. apply (tc_rank records rank Hrank) in Ht. lia.
  - destruct (Hb c Hin) as [_ (p & Hp & Hpc)]. unfold child in *. rewrite Hc in Hpc. injection Hpc as <-.
    rewrite Hs in Hn. apply NoDup_app in Hn as (_ & Hd & _). apply (Hd current Hp). by left.
Qed.

Lemma walking_step root done current frontier result_ids visited :
  walking root done (current :: frontier) result_ids visited ->
  exists visited', add_children visited [] (children_ids current records) = Ok (visited', children_ids current records) /\
    walking root (done ++ [current]) (frontier ++ children_ids current records) (result_ids ++ children_ids current records) visited'.
Proof.
  intros Hw. pose proof (fun c => children_new root done current frontier result_ids visited c Hw) as Hnew.
  destruct Hw as [Hs Hv Hn Hr Hb Hcl]. set (kids := children_ids current records).
  assert (Hk : forall c, c ∈ kids <-> child records current c) by (intros c; apply elem_children).
  destruct (add_children_ok kids visited []) as (v & E & Hv'); [apply ids_where_NoDup|intros c Hc; rewrite Hv; by apply Hnew, Hk|].
  exists v. split; [done|].
  assert (Hcur : current ∈ root :: result_ids) by (rewrite Hs; apply elem_of_app; right; by left).
  split.
  - rewrite app_comm_cons Hs. by rewrite -!app_assoc.
  - intros c. rewrite Hv' Hv app_comm_cons elem_of_app. tauto.
  - rewrite app_comm_cons. apply NoDup_app. split_and!; [done| |apply ids_where_NoDup]. intros c Hc Hin. by apply (Hnew c); [apply Hk|].
  - intros c. rewrite app_comm_cons elem_of_app. intros [Hc|Hc]; [by apply Hr|]. by eapply child_registered, Hk.
  - intros c. rewrite elem_of_app. intros [Hc|Hc].
    + destruct (Hb c Hc) as [Ht (p & Hp & Hpc)]. split; [done|]. exists p. split; [|done]. apply elem_of_app. by left.
    + apply Hk in Hc. split.
      * apply elem_of_cons in Hcur as [->|Hcur]; [by apply tc_once|]. eapply tc_r; [by apply Hb|done].
      * exists current. split; [|done]. apply elem_of_app. right. by left.
  - intros p c. rewrite !elem_of_app list_elem_of_singleton. intros [Hp| ->] Hc; [left; by eapply Hcl|right; by apply Hk].
Qed.

Lemma walk_down_ok fuel root done frontier result_ids visited :
  walking root done frontier result_ids visited -> length records < fuel + length done ->
  exists ids done' visited', walk_down fuel records visited result_ids frontier = Ok ids /\ walking root done' [] ids visited'.
Proof.
  revert done frontier result_ids visited. induction fuel as [|fuel IH]; intros done [|current frontier] result_ids visited Hw Hf.
  - by exists result_ids, done, visited.
  - destruct Hw as [Hs _ Hn Hr _ _]. rewrite Hs in Hn, Hr. pose proof (registered_bound records _ Hn Hr) as Hl. rewrite length_app in Hl.
    cbn [length] in Hl. lia.
  - by exists result_ids, done, visited.
  - destruct (walking_step _ _ _ _ _ _ Hw) as (v & E & Hw'). cbn [walk_down]. rewrite E. cbn [mbind result_bind].
    apply (IH _ _ _ _ Hw'). rewrite length_app. cbn [length]. lia.
Qed.

Lemma descendants_ok id : din id records = true ->
  exists ids, descendant_ids id records = Ok ids /\ NoDup ids /\ forall d, d ∈ ids <-> tc (child records) id d.
Proof.
  intros Hid. unfold descendant_ids. rewrite Hid. cbn [negb].
  destruct (walk_down_ok (S (length records)) id [] [id] [] [id]) as (ids & done & v & E & [Hs Hv Hn Hr Hb Hcl]); [|cbn [length]; lia|].
  - split; [done|done|apply NoDup_singleton|by intros c ->%list_elem_of_singleton|by intros c ?%elem_of_nil|by intros p c ?%elem_of_nil].
  - exists ids. split; [done|]. split; [by apply NoDup_cons in Hn as [_ Hn]|]. intros d. split; [by intros Hd; apply Hb|].
    rewrite app_nil_r in Hs. assert (Hgen : forall a b, tc (child records) a b -> a ∈ id :: ids -> b ∈ ids); [|by intros Ht; apply (Hgen id); [|left]].
    induction 1 as [a b Hab|a b c Hab _ IH]; rewrite Hs; intros Ha; [by eapply Hcl|]. apply IH. right. by eapply Hcl.
Qed.
End walk_down.

(** The lineage queries answer exactly. In any registry a run can reach,
    the walks from a registered experiment meet no cycle and do not run out of
    fuel: [get_descendants] collects exactly the experiments below it, each once;
    [get_ancestors] collects exactly those above it, as the chain of parents from
    the root down; and neither contains the experiment itself. *)
Theorem lineage_exact {T} `{RegistryStorage T} (w : T * Records) id : reg_reach w -> din id w.2 = true ->
  exists up down, ancestor_ids id w.2 = Ok up /\ descendant_ids id w.2 = Ok down /\ NoDup down /\
    up_from w.2 (parent_of w.2 id) (rev up) /\
    (forall a, a ∈ up <-> tc (child w.2) a id) /\ (forall d, d ∈ down <-> tc (child w.2) id d) /\
    id ∉ up /\ id ∉ down.
Proof.
  intros Hw Hid. destruct (reach_forest w Hw) as [Hn [rank Hr]].
  destruct (ancestors_ok w.2 rank Hr id Hid) as (l & Eup & Hl). destruct (descendants_ok w.2 rank Hn Hr id Hid) as (ids & Edown & Hnd & Hd).
  assert (Hup : forall a, a ∈ rev l <-> tc (child w.2) a id).
  { intros a. rewrite list_elem_of_In -List.in_rev -list_elem_of_In (up_from_elem _ _ _ a Hl). split.
    - intros (p & Hp & [->|Ha]); [by apply tc_once|]. eapply tc_r; [exact Ha|exact Hp].
    - intros [Ha|(p & Ha & Hp)]%tc_last; [exists a; by split; [|left]|exists p; by split; [|right]]. }
  exists (rev l), ids. rewrite rev_involutive. split_and!; try done.
  - intros Hin%Hup%(tc_rank w.2 rank Hr). lia.
  - intros Hin%Hd%(tc_rank w.2 rank Hr). lia.
Qed.

Lemma lineage_exact_witness : exists up down, ancestor_ids "exp-1" (in_review []).2 = Ok up /\ descendant_ids "exp-1" (in_review []).2 = Ok down /\
  "exp-1" ∉ up /\ "exp-1" ∉ down.
Proof.
  destruct (lineage_exact (in_review []) "exp-1" (in_review_reach [] (Forall_nil_2 _)) eq_refl) as (up & down & H1 & H2 & _ & _ & _ & _ & H3 & H4).
  exact (ex_intro _ up (ex_intro _ down (conj H1 (conj H2 (conj H3 H4))))).
Defined.
