(* ===== verification/AlphaModels.v ===== *)
(** * Readings, features, candidates and signals (src/alpha_engine/_time.py, data_sources/,
    features/, candidates/, watchlist.py)

    From a reading of the market to a directional opinion: each layer passes an
    unavailable input on as an unavailable output. Logging is not modelled. *)

From Stdlib Require Import ssreflect ZArith Lia Ascii String QArith Qabs Lqa.
From stdpp Require Import base strings numbers gmap sets list.
From S2P Require Import Prelude PyText PyDict PyJson PyLines PySort PyDecimal PyDecimalFacts PyFloat Payload ExchangeModels.
From S2P Require RegistryLog.
#[local] Open Scope Z_scope.

Notation entry := (list (string * json)).

(** [Decimal(s)]: outer blanks and underscores are ignored. *)
Fixpoint without_underscores (s : string) : string :=
  match s with
  | "" => ""
  | String c s => if Ascii.eqb c "_" then without_underscores s else String c (without_underscores s)
  end.
Definition Decimal (s : string) : option decimal := dec_parse (without_underscores (strip s)).

(** A text [Decimal] reads as an infinity or as not a number: the model's
    decimals are finite, and makes no statement about the others. *)
Definition all_digits (s : string) : bool := str_forall is_digit s.
Definition special_decimal (raw : string) : bool :=
  let s := lower (parse_sign (without_underscores (strip raw))).2 in
  String.eqb s "inf" || String.eqb s "infinity" ||
  String.prefix "nan" s && all_digits (str_drop 3 s) || String.prefix "snan" s && all_digits (str_drop 4 s).

(** ** Time *)

Section time.
(** [datetime.fromisoformat]: local microseconds since the first representable
    instant, and the offset from UTC. *)
Context (fromisoformat : string -> result (Z * option Z)).

(** The number of microseconds in the years 1 to 9999. *)
Definition _DATETIMES : Z := 3652059 * 86400 * 10 ^ 6.

(** [dt.astimezone(timezone.utc)]; a naive time is taken as UTC. *)
Definition to_utc (dt : Z * option Z) : result Z :=
  match dt.2 with
  | None => Ok dt.1
  | Some offset => let t := dt.1 - offset in if (0 <=? t) && (t <? _DATETIMES) then Ok t else Err OverflowError
  end.

(** [text[:-1] + "+00:00"] for a trailing Z. *)
Fixpoint explicit_utc (text : string) : string :=
  match text with
  | "" => ""
  | String c "" => if Ascii.eqb c "Z" || Ascii.eqb c "z" then "+00:00" else text
  | String c text => String c (explicit_utc text)
  end.

Definition parse_utc (value : string) : result Z :=
  if blank value then Err ValueError else
  dt ← fromisoformat (explicit_utc (strip value));
  to_utc dt.

(** [_parse_utc] of the data sources: no other forms, no range. *)
Definition _parse_utc (value : string) : result Z :=
  dt ← fromisoformat value;
  Ok (match dt.2 with Some offset => dt.1 - offset | None => dt.1 end).

(** [timedelta.total_seconds()] *)
Definition total_seconds (micros : Z) : float := true_div micros (10 ^ 6).

Definition _age_seconds (fetched_at_utc observed_at_utc : string) : result float :=
  fetched ← _parse_utc fetched_at_utc;
  observed ← _parse_utc observed_at_utc;
  Ok (total_seconds (fetched - observed)).
End time.

(** Decimal digits, with zeros in front. *)
Definition padded (width : nat) (n : Z) : string := zeros (width - Z.to_nat (slen (nat_str n))) +:+ nat_str n.

(** Year, month and day of a number of days since 0001-01-01. *)
Definition civil (days : Z) : Z * Z * Z :=
  let z := days + 306 in
  let era := z / 146097 in
  let doe := z mod 146097 in
  let yoe := (doe - doe / 1460 + doe / 36524 - doe / 146096) / 365 in
  let doy := doe - (365 * yoe + yoe / 4 - yoe / 100) in
  let mp := (5 * doy + 2) / 153 in
  let month := if mp <? 10 then mp + 3 else mp - 9 in
  (yoe + era * 400 + (if month <=? 2 then 1 else 0), month, doy - (153 * mp + 2) / 5 + 1).

(** [dt.isoformat(timespec="microseconds")] of a UTC time. *)
Definition isoformat_utc (t : Z) : string :=
  let '(year, month, day) := civil (t / (86400 * 10 ^ 6)) in
  let r := t mod (86400 * 10 ^ 6) in
  let s := r / 10 ^ 6 in
  padded 4 year +:+ "-" +:+ padded 2 month +:+ "-" +:+ padded 2 day +:+ "T" +:+ padded 2 (s / 3600) +:+ ":"
  +:+ padded 2 (s / 60 mod 60) +:+ ":" +:+ padded 2 (s mod 60) +:+ "." +:+ padded 6 (r mod 10 ^ 6) +:+ "+00:00".

Example isoformat_utc_ex :
  map isoformat_utc [0; 719162 * 86400 * 10 ^ 6; 738944 * 86400 * 10 ^ 6 + 49511000007; _DATETIMES - 1] =
  ["0001-01-01T00:00:00.000000+00:00"; "1970-01-01T00:00:00.000000+00:00"; "2024-02-29T13:45:11.000007+00:00";
   "9999-12-31T23:59:59.999999+00:00"].
Proof. vm_compute. reflexivity. Qed.

Definition canonical_utc (fromisoformat : string -> result (Z * option Z)) (value : string) : result string :=
  t ← parse_utc fromisoformat value; Ok (isoformat_utc t).

(** ** Readings *)

#[local] Set Warnings "-register-all".
(** Why there is no value; the text of an exception is not modelled. *)
Inductive reason :=
  | ReadFailed (e : exn) | FutureDated | Stale | InputUnavailable (r : option reason) | FeatureUnavailable (r : option reason).

(** [FundingRateReading], and [OpenInterestReading] with the same fields and checks. *)
Record Reading := {
  rn_symbol : Symbol;
  rn_fetched_at_utc : string;
  rn_available : bool;
  rn_value : option decimal;
  rn_observed_at_utc : option string;
  rn_reason : option reason
}.

Definition none {A} (o : option A) : bool := match o with None => true | Some _ => false end.

Definition mk_Reading (r : Reading) : result Reading :=
  if blank (rn_fetched_at_utc r) then Err DataSourceError else
  if rn_available r
  then if none (rn_value r) || none (rn_observed_at_utc r) || negb (none (rn_reason r)) then Err DataSourceError else Ok r
  else if negb (none (rn_value r)) || none (rn_reason r) then Err DataSourceError else Ok r.

Definition no_reading (symbol : Symbol) (fetched_at_utc : string) (why : reason) : Reading :=
  {| rn_symbol := symbol; rn_fetched_at_utc := fetched_at_utc; rn_available := false; rn_value := None;
     rn_observed_at_utc := None; rn_reason := Some why |}.

Definition _DEFAULT_MAX_STALENESS_SECONDS : float := float_of_int 300.

Module FundingRateProvider.
Section provider.
Context (fromisoformat : string -> result (Z * option Z)).
Context {S : Type} (get_funding_rate : Symbol -> M S FundingRate) (_max_staleness_seconds : float) (_clock : string).

Definition fetch (symbol : Symbol) : M S Reading := fun s =>
  match get_funding_rate symbol s with
  | (s, Err e) => (s, mk_Reading (no_reading symbol _clock (ReadFailed e)))
  | (s, Ok funding) =>
      (s, age ← _age_seconds fromisoformat _clock (fr_timestamp_utc funding);
          if fltb_int age 0 then mk_Reading (no_reading symbol _clock FutureDated) else
          if fltb _max_staleness_seconds age then mk_Reading (no_reading symbol _clock Stale) else
          mk_Reading {| rn_symbol := symbol; rn_fetched_at_utc := _clock; rn_available := true; rn_value := Some (fr_rate funding);
                        rn_observed_at_utc := Some (fr_timestamp_utc funding); rn_reason := None |})
  end.
End provider.
End FundingRateProvider.

(** The first asset of a name, with its place. *)
Fixpoint find_asset (i : nat) (name : string) (universe : list json) : option nat :=
  match universe with
  | [] => None
  | asset :: universe =>
      match jget "name" asset with
      | Some (JStr n) => if String.eqb n name then Some i else find_asset (S i) name universe
      | _ => find_asset (S i) name universe
      end
  end.

Definition _parse_open_interest (body : json) (symbol_name : string) : result decimal :=
  match body with
  | JList (meta :: asset_ctxs :: _) =>
      match jget "universe" meta, asset_ctxs with
      | Some (JList universe), JList ctxs =>
          index ← of_option DataSourceError (find_asset 0 symbol_name universe);
          match ctxs !! index with
          | Some (JObj ctx) =>
              match dget "openInterest" ctx with
              | Some (JStr raw) => of_option DataSourceError (Decimal raw)
              | _ => Err DataSourceError
              end
          | _ => Err DataSourceError
          end
      | _, _ => Err DataSourceError
      end
  | _ => Err DataSourceError
  end.

Module OpenInterestProvider.
Section provider.
(** The transport's answer to the request. *)
Context {S : Type} (_transport : M S json) (_clock : string).

Definition fetch (symbol : Symbol) : M S Reading := fun s =>
  match (body ← _transport; lift (_parse_open_interest body (sym_value symbol))) s with
  | (s, Err e) => (s, mk_Reading (no_reading symbol _clock (ReadFailed e)))
  | (s, Ok value) =>
      (s, mk_Reading {| rn_symbol := symbol; rn_fetched_at_utc := _clock; rn_available := true; rn_value := Some value;
                        rn_observed_at_utc := Some _clock; rn_reason := None |})
  end.
End provider.
End OpenInterestProvider.

(** ** Features *)

Record FeatureMetadata := {
  fm_name : string; fm_version : string; fm_warmup_periods : Z; fm_input_data_sources : list string
}.

Record FeatureValue := {
  fv_feature_name : string;
  fv_feature_version : string;
  fv_symbol : Symbol;
  fv_computed_at_utc : string;
  fv_available : bool;
  fv_value : option decimal;
  fv_reason : option reason
}.

Definition mk_FeatureValue (f : FeatureValue) : result FeatureValue :=
  if blank (fv_feature_name f) || blank (fv_feature_version f) || blank (fv_computed_at_utc f) then Err FeatureError else
  if fv_available f
  then if none (fv_value f) || negb (none (fv_reason f)) then Err FeatureError else Ok f
  else if negb (none (fv_value f)) || none (fv_reason f) then Err FeatureError else Ok f.

(** The pass-through both raw features share in form. *)
Definition pass_through (name version : string) (reading : Reading) : result FeatureValue :=
  if rn_available reading
  then mk_FeatureValue {| fv_feature_name := name; fv_feature_version := version; fv_symbol := rn_symbol reading;
                          fv_computed_at_utc := rn_fetched_at_utc reading; fv_available := true; fv_value := rn_value reading;
                          fv_reason := None |}
  else mk_FeatureValue {| fv_feature_name := name; fv_feature_version := version; fv_symbol := rn_symbol reading;
                          fv_computed_at_utc := rn_fetched_at_utc reading; fv_available := false; fv_value := None;
                          fv_reason := Some (InputUnavailable (rn_reason reading)) |}.

Module FundingRateFeature.
Definition NAME : string := "funding_rate_raw".
Definition VERSION : string := "v1".
Definition metadata : FeatureMetadata :=
  {| fm_name := NAME; fm_version := VERSION; fm_warmup_periods := 0; fm_input_data_sources := ["funding_rate"] |}.
Definition compute (reading : Reading) : result FeatureValue := pass_through NAME VERSION reading.
End FundingRateFeature.

Module OpenInterestFeature.
Definition NAME : string := "open_interest_raw".
Definition VERSION : string := "v1".
Definition metadata : FeatureMetadata :=
  {| fm_name := NAME; fm_version := VERSION; fm_warmup_periods := 0; fm_input_data_sources := ["open_interest"] |}.
Definition compute (reading : Reading) : result FeatureValue := pass_through NAME VERSION reading.
End OpenInterestFeature.

Definition PCTRANK_NAME : string := "open_interest_pctrank_centered".
Definition PCTRANK_VERSION : string := "v1".
Definition ZSCORE_NAME : string := "open_interest_zscore".
Definition ZSCORE_VERSION : string := "v1".

Definition percentile_rank_centered (window : list decimal) (current : decimal) : result (option decimal) :=
  match window with
  | [] => Ok None
  | _ =>
      let below := Z.of_nat (length (List.filter (fun v => dltb v current) window)) in
      let equal := Z.of_nat (length (List.filter (fun v => deqb v current) window)) in
      half ← ddiv (dint equal) (dint 2);
      rank ← ddiv (dadd (dint below) half) (dint (Z.of_nat (length window)));
      Ok (Some (dsub rank (Dec 5 (-1))))
  end.

(** [sum(l, Decimal(0))] *)
Definition dsum (l : list decimal) : decimal := foldl dadd d0 l.

(** [zscore]: how many standard deviations from the mean of the window. *)
Definition zscore (window : list decimal) (current : decimal) : result (option decimal) :=
  let n := dint (Z.of_nat (length window)) in
  if (length window <? 2)%nat then Ok None else
  mean ← ddiv (dsum window) n;
  variance ← ddiv (dsum (map (fun v => dsquare (dsub v mean)) window)) n;
  if deqb variance d0 then Ok None else
  std ← dsqrt variance;
  z ← ddiv (dsub current mean) std;
  Ok (Some z).

Example zscore_ex :
  (zscore [dint 1; dint 2; dint 3] (dint 4), zscore [dint 2; dint 4; dint 4; dint 4; dint 5; dint 5; dint 7; dint 9] (dint 9),
   zscore [dint 3; dint 3] (dint 4), zscore [dint 3] (dint 4)) =
  (Ok (Some (Dec 2449489742783178098197284075 (-27))), Ok (Some (dint 2)), Ok None, Ok None).
Proof. vm_compute. reflexivity. Qed.

(** ** Specifications *)

Record CandidateSpecification := {
  cs_name : string;
  cs_version : string;
  cs_candidate_type : string;
  cs_universe : list Symbol;
  cs_feature_name : string;
  cs_feature_version : string;
  cs_cadence_seconds : Z;
  cs_acceptance_criteria : entry;
  cs_parameters : entry
}.

Definition mk_CandidateSpecification (s : CandidateSpecification) : result CandidateSpecification :=
  if existsb blank [cs_name s; cs_version s; cs_candidate_type s; cs_feature_name s; cs_feature_version s] then Err CandidateError else
  if match cs_universe s with [] => true | _ => false end then Err CandidateError else
  if cs_cadence_seconds s <=? 0 then Err CandidateError else
  if match cs_acceptance_criteria s with [] => true | _ => false end then Err CandidateError else
  Ok s.

Definition to_specification_dict (s : CandidateSpecification) : json :=
  JObj [("candidate_name", JStr (cs_name s)); ("candidate_version", JStr (cs_version s));
        ("candidate_type", JStr (cs_candidate_type s));
        ("universe", JList (map (fun x => JStr (sym_value x)) (cs_universe s)));
        ("feature_name", JStr (cs_feature_name s)); ("feature_version", JStr (cs_feature_version s));
        ("cadence_seconds", JInt (cs_cadence_seconds s)); ("acceptance_criteria", JObj (cs_acceptance_criteria s));
        ("parameters", JObj (cs_parameters s))].

(** [tuple(Symbol(s) for s in universe_raw)] *)
Fixpoint symbols_of (l : list json) : result (list Symbol) :=
  match l with
  | [] => Ok []
  | JStr s :: l => x ← mk_Symbol s; xs ← symbols_of l; Ok (x :: xs)
  | _ :: _ => Err ValueError
  end.

(** A missing field, a value of the wrong type and a failing [Symbol] are all
    reported as [CandidateError]. *)
Definition str_field (k : string) (data : entry) : result string :=
  match dget k data with Some (JStr s) => Ok s | _ => Err CandidateError end.
Definition mapping_field (k : string) (data : entry) : result entry :=
  match dget k data with Some (JObj o) => Ok o | _ => Err CandidateError end.

Definition from_specification_dict (data : entry) : result CandidateSpecification :=
  universe_raw ← match dget "universe" data with Some (JList l) => Ok l | _ => Err CandidateError end;
  name ← str_field "candidate_name" data;
  version ← str_field "candidate_version" data;
  candidate_type ← str_field "candidate_type" data;
  universe ← match symbols_of universe_raw with Ok u => Ok u | Err _ => Err CandidateError end;
  feature_name ← str_field "feature_name" data;
  feature_version ← str_field "feature_version" data;
  cadence ← match dget "cadence_seconds" data with Some (JInt n) => Ok n | _ => Err CandidateError end;
  acceptance_criteria ← mapping_field "acceptance_criteria" data;
  parameters ← mapping_field "parameters" data;
  mk_CandidateSpecification
    {| cs_name := name; cs_version := version; cs_candidate_type := candidate_type; cs_universe := universe;
       cs_feature_name := feature_name; cs_feature_version := feature_version; cs_cadence_seconds := cadence;
       cs_acceptance_criteria := acceptance_criteria; cs_parameters := parameters |}.

(** ** Signals *)

Module SignalDirection.
Inductive SignalDirection :=
  | LONG | SHORT | FLAT.
#[global] Instance SignalDirection_eq_dec : EqDecision SignalDirection.
Proof. solve_decision. Defined.

Definition value (x : SignalDirection) : string :=
  match x with
  | LONG => "long" | SHORT => "short" | FLAT => "flat"
  end.

#[global] Program Instance SignalDirection_enum : PyEnum SignalDirection := {
  enum_all := [LONG; SHORT; FLAT];
  enum_value := value
}.
Solve Obligations with solve_enum.
End SignalDirection.
Notation SignalDirection := SignalDirection.SignalDirection.

Record CandidateSignal := {
  sg_candidate_name : string;
  sg_candidate_version : string;
  sg_symbol : Symbol;
  sg_evaluated_at_utc : string;
  sg_available : bool;
  sg_direction : option SignalDirection;
  sg_feature_value : option decimal;
  sg_threshold : option decimal;
  sg_reason : option reason
}.

Definition mk_CandidateSignal (s : CandidateSignal) : result CandidateSignal :=
  if blank (sg_candidate_name s) || blank (sg_candidate_version s) || blank (sg_evaluated_at_utc s) then Err CandidateError else
  if sg_available s
  then if none (sg_direction s) || none (sg_feature_value s) || none (sg_threshold s) || negb (none (sg_reason s))
       then Err CandidateError else Ok s
  else if negb (none (sg_direction s)) || negb (none (sg_feature_value s)) || negb (none (sg_threshold s)) || none (sg_reason s)
       then Err CandidateError else Ok s.

(** ** The rules *)

Definition _CONTRARIAN : string := "contrarian".
Definition _MOMENTUM : string := "momentum".

Definition _extract_threshold (parameters : entry) : result decimal :=
  match dget "threshold" parameters with
  | Some (JStr raw) =>
      if blank raw then Err CandidateError else
      threshold ← of_option CandidateError (Decimal raw);
      if dleb threshold d0 then Err CandidateError else Ok threshold
  | _ => Err CandidateError
  end.

(** [true] for the contrarian convention, the default. *)
Definition _extract_direction_convention (parameters : entry) : result bool :=
  match dget "direction_convention" parameters with
  | None => Ok true
  | Some (JStr s) => if String.eqb s _CONTRARIAN then Ok true else if String.eqb s _MOMENTUM then Ok false else Err CandidateError
  | Some _ => Err CandidateError
  end.

Definition signal_of (spec : CandidateSpecification) (f : FeatureValue) (direction : SignalDirection) (v threshold : decimal) : CandidateSignal :=
  {| sg_candidate_name := cs_name spec; sg_candidate_version := cs_version spec; sg_symbol := fv_symbol f;
     sg_evaluated_at_utc := fv_computed_at_utc f; sg_available := true; sg_direction := Some direction;
     sg_feature_value := Some v; sg_threshold := Some threshold; sg_reason := None |}.
Definition no_signal (spec : CandidateSpecification) (f : FeatureValue) : CandidateSignal :=
  {| sg_candidate_name := cs_name spec; sg_candidate_version := cs_version spec; sg_symbol := fv_symbol f;
     sg_evaluated_at_utc := fv_computed_at_utc f; sg_available := false; sg_direction := None;
     sg_feature_value := None; sg_threshold := None; sg_reason := Some (FeatureUnavailable (fv_reason f)) |}.

(** What the three [evaluate] have in common, up to the comparison. *)
Definition evaluate_rule (name : string) (compare : decimal -> decimal -> bool -> SignalDirection)
    (f : FeatureValue) (spec : CandidateSpecification) : result CandidateSignal :=
  if negb (String.eqb (cs_name spec) name) || negb (String.eqb (cs_candidate_type spec) "rule_based") then Err CandidateError else
  if negb (String.eqb (fv_feature_name f) (cs_feature_name spec)) || negb (String.eqb (fv_feature_version f) (cs_feature_version spec))
  then Err CandidateError else
  threshold ← _extract_threshold (cs_parameters spec);
  contrarian ← _extract_direction_convention (cs_parameters spec);
  if negb (fv_available f) then mk_CandidateSignal (no_signal spec f) else
  v ← of_option TypeError (fv_value f);
  mk_CandidateSignal (signal_of spec f (compare v threshold contrarian) v threshold).

(** Above the threshold, below its opposite, or neither. *)
Definition two_sided (v threshold : decimal) (contrarian : bool) : SignalDirection :=
  if dltb threshold v then (if contrarian then SignalDirection.SHORT else SignalDirection.LONG)
  else if dltb v (dneg threshold) then (if contrarian then SignalDirection.LONG else SignalDirection.SHORT)
  else SignalDirection.FLAT.
Definition one_sided (v threshold : decimal) (contrarian : bool) : SignalDirection :=
  if dltb threshold v then (if contrarian then SignalDirection.SHORT else SignalDirection.LONG) else SignalDirection.FLAT.

Definition rule_specification (name feature_name feature_version version : string) (universe : list Symbol) (cadence_seconds : Z)
    (parameters acceptance_criteria : entry) : result CandidateSpecification :=
  mk_CandidateSpecification
    {| cs_name := name; cs_version := version; cs_candidate_type := "rule_based"; cs_universe := universe;
       cs_feature_name := feature_name; cs_feature_version := feature_version; cs_cadence_seconds := cadence_seconds;
       cs_acceptance_criteria := acceptance_criteria; cs_parameters := parameters |}.

Module FundingRateThresholdRuleCandidate.
Definition _CANDIDATE_NAME : string := "funding_rate_threshold_rule".
Definition specification := rule_specification _CANDIDATE_NAME (fm_name FundingRateFeature.metadata) (fm_version FundingRateFeature.metadata).
Definition evaluate := evaluate_rule _CANDIDATE_NAME two_sided.
End FundingRateThresholdRuleCandidate.

Module OpenInterestThresholdRuleCandidate.
Definition _CANDIDATE_NAME : string := "open_interest_threshold_rule".
Definition specification := rule_specification _CANDIDATE_NAME (fm_name OpenInterestFeature.metadata) (fm_version OpenInterestFeature.metadata).
Definition evaluate := evaluate_rule _CANDIDATE_NAME one_sided.
End OpenInterestThresholdRuleCandidate.

Module OpenInterestExtremenessRuleCandidate.
Definition _CANDIDATE_NAME : string := "open_interest_extremeness_rule".
Definition _ALLOWED_FEATURES : list (string * string) := [(PCTRANK_NAME, PCTRANK_VERSION); (ZSCORE_NAME, ZSCORE_VERSION)].
Definition specification (feature_name feature_version version : string) (universe : list Symbol) (cadence_seconds : Z)
    (parameters acceptance_criteria : entry) : result CandidateSpecification :=
  if existsb (fun p => String.eqb feature_name p.1 && String.eqb feature_version p.2) _ALLOWED_FEATURES
  then rule_specification _CANDIDATE_NAME feature_name feature_version version universe cadence_seconds parameters acceptance_criteria
  else Err CandidateError.
Definition evaluate := evaluate_rule _CANDIDATE_NAME two_sided.
End OpenInterestExtremenessRuleCandidate.

(** ** The catalog *)

(** The description of a family and its evaluation. *)
Record CatalogEntry := {
  ce_name : string;
  ce_candidate_type : string;
  ce_feature_name : string;
  ce_feature_version : string;
  ce_evaluate_fn : FeatureValue -> CandidateSpecification -> result CandidateSignal
}.

Definition CANDIDATE_CATALOG : list (string * CatalogEntry) :=
  [("funding_rate_threshold_rule",
    {| ce_name := "funding_rate_threshold_rule"; ce_candidate_type := "rule_based";
       ce_feature_name := FundingRateFeature.NAME; ce_feature_version := FundingRateFeature.VERSION;
       ce_evaluate_fn := FundingRateThresholdRuleCandidate.evaluate |});
   ("open_interest_threshold_rule",
    {| ce_name := "open_interest_threshold_rule"; ce_candidate_type := "rule_based";
       ce_feature_name := OpenInterestFeature.NAME; ce_feature_version := OpenInterestFeature.VERSION;
       ce_evaluate_fn := OpenInterestThresholdRuleCandidate.evaluate |});
   ("open_interest_extremeness_rule",
    {| ce_name := "open_interest_extremeness_rule"; ce_candidate_type := "rule_based";
       ce_feature_name := PCTRANK_NAME; ce_feature_version := PCTRANK_VERSION;
       ce_evaluate_fn := OpenInterestExtremenessRuleCandidate.evaluate |})].

Definition list_candidate_types : list string := sorted_by String.leb (map fst CANDIDATE_CATALOG).

Definition get_candidate_type (name : string) : result CatalogEntry :=
  if blank name then Err CandidateError else of_option CandidateError (dget name CANDIDATE_CATALOG).

(** ** The watchlist *)

Record Watchlist := { wl_name : string; wl_symbols : list Symbol }.

Definition mk_Watchlist (w : Watchlist) : result Watchlist :=
  if blank (wl_name w) then Err WatchlistError else
  if match wl_symbols w with [] => true | _ => false end then Err WatchlistError else
  if negb (bool_decide (NoDup (map sym_value (wl_symbols w)))) then Err WatchlistError else Ok w.

Definition wl_contains (w : Watchlist) (symbol : Symbol) : bool :=
  existsb (fun s => String.eqb (sym_value s) (sym_value symbol)) (wl_symbols w).

(** [load_watchlist] on the text of the file, [None] when there is no file. *)
Definition load_watchlist (text : option string) : result Watchlist :=
  match text with
  | None => Err WatchlistError
  | Some text =>
      match loads text with
      | Ok (JObj raw) =>
          match dget "name" raw, dget "symbols" raw with
          | Some (JStr name), Some (JList (_ :: _ as symbols_raw)) =>
              if blank name then Err WatchlistError else
              if negb (forallb (fun s => match s with JStr s => negb (blank s) | _ => false end) symbols_raw) then Err WatchlistError else
              symbols ← symbols_of symbols_raw;
              mk_Watchlist {| wl_name := name; wl_symbols := symbols |}
          | _, _ => Err WatchlistError
          end
      | _ => Err WatchlistError
      end
  end.
