(* ===== verification/Validation.v ===== *)
(** * Validation of a candidate (src/alpha_engine/validation/)

    Scoring a rule against samples: one pass, walk-forward folds, the causality
    audit, bootstrap resampling and regimes, and the evidence package they fill.
    The injected clock gives the same time throughout a run; the reason texts of
    unavailable features and the generator of [random.Random(seed)] are arguments. *)

From Stdlib Require Import ssreflect ZArith Lia Ascii String.
From stdpp Require Import base strings numbers gmap sets list.
From S2P Require Import Prelude PyText PyDict PyBytes PyJson PySort PyLines PyDecimal PyDecimalFacts Payload EventStoreFacts ExchangeModels.
From S2P Require Import RegistryLog AlphaModels.
#[local] Open Scope Z_scope.

(** ** models.py *)

Record ValidationSample := {
  vs_feature_value : FeatureValue;
  vs_realized_outcome : decimal;
  vs_outcome_observed_at_utc : option string;
  vs_regime_label : option string
}.

Definition blank_opt (o : option string) : bool := match o with Some s => blank s | None => false end.

Definition mk_ValidationSample (s : ValidationSample) : result ValidationSample :=
  if blank_opt (vs_outcome_observed_at_utc s) || blank_opt (vs_regime_label s) then Err ValidationError else Ok s.

Module CriterionOutcome.
Inductive CriterionOutcome :=
  | PASS | FAIL | NOT_EVALUATED.
#[global] Instance CriterionOutcome_eq_dec : EqDecision CriterionOutcome.
Proof. solve_decision. Defined.

Definition value (x : CriterionOutcome) : string :=
  match x with
  | PASS => "pass" | FAIL => "fail" | NOT_EVALUATED => "not_evaluated"
  end.

#[global] Program Instance CriterionOutcome_enum : PyEnum CriterionOutcome := {
  enum_all := [PASS; FAIL; NOT_EVALUATED];
  enum_value := value
}.
Solve Obligations with solve_enum.
End CriterionOutcome.
Notation CriterionOutcome := CriterionOutcome.CriterionOutcome.

Record CriterionCheck := {
  cc_criterion_key : string;
  cc_required_value : json;
  cc_observed_value : option json;
  cc_outcome : CriterionOutcome
}.

Definition mk_CriterionCheck (c : CriterionCheck) : result CriterionCheck :=
  if blank (cc_criterion_key c) then Err ValidationError else
  if bool_decide (cc_outcome c = CriterionOutcome.NOT_EVALUATED) && negb (none (cc_observed_value c)) then Err ValidationError else Ok c.

Definition opt_j (o : option json) : json := match o with Some j => j | None => JNull end.
Definition opt_dec (o : option decimal) : json := match o with Some d => JStr (dec_str d) | None => JNull end.
Definition opt_string (o : option string) : json := match o with Some s => JStr s | None => JNull end.

Definition check_dict (c : CriterionCheck) : json :=
  JObj [("criterion_key", JStr (cc_criterion_key c)); ("required_value", cc_required_value c);
        ("observed_value", opt_j (cc_observed_value c)); ("outcome", JStr (CriterionOutcome.value (cc_outcome c)))].

Definition passes (c : CriterionCheck) : bool := bool_decide (cc_outcome c = CriterionOutcome.PASS).

Record ValidationResult := {
  vr_candidate_name : string;
  vr_candidate_version : string;
  vr_validated_at_utc : string;
  vr_total_samples : Z;
  vr_unavailable_samples : Z;
  vr_flat_samples : Z;
  vr_signaled_samples : Z;
  vr_hits : Z;
  vr_hit_rate : option decimal;
  vr_mean_directional_return : option decimal;
  vr_criteria_results : list CriterionCheck;
  vr_overall_passed : bool;
  vr_sample_set_fingerprint : option string
}.

Definition mk_ValidationResult (r : ValidationResult) : result ValidationResult :=
  if blank (vr_candidate_name r) || blank (vr_candidate_version r) || blank (vr_validated_at_utc r) then Err ValidationError else
  if existsb (fun n => n <? 0) [vr_total_samples r; vr_unavailable_samples r; vr_flat_samples r; vr_signaled_samples r; vr_hits r]
  then Err ValidationError else
  if negb (vr_unavailable_samples r + vr_flat_samples r + vr_signaled_samples r =? vr_total_samples r) then Err ValidationError else
  if vr_signaled_samples r <? vr_hits r then Err ValidationError else
  if (if vr_signaled_samples r =? 0
      then negb (none (vr_hit_rate r)) || negb (none (vr_mean_directional_return r))
      else none (vr_hit_rate r) || none (vr_mean_directional_return r)) then Err ValidationError else
  if match vr_criteria_results r with [] => true | _ => false end then Err ValidationError else
  if negb (Bool.eqb (vr_overall_passed r) (forallb passes (vr_criteria_results r))) then Err ValidationError else
  if blank_opt (vr_sample_set_fingerprint r) then Err ValidationError else Ok r.

Definition result_dict (r : ValidationResult) : json :=
  JObj [("candidate_name", JStr (vr_candidate_name r)); ("candidate_version", JStr (vr_candidate_version r));
        ("validated_at_utc", JStr (vr_validated_at_utc r)); ("total_samples", JInt (vr_total_samples r));
        ("unavailable_samples", JInt (vr_unavailable_samples r)); ("flat_samples", JInt (vr_flat_samples r));
        ("signaled_samples", JInt (vr_signaled_samples r)); ("hits", JInt (vr_hits r)); ("hit_rate", opt_dec (vr_hit_rate r));
        ("mean_directional_return", opt_dec (vr_mean_directional_return r));
        ("criteria_results", JList (map check_dict (vr_criteria_results r)));
        ("overall_passed", JBool (vr_overall_passed r)); ("sample_set_fingerprint", opt_string (vr_sample_set_fingerprint r))].

(** ** runner.py *)

Definition EvaluateFn : Type := FeatureValue -> CandidateSpecification -> result CandidateSignal.

Definition _MIN_HIT_RATE_KEY : string := "min_hit_rate".
Definition _MIN_SIGNALED_SAMPLES_KEY : string := "min_signaled_samples".

(** [Decimal(str(required))] *)
Definition decimal_of_json (required : json) : option decimal :=
  match required with JStr s => Decimal s | JInt n => Some (dint n) | _ => None end.

Definition _check_min_hit_rate (required : json) (hit_rate : option decimal) : result CriterionCheck :=
  required_decimal ← of_option ValidationError (decimal_of_json required);
  if negb (dleb d0 required_decimal && dleb required_decimal d1) then Err ValidationError else
  mk_CriterionCheck
    match hit_rate with
    | None => {| cc_criterion_key := _MIN_HIT_RATE_KEY; cc_required_value := required; cc_observed_value := None;
                 cc_outcome := CriterionOutcome.NOT_EVALUATED |}
    | Some h => {| cc_criterion_key := _MIN_HIT_RATE_KEY; cc_required_value := required; cc_observed_value := Some (JStr (dec_str h));
                   cc_outcome := if dleb required_decimal h then CriterionOutcome.PASS else CriterionOutcome.FAIL |}
    end.

Definition _check_min_signaled_samples (required : json) (signaled_samples : Z) : result CriterionCheck :=
  match required with
  | JInt n =>
      if n <? 0 then Err ValidationError else
      mk_CriterionCheck
        {| cc_criterion_key := _MIN_SIGNALED_SAMPLES_KEY; cc_required_value := required; cc_observed_value := Some (JInt signaled_samples);
           cc_outcome := if n <=? signaled_samples then CriterionOutcome.PASS else CriterionOutcome.FAIL |}
  | _ => Err ValidationError
  end.

Definition check_criterion (hit_rate : option decimal) (signaled : Z) (criterion : string * json) : result CriterionCheck :=
  let '(key, required) := criterion in
  if String.eqb key _MIN_HIT_RATE_KEY then _check_min_hit_rate required hit_rate
  else if String.eqb key _MIN_SIGNALED_SAMPLES_KEY then _check_min_signaled_samples required signaled
  else mk_CriterionCheck {| cc_criterion_key := key; cc_required_value := required; cc_observed_value := None;
                            cc_outcome := CriterionOutcome.NOT_EVALUATED |}.

(** [[f(x) for x in l]] *)
Fixpoint map_result {A B} (f : A -> result B) (l : list A) : result (list B) :=
  match l with [] => Ok [] | x :: l => y ← f x; ys ← map_result f l; Ok (y :: ys) end.

(** What the loop over the samples counts. *)
Record Tally := { ta_unavailable : Z; ta_flat : Z; ta_hits : Z; ta_returns : list decimal }.

Definition count_sample (evaluate_fn : EvaluateFn) (spec : CandidateSpecification) (t : Tally) (s : ValidationSample) : result Tally :=
  signal ← evaluate_fn (vs_feature_value s) spec;
  if negb (sg_available signal)
  then Ok {| ta_unavailable := ta_unavailable t + 1; ta_flat := ta_flat t; ta_hits := ta_hits t; ta_returns := ta_returns t |}
  else if bool_decide (sg_direction signal = Some SignalDirection.FLAT)
  then Ok {| ta_unavailable := ta_unavailable t; ta_flat := ta_flat t + 1; ta_hits := ta_hits t; ta_returns := ta_returns t |}
  else
    let directional_return := if bool_decide (sg_direction signal = Some SignalDirection.LONG) then vs_realized_outcome s
                              else dneg (vs_realized_outcome s) in
    Ok {| ta_unavailable := ta_unavailable t; ta_flat := ta_flat t;
          ta_hits := if dltb d0 directional_return then ta_hits t + 1 else ta_hits t;
          ta_returns := ta_returns t ++ [directional_return] |}.

Definition no_tally : Tally := {| ta_unavailable := 0; ta_flat := 0; ta_hits := 0; ta_returns := [] |}.

(** [sum(l) / Decimal(len(l)) if l else None] *)
Definition mean (l : list decimal) : result (option decimal) :=
  match l with [] => Ok None | _ => m ← ddiv (dsum l) (dint (Z.of_nat (length l))); Ok (Some m) end.

Section validation.
Context (fromisoformat : string -> result (Z * option Z)) (reason_text : reason -> string) (clock : string).

(** Timestamps that do not parse are a [ValidationError]. *)
Definition timestamp {A} (r : result A) : result A := match r with Err ValueError => Err ValidationError | r => r end.

Definition sample_row (s : ValidationSample) : result json :=
  let f := vs_feature_value s in
  times ← timestamp (computed_at ← canonical_utc fromisoformat (fv_computed_at_utc f);
                     observed_at ← match vs_outcome_observed_at_utc s with
                                   | Some o => c ← canonical_utc fromisoformat o; Ok (JStr c)
                                   | None => Ok JNull
                                   end;
                     Ok (computed_at, observed_at));
  Ok (JObj [("feature_name", JStr (fv_feature_name f)); ("feature_version", JStr (fv_feature_version f));
            ("symbol", JStr (sym_value (fv_symbol f))); ("computed_at_utc", JStr times.1); ("available", JBool (fv_available f));
            ("value", opt_dec (fv_value f)); ("reason", match fv_reason f with Some r => JStr (reason_text r) | None => JNull end);
            ("realized_outcome", JStr (dec_str (vs_realized_outcome s))); ("outcome_observed_at_utc", times.2);
            ("regime_label", opt_string (vs_regime_label s))]).

Definition is_nil {A} (l : list A) : bool := match l with [] => true | _ => false end.

Definition fingerprint_samples (samples : list ValidationSample) : result string :=
  if is_nil samples then Err ValidationError else
  rows ← map_result sample_row samples;
  Ok (hex (sha256 (encode (dumps_sorted (JList rows))))).

Definition run_validation (evaluate_fn : EvaluateFn) (specification : CandidateSpecification) (samples : list ValidationSample)
    : result ValidationResult :=
  if is_nil samples then Err ValidationError else
  t ← fold_result (count_sample evaluate_fn specification) no_tally samples;
  let signaled := Z.of_nat (length (ta_returns t)) in
  hit_rate ← (if 0 <? signaled then h ← ddiv (dint (ta_hits t)) (dint signaled); Ok (Some h) else Ok None);
  mean_directional_return ← mean (ta_returns t);
  criteria_results ← map_result (check_criterion hit_rate signaled) (cs_acceptance_criteria specification);
  fingerprint ← fingerprint_samples samples;
  mk_ValidationResult
    {| vr_candidate_name := cs_name specification; vr_candidate_version := cs_version specification; vr_validated_at_utc := clock;
       vr_total_samples := Z.of_nat (length samples); vr_unavailable_samples := ta_unavailable t; vr_flat_samples := ta_flat t;
       vr_signaled_samples := signaled; vr_hits := ta_hits t; vr_hit_rate := hit_rate;
       vr_mean_directional_return := mean_directional_return; vr_criteria_results := criteria_results;
       vr_overall_passed := forallb passes criteria_results; vr_sample_set_fingerprint := Some fingerprint |}.

(** ** walk_forward.py *)

(** The sizes of the folds, and the samples cut into them. *)
Definition fold_size (n_samples n_folds i : nat) : nat :=
  (n_samples / n_folds + if i <? n_samples mod n_folds then 1 else 0)%nat.
Definition _fold_boundaries (n_samples n_folds : nat) : list (nat * nat) :=
  snd (fold_left (fun acc i => let '(start, bs) := acc in
                   let size := fold_size n_samples n_folds i in ((start + size)%nat, bs ++ [(start, (start + size)%nat)]))
         (seq 0 n_folds) (0%nat, [])).

Record WalkForwardResult := {
  wf_candidate_name : string;
  wf_candidate_version : string;
  wf_n_folds : Z;
  wf_fold_results : list ValidationResult;
  wf_hit_rate_range : option decimal;
  wf_validated_at_utc : string;
  wf_overall_passed : bool;
  wf_sample_set_fingerprint : option string
}.

Definition mk_WalkForwardResult (r : WalkForwardResult) : result WalkForwardResult :=
  if blank (wf_candidate_name r) || blank (wf_candidate_version r) then Err ValidationError else
  if wf_n_folds r <=? 0 then Err ValidationError else
  if negb (Z.of_nat (length (wf_fold_results r)) =? wf_n_folds r) then Err ValidationError else
  if blank (wf_validated_at_utc r) then Err ValidationError else
  if negb (Bool.eqb (wf_overall_passed r) (forallb vr_overall_passed (wf_fold_results r))) then Err ValidationError else Ok r.

Definition walk_forward_dict (r : WalkForwardResult) : json :=
  JObj [("candidate_name", JStr (wf_candidate_name r)); ("candidate_version", JStr (wf_candidate_version r));
        ("n_folds", JInt (wf_n_folds r)); ("fold_results", JList (map result_dict (wf_fold_results r)));
        ("hit_rate_range", opt_dec (wf_hit_rate_range r)); ("validated_at_utc", JStr (wf_validated_at_utc r));
        ("overall_passed", JBool (wf_overall_passed r)); ("sample_set_fingerprint", opt_string (wf_sample_set_fingerprint r))].

(** [max(l)] and [min(l)]: the first of the largest, of the smallest. *)
Definition dmax (x : decimal) (l : list decimal) : decimal := foldl (fun m y => if dltb m y then y else m) x l.
Definition dmin (x : decimal) (l : list decimal) : decimal := foldl (fun m y => if dltb y m then y else m) x l.

Definition slice {A} (b : nat * nat) (l : list A) : list A := firstn (b.2 - b.1) (skipn b.1 l).

(** The samples with their times, and the order of [sorted]. *)
Definition timed (s : ValidationSample) : result (Z * ValidationSample) :=
  t ← timestamp (parse_utc fromisoformat (fv_computed_at_utc (vs_feature_value s))); Ok (t, s).
Definition sorted_samples (samples : list ValidationSample) : result (list ValidationSample) :=
  ts ← map_result timed samples;
  Ok (map snd (sorted_by (fun a b => a.1 <=? b.1) ts)).

Definition run_walk_forward_validation (evaluate_fn : EvaluateFn) (specification : CandidateSpecification)
    (samples : list ValidationSample) (n_folds : Z) : result WalkForwardResult :=
  if is_nil samples then Err ValidationError else
  if n_folds <=? 0 then Err ValidationError else
  if Z.of_nat (length samples) <? n_folds then Err ValidationError else
  sorted ← sorted_samples samples;
  fold_results ← map_result (fun b => run_validation evaluate_fn specification (slice b sorted))
                   (_fold_boundaries (length sorted) (Z.to_nat n_folds));
  let fold_hit_rates := omap vr_hit_rate fold_results in
  let hit_rate_range := match fold_hit_rates with x :: (_ :: _ as l) => Some (dsub (dmax x l) (dmin x l)) | _ => None end in
  fingerprint ← fingerprint_samples samples;
  mk_WalkForwardResult
    {| wf_candidate_name := cs_name specification; wf_candidate_version := cs_version specification; wf_n_folds := n_folds;
       wf_fold_results := fold_results; wf_hit_rate_range := hit_rate_range; wf_validated_at_utc := clock;
       wf_overall_passed := forallb vr_overall_passed fold_results; wf_sample_set_fingerprint := Some fingerprint |}.

(** ** causality_audit.py *)

Record CausalityAuditResult := {
  ca_total_samples : Z;
  ca_unique_sample_keys : Z;
  ca_duplicate_samples : Z;
  ca_ordering_verified : Z;
  ca_ordering_violated : Z;
  ca_ordering_not_verifiable : Z;
  ca_violation_details : list string;
  ca_audited_at_utc : string;
  ca_passed : bool
}.

Definition audit_clean (duplicates violated not_verifiable : Z) : bool :=
  (duplicates =? 0) && (violated =? 0) && (not_verifiable =? 0).

Definition mk_CausalityAuditResult (r : CausalityAuditResult) : result CausalityAuditResult :=
  if existsb (fun n => n <? 0) [ca_total_samples r; ca_unique_sample_keys r; ca_duplicate_samples r; ca_ordering_verified r;
                               ca_ordering_violated r; ca_ordering_not_verifiable r] then Err ValidationError else
  if negb (ca_unique_sample_keys r + ca_duplicate_samples r =? ca_total_samples r) then Err ValidationError else
  if negb (ca_ordering_verified r + ca_ordering_violated r + ca_ordering_not_verifiable r =? ca_total_samples r) then Err ValidationError else
  if negb (forallb (fun v => negb (blank v)) (ca_violation_details r)) then Err ValidationError else
  if blank (ca_audited_at_utc r) then Err ValidationError else
  if negb (Bool.eqb (ca_passed r) (audit_clean (ca_duplicate_samples r) (ca_ordering_violated r) (ca_ordering_not_verifiable r)))
  then Err ValidationError else Ok r.

Definition causality_dict (r : CausalityAuditResult) : json :=
  JObj [("total_samples", JInt (ca_total_samples r)); ("unique_sample_keys", JInt (ca_unique_sample_keys r));
        ("duplicate_samples", JInt (ca_duplicate_samples r)); ("ordering_verified", JInt (ca_ordering_verified r));
        ("ordering_violated", JInt (ca_ordering_violated r)); ("ordering_not_verifiable", JInt (ca_ordering_not_verifiable r));
        ("violation_details", JList (map JStr (ca_violation_details r))); ("audited_at_utc", JStr (ca_audited_at_utc r));
        ("passed", JBool (ca_passed r))].

Record Audit := {
  au_seen : list (string * string);
  au_duplicates : Z;
  au_verified : Z;
  au_violated : Z;
  au_not_verifiable : Z;
  au_details : list string
}.
Definition no_audit : Audit :=
  {| au_seen := []; au_duplicates := 0; au_verified := 0; au_violated := 0; au_not_verifiable := 0; au_details := [] |}.

Definition sample_key (s : ValidationSample) : string * string :=
  (sym_value (fv_symbol (vs_feature_value s)), fv_computed_at_utc (vs_feature_value s)).

Definition audit_key (index : Z) (a : Audit) (key : string * string) : Audit :=
  if bool_decide (key ∈ au_seen a)
  then {| au_seen := au_seen a; au_duplicates := au_duplicates a + 1; au_verified := au_verified a; au_violated := au_violated a;
          au_not_verifiable := au_not_verifiable a;
          au_details := au_details a ++ ["sample " +:+ int_str index +:+ ": duplicate data point for " +:+ key.1 +:+ " @ " +:+ key.2
                                         +:+ " (already present earlier in this batch)"] |}
  else {| au_seen := key :: au_seen a; au_duplicates := au_duplicates a; au_verified := au_verified a; au_violated := au_violated a;
          au_not_verifiable := au_not_verifiable a; au_details := au_details a |}.

Definition audit_order (index : Z) (a : Audit) (s : ValidationSample) : result Audit :=
  match vs_outcome_observed_at_utc s with
  | None => Ok {| au_seen := au_seen a; au_duplicates := au_duplicates a; au_verified := au_verified a; au_violated := au_violated a;
                  au_not_verifiable := au_not_verifiable a + 1; au_details := au_details a |}
  | Some observed =>
      feature_time ← timestamp (parse_utc fromisoformat (fv_computed_at_utc (vs_feature_value s)));
      outcome_time ← timestamp (parse_utc fromisoformat observed);
      if feature_time <? outcome_time
      then Ok {| au_seen := au_seen a; au_duplicates := au_duplicates a; au_verified := au_verified a + 1; au_violated := au_violated a;
                 au_not_verifiable := au_not_verifiable a; au_details := au_details a |}
      else Ok {| au_seen := au_seen a; au_duplicates := au_duplicates a; au_verified := au_verified a; au_violated := au_violated a + 1;
                 au_not_verifiable := au_not_verifiable a;
                 au_details := au_details a ++ ["sample " +:+ int_str index +:+ ": outcome_observed_at_utc (" +:+ observed
                   +:+ ") does not strictly follow feature computed_at_utc (" +:+ fv_computed_at_utc (vs_feature_value s)
                   +:+ ") -- a realized outcome cannot be measured at or before the feature that supposedly predicted it"] |}
  end.

Definition audit_sample (a : Audit) (s : Z * ValidationSample) : result Audit := audit_order s.1 (audit_key s.1 a (sample_key s.2)) s.2.

(** [enumerate(l)] *)
Fixpoint enumerate {A} (i : Z) (l : list A) : list (Z * A) :=
  match l with [] => [] | x :: l => (i, x) :: enumerate (i + 1) l end.

Definition run_causality_audit (samples : list ValidationSample) : result CausalityAuditResult :=
  if is_nil samples then Err ValidationError else
  a ← fold_result audit_sample no_audit (enumerate 0 samples);
  mk_CausalityAuditResult
    {| ca_total_samples := Z.of_nat (length samples); ca_unique_sample_keys := Z.of_nat (length (au_seen a));
       ca_duplicate_samples := au_duplicates a; ca_ordering_verified := au_verified a; ca_ordering_violated := au_violated a;
       ca_ordering_not_verifiable := au_not_verifiable a; ca_violation_details := au_details a; ca_audited_at_utc := clock;
       ca_passed := audit_clean (au_duplicates a) (au_violated a) (au_not_verifiable a) |}.

(** ** regime_stratification.py *)

Record RegimeStratificationResult := {
  rs_candidate_name : string;
  rs_candidate_version : string;
  rs_regime_results : list (string * ValidationResult);
  rs_n_regimes_observed : Z;
  rs_unstratified_sample_count : Z;
  rs_validated_at_utc : string;
  rs_overall_passed : bool
}.

Definition regimes_pass (unstratified n_regimes : Z) (results : list (string * ValidationResult)) : bool :=
  (unstratified =? 0) && (1 <=? n_regimes) && forallb (fun r => vr_overall_passed r.2) results.

Definition mk_RegimeStratificationResult (r : RegimeStratificationResult) : result RegimeStratificationResult :=
  if blank (rs_candidate_name r) || blank (rs_candidate_version r) then Err ValidationError else
  if existsb (fun p => blank p.1) (rs_regime_results r) then Err ValidationError else
  if rs_n_regimes_observed r <? 0 then Err ValidationError else
  if negb (rs_n_regimes_observed r =? Z.of_nat (length (rs_regime_results r))) then Err ValidationError else
  if rs_unstratified_sample_count r <? 0 then Err ValidationError else
  if blank (rs_validated_at_utc r) then Err ValidationError else
  if negb (Bool.eqb (rs_overall_passed r) (regimes_pass (rs_unstratified_sample_count r) (rs_n_regimes_observed r) (rs_regime_results r)))
  then Err ValidationError else Ok r.

Definition regime_dict (r : RegimeStratificationResult) : json :=
  JObj [("candidate_name", JStr (rs_candidate_name r)); ("candidate_version", JStr (rs_candidate_version r));
        ("regime_results", JObj (sort_items (map (fun p => (p.1, result_dict p.2)) (rs_regime_results r))));
        ("n_regimes_observed", JInt (rs_n_regimes_observed r));
        ("unstratified_sample_count", JInt (rs_unstratified_sample_count r)); ("validated_at_utc", JStr (rs_validated_at_utc r));
        ("overall_passed", JBool (rs_overall_passed r))].

(** The samples of each label, in the order of the labels' first samples, and
    the number of samples without one. *)
Definition group_sample (acc : list (string * list ValidationSample) * Z) (s : ValidationSample) : list (string * list ValidationSample) * Z :=
  match vs_regime_label s with
  | None => (acc.1, acc.2 + 1)
  | Some label => (dset label (default [] (dget label acc.1) ++ [s]) acc.1, acc.2)
  end.

Definition run_regime_stratified_validation (evaluate_fn : EvaluateFn) (specification : CandidateSpecification)
    (samples : list ValidationSample) : result RegimeStratificationResult :=
  if is_nil samples then Err ValidationError else
  let '(grouped, unstratified) := foldl group_sample ([], 0) samples in
  regime_results ← map_result (fun g => r ← run_validation evaluate_fn specification g.2; Ok (g.1, r)) grouped;
  let n := Z.of_nat (length regime_results) in
  mk_RegimeStratificationResult
    {| rs_candidate_name := cs_name specification; rs_candidate_version := cs_version specification;
       rs_regime_results := regime_results; rs_n_regimes_observed := n; rs_unstratified_sample_count := unstratified;
       rs_validated_at_utc := clock; rs_overall_passed := regimes_pass unstratified n regime_results |}.

(** ** bootstrap.py *)

Record BootstrapResult := {
  bs_candidate_name : string;
  bs_candidate_version : string;
  bs_n_resamples : Z;
  bs_resample_size : Z;
  bs_seed : Z;
  bs_resamples_with_hit_rate : Z;
  bs_mean_hit_rate : option decimal;
  bs_min_hit_rate_observed : option decimal;
  bs_max_hit_rate_observed : option decimal;
  bs_fraction_meeting_min_hit_rate : option decimal;
  bs_validated_at_utc : string
}.

Definition mk_BootstrapResult (r : BootstrapResult) : result BootstrapResult :=
  if blank (bs_candidate_name r) || blank (bs_candidate_version r) then Err ValidationError else
  if existsb (fun n => n <? 0) [bs_n_resamples r; bs_resample_size r; bs_resamples_with_hit_rate r] then Err ValidationError else
  if bs_n_resamples r <? bs_resamples_with_hit_rate r then Err ValidationError else
  if (if bs_resamples_with_hit_rate r =? 0
      then negb (none (bs_mean_hit_rate r) && none (bs_min_hit_rate_observed r) && none (bs_max_hit_rate_observed r))
      else match bs_min_hit_rate_observed r, bs_mean_hit_rate r, bs_max_hit_rate_observed r with
           | Some lo, Some m, Some hi => negb (dleb lo m && dleb m hi)
           | _, _, _ => true
           end) then Err ValidationError else
  if match bs_fraction_meeting_min_hit_rate r with Some x => negb (dleb d0 x && dleb x d1) | None => false end then Err ValidationError else
  if blank (bs_validated_at_utc r) then Err ValidationError else Ok r.

Definition bootstrap_dict (r : BootstrapResult) : json :=
  JObj [("candidate_name", JStr (bs_candidate_name r)); ("candidate_version", JStr (bs_candidate_version r));
        ("n_resamples", JInt (bs_n_resamples r)); ("resample_size", JInt (bs_resample_size r)); ("seed", JInt (bs_seed r));
        ("resamples_with_hit_rate", JInt (bs_resamples_with_hit_rate r)); ("mean_hit_rate", opt_dec (bs_mean_hit_rate r));
        ("min_hit_rate_observed", opt_dec (bs_min_hit_rate_observed r)); ("max_hit_rate_observed", opt_dec (bs_max_hit_rate_observed r));
        ("fraction_meeting_min_hit_rate", opt_dec (bs_fraction_meeting_min_hit_rate r)); ("validated_at_utc", JStr (bs_validated_at_utc r))].

(** [random.Random(seed).randrange(n)], the [i]-th call. *)
Context (randrange : Z -> nat -> nat -> nat).

(** The [k]-th resample. *)
Definition resampled (seed : Z) (samples : list ValidationSample) (k : nat) : result (list ValidationSample) :=
  let n := length samples in
  map_result (fun i => of_option IndexError (samples !! randrange seed (k * n + i)%nat n)) (seq 0 n).

Definition resample_hit_rate (evaluate_fn : EvaluateFn) (specification : CandidateSpecification) (seed : Z)
    (samples : list ValidationSample) (k : nat) : result (option decimal) :=
  rs ← resampled seed samples k; r ← run_validation evaluate_fn specification rs; Ok (vr_hit_rate r).

Definition run_bootstrap_resampling (evaluate_fn : EvaluateFn) (specification : CandidateSpecification)
    (samples : list ValidationSample) (n_resamples seed : Z) : result BootstrapResult :=
  if is_nil samples then Err ValidationError else
  if n_resamples <=? 0 then Err ValidationError else
  required_decimal ← match dget _MIN_HIT_RATE_KEY (cs_acceptance_criteria specification) with
                     | None | Some JNull => Ok None
                     | Some required => d ← of_option ValidationError (decimal_of_json required); Ok (Some d)
                     end;
  rates ← map_result (resample_hit_rate evaluate_fn specification seed samples) (seq 0 (Z.to_nat n_resamples));
  let hit_rates := omap id rates in
  let meeting_count := match required_decimal with
                       | Some d => Z.of_nat (length (List.filter (fun h => dleb d h) hit_rates))
                       | None => 0
                       end in
  mean_hit_rate ← mean hit_rates;
  fraction_meeting ← match required_decimal with
                     | Some _ => f ← ddiv (dint meeting_count) (dint n_resamples); Ok (Some f)
                     | None => Ok None
                     end;
  mk_BootstrapResult
    {| bs_candidate_name := cs_name specification; bs_candidate_version := cs_version specification; bs_n_resamples := n_resamples;
       bs_resample_size := Z.of_nat (length samples); bs_seed := seed; bs_resamples_with_hit_rate := Z.of_nat (length hit_rates);
       bs_mean_hit_rate := mean_hit_rate;
       bs_min_hit_rate_observed := match hit_rates with x :: l => Some (dmin x l) | [] => None end;
       bs_max_hit_rate_observed := match hit_rates with x :: l => Some (dmax x l) | [] => None end;
       bs_fraction_meeting_min_hit_rate := fraction_meeting; bs_validated_at_utc := clock |}.
End validation.
