(* ===== verification/Research.v ===== *)
(** * Evidence, research cycles and governance (src/alpha_engine/validation/evidence.py,
    registry_link.py, research.py, governance/, lifecycle/degradation.py)

    What a research cycle records in the registry, who may decide on it, and
    what freezes an experiment that no longer clears its own bar. *)

From Stdlib Require Import ssreflect ZArith Lia Ascii String.
From stdpp Require Import base strings numbers gmap sets list.
From S2P Require Import Prelude PyText PyDict PyBytes PyJson PySort PyLines PyDecimal PyDecimalFacts Payload EventStoreFacts ExchangeModels.
From S2P Require Import RegistryLog Registry AlphaModels Validation.
#[local] Open Scope Z_scope.

(** ** evidence.py *)

Record EvidencePackage := {
  ep_candidate_name : string;
  ep_candidate_version : string;
  ep_candidate_specification : entry;
  ep_validation_results : entry;
  ep_known_limitations : list string;
  ep_assembled_at_utc : string;
  ep_fingerprint : string
}.

Definition evidence_fingerprint (candidate_specification validation_results : entry) (known_limitations : list string) : string :=
  hex (sha256 (encode (dumps_sorted (JObj
    [("candidate_specification", JObj candidate_specification); ("validation_results", JObj validation_results);
     ("known_limitations", JList (map JStr known_limitations))])))).

Definition mk_EvidencePackage (p : EvidencePackage) : result EvidencePackage :=
  if blank (ep_candidate_name p) || blank (ep_candidate_version p) then Err ValidationError else
  if is_nil (ep_candidate_specification p) || is_nil (ep_validation_results p) then Err ValidationError else
  if negb (forallb (fun s => negb (blank s.1) && nonempty_mapping s.2) (ep_validation_results p)) then Err ValidationError else
  if existsb blank (ep_known_limitations p) then Err ValidationError else
  if blank (ep_assembled_at_utc p) || blank (ep_fingerprint p) then Err ValidationError else Ok p.

Definition package_dict (p : EvidencePackage) : json :=
  JObj [("candidate_name", JStr (ep_candidate_name p)); ("candidate_version", JStr (ep_candidate_version p));
        ("candidate_specification", JObj (ep_candidate_specification p)); ("validation_results", JObj (ep_validation_results p));
        ("known_limitations", JList (map JStr (ep_known_limitations p))); ("assembled_at_utc", JStr (ep_assembled_at_utc p));
        ("fingerprint", JStr (ep_fingerprint p))].

Definition with_stage_result (clock : string) (stage_name : string) (stage_result : json) (p : EvidencePackage) : result EvidencePackage :=
  if blank stage_name then Err ValidationError else
  if din stage_name (ep_validation_results p) then Err ValidationError else
  if negb (nonempty_mapping stage_result) then Err ValidationError else
  let new_validation_results := dset stage_name stage_result (ep_validation_results p) in
  mk_EvidencePackage
    {| ep_candidate_name := ep_candidate_name p; ep_candidate_version := ep_candidate_version p;
       ep_candidate_specification := ep_candidate_specification p; ep_validation_results := new_validation_results;
       ep_known_limitations := ep_known_limitations p; ep_assembled_at_utc := clock;
       ep_fingerprint := evidence_fingerprint (ep_candidate_specification p) new_validation_results (ep_known_limitations p) |}.

Definition fields (j : json) : entry := match j with JObj o => o | _ => [] end.

Definition evidence_package_from_validation_result (clock : string) (specification : CandidateSpecification) (stage_name : string)
    (r : ValidationResult) (known_limitations : list string) : result EvidencePackage :=
  if blank stage_name then Err ValidationError else
  let spec_dict := fields (to_specification_dict specification) in
  let validation_results := [(stage_name, result_dict r)] in
  mk_EvidencePackage
    {| ep_candidate_name := cs_name specification; ep_candidate_version := cs_version specification;
       ep_candidate_specification := spec_dict; ep_validation_results := validation_results;
       ep_known_limitations := known_limitations; ep_assembled_at_utc := clock;
       ep_fingerprint := evidence_fingerprint spec_dict validation_results known_limitations |}.

(** ** research.py *)

Definition STAGE_SINGLE_PASS : string := "single_pass".
Definition STAGE_CAUSALITY : string := "leakage_causality_audit".
Definition STAGE_WALK_FORWARD : string := "walk_forward".
Definition STAGE_BOOTSTRAP : string := "bootstrap_resampling".
Definition STAGE_REGIME : string := "regime_stratification".

Record ResearchCycleResult := {
  rc_record : ExperimentRecord;
  rc_package : EvidencePackage;
  rc_stage_passed : list (string * option bool)
}.

Section over_storage.
Context {T : Type} `{RegistryStorage T}.
Notation W := (T * Records)%type.

(** A query of the registry. *)
Definition query {A} (f : Records -> result A) : M W A := fun w => (w, f w.2).

(** ** registry_link.py *)

Definition attach_evidence_package (experiment_id : string) (package : EvidencePackage) : M W ExperimentRecord :=
  record ← query (registry_get experiment_id);
  if negb (json_eqb (er_specification record) (JObj (ep_candidate_specification package))) then raise ValidationError else
  attach_evidence experiment_id (package_dict package) (ep_fingerprint package).

Section cycle.
Context (fromisoformat : string -> result (Z * option Z)) (reason_text : reason -> string) (clock : string)
  (randrange : Z -> nat -> nat -> nat).

(** The stages and the package they fill. *)
Definition run_stages (evaluate_fn : EvaluateFn) (specification : CandidateSpecification) (samples : list ValidationSample)
    (n_folds n_resamples seed : Z) (known_limitations : list string) : result (EvidencePackage * list (string * option bool)) :=
  single ← run_validation fromisoformat reason_text clock evaluate_fn specification samples;
  causality ← run_causality_audit fromisoformat clock samples;
  walk_forward ← run_walk_forward_validation fromisoformat reason_text clock evaluate_fn specification samples n_folds;
  bootstrap ← run_bootstrap_resampling fromisoformat reason_text clock randrange evaluate_fn specification samples n_resamples seed;
  regime ← run_regime_stratified_validation fromisoformat reason_text clock evaluate_fn specification samples;
  package ← evidence_package_from_validation_result clock specification STAGE_SINGLE_PASS single known_limitations;
  package ← with_stage_result clock STAGE_CAUSALITY (causality_dict causality) package;
  package ← with_stage_result clock STAGE_WALK_FORWARD (walk_forward_dict walk_forward) package;
  package ← with_stage_result clock STAGE_BOOTSTRAP (bootstrap_dict bootstrap) package;
  package ← with_stage_result clock STAGE_REGIME (regime_dict regime) package;
  Ok (package, [(STAGE_SINGLE_PASS, Some (vr_overall_passed single)); (STAGE_CAUSALITY, Some (ca_passed causality));
                (STAGE_WALK_FORWARD, Some (wf_overall_passed walk_forward)); (STAGE_BOOTSTRAP, None);
                (STAGE_REGIME, Some (rs_overall_passed regime))]).

(** The symbols outside the watchlist. *)
Definition outside (watchlist : option Watchlist) (universe : list Symbol) : list Symbol :=
  match watchlist with Some w => List.filter (fun s => negb (wl_contains w s)) universe | None => [] end.

(** [now] is the registry's clock. *)
Definition run_research_cycle (now : string) (candidate_type_name experiment_id : string) (specification : CandidateSpecification)
    (samples : list ValidationSample) (n_folds n_resamples seed : Z) (known_limitations : list string) (parent_id : option string)
    (watchlist : option Watchlist) : M W ResearchCycleResult :=
  entry ← lift (get_candidate_type candidate_type_name);
  if negb (String.eqb (cs_name specification) (ce_name entry)) then raise ResearchError else
  if negb (is_nil (outside watchlist (cs_universe specification))) then raise ResearchError else
  create experiment_id (to_specification_dict specification) parent_id now;;
  seal experiment_id now;;
  Registry.transition experiment_id LifecycleState.VALIDATING now;;
  stages ← lift (run_stages (ce_evaluate_fn entry) specification samples n_folds n_resamples seed known_limitations);
  attach_evidence_package experiment_id stages.1;;
  record ← Registry.transition experiment_id LifecycleState.EVIDENCE_SEALED now;
  mret {| rc_record := record; rc_package := stages.1; rc_stage_passed := stages.2 |}.
End cycle.
End over_storage.

(** [compare_experiments] *)
Record Row := {
  rw_experiment_id : string;
  rw_candidate_name : option json;
  rw_candidate_version : option json;
  rw_lifecycle_state : LifecycleState;
  rw_has_evidence : bool;
  rw_single_pass_passed : option bool;
  rw_causality_passed : option bool;
  rw_walk_forward_passed : option bool;
  rw_regime_passed : option bool;
  rw_hit_rate : option decimal
}.

(** [evidence.get("validation_results", {}).get(stage)], when a mapping. *)
Definition stage_of (evidence : option json) (stage : string) : result (option entry) :=
  match evidence with
  | None => Ok None
  | Some e =>
      match jget "validation_results" e with
      | None => Ok None
      | Some (JObj stages) => Ok (match dget stage stages with Some (JObj o) => Some o | _ => None end)
      | Some _ => Err AttributeError
      end
  end.

Definition _stage_flag (evidence : option json) (stage key : string) : result (option bool) :=
  s ← stage_of evidence stage;
  Ok (match s with Some o => match dget key o with Some (JBool b) => Some b | _ => None end | None => None end).

Definition _hit_rate (evidence : option json) : result (option decimal) :=
  s ← stage_of evidence STAGE_SINGLE_PASS;
  match s with
  | Some o => match dget "hit_rate" o with
              | Some (JStr raw) => d ← of_option InvalidOperation (Decimal raw); Ok (Some d)
              | _ => Ok None
              end
  | None => Ok None
  end.

Definition row_of (records : Records) (experiment_id : string) : result Row :=
  record ← registry_get experiment_id records;
  evidence ← get_evidence experiment_id records;
  single ← _stage_flag evidence STAGE_SINGLE_PASS "overall_passed";
  causality ← _stage_flag evidence STAGE_CAUSALITY "passed";
  walk_forward ← _stage_flag evidence STAGE_WALK_FORWARD "overall_passed";
  regime ← _stage_flag evidence STAGE_REGIME "overall_passed";
  hit_rate ← _hit_rate evidence;
  Ok {| rw_experiment_id := experiment_id; rw_candidate_name := jget "candidate_name" (er_specification record);
        rw_candidate_version := jget "candidate_version" (er_specification record);
        rw_lifecycle_state := er_lifecycle_state record; rw_has_evidence := negb (none evidence);
        rw_single_pass_passed := single; rw_causality_passed := causality; rw_walk_forward_passed := walk_forward;
        rw_regime_passed := regime; rw_hit_rate := hit_rate |}.

Definition _flag_key (value : option bool) : Z := match value with Some true => 0 | Some false => 1 | None => 2 end.

Definition row_flags (r : Row) : list Z :=
  [(if rw_has_evidence r then 0 else 1); _flag_key (rw_single_pass_passed r); _flag_key (rw_causality_passed r);
   _flag_key (rw_walk_forward_passed r); _flag_key (rw_regime_passed r)].
Definition row_rate (r : Row) : decimal := dneg (default (dint (-1)) (rw_hit_rate r)).

(** Lists of the same length, in the order of tuples. *)
Fixpoint compare_flags (a b : list Z) : comparison :=
  match a, b with
  | x :: a, y :: b => match (x ?= y)%Z with Eq => compare_flags a b | c => c end
  | _, _ => Eq
  end.

Definition row_le (a b : Row) : bool :=
  match compare_flags (row_flags a) (row_flags b) with
  | Lt => true
  | Gt => false
  | Eq => match dcmp (row_rate a) (row_rate b) with
          | Lt => true
          | Gt => false
          | Eq => String.leb (rw_experiment_id a) (rw_experiment_id b)
          end
  end.

(** The rows in the order of their ranks, from 1. *)
Definition compare_experiments (records : Records) (experiment_ids : list string) : result (list Row) :=
  if is_nil experiment_ids then Err ResearchError else
  rows ← map_result (row_of records) experiment_ids;
  Ok (sorted_by row_le rows).

(** ** governance/models.py, decisions.py *)

Module GovernanceDecisionType.
Inductive GovernanceDecisionType :=
  | APPROVE | REJECT | DEFER.
#[global] Instance GovernanceDecisionType_eq_dec : EqDecision GovernanceDecisionType.
Proof. solve_decision. Defined.

Definition value (x : GovernanceDecisionType) : string :=
  match x with
  | APPROVE => "approve" | REJECT => "reject" | DEFER => "defer"
  end.

#[global] Program Instance GovernanceDecisionType_enum : PyEnum GovernanceDecisionType := {
  enum_all := [APPROVE; REJECT; DEFER];
  enum_value := value
}.
Solve Obligations with solve_enum.
End GovernanceDecisionType.
Notation GovernanceDecisionType := GovernanceDecisionType.GovernanceDecisionType.

Definition _RESULTING_STATE (d : GovernanceDecisionType) : LifecycleState :=
  match d with
  | GovernanceDecisionType.APPROVE => LifecycleState.APPROVED
  | GovernanceDecisionType.REJECT => LifecycleState.REJECTED
  | GovernanceDecisionType.DEFER => LifecycleState.DEFERRED
  end.

Record GovernanceDecision := {
  gd_experiment_id : string;
  gd_decision : GovernanceDecisionType;
  gd_evidence_fingerprint : string;
  gd_proposed_by : string;
  gd_reviewed_by : string;
  gd_rationale : string;
  gd_decided_at_utc : string
}.

Definition mk_GovernanceDecision (d : GovernanceDecision) : result GovernanceDecision :=
  if existsb blank [gd_experiment_id d; gd_evidence_fingerprint d; gd_proposed_by d; gd_reviewed_by d; gd_rationale d; gd_decided_at_utc d]
  then Err GovernanceError else
  if String.eqb (strip (gd_proposed_by d)) (strip (gd_reviewed_by d)) then Err GovernanceError else Ok d.

Definition resulting_state (d : GovernanceDecision) : LifecycleState := _RESULTING_STATE (gd_decision d).

Definition decision_dict (d : GovernanceDecision) : json :=
  JObj [("experiment_id", JStr (gd_experiment_id d)); ("decision", JStr (GovernanceDecisionType.value (gd_decision d)));
        ("evidence_fingerprint", JStr (gd_evidence_fingerprint d)); ("proposed_by", JStr (gd_proposed_by d));
        ("reviewed_by", JStr (gd_reviewed_by d)); ("rationale", JStr (gd_rationale d)); ("decided_at_utc", JStr (gd_decided_at_utc d))].

Definition record_governance_decision {T} `{RegistryStorage T} (decision : GovernanceDecision) (now : string) : M (T * Records) ExperimentRecord :=
  record ← query (registry_get (gd_experiment_id decision));
  if negb (bool_decide (er_lifecycle_state record = LifecycleState.IN_REVIEW)) then raise GovernanceError else
  if negb (bool_decide (er_evidence_fingerprint record = Some (gd_evidence_fingerprint decision))) then raise GovernanceError else
  apply_governance_decision (gd_experiment_id decision) (decision_dict decision) (resulting_state decision) now.

Section approved.
Context (fromisoformat : string -> result (Z * option Z)).

(** A record with its parsed time of creation. *)
Definition dated (r : ExperimentRecord) : result (Z * ExperimentRecord) :=
  match parse_utc fromisoformat (er_created_at_utc r) with
  | Ok t => Ok (t, r)
  | Err ValueError => Err GovernanceError
  | Err e => Err e
  end.
Definition dated_le (a b : Z * ExperimentRecord) : bool :=
  (a.1 <? b.1) || (a.1 =? b.1) && String.leb (er_experiment_id a.2) (er_experiment_id b.2).

Definition approved_experiments (records : Records) : result (list ExperimentRecord) :=
  approved ← list_experiments None (Some LifecycleState.APPROVED) records;
  shakedown ← list_experiments None (Some LifecycleState.SHAKEDOWN) records;
  full_production ← list_experiments None (Some LifecycleState.FULL_PRODUCTION) records;
  ds ← map_result dated (approved ++ shakedown ++ full_production);
  Ok (map snd (sorted_by dated_le ds)).
End approved.

(** ** lifecycle/degradation.py *)

Record DegradationAssessment := {
  da_experiment_id : string;
  da_degraded : bool;
  da_recommendation : option LifecycleState;
  da_reasons : list CriterionCheck;  (** the checks the texts are made of *)
  da_assessed_at_utc : string
}.

Definition mk_DegradationAssessment (a : DegradationAssessment) : result DegradationAssessment :=
  if blank (da_experiment_id a) then Err DegradationError else
  if (if da_degraded a
      then negb (bool_decide (da_recommendation a = Some LifecycleState.FROZEN)) || is_nil (da_reasons a)
      else negb (none (da_recommendation a)) || negb (is_nil (da_reasons a))) then Err DegradationError else
  if blank (da_assessed_at_utc a) then Err DegradationError else Ok a.

(** Whether [spec.get(key)] is the string. *)
Definition spec_says (spec : json) (key value : string) : bool :=
  match jget key spec with Some (JStr s) => String.eqb s value | _ => false end.

Definition assess_degradation (record : ExperimentRecord) (recent : ValidationResult) (clock : string) : result DegradationAssessment :=
  if negb (LIVE_STATES (er_lifecycle_state record)) then Err DegradationError else
  if negb (spec_says (er_specification record) "candidate_name" (vr_candidate_name recent)
           && spec_says (er_specification record) "candidate_version" (vr_candidate_version recent)) then Err DegradationError else
  if vr_overall_passed recent
  then mk_DegradationAssessment {| da_experiment_id := er_experiment_id record; da_degraded := false; da_recommendation := None;
                                   da_reasons := []; da_assessed_at_utc := clock |}
  else mk_DegradationAssessment {| da_experiment_id := er_experiment_id record; da_degraded := true;
                                   da_recommendation := Some LifecycleState.FROZEN;
                                   da_reasons := List.filter (fun c => negb (passes c)) (vr_criteria_results recent);
                                   da_assessed_at_utc := clock |}.

Definition freeze_degraded {T} `{RegistryStorage T} (assessment : DegradationAssessment) (now : string) : M (T * Records) ExperimentRecord :=
  if negb (da_degraded assessment) then raise DegradationError else
  Registry.transition (da_experiment_id assessment) LifecycleState.FROZEN now.
