(* ===== verification/Bridge.v ===== *)
(** * From approved specifications to trade intents (src/alpha_engine/portfolio/selection.py,
    execution_bridge/strategy.py)

    The selection among the signals of a cycle, and the strategy that evaluates
    the specifications governance stands behind. The registry's records are an
    argument: another part of the program changes them between the calls. *)

From Stdlib Require Import ssreflect ZArith Lia Ascii String.
From stdpp Require Import base strings numbers gmap sets list.
From S2P Require Import Prelude PyText PyDict PyJson PySort PyDecimal PyDecimalFacts PyFloat ExchangeModels.
From S2P Require Import Sizing Construction Registry AlphaModels Validation Research.
#[local] Open Scope Z_scope.

(** ** portfolio/selection.py *)

Definition flat (s : obj CandidateSignal) : bool := bool_decide (sg_direction s.2 = Some SignalDirection.FLAT).
Definition directional (s : obj CandidateSignal) : bool := sg_available s.2 && negb (flat s).
Definition signal_symbol (s : obj CandidateSignal) : string := sym_value (sg_symbol s.2).

(** [by_symbol.setdefault(symbol, []).append(signal)] *)
Definition add_signal (groups : list (string * list (obj CandidateSignal))) (s : obj CandidateSignal) :=
  dset (signal_symbol s) (default [] (dget (signal_symbol s) groups) ++ [s]) groups.

(** The order of the pairs of name and version. *)
Definition by_candidate (a b : obj CandidateSignal) : bool :=
  match String.compare (sg_candidate_name a.2) (sg_candidate_name b.2) with
  | Lt => true | Gt => false | Eq => String.leb (sg_candidate_version a.2) (sg_candidate_version b.2)
  end.

Definition one_direction (group : list (obj CandidateSignal)) : bool :=
  match group with
  | [] => true
  | s :: group => forallb (fun x => bool_decide (sg_direction x.2 = sg_direction s.2)) group
  end.

Definition representative (group : list (obj CandidateSignal)) : list (obj CandidateSignal) :=
  if one_direction group then take 1 (sorted_by by_candidate group) else [].

Definition select_signals (signals : list (obj CandidateSignal)) : list (obj CandidateSignal) :=
  flat_map (fun g => representative g.2) (sort_items (foldl add_signal [] (List.filter directional signals))).

(** ** execution_bridge/strategy.py *)

Definition _FUNDING_FAMILY : string := "funding_rate_threshold_rule".

(** [upper] is the exclusive bound. *)
Definition _fraction (spec : CandidateSpecification) (key : string) (required : bool) (upper : option decimal) : result (option decimal) :=
  match dget key (cs_parameters spec) with
  | None | Some JNull => if required then Err ExecutionBridgeError else Ok None
  | Some (JStr raw) =>
      if blank raw then Err ExecutionBridgeError else
      v ← of_option ExecutionBridgeError (Decimal raw);
      if dleb v d0 || match upper with Some u => dleb u v | None => false end then Err ExecutionBridgeError else Ok (Some v)
  | Some _ => Err ExecutionBridgeError
  end.

Record ApprovedFundingAlphaStrategy := {
  st_specifications : list CandidateSpecification;
  st_registry : bool;  (** whether it was given a registry *)
  st_last_evaluated_at : list ((string * string) * string)
}.

Definition stop_fraction (spec : CandidateSpecification) := _fraction spec "stop_fraction" true (Some d1).
Definition t1_fraction (spec : CandidateSpecification) := _fraction spec "t1_fraction" false None.
Definition t2_fraction (spec : CandidateSpecification) := _fraction spec "t2_fraction" false None.

Definition check_specification (watchlist : option Watchlist) (spec : CandidateSpecification) : result unit :=
  if negb (String.eqb (cs_name spec) _FUNDING_FAMILY) then Err ExecutionBridgeError else
  _ ← stop_fraction spec; _ ← t1_fraction spec; _ ← t2_fraction spec;
  if is_nil (outside watchlist (cs_universe spec)) then Ok tt else Err ExecutionBridgeError.

Definition strategy_init (specifications : list CandidateSpecification) (registry : bool) (watchlist : option Watchlist)
    : result ApprovedFundingAlphaStrategy :=
  if is_nil specifications then Err ExecutionBridgeError else
  _ ← map_result (check_specification watchlist) specifications;
  Ok {| st_specifications := specifications; st_registry := registry; st_last_evaluated_at := [] |}.

Section strategy.
Context (fromisoformat : string -> result (Z * option Z)).

Definition _live_specifications (self : ApprovedFundingAlphaStrategy) (records : Records) : result (list CandidateSpecification) :=
  if negb (st_registry self) then Ok (st_specifications self) else
  approved ← approved_experiments fromisoformat records;
  Ok (List.filter (fun spec => existsb (fun r => json_eqb (to_specification_dict spec) (er_specification r)) approved)
        (st_specifications self)).

Definition spec_key (spec : CandidateSpecification) : string * string := (cs_name spec, cs_version spec).

Fixpoint last_of (key : string * string) (d : list ((string * string) * string)) : option string :=
  match d with [] => None | (k, v) :: d => if bool_decide (key = k) then Some v else last_of key d end.

Definition _is_due (last_evaluated_at : list ((string * string) * string)) (spec : CandidateSpecification) (evaluated_at_utc : string) : result bool :=
  match last_of (spec_key spec) last_evaluated_at with
  | None => Ok true
  | Some last =>
      now ← parse_utc fromisoformat evaluated_at_utc;
      before ← parse_utc fromisoformat last;
      Ok (negb (fltb_int (total_seconds (now - before)) (cs_cadence_seconds spec)))
  end.

Section market.
(** The market-data view: the adapter's two queries. *)
Context {S : Type} (get_mark_price : Symbol -> M S MarkPrice) (get_funding_rate : Symbol -> M S FundingRate).

(** One symbol of one specification. *)
Definition evaluate_symbol (evaluate_fn : EvaluateFn) (evaluated_at_utc : string) (spec : CandidateSpecification) (symbol : Symbol)
    : M S CandidateSignal :=
  reading ← FundingRateProvider.fetch fromisoformat get_funding_rate _DEFAULT_MAX_STALENESS_SECONDS evaluated_at_utc symbol;
  feature ← lift (FundingRateFeature.compute reading);
  lift (evaluate_fn feature spec).

Definition in_context (context : StrategyContext) (symbol : Symbol) : bool :=
  existsb (fun s => String.eqb (sym_value s) (sym_value symbol)) (cx_universe context).

(** The signals so far, each with the specification it came from. *)
Notation Signals := (list (CandidateSignal * CandidateSpecification)).

Fixpoint evaluate_symbols (evaluate_fn : EvaluateFn) (evaluated_at_utc : string) (spec : CandidateSpecification) (l : list Symbol)
    (signals : Signals) : M S Signals :=
  match l with
  | [] => mret signals
  | symbol :: l => signal ← evaluate_symbol evaluate_fn evaluated_at_utc spec symbol;
                   evaluate_symbols evaluate_fn evaluated_at_utc spec l (signals ++ [(signal, spec)])
  end.

(** The loop over the specifications; what it has recorded stays recorded when
    it raises. *)
Fixpoint evaluate_specs (evaluate_fn : EvaluateFn) (context : StrategyContext) (specs : list CandidateSpecification) (signals : Signals)
    : M (S * list ((string * string) * string)) Signals :=
  match specs with
  | [] => mret signals
  | spec :: specs =>
      w ← get;
      due ← lift (_is_due w.2 spec (cx_evaluated_at_utc context));
      if negb due then evaluate_specs evaluate_fn context specs signals else
      signals ← zoom fst (fun s w => (s, w.2))
        (evaluate_symbols evaluate_fn (cx_evaluated_at_utc context) spec
           (List.filter (in_context context) (cs_universe spec)) signals);
      modify (fun w => (w.1, (spec_key spec, cx_evaluated_at_utc context) :: w.2));;
      evaluate_specs evaluate_fn context specs signals
  end.

(** The levels around a mark; [None] for a degenerate geometry. *)
Definition levels (direction : option SignalDirection) (mark stop_fraction : decimal) (t1_fraction t2_fraction : option decimal)
    : option (OrderSide * decimal * option decimal * option decimal) :=
  let up f := dmul mark (dadd d1 f) in
  let down f := dmul mark (dsub d1 f) in
  let '(side, stop, t1, t2) :=
    if bool_decide (direction = Some SignalDirection.LONG)
    then (OrderSide.BUY, down stop_fraction, up <$> t1_fraction, up <$> t2_fraction)
    else (OrderSide.SELL, up stop_fraction, down <$> t1_fraction, down <$> t2_fraction) in
  let not_pos o := match o with Some p => dleb p d0 | None => false end in
  if dleb stop d0 || not_pos t1 || not_pos t2 then None else Some (side, stop, t1, t2).

(** The intent of a selected signal, if there is one; a market that cannot be
    read gives none. *)
Definition intent_of (signal : CandidateSignal) (spec : CandidateSpecification) : M S (option TradeIntent) := fun s =>
  match get_mark_price (sg_symbol signal) s with
  | (s, Err _) => (s, Ok None)
  | (s, Ok price) =>
      let mark := mp_price price in
      if dleb mark d0 then (s, Ok None) else
      (s, stop ← stop_fraction spec;
          t1 ← t1_fraction spec;
          t2 ← t2_fraction spec;
          stop ← of_option TypeError stop;
          match levels (sg_direction signal) mark stop t1 t2 with
          | None => Ok None
          | Some (side, stop, t1, t2) =>
              i ← mk_TradeIntent {| ti_symbol := sg_symbol signal; ti_side := side; ti_order_type := OrderType.LIMIT;
                                    ti_time_in_force := TimeInForce.GTC; ti_reduce_only := false; ti_stop_price := stop;
                                    ti_conviction := None; ti_limit_price := Some mark; ti_t1_price := t1; ti_t2_price := t2 |};
              Ok (Some i)
          end)
  end.

(** [signal_spec[id(signal)]]: a signal's identity is its place in the list. *)
Fixpoint intents_of (signals : Signals) (selected : list (obj CandidateSignal)) (intents : list TradeIntent) : M S (list TradeIntent) :=
  match selected with
  | [] => mret intents
  | signal :: selected =>
      entry ← lift (of_option KeyError (signals !! Z.to_nat signal.1));
      i ← intent_of signal.2 entry.2;
      intents_of signals selected (intents ++ match i with Some i => [i] | None => [] end)
  end.

Definition generate_intents (self : ApprovedFundingAlphaStrategy) (records : Records) (context : StrategyContext)
    : M (S * list ((string * string) * string)) (list TradeIntent) :=
  entry ← lift (get_candidate_type _FUNDING_FAMILY);
  live ← lift (_live_specifications self records);
  signals ← evaluate_specs (ce_evaluate_fn entry) context live [];
  zoom fst (fun s w => (s, w.2))
    (intents_of signals (select_signals (enumerate 0 (map fst signals))) []).
End market.
End strategy.

Definition load_approved_specifications (fromisoformat : string -> result (Z * option Z)) (records : Records) : result (list CandidateSpecification) :=
  approved ← approved_experiments fromisoformat records;
  map_result (fun r => match er_specification r with JObj o => from_specification_dict o | _ => Err CandidateError end)
    (List.filter (fun r => match jget "candidate_name" (er_specification r) with
                           | Some (JStr n) => String.eqb n _FUNDING_FAMILY
                           | _ => false
                           end) approved).
