(* ===== verification/BridgeSpec.v ===== *)
(** * What the strategy trades

    The selection keeps one signal per undisputed symbol, the least of its group,
    and nothing for a disputed one. Every intent of the strategy comes from a specification that governance
    stands behind at that moment, on a symbol of both universes; so does every
    order of a cycle that runs it: no order without an experiment that
    governance stands behind. *)

From Stdlib Require Import ssreflect ZArith Lia Ascii String Sorting.Sorted.
From stdpp Require Import base strings numbers gmap sets list relations.
From S2P Require Import Prelude PyText PyDict PyJson PyJsonFacts PyDecimal PyFloat EventLog ExchangeModels ExchangeAdapter OrderStates OrderManager PositionStates Quantization.
From S2P Require Import RiskManager Sizing Execution Construction Engine TradingCycle TradingCycleSpec PySort RegistryLog Registry RegistrySpec RegistryRuns RegistryLineage AlphaModels.
From S2P Require Import Validation Research Bridge.
#[local] Open Scope Z_scope.

(** ** What the selection keeps *)

Section selection.
Implicit Types (s : obj CandidateSignal) (l : list (obj CandidateSignal)).

(** The directional signals on a symbol, in their order. *)
Definition opinions (symbol : string) l : list (obj CandidateSignal) :=
  List.filter (same_key signal_symbol symbol) (List.filter directional l).

Lemma elem_opinions symbol l s : s ∈ opinions symbol l <-> s ∈ l /\ directional s = true /\ signal_symbol s = symbol.
Proof.
  unfold opinions, same_key. rewrite list_elem_of_In !List.filter_In -list_elem_of_In. rewrite String.eqb_eq. intuition.
Qed.

Lemma selected_in l s : s ∈ select_signals l <->
  opinions (signal_symbol s) l <> [] /\ s ∈ representative (opinions (signal_symbol s) l).
Proof.
  unfold select_signals. rewrite list_elem_of_In List.in_flat_map. setoid_rewrite <- list_elem_of_In. split.
  - intros ([k g] & Hg & Hs). cbn in Hs. rewrite sort_items_perm in Hg. apply (group_of signal_symbol) in Hg as [-> Hne].
    fold (opinions k l) in *.
    assert (Hk : signal_symbol s = k).
    { unfold representative in Hs. destruct (one_direction _); [|by apply elem_of_nil in Hs].
      assert (Hin : s ∈ sorted_by by_candidate (opinions k l)) by (by eapply elem_of_take in Hs as (i & Hi & _); eapply list_elem_of_lookup_2).
      rewrite sorted_by_perm in Hin. by apply elem_opinions in Hin as (_ & _ & ->). }
    by rewrite Hk.
  - intros [Hne Hs]. exists (signal_symbol s, opinions (signal_symbol s) l). split; [|done].
    rewrite sort_items_perm. by apply (group_of signal_symbol).
Qed.

(** A group in agreement is represented by its least signal. *)
Lemma representative_spec g s : s ∈ representative g <->
  one_direction g = true /\ exists rest, sorted_by by_candidate g = s :: rest.
Proof.
  unfold representative. destruct (one_direction g); [|split; [by intros ?%elem_of_nil|by intros []]].
  destruct (sorted_by by_candidate g) as [|x rest]; cbn; [split; [by intros ?%elem_of_nil|by intros (_ & ? & ?)]|].
  rewrite take_0 list_elem_of_singleton. split; [by intros ->; split; [|exists rest]|by intros (_ & ? & [= -> _])].
Qed.

Lemma one_direction_spec g : one_direction g = true <-> forall s s', s ∈ g -> s' ∈ g -> sg_direction s.2 = sg_direction s'.2.
Proof.
  destruct g as [|s0 g]; cbn; [split; [by intros _ ? ? ?%elem_of_nil|done]|]. rewrite List.forallb_forall. setoid_rewrite bool_decide_eq_true. split.
  - intros Hall. assert (Heq : forall s, s ∈ s0 :: g -> sg_direction s.2 = sg_direction s0.2).
    { intros s [->|Hs]%elem_of_cons; [done|]. by apply Hall, list_elem_of_In. }
    intros s s' Hs Hs'. by rewrite (Heq s Hs) (Heq s' Hs').
  - intros Hall s Hs. apply Hall; [by right; apply list_elem_of_In|by left].
Qed.

Lemma candidate_total s s' : by_candidate s s' = true \/ by_candidate s' s = true.
Proof. exact (lex_total (fun s => sg_candidate_name s.2) (fun s => sg_candidate_version s.2) s s'). Qed.
Lemma candidate_trans s1 s2 s3 : by_candidate s1 s2 = true -> by_candidate s2 s3 = true -> by_candidate s1 s3 = true.
Proof. exact (lex_trans (fun s => sg_candidate_name s.2) (fun s => sg_candidate_version s.2) s1 s2 s3). Qed.

(** The symbols come out in order, each once. *)
Lemma selected_sorted_gen (groups : list (string * list (obj CandidateSignal))) :
  (forall k g s, (k, g) ∈ groups -> s ∈ representative g -> signal_symbol s = k) -> NoDup (dkeys groups) -> Sorted item_le groups ->
  StronglySorted (fun a b => String.ltb a b = true) (map signal_symbol (flat_map (fun g => representative g.2) groups)).
Proof.
  intros Hk Hn Hs. apply Sorted_StronglySorted in Hs; [|intros a b c; apply str_leb_trans].
  induction Hs as [|[k g] groups Hs IH Hle]; [constructor|]. apply NoDup_cons in Hn as [Hkn Hn]. cbn [flat_map]. rewrite map_app.
  assert (IH' := IH ltac:(intros k' g' s' Hg'; by apply Hk; right) Hn). cbn [snd].
  assert (Hrep : representative g = [] \/ exists s, representative g = [s]).
  { unfold representative. destruct (one_direction g); [|by left]. destruct (sorted_by _ g) as [|x rest]; cbn; [by left|right]. exists x. by rewrite take_0. }
  destruct Hrep as [->|[s Hrep]]; [done|]. rewrite Hrep. cbn. constructor; [done|]. apply Forall_forall. intros x Hx.
  apply list_elem_of_In, List.in_map_iff in Hx as (s' & <- & Hs'). apply List.in_flat_map in Hs' as ([k' g'] & Hg' & Hs').
  apply list_elem_of_In in Hg', Hs'. rewrite (Hk k g s); [by left|by rewrite Hrep; left|]. rewrite (Hk k' g' s'); [by right|done|].
  pose proof (proj1 (Forall_forall _ _) Hle _ Hg') as Hlt. unfold item_le in Hlt. cbn in Hlt. unfold String.leb, String.ltb in *.
  destruct (String.compare k k') eqn:E; [|done|done]. apply String.compare_eq_iff in E as <-. destruct Hkn.
  by apply (list_elem_of_fmap_2 fst _ (k, g')).
Qed.

Lemma selected_sorted l : StronglySorted (fun a b => String.ltb a b = true) (map signal_symbol (select_signals l)).
Proof.
  unfold select_signals.
  assert (Hok : groups_ok (foldl add_signal [] (List.filter directional l))).
  { apply (grouped_ok signal_symbol). split; [apply NoDup_nil_2|done]. }
  apply selected_sorted_gen; [|by apply sort_items_NoDup, Hok|apply sort_items_sorted].
  intros k g s Hg Hs. rewrite sort_items_perm in Hg. apply (group_of signal_symbol) in Hg as [-> _]. fold (opinions k l) in Hs.
  apply representative_spec in Hs as (_ & rest & Hr). apply (sorted_head _ candidate_total candidate_trans) in Hr as [Hin _].
  by apply elem_opinions in Hin as (_ & _ & ->).
Qed.

(** The selection is exact. A signal is selected only if it takes a side,
    nobody takes the other side on its symbol, and no signal on the symbol comes
    before it by name and version; a symbol on which somebody takes a side and
    nobody disagrees is represented; and the selected symbols are in increasing
    order, so each has one signal. *)
Theorem selection_exact l :
  (forall s, s ∈ select_signals l ->
     s ∈ l /\ directional s = true /\
     forall s', s' ∈ l -> directional s' = true -> signal_symbol s' = signal_symbol s ->
       sg_direction s'.2 = sg_direction s.2 /\ by_candidate s s' = true) /\
  (forall s, s ∈ l -> directional s = true ->
     (forall s', s' ∈ l -> directional s' = true -> signal_symbol s' = signal_symbol s -> sg_direction s'.2 = sg_direction s.2) ->
     exists r, r ∈ select_signals l /\ signal_symbol r = signal_symbol s /\ sg_direction r.2 = sg_direction s.2) /\
  StronglySorted (fun a b => String.ltb a b = true) (map signal_symbol (select_signals l)).
Proof.
  split_and!; [| |apply selected_sorted].
  - intros s [_ Hr]%selected_in. apply representative_spec in Hr as (Ho & rest & Hr).
    apply (sorted_head _ candidate_total candidate_trans) in Hr as [Hin Hle]. pose proof (proj1 (elem_opinions _ _ _) Hin) as (H1 & H2 & _).
    split_and!; [done|done|]. intros s' H1' H2' H3'. assert (Hin' : s' ∈ opinions (signal_symbol s) l) by by apply elem_opinions.
    split; [by apply (proj1 (one_direction_spec _) Ho)|by apply Hle].
  - intros s Hs Hd Hall. set (g := opinions (signal_symbol s) l).
    assert (Hin : s ∈ g) by by apply elem_opinions.
    assert (Ho : one_direction g = true).
    { apply one_direction_spec. intros a b (Ha & Hda & Hsa)%elem_opinions (Hb & Hdb & Hsb)%elem_opinions. by rewrite (Hall a) // (Hall b). }
    destruct (sorted_by by_candidate g) as [|r rest] eqn:E; [apply sorted_nil in E; rewrite E in Hin; by apply elem_of_nil in Hin|].
    pose proof (sorted_head _ candidate_total candidate_trans _ _ _ E) as [Hr _]. pose proof (proj1 (elem_opinions _ _ _) Hr) as (Hr1 & Hr2 & Hr3).
    exists r. split_and!; [|done|by apply Hall]. apply selected_in. rewrite Hr3. fold g. split; [by intros Hg; rewrite Hg in Hin; apply elem_of_nil in Hin|].
    apply representative_spec. by split; [|exists rest].
Qed.
End selection.

(** ** The intents of the strategy *)

Lemma map_result_elem {A B} (f : A -> result B) l ys y : map_result f l = Ok ys -> y ∈ ys -> exists x, x ∈ l /\ f x = Ok y.
Proof.
  revert ys. induction l as [|x l IH]; intros ys; cbn [map_result]; [intros E; injection E as <-; by intros ?%elem_of_nil|].
  destruct (f x) as [z|] eqn:Ez; [|done]. cbn [mbind result_bind]. destruct (map_result f l) as [zs|]; [|done]. cbn [mbind result_bind].
  intros E; injection E as <-. intros [->|Hy]%elem_of_cons; [exists x; by split; [left|]|].
  destruct (IH zs eq_refl Hy) as (x' & Hx & Hf). exists x'. by split; [right|].
Qed.

(** ** Approval *)

Definition governed_state (s : LifecycleState) : bool :=
  match s with LifecycleState.APPROVED | LifecycleState.SHAKEDOWN | LifecycleState.FULL_PRODUCTION => true | _ => false end.

Lemma snapshots_elem records ids rs r : snapshots records ids = Ok rs -> r ∈ rs ->
  exists id x, id ∈ ids /\ dget id records = Some x /\ snapshot_of id x = Ok r.
Proof.
  revert rs. induction ids as [|id ids IH]; intros rs; cbn [snapshots]; [intros E; injection E as <-; by intros ?%elem_of_nil|].
  unfold _snapshot. destruct (dget id records) as [x|] eqn:Hx; [|done]. cbn [of_option mbind result_bind].
  destruct (snapshot_of id x) as [s|] eqn:Hs; [|done]. cbn [mbind result_bind]. destruct (snapshots records ids) as [ss|]; [|done]. cbn [mbind result_bind].
  intros E; injection E as <-. intros [->|Hr]%elem_of_cons; [exists id, x; split_and!; [by left|done..]|].
  destruct (IH ss eq_refl Hr) as (id' & x' & Hid & H1 & H2). exists id', x'. split_and!; [by right|done..].
Qed.

Lemma snapshot_of_fields id x r : snapshot_of id x = Ok r ->
  er_experiment_id r = id /\ er_specification r = x_specification x /\ er_lifecycle_state r = x_lifecycle_state x /\
  er_evidence_fingerprint r = x_evidence_fingerprint x.
Proof.
  unfold snapshot_of. destruct (negb _); [done|]. unfold mk_ExperimentRecord. destruct (_ || _); [done|]. intros E. injection E as <-. done.
Qed.

Lemma listed_spec records sealed st rs r : list_experiments sealed (Some st) records = Ok rs -> r ∈ rs -> NoDup (dkeys records) ->
  exists id x, dget id records = Some x /\ x_lifecycle_state x = st /\ snapshot_of id x = Ok r.
Proof.
  intros E Hr Hn. destruct (snapshots_elem _ _ _ _ E Hr) as (id & x & Hid & Hx & Hs). exists id, x. split_and!; [done| |done].
  apply (elem_ids_where records Hn) in Hid as (y & Hy & Hp). rewrite Hx in Hy. injection Hy as <-.
  apply andb_true_iff in Hp as [_ Hp]. by apply bool_decide_eq_true_1 in Hp.
Qed.

Lemma approved_spec fromisoformat records rs r : approved_experiments fromisoformat records = Ok rs -> r ∈ rs -> NoDup (dkeys records) ->
  exists id x, dget id records = Some x /\ governed_state (x_lifecycle_state x) = true /\ er_specification r = x_specification x /\ er_experiment_id r = id.
Proof.
  unfold approved_experiments. intros E Hr Hn.
  destruct (list_experiments None (Some LifecycleState.APPROVED) records) as [l1|] eqn:E1; [|done].
  destruct (list_experiments None (Some LifecycleState.SHAKEDOWN) records) as [l2|] eqn:E2; [|done].
  destruct (list_experiments None (Some LifecycleState.FULL_PRODUCTION) records) as [l3|] eqn:E3; [|done].
  cbn [mbind result_bind] in E. destruct (map_result _ _) as [ds|] eqn:Ed; [|done]. cbn [mbind result_bind] in E. injection E as <-.
  apply list_elem_of_fmap in Hr as ([t r'] & -> & Hd). rewrite sorted_by_perm in Hd.
  destruct (map_result_elem _ _ _ _ Ed Hd) as (r0 & Hr0 & Hd0).
  assert (r0 = r') as -> by (unfold dated in Hd0; destruct (parse_utc _ _) as [|[]]; congruence).
  assert (Hcase : exists st rs, list_experiments None (Some st) records = Ok rs /\ governed_state st = true /\ r' ∈ rs).
  { apply elem_of_app in Hr0 as [H|[H|H]%elem_of_app]; eauto. }
  destruct Hcase as (st & rs & El & Hst & Hin). destruct (listed_spec _ _ _ _ _ El Hin Hn) as (id & x & Hx & Hs & Hsn).
  apply snapshot_of_fields in Hsn as (Hid & Hsp & _). exists id, x. rewrite Hs. done.
Qed.

(** ** Evaluation *)

Section strategy.
Context (fromisoformat : string -> result (Z * option Z)).
Context {S : Type} (get_mark_price : Symbol -> M S MarkPrice) (get_funding_rate : Symbol -> M S FundingRate).

Lemma evaluate_rule_symbol name cmp f spec s : evaluate_rule name cmp f spec = Ok s -> sg_symbol s = fv_symbol f.
Proof.
  unfold evaluate_rule, mk_CandidateSignal. intros E.
  repeat (let H := fresh in destruct (_ || _) eqn:H in E; [done|]). 
  destruct (_extract_threshold _); [|done]. destruct (_extract_direction_convention _); [|done]. cbn [mbind result_bind] in E.
  destruct (negb (fv_available f)); [|destruct (fv_value f); [|done]]; cbn [of_option mbind result_bind] in E;
    repeat (case_match; try done); by injection E as <-.
Qed.

Lemma fetch_symbol staleness clock symbol s s' r :
  FundingRateProvider.fetch fromisoformat get_funding_rate staleness clock symbol s = (s', Ok r) -> rn_symbol r = symbol.
Proof.
  unfold FundingRateProvider.fetch. destruct (get_funding_rate symbol s) as [s1 [funding|e]]; intros E; injection E as _ E.
  - destruct (_age_seconds _ _ _) as [age|]; [|done]. cbn [mbind result_bind] in E. unfold mk_Reading in E.
    repeat (case_match; try done); by injection E as <-.
  - unfold mk_Reading in E. repeat (case_match; try done); by injection E as <-.
Qed.

Lemma pass_through_symbol name version r f : pass_through name version r = Ok f -> fv_symbol f = rn_symbol r.
Proof. unfold pass_through, mk_FeatureValue. intros E. repeat (case_match; try done); by injection E as <-. Qed.

Lemma evaluate_symbol_of name cmp now spec symbol s s' g :
  evaluate_symbol fromisoformat get_funding_rate (evaluate_rule name cmp) now spec symbol s = (s', Ok g) -> sg_symbol g = symbol.
Proof.
  unfold evaluate_symbol. intros (s1 & r & Hr & E)%bind_ok. apply fetch_symbol in Hr. rewrite run_lift in E.
  destruct (FundingRateFeature.compute r) as [f|] eqn:Ef; [|done]. apply pass_through_symbol in Ef. injection E as _ E.
  apply evaluate_rule_symbol in E. congruence.
Qed.

(** A signal of a specification, on a symbol of its universe and of the context's. *)
Definition stems (context : StrategyContext) (specs : list CandidateSpecification) (e : CandidateSignal * CandidateSpecification) : Prop :=
  e.2 ∈ specs /\ sg_symbol e.1 ∈ cs_universe e.2 /\ in_context context (sg_symbol e.1) = true.

Section signals.
Context (name : string) (cmp : decimal -> decimal -> bool -> SignalDirection) (context : StrategyContext).
Notation evaluate_symbols := (evaluate_symbols fromisoformat get_funding_rate (evaluate_rule name cmp) (cx_evaluated_at_utc context)).
Notation evaluate_specs := (evaluate_specs fromisoformat get_funding_rate (evaluate_rule name cmp) context).

Lemma evaluate_symbols_stem spec l : forall signals s s' signals', evaluate_symbols spec l signals s = (s', Ok signals') ->
  forall e, e ∈ signals' -> e ∈ signals \/ e.2 = spec /\ sg_symbol e.1 ∈ l.
Proof.
  induction l as [|x l IH]; intros signals s s' signals' E e He; cbn [Bridge.evaluate_symbols] in E; [injection E as _ <-; by left|].
  apply bind_ok in E as (s1 & g & Hg & E). apply evaluate_symbol_of in Hg.
  destruct (IH _ _ _ _ E e He) as [[Hs| ->%list_elem_of_singleton]%elem_of_app|[H1 H2]]; [by left| |right; split; [done|by right]].
  right. split; [done|]. cbn. rewrite Hg. by left.
Qed.

(** What one specification adds, when it is due and when it is not. *)
Lemma evaluate_specs_cons spec specs signals w w' signals' : evaluate_specs (spec :: specs) signals w = (w', Ok signals') ->
  exists due, _is_due fromisoformat w.2 spec (cx_evaluated_at_utc context) = Ok due /\
    if due then exists s1 signals1,
        evaluate_symbols spec (List.filter (in_context context) (cs_universe spec)) signals w.1 = (s1, Ok signals1) /\
        evaluate_specs specs signals1 (s1, (spec_key spec, cx_evaluated_at_utc context) :: w.2) = (w', Ok signals')
    else evaluate_specs specs signals w = (w', Ok signals').
Proof.
  intros H. cbn [Bridge.evaluate_specs] in H. rewrite run_get run_lift in H. destruct (_is_due _ _ _ _) as [due|]; [|done]. exists due. split; [done|].
  destruct due; cbn [negb] in *; [|done]. apply bind_ok in H as (w1 & signals1 & Hz & H). unfold zoom in Hz.
  destruct (evaluate_symbols _ _ _ _) as [s1 r1] eqn:E1. injection Hz as <- ->. exists s1, signals1. split; [done|].
  rewrite run_modify in H. exact H.
Qed.

Lemma evaluate_specs_stem specs : forall signals w w' signals', evaluate_specs specs signals w = (w', Ok signals') ->
  forall e, e ∈ signals' -> e ∈ signals \/ stems context specs e.
Proof.
  induction specs as [|spec specs IH]; intros signals w w' signals' E e He; [cbn in E; injection E as _ <-; by left|].
  assert (Hweak : stems context specs e -> stems context (spec :: specs) e) by (intros (H1 & H2); split; [by right|done]).
  apply evaluate_specs_cons in E as ([|] & _ & E).
  - destruct E as (s1 & signals1 & E1 & E). destruct (IH _ _ _ _ E e He) as [Hs|Hs]; [|right; by apply Hweak].
    destruct (evaluate_symbols_stem _ _ _ _ _ _ E1 e Hs) as [?|[Hsp Hin]]; [by left|right].
    apply list_elem_of_In, List.filter_In in Hin as [Hin Hc]. rewrite -Hsp. split; [rewrite Hsp; by left|]. rewrite Hsp.
    split; [by apply list_elem_of_In|done].
  - destruct (IH _ _ _ _ E e He) as [?|Hs]; [by left|right; by apply Hweak].
Qed.
End signals.

(** ** Intents *)

Lemma intent_of_symbol signal spec s s' i : intent_of get_mark_price signal spec s = (s', Ok (Some i)) -> ti_symbol i = sg_symbol signal.
Proof.
  unfold intent_of. destruct (get_mark_price _ s) as [s1 [price|]]; [|done]. destruct (dleb _ _); [done|]. intros E. injection E as _ E.
  destruct (stop_fraction spec) as [st|]; [|done]. destruct (t1_fraction spec) as [t1|]; [|done]. destruct (t2_fraction spec) as [t2|]; [|done].
  cbn [mbind result_bind] in E. destruct st as [st|]; [|done]. cbn [of_option mbind result_bind] in E.
  destruct (levels _ _ _ _ _) as [[[[sd sp] u1] u2]|]; [|done]. unfold mk_TradeIntent in E. repeat (case_match; try done). cbn [mbind result_bind] in *.
  match goal with H : Ok (Some ?x) = Ok (Some i) |- _ => injection H as <- end. done.
Qed.

Lemma intents_of_stem signals selected : forall intents s s' intents', intents_of get_mark_price signals selected intents s = (s', Ok intents') ->
  forall i, i ∈ intents' -> i ∈ intents \/ exists g e, g ∈ selected /\ signals !! Z.to_nat g.1 = Some e /\ ti_symbol i = sg_symbol g.2.
Proof.
  induction selected as [|g selected IH]; intros intents s s' intents' E i Hi; cbn [intents_of] in E; [injection E as _ <-; by left|].
  rewrite run_lift in E. destruct (signals !! _) as [e|] eqn:He; [|done]. cbn [of_option] in E. apply bind_ok in E as (s1 & o & Ho & E).
  destruct (IH _ _ _ _ E i Hi) as [Hin|(g' & e' & H1 & H2 & H3)]; [|right; exists g', e'; split_and!; [by right|done..]].
  apply elem_of_app in Hin as [?|Hin]; [by left|]. destruct o as [j|]; [|by apply elem_of_nil in Hin]. apply list_elem_of_singleton in Hin as ->.
  right. exists g, e. split_and!; [by left|done|]. by eapply intent_of_symbol.
Qed.
End strategy.

Lemma elem_enumerate {A} (l : list A) i k x : (k, x) ∈ enumerate i l -> i <= k /\ l !! Z.to_nat (k - i) = Some x.
Proof.
  revert i. induction l as [|y l IH]; intros i; [by intros ?%elem_of_nil|]. cbn [enumerate]. intros [[= -> ->]|Hin]%elem_of_cons.
  - replace (Z.to_nat (i - i)) with O by lia. split; [lia|done].
  - destruct (IH _ Hin) as [Hle Hx]. split; [lia|]. replace (Z.to_nat (k - i)) with (S (Z.to_nat (k - (i + 1)))) by lia. done.
Qed.

(** An experiment that backs a specification: governance stands behind it, its
    registered specification is the one traded, and it went through sealing,
    evidence and a decision. *)
Definition backs (records : Records) (spec : CandidateSpecification) (id : string) : Prop :=
  exists x, dget id records = Some x /\ governed_state (x_lifecycle_state x) = true /\
    json_eqb (to_specification_dict spec) (x_specification x) = true /\
    x_sealed x = true /\ is_Some (x_evidence x) /\ is_Some (x_governance_decision x).

Lemma governed_backs {T} `{RegistryStorage T} (w : T * Records) id x spec : reg_reach w -> dget id w.2 = Some x ->
  governed_state (x_lifecycle_state x) = true -> json_eqb (to_specification_dict spec) (x_specification x) = true -> backs w.2 spec id.
Proof.
  intros Hw Hx Hg He. pose proof (reach_all_ok w Hw id x Hx) as Hok. exists x.
  assert (Ha : after_evidence (x_lifecycle_state x) = true /\ after_decision (x_lifecycle_state x) = true) by (by destruct (x_lifecycle_state x)).
  pose proof (xo_evidence x Hok (proj1 Ha)) as Hev. split_and!; try done; [by apply (xo_evidence_sealed x Hok)|by apply (xo_decision x Hok), Ha].
Qed.

Section generate.
Context (fromisoformat : string -> result (Z * option Z)).
Context {T : Type} `{RegistryStorage T}.
Context {S : Type} (get_mark_price : Symbol -> M S MarkPrice) (get_funding_rate : Symbol -> M S FundingRate).

Lemma live_backed (w : T * Records) self live spec : reg_reach w -> st_registry self = true ->
  _live_specifications fromisoformat self w.2 = Ok live -> spec ∈ live -> spec ∈ st_specifications self /\ exists id, backs w.2 spec id.
Proof.
  intros Hw Hreg E Hs. unfold _live_specifications in E. rewrite Hreg in E. cbn [negb] in E.
  destruct (approved_experiments fromisoformat w.2) as [rs|] eqn:Er; [|done]. cbn [mbind result_bind] in E. injection E as <-.
  apply list_elem_of_In, List.filter_In in Hs as [Hs Hex]. split; [by apply list_elem_of_In|].
  apply List.existsb_exists in Hex as (r & Hr & He). apply list_elem_of_In in Hr.
  destruct (approved_spec _ _ _ _ Er Hr (proj1 (reach_forest w Hw))) as (id & x & Hx & Hg & Hsp & _). rewrite Hsp in He.
  exists id. by eapply governed_backs.
Qed.

(** An intent that governance stands behind. *)
Definition governed_intent (self : ApprovedFundingAlphaStrategy) (records : Records) (context : StrategyContext) (i : TradeIntent) : Prop :=
  exists spec id, spec ∈ st_specifications self /\ backs records spec id /\ ti_symbol i ∈ cs_universe spec /\ in_context context (ti_symbol i) = true.

Lemma intents_governed (w : T * Records) self context s s' intents : reg_reach w -> st_registry self = true ->
  generate_intents fromisoformat get_mark_price get_funding_rate self w.2 context s = (s', Ok intents) ->
  Forall (governed_intent self w.2 context) intents.
Proof.
  intros Hw Hreg E. unfold generate_intents in E. rewrite run_lift in E. cbn [get_candidate_type blank str_forall] in E.
  change (get_candidate_type _FUNDING_FAMILY) with (Ok {| ce_name := "funding_rate_threshold_rule"; ce_candidate_type := "rule_based";
       ce_feature_name := FundingRateFeature.NAME; ce_feature_version := FundingRateFeature.VERSION;
       ce_evaluate_fn := FundingRateThresholdRuleCandidate.evaluate |}) in E. cbv beta iota in E. rewrite run_lift in E.
  destruct (_live_specifications _ _ _) as [live|] eqn:El; [|done].
  apply bind_ok in E as (s1 & signals & Es & E). unfold zoom in E. destruct (intents_of _ _ _ _ _) as [s2 r2] eqn:Ei. injection E as _ ->.
  apply Forall_forall. intros i Hi.
  destruct (intents_of_stem _ _ _ _ _ _ _ Ei i Hi) as [?%elem_of_nil|([k g] & e & Hg & He & Hsym)]; [done|].
  apply (proj1 (selection_exact _)) in Hg as (Hg & _). apply elem_enumerate in Hg as [_ Hg]. rewrite Z.sub_0_r list_lookup_fmap He in Hg.
  cbn in Hg, Hsym. injection Hg as <-. cbn [ce_evaluate_fn] in Es. unfold FundingRateThresholdRuleCandidate.evaluate in Es.
  destruct (evaluate_specs_stem _ _ _ _ _ _ _ _ _ _ Es e ltac:(by eapply list_elem_of_lookup_2)) as [?%elem_of_nil|(H1 & H2 & H3)]; [done|].
  destruct (live_backed w self live e.2 Hw Hreg El H1) as (Hsp & id & Hb). exists e.2, id. rewrite Hsym. done.
Qed.
End generate.

(** ** A trading cycle that runs it *)

Section governed.
Context {T : Type} `{RegistryStorage T} {L A X : Type} `{EventLog L} `{Exchange A} `{Venue A}.
Notation W := (Engine L A * X)%type.
Context (fromisoformat : string -> result (Z * option Z)).

(** The strategy object as the cycle sees it: its map of evaluation times is
    [last], the registry's records are those of the moment, and its intents are
    new objects, with the identities [ids]. *)
Definition approved_strategy (self : ApprovedFundingAlphaStrategy) (last : list ((string * string) * string)) (records : Records)
    (ids : nat -> Z) : Strategy (A := A) := fun context a =>
  let '(w, r) := generate_intents fromisoformat ex_get_mark_price ve_get_funding_rate self records context (a, last) in
  (w.1, match r with Ok intents => Ok (imap (fun n i => (ids n, i)) intents) | Err e => Err e end).

Context (universe : list Symbol) (profile : RiskProfileParams) (corr : CorrelationInfo) (mmr leverage : decimal)
  (vol : list (string * decimal)) (now : string) (hook : option (ExecutionResult -> M W unit)) (rules : option QuantizationRules).

Lemma in_context_universe context s : cx_universe context = universe -> in_context context s = true ->
  exists x, x ∈ universe /\ sym_value x = sym_value s.
Proof.
  intros <- Hc. apply List.existsb_exists in Hc as (x & Hx & E). exists x. split; [by apply list_elem_of_In|by apply String.eqb_eq].
Qed.

(** C2: nothing is traded that governance does not stand behind. A cycle whose
    only strategy is the approved one, given a registry in any state its calls
    and restarts can reach, executes an order only if some experiment of that
    registry, approved or in production, with its specification sealed, its
    evidence attached and a decision recorded, has the specification of a
    strategy's held one, whose universe and the cycle's hold the symbol. *)
Theorem no_trade_without_governance (registry : T * Records) self last ids (w w' : W) r :
  reg_reach registry -> st_registry self = true ->
  run_cycle fromisoformat [approved_strategy self last registry.2 ids] universe profile corr mmr leverage vol now hook rules w = (w', Ok r) ->
  Forall2 executes (cr_approved (cy_construction r)) (cy_executions r) /\
  Forall (fun q => exists spec id, spec ∈ st_specifications self /\ backs registry.2 spec id /\
    tr_symbol q ∈ cs_universe spec /\ exists x, x ∈ universe /\ sym_value x = sym_value (tr_symbol q)) (cr_approved (cy_construction r)).
Proof.
  intros Hreg Hself (context & b & b' & a & a' & orders & Hc & Hgen & _ & Hx & Hq & _)%cycle_stages. split; [exact Hx|].
  eapply Forall_impl; [exact Hq|]. cbv beta. intros q (i & Hi & _ & Hsym & _).
  destruct (generate_all_elem _ _ _ _ _ _ Hgen Hi) as (s & c & c' & l & ->%list_elem_of_singleton & Es & Hil).
  unfold approved_strategy in Es. destruct (generate_intents _ _ _ _ _ _ _) as [[c1 last1] [intents|e]] eqn:Eg; [|done].
  injection Es as _ <-. apply elem_of_lookup_imap in Hil as (n & j & -> & Hj).
  pose proof (intents_governed fromisoformat _ _ registry self context _ _ intents Hreg Hself Eg) as Hall.
  destruct (proj1 (Forall_forall _ _) Hall j ltac:(by eapply list_elem_of_lookup_2)) as (spec & id & Hs & Hb & Hu & Hin).
  exists spec, id. cbn [snd] in Hsym. rewrite Hsym. split_and!; [done|done|done|]. by eapply in_context_universe.
Qed.
End governed.
