(* ===== verification/BridgeFacts.v ===== *)
(** * Edges of the approved strategy

    What a specification survives on its way through the registry, a
    specification that its namesake keeps from ever being evaluated, and
    configurations and readings that stop a whole cycle. *)

From Stdlib Require Import ssreflect ZArith Lia Ascii String.
From stdpp Require Import base strings numbers gmap sets list relations.
From S2P Require Import Prelude PyText PyDict PyJson PyJsonFacts PySort PyDecimal PyFloat EventLog RiskManagerSpec ExchangeModels Sizing Construction.
From S2P Require Import ConstructionSpec Registry RegistrySpec AlphaModels Validation Research Bridge BridgeSpec.
#[local] Open Scope Z_scope.

(** ** Specifications survive the registry *)

Lemma symbols_of_universe l : Forall (fun s => blank (sym_value s) = false) l -> symbols_of (map (fun x => JStr (sym_value x)) l) = Ok l.
Proof.
  induction 1 as [|[v] l Hb _ IH]; [done|]. cbn [map symbols_of sym_value] in *. unfold mk_Symbol. rewrite Hb IH. done.
Qed.

(** The specification with the keys of its two mappings sorted. *)
Definition canon_spec (s : CandidateSpecification) : CandidateSpecification :=
  {| cs_name := cs_name s; cs_version := cs_version s; cs_candidate_type := cs_candidate_type s; cs_universe := cs_universe s;
     cs_feature_name := cs_feature_name s; cs_feature_version := cs_feature_version s; cs_cadence_seconds := cs_cadence_seconds s;
     cs_acceptance_criteria := fields (canon (JObj (cs_acceptance_criteria s))); cs_parameters := fields (canon (JObj (cs_parameters s))) |}.

(** A specification its constructor and that of its symbols accept, with values
    that JSON can hold. *)
Definition spec_ok (s : CandidateSpecification) : Prop :=
  mk_CandidateSpecification s = Ok s /\ Forall (fun x => blank (sym_value x) = false) (cs_universe s) /\
  json_wf (to_specification_dict s) = true.

Lemma canon_map_nil (o : list (string * json)) : is_nil (fields (canon (JObj o))) = is_nil o.
Proof.
  cbn [canon fields]. pose proof (Permutation_length (sort_items_perm (map (fun p => (p.1, canon p.2)) o))) as Hl.
  rewrite length_map in Hl. destruct (sort_items _), o; done.
Qed.

Lemma canon_spec_ok s : mk_CandidateSpecification s = Ok s -> mk_CandidateSpecification (canon_spec s) = Ok (canon_spec s).
Proof.
  unfold mk_CandidateSpecification. cbn [canon_spec cs_name cs_version cs_candidate_type cs_feature_name cs_feature_version cs_universe cs_cadence_seconds].
  destruct (existsb blank _); [done|]. destruct (cs_universe s); [done|]. destruct (_ <=? 0); [done|].
  change (match cs_acceptance_criteria (canon_spec s) with [] => true | _ => false end) with (is_nil (fields (canon (JObj (cs_acceptance_criteria s))))).
  rewrite canon_map_nil. by destruct (cs_acceptance_criteria s).
Qed.

(** What each field reads as. *)
Lemma from_fields d (s : CandidateSpecification) :
  dget "universe" d = Some (JList (map (fun x => JStr (sym_value x)) (cs_universe s))) ->
  dget "candidate_name" d = Some (JStr (cs_name s)) -> dget "candidate_version" d = Some (JStr (cs_version s)) ->
  dget "candidate_type" d = Some (JStr (cs_candidate_type s)) -> dget "feature_name" d = Some (JStr (cs_feature_name s)) ->
  dget "feature_version" d = Some (JStr (cs_feature_version s)) -> dget "cadence_seconds" d = Some (JInt (cs_cadence_seconds s)) ->
  dget "acceptance_criteria" d = Some (JObj (cs_acceptance_criteria s)) -> dget "parameters" d = Some (JObj (cs_parameters s)) ->
  Forall (fun x => blank (sym_value x) = false) (cs_universe s) ->
  from_specification_dict d = mk_CandidateSpecification s.
Proof.
  intros E1 E2 E3 E4 E5 E6 E7 E8 E9 Hu. unfold from_specification_dict, str_field, mapping_field.
  rewrite E1 E2 E3 E4 E5 E6 E7 E8 E9. cbn [mbind result_bind]. rewrite symbols_of_universe //. cbn [mbind result_bind]. by destruct s.
Qed.

(** A valid specification is read back from its dictionary as it is, and
    from what the registry's file gives back of it as the same specification
    with the keys of its mappings sorted: same family, version, universe,
    feature and cadence. *)
Theorem specification_roundtrip s : spec_ok s ->
  from_specification_dict (fields (to_specification_dict s)) = Ok s /\
  match loads (dumps (to_specification_dict s)) with
  | Ok (JObj d) => from_specification_dict d = Ok (canon_spec s)
  | _ => False
  end.
Proof.
  intros (Hmk & Hu & Hwf). split; [by rewrite (from_fields _ s)|]. rewrite loads_dumps //.
  pose proof (fun k => jget_canon k _ Hwf) as Hg. destruct (canon (to_specification_dict s)) as [| | | | |d] eqn:E; try done.
  rewrite (from_fields d (canon_spec s)); try (etrans; [apply Hg|]; done); [|done|by apply canon_spec_ok].
  etrans; [apply Hg|]. cbn. do 2 f_equal. rewrite map_map. by apply map_ext.
Qed.

(** ** A specification and its namesake *)

Lemma fltb_int_mono f k k' : k <= k' -> fltb_int f k = true -> fltb_int f k' = true.
Proof.
  intros Hk. unfold fltb_int. destruct (Z.ltb_spec (fexp f) 0) as [He|He]; rewrite !Z.ltb_lt; [|lia].
  pose proof (Z.pow_pos_nonneg 2 (- fexp f)). nia.
Qed.

Section namesake.
Context (fromisoformat : string -> result (Z * option Z)).
Context {S : Type} (get_funding_rate : Symbol -> M S FundingRate).
Context (name : string) (cmp : decimal -> decimal -> bool -> SignalDirection) (context : StrategyContext).
Notation evaluate_symbols := (evaluate_symbols fromisoformat get_funding_rate (evaluate_rule name cmp) (cx_evaluated_at_utc context)).
Notation evaluate_specs := (evaluate_specs fromisoformat get_funding_rate (evaluate_rule name cmp) context).
Notation parse := (parse_utc fromisoformat).
Notation Evaluated := (list ((string * string) * string)).

(** A time within [cadence] of now is recorded under the key. *)
Definition recent (key : string * string) (cadence : Z) (last : Evaluated) : Prop :=
  exists t, last_of key last = Some t /\
    forall now before, parse (cx_evaluated_at_utc context) = Ok now -> parse t = Ok before -> fltb_int (total_seconds (now - before)) cadence = true.

Lemma recent_now key cadence last : 0 < cadence -> recent key cadence ((key, cx_evaluated_at_utc context) :: last).
Proof.
  intros Hc. exists (cx_evaluated_at_utc context). cbn [last_of]. rewrite bool_decide_eq_true_2 //. split; [done|].
  intros now before Hn Hb. rewrite Hn in Hb. injection Hb as <-. rewrite Z.sub_diag. unfold fltb_int, total_seconds. cbn. by apply Z.ltb_lt.
Qed.

Lemma recent_not_due spec last due : recent (spec_key spec) (cs_cadence_seconds spec) last ->
  _is_due fromisoformat last spec (cx_evaluated_at_utc context) = Ok due -> due = false.
Proof.
  intros (t & Ht & Hf). unfold _is_due. rewrite Ht. destruct (parse _) as [now|] eqn:En; [|done]. cbn [mbind result_bind].
  destruct (parse t) as [before|] eqn:Eb; [|done]. cbn [mbind result_bind]. rewrite (Hf now before) //. intros E. by injection E.
Qed.

Lemma not_due_recent spec last cadence : cs_cadence_seconds spec <= cadence ->
  _is_due fromisoformat last spec (cx_evaluated_at_utc context) = Ok false -> recent (spec_key spec) cadence last.
Proof.
  intros Hc. unfold _is_due. destruct (last_of _ _) as [t|] eqn:Ht; [|done]. intros E. exists t. split; [done|].
  intros now before Hn Hb. rewrite Hn in E. cbn [mbind result_bind] in E. rewrite Hb in E. cbn [mbind result_bind] in E.
  injection E as E. apply negb_false_iff in E. by eapply fltb_int_mono.
Qed.

Lemma last_of_cons key k v (last : Evaluated) : last_of key ((k, v) :: last) = if bool_decide (key = k) then Some v else last_of key last.
Proof. done. Qed.

(** No signal of [b] joins the signals. *)
Lemma silent_while_recent b specs : 0 < cs_cadence_seconds b -> forall signals w w' signals',
  evaluate_specs specs signals w = (w', Ok signals') -> recent (spec_key b) (cs_cadence_seconds b) w.2 ->
  recent (spec_key b) (cs_cadence_seconds b) w'.2 /\ forall e, e ∈ signals' -> e.2 = b -> e ∈ signals.
Proof.
  intros Hc. induction specs as [|c specs IH]; intros signals w w' signals' E Hr; [cbn in E; injection E as <- <-; by split|].
  apply evaluate_specs_cons in E as (due & Hd & E). destruct due; [|by eapply IH].
  destruct E as (s1 & signals1 & E1 & E).
  assert (Hr' : recent (spec_key b) (cs_cadence_seconds b) ((spec_key c, cx_evaluated_at_utc context) :: w.2)).
  { destruct (decide (spec_key b = spec_key c)) as [<-|Hk]; [by apply recent_now|]. destruct Hr as (t & Ht & Hf). exists t.
    rewrite last_of_cons bool_decide_eq_false_2 //. }
  destruct (IH _ _ _ _ E Hr') as [H1 H2]. split; [done|]. intros e He Hb.
  destruct (evaluate_symbols_stem _ _ _ _ _ _ _ _ _ _ _ E1 e (H2 e He Hb)) as [?|[Hec _]]; [done|].
  subst c. rewrite Hb in Hd. by pose proof (recent_not_due _ _ _ Hr Hd).
Qed.

Lemma evaluate_specs_app l1 l2 : forall signals w w' signals', evaluate_specs (l1 ++ l2) signals w = (w', Ok signals') ->
  exists w1 signals1, evaluate_specs l1 signals w = (w1, Ok signals1) /\ evaluate_specs l2 signals1 w1 = (w', Ok signals').
Proof.
  induction l1 as [|c l1 IH]; intros signals w w' signals' E; [by exists w, signals|].
  cbn [app Bridge.evaluate_specs] in E |- *. rewrite run_get run_lift in E. rewrite run_get run_lift.
  destruct (_is_due _ _ _ _) as [due|]; [|done]. destruct (negb due); [by apply IH|].
  apply bind_ok in E as (w1 & signals1 & Hz & E). unfold mbind, M_bind. rewrite Hz. rewrite run_modify in E. by apply IH.
Qed.

(** Of two held specifications with the same name and version, the later
    one is never evaluated in a cycle if its cadence is at least the earlier's:
    whatever the recorded times, no signal of a cycle comes from it. The times
    are kept per name and version, and the earlier one is evaluated, or not
    due, first. *)
Theorem namesake_never_evaluated l1 a l2 b l3 w w' signals :
  spec_key a = spec_key b -> cs_cadence_seconds a <= cs_cadence_seconds b -> 0 < cs_cadence_seconds b -> b ∉ l1 ++ [a] ->
  evaluate_specs (l1 ++ a :: l2 ++ b :: l3) [] w = (w', Ok signals) -> forall e, e ∈ signals -> e.2 <> b.
Proof.
  intros Hk Hab Hc Hin E e He Hb.
  rewrite (cons_middle a) app_assoc in E. apply evaluate_specs_app in E as (w1 & signals1 & E1 & E).
  assert (Hr : recent (spec_key b) (cs_cadence_seconds b) w1.2).
  { apply evaluate_specs_app in E1 as (w0 & signals0 & _ & E0). apply evaluate_specs_cons in E0 as (due & Hd & E0). rewrite -Hk. destruct due.
    - destruct E0 as (s1 & sg & _ & E0). cbn in E0. injection E0 as <- _. by apply recent_now.
    - cbn in E0. injection E0 as <- _. by eapply not_due_recent. }
  destruct (silent_while_recent b _ Hc _ _ _ _ E Hr) as [_ Hs]. specialize (Hs e He Hb).
  destruct (evaluate_specs_stem _ _ _ _ _ _ _ _ _ _ E1 e Hs) as [?%elem_of_nil|(H1 & _)]; [done|]. by rewrite Hb in H1.
Qed.
End namesake.

(** ** Readings *)

Section readings.
Context (fromisoformat : string -> result (Z * option Z)).
Context {S : Type} (get_funding_rate : Symbol -> M S FundingRate) (max_staleness_seconds : float) (now : string).
Notation fetch := (FundingRateProvider.fetch fromisoformat get_funding_rate max_staleness_seconds now).

(** What a reading is, whatever the market answers: no value, with the
    reason, when the rate could not be read, lies in the future or is older than
    the limit; the rate and its time otherwise. It is never an exception, unless
    one of the two times cannot be parsed, and then always. *)
Lemma fetch_decides symbol s : blank now = false ->
  (fetch symbol s).2 =
    match (get_funding_rate symbol s).2 with
    | Err e => Ok (no_reading symbol now (ReadFailed e))
    | Ok funding =>
        match _age_seconds fromisoformat now (fr_timestamp_utc funding) with
        | Err e => Err e
        | Ok age =>
            Ok (if fltb_int age 0 then no_reading symbol now FutureDated
                else if fltb max_staleness_seconds age then no_reading symbol now Stale
                else {| rn_symbol := symbol; rn_fetched_at_utc := now; rn_available := true; rn_value := Some (fr_rate funding);
                        rn_observed_at_utc := Some (fr_timestamp_utc funding); rn_reason := None |})
        end
    end.
Proof.
  intros Hb. unfold FundingRateProvider.fetch. destruct (get_funding_rate symbol s) as [s1 [funding|e]]; cbn [snd].
  - destruct (_age_seconds _ _ _) as [age|]; [|done]. cbn [mbind result_bind]. unfold mk_Reading, no_reading.
    cbn [rn_fetched_at_utc rn_available rn_value rn_observed_at_utc rn_reason]. rewrite Hb.
    destruct (fltb_int age 0); [done|]. by destruct (fltb _ _).
  - unfold mk_Reading, no_reading. cbn [rn_fetched_at_utc rn_available rn_value rn_observed_at_utc rn_reason]. by rewrite Hb.
Qed.
End readings.

(** ** Concrete runs *)

Definition funding_rule (version threshold : string) (universe : list Symbol) : CandidateSpecification :=
  {| cs_name := "funding_rate_threshold_rule"; cs_version := version; cs_candidate_type := "rule_based"; cs_universe := universe;
     cs_feature_name := "funding_rate_raw"; cs_feature_version := "v1"; cs_cadence_seconds := 60;
     cs_acceptance_criteria := [("min_signaled_samples", JInt 1); ("min_hit_rate", JStr "0.5")];
     cs_parameters := [("threshold", JStr threshold); ("stop_fraction", JStr "0.05")] |}.
Definition rule_btc : CandidateSpecification := funding_rule "v1" "0.0001" [{| sym_value := "BTC" |}].
Definition rule_sol : CandidateSpecification := funding_rule "v1" "0.0002" [{| sym_value := "SOL" |}].

(** Every text is the same instant, but for one that is no time. *)
Definition at_noon (value : string) : result (Z * option Z) := if blank value || String.eqb value "soon" then Err ValueError else Ok (0, None).

Lemma specification_roundtrip_witness : from_specification_dict (fields (to_specification_dict rule_btc)) = Ok rule_btc.
Proof. apply (proj1 (specification_roundtrip rule_btc ltac:(split; [vm_compute; reflexivity|split; [by repeat constructor|vm_compute; reflexivity]]))). Defined.

Definition namesake_run := evaluate_specs at_noon sample_funding (evaluate_rule "funding_rate_threshold_rule" two_sided) sample_context
  ([] ++ rule_btc :: [] ++ rule_sol :: []) [] (tt, []).

(** One signal, that of BTC. *)
Lemma namesake_never_evaluated_witness :
  match namesake_run with
  | (_, Ok signals) => length signals = 1%nat /\ forall e, e ∈ signals -> e.2 <> rule_sol
  | (_, Err _) => False
  end.
Proof.
  destruct namesake_run as [w' [signals|e]] eqn:E.
  - split; [apply (f_equal (fun x => match x.2 with Ok r => length r | Err _ => O end)) in E; cbn [snd] in E; rewrite -E; vm_compute; reflexivity|].
    unfold namesake_run in E. refine (namesake_never_evaluated _ _ _ _ _ [] rule_btc [] rule_sol [] _ _ _ _ _ _ _ E); [reflexivity|cbn; lia|cbn; lia|].
    intros [H|H%elem_of_nil]%elem_of_cons; [discriminate H|exact H].
  - apply (f_equal (fun x => is_ok x.2)) in E. vm_compute in E. discriminate E.
Defined.

Lemma fetch_decides_witness :
  (FundingRateProvider.fetch at_noon sample_funding _DEFAULT_MAX_STALENESS_SECONDS "10:01" {| sym_value := "BTC" |} tt).2 =
  Ok {| rn_symbol := {| sym_value := "BTC" |}; rn_fetched_at_utc := "10:01"; rn_available := true; rn_value := Some d0;
        rn_observed_at_utc := Some "10:00"; rn_reason := None |}.
Proof. rewrite fetch_decides; [reflexivity|vm_compute; reflexivity]. Defined.

(** A rate whose time cannot be parsed is an exception of the provider. *)
Definition bad_funding (s : Symbol) : M unit FundingRate :=
  mret {| fr_symbol := s; fr_rate := d0; fr_next_funding_time_utc := "11:00"; fr_timestamp_utc := "soon" |}.
Lemma unparsable_time_raises :
  (FundingRateProvider.fetch at_noon bad_funding _DEFAULT_MAX_STALENESS_SECONDS "10:01" {| sym_value := "BTC" |} tt).2 = Err ValueError.
Proof. reflexivity. Qed.

(** Construction does not look at the threshold: the strategy is built, and
    every cycle in which the specification is due raises. *)
Definition rule_no_threshold : CandidateSpecification := funding_rule "v2" "high" [{| sym_value := "BTC" |}].
Lemma threshold_unchecked :
  is_ok (strategy_init [rule_no_threshold; rule_btc] false None) = true /\
  (generate_intents at_noon sample_mark sample_funding {| st_specifications := [rule_no_threshold; rule_btc]; st_registry := false;
     st_last_evaluated_at := [] |} [] sample_context (tt, [])).2 = Err CandidateError.
Proof. split; vm_compute; reflexivity. Qed.
