(* ===== verification/ValidationSpec.v ===== *)
(** * What the validation stages say

    The counts of one pass, the folds of walk-forward, the causality audit and
    the percentile rank. *)

From Stdlib Require Import ssreflect ZArith Lia Ascii String QArith Lqa Sorting.Sorted.
From stdpp Require Import base strings numbers gmap sets list.
From S2P Require Import Prelude PyText PyDict PyBytes PyJson PySort PyLines PyDecimal PyDecimalFacts Payload EventStoreFacts ExchangeModels.
From S2P Require Import RegistryLog AlphaModels Validation PyFloat.
#[local] Open Scope Z_scope.

Lemma map_result_cons {A B} (f : A -> result B) x l ys : map_result f (x :: l) = Ok ys <->
  exists y ys', f x = Ok y /\ map_result f l = Ok ys' /\ ys = y :: ys'.
Proof.
  cbn [map_result]. destruct (f x) as [y|]; [|split; [done|by intros (?&?&?&_)]]. cbn [mbind result_bind].
  destruct (map_result f l) as [ys'|]; [|split; [done|by intros (?&?&_&?&_)]]. cbn [mbind result_bind].
  split; [intros E; injection E as <-; eauto|intros (? & ? & E1 & E2 & ->)]. by injection E1 as <-; injection E2 as <-.
Qed.

Lemma map_result_Forall2 {A B} (f : A -> result B) l ys : map_result f l = Ok ys -> Forall2 (fun x y => f x = Ok y) l ys.
Proof.
  revert ys. induction l as [|x l IH]; intros ys; [cbn; intros E; injection E as <-; constructor|].
  rewrite map_result_cons. intros (y & ys' & Hf & Hr & ->). constructor; [done|by apply IH].
Qed.

Definition count {A} (p : A -> bool) (l : list A) : Z := Z.of_nat (length (List.filter p l)).
Lemma count_cons {A} (p : A -> bool) x l : count p (x :: l) = (if p x then 1 else 0) + count p l.
Proof. unfold count. cbn [List.filter]. destruct (p x); cbn [length]; lia. Qed.
Lemma count_range {A} (p : A -> bool) l : 0 <= count p l <= Z.of_nat (length l).
Proof. induction l as [|x l IH]; [done|]. rewrite count_cons. cbn [length]. destruct (p x); lia. Qed.

(** ** One pass over the samples *)

Definition points (d : SignalDirection) (g : CandidateSignal) : bool := sg_available g && bool_decide (sg_direction g = Some d).
Definition unavailable (g : CandidateSignal) : bool := negb (sg_available g).
Definition is_flat (g : CandidateSignal) : bool := points SignalDirection.FLAT g.
Definition signaled (g : CandidateSignal) : bool := sg_available g && negb (bool_decide (sg_direction g = Some SignalDirection.FLAT)).

(** The market moved the way of the signal. *)
Definition hit (p : CandidateSignal * ValidationSample) : bool :=
  points SignalDirection.LONG p.1 && dltb d0 (vs_realized_outcome p.2) ||
  (signaled p.1 && negb (points SignalDirection.LONG p.1)) && dltb (vs_realized_outcome p.2) d0.

Definition gain (p : CandidateSignal * ValidationSample) : decimal :=
  if bool_decide (sg_direction p.1 = Some SignalDirection.LONG) then vs_realized_outcome p.2 else dneg (vs_realized_outcome p.2).

Lemma dneg_pos d : dltb d0 (dneg d) = dltb d d0.
Proof.
  apply Bool.eq_true_iff_eq. rewrite !dltb_spec !value_d0. unfold dneg. rewrite dfix_pos dopp_value. split; lra.
Qed.

Section counts.
Context (evaluate_fn : EvaluateFn) (spec : CandidateSpecification).
Notation evaluate s := (evaluate_fn (vs_feature_value s) spec).

Lemma count_one t s g : evaluate s = Ok g ->
  count_sample evaluate_fn spec t s =
    Ok {| ta_unavailable := ta_unavailable t + (if unavailable g then 1 else 0); ta_flat := ta_flat t + (if is_flat g then 1 else 0);
          ta_hits := ta_hits t + (if hit (g, s) then 1 else 0);
          ta_returns := ta_returns t ++ if signaled g then [gain (g, s)] else [] |}.
Proof.
  intros E. unfold count_sample. rewrite E. cbn [mbind result_bind]. unfold unavailable, is_flat, hit, signaled, gain, points. cbn [fst snd].
  destruct t as [u f h rs]. cbn [ta_unavailable ta_flat ta_hits ta_returns]. rewrite -dneg_pos.
  destruct (sg_available g); cbn [negb andb orb]; [|by rewrite !Z.add_0_r app_nil_r].
  destruct (sg_direction g) as [[| |]|]; repeat case_bool_decide; try done; cbn [negb andb orb]; rewrite ?orb_false_r ?app_nil_r;
    repeat case_match; by rewrite ?Z.add_0_r.
Qed.

Lemma count_samples samples : forall t t', fold_result (count_sample evaluate_fn spec) t samples = Ok t' ->
  exists gs, map_result (fun s => evaluate s) samples = Ok gs /\
    ta_unavailable t' = ta_unavailable t + count unavailable gs /\ ta_flat t' = ta_flat t + count is_flat gs /\
    ta_returns t' = ta_returns t ++ map gain (List.filter (fun p => signaled p.1) (zip gs samples)) /\
    ta_hits t' = ta_hits t + count hit (zip gs samples).
Proof.
  induction samples as [|s samples IH]; intros t t' E.
  { cbn in E. injection E as <-. exists []. unfold count. cbn. rewrite app_nil_r !Z.add_0_r. done. }
  cbn [fold_result] in E. destruct (evaluate s) as [g|] eqn:Eg; [|by rewrite /count_sample Eg in E].
  rewrite (count_one _ _ g Eg) in E. destruct (IH _ _ E) as (gs & Hgs & H1 & H2 & H3 & H4).
  exists (g :: gs). split; [by apply map_result_cons; eauto|].
  cbn [zip_with]. rewrite !count_cons H1 H2 H3 H4. cbn [ta_unavailable ta_flat ta_returns ta_hits List.filter fst].
  split_and!; [lia|lia| |lia]. rewrite -app_assoc. f_equal. by destruct (signaled g).
Qed.

Lemma length_map_result {A B} (f : A -> result B) l ys : map_result f l = Ok ys -> length ys = length l.
Proof. intros H%map_result_Forall2. symmetry. by eapply Forall2_length. Qed.

(** Every signal is unavailable, flat or directional. *)
Lemma counts_partition gs : count unavailable gs + count is_flat gs + count signaled gs = Z.of_nat (length gs).
Proof.
  induction gs as [|g gs IH]; [done|]. rewrite !count_cons. cbn [length]. unfold unavailable, is_flat, signaled, points.
  destruct (sg_available g), (bool_decide _); cbn [negb andb]; unfold unavailable, is_flat, signaled, points in IH; lia.
Qed.

Lemma count_zip {A B} (p : A -> bool) (l : list A) (r : list B) : length l = length r -> count (fun x => p x.1) (zip l r) = count p l.
Proof. revert r. induction l as [|x l IH]; intros [|y r]; try done. cbn. intros [= H]. by rewrite !count_cons IH. Qed.

Lemma hits_signaled l : count hit l <= count (fun p => signaled p.1) l.
Proof.
  induction l as [|p l IH]; [done|]. rewrite !count_cons.
  assert (Hp : hit p = true -> signaled p.1 = true); [|by destruct (hit p), (signaled p.1); lia].
  unfold hit, signaled, points. destruct (sg_available p.1); cbn [andb orb]; [|done].
  destruct (sg_direction p.1) as [[| |]|]; repeat case_bool_decide; done.
Qed.
End counts.

(** ** The criteria *)

(** What a result needs to pass one criterion. *)
Definition criterion_met (r : ValidationResult) (key : string) (required : json) : Prop :=
  if String.eqb key _MIN_HIT_RATE_KEY
  then exists bar rate, decimal_of_json required = Some bar /\ vr_hit_rate r = Some rate /\ (value bar <= value rate)%Q
  else if String.eqb key _MIN_SIGNALED_SAMPLES_KEY then exists n, required = JInt n /\ n <= vr_signaled_samples r
  else False.

Lemma mk_CriterionCheck_id c c' : mk_CriterionCheck c = Ok c' -> c' = c.
Proof. unfold mk_CriterionCheck. destruct (blank _); [done|]. destruct (_ && _); [done|]. congruence. Qed.

Lemma criterion_passes rate n key required c : check_criterion rate n (key, required) = Ok c ->
  cc_criterion_key c = key /\ cc_required_value c = required /\
  (passes c = true <->
    if String.eqb key _MIN_HIT_RATE_KEY
    then exists bar r, decimal_of_json required = Some bar /\ rate = Some r /\ (value bar <= value r)%Q
    else if String.eqb key _MIN_SIGNALED_SAMPLES_KEY then exists k, required = JInt k /\ k <= n else False).
Proof.
  unfold check_criterion. destruct (String.eqb_spec key _MIN_HIT_RATE_KEY) as [->|Hk].
  - unfold _check_min_hit_rate. destruct (decimal_of_json required) as [bar|]; [|done]. cbn [of_option mbind result_bind].
    destruct (negb _); [done|]. intros ->%mk_CriterionCheck_id. destruct rate as [r|]; cbn [cc_criterion_key cc_required_value];
      (split; [done|split; [done|]]); unfold passes; rewrite bool_decide_eq_true; cbn [cc_outcome].
    + destruct (dleb bar r) eqn:E; split; try done.
      * intros _. exists bar, r. by rewrite -dleb_spec.
      * intros (b & r' & [= <-] & [= <-] & H). apply dleb_spec in H. congruence.
    + split; [done|]. by intros (b & r' & _ & ? & _).
  - destruct (String.eqb_spec key _MIN_SIGNALED_SAMPLES_KEY) as [->|Hk'].
    + unfold _check_min_signaled_samples. destruct required as [| |k| | |]; try done. destruct (k <? 0); [done|].
      intros ->%mk_CriterionCheck_id. cbn [cc_criterion_key cc_required_value]. (split; [done|split; [done|]]); unfold passes.
      rewrite bool_decide_eq_true. cbn [cc_outcome]. destruct (Z.leb_spec k n); split; try done; [by exists k|]. intros (k' & [= <-] & ?). lia.
    + intros ->%mk_CriterionCheck_id. done.
Qed.

Lemma mk_ValidationResult_id r r' : mk_ValidationResult r = Ok r' -> r' = r.
Proof. unfold mk_ValidationResult. repeat case_match; congruence. Qed.

Section one_pass.
Context (fromisoformat : string -> result (Z * option Z)) (reason_text : reason -> string) (clock : string).
Notation run_validation := (run_validation fromisoformat reason_text clock).

(** C31: what a validation says: it evaluated the rule on every sample, its
    counts are those of the signals, which add up to the samples, a hit is a
    directional signal the outcome moved with, the hit rate lies between 0 and
    1 and is there exactly when something was signaled, and the whole passed if
    and only if every criterion of the specification is met; one it does not
    know never is. *)
Theorem validation_exact evaluate_fn spec samples r : run_validation evaluate_fn spec samples = Ok r ->
  exists signals, map_result (fun s => evaluate_fn (vs_feature_value s) spec) samples = Ok signals /\
    vr_total_samples r = Z.of_nat (length samples) /\
    vr_unavailable_samples r = count unavailable signals /\ vr_flat_samples r = count is_flat signals /\
    vr_signaled_samples r = count signaled signals /\
    vr_unavailable_samples r + vr_flat_samples r + vr_signaled_samples r = vr_total_samples r /\
    vr_hits r = count hit (zip signals samples) /\
    (vr_signaled_samples r = 0 <-> vr_hit_rate r = None) /\
    (forall h, vr_hit_rate r = Some h -> (0 <= value h /\ value h <= 1)%Q) /\
    (vr_overall_passed r = true <->
      Forall (fun c => criterion_met r c.1 c.2) (cs_acceptance_criteria spec)).
Proof.
  unfold Validation.run_validation. destruct (is_nil samples); [done|].
  destruct (fold_result _ _ _) as [t|] eqn:Et; [|done]. cbn [mbind result_bind].
  destruct (count_samples _ _ _ _ _ Et) as (gs & Hgs & H1 & H2 & H3 & H4). cbn [no_tally ta_unavailable ta_flat ta_returns ta_hits app] in *.
  rewrite !Z.add_0_l in H1 H2 H4.
  pose proof (length_map_result _ _ _ Hgs) as Hlen. pose proof (counts_partition gs) as Hp. pose proof (hits_signaled (zip gs samples)) as Hh.
  assert (Hn : Z.of_nat (length (ta_returns t)) = count signaled gs) by (rewrite H3 length_map; by apply count_zip).
  rewrite count_zip // -Hn -H4 in Hh. set (n := Z.of_nat (length (ta_returns t))) in *.
  pose proof (count_range hit (zip gs samples)) as [Hh0 _]. rewrite -H4 in Hh0.
  destruct (if 0 <? n then _ else _) as [rate|] eqn:Er; [|done]. cbn [mbind result_bind].
  destruct (mean _) as [m|]; [|done]. cbn [mbind result_bind].
  destruct (map_result (check_criterion _ _) _) as [cs|] eqn:Ec; [|done]. cbn [mbind result_bind].
  destruct (fingerprint_samples _ _ _) as [fp|]; [|done]. cbn [mbind result_bind]. intros ->%mk_ValidationResult_id.
  exists gs. split; [done|]. do 6 (split; [cbn; first [done|lia]|]). split; [|split].
  - cbn. destruct (Z.ltb_spec 0 n); [|split; [|lia]; by injection Er as <-]. destruct (ddiv _ _); [|done]. injection Er as <-. split; [lia|done].
  - cbn. intros h ->. destruct (Z.ltb_spec 0 n); [|done]. destruct (ddiv _ _) as [h'|] eqn:Ed; [|done]. injection Er as ->.
    eapply ddiv_ints; [|done|exact Ed]. lia.
  - apply map_result_Forall2 in Ec. cbn [vr_overall_passed]. induction Ec as [|[k j] c criteria cs Hc _ IH]; [done|].
    apply criterion_passes in Hc as (_ & _ & Hc). cbn [forallb]. rewrite andb_true_iff IH Forall_cons Hc. done.
Qed.
End one_pass.

(** ** The folds of walk-forward *)

(** Consecutive intervals of given sizes. *)
Fixpoint intervals (start : nat) (sizes : list nat) : list (nat * nat) :=
  match sizes with [] => [] | k :: sizes => (start, (start + k)%nat) :: intervals (start + k) sizes end.

Lemma fold_intervals n k l : forall start bs,
  (fold_left (fun acc i => let '(start, bs) := acc in
     let size := fold_size n k i in ((start + size)%nat, bs ++ [(start, (start + size)%nat)])) l (start, bs)).2 =
  bs ++ intervals start (map (fold_size n k) l).
Proof. induction l as [|i l IH]; intros start bs; cbn; [by rewrite app_nil_r|]. by rewrite IH -app_assoc. Qed.

Lemma boundaries_intervals n k : _fold_boundaries n k = intervals 0 (map (fold_size n k) (seq 0 k)).
Proof. apply (fold_intervals n k (seq 0 k) 0%nat []). Qed.

Lemma sum_sizes q r l : sum_list (map (fun i => q + if (i <? r)%nat then 1 else 0)%nat l) =
  (length l * q + length (List.filter (fun i => (i <? r)%nat) l))%nat.
Proof. induction l as [|i l IH]; [done|]. cbn [map List.filter length sum_list_with]. rewrite IH. unfold id. destruct (i <? r)%nat; cbn [length]; lia. Qed.

Lemma count_below r k : (r <= k)%nat -> length (List.filter (fun i => (i <? r)%nat) (seq 0 k)) = r.
Proof.
  intros H. replace k with (r + (k - r))%nat by lia. rewrite List.seq_app List.filter_app length_app.
  assert (List.filter (fun i => (i <? r)%nat) (seq 0 r) = seq 0 r) as ->.
  { apply List.forallb_filter_id, forallb_forall. intros x Hx%List.in_seq. apply Nat.ltb_lt. lia. }
  assert (List.filter (fun i => (i <? r)%nat) (seq (0 + r) (k - r)) = []) as ->; [|rewrite List.length_seq; cbn; lia].
  rewrite (List.filter_ext_in _ (fun _ => false)); [|by induction (seq _ _)]. intros x Hx%List.in_seq. apply Nat.ltb_ge. lia.
Qed.

Lemma sizes_total n k : (0 < k)%nat -> sum_list (map (fold_size n k) (seq 0 k)) = n.
Proof.
  intros Hk. unfold fold_size. rewrite sum_sizes List.length_seq count_below; [pose proof (Nat.mod_upper_bound n k); lia|].
  symmetry. apply Nat.div_mod. lia.
Qed.

Lemma slices {A} (l : list A) sizes : forall start, concat (map (fun b => slice b l) (intervals start sizes)) = take (sum_list sizes) (drop start l).
Proof.
  induction sizes as [|k sizes IH]; intros start; [done|]. cbn [intervals map concat sum_list_with]. rewrite IH. unfold slice, id. cbn [fst snd].
  replace (start + k - start)%nat with k by lia. rewrite -drop_drop. change (firstn k (skipn start l)) with (take k (drop start l)).
  apply take_take_drop.
Qed.

Lemma slice_lengths {A} (l : list A) sizes : forall start, (start + sum_list sizes <= length l)%nat ->
  map (fun b => length (slice b l)) (intervals start sizes) = sizes.
Proof.
  induction sizes as [|k sizes IH]; intros start H; [done|]. cbn in *. rewrite IH; [lia|]. f_equal. unfold slice. cbn [fst snd].
  rewrite List.length_firstn List.length_skipn. lia.
Qed.

(** The folds of a list: together they are the list, in order, and none is
    empty or larger than another by more than one. *)
Lemma folds_partition {A} (l : list A) k : (0 < k <= length l)%nat ->
  let folds := map (fun b => slice b l) (_fold_boundaries (length l) k) in
  concat folds = l /\ length folds = k /\ Forall (fun f => f <> []) folds /\
  forall f g, f ∈ folds -> g ∈ folds -> (length f <= S (length g))%nat.
Proof.
  intros Hk folds. unfold folds. rewrite boundaries_intervals.
  pose proof (sizes_total (length l) k ltac:(lia)) as Ht. split; [by rewrite slices Ht drop_0 firstn_all|].
  assert (Hl : map length (map (fun b => slice b l) (intervals 0 (map (fold_size (length l) k) (seq 0 k)))) = map (fold_size (length l) k) (seq 0 k)).
  { rewrite map_map. apply slice_lengths. lia. }
  split. { apply (f_equal length) in Hl. by rewrite !length_map List.length_seq in Hl |- *. }
  assert (Hs : forall f, f ∈ map (fun b => slice b l) (intervals 0 (map (fold_size (length l) k) (seq 0 k))) ->
    (length l / k <= length f <= S (length l / k))%nat).
  { intros f Hf. apply (list_elem_of_fmap_2 length) in Hf. change (length <$> ?x) with (map length x) in Hf. rewrite Hl in Hf.
    apply list_elem_of_fmap in Hf as (i & -> & _). unfold fold_size. destruct (i <? _)%nat; lia. }
  split; [|intros f g Hf%Hs Hg%Hs; lia]. apply Forall_forall. intros f Hf%Hs ->. cbn in Hf.
  assert (1 <= length l / k)%nat; [|lia]. apply Nat.div_le_lower_bound; lia.
Qed.

Lemma mk_WalkForwardResult_id r r' : mk_WalkForwardResult r = Ok r' -> r' = r.
Proof. unfold mk_WalkForwardResult. repeat case_match; congruence. Qed.

Lemma map_result_map {A B C} (f : A -> B) (g : B -> result C) l : map_result (fun x => g (f x)) l = map_result g (map f l).
Proof. induction l as [|x l IH]; [done|]. cbn. by rewrite IH. Qed.

Section walk_forward.
Context (fromisoformat : string -> result (Z * option Z)) (reason_text : reason -> string) (clock : string).

(** The time a feature was computed. *)
Definition computed_at (s : ValidationSample) : result Z := parse_utc fromisoformat (fv_computed_at_utc (vs_feature_value s)).
(** No later than another. *)
Definition no_later (a b : ValidationSample) : Prop := exists t t', computed_at a = Ok t /\ computed_at b = Ok t' /\ t <= t'.

Lemma timed_at s p : timed fromisoformat s = Ok p -> p.2 = s /\ computed_at s = Ok p.1.
Proof.
  unfold timed, timestamp, computed_at. destruct (parse_utc _ _) as [t|[]]; try done. cbn. intros E. by injection E as <-.
Qed.

Lemma Forall2_timed samples ts : Forall2 (fun s p => timed fromisoformat s = Ok p) samples ts ->
  map snd ts = samples /\ Forall (fun p => computed_at p.2 = Ok p.1) ts.
Proof. induction 1 as [|s p l ts [<- Hs]%timed_at _ [<- IH]]; [done|]. split; [done|by constructor]. Qed.

Lemma sorted_samples_spec samples sorted : sorted_samples fromisoformat samples = Ok sorted ->
  sorted ≡ₚ samples /\ StronglySorted no_later sorted.
Proof.
  unfold sorted_samples. destruct (map_result _ _) as [ts|] eqn:Et; [|done]. cbn [mbind result_bind]. intros E. injection E as <-.
  apply map_result_Forall2, Forall2_timed in Et as [<- Ht]. split; [by rewrite sorted_by_perm|].
  assert (Hs : StronglySorted (fun a b => a.1 <=? b.1 = true) (sorted_by (fun a b : Z * ValidationSample => a.1 <=? b.1) ts)).
  { apply Sorted_StronglySorted; [intros a b c H1%Z.leb_le H2%Z.leb_le; apply Z.leb_le; lia|]. apply sorted_by_sorted.
    intros a b. rewrite !Z.leb_le. lia. }
  assert (Ht' : Forall (fun p => computed_at p.2 = Ok p.1) (sorted_by (fun a b : Z * ValidationSample => a.1 <=? b.1) ts)) by by rewrite sorted_by_perm.
  clear - Hs Ht'. induction Hs as [|p l Hs IH Hp]; [constructor|]. apply Forall_cons in Ht' as [H1 Ht']. cbn. constructor; [by apply IH|].
  apply Forall_map, Forall_forall. intros q Hq. exists p.1, q.1. split; [done|]. split; [by apply (proj1 (Forall_forall _ _) Ht')|].
  apply Z.leb_le. by apply (proj1 (Forall_forall _ _) Hp).
Qed.

(** Walk-forward validation cuts the samples, in the order of the times
    their features were computed at, into the folds asked for: consecutive,
    none empty, none larger than another by more than one sample; it validates
    each of them, and passes if and only if every fold does. *)
Theorem walk_forward_folds evaluate_fn spec samples n_folds r :
  run_walk_forward_validation fromisoformat reason_text clock evaluate_fn spec samples n_folds = Ok r ->
  exists sorted folds, sorted ≡ₚ samples /\ StronglySorted no_later sorted /\ concat folds = sorted /\
    Z.of_nat (length folds) = n_folds /\ Forall (fun f => f <> []) folds /\
    (forall f g, f ∈ folds -> g ∈ folds -> (length f <= S (length g))%nat) /\
    Forall2 (fun f v => run_validation fromisoformat reason_text clock evaluate_fn spec f = Ok v) folds (wf_fold_results r) /\
    (wf_overall_passed r = true <-> Forall (fun v => vr_overall_passed v = true) (wf_fold_results r)).
Proof.
  unfold run_walk_forward_validation. destruct (is_nil samples); [done|]. destruct (Z.leb_spec n_folds 0); [done|].
  destruct (Z.ltb_spec (Z.of_nat (length samples)) n_folds); [done|]. destruct (sorted_samples _ _) as [sorted|] eqn:Es; [|done].
  cbn [mbind result_bind]. apply sorted_samples_spec in Es as [Hp Hs]. pose proof (Permutation_length Hp) as Hl.
  rewrite (map_result_map (fun b => slice b sorted)). destruct (map_result _ _) as [rs|] eqn:Er; [|done]. cbn [mbind result_bind].
  destruct (fingerprint_samples _ _ _) as [fp|]; [|done]. cbn [mbind result_bind]. intros ->%mk_WalkForwardResult_id.
  destruct (folds_partition sorted (Z.to_nat n_folds) ltac:(lia)) as (H1 & H2 & H3 & H4).
  exists sorted, (map (fun b => slice b sorted) (_fold_boundaries (length sorted) (Z.to_nat n_folds))).
  split; [done|]. split; [done|]. split; [done|]. split; [lia|]. split; [done|]. split; [done|]. split; [by apply map_result_Forall2|].
  cbn. rewrite forallb_forall Forall_forall. by setoid_rewrite list_elem_of_In.
Qed.

(** ** The causality audit *)

(** A sample whose outcome was observed strictly after its feature was computed. *)
Definition causal (s : ValidationSample) : Prop :=
  exists o t t', vs_outcome_observed_at_utc s = Some o /\ computed_at s = Ok t /\ parse_utc fromisoformat o = Ok t' /\ t < t'.

(** A sample without the time its outcome was observed at. *)
Definition unobserved (s : ValidationSample) : bool := bool_decide (vs_outcome_observed_at_utc s = None).

#[local] Instance causal_dec s : Decision (causal s).
Proof.
  unfold causal. destruct (vs_outcome_observed_at_utc s) as [o|]; [|right; by intros (o & t & t' & E & _)].
  destruct (computed_at s) as [t|]; [|right; by intros (? & t & t' & _ & E & _)].
  destruct (parse_utc fromisoformat o) as [t'|] eqn:Eo; [|right; intros (o' & ? & t' & E & _ & E' & _); injection E as <-; congruence].
  destruct (decide (t < t')); [left; by exists o, t, t'|right; intros (o' & ? & ? & E1 & E2 & E3 & H)].
  injection E1 as <-. injection E2 as <-. rewrite Eo in E3. by injection E3 as <-.
Defined.

Lemma audit_order_counts index a a' s : audit_order fromisoformat index a s = Ok a' ->
  au_verified a' = au_verified a + (if bool_decide (causal s) then 1 else 0) /\
  au_not_verifiable a' = au_not_verifiable a + (if unobserved s then 1 else 0).
Proof.
  unfold audit_order, unobserved. destruct (vs_outcome_observed_at_utc s) as [o|] eqn:Es.
  - unfold timestamp. destruct (parse_utc _ (fv_computed_at_utc _)) as [t|[]] eqn:Et; try done. cbn [mbind result_bind].
    destruct (parse_utc _ o) as [t'|[]] eqn:Et'; try done. cbn [mbind result_bind].
    destruct (Z.ltb_spec t t'); intros E; injection E as <-; cbn; rewrite Z.add_0_r; (split; [|done]).
    + rewrite bool_decide_true; [by exists o, t, t'|done].
    + rewrite bool_decide_false; [|lia]. intros (o1 & t1 & t2 & E1 & E2 & E3 & ?). rewrite Es in E1. injection E1 as <-.
      unfold computed_at in E2. rewrite Et in E2. injection E2 as <-. rewrite Et' in E3. injection E3 as <-. lia.
  - intros E; injection E as <-; cbn. split; [|done].
    rewrite bool_decide_false; [|lia]. intros (o & t & t' & E & _). congruence.
Qed.

Lemma audit_order_spec index a a' s : audit_order fromisoformat index a s = Ok a' ->
  au_seen a' = au_seen a /\ au_duplicates a' = au_duplicates a /\ 0 <= au_violated a' - au_violated a /\ 0 <= au_not_verifiable a' - au_not_verifiable a /\
  au_verified a' + au_violated a' + au_not_verifiable a' = au_verified a + au_violated a + au_not_verifiable a + 1 /\
  (au_violated a' + au_not_verifiable a' = au_violated a + au_not_verifiable a <-> causal s).
Proof.
  unfold audit_order, causal, computed_at. destruct (vs_outcome_observed_at_utc s) as [o|].
  - unfold timestamp. destruct (parse_utc _ (fv_computed_at_utc _)) as [t|[]]; try done. cbn [mbind result_bind].
    destruct (parse_utc _ o) as [t'|[]] eqn:Et'; try done. cbn [mbind result_bind].
    destruct (Z.ltb_spec t t'); intros E; injection E as <-; cbn; (do 5 (split; [lia || done|])).
    + split; [|lia]. intros _. by exists o, t, t'.
    + split; [lia|]. intros (o1 & t1 & t2 & E1 & E2 & E3 & ?). injection E1 as <-. injection E2 as <-. rewrite Et' in E3. injection E3 as <-. lia.
  - intros E; injection E as <-; cbn; (do 5 (split; [lia || done|])). split; [lia|]. by intros (o1 & t1 & t2 & E1 & _).
Qed.

Lemma audit_key_spec index a k : let a' := audit_key index a k in
  au_verified a' = au_verified a /\ au_violated a' = au_violated a /\ au_not_verifiable a' = au_not_verifiable a /\
  (k ∈ au_seen a /\ au_seen a' = au_seen a /\ au_duplicates a' = au_duplicates a + 1 \/
   k ∉ au_seen a /\ au_seen a' = k :: au_seen a /\ au_duplicates a' = au_duplicates a).
Proof. unfold audit_key. case_bool_decide; cbn; do 3 (split; [done|]); [left|right]; done. Qed.

(** What the loop keeps, against the samples it has seen. *)
Lemma audit_loop samples : forall a a' index, fold_result (audit_sample fromisoformat) a (enumerate index samples) = Ok a' ->
  0 <= au_duplicates a' - au_duplicates a /\ 0 <= au_violated a' - au_violated a /\ 0 <= au_not_verifiable a' - au_not_verifiable a /\
  au_verified a' + au_violated a' + au_not_verifiable a' = au_verified a + au_violated a + au_not_verifiable a + Z.of_nat (length samples) /\
  Z.of_nat (length (au_seen a')) + au_duplicates a' = Z.of_nat (length (au_seen a)) + au_duplicates a + Z.of_nat (length samples) /\
  (au_violated a' + au_not_verifiable a' = au_violated a + au_not_verifiable a <-> Forall causal samples) /\
  (au_duplicates a' = au_duplicates a <-> NoDup (map sample_key samples) /\ Forall (fun s => sample_key s ∉ au_seen a) samples).
Proof.
  induction samples as [|s samples IH]; intros a a' index E.
  { cbn in E. injection E as <-. cbn. do 5 (split; [lia|]). split; [by split|]. split; [split; constructor|done]. }
  cbn [enumerate fold_result] in E. unfold audit_sample at 1 in E. cbn [fst snd] in E.
  destruct (audit_order _ _ _ _) as [a1|] eqn:Eo; [|done]. destruct (IH _ _ _ E) as (D1 & V1 & N1 & T1 & S1 & C1 & K1).
  apply audit_order_spec in Eo as (O1 & O2 & O3 & O4 & O5 & O6).
  destruct (audit_key_spec index a (sample_key s)) as (A1 & A2 & A3 & A4). rewrite A1 in O5. rewrite A2 A3 in O5 O6. rewrite A2 in O3. rewrite A3 in O4.
  cbn [length map]. rewrite O2 in D1 S1 K1.
  assert (Hd : au_duplicates a <= au_duplicates (audit_key index a (sample_key s)) <= au_duplicates a') by (destruct A4 as [(_ & _ & ?)|(_ & _ & ?)]; lia).
  split; [lia|]. split; [lia|]. split; [lia|]. split; [lia|].
  split. { rewrite O1 in S1. destruct A4 as [(_ & E1 & E2)|(_ & E1 & E2)]; rewrite E1 E2 in S1; cbn [length] in S1; lia. }
  split. { rewrite Forall_cons -O6 -C1. lia. }
  rewrite NoDup_cons Forall_cons. destruct A4 as [(Hin & E1 & E2)|(Hin & E1 & E2)].
  - split; [|by intros (_ & ? & _)]. intros H. lia.
  - rewrite E2 in K1. rewrite K1 O1 E1. setoid_rewrite not_elem_of_cons. rewrite Forall_and. split.
    + intros (H1 & H2 & H3). split; [|done]. split; [|done]. intros (x & Hx & Hxs)%list_elem_of_fmap.
      by apply (proj1 (Forall_forall _ _) H2 x Hxs).
    + intros ((H1 & H2) & H3 & H4). split_and!; [done| |done]. apply Forall_forall. intros x Hx He. apply H1. rewrite -He. by apply list_elem_of_fmap_2.
Qed.

(** The counts of the loop and the keys it has seen. *)
Lemma audit_counts samples : forall a a' index, fold_result (audit_sample fromisoformat) a (enumerate index samples) = Ok a' ->
  au_verified a' = au_verified a + count (fun s => bool_decide (causal s)) samples /\
  au_not_verifiable a' = au_not_verifiable a + count unobserved samples /\
  (NoDup (au_seen a) -> NoDup (au_seen a')) /\
  (forall k, k ∈ au_seen a' <-> k ∈ au_seen a \/ k ∈ map sample_key samples).
Proof.
  induction samples as [|s samples IH]; intros a a' index E.
  { cbn in E. injection E as <-. rewrite !Z.add_0_r. split_and!; [done..|]. intros k. rewrite elem_of_nil. tauto. }
  cbn [enumerate fold_result] in E. unfold audit_sample at 1 in E. cbn [fst snd] in E.
  destruct (audit_order _ _ _ _) as [a1|] eqn:Eo; [|done]. destruct (IH _ _ _ E) as (V1 & N1 & U1 & S1).
  pose proof (audit_order_counts _ _ _ _ Eo) as [V2 N2]. apply audit_order_spec in Eo as (O1 & _).
  destruct (audit_key_spec index a (sample_key s)) as (A1 & _ & A3 & A4). rewrite !count_cons. cbn [map].
  split; [lia|]. split; [lia|]. setoid_rewrite elem_of_cons.
  destruct A4 as [(Hin & E1 & _)|(Hin & E1 & _)]; rewrite O1 E1 in U1 S1.
  - split; [done|]. intros k. rewrite S1. split; [naive_solver|]. intros [?|[->|?]]; tauto.
  - split; [intros H; apply U1; by constructor|]. intros k. rewrite S1 elem_of_cons. tauto.
Qed.

Lemma mk_CausalityAuditResult_id r r' : mk_CausalityAuditResult r = Ok r' -> r' = r.
Proof. unfold mk_CausalityAuditResult. repeat case_match; congruence. Qed.

(** A sample whose feature carries the canonical form of an instant. *)
Definition taken_at (s : ValidationSample) (t : Z) : Prop :=
  fv_computed_at_utc (vs_feature_value s) = isoformat_utc t /\ computed_at s = Ok t.
(** The data points of samples: the symbol and the instant of each. *)
Definition data_points (samples : list ValidationSample) (instants : list Z) : list (string * Z) :=
  zip (map (fun s => sym_value (fv_symbol (vs_feature_value s))) samples) instants.

(** The data point a key stands for. *)
Definition point_of (k : string * string) : string * Z :=
  (k.1, match parse_utc fromisoformat k.2 with Ok t => t | Err _ => 0 end).

Lemma taken_points samples instants : Forall2 taken_at samples instants ->
  map point_of (map sample_key samples) = data_points samples instants /\
  Forall (fun k => k = ((point_of k).1, isoformat_utc (point_of k).2)) (map sample_key samples).
Proof.
  induction 1 as [|s t samples instants [Hc Ht] _ [IH1 IH2]]; [by split; [|constructor]|].
  unfold computed_at in Ht. unfold data_points in *. cbn [map zip_with].
  assert (Hp : point_of (sample_key s) = (sym_value (fv_symbol (vs_feature_value s)), t)) by (unfold point_of; cbn; by rewrite Ht).
  rewrite IH1 Forall_cons Hp. split; [done|]. split; [|done]. cbn [fst snd]. by rewrite -Hc.
Qed.

Lemma points_nodup (ks : list (string * string)) :
  Forall (fun k => k = ((point_of k).1, isoformat_utc (point_of k).2)) ks -> NoDup (map point_of ks) <-> NoDup ks.
Proof.
  intros H. split; [apply NoDup_fmap_1|]. intros Hn. apply NoDup_fmap_2_strong; [|done].
  intros x y Hx Hy E. rewrite ((proj1 (Forall_forall _ _) H) x Hx) ((proj1 (Forall_forall _ _) H) y Hy). by rewrite E.
Qed.

(** C32: the causality audit of samples whose times are in canonical form
    passes if and only if no two of them are of the same symbol at the same
    instant and every outcome was observed strictly after its feature was
    computed. Its counts are exact either way: the unique keys are the
    different pairs of a symbol and an instant and the duplicates the other
    samples, the verified orderings are those of the samples with such an
    outcome, the not verifiable ones those of the samples without an outcome
    time, and the violated ones the rest. *)
Theorem audit_exact samples instants r : Forall2 taken_at samples instants ->
  run_causality_audit fromisoformat clock samples = Ok r ->
  (ca_passed r = true <-> NoDup (data_points samples instants) /\ Forall causal samples) /\
  ca_unique_sample_keys r = Z.of_nat (size (list_to_set (data_points samples instants) : gset (string * Z))) /\
  ca_unique_sample_keys r + ca_duplicate_samples r = Z.of_nat (length samples) /\
  ca_ordering_verified r = count (fun s => bool_decide (causal s)) samples /\
  ca_ordering_not_verifiable r = count unobserved samples /\
  ca_ordering_verified r + ca_ordering_violated r + ca_ordering_not_verifiable r = Z.of_nat (length samples) /\
  ca_total_samples r = Z.of_nat (length samples).
Proof.
  intros [Hp Hk]%taken_points. rewrite -Hp points_nodup //.
  unfold run_causality_audit. destruct (is_nil samples); [done|]. destruct (fold_result _ _ _) as [a|] eqn:Ea; [|done].
  cbn [mbind result_bind]. intros ->%mk_CausalityAuditResult_id. pose proof (audit_counts _ _ _ _ Ea) as (V' & N' & U' & S').
  apply audit_loop in Ea as (D & V & N & T & U & C & K). cbn in *.
  split; [|split; [|lia]].
  - unfold audit_clean. rewrite !andb_true_iff !Z.eqb_eq. rewrite Z.sub_0_r in D V N. rewrite -C. split.
    + intros ((H1 & H2) & H3). split; [by apply K in H1 as [? _]|lia].
    + intros (H1 & H2). assert (Hd : au_duplicates a = 0); [|lia]. apply K. split; [done|].
      apply Forall_forall. by intros x _ ?%elem_of_nil.
  - assert (Hs : forall k, k ∈ au_seen a <-> k ∈ map sample_key samples) by (intros k; rewrite S' elem_of_nil; tauto).
    assert (Hf : Forall (fun k => k = ((point_of k).1, isoformat_utc (point_of k).2)) (au_seen a)).
    { apply Forall_forall. intros k Hin%Hs. by apply (proj1 (Forall_forall _ _) Hk). }
    assert (E : list_to_set (map point_of (map sample_key samples)) =@{gset (string * Z)} list_to_set (map point_of (au_seen a))).
    { apply set_eq. intros p. rewrite !elem_of_list_to_set !list_elem_of_fmap. by setoid_rewrite Hs. }
    rewrite E size_list_to_set; [|by rewrite length_map]. apply points_nodup; [done|]. apply U'. constructor.
Qed.
End walk_forward.

(** ** The percentile rank *)

Lemma half_exact k : 0 <= k < 10 ^ 27 -> exists h, ddiv (dint k) (dint 2) = Ok h /\ (value h == inject_Z k * (1 # 2))%Q.
Proof.
  intros Hk. destruct (Z.eq_dec k 0) as [->|Hk0]; [by eexists|]. unfold ddiv, dint. cbn [dcoef dexp].
  destruct (Z.eqb_spec 2 0) as [|_]; [done|]. destruct (Z.eqb_spec k 0) as [|_]; [done|]. change (ndigits 2) with 1.
  assert (Hd : 1 <= ndigits k <= 27) by (split; [apply ndigits_ge1|apply ndigits_le; lia]).
  set (shift := 1 - ndigits k + prec + 1). assert (Hs : 1 <= shift) by (unfold shift, prec; lia).
  rewrite (proj2 (Z.leb_le 0 shift)); [lia|]. change (Z.abs 2) with 2. rewrite (Z.abs_eq k); [lia|]. rewrite (Z.sgn_pos k); [lia|]. change (Z.sgn 2) with 1.
  assert (E10 : 10 ^ shift = 2 * (5 * 10 ^ (shift - 1))) by (rewrite Z.mul_assoc -Z.pow_succ_r; [lia|]; f_equal; lia).
  assert (Hm : (k * 10 ^ shift) mod 2 = 0) by (rewrite E10; replace (k * (2 * (5 * 10 ^ (shift - 1)))) with (k * (5 * 10 ^ (shift - 1)) * 2) by ring; by apply Z.mod_mul).
  rewrite Hm Z.eqb_refl. eexists. split; [done|].
  assert (Hv : (inject_Z (1 * 1 * (k * 10 ^ shift / 2)) * p10 (0 - 0 - shift) == inject_Z k * (1 # 2))%Q).
  { replace (1 * 1 * (k * 10 ^ shift / 2)) with (5 * k * 10 ^ (shift - 1)); last first.
    { rewrite E10. replace (k * (2 * (5 * 10 ^ (shift - 1)))) with (k * (5 * 10 ^ (shift - 1)) * 2) by ring. rewrite Z.div_mul //. ring. }
    rewrite inject_Z_mult -Qmult_assoc -p10_Z; [lia|]. rewrite -p10_plus. replace (shift - 1 + (0 - 0 - shift)) with (-1) by lia.
    rewrite inject_Z_mult. assert (p10 (-1) == 1 # 10)%Q as -> by by vm_compute. unfold inject_Z at 1. field. }
  rewrite dfix_exact; rewrite strip_zeros_value; unfold value; cbn [dcoef dexp]; last exact Hv.
  rewrite Hv. exists (5 * k), (-1). split; [unfold prec; lia|]. rewrite inject_Z_mult. assert (p10 (-1) == 1 # 10)%Q as -> by by vm_compute.
  unfold inject_Z at 2. field.
Qed.

Lemma below_equal (window : list decimal) c : count (fun v => dltb v c) window + count (fun v => deqb v c) window <= Z.of_nat (length window).
Proof.
  induction window as [|v l IH]; [done|]. rewrite !count_cons. cbn [length].
  assert (~ (dltb v c = true /\ deqb v c = true)) by (rewrite dltb_spec deqb_spec; intros [H1 H2]; rewrite H2 in H1; by apply Qlt_irrefl in H1).
  destruct (dltb v c), (deqb v c); lia.
Qed.

(** The centered percentile rank exists for every nonempty window, and lies
    between -0.5 and 0.5, rounding included. *)
Lemma percentile_range window current : Z.of_nat (length window) < 10 ^ 26 ->
  match percentile_rank_centered window current with
  | Ok None => window = []
  | Ok (Some r) => window <> [] /\ (- (1 # 2) <= value r /\ value r <= 1 # 2)%Q
  | Err _ => False
  end.
Proof.
  intros Hn. destruct window as [|w l] eqn:Ew; [done|]. rewrite -Ew in Hn |- *. assert (Hne : window <> []) by by rewrite Ew.
  assert (Hp : percentile_rank_centered window current =
    (half ← ddiv (dint (count (fun v => deqb v current) window)) (dint 2);
     rank ← ddiv (dadd (dint (count (fun v => dltb v current) window)) half) (dint (Z.of_nat (length window)));
     Ok (Some (dsub rank (Dec 5 (-1)))))) by by rewrite Ew.
  rewrite Hp. pose proof (below_equal window current) as Hbe. pose proof (count_range (fun v => dltb v current) window).
  pose proof (count_range (fun v => deqb v current) window). set (b := count _ _) in *. set (e := count (fun v => deqb v current) _) in *.
  assert (Hl : 0 < Z.of_nat (length window)) by (rewrite Ew; cbn [length]; lia).
  destruct (half_exact e) as (h & -> & Hh); [lia|]. cbn [mbind result_bind].
  assert (Hx : (value (dadd (dint b) h) == inject_Z b + inject_Z e * (1 # 2))%Q).
  { rewrite dadd_value; rewrite value_dint Hh; [|done]. exists (10 * b + 5 * e), (-1). split; [unfold prec; lia|].
    assert (p10 (-1) == 1 # 10)%Q as -> by by vm_compute. rewrite inject_Z_plus !inject_Z_mult. unfold inject_Z at 3. unfold inject_Z at 4. field. }
  assert (Hb0 : (0 <= inject_Z b)%Q) by (rewrite -(Zle_Qle 0); lia). assert (He0 : (0 <= inject_Z e)%Q) by (rewrite -(Zle_Qle 0); lia).
  assert (Hsum : (inject_Z b + inject_Z e <= inject_Z (Z.of_nat (length window)))%Q) by (rewrite -inject_Z_plus -Zle_Qle; lia).
  assert (Hl' : (0 < inject_Z (Z.of_nat (length window)))%Q) by (rewrite -(Zlt_Qlt 0); lia).
  destruct (ddiv_Ok (dadd (dint b) h) (dint (Z.of_nat (length window)))) as (q & Eq); [by rewrite value_dint|]. rewrite Eq. cbn [mbind result_bind].
  destruct (ddiv_unit (dadd (dint b) h) (dint (Z.of_nat (length window))) q ltac:(rewrite Hx; lra) ltac:(rewrite Hx value_dint; lra) ltac:(by rewrite value_dint) Eq) as [Hq0 Hq1].
  assert (Ehalf : (value (Dec 5 (-1)) == 1 # 2)%Q) by by vm_compute.
  assert (Hf : fits (1 # 2)) by (exists 5, (-1); by vm_compute). assert (Hf' : fits (- (1 # 2))) by (exists (-5), (-1); by vm_compute).
  split; [done|]. split; [apply dsub_ge|apply dsub_le]; rewrite ?Ehalf //; lra.
Qed.
