(* ===== verification/ResearchSpec.v ===== *)
(** * From research to governance

    What a successful cycle leaves in the registry, what a recorded decision
    was made on, and what a freeze takes out of production. *)

From Stdlib Require Import ssreflect ZArith Lia Ascii String.
From stdpp Require Import base strings numbers gmap sets list.
From S2P Require Import Prelude PyText PyDict PyBytes PyJson PySort PyLines PyDecimal PyDecimalFacts Payload EventStoreFacts ExchangeModels.
From S2P Require Import RegistryLog Registry RegistrySpec RegistryRuns RegistryLineage AlphaModels Validation Research Bridge BridgeSpec.
#[local] Open Scope Z_scope.

Section over_storage.
Context {T : Type} `{RegistryStorage T}.
Notation W := (T * Records)%type.

(** ** What each call of the registry writes *)

Lemma write_ok (w w' : W) e id x r : (append_entry e;; put_record id x;; the_snapshot id) w = (w', Ok r) ->
  w'.2 = dset id x w.2 /\ snapshot_of id x = Ok r.
Proof.
  rewrite append_run. destruct (rs_append e w.1) as [t [[]|err]]; [|done]. unfold the_snapshot, _snapshot. cbn.
  rewrite dget_dset_eq. cbn. intros E. by injection E as <- <-.
Qed.

Lemma create_ok id spec parent now (w w' : W) r : create id spec parent now w = (w', Ok r) ->
  din id w.2 = false /\ w'.2 = dset id (new_experiment (_fingerprint spec) parent spec now) w.2 /\ is_mapping spec = true.
Proof.
  unfold create. destruct (blank id); [done|]. destruct (is_mapping spec); [|done]. cbn [negb].
  destruct parent as [p|]; [destruct (blank p); [done|]|]; rewrite run_get; (destruct (din id w.2); [done|]);
    [destruct (negb (din p w.2)); [done|]|]; by intros [E _]%write_ok.
Qed.

Lemma seal_ok id now (w w' : W) r : seal id now w = (w', Ok r) ->
  exists x, dget id w.2 = Some x /\ w'.2 = dset id (set_sealed now x) w.2.
Proof.
  unfold seal. destruct (blank id); [done|]. rewrite the_record_run. destruct (dget id w.2) as [x|]; [|done]. destruct (x_sealed x); [done|].
  intros [E _]%write_ok. by exists x.
Qed.

Lemma attach_ok id ev fp (w w' : W) r : attach_evidence id ev fp w = (w', Ok r) ->
  exists x, dget id w.2 = Some x /\ w'.2 = dset id (set_evidence ev fp x) w.2 /\ x_evidence x = None /\ nonempty_mapping ev = true.
Proof.
  unfold attach_evidence. destruct (_ || _); [done|]. destruct (nonempty_mapping ev); [|done]. cbn [negb]. rewrite the_record_run.
  destruct (dget id w.2) as [x|]; [|done]. destruct (negb _); [done|]. case_bool_decide as He; [done|].
  intros [E _]%write_ok. exists x. by rewrite eq_None_not_Some.
Qed.

Lemma locked_ok id x to_state now (w w' : W) r : _transition_locked id x to_state now w = (w', Ok r) ->
  w'.2 = dset id (set_state to_state x) w.2.
Proof.
  unfold _transition_locked. destruct (negb _); [done|]. destruct (_ && _); [done|]. by intros [E _]%write_ok.
Qed.

Lemma moved_ok id to_state now (w w' : W) r : Registry.transition id to_state now w = (w', Ok r) ->
  exists x, dget id w.2 = Some x /\ w'.2 = dset id (set_state to_state x) w.2 /\ GOVERNANCE_DECISION_STATES to_state = false.
Proof.
  unfold Registry.transition. rewrite the_record_run. destruct (dget id w.2) as [x|]; [|done].
  destruct (GOVERNANCE_DECISION_STATES to_state); [done|]. intros E%locked_ok. by exists x.
Qed.

Lemma decide_ok id d to_state now (w w' : W) r : apply_governance_decision id d to_state now w = (w', Ok r) ->
  exists x, dget id w.2 = Some x /\ x_lifecycle_state x = LifecycleState.IN_REVIEW /\ x_governance_decision x = None /\
    w'.2 = dset id (set_state to_state (set_decision d x)) (dset id (set_decision d x) w.2) /\ nonempty_mapping d = true.
Proof.
  unfold apply_governance_decision. destruct (negb _); [done|]. destruct (nonempty_mapping d); [|done]. cbn [negb]. rewrite the_record_run.
  destruct (dget id w.2) as [x|]; [|done]. case_bool_decide as Hs; [|done]. cbn [negb].
  case_bool_decide as Hd; [done|]. apply eq_None_not_Some in Hd. rewrite append_run.
  destruct (rs_append _ _) as [t [[]|err]]; [|done]. intros E%locked_ok. exists x. done.
Qed.

(** ** The research cycle *)

Section cycle.
Context (fromisoformat : string -> result (Z * option Z)) (reason_text : reason -> string) (clock : string)
  (randrange : Z -> nat -> nat -> nat).

Lemma mk_EvidencePackage_id p p' : mk_EvidencePackage p = Ok p' -> p' = p.
Proof. unfold mk_EvidencePackage. repeat case_match; congruence. Qed.

Lemma with_stage_ok stage j p p' : with_stage_result clock stage j p = Ok p' ->
  din stage (ep_validation_results p) = false /\ ep_validation_results p' = dset stage j (ep_validation_results p) /\
  ep_candidate_specification p' = ep_candidate_specification p /\ ep_known_limitations p' = ep_known_limitations p /\
  ep_fingerprint p' = evidence_fingerprint (ep_candidate_specification p') (ep_validation_results p') (ep_known_limitations p').
Proof.
  unfold with_stage_result. destruct (blank stage); [done|]. destruct (din _ _); [done|]. destruct (negb _); [done|].
  by intros ->%mk_EvidencePackage_id.
Qed.

(** The results of the five stages, in order. *)
Definition stage_results (single : ValidationResult) (causality : CausalityAuditResult) (walk_forward : WalkForwardResult)
    (bootstrap : BootstrapResult) (regime : RegimeStratificationResult) : list (string * json) :=
  [(STAGE_SINGLE_PASS, result_dict single); (STAGE_CAUSALITY, causality_dict causality); (STAGE_WALK_FORWARD, walk_forward_dict walk_forward);
   (STAGE_BOOTSTRAP, bootstrap_dict bootstrap); (STAGE_REGIME, regime_dict regime)].

Lemma run_stages_ok evaluate_fn spec samples n_folds n_resamples seed limits pkg flags :
  run_stages fromisoformat reason_text clock randrange evaluate_fn spec samples n_folds n_resamples seed limits = Ok (pkg, flags) ->
  exists single causality walk_forward bootstrap regime,
    run_validation fromisoformat reason_text clock evaluate_fn spec samples = Ok single /\
    run_causality_audit fromisoformat clock samples = Ok causality /\
    run_walk_forward_validation fromisoformat reason_text clock evaluate_fn spec samples n_folds = Ok walk_forward /\
    run_bootstrap_resampling fromisoformat reason_text clock randrange evaluate_fn spec samples n_resamples seed = Ok bootstrap /\
    run_regime_stratified_validation fromisoformat reason_text clock evaluate_fn spec samples = Ok regime /\
    ep_validation_results pkg = stage_results single causality walk_forward bootstrap regime /\
    JObj (ep_candidate_specification pkg) = to_specification_dict spec /\ ep_known_limitations pkg = limits /\
    ep_fingerprint pkg = evidence_fingerprint (ep_candidate_specification pkg) (ep_validation_results pkg) limits /\
    flags = [(STAGE_SINGLE_PASS, Some (vr_overall_passed single)); (STAGE_CAUSALITY, Some (ca_passed causality));
             (STAGE_WALK_FORWARD, Some (wf_overall_passed walk_forward)); (STAGE_BOOTSTRAP, None);
             (STAGE_REGIME, Some (rs_overall_passed regime))].
Proof.
  unfold run_stages. intros E.
  destruct (run_validation _ _ _ _ _ _) as [single|] eqn:E1; [|done]. cbn [mbind result_bind] in E.
  destruct (run_causality_audit _ _ _) as [causality|] eqn:E2; [|done]. cbn [mbind result_bind] in E.
  destruct (run_walk_forward_validation _ _ _ _ _ _ _) as [walk_forward|] eqn:E3; [|done]. cbn [mbind result_bind] in E.
  destruct (run_bootstrap_resampling _ _ _ _ _ _ _ _ _) as [bootstrap|] eqn:E4; [|done]. cbn [mbind result_bind] in E.
  destruct (run_regime_stratified_validation _ _ _ _ _ _) as [regime|] eqn:E5; [|done]. cbn [mbind result_bind] in E.
  destruct (evidence_package_from_validation_result _ _ _ _ _) as [p0|] eqn:P0; [|done]. cbn [mbind result_bind] in E.
  destruct (with_stage_result _ STAGE_CAUSALITY _ _) as [p1|] eqn:P1; [|done]. cbn [mbind result_bind] in E.
  destruct (with_stage_result _ STAGE_WALK_FORWARD _ _) as [p2|] eqn:P2; [|done]. cbn [mbind result_bind] in E.
  destruct (with_stage_result _ STAGE_BOOTSTRAP _ _) as [p3|] eqn:P3; [|done]. cbn [mbind result_bind] in E.
  destruct (with_stage_result _ STAGE_REGIME _ _) as [p4|] eqn:P4; [|done]. cbn [mbind result_bind] in E. injection E as <- <-.
  apply mk_EvidencePackage_id in P0. apply with_stage_ok in P1 as (_ & R1 & S1 & L1 & _). apply with_stage_ok in P2 as (_ & R2 & S2 & L2 & _).
  apply with_stage_ok in P3 as (_ & R3 & S3 & L3 & _). apply with_stage_ok in P4 as (_ & R4 & S4 & L4 & F4).
  exists single, causality, walk_forward, bootstrap, regime.
  rewrite F4 L4 R4 S4 L3 R3 S3 L2 R2 S2 L1 R1 S1 P0. do 5 (split; [done|]). repeat (split; [reflexivity|]). reflexivity.
Qed.

(** A research cycle that returns has registered a new experiment with the
    specification, sealed it before any stage ran, and left it with its evidence
    sealed and no decision: the evidence is the package of the five stages'
    results on the samples, and its recorded fingerprint is the hash of the
    specification, the results and the limitations. No other experiment changes. *)
Theorem research_cycle_seals now family id spec samples n_folds n_resamples seed limits parent watchlist (w w' : W) res :
  run_research_cycle fromisoformat reason_text clock randrange now family id spec samples n_folds n_resamples seed limits parent watchlist w
    = (w', Ok res) ->
  exists entry x, get_candidate_type family = Ok entry /\ cs_name spec = ce_name entry /\ outside watchlist (cs_universe spec) = [] /\
    run_stages fromisoformat reason_text clock randrange (ce_evaluate_fn entry) spec samples n_folds n_resamples seed limits
      = Ok (rc_package res, rc_stage_passed res) /\
    din id w.2 = false /\ dget id w'.2 = Some x /\
    x_specification x = to_specification_dict spec /\ x_parent_id x = parent /\ x_sealed x = true /\
    x_evidence x = Some (package_dict (rc_package res)) /\
    x_evidence_fingerprint x = Some (evidence_fingerprint (fields (to_specification_dict spec)) (ep_validation_results (rc_package res)) limits) /\
    x_lifecycle_state x = LifecycleState.EVIDENCE_SEALED /\ x_governance_decision x = None /\
    (forall id', id' <> id -> dget id' w'.2 = dget id' w.2).
Proof.
  unfold run_research_cycle. intros E. rewrite run_lift in E. destruct (get_candidate_type family) as [entry|]; [|done].
  destruct (String.eqb_spec (cs_name spec) (ce_name entry)) as [Hname|]; [|done]. cbn [negb] in E.
  destruct (outside watchlist (cs_universe spec)) eqn:Hout; [|done]. cbn [is_nil negb] in E.
  apply bind_ok in E as (w1 & r1 & (Hnew & E1 & _)%create_ok & E). apply bind_ok in E as (w2 & r2 & (x2 & Hx2 & E2)%seal_ok & E).
  apply bind_ok in E as (w3 & r3 & (x3 & Hx3 & E3 & _)%moved_ok & E). rewrite run_lift in E.
  destruct (run_stages _ _ _ _ _ _ _ _ _ _ _) as [[pkg flags]|] eqn:Er; [|done]. apply bind_ok in E as (w4 & r4 & E4 & E).
  unfold attach_evidence_package in E4. apply bind_ok in E4 as (w3' & rec & Eq & E4). unfold query in Eq. injection Eq as <- _.
  destruct (negb _); [done|]. apply attach_ok in E4 as (x4 & Hx4 & E4 & _ & _).
  apply bind_ok in E as (w5 & r5 & (x5 & Hx5 & E5 & _)%moved_ok & E). injection E as <- <-.
  rewrite E1 dget_dset_eq in Hx2. injection Hx2 as <-. rewrite E2 dget_dset_eq in Hx3. injection Hx3 as <-.
  rewrite E3 dget_dset_eq in Hx4. injection Hx4 as <-. rewrite E4 dget_dset_eq in Hx5. injection Hx5 as <-.
  exists entry. eexists. split; [done|]. split; [done|]. split; [done|]. split; [done|]. split; [done|]. rewrite E5 dget_dset_eq. split; [reflexivity|].
  apply run_stages_ok in Er as (sg & ca & wf & bs & rg & _ & _ & _ & _ & _ & _ & Hspec & _ & Hfp & _). cbn [fst].
  do 4 (split; [reflexivity|]). split; [change (Some (ep_fingerprint pkg) = Some (evidence_fingerprint (fields (to_specification_dict spec)) (ep_validation_results pkg) limits));
    rewrite Hfp -Hspec; reflexivity|]. split; [reflexivity|]. split; [reflexivity|].
  intros id' Hne. by rewrite E4 E3 E2 E1 !dget_dset_ne.
Qed.
End cycle.

(** ** Decisions *)

(** C33: a recorded governance decision was reviewed by someone other than its
    proposer, on an experiment in review with no earlier decision, and on the
    very evidence its fingerprint names; it takes the experiment to the state of
    the decision, stores it, and changes nothing else. *)
Theorem decision_recorded decision now (w w' : W) r :
  mk_GovernanceDecision decision = Ok decision -> record_governance_decision decision now w = (w', Ok r) ->
  strip (gd_proposed_by decision) <> strip (gd_reviewed_by decision) /\
  exists x, dget (gd_experiment_id decision) w.2 = Some x /\ x_lifecycle_state x = LifecycleState.IN_REVIEW /\
    x_governance_decision x = None /\ x_evidence_fingerprint x = Some (gd_evidence_fingerprint decision) /\
    dget (gd_experiment_id decision) w'.2 = Some (set_state (resulting_state decision) (set_decision (decision_dict decision) x)) /\
    forall id', id' <> gd_experiment_id decision -> dget id' w'.2 = dget id' w.2.
Proof.
  intros Hd E. split.
  { unfold mk_GovernanceDecision in Hd. destruct (existsb _ _); [done|]. by destruct (String.eqb_spec (strip (gd_proposed_by decision)) (strip (gd_reviewed_by decision))). }
  unfold record_governance_decision in E. apply bind_ok in E as (w1 & record & Eq & E). unfold query in Eq. injection Eq as <- Eq.
  case_bool_decide as Hs; [|done]. case_bool_decide as Hf; [|done]. cbn [negb] in E. apply decide_ok in E as (x & Hx & Hst & Hn & E & _).
  exists x.
  assert (Hfp : er_evidence_fingerprint record = x_evidence_fingerprint x).
  { unfold registry_get in Eq. rewrite Hx in Eq. by apply snapshot_of_fields in Eq as (_ & _ & _ & ?). }
  split; [done|]. split; [done|]. split; [done|]. split; [congruence|]. split; [by rewrite E dget_dset_eq|].
  intros id' Hne. by rewrite E !dget_dset_ne.
Qed.

(** ** Degradation *)

(** An assessment is a degradation exactly when the recent validation did
    not pass, and freezing on it takes the experiment out of what is approved,
    whatever else is. *)
Theorem frozen_not_approved fromisoformat record recent clock now assessment (w w' : W) r :
  reg_reach w -> assess_degradation record recent clock = Ok assessment ->
  da_degraded assessment = negb (vr_overall_passed recent) /\
  (freeze_degraded assessment now w = (w', Ok r) ->
    vr_overall_passed recent = false /\
    (exists x, dget (er_experiment_id record) w.2 = Some x /\ dget (er_experiment_id record) w'.2 = Some (set_state LifecycleState.FROZEN x)) /\
    forall rs, approved_experiments fromisoformat w'.2 = Ok rs -> er_experiment_id record ∉ map er_experiment_id rs).
Proof.
  intros Hw Ha. assert (Hda : da_experiment_id assessment = er_experiment_id record /\ da_degraded assessment = negb (vr_overall_passed recent)).
  { unfold assess_degradation in Ha. destruct (negb _); [done|]. destruct (negb _); [done|]. unfold mk_DegradationAssessment in Ha.
    destruct (vr_overall_passed recent); repeat case_match; try done; by injection Ha as <-. }
  destruct Hda as [Hid Hd]. split; [done|]. unfold freeze_degraded. rewrite Hd Hid. destruct (vr_overall_passed recent); [done|]. cbn [negb].
  intros (x & Hx & E & _)%moved_ok. split; [done|]. split; [exists x; by rewrite E dget_dset_eq|].
  intros rs Hrs Hin. apply list_elem_of_fmap in Hin as (a & Ea & Hin). rewrite E in Hrs.
  destruct (approved_spec _ _ _ _ Hrs Hin) as (id & y & Hy & Hg & _ & Eid).
  - apply dset_NoDup. by destruct (reach_forest w Hw).
  - rewrite -Eid -Ea dget_dset_eq in Hy. by injection Hy as <-.
Qed.
End over_storage.
