(* ===== verification/ResearchRuns.v ===== *)
(** * Concrete runs of research, governance and trading

    Two samples of a funding rule and a bootstrap that its own result refuses;
    an experiment proposed, sealed, reviewed and approved in a registry on a
    file, the strategy on it buying in the sample engine; a research cycle, its
    decision and a freeze. *)

From Stdlib Require Import ssreflect ZArith Lia Ascii String QArith Sorting.Sorted.
From stdpp Require Import base strings numbers gmap sets list relations.
From S2P Require MockExchange PositionManager PortfolioManager.
From S2P Require Import Prelude PyText PyDict PyJson PyDecimal PyDecimalFacts PyFloat EventStore EventLog ExchangeModels ExchangeAdapter OrderStates OrderManager PositionStates.
From S2P Require Import Quantization RiskManager RiskManagerSpec Sizing Execution Construction Engine TradingCycle Accounting TradingCycleSpec EngineRestart RegistryLog Registry RegistrySpec.
From S2P Require Import RegistryRuns AlphaModels Validation Research Bridge BridgeSpec BridgeFacts ValidationSpec ResearchSpec.
#[local] Open Scope Z_scope.

(** ** From proposal to order *)

Definition funding_spec (version : string) (parameters : list (string * json)) : CandidateSpecification :=
  {| cs_name := "funding_rate_threshold_rule"; cs_version := version; cs_candidate_type := "rule_based"; cs_universe := [sample_btc];
     cs_feature_name := "funding_rate_raw"; cs_feature_version := "v1"; cs_cadence_seconds := 60;
     cs_acceptance_criteria := [("min_signaled_samples", JInt 1)]; cs_parameters := parameters |}.
Definition traded_spec : CandidateSpecification := funding_spec "v1" [("threshold", JStr "0.0001"); ("stop_fraction", JStr "0.05")].

Definition approval_calls : list call :=
  [c_create "exp-1" (to_specification_dict traded_spec) None "10:00"; c_seal "exp-1" "10:00";
   c_transition "exp-1" LifecycleState.VALIDATING "10:00"; c_attach "exp-1" (JObj [("sharpe", JStr "1.2")]) "fp";
   c_transition "exp-1" LifecycleState.EVIDENCE_SEALED "10:00"; c_transition "exp-1" LifecycleState.IN_REVIEW "10:00";
   c_decide "exp-1" (JObj [("decision", JStr "approve")]) LifecycleState.APPROVED "10:00"].
Definition approved_registry : FileRegistryStorage * Records := run_calls approval_calls (fresh []).

Lemma approved_reach : reg_reach approved_registry.
Proof.
  exists (fresh []). split; [apply fresh_start|]. apply run_calls_steps; [repeat (apply Forall_cons; split; [done|]); by apply Forall_nil|done].
Qed.

Definition traded_strategy : ApprovedFundingAlphaStrategy :=
  {| st_specifications := [traded_spec]; st_registry := true; st_last_evaluated_at := [] |}.

(** The market with a negative funding rate. *)
Definition at_funding : SampleWorld := (in_engine (on_venue (MockExchange.query (modify (fun s =>
  MockExchange.set_funding_rate {| fr_symbol := sample_btc; fr_rate := Dec (-5) (-4); fr_next_funding_time_utc := "11:00"; fr_timestamp_utc := "10:00" |} s))))
  at_market).1.

Definition governed_cycle : M SampleWorld CycleResult :=
  sample_cycle (approved_strategy clock traded_strategy [] approved_registry.2 Z.of_nat).

Lemma no_trade_without_governance_witness :
  match governed_cycle at_funding with
  | (_, Ok r) => length (cy_executions r) = 1%nat /\
      Forall (fun q => exists spec id, spec ∈ st_specifications traded_strategy /\ backs approved_registry.2 spec id /\
        tr_symbol q ∈ cs_universe spec /\ exists x, x ∈ [sample_btc] /\ sym_value x = sym_value (tr_symbol q)) (cr_approved (cy_construction r))
  | (_, Err _) => False
  end.
Proof.
  destruct (governed_cycle at_funding) as [w' [r|e]] eqn:E.
  - split.
    + apply (f_equal (fun x => match x.2 with Ok r => length (cy_executions r) | Err _ => O end)) in E. cbn [snd] in E. rewrite -E. vm_compute. reflexivity.
    + unfold governed_cycle, sample_cycle in E. apply no_trade_without_governance in E as [_ E]; [exact E|exact approved_reach|reflexivity].
  - apply (f_equal (fun x => is_ok x.2)) in E. vm_compute in E. discriminate E.
Defined.

(** ** Validations *)

Definition sample (day : string) (funding outcome : decimal) (observed : string) : ValidationSample :=
  {| vs_feature_value := {| fv_feature_name := "funding_rate_raw"; fv_feature_version := "v1"; fv_symbol := {| sym_value := "BTC" |};
                            fv_computed_at_utc := day; fv_available := true; fv_value := Some funding; fv_reason := None |};
     vs_realized_outcome := outcome; vs_outcome_observed_at_utc := Some observed; vs_regime_label := Some "calm" |}.

(** "1", "2", ... are the days of a year. *)
Definition days (value : string) : result (Z * option Z) :=
  match dec_parse value with Some d => Ok (dcoef d * 86400 * 10 ^ 6, None) | None => Err ValueError end.
Definition no_reason (r : reason) : string := "unavailable".

(** A long that was right, and one that was wrong. *)
Definition two_days : list ValidationSample := [sample "2" (Dec (-5) (-4)) (Dec 1 (-2)) "3"; sample "1" (Dec (-5) (-4)) (Dec (-1) (-2)) "2"].
Definition rule := FundingRateThresholdRuleCandidate.evaluate.

Definition one_pass := run_validation days no_reason "10:00" rule rule_btc two_days.
Lemma validation_exact_witness :
  match one_pass with
  | Ok r => vr_hits r = 1 /\ vr_hit_rate r = Some (Dec 5 (-1)) /\
      (vr_overall_passed r = true <-> Forall (fun c => criterion_met r c.1 c.2) (cs_acceptance_criteria rule_btc))
  | Err _ => False
  end.
Proof.
  destruct one_pass as [r|e] eqn:E.
  - split; [|split].
    + apply (f_equal (fun x => match x with Ok r => vr_hits r | Err _ => 0 end)) in E. rewrite -E. vm_compute. reflexivity.
    + apply (f_equal (fun x => match x with Ok r => vr_hit_rate r | Err _ => None end)) in E. rewrite -E. vm_compute. reflexivity.
    + unfold one_pass in E. apply validation_exact in E as (signals & _ & _ & _ & _ & _ & _ & _ & _ & _ & H). exact H.
  - apply (f_equal is_ok) in E. vm_compute in E. discriminate E.
Defined.

Definition two_folds := run_walk_forward_validation days no_reason "10:00" rule rule_btc two_days 2.
Lemma walk_forward_folds_witness :
  match two_folds with
  | Ok r => exists sorted folds, sorted ≡ₚ two_days /\ StronglySorted (no_later days) sorted /\ concat folds = sorted /\ Z.of_nat (length folds) = 2
  | Err _ => False
  end.
Proof.
  destruct two_folds as [r|e] eqn:E.
  - unfold two_folds in E. apply walk_forward_folds in E as (sorted & folds & H1 & H2 & H3 & H4 & _). exists sorted, folds. split_and!; assumption.
  - apply (f_equal is_ok) in E. vm_compute in E. discriminate E.
Defined.

(** Two days after the epoch of the calendar, written in canonical form. *)
Definition dates (value : string) : result (Z * option Z) :=
  match List.find (fun d => String.eqb value (isoformat_utc (d * 86400 * 10 ^ 6))) [1; 2; 3] with
  | Some d => Ok (d * 86400 * 10 ^ 6, Some 0)
  | None => Err ValueError
  end.
Definition day_instants : list Z := [2 * 86400 * 10 ^ 6; 1 * 86400 * 10 ^ 6].
Definition sample_on (d : Z) : ValidationSample :=
  sample (isoformat_utc (d * 86400 * 10 ^ 6)) (Dec (-5) (-4)) (Dec 1 (-2)) (isoformat_utc ((d + 1) * 86400 * 10 ^ 6)).
Definition canonical_days : list ValidationSample := [sample_on 2; sample_on 1].

Definition audit := run_causality_audit dates "10:00" canonical_days.
Lemma audit_exact_witness :
  match audit with
  | Ok r => NoDup (data_points canonical_days day_instants) /\ Forall (causal dates) canonical_days /\
      ca_unique_sample_keys r = 2 /\ ca_ordering_not_verifiable r = 0
  | Err _ => False
  end.
Proof.
  destruct audit as [r|e] eqn:E.
  - assert (Hp : ca_passed r = true).
    { apply (f_equal (fun x => match x with Ok r => ca_passed r | Err _ => false end)) in E. rewrite -E. vm_compute. reflexivity. }
    assert (Ht : Forall2 (taken_at dates) canonical_days day_instants) by (repeat constructor; vm_compute; reflexivity).
    unfold audit in E. apply (audit_exact dates "10:00" _ _ r Ht) in E as (E & Hu & _ & _ & Hn & _).
    apply E in Hp as [Hd Hc]. split; [exact Hd|split; [exact Hc|split]]; [rewrite Hu|rewrite Hn]; vm_compute; reflexivity.
  - apply (f_equal is_ok) in E. vm_compute in E. discriminate E.
Defined.

Lemma percentile_range_witness :
  match percentile_rank_centered [dint 1; dint 2; dint 2; dint 7] (dint 2) with
  | Ok (Some r) => r = Dec 0 (-1) /\ (- (1 # 2) <= value r /\ value r <= 1 # 2)%Q
  | _ => False
  end.
Proof.
  assert (E : percentile_rank_centered [dint 1; dint 2; dint 2; dint 7] (dint 2) = Ok (Some (Dec 0 (-1)))) by (vm_compute; reflexivity).
  pose proof (percentile_range [dint 1; dint 2; dint 2; dint 7] (dint 2) ltac:(reflexivity)) as H. rewrite E in H |- *.
  split; [reflexivity|exact (proj2 H)].
Defined.

(** A value below the whole window has the rank -0.5. *)
Lemma percentile_lowest : percentile_rank_centered [dint 2; dint 3] (dint 1) = Ok (Some (Dec (-5) (-1))).
Proof. vm_compute. reflexivity. Qed.

(** One hit in three, and a generator that draws every sample once per
    resample: the mean of the four equal hit rates is rounded to less than the
    smallest of them, and the result is refused. *)
Definition three_days : list ValidationSample :=
  [sample "1" (Dec (-5) (-4)) (Dec 1 (-2)) "2"; sample "2" (Dec (-5) (-4)) (Dec (-1) (-2)) "3"; sample "3" (Dec (-5) (-4)) (Dec (-1) (-2)) "4"].
Definition draws (seed : Z) (i n : nat) : nat := (i mod n)%nat.
Lemma bootstrap_mean_refused :
  map_result (resample_hit_rate days no_reason "10:00" draws rule rule_btc 7 three_days) (seq 0 4) =
    Ok (replicate 4 (Some (Dec 3333333333333333333333333333 (-28)))) /\
  run_bootstrap_resampling days no_reason "10:00" draws rule rule_btc three_days 3 7 <> Err ValidationError /\
  run_bootstrap_resampling days no_reason "10:00" draws rule rule_btc three_days 4 7 = Err ValidationError.
Proof. split; [vm_compute; reflexivity|split; [by vm_compute|vm_compute; reflexivity]]. Qed.

(** One data point, with its day written in two ways, is no duplicate. *)
Lemma same_instant_not_duplicate :
  let samples := [sample "1" (Dec (-5) (-4)) (Dec 1 (-2)) "2"; sample "01" (Dec (-5) (-4)) (Dec 1 (-2)) "2"] in
  parse_utc days "1" = parse_utc days "01" /\ match run_causality_audit days "10:00" samples with Ok r => ca_passed r = true | Err _ => False end.
Proof. split; vm_compute; reflexivity. Qed.

(** ** A research cycle *)

Notation World := (FileRegistryStorage * Records)%type.

Definition cycle : M World ResearchCycleResult :=
  run_research_cycle days no_reason "12:00" draws "12:00" "funding_rate_threshold_rule" "exp-1" rule_btc two_days 2 3 7 ["few samples"] None None.

Lemma research_cycle_seals_witness :
  match cycle (fresh []) with
  | (w', Ok res) => exists x, dget "exp-1" w'.2 = Some x /\ x_lifecycle_state x = LifecycleState.EVIDENCE_SEALED /\
      x_evidence x = Some (package_dict (rc_package res))
  | (_, Err _) => False
  end.
Proof.
  assert (Hok : is_ok (cycle (fresh [])).2 = true) by (vm_compute; reflexivity).
  destruct (cycle (fresh [])) as [w' [res|e]] eqn:E; [|discriminate Hok].
  unfold cycle in E. apply research_cycle_seals in E as (entry & x & _ & _ & _ & _ & _ & Hx & _ & _ & _ & Hev & _ & Hs & _).
  exists x. split; [exact Hx|split; [exact Hs|exact Hev]].
Defined.

(** The decision on what the cycle sealed. *)
Definition reviewed : World := let w := (cycle (fresh [])).1 in (Registry.transition "exp-1" LifecycleState.IN_REVIEW "12:01" w).1.
Definition fingerprint_of (records : Records) : string :=
  match dget "exp-1" records with Some x => default "" (x_evidence_fingerprint x) | None => "" end.
Definition sealed_fingerprint : string := Eval vm_compute in (fingerprint_of reviewed.2).
Definition approval (proposer reviewer : string) : GovernanceDecision :=
  {| gd_experiment_id := "exp-1"; gd_decision := GovernanceDecisionType.APPROVE; gd_evidence_fingerprint := sealed_fingerprint;
     gd_proposed_by := proposer; gd_reviewed_by := reviewer; gd_rationale := "passed"; gd_decided_at_utc := "12:02" |}.

Lemma decision_recorded_witness :
  match record_governance_decision (approval "ana" "bo") "12:02" reviewed with
  | (w', Ok r) => exists x, dget "exp-1" reviewed.2 = Some x /\ x_lifecycle_state x = LifecycleState.IN_REVIEW /\
      dget "exp-1" w'.2 = Some (set_state LifecycleState.APPROVED (set_decision (decision_dict (approval "ana" "bo")) x))
  | (_, Err _) => False
  end.
Proof.
  assert (Hok : is_ok (record_governance_decision (approval "ana" "bo") "12:02" reviewed).2 = true) by (vm_compute; reflexivity).
  destruct (record_governance_decision (approval "ana" "bo") "12:02" reviewed) as [w' [r|e]] eqn:E; [|discriminate Hok].
  destruct (decision_recorded (approval "ana" "bo") "12:02" reviewed w' r ltac:(vm_compute; reflexivity) E) as (_ & x & Hx & Hs & _ & _ & Hx' & _).
  exists x. split; [exact Hx|split; [exact Hs|exact Hx']].
Defined.

(** A candidate in its shakedown, and a validation it fails. *)
Definition shakedown : World := run_calls [c_transition "exp-1" LifecycleState.SHAKEDOWN "13:00"] approved_registry.
Definition live_record : ExperimentRecord :=
  {| er_experiment_id := "exp-1"; er_fingerprint := "fp"; er_parent_id := None; er_specification := to_specification_dict traded_spec;
     er_created_at_utc := "10:00"; er_sealed := true; er_sealed_at_utc := Some "10:00"; er_evidence_fingerprint := Some "fp";
     er_lifecycle_state := LifecycleState.SHAKEDOWN |}.
Definition poor_result : ValidationResult :=
  {| vr_candidate_name := "funding_rate_threshold_rule"; vr_candidate_version := "v1"; vr_validated_at_utc := "14:00"; vr_total_samples := 1;
     vr_unavailable_samples := 1; vr_flat_samples := 0; vr_signaled_samples := 0; vr_hits := 0; vr_hit_rate := None;
     vr_mean_directional_return := None;
     vr_criteria_results := [{| cc_criterion_key := "min_signaled_samples"; cc_required_value := JInt 1; cc_observed_value := Some (JInt 0);
                                cc_outcome := CriterionOutcome.FAIL |}];
     vr_overall_passed := false; vr_sample_set_fingerprint := None |}.
Definition degraded : DegradationAssessment :=
  {| da_experiment_id := "exp-1"; da_degraded := true; da_recommendation := Some LifecycleState.FROZEN;
     da_reasons := vr_criteria_results poor_result; da_assessed_at_utc := "14:00" |}.

Lemma shakedown_reach : reg_reach shakedown.
Proof.
  eapply reach_steps; [exact approved_reach|]. apply run_calls_steps; [apply Forall_cons; split; [done|]; by apply Forall_nil|split; [vm_compute; reflexivity|vm_compute; apply Forall_nil_2]].
Qed.

Lemma frozen_not_approved_witness :
  match freeze_degraded degraded "14:00" shakedown with
  | (w', Ok r) => forall rs, approved_experiments days w'.2 = Ok rs -> "exp-1" ∉ map er_experiment_id rs
  | (_, Err _) => False
  end.
Proof.
  assert (Hok : is_ok (freeze_degraded degraded "14:00" shakedown).2 = true) by (vm_compute; reflexivity).
  destruct (freeze_degraded degraded "14:00" shakedown) as [w' [r|e]] eqn:E; [|discriminate Hok].
  destruct (frozen_not_approved days live_record poor_result "14:00" "14:00" degraded shakedown w' r shakedown_reach ltac:(vm_compute; reflexivity)) as [_ H].
  exact (proj2 (proj2 (H E))).
Defined.
