(* ===== verification/SecretsBoundaryFacts.v ===== *)
(** * The signing boundary: domain separation, startup, revocation

    Distinct contexts have distinct preimages; a boundary starts exactly when
    each reference has its own secret; a revoked reference never signs again and
    its material is gone, while the others sign as before. *)

From Stdlib Require Import ssreflect ZArith Lia Ascii String Strings.Byte.
From stdpp Require Import base strings numbers gmap sets list relations.
From S2P Require Import Prelude PyText PyDict PyBytes PySort PyDecimal SecretsBoundary.
#[local] Open Scope Z_scope.

(** ** Domain separation *)

Lemma b2z_inj a b : b2z a = b2z b -> a = b.
Proof. intros E. by rewrite -(z2b_b2z a) -(z2b_b2z b) E. Qed.

Lemma N_of_ascii_inj a b : N_of_ascii a = N_of_ascii b -> a = b.
Proof. intros E. by rewrite -(ascii_N_embedding a) -(ascii_N_embedding b) E. Qed.

Definition utf8_char (c : ascii) : bytes :=
  let n := Z.of_N (N_of_ascii c) in if n <? 128 then [z2b n] else [z2b (192 + n / 64); z2b (128 + n mod 64)].

Lemma utf8_cons c s : utf8 (String c s) = utf8_char c ++ utf8 s.
Proof. done. Qed.

Lemma z2b_inj a b : 0 <= a < 256 -> 0 <= b < 256 -> z2b a = z2b b -> a = b.
Proof. intros Ha Hb E. apply (f_equal b2z) in E. by rewrite !b2z_z2b !Z.mod_small in E. Qed.

(** No character's encoding begins another's. *)
Lemma utf8_char_inj c d x y : utf8_char c ++ x = utf8_char d ++ y -> c = d /\ x = y.
Proof.
  assert (Hb : forall a, 0 <= Z.of_N (N_of_ascii a) < 256). { intros a. pose proof (N_ascii_bounded a). lia. }
  unfold utf8_char. pose proof (Hb c). pose proof (Hb d). set (n := Z.of_N (N_of_ascii c)) in *. set (m := Z.of_N (N_of_ascii d)) in *.
  assert (Hcd : n = m -> c = d) by (intros E; apply N_of_ascii_inj; lia).
  destruct (Z.ltb_spec n 128), (Z.ltb_spec m 128); cbn [app]; intros [E Er]%cons_eq_inj; apply z2b_inj in E; try (Z.to_euclidean_division_equations; lia).
  - auto.
  - apply cons_eq_inj in Er as [E2 Er]. apply z2b_inj in E2; [|Z.to_euclidean_division_equations; lia..].
    split; [apply Hcd; Z.to_euclidean_division_equations; lia|done].
Qed.

Lemma utf8_inj s t : utf8 s = utf8 t -> s = t.
Proof.
  revert t. induction s as [|c s IH]; intros [|d t]; rewrite ?utf8_cons; [done| | |].
  - cbn. unfold utf8_char. by case_match.
  - cbn. unfold utf8_char. by case_match.
  - intros [-> E]%utf8_char_inj. f_equal. by apply IH.
Qed.

Lemma field_inj a b x y r s : _field a = Ok x -> _field b = Ok y -> x ++ r = y ++ s -> a = b /\ r = s.
Proof.
  unfold _field. destruct (Z.leb_spec (2 ^ 32) (Z.of_nat (length a))); [done|]. destruct (Z.leb_spec (2 ^ 32) (Z.of_nat (length b))); [done|].
  intros <-%(inj Ok) <-%(inj Ok). rewrite -!app_assoc. intros E. apply app_inj_1 in E as [Hl E]; [|by rewrite !be_encode_length].
  apply app_inj_1 in E; [done|]. apply (f_equal (be_decode 0)) in Hl.
  rewrite !be_decode_encode in Hl; [change (256 ^ Z.of_nat 4) with (2 ^ 32); lia..|]. lia.
Qed.

(** C18: roundtrip. Domain separation: two signing contexts, an engine version,
    an exchange, a purpose and a message each, have the same preimage only if
    they are the same, so a signature made in one is over other bytes in any
    other, whatever text and bytes the fields hold. *)
Theorem preimage_injective v x p m v' x' p' m' b :
  build_preimage v x p m = Ok b -> build_preimage v' x' p' m' = Ok b -> v = v' /\ x = x' /\ p = p' /\ m = m'.
Proof.
  unfold build_preimage. destruct (_field ENGINE_ID) as [e|] eqn:Ee; [|done]. cbn [mbind result_bind].
  destruct (_field (utf8 v)) as [fv|] eqn:Ev; [|done]. destruct (_field (utf8 x)) as [fx|] eqn:Ex; [|done].
  destruct (_field (utf8 (enum_value p))) as [fp|] eqn:Ep; [|done]. destruct (_field m) as [fm|] eqn:Em; [|done].
  intros <-%(inj Ok).
  destruct (_field (utf8 v')) as [fv'|] eqn:Ev'; [|done]. destruct (_field (utf8 x')) as [fx'|] eqn:Ex'; [|done].
  destruct (_field (utf8 (enum_value p'))) as [fp'|] eqn:Ep'; [|done]. destruct (_field m') as [fm'|] eqn:Em'; [|done].
  intros E%(inj Ok). apply app_inv_head in E.
  destruct (field_inj _ _ _ _ _ _ Ev' Ev E) as [Hv E1]. destruct (field_inj _ _ _ _ _ _ Ex' Ex E1) as [Hx E2].
  destruct (field_inj _ _ _ _ _ _ Ep' Ep E2) as [Hp E3].
  rewrite -(app_nil_r fm') -(app_nil_r fm) in E3. destruct (field_inj _ _ _ _ _ _ Em' Em E3) as [Hm _].
  apply utf8_inj in Hv, Hx, Hp. apply enum_value_inj in Hp. done.
Qed.

Lemma preimage_injective_witness :
  let b := match build_preimage "1.0.0" "hyperliquid" SigningPurpose.ORDER (encode "t-1") with Ok b => b | Err _ => [] end in
  "1.0.0" = "1.0.0" /\ "hyperliquid" = "hyperliquid" /\ SigningPurpose.ORDER = SigningPurpose.ORDER /\ encode "t-1" = encode "t-1".
Proof.
  intros b. apply (preimage_injective "1.0.0" "hyperliquid" SigningPurpose.ORDER (encode "t-1") "1.0.0" "hyperliquid"
    SigningPurpose.ORDER (encode "t-1") b); vm_compute; reflexivity.
Defined.

(** The same bytes under two purposes, two exchanges, two versions. *)
Example preimages_differ :
  let p v x u := build_preimage v x u (encode "o-1") in
  (bool_decide (p "1" "hl" SigningPurpose.ORDER = p "1" "hl" SigningPurpose.CANCEL),
   bool_decide (p "1" "hl" SigningPurpose.ORDER = p "1" "h" SigningPurpose.ORDER),
   bool_decide (p "1" "hl" SigningPurpose.ORDER = p "1h" "l" SigningPurpose.ORDER)) = (false, false, false).
Proof. vm_compute. reflexivity. Qed.

(** ** Startup *)

Lemma validate_refs_nil seen refs : validate_refs seen refs = [] <->
  Forall (fun r => ref_pattern r = true) refs /\ NoDup refs /\ Forall (fun r => r ∉ seen) refs.
Proof.
  revert seen. induction refs as [|r refs IH]; intros seen; cbn [validate_refs].
  - split; [intros _; split_and!; constructor|done].
  - destruct (ref_pattern r) eqn:E; cbn [negb].
    2:{ split; [done|]. intros [[Hp _]%Forall_cons _]. congruence. }
    rewrite app_nil IH !Forall_cons NoDup_cons E.
    assert (Hs : Forall (fun x => x ∉ r :: seen) refs <-> r ∉ refs /\ Forall (fun x => x ∉ seen) refs).
    { rewrite !Forall_forall. split; [intros H; split; [intros Hr; apply (H r Hr); left|intros x Hx Hin; apply (H x Hx); by right]|].
      intros [Hr H] x Hx [->|Hin]%elem_of_cons; [done|by apply (H x)]. }
    rewrite Hs. case_bool_decide; split; intros; naive_solver.
Qed.

(** A reference whose secret is set. *)
Definition secret (env : list (string * string)) (ref : string) : option string :=
  match dget (_env_var_name ref) env with Some "" | None => None | Some raw => Some raw end.
Definition material (env : list (string * string)) (ref : string) : bytes := utf8 (default "" (secret env ref)).

Lemma load_each_ok env refs : (load_each env refs).1 = [] <-> Forall (fun r => is_Some (secret env r)) refs.
Proof.
  induction refs as [|r refs IH]; [split; [intros _; constructor|done]|]. cbn [load_each]. rewrite Forall_cons -IH.
  destruct (load_each env refs) as [issues ms]. unfold secret. cbn [fst].
  destruct (dget (_env_var_name r) env) as [[|c raw]|]; cbn [fst]; split; [done|intros [[? ?] _]; done| | |done|intros [[? ?] _]; done].
  - intros ->. split; [by eexists|done].
  - by intros [_ ?].
Qed.

Lemma load_each_materials env refs : (load_each env refs).1 = [] -> (load_each env refs).2 = map (fun r => (r, material env r)) refs.
Proof.
  induction refs as [|r refs IH]; [done|]. cbn [load_each map]. unfold material at 1, secret.
  destruct (load_each env refs) as [issues ms]. cbn [fst snd] in *.
  destruct (dget (_env_var_name r) env) as [[|c raw]|]; cbn [fst snd]; [done| |done]. intros Hi. by rewrite IH.
Qed.

Lemma identical_to_nil a m rest : identical_to a m rest = [] <-> m ∉ rest.*2.
Proof.
  induction rest as [|[b m'] rest IH]; cbn [identical_to]; [split; [intros _; apply not_elem_of_nil|done]|].
  cbn. rewrite not_elem_of_cons. case_bool_decide; naive_solver.
Qed.
Lemma duplicates_nil ms : _find_duplicate_values ms = [] <-> NoDup ms.*2.
Proof.
  induction ms as [|[a m] ms IH]; cbn [_find_duplicate_values]; [split; [constructor|done]|].
  by rewrite app_nil identical_to_nil IH /= NoDup_cons.
Qed.

(** What a boundary that starts is. *)
Definition started (refs : list string) (v x : string) (env : list (string * string)) : SigningBoundary :=
  {| sb_engine_version := v; sb_exchange_name := x; sb_expected_refs := refs;
     sb_backend := {| bk_env := env; bk_materials := map (fun r => (r, material env r)) (sorted_by String.leb refs); bk_loaded := true |};
     sb_revoked := ∅ |}.

Lemma init_started refs v x env sb : boundary_init refs v x (backend_init env) = inl sb -> sb = started refs v x env.
Proof.
  unfold boundary_init, validate_and_load. destruct (_validate_ref_structure refs ++ _validate_domain v x) as [|? ?]; [|done]. cbn [bk_loaded bk_env backend_init].
  pose proof (load_each_materials env (sorted_by String.leb refs)) as Hm. destruct (load_each env _) as [issues ms]. cbn [fst snd] in *.
  destruct (issues ++ _find_duplicate_values ms) as [|? ?] eqn:Ei; [|done]. apply app_nil in Ei as [-> _].
  intros [= <-]. unfold started. by rewrite Hm.
Qed.

Definition startable (refs : list string) (v x : string) (env : list (string * string)) : Prop :=
  Forall (fun r => ref_pattern r = true) refs /\ NoDup refs /\ blank v = false /\ blank x = false /\
  Forall (fun r => is_Some (secret env r)) refs /\ NoDup (map (material env) refs).

(** Functional. Startup fails closed: a boundary starts exactly when its
    references are well-formed and distinct, its version and exchange are named,
    and each reference has a secret of its own in the environment, none empty
    and no two the same; it then holds these secrets, and nothing is revoked.
    Otherwise it raises with at least one issue. *)
Theorem startup_exact refs v x env :
  match boundary_init refs v x (backend_init env) with
  | inl sb => startable refs v x env /\ sb = started refs v x env
  | inr (e, issues) => ~ startable refs v x env /\ (e = SecretsConfigurationError \/ e = SecretsStartupError) /\ issues <> []
  end.
Proof.
  unfold boundary_init, startable.
  assert (Hc : _validate_ref_structure refs ++ _validate_domain v x = [] <->
    Forall (fun r => ref_pattern r = true) refs /\ NoDup refs /\ blank v = false /\ blank x = false).
  { rewrite app_nil. unfold _validate_ref_structure. rewrite validate_refs_nil. unfold _validate_domain. rewrite app_nil.
    assert (Hf : Forall (fun r => r ∉ []) refs) by (apply Forall_forall; set_solver).
    destruct (blank v), (blank x); naive_solver. }
  destruct (_validate_ref_structure refs ++ _validate_domain v x) as [|i rest]; [|split_and!; [|by left|done]; intros H; naive_solver].
  destruct (proj1 Hc eq_refl) as (Hp & Hn & Hv & Hx). unfold validate_and_load. cbn [bk_loaded bk_env backend_init].
  pose proof (load_each_ok env (sorted_by String.leb refs)) as Hl. pose proof (load_each_materials env (sorted_by String.leb refs)) as Hm.
  destruct (load_each env (sorted_by String.leb refs)) as [issues ms]. cbn [fst snd] in *.
  assert (Hs : issues ++ _find_duplicate_values ms = [] <->
    Forall (fun r => is_Some (secret env r)) refs /\ NoDup (map (material env) refs)).
  { rewrite app_nil duplicates_nil.
    assert (Hf : issues = [] <-> Forall (fun r => is_Some (secret env r)) refs) by (by rewrite Hl (sorted_by_perm String.leb refs)).
    assert (Hd : issues = [] -> ms.*2 ≡ₚ map (material env) refs).
    { intros Hi. rewrite (Hm Hi) -list_fmap_compose. by rewrite (sorted_by_perm String.leb refs). }
    rewrite -Hf. split; intros [Hi Hd2]; (split; [done|]); [by rewrite -(Hd Hi)|by rewrite (Hd Hi)]. }
  destruct (issues ++ _find_duplicate_values ms) as [|i rest] eqn:Ei.
  - apply app_nil in Ei as [-> _]. destruct (proj1 Hs eq_refl) as [H1 H2]. split; [done|]. unfold started. by rewrite Hm.
  - split_and!; [|by right|done]. intros (_ & _ & _ & _ & H1 & H2). discriminate (proj2 Hs (conj H1 H2)).
Qed.

Definition sample_env : list (string * string) :=
  [("TURTLE_SECRET_HL_V1", "s3cret-a"); ("TURTLE_SECRET_TG_V1", "s3cret-b"); ("TURTLE_SECRET_DUP_V1", "s3cret-a"); ("TURTLE_SECRET_NIL_V1", "")].
Definition sample_boundary : SigningBoundary := started ["hl_v1"; "tg_v1"] "1.0.0" "hyperliquid" sample_env.

Example startups :
  let start refs := match boundary_init refs "1.0.0" "hyperliquid" (backend_init sample_env) with inl _ => [] | inr (_, issues) => issues end in
  (start ["hl_v1"; "tg_v1"], start ["hl_v1"; "dup_v1"], start ["nil_v1"; "gone_v2"], start ["hl_v1"; "hl_v1"; "Bad"])
  = ([], [IdenticalSecrets "dup_v1" "hl_v1"], [MissingSecret "gone_v2"; EmptySecret "nil_v1"],
     [DuplicateReference "hl_v1"; InvalidReference "Bad"]).
Proof. vm_compute. reflexivity. Qed.

(** ** Signing and revocation *)

Inductive boundary_step (sb : SigningBoundary) : SigningBoundary -> Prop :=
  | bs_revoke ref : boundary_step sb (revoke ref sb).1
  | bs_revoke_all : boundary_step sb (revoke_all sb).

(** What revocations leave of a boundary that started: the materials are those
    of the references not revoked. *)
Record running (refs : list string) (v x : string) (env : list (string * string)) (sb : SigningBoundary) : Prop := {
  rn_domain : sb_engine_version sb = v /\ sb_exchange_name sb = x /\ sb_expected_refs sb = refs;
  rn_material ref : dget ref (bk_materials (sb_backend sb)) =
    if bool_decide (ref ∈ refs) && negb (is_revoked ref sb) then Some (material env ref) else None
}.

Lemma materials_of env refs ref : dget ref (map (fun r => (r, material env r)) refs) =
  if bool_decide (ref ∈ refs) then Some (material env ref) else None.
Proof.
  induction refs as [|r refs IH]; [done|]. cbn [map dget]. destruct (String.eqb_spec ref r) as [->|Hn].
  - rewrite bool_decide_eq_true_2; [left|done].
  - rewrite IH. repeat case_bool_decide; set_solver.
Qed.

Lemma started_running refs v x env : running refs v x env (started refs v x env).
Proof.
  split; [done|]. intros ref. cbn [started sb_backend bk_materials]. rewrite materials_of /is_revoked /= andb_true_r.
  rewrite (bool_decide_ext (ref ∈ sorted_by String.leb refs) (ref ∈ refs)); [by rewrite sorted_by_perm|done].
Qed.

Lemma is_revoked_one r ref sb : is_revoked r (revoke_one ref sb) = String.eqb r ref || is_revoked r sb.
Proof.
  unfold is_revoked. cbn. destruct (String.eqb_spec r ref) as [->|]; [by apply bool_decide_eq_true_2; set_solver|].
  apply bool_decide_ext. set_solver.
Qed.

Lemma revoke_one_running refs v x env sb ref : running refs v x env sb -> running refs v x env (revoke_one ref sb).
Proof.
  intros [Hd Hm]. split; [done|]. intros r. cbn [revoke_one sb_backend discard bk_materials].
  rewrite dget_dpop Hm is_revoked_one. destruct (String.eqb r ref); [|done]. by rewrite andb_false_r.
Qed.

Lemma revoke_all_running refs v x env sb : running refs v x env sb -> running refs v x env (revoke_all sb).
Proof.
  unfold revoke_all. generalize (sb_expected_refs sb) as l. intros l. revert sb.
  induction l as [|r l IH]; intros sb Hr; [done|]. cbn [foldl]. by apply IH, revoke_one_running.
Qed.

Lemma steps_running refs v x env sb sb' : running refs v x env sb -> rtc boundary_step sb sb' -> running refs v x env sb'.
Proof.
  intros Hr Hs. induction Hs as [|sb sb1 sb' Hs _ IH]; [done|]. apply IH. destruct Hs as [ref|].
  - unfold revoke. destruct (has_reference ref sb); [by apply revoke_one_running|done].
  - by apply revoke_all_running.
Qed.

(** Revocations accumulate. *)
Lemma step_revoked ref sb sb' : boundary_step sb sb' -> is_revoked ref sb = true -> is_revoked ref sb' = true.
Proof.
  intros Hs Hr. assert (H1 : forall r s, is_revoked ref s = true -> is_revoked ref (revoke_one r s) = true).
  { intros r s H. rewrite is_revoked_one H. apply orb_true_r. }
  destruct Hs as [r|]; [unfold revoke; destruct (has_reference r sb); [by apply H1|done]|].
  unfold revoke_all. generalize (sb_expected_refs sb) as l. intros l. revert sb Hr.
  induction l as [|r l IH]; intros sb Hr; [done|]. cbn [foldl]. by apply IH, H1.
Qed.

Lemma steps_revoked ref sb sb' : rtc boundary_step sb sb' -> is_revoked ref sb = true -> is_revoked ref sb' = true.
Proof. induction 1 as [|? ? ? Hs _ IH]; [done|]. intros Hr. by eapply IH, step_revoked. Qed.

Lemma revoke_all_revokes ref sb : ref ∈ sb_expected_refs sb -> is_revoked ref (revoke_all sb) = true.
Proof.
  unfold revoke_all. generalize (sb_expected_refs sb) as l. intros l. revert sb.
  induction l as [|r l IH]; intros sb; [by intros ?%elem_of_nil|].
  destruct (decide (ref ∈ l)) as [Hin|Hout]; [intros _; by apply IH|]. intros [->|?]%elem_of_cons; [|done]. cbn [foldl].
  clear IH. assert (Hr : is_revoked r (revoke_one r sb) = true) by (by rewrite is_revoked_one String.eqb_refl).
  revert Hr. generalize (revoke_one r sb) as s. clear. induction l as [|q l IH]; intros s Hs; [done|].
  cbn [foldl]. apply IH. rewrite is_revoked_one Hs. apply orb_true_r.
Qed.

Lemma sign_revoked sb ref purpose message : is_revoked ref sb = true -> is_ok (sign sb ref purpose message) = false.
Proof. intros Hr. unfold sign. destruct (_ <? _); [done|]. destruct (negb _); [done|]. by rewrite Hr. Qed.

(** C17: safety. Revocation, from the start of a boundary through any sequence
    of [revoke] and [revoke_all]: a revoked reference signs nothing, its
    material is destroyed, and this stays so whatever is called later;
    [revoke_all] does it to every reference; a reference that is not revoked
    still signs the preimage of its context with the secret it started with. *)
Theorem revocation_is_final refs v x env sb0 sb ref purpose message :
  boundary_init refs v x (backend_init env) = inl sb0 -> rtc boundary_step sb0 sb -> ref ∈ refs ->
  (is_revoked ref sb = true -> forall sb', rtc boundary_step sb sb' ->
     is_ok (sign sb' ref purpose message) = false /\ dget ref (bk_materials (sb_backend sb')) = None) /\
  is_revoked ref (revoke_all sb) = true /\
  (is_revoked ref sb = false -> Z.of_nat (length message) <= MAX_SIGNING_PAYLOAD_BYTES ->
     sign sb ref purpose message =
       (preimage ← build_preimage v x purpose message; Ok (hmac_sha256 (utf8 (default "" (secret env ref))) preimage))).
Proof.
  intros ->%init_started Hs Hin. pose proof (steps_running _ _ _ _ _ _ (started_running refs v x env) Hs) as Hr.
  pose proof (rn_domain _ _ _ _ _ Hr) as (Hv & Hx & He). split_and!.
  - intros Hk sb' Hs'. pose proof (steps_revoked _ _ _ Hs' Hk) as Hk'. split; [by apply sign_revoked|].
    pose proof (steps_running _ _ _ _ _ _ Hr Hs') as [_ Hm]. by rewrite Hm Hk' andb_false_r.
  - apply revoke_all_revokes. by rewrite He.
  - intros Hk Hl. unfold sign. rewrite (proj2 (Z.ltb_ge _ _) Hl). unfold has_reference. rewrite He bool_decide_eq_true_2 //. cbn [negb].
    rewrite Hk Hv Hx. destruct (build_preimage v x purpose message) as [p|e]; [|done]. cbn [mbind result_bind].
    unfold backend_sign. rewrite (rn_material _ _ _ _ _ Hr) Hk bool_decide_eq_true_2 //.
Qed.

Lemma revocation_is_final_witness :
  let sb := (revoke "tg_v1" sample_boundary).1 in
  (is_revoked "hl_v1" sb = true -> forall sb', rtc boundary_step sb sb' ->
     is_ok (sign sb' "hl_v1" SigningPurpose.ORDER (encode "o-1")) = false /\ dget "hl_v1" (bk_materials (sb_backend sb')) = None) /\
  is_revoked "hl_v1" (revoke_all sb) = true /\
  (is_revoked "hl_v1" sb = false -> Z.of_nat (length (encode "o-1")) <= MAX_SIGNING_PAYLOAD_BYTES ->
     sign sb "hl_v1" SigningPurpose.ORDER (encode "o-1") =
       (preimage ← build_preimage "1.0.0" "hyperliquid" SigningPurpose.ORDER (encode "o-1");
        Ok (hmac_sha256 (utf8 (default "" (secret sample_env "hl_v1"))) preimage))).
Proof.
  intros sb. apply (revocation_is_final ["hl_v1"; "tg_v1"] "1.0.0" "hyperliquid" sample_env sample_boundary).
  - vm_compute. reflexivity.
  - apply rtc_once. exact (bs_revoke sample_boundary "tg_v1").
  - left.
Defined.
