(* ===== verification/HyperliquidCodec.v ===== *)
(** * The Hyperliquid codec (src/hyperliquid_adapter/codec.py, errors.py, capabilities.py)

    From the venue's JSON to the typed models. Numbers with a fraction, NaN and
    the infinities do not occur in the JSON modelled here (the venue sends them
    as text). The text of a list or a dict in an identifier is an argument. *)

From Stdlib Require Import ssreflect ZArith Lia Ascii String.
From stdpp Require Import base strings numbers gmap sets list.
From S2P Require Import Prelude PyText PyDict PyJson PyLines PyDecimal PyDecimalFacts PyFloat ExchangeModels AlphaModels Validation.
#[local] Open Scope Z_scope.

(** ** JSON values as Python sees them *)

(** [j.get(k, default)] *)
Definition get_or (default_ : json) (k : string) (j : json) : result json :=
  match j with JObj o => Ok (default default_ (dget k o)) | _ => Err AttributeError end.
Definition get_ (k : string) (j : json) : result json := get_or JNull k j.

(** [bool(j)] *)
Definition truthy (j : json) : bool :=
  match j with
  | JNull => false | JBool b => b | JInt n => negb (n =? 0) | JStr s => negb (str_empty s)
  | JList l => negb (is_nil l) | JObj o => negb (is_nil o)
  end.

(** [for x in j] *)
Fixpoint chars (s : string) : list json := match s with "" => [] | String c s => JStr (String c "") :: chars s end.
Definition iterate (j : json) : result (list json) :=
  match j with
  | JList l => Ok l
  | JStr s => Ok (chars s)
  | JObj o => Ok (map JStr (dkeys o))
  | _ => Err TypeError
  end.

Definition hashable (j : json) : bool := match j with JList _ | JObj _ => false | _ => true end.

(** A dictionary of strings asked for a value: [None] for a key it does not
    have, an exception for one that has no hash. *)
Definition lookup_in {A} (d : list (string * A)) (j : json) : result (option A) :=
  if hashable j then Ok (match j with JStr s => dget s d | _ => None end) else Err TypeError.

(** [int(text)] *)
(** Groups of digits with an underscore between two of them. *)
Fixpoint grouped_digits (after_digit : bool) (s : string) : bool :=
  match s with
  | "" => after_digit
  | String c s => if Ascii.eqb c "_" then after_digit && grouped_digits false s else is_digit c && grouped_digits true s
  end.
Definition int_of_text (text : string) : result Z :=
  let '(neg, ds) := parse_sign (strip text) in
  if grouped_digits false ds then let n := digits_val 0 (without_underscores ds) in Ok (if neg then - n else n) else Err ValueError.

Example int_of_text_ex :
  map int_of_text [" 12 "; "-3"; "1_000"; "1__0"; ""; "0x1"] = [Ok 12; Ok (-3); Ok 1000; Err ValueError; Err ValueError; Err ValueError].
Proof. vm_compute. reflexivity. Qed.

(** [int(j)] *)
Definition int_of (j : json) : result Z :=
  match j with
  | JInt n => Ok n
  | JBool b => Ok (if b then 1 else 0)
  | JStr s => int_of_text s
  | _ => Err TypeError
  end.

(** ** codec.py *)

Definition _SIDE_MAP : list (string * OrderSide) := [("A", OrderSide.SELL); ("B", OrderSide.BUY)].
Definition _ORDER_TYPE : OrderType := OrderType.LIMIT.
Definition _TIME_IN_FORCE_DEFAULT : TimeInForce := TimeInForce.GTC.

Definition _ORDER_STATUS_MAP : list (string * OrderStatus) :=
  [("open", OrderStatus.ACKNOWLEDGED); ("filled", OrderStatus.FILLED); ("canceled", OrderStatus.CANCELLED);
   ("triggered", OrderStatus.ACKNOWLEDGED); ("marginCanceled", OrderStatus.CANCELLED);
   ("vaultWithdrawalCanceled", OrderStatus.CANCELLED); ("openInterestCapCanceled", OrderStatus.CANCELLED);
   ("selfTradeCanceled", OrderStatus.CANCELLED); ("reduceOnlyCanceled", OrderStatus.CANCELLED);
   ("siblingFilledCanceled", OrderStatus.CANCELLED); ("delistedCanceled", OrderStatus.CANCELLED);
   ("liquidatedCanceled", OrderStatus.CANCELLED); ("scheduledCancel", OrderStatus.CANCELLED);
   ("tickRejected", OrderStatus.REJECTED); ("minTradeNtlRejected", OrderStatus.REJECTED);
   ("perpMarginRejected", OrderStatus.REJECTED); ("reduceOnlyRejected", OrderStatus.REJECTED);
   ("badAloPxRejected", OrderStatus.REJECTED); ("iocCancelRejected", OrderStatus.REJECTED);
   ("badTriggerPxRejected", OrderStatus.REJECTED); ("marketOrderNoLiquidityRejected", OrderStatus.REJECTED);
   ("positionIncreaseAtOpenInterestCapRejected", OrderStatus.REJECTED);
   ("positionFlipAtOpenInterestCapRejected", OrderStatus.REJECTED);
   ("tooAggressiveAtOpenInterestCapRejected", OrderStatus.REJECTED); ("openInterestIncreaseRejected", OrderStatus.REJECTED);
   ("insufficientSpotBalanceRejected", OrderStatus.REJECTED); ("oracleRejected", OrderStatus.REJECTED);
   ("perpMaxPositionRejected", OrderStatus.REJECTED)].

Definition _decimal (value : json) : result decimal := of_option ExchangeAdapterError (decimal_of_json value).
Definition _optional_decimal (value : json) : result (option decimal) :=
  match value with JNull => Ok None | _ => d ← _decimal value; Ok (Some d) end.

(** [datetime.fromtimestamp(n / 1000, utc)] in microseconds since year 1: the
    quotient and the product with 10^6 are floats; a date beyond the years 1 to
    9999 is a [ValueError]. *)
Definition from_millis (n : Z) : result Z :=
  let f := true_div n 1000 in
  let '(seconds, micros) :=
    if 0 <=? fexp f then (fmant f * 2 ^ fexp f, 0) else
    let unit := 2 ^ (- fexp f) in
    let g := true_div (Z.rem (fmant f) unit * 10 ^ 6) unit in
    (Z.quot (fmant f) unit,
     if 0 <=? fexp g then fmant g * 2 ^ fexp g else div_round ROUND_HALF_EVEN (fmant g) (2 ^ (- fexp g))) in
  let t := (seconds + 719162 * 86400) * 10 ^ 6 + micros in
  if (0 <=? t) && (t <? _DATETIMES) then Ok t else Err ValueError.

(** [dt.isoformat()]: no fraction for a whole second. *)
Definition isoformat (t : Z) : string :=
  let text := isoformat_utc t in
  if t mod 10 ^ 6 =? 0 then str_take 19 text +:+ "+00:00" else text.

Definition _iso (timestamp_ms : json) : result string :=
  match (n ← int_of timestamp_ms; from_millis n) with
  | Ok t => Ok (isoformat t)
  | Err _ => Err ExchangeAdapterError
  end.

Example _iso_ex :
  map _iso [JInt 1700000000123; JInt 1700000000000; JStr "1700000000001"; JInt (-1); JNull; JInt 253402300800000] =
  [Ok "2023-11-14T22:13:20.123000+00:00"; Ok "2023-11-14T22:13:20+00:00"; Ok "2023-11-14T22:13:20.001000+00:00";
   Ok "1969-12-31T23:59:59.999000+00:00"; Err ExchangeAdapterError; Err ExchangeAdapterError].
Proof. vm_compute. reflexivity. Qed.

Definition parse_mark_price (all_mids_body : json) (symbol : Symbol) (checked_at_utc : string) : result MarkPrice :=
  raw ← get_ (sym_value symbol) all_mids_body;
  match raw with
  | JNull => Err ExchangeAdapterError
  | _ => price ← _decimal raw; Ok {| mp_symbol := symbol; mp_price := price; mp_timestamp_utc := checked_at_utc |}
  end.

(** [Symbol(coin)] *)
Definition symbol_of (coin : json) : result Symbol := match coin with JStr s => mk_Symbol s | _ => Err ValueError end.

Definition parse_position (entry : json) : result (option Position) :=
  pos ← get_or (JObj []) "position" entry;
  coin ← get_ "coin" pos;
  if negb (truthy coin) then Ok None else
  szi ← (x ← get_ "szi" pos; _decimal x);
  position_value ← (x ← get_ "positionValue" pos; _decimal x);
  mark_price ← (if deqb szi d0 then Ok d0 else ddiv position_value (dabs szi));
  liq_px ← get_ "liquidationPx" pos;
  symbol ← symbol_of coin;
  entry_price ← (x ← get_ "entryPx" pos; _decimal x);
  unrealized_pnl ← (x ← get_ "unrealizedPnl" pos; _decimal x);
  liquidation_price ← _optional_decimal liq_px;
  Ok (Some {| po_symbol := symbol; po_quantity := szi; po_entry_price := entry_price; po_mark_price := mark_price;
              po_unrealized_pnl := unrealized_pnl; po_liquidation_price := liquidation_price |}).

(** The loop shared by the parsers of lists: an entry gives a model or is left out. *)
Fixpoint parse_each {A} (parse : json -> result (option A)) (l : list json) : result (list A) :=
  match l with
  | [] => Ok []
  | entry :: l => x ← parse entry; xs ← parse_each parse l; Ok (match x with Some x => x :: xs | None => xs end)
  end.

Definition parse_positions (clearinghouse_state_body : json) : result (list Position) :=
  entries ← (x ← get_or (JList []) "assetPositions" clearinghouse_state_body; iterate x);
  parse_each parse_position entries.

Definition parse_balances (clearinghouse_state_body : json) : result (list Balance) :=
  margin ← get_or (JObj []) "marginSummary" clearinghouse_state_body;
  total ← (x ← get_ "accountValue" margin; _decimal x);
  available ← (x ← get_ "withdrawable" clearinghouse_state_body; _decimal x);
  Ok [{| ba_asset := {| sym_value := "USDC" |}; ba_total := total; ba_available := available; ba_reserved := dsub total available |}].

Section attribution.
(** The text of a list or dict, and the mapping's [resolve]. *)
Context (repr : json -> string) (resolve : json -> result (option string)).

(** [str(j)] *)
Definition text_of (j : json) : string :=
  match j with
  | JNull => "None" | JBool true => "True" | JBool false => "False" | JInt n => int_str n | JStr s => s | _ => repr j
  end.

(** The engine's id and the side of an entry; [None] for one that is not the engine's. *)
Definition attributed (entry : json) : result (option (string * json * OrderSide)) :=
  cloid ← get_ "cloid" entry;
  if negb (truthy cloid) then Ok None else
  engine_id ← resolve cloid;
  match engine_id with
  | None => Ok None
  | Some engine_id =>
      coin ← get_ "coin" entry;
      side ← (x ← get_ "side" entry; lookup_in _SIDE_MAP x);
      match side with
      | Some side => if truthy coin then Ok (Some (engine_id, coin, side)) else Ok None
      | None => Ok None
      end
  end.

(** The size left, the original size and the difference. *)
Definition sizes (entry : json) : result (decimal * decimal) :=
  sz ← (x ← get_ "sz" entry; _decimal x);
  orig ← get_ "origSz" entry;
  orig_sz ← match orig with JNull => Ok sz | _ => _decimal orig end;
  Ok (orig_sz, dsub orig_sz sz).
Definition not_negative (filled : decimal) : decimal := if dleb d0 filled then filled else d0.

Definition parse_open_order (entry : json) : result (option Order) :=
  who ← attributed entry;
  match who with
  | None => Ok None
  | Some (engine_id, coin, side) =>
      sized ← sizes entry;
      let '(orig_sz, filled) := sized in
      timestamp_iso ← (x ← get_ "timestamp" entry; _iso x);
      oid ← get_ "oid" entry;
      symbol ← symbol_of coin;
      limit_price ← (x ← get_ "limitPx" entry; _optional_decimal x);
      reduce_only ← get_or (JBool false) "reduceOnly" entry;
      Ok (Some {| o_client_order_id := engine_id; o_exchange_order_id := match oid with JNull => None | _ => Some (text_of oid) end;
                  o_symbol := symbol; o_side := side; o_order_type := _ORDER_TYPE; o_quantity := orig_sz;
                  o_filled_quantity := not_negative filled; o_limit_price := limit_price;
                  o_status := if dltb d0 filled then OrderStatus.PARTIALLY_FILLED else OrderStatus.ACKNOWLEDGED;
                  o_time_in_force := _TIME_IN_FORCE_DEFAULT; o_reduce_only := truthy reduce_only;
                  o_created_at_utc := timestamp_iso; o_updated_at_utc := timestamp_iso |})
  end.

Definition parse_open_orders (frontend_open_orders_body : json) : result (list Order) :=
  entries ← iterate frontend_open_orders_body;
  parse_each parse_open_order entries.

Definition parse_user_fill (entry : json) : result (option Fill) :=
  who ← attributed entry;
  match who with
  | None => Ok None
  | Some (engine_id, coin, side) =>
      oid ← get_ "oid" entry;
      match oid with
      | JNull => Err ExchangeAdapterError
      | _ =>
          tid ← get_ "tid" entry;
          symbol ← symbol_of coin;
          price ← (x ← get_ "px" entry; _decimal x);
          quantity ← (x ← get_ "sz" entry; _decimal x);
          fee ← (x ← get_ "fee" entry; _decimal x);
          timestamp_utc ← (x ← get_ "time" entry; _iso x);
          Ok (Some {| fl_fill_id := text_of tid; fl_client_order_id := engine_id; fl_exchange_order_id := text_of oid;
                      fl_symbol := symbol; fl_side := side; fl_price := price; fl_quantity := quantity; fl_fee := fee;
                      fl_timestamp_utc := timestamp_utc |})
      end
  end.

Definition parse_user_fills (user_fills_body : json) : result (list Fill) :=
  entries ← iterate user_fills_body;
  parse_each parse_user_fill entries.

Definition parse_order_status (order_status_body : json) (assume_client_order_id : option string) : result (option Order) :=
  status ← get_ "status" order_status_body;
  if negb (match status with JStr s => String.eqb s "order" | _ => false end) then Ok None else
  wrapper ← get_or (JObj []) "order" order_status_body;
  venue_status ← get_ "status" wrapper;
  order_obj ← get_or (JObj []) "order" wrapper;
  coin ← get_ "coin" order_obj;
  side ← (x ← get_ "side" order_obj; lookup_in _SIDE_MAP x);
  oid ← get_ "oid" order_obj;
  match side, oid with
  | None, _ | _, JNull => Err ExchangeAdapterError
  | Some side, _ =>
      if negb (truthy coin) then Err ExchangeAdapterError else
      engine_id ← match assume_client_order_id with
                  | Some _ => Ok assume_client_order_id
                  | None => cloid ← get_ "cloid" order_obj; if truthy cloid then resolve cloid else Ok None
                  end;
      engine_id ← of_option ExchangeAdapterError engine_id;
      sized ← sizes order_obj;
      let '(orig_sz, filled) := sized in
      timestamp_source ← (x ← get_ "timestamp" order_obj; match x with JNull => get_ "statusTimestamp" wrapper | _ => Ok x end);
      timestamp_iso ← _iso timestamp_source;
      symbol ← symbol_of coin;
      limit_price ← (x ← get_ "limitPx" order_obj; _optional_decimal x);
      status ← lookup_in _ORDER_STATUS_MAP venue_status;
      reduce_only ← get_or (JBool false) "reduceOnly" order_obj;
      Ok (Some {| o_client_order_id := engine_id; o_exchange_order_id := Some (text_of oid);
                  o_symbol := symbol; o_side := side; o_order_type := _ORDER_TYPE; o_quantity := orig_sz;
                  o_filled_quantity := not_negative filled; o_limit_price := limit_price;
                  o_status := default OrderStatus.UNKNOWN status;
                  o_time_in_force := _TIME_IN_FORCE_DEFAULT; o_reduce_only := truthy reduce_only;
                  o_created_at_utc := timestamp_iso; o_updated_at_utc := timestamp_iso |})
  end.
End attribution.

(** The first entry of a name, with its place. *)
Fixpoint asset_place (i : nat) (name : string) (universe : list json) : result (option nat) :=
  match universe with
  | [] => Ok None
  | a :: universe =>
      n ← get_ "name" a;
      match n with
      | JStr s => if String.eqb s name then Ok (Some i) else asset_place (S i) name universe
      | _ => asset_place (S i) name universe
      end
  end.

(** [next_hour] is computed from the clock. *)
Definition parse_funding_rate (meta_and_asset_ctxs_body : json) (symbol : Symbol) (checked_at_utc next_hour : string) : result FundingRate :=
  match meta_and_asset_ctxs_body with
  | JList [metadata; asset_ctxs] =>
      universe ← (x ← get_or (JList []) "universe" metadata; iterate x);
      index ← asset_place 0 (sym_value symbol) universe;
      match index with
      | None => Err ExchangeAdapterError
      | Some index =>
          ctx ← match asset_ctxs with
                | JList l => of_option ExchangeAdapterError (l !! index)
                | JStr s => of_option ExchangeAdapterError (chars s !! index)
                | JObj o => if (index <? length o)%nat then Err KeyError else Err ExchangeAdapterError
                | _ => Err TypeError
                end;
          rate ← (x ← get_ "funding" ctx; _decimal x);
          Ok {| fr_symbol := symbol; fr_rate := rate; fr_next_funding_time_utc := next_hour; fr_timestamp_utc := checked_at_utc |}
      end
  | _ => Err ExchangeAdapterError
  end.

(** ** errors.py *)

Definition _AUTH_FAILURE_SUBSTRING : string := "does not exist".
Definition is_authentication_failure_message (message : string) : bool := str_contains _AUTH_FAILURE_SUBSTRING (lower message).

(** The exception of a status; the delay of a rate limit is its text. *)
Definition map_http_error (status_code : Z) : exn :=
  if status_code =? 429 then RateLimitExceededError
  else if (500 <=? status_code) && (status_code <? 600) then ExchangeConnectionError
  else ExchangeAdapterError.
Definition map_request_error (message : string) : exn :=
  if is_authentication_failure_message message then ExchangeAuthenticationError else ExchangeRejectedOrderError.
Definition map_order_status_error (message : string) : exn :=
  if is_authentication_failure_message message then ExchangeAuthenticationError else ExchangeRejectedOrderError.
Definition map_unknown_oid : exn := OrderUnknownError.

(** ** capabilities.py *)

Definition DEFAULT_HYPERLIQUID_CAPABILITIES : ExchangeCapabilities :=
  {| supports_reduce_only := true; supports_post_only := true; supports_ioc := true; supports_fok := false;
     supports_market_orders := false; supports_limit_orders := true; supports_trigger_orders := false;
     supports_partial_fill_notifications := false; supports_funding_rate := true;
     supports_cross_margin := true; supports_isolated_margin := true; cap_extra := [] |}.
