(* ===== verification/HyperliquidWire.v ===== *)
(** * Hyperliquid's wire format (src/hyperliquid_adapter/action_codec.py, exchange.py, signing.py)

    The actions of an exchange request, the hash the wallet signs, the nonces and
    the request itself. msgpack, keccak and the signature are arguments. *)

From Stdlib Require Import ssreflect ZArith Lia Ascii String Strings.Byte QArith Qpower.
From stdpp Require Import base strings numbers gmap sets list.
From S2P Require Import Prelude PyText PyDict PyBytes PyJson PyDecimal PyDecimalFacts PyLines ExchangeModels HyperliquidCodec.
From S2P Require SecretsBoundary.
#[local] Open Scope Z_scope.

(** ** Decimals as text *)

Fixpoint without_zeros (fuel : nat) (c e : Z) : decimal :=
  match fuel with
  | O => Dec c e
  | S fuel => if c mod 10 =? 0 then without_zeros fuel (Z.quot c 10) (e + 1) else Dec c e
  end.

(** [d.normalize()]: rounded to the context, then without trailing zeros. *)
Definition normalize (d : decimal) : decimal :=
  let d := dfix d in
  if dcoef d =? 0 then d0 else without_zeros (Z.to_nat (ndigits (dcoef d))) (dcoef d) (dexp d).

(** [format(d, "f")] *)
Definition format_f (d : decimal) : string :=
  let int := nat_str (Z.abs (dcoef d)) in
  let len := slen int in
  let dotplace := dexp d + len in
  let '(intpart, fracpart) :=
    if dotplace <=? 0 then ("0", "." +:+ zeros (Z.to_nat (- dotplace)) +:+ int)
    else if len <=? dotplace then (int +:+ zeros (Z.to_nat (dotplace - len)), "")
    else (str_take (Z.to_nat dotplace) int, "." +:+ str_drop (Z.to_nat dotplace) int) in
  (if dcoef d <? 0 then "-" else "") +:+ intpart +:+ fracpart.

(** A zero has no sign here, so the guard against ["-0"] has no case. *)
Definition to_wire (value : decimal) : string := format_f (normalize value).

Example to_wire_ex :
  map to_wire [Dec 500 2; Dec 50000 (-1); Dec (-1250) (-4); Dec 0 (-3); Dec 1 (-9); Dec 7 0; Dec 123456 (-3)]
  = ["50000"; "5000"; "-0.125"; "0"; "0.000000001"; "7"; "123.456"].
Proof. vm_compute. reflexivity. Qed.

(** ** Actions *)

Definition _TIF_WIRE (time_in_force : TimeInForce) : option string :=
  match time_in_force with
  | TimeInForce.GTC => Some "Gtc" | TimeInForce.IOC => Some "Ioc" | TimeInForce.POST_ONLY => Some "Alo" | TimeInForce.FOK => None
  end.
Definition tif_wire (time_in_force : TimeInForce) : result string := of_option ExchangeRejectedOrderError (_TIF_WIRE time_in_force).

Definition build_order_wire (asset_index : Z) (is_buy : bool) (price size : decimal) (reduce_only : bool) (tif : string)
    (cloid : option string) : json :=
  JObj ([("a", JInt asset_index); ("b", JBool is_buy); ("p", JStr (to_wire price)); ("s", JStr (to_wire size));
         ("r", JBool reduce_only); ("t", JObj [("limit", JObj [("tif", JStr tif)])])]
        ++ match cloid with Some c => [("c", JStr c)] | None => [] end).

Definition build_order_action (order_wires : list json) : json :=
  JObj [("type", JStr "order"); ("orders", JList order_wires); ("grouping", JStr "na")].

Definition build_cancel_action (cancels : list (Z * Z)) : json :=
  JObj [("type", JStr "cancel"); ("cancels", JList (map (fun c => JObj [("a", JInt c.1); ("o", JInt c.2)]) cancels))].

Definition build_modify_action (oid : Z) (order_wire : json) : json :=
  JObj [("type", JStr "modify"); ("oid", JInt oid); ("order", order_wire)].

(** [bytes.fromhex(s)] *)
Definition hex_value (c : ascii) : option Z :=
  let n := Z.of_N (N_of_ascii c) in
  if (48 <=? n) && (n <=? 57) then Some (n - 48)
  else if (97 <=? n) && (n <=? 102) then Some (n - 87)
  else if (65 <=? n) && (n <=? 70) then Some (n - 55)
  else None.
Definition ascii_space (c : ascii) : bool := let n := Z.of_N (N_of_ascii c) in ((9 <=? n) && (n <=? 13)) || (n =? 32).
Fixpoint fromhex (s : string) : result bytes :=
  match s with
  | "" => Ok []
  | String a s =>
      if ascii_space a then fromhex s else
      match s with
      | "" => Err ValueError
      | String b s =>
          match hex_value a, hex_value b with
          | Some x, Some y => l ← fromhex s; Ok (z2b (16 * x + y) :: l)
          | _, _ => Err ValueError
          end
      end
  end.

Example fromhex_ex : map fromhex ["0aFf 10"; "0"; "0g"] = [Ok [z2b 10; z2b 255; z2b 16]; Err ValueError; Err ValueError].
Proof. vm_compute. reflexivity. Qed.

Section hashing.
(** msgpack's [packb] and eth-hash's [keccak]. *)
Context (packb : json -> result bytes) (keccak : bytes -> bytes).

Definition connection_id (action : json) (nonce : Z) (vault_address : option string) : result bytes :=
  if nonce <=? 0 then Err ExchangeAdapterError else
  packed ← packb action;
  if 2 ^ 64 <=? nonce then Err OverflowError else
  let data := packed ++ be_encode 8 nonce in
  data ← match vault_address with
         | None => Ok (data ++ [z2b 0])
         | Some v => h ← fromhex (if String.prefix "0x" v then str_drop 2 v else v); Ok (data ++ [z2b 1] ++ h)
         end;
  Ok (keccak data).
End hashing.

(** ** exchange.py *)

Definition EXCHANGE_PATH : string := "/exchange".

(** [NonceSource.next()] on the last nonce and the time: the nonce, which is the
    last one from now on. *)
Definition next_nonce (last now : Z) : Z := if last <? now then now else last + 1.

Definition build_exchange_request (action : json) (nonce : Z) (signature : json) (vault_address : option string) : result json :=
  match action with
  | JObj _ =>
      if nonce <=? 0 then Err ValueError else
      match signature with
      | JObj s =>
          if din "r" s && din "s" s && din "v" s then
            Ok (JObj [("action", action); ("nonce", JInt nonce); ("signature", signature);
                      ("vaultAddress", match vault_address with Some v => JStr v | None => JNull end)])
          else Err ValueError
      | _ => Err ValueError
      end
  | _ => Err ValueError
  end.

(** ** signing.py

    A signer once constructed: its network and whether it was revoked. *)

Definition _SOURCE_MAINNET : string := "a".
Definition _SOURCE_TESTNET : string := "b".
Definition _ENV_VAR_PREFIX : string := "TURTLE_SECRET_".

Record HyperliquidWalletSigner := { ws_source : string; ws_address : string; ws_revoked : bool }.

Definition _env_var_name (ref : string) : string := _ENV_VAR_PREFIX +:+ SecretsBoundary.upper ref.

(** ["0x" + format(n, "064x")], for 256 bits. *)
Definition hex64 (n : Z) : string := "0x" +:+ hex (be_encode 32 n).

Section signer.
(** eth-account: the address of a key, and the [r], [s] and [v] an address's key
    signs the typed data of a source and a hash with. *)
Context (from_key : string -> option string) (sign_message : string -> string -> bytes -> Z * Z * Z).

Definition wallet_signer_init (wallet_key_ref : string) (is_mainnet : bool) (env : list (string * string)) : result HyperliquidWalletSigner :=
  if blank wallet_key_ref then Err ValueError else
  match dget (_env_var_name wallet_key_ref) env with
  | None => Err ExchangeAuthenticationError
  | Some raw =>
      if blank raw then Err ExchangeAuthenticationError else
      match from_key (strip raw) with
      | None => Err ExchangeAuthenticationError
      | Some address => Ok {| ws_source := if is_mainnet then _SOURCE_MAINNET else _SOURCE_TESTNET; ws_address := address; ws_revoked := false |}
      end
  end.

Definition ws_is_mainnet (w : HyperliquidWalletSigner) : bool := String.eqb (ws_source w) _SOURCE_MAINNET.
Definition revoke (w : HyperliquidWalletSigner) : HyperliquidWalletSigner :=
  {| ws_source := ws_source w; ws_address := ws_address w; ws_revoked := true |}.

Definition sign_connection_id (w : HyperliquidWalletSigner) (connection_id : bytes) : result json :=
  if ws_revoked w then Err ExchangeAuthenticationError
  else if negb (length connection_id =? 32)%nat then Err ValueError
  else let '(r, s, v) := sign_message (ws_address w) (ws_source w) connection_id in
       Ok (JObj [("r", JStr (hex64 r)); ("s", JStr (hex64 s)); ("v", JInt v)]).
End signer.

(** ** transport.py

    What [urlopen] and reading the response can come to: a status that is no
    success, a timeout, an [URLError], another exception (a connection the
    server drops, a body cut short), or a body [json.loads] reads or not. *)

Inductive http_outcome :=
  | HttpFailed (status_code : Z)
  | TimedOut
  | Unreachable (reason_is_timeout : bool)
  | Broken (e : exn)
  | Responded (body : result json).

Definition MAINNET_BASE_URL : string := "https://api.hyperliquid.xyz".
Definition TESTNET_BASE_URL : string := "https://api.hyperliquid-testnet.xyz".
Definition DEFAULT_BASE_URL : string := MAINNET_BASE_URL.

Definition post_json (timeout_seconds : Q) (outcome : http_outcome) : result json :=
  if Qle_bool timeout_seconds 0 then Err ValueError else
  match outcome with
  | HttpFailed status_code => Err (map_http_error status_code)
  | TimedOut | Unreachable true => Err ExchangeTimeoutError
  | Unreachable false => Err ExchangeConnectionError
  | Broken e => Err e
  | Responded (Err JSONDecodeError) => Err ExchangeConnectionError
  | Responded body => body
  end.

(** ** The wire text of a decimal *)

Lemma quot10_exact c : c mod 10 = 0 -> Z.quot c 10 * 10 = c.
Proof. intros Hc. pose proof (Z.quot_rem' c 10). pose proof (Z.rem_mod_eq_0 c 10 ltac:(done)). lia. Qed.

Lemma without_zeros_value fuel c e : (value (without_zeros fuel c e) == value (Dec c e))%Q.
Proof.
  revert c e. induction fuel as [|fuel IH]; intros c e; [done|]. cbn [without_zeros].
  destruct (Z.eqb_spec (c mod 10) 0) as [Hc|]; [|done]. rewrite IH. unfold value. cbn [dcoef dexp].
  rewrite -{2}(quot10_exact c Hc) inject_Z_mult p10_plus. change (p10 1) with 10%Q. ring.
Qed.

(** Nothing is left to strip. *)
Lemma without_zeros_last fuel c e : c <> 0 -> Z.abs c < 10 ^ Z.of_nat fuel -> dcoef (without_zeros fuel c e) mod 10 <> 0.
Proof.
  revert c e. induction fuel as [|fuel IH]; intros c e Hc Hb; [cbn in Hb; lia|]. cbn [without_zeros].
  destruct (Z.eqb_spec (c mod 10) 0) as [Hm|]; [|done]. pose proof (quot10_exact c Hm) as Hq.
  apply IH; [lia|]. rewrite Nat2Z.inj_succ Z.pow_succ_r in Hb; lia.
Qed.

Lemma canonical_le c e c' e' : e <= e' -> c mod 10 <> 0 -> (value (Dec c e) == value (Dec c' e'))%Q -> Dec c e = Dec c' e'.
Proof.
  unfold value. cbn [dcoef dexp]. intros He Hc E. rewrite (p10_up e' e He) Qmult_assoc -inject_Z_mult in E.
  apply inject_p10_eq in E. destruct (decide (e = e')) as [->|]; [rewrite Z.sub_diag in E; f_equal; lia|].
  destruct Hc. rewrite E. replace (e' - e) with (Z.succ (e' - e - 1)) by lia. rewrite Z.pow_succ_r; [lia|].
  rewrite (Z.mul_comm 10) Z.mul_assoc. apply Z.mod_mul. done.
Qed.

(** One decimal per number, once no zero is left to strip. *)
Lemma canonical a b : dcoef a mod 10 <> 0 -> dcoef b mod 10 <> 0 -> (value a == value b)%Q -> a = b.
Proof.
  destruct a as [c e], b as [c' e']. cbn [dcoef]. intros Ha Hb E. destruct (Z.le_ge_cases e e').
  - by apply canonical_le.
  - symmetry. by apply canonical_le.
Qed.

Lemma normalize_value d : fits (value d) -> (value (normalize d) == value d)%Q.
Proof.
  intros Hf. rewrite -(dfix_exact d Hf). unfold normalize. destruct (Z.eqb_spec (dcoef (dfix d)) 0) as [Hz|].
  - rewrite value_d0. symmetry. by apply value_zero.
  - rewrite without_zeros_value. by destruct (dfix d).
Qed.

Lemma normalize_canonical a b : fits (value a) -> (value a == value b)%Q -> normalize a = normalize b.
Proof.
  intros Ha E. assert (Hb : fits (value b)) by (eapply fits_proper; [symmetry; exact E|exact Ha]).
  pose proof (normalize_value a Ha) as Va. pose proof (normalize_value b Hb) as Vb.
  assert (Hs : forall d, normalize d = d0 /\ (value (dfix d) == 0)%Q \/ dcoef (normalize d) mod 10 <> 0).
  { intros d. unfold normalize. destruct (Z.eqb_spec (dcoef (dfix d)) 0) as [Hz|Hn]; [left; split; [done|by apply value_zero]|].
    right. apply without_zeros_last; [done|]. pose proof (ndigits_ge1 (dcoef (dfix d))).
    rewrite Z2Nat.id; [lia|]. by apply ndigits_bounds. }
  assert (Hz : (value a == 0)%Q <-> (value b == 0)%Q) by (split; rewrite E; done).
  rewrite -dfix_zero -(dfix_zero b) in Hz.
  destruct (Hs a) as [[-> Ha0]|Ha0].
  - apply Hz in Ha0. apply value_zero in Ha0. unfold normalize. by rewrite Ha0.
  - destruct (Hs b) as [[_ Hb0]|Hb0].
    + apply Hz, value_zero in Hb0. exfalso. apply Ha0. unfold normalize. by rewrite Hb0.
    + apply canonical; [done..|]. by rewrite Va Vb.
Qed.

Definition wire_char (c : ascii) : bool := is_digit c || Ascii.eqb c "." || Ascii.eqb c "-".

Lemma wire_digits s : str_forall is_digit s = true -> str_forall wire_char s = true.
Proof.
  induction s as [|c s IH]; [done|]. cbn [str_forall]. intros [Hc Hs]%andb_true_iff. unfold wire_char. by rewrite Hc IH.
Qed.

Lemma digits_val_trailing s n : digits_val 0 (s +:+ zeros n) = digits_val 0 s * 10 ^ Z.of_nat n.
Proof.
  rewrite digits_val_app. generalize (digits_val 0 s). induction n as [|n IH]; intros x; [cbn; lia|].
  cbn [zeros digits_val]. rewrite IH Nat2Z.inj_succ Z.pow_succ_r; [lia|]. change (digit_val "0") with 0. lia.
Qed.

(** A numeral without an exponent reads as its digits over a power of ten. *)
Lemma numeral_parse (neg : bool) i f : str_forall is_digit i = true -> i <> "" -> str_forall is_digit (default "" f) = true ->
  let text := (if neg then "-" else "") +:+ i +:+ frac_part f in
  let n := digits_val 0 (i +:+ default "" f) in
  dec_parse text = Some (Dec (if neg then - n else n) (0 - slen (default "" f))) /\ str_forall wire_char text = true.
Proof.
  intros Hi Hn Hf. cbv zeta. split.
  - rewrite -(app_nil_r_s (frac_part f)). by apply (dec_parse_parts _ i f "" 0).
  - rewrite !str_forall_app (wire_digits i Hi). destruct f as [f|]; cbn [frac_part default] in *.
    + rewrite str_forall_app (wire_digits f Hf). by destruct neg.
    + by destruct neg.
Qed.

Lemma format_f_parse d : exists d', dec_parse (format_f d) = Some d' /\ (value d' == value d)%Q /\ str_forall wire_char (format_f d) = true.
Proof.
  destruct d as [c e]. unfold format_f. cbn [dcoef dexp]. set (int := nat_str (Z.abs c)). set (len := slen int).
  assert (Hval : digits_val 0 int = Z.abs c) by (apply nat_str_val; lia).
  assert (Hdig : str_forall is_digit int = true) by (apply nat_str_digits; lia).
  assert (Hlen : 1 <= len) by (apply nat_str_len; lia).
  assert (Hc : (if c <? 0 then - Z.abs c else Z.abs c) = c) by (destruct (Z.ltb_spec c 0); lia).
  destruct (Z.leb_spec (e + len) 0) as [Hd|Hd]; [|destruct (Z.leb_spec len (e + len)) as [Hl|Hl]].
  - destruct (numeral_parse (c <? 0) "0" (Some (zeros (Z.to_nat (- (e + len))) +:+ int))) as [E Hw]; [done..| |].
    { cbn [default]. by rewrite str_forall_app zeros_digits. }
    eexists. split_and!; [exact E| |exact Hw]. cbn [default id]. rewrite app_cons_s app_nil_l_s. cbn [digits_val].
    change (10 * 0 + digit_val "0") with 0. rewrite digits_val_zeros Hval Hc slen_app zeros_len. fold len.
    replace (0 - _) with e by lia. done.
  - destruct (numeral_parse (c <? 0) (int +:+ zeros (Z.to_nat (e + len - len))) None) as [E Hw]; [| |done|].
    { by rewrite str_forall_app zeros_digits Hdig. }
    { intros E. apply (f_equal slen) in E. rewrite slen_app zeros_len in E. change (slen "") with 0 in E. unfold len in *. lia. }
    eexists. split_and!; [exact E| |exact Hw]. cbn [default id]. rewrite app_nil_r_s digits_val_trailing Hval.
    replace (if c <? 0 then _ else _) with (c * 10 ^ e).
    2:{ rewrite Z2Nat.id; [lia|]. replace (e + len - len) with e by lia. destruct (Z.ltb_spec c 0); [rewrite Z.abs_neq; [lia|ring]|by rewrite Z.abs_eq]. }
    change (slen "") with 0. unfold value. cbn [dcoef dexp]. rewrite inject_Z_mult -(p10_Z e ltac:(lia)).
    change (p10 (0 - 0)) with 1%Q. ring.
  - set (n := Z.to_nat (e + len)). assert (Htd := str_take_drop n int).
    assert (Htl : String.length (str_take n int) = n). { apply str_take_length. subst n len. unfold slen in *. lia. }
    rewrite -Htd str_forall_app in Hdig. apply andb_true_iff in Hdig as [Hd1 Hd2].
    destruct (numeral_parse (c <? 0) (str_take n int) (Some (str_drop n int))) as [E Hw]; [done| |done|].
    { intros E. rewrite E in Htl. simpl in Htl. lia. }
    eexists. split_and!; [exact E| |exact Hw]. cbn [default id]. rewrite Htd Hval Hc.
    assert (slen (str_drop n int) = - e) as ->; [|by replace (0 - - e) with e by lia].
    pose proof (slen_app (str_take n int) (str_drop n int)) as Ha. rewrite Htd in Ha. fold len in Ha.
    unfold slen at 1 in Ha. rewrite Htl in Ha. lia.
Qed.

(** Round trip. A price or size of at most 28 significant digits loses
    nothing on the wire: its text has digits, a point and a sign only (no
    exponent), it reads back as the same number, and two decimals that denote
    the same number, whatever their exponents, have the same text. *)
Theorem to_wire_exact a b : fits (value a) -> (value a == value b)%Q ->
  to_wire a = to_wire b /\ str_forall wire_char (to_wire a) = true /\
  exists d, dec_parse (to_wire a) = Some d /\ (value d == value a)%Q.
Proof.
  intros Ha E. unfold to_wire. split; [by rewrite (normalize_canonical a b)|].
  destruct (format_f_parse (normalize a)) as (d & Hd & Hv & Hw). split; [done|].
  exists d. split; [done|]. rewrite Hv. by apply normalize_value.
Qed.

Lemma to_wire_exact_witness :
  to_wire (Dec 5 4) = to_wire (Dec 5000000 (-2)) /\ str_forall wire_char (to_wire (Dec 5 4)) = true /\
  exists d, dec_parse (to_wire (Dec 5 4)) = Some d /\ (value d == value (Dec 5 4))%Q.
Proof. apply (to_wire_exact (Dec 5 4) (Dec 5000000 (-2))); [exists 5, 4; split; done|reflexivity]. Defined.

(** Beyond 28 digits [normalize] rounds. *)
Example to_wire_rounds : to_wire (Dec 12345678901234567890123456789 0) = "12345678901234567890123456790".
Proof. vm_compute. reflexivity. Qed.
