(* ===== verification/HyperliquidMapping.v ===== *)
(** * Orders and venue tokens (src/hyperliquid_adapter/mapping.py)

    The durable map between the engine's order ids and the tokens the venue sees,
    over the shared event log: what a run of an adapter has in memory is what its
    events in the log say, whatever the other components append in between, and
    it is one-to-one, because a collision of tokens is refused. *)

From Stdlib Require Import ssreflect ZArith Lia Ascii String.
From stdpp Require Import base strings numbers gmap sets list.
From S2P Require Import Prelude PyText PyDict PyBytes PyJson PyJsonFacts PyDecimal EventCodec EventStore EventStoreFacts EventLog HyperliquidCodec.
#[local] Open Scope Z_scope.

Definition _SOURCE_TAG : string := "hyperliquid_adapter".
Definition _ACTION : string := "venue_order_mapped".

Definition mint_venue_token (client_order_id : string) : string := "0x" +:+ str_take 32 (hex (sha256 (utf8 client_order_id))).

Definition _idempotency_key (account client_order_id : string) : string :=
  _SOURCE_TAG +:+ ":" +:+ int_str (slen account) +:+ ":" +:+ account +:+ ":" +:+ mint_venue_token client_order_id.

(** [om_stored]: there is a store. *)
Record OrderIdMapping := {
  om_account : string;
  om_stored : bool;
  om_token_to_cid : list (string * string);
  om_cid_to_token : list (string * string)
}.

Definition is_text (s : string) (j : option json) : bool := match j with Some (JStr t) => String.eqb t s | _ => false end.

Definition _is_own (account : string) (event : Event) : bool :=
  is_text _SOURCE_TAG (jget "source" (ev_payload event)) && is_text account (jget "account" (ev_payload event))
  && is_text _ACTION (jget "action" (ev_payload event)).

Definition truthy_value (j : option json) : bool := match j with Some j => HyperliquidCodec.truthy j | None => false end.

(** Ids that are neither text nor empty cannot be keys ([TypeError]); a number
    in the place of one is not modelled apart from them. *)
Definition _apply (event : Event) (self : OrderIdMapping) : result OrderIdMapping :=
  let cid := jget "client_order_id" (ev_payload event) in
  let token := jget "venue_client_id" (ev_payload event) in
  if truthy_value cid && truthy_value token then
    match cid, token with
    | Some (JStr cid), Some (JStr token) =>
        Ok {| om_account := om_account self; om_stored := om_stored self;
              om_token_to_cid := dset token cid (om_token_to_cid self);
              om_cid_to_token := dset cid token (om_cid_to_token self) |}
    | _, _ => Err TypeError
    end
  else Ok self.

Definition rebuild_event (self : OrderIdMapping) (event : Event) : result OrderIdMapping :=
  if _is_own (om_account self) event then _apply event self else Ok self.

Definition empty_mapping (account : string) (stored : bool) : OrderIdMapping :=
  {| om_account := account; om_stored := stored; om_token_to_cid := []; om_cid_to_token := [] |}.

Definition mapping_payload (account client_order_id token : string) : list (string * json) :=
  [("source", JStr _SOURCE_TAG); ("account", JStr account); ("action", JStr _ACTION); ("venue", JStr "hyperliquid");
   ("client_order_id", JStr client_order_id); ("venue_client_id", JStr token)].

Section mapping.
Context {L : Type} `{EventLog L}.

(** [OrderIdMapping(account, store)] *)
Definition mapping_init (account : string) (store : option L) : result OrderIdMapping :=
  if blank account then Err ValueError else
  match store with
  | None => Ok (empty_mapping account false)
  | Some l => es ← log_replay l; fold_result rebuild_event (empty_mapping account true) es
  end.

(** A store and the map over it. *)
Notation W := (L * OrderIdMapping)%type.

Definition record (client_order_id : string) : M W string := fun w =>
  let '(l, self) := w in
  if negb (om_stored self) then (w, Err ExchangeAdapterError) else
  match dget client_order_id (om_cid_to_token self) with
  | Some known => (w, Ok known)
  | None =>
      let token := mint_venue_token client_order_id in
      let account := om_account self in
      match log_append EventType.ORDER_SUBMITTED (mapping_payload account client_order_id token)
              (Some (_idempotency_key account client_order_id)) l with
      | (l, Err e) => ((l, self), Err e)
      | (l, Ok event) =>
          if negb (_is_own account event) || negb (is_text client_order_id (jget "client_order_id" (ev_payload event)))
          then ((l, self), Err ExchangeAdapterError) else
          match jget "venue_client_id" (ev_payload event) with
          | Some (JStr stored_token) =>
              if str_empty stored_token then ((l, self), Err ExchangeAdapterError) else
              match _apply event self with
              | Ok self => ((l, self), Ok stored_token)
              | Err e => ((l, self), Err e)
              end
          | Some j => ((l, self), Err (if HyperliquidCodec.truthy j then TypeError else ExchangeAdapterError))
          | None => ((l, self), Err ExchangeAdapterError)
          end
      end
  end.
End mapping.

Definition resolve (self : OrderIdMapping) (venue_token : json) : result (option string) := lookup_in (om_token_to_cid self) venue_token.
Definition known_token (client_order_id : string) (self : OrderIdMapping) : option string := dget client_order_id (om_cid_to_token self).
Definition mapping_len (self : OrderIdMapping) : nat := length (om_token_to_cid self).

(** ** What the log says *)

Definition own_events (account : string) (es : list Event) : list Event := List.filter (_is_own account) es.

(** The event of an order: its ids and its key. *)
Definition event_for (account : string) (e : Event) (cid : string) : Prop :=
  jget "client_order_id" (ev_payload e) = Some (JStr cid) /\ jget "venue_client_id" (ev_payload e) = Some (JStr (mint_venue_token cid)) /\
  key_of e = Some (_idempotency_key account cid).

(** An event that is not this adapter's, under a key that is not either. *)
Definition foreign (account : string) (e : Event) : Prop :=
  _is_own account e = false /\ forall cid, key_of e <> Some (_idempotency_key account cid).

(** The adapter's events in [es] are those of the orders [cids], whose tokens differ. *)
Record mapped (account : string) (es : list Event) (cids : list string) : Prop := {
  mp_own : Forall2 (event_for account) (own_events account es) cids;
  mp_foreign e : e ∈ es -> _is_own account e = false -> foreign account e;
  mp_distinct : NoDup (map mint_venue_token cids);
  mp_named : Forall (fun cid => cid <> "") cids
}.

(** The map of the orders [cids]. *)
Definition mapping_of (account : string) (cids : list string) : OrderIdMapping :=
  {| om_account := account; om_stored := true;
     om_token_to_cid := map (fun c => (mint_venue_token c, c)) cids; om_cid_to_token := map (fun c => (c, mint_venue_token c)) cids |}.

Lemma token_nonempty cid : str_empty (mint_venue_token cid) = false.
Proof. done. Qed.
#[local] Opaque mint_venue_token.

Lemma is_text_spec s j : is_text s j = true <-> j = Some (JStr s).
Proof. destruct j as [[]|]; cbn; split; try done; [by intros ->%String.eqb_eq|intros [= ->]; apply String.eqb_refl]. Qed.

Lemma key_token account cid cid' : _idempotency_key account cid = _idempotency_key account cid' -> mint_venue_token cid = mint_venue_token cid'.
Proof. unfold _idempotency_key. by intros E%app_inj_l_s%app_inj_l_s%app_inj_l_s%app_inj_l_s%app_inj_l_s%app_inj_l_s. Qed.
Lemma token_key account cid cid' : mint_venue_token cid = mint_venue_token cid' -> _idempotency_key account cid = _idempotency_key account cid'.
Proof. unfold _idempotency_key. by intros ->. Qed.

Section cids.
Context (cids : list string).
Hypothesis Hd : NoDup (map mint_venue_token cids).

Lemma cids_NoDup : NoDup cids.
Proof. by eapply NoDup_fmap_1. Qed.

Lemma token_keys_of account : dkeys (om_token_to_cid (mapping_of account cids)) = map mint_venue_token cids.
Proof. cbn. unfold dkeys. induction cids as [|c l IH]; [done|]. cbn. apply NoDup_cons in Hd as [_ Hd']. by rewrite IH. Qed.
Lemma cid_keys_of account : dkeys (om_cid_to_token (mapping_of account cids)) = cids.
Proof. cbn. unfold dkeys. clear Hd. induction cids as [|c l IH]; [done|]. cbn. by f_equal. Qed.

Lemma known_in account cid : cid ∈ cids -> known_token cid (mapping_of account cids) = Some (mint_venue_token cid).
Proof.
  intros Hc. apply elem_dget; [rewrite cid_keys_of; apply cids_NoDup|]. cbn. apply list_elem_of_fmap. by exists cid.
Qed.
Lemma known_out account cid : cid ∉ cids -> known_token cid (mapping_of account cids) = None.
Proof. intros Hc. apply dget_None. by rewrite cid_keys_of. Qed.

Lemma resolve_in account cid : cid ∈ cids -> dget (mint_venue_token cid) (om_token_to_cid (mapping_of account cids)) = Some cid.
Proof.
  intros Hc. apply elem_dget; [by rewrite token_keys_of|]. cbn. apply list_elem_of_fmap. by exists cid.
Qed.
Lemma resolve_from account token cid : dget token (om_token_to_cid (mapping_of account cids)) = Some cid ->
  cid ∈ cids /\ token = mint_venue_token cid.
Proof. intros (c & E & Hc)%dget_elem%list_elem_of_fmap. by injection E as -> ->. Qed.
End cids.

Lemma rebuild_step account cids e cid : event_for account e cid -> _is_own account e = true -> cid <> "" ->
  NoDup (map mint_venue_token (cids ++ [cid])) -> _apply e (mapping_of account cids) = Ok (mapping_of account (cids ++ [cid])).
Proof.
  intros (Hc & Ht & _) Ho Hn Hd. rewrite map_app in Hd. apply NoDup_app in Hd as (Hd & Hx & _).
  assert (Hcid : mint_venue_token cid ∉ map mint_venue_token cids) by (intros Hin; by apply (Hx _ Hin), list_elem_of_singleton).
  unfold _apply. rewrite Hc Ht. cbn [truthy_value HyperliquidCodec.truthy]. rewrite token_nonempty.
  destruct (str_empty cid) eqn:E; [by destruct cid|]. cbn [negb andb]. do 2 f_equal. cbn [om_account om_stored mapping_of].
  rewrite !dset_fresh.
  - apply din_false. by rewrite (token_keys_of _ Hd account).
  - apply din_false. rewrite (cid_keys_of _ account). intros Hin. apply Hcid. by apply list_elem_of_fmap_2.
  - unfold mapping_of. by rewrite !map_app.
Qed.

Lemma rebuild_mapped account es : forall cids0 cids, Forall2 (event_for account) (own_events account es) cids ->
  NoDup (map mint_venue_token (cids0 ++ cids)) -> Forall (fun cid => cid <> "") cids ->
  fold_result rebuild_event (mapping_of account cids0) es = Ok (mapping_of account (cids0 ++ cids)).
Proof.
  induction es as [|e es IH]; intros cids0 cids Hf Hd Hn; cbn [own_events List.filter fold_result] in *.
  - apply Forall2_nil_inv_l in Hf as ->. by rewrite app_nil_r.
  - change (om_account (mapping_of account cids0)) with account. unfold rebuild_event at 1.
    change (om_account (mapping_of account cids0)) with account. destruct (_is_own account e) eqn:Ho; [|by apply IH].
    apply Forall2_cons_inv_l in Hf as (cid & cids' & He & Hf & ->). apply Forall_cons in Hn as [Hcid Hn].
    rewrite (cons_middle cid cids0 cids') app_assoc in Hd |- *. rewrite (rebuild_step account cids0 e cid) //; [|by apply IH].
    rewrite map_app in Hd. apply NoDup_app in Hd. tauto.
Qed.

Lemma own_events_app account es es' : own_events account (es ++ es') = own_events account es ++ own_events account es'.
Proof. apply List.filter_app. Qed.

Lemma mapped_foreign account es cids e : mapped account es cids -> foreign account e -> mapped account (es ++ [e]) cids.
Proof.
  intros [Ho Hf Hd Hn] He. split; [| |done..].
  - rewrite own_events_app. cbn. by rewrite (proj1 He) app_nil_r.
  - intros x [Hx| ->%list_elem_of_singleton]%elem_of_app; [by apply Hf|done].
Qed.

Lemma mapped_new account es cids e cid : mapped account es cids -> _is_own account e = true -> event_for account e cid ->
  cid <> "" -> mint_venue_token cid ∉ map mint_venue_token cids -> mapped account (es ++ [e]) (cids ++ [cid]).
Proof.
  intros [Ho Hf Hd Hn] He Hc Hcid Hnew. split.
  - rewrite own_events_app. cbn. rewrite He. apply Forall2_app; [done|]. by apply Forall2_cons.
  - intros x [Hx| ->%list_elem_of_singleton]%elem_of_app Hx'; [by apply Hf|congruence].
  - rewrite map_app. apply NoDup_app. split_and!; [done| |apply NoDup_singleton]. by intros x Hx ->%list_elem_of_singleton.
  - apply Forall_app. split; [done|]. by apply Forall_singleton.
Qed.

Lemma mapped_none account es : Forall (foreign account) es -> mapped account es [].
Proof.
  intros Hf. split; [| |constructor|constructor].
  - induction Hf as [|e es He Hes IH]; [constructor|]. cbn. by rewrite (proj1 He).
  - intros e He _. by eapply Forall_forall in Hf.
Qed.

Lemma own_mapping_payload account cid token e : ev_payload e = JObj (mapping_payload account cid token) -> _is_own account e = true.
Proof. intros Hp. unfold _is_own. rewrite Hp. cbn. by rewrite String.eqb_refl. Qed.

Section facts.
Context {L : Type} `{EventLog L}.
Notation W := (L * OrderIdMapping)%type.

Lemma mapping_payload_wf account cid token : json_wf (JObj (mapping_payload account cid token)) = true.
Proof. apply json_wf_obj. split; [apply (bool_decide_eq_true_1 _); vm_compute; reflexivity|]. by repeat constructor. Qed.

(** The event under the key of [cid], when there is one. *)
Lemma find_mapped account es cids cid e : mapped account es cids -> find_event (_idempotency_key account cid) es = Some e ->
  exists c, c ∈ cids /\ event_for account e c /\ _is_own account e = true /\ mint_venue_token c = mint_venue_token cid.
Proof.
  intros [Ho Hf _ _] [He Hk]%find_event_Some. destruct (_is_own account e) eqn:E.
  2:{ destruct (Hf e He E) as [_ Hx]. by destruct (Hx cid). }
  assert (Hin : e ∈ own_events account es) by (by apply list_elem_of_In, List.filter_In; split; [apply list_elem_of_In|]).
  apply list_elem_of_lookup_1 in Hin as [i Hi]. destruct (Forall2_lookup_l _ _ _ _ _ Ho Hi) as (c & Hc & Hfor).
  exists c. split_and!; [by apply list_elem_of_lookup_2 in Hc|done..|]. destruct Hfor as (_ & _ & Hk').
  rewrite Hk in Hk'. apply (inj Some) in Hk'. symmetry in Hk'. by apply key_token in Hk'.
Qed.

(** What recording an order comes to. *)
Inductive record_outcome (account : string) (cids : list string) (cid : string) (l : L) : W -> result string -> Prop :=
  | ro_known : cid ∈ cids -> record_outcome account cids cid l (l, mapping_of account cids) (Ok (mint_venue_token cid))
  | ro_new l' e : mint_venue_token cid ∉ map mint_venue_token cids -> log_events l' = log_events l ++ [e] ->
      ev_payload e = JObj (mapping_payload account cid (mint_venue_token cid)) ->
      mapped account (log_events l') (cids ++ [cid]) ->
      record_outcome account cids cid l (l', mapping_of account (cids ++ [cid])) (Ok (mint_venue_token cid))
  | ro_refused l' x : log_events l' = log_events l -> x ∈ [MalformedEventError; OSError; StructError] ->
      record_outcome account cids cid l (l', mapping_of account cids) (Err x)
  | ro_collision l' c : log_events l' = log_events l -> c ∈ cids -> c <> cid -> mint_venue_token c = mint_venue_token cid ->
      record_outcome account cids cid l (l', mapping_of account cids) (Err ExchangeAdapterError).

Lemma record_cases account cids cid l : log_ok l -> mapped account (log_events l) cids -> cid <> "" ->
  let '(w, r) := record cid (l, mapping_of account cids) in log_ok w.1 /\ record_outcome account cids cid l w r.
Proof.
  intros Hl Hm Hc. unfold record. cbn [om_stored om_account mapping_of negb]. pose proof (mp_distinct _ _ _ Hm) as Hd.
  destruct (decide (cid ∈ cids)) as [Hin|Hout].
  { pose proof (known_in cids Hd account cid Hin) as Hk. unfold known_token in Hk. cbn in Hk. rewrite Hk. split; [done|by constructor]. }
  pose proof (known_out cids account cid Hout) as Hk. unfold known_token in Hk. cbn in Hk. rewrite Hk.
  set (p := mapping_payload account cid (mint_venue_token cid)). set (key := _idempotency_key account cid).
  pose proof (log_append_ok EventType.ORDER_SUBMITTED p (Some key) l Hl (mapping_payload_wf _ _ _)) as Hok.
  destruct (log_append EventType.ORDER_SUBMITTED p (Some key) l) as [l' r] eqn:E. cbn [fst] in Hok.
  pose proof (log_append_cases _ _ _ _ _ _ Hl E) as Ha.
  remember (log_events l') as es' eqn:Hes. destruct Ha as [k e Hke Hf|e Hnew _ Hp Hke _|x Hx].
  - injection Hke as <-. destruct (find_mapped _ _ _ _ _ Hm Hf) as (c & Hcin & (Hid & Htok & Hck) & Hown & Heq).
    assert (Hne : c <> cid) by (by intros ->). rewrite Hown Hid. cbn [negb orb is_text].
    rewrite (proj2 (String.eqb_neq c cid) Hne). cbn [negb]. split; [done|]. by eapply ro_collision.
  - rewrite (own_mapping_payload _ _ _ _ Hp) Hp. cbn -[mint_venue_token str_empty]. rewrite String.eqb_refl. cbn -[mint_venue_token str_empty].
    rewrite token_nonempty.
    assert (Hmt : mint_venue_token cid ∉ map mint_venue_token cids).
    { intros (c & Heq & Hcin)%list_elem_of_fmap.
      assert (Hx : exists e', e' ∈ own_events account (log_events l) /\ event_for account e' c).
      { apply list_elem_of_lookup_1 in Hcin as [i Hi]. destruct (Forall2_lookup_r _ _ _ _ _ (mp_own _ _ _ Hm) Hi) as (e' & He' & ?).
        exists e'. split; [by apply list_elem_of_lookup_2 in He'|done]. }
      destruct Hx as (e' & He' & _ & _ & Hke'). apply list_elem_of_In, List.filter_In in He' as [He' _].
      specialize (Hnew key eq_refl). apply (proj1 (find_event_None _ _) Hnew e'); [by apply list_elem_of_In|].
      rewrite Hke'. f_equal. symmetry. by apply token_key. }
    assert (Hfor : event_for account e cid) by (split_and!; by rewrite ?Hp).
    rewrite (rebuild_step account cids e cid Hfor (own_mapping_payload _ _ _ _ Hp) Hc).
    { rewrite map_app. apply NoDup_app. split_and!; [done| |apply NoDup_singleton]. by intros x Hx ->%list_elem_of_singleton. }
    split; [done|]. apply (ro_new _ _ _ _ _ e); [done..|]. rewrite -Hes. apply mapped_new; try done. by eapply own_mapping_payload.
  - split; [done|]. by apply ro_refused.
Qed.
End facts.

(** ** A run: orders recorded, and the other components' appends in between *)

Section run.
Context {L : Type} `{EventLog L} (account : string).
Notation W := (L * OrderIdMapping)%type.

Definition foreign_append (payload : list (string * json)) (key : string) : Prop :=
  (forall e, ev_payload e = JObj payload -> _is_own account e = false) /\ forall cid, key <> _idempotency_key account cid.

Inductive mapping_step (w : W) : W -> Prop :=
  | ms_record cid : cid <> "" -> mapping_step w (record cid w).1
  | ms_foreign ty payload key : foreign_append payload key -> json_wf (JObj payload) = true ->
      mapping_step w ((log_append ty payload (Some key) w.1).1, w.2).

(** What is in memory is the map of the orders in the log. *)
Definition mapping_inv (w : W) : Prop := log_ok w.1 /\ exists cids, mapped account (log_events w.1) cids /\ w.2 = mapping_of account cids.

Lemma foreign_append_keeps ty payload key : foreign_append payload key -> json_wf (JObj payload) = true -> forall l m,
  mapping_inv (l, m) -> mapping_inv ((log_append ty payload (Some key) l).1, m).
Proof.
  intros [Hp Hk] Hwf l m [Hl (cids & Hm & Em)]. cbn [fst snd] in *. subst m. split; [by apply log_append_ok|]. exists cids. split; [|done]. cbn [fst].
  pose proof (log_append_spec ty payload (Some key) l Hl) as Ha. destruct Ha as [|e ? ? Hpe Hke|]; [done| |done].
  apply mapped_foreign; [done|]. split; [by apply Hp|]. intros cid. rewrite Hke. intros [= E]. by apply (Hk cid).
Qed.

Lemma record_keeps cid : cid <> "" -> preserves mapping_inv (record cid).
Proof.
  intros Hc [l m] [Hl (cids & Hm & Em)]. cbn [fst snd] in *. subst m. pose proof (record_cases account cids cid l Hl Hm Hc) as Ho.
  destruct (record cid (l, mapping_of account cids)) as [w r]. destruct Ho as [Hok Ho]. split; [done|].
  destruct Ho as [|? ? ? ? ? ?|? ? E|? ? E]; cbn [fst snd]; [by exists cids|by eexists|rewrite E; by exists cids..].
Qed.

Lemma mapping_run_inv w w' : mapping_inv w -> rtc mapping_step w w' -> mapping_inv w'.
Proof.
  intros Hw Hr. induction Hr as [|w w1 w' Hs _ IH]; [done|]. apply IH. destruct Hs as [cid Hc|].
  - by apply record_keeps.
  - destruct w. by apply foreign_append_keeps.
Qed.

Lemma mapping_inv_fresh l : log_ok l -> Forall (foreign account) (log_events l) -> mapping_inv (l, empty_mapping account true).
Proof. intros Hl Hf. split; [done|]. exists []. split; [by apply mapped_none|done]. Qed.

(** C20: refinement. From a log without orders of this account, whatever orders
    are recorded and whatever the other components append in between (also other
    accounts' adapters), with any append refused by the disk: the map in memory
    is the one a new adapter rebuilds from the log, and it is one-to-one between
    orders and tokens: a token resolves to an order exactly when the order is
    known under it, and then it is the order's minted token and the log has the
    order's event. *)
Theorem mapping_is_the_log l w : blank account = false -> log_ok l -> Forall (foreign account) (log_events l) ->
  rtc mapping_step (l, empty_mapping account true) w ->
  mapping_init account (Some w.1) = Ok w.2 /\
  forall cid token,
    (resolve w.2 (JStr token) = Ok (Some cid) <-> known_token cid w.2 = Some token) /\
    (known_token cid w.2 = Some token -> token = mint_venue_token cid /\
       exists e, e ∈ log_events w.1 /\ _is_own account e = true /\ event_for account e cid).
Proof.
  intros Hb Hl Hf Hr. pose proof (mapping_run_inv _ _ (mapping_inv_fresh l Hl Hf) Hr) as [Hok (cids & Hm & E)].
  destruct w as [l' m]. cbn [fst snd] in *. subst m. pose proof (mp_distinct _ _ _ Hm) as Hd. split.
  - unfold mapping_init. rewrite Hb log_replay_events //. cbn [mbind result_bind].
    rewrite (rebuild_mapped account (log_events l') [] cids) //; apply Hm.
  - assert (Hk : forall cid token, known_token cid (mapping_of account cids) = Some token -> cid ∈ cids /\ token = mint_venue_token cid).
    { intros cid token (c & [= <- <-] & Hc)%dget_elem%list_elem_of_fmap. done. }
    intros cid token. split; [split|]; [|intros [Hc ->]%Hk..].
    + intros [= E]. apply (resolve_from cids account) in E as [Hc ->]. by apply (known_in cids Hd).
    + unfold resolve, lookup_in. cbn [hashable]. by rewrite resolve_in.
    + split; [done|]. apply list_elem_of_lookup_1 in Hc as [i Hi].
      destruct (Forall2_lookup_r _ _ _ _ _ (mp_own _ _ _ Hm) Hi) as (e & He & Hfor). exists e.
      apply list_elem_of_lookup_2, list_elem_of_In, List.filter_In in He as [He Ho]. split_and!; [by apply list_elem_of_In|done..].
Qed.

(** An order whose token is another order's is refused. *)
Lemma collision_refused w cid other : mapping_inv w -> cid <> "" -> known_token other w.2 = Some (mint_venue_token cid) -> other <> cid ->
  known_token cid w.2 = None ->
  let '(w', r) := record cid w in
  is_ok r = false /\ log_events w'.1 = log_events w.1 /\ w'.2 = w.2.
Proof.
  destruct w as [l m]. intros [Hl (cids & Hm & Em)] Hc Ho Hne Hn. cbn [fst snd] in *. subst m.
  pose proof (record_cases account cids cid l Hl Hm Hc) as Hr. destruct (record cid (l, mapping_of account cids)) as [w' r].
  destruct Hr as [_ Hr]. pose proof (mp_distinct _ _ _ Hm) as Hd.
  destruct Hr as [Hin|? e Hnew|? ? E|? ? E]; cbn [fst snd is_ok]; [| |done..].
  - rewrite (known_in cids Hd account cid Hin) in Hn. done.
  - destruct Hnew. apply dget_elem, list_elem_of_fmap in Ho as (c & E & Hin).
    pose proof (f_equal snd E) as Et. cbn [snd] in Et. rewrite Et. by apply list_elem_of_fmap_2.
Qed.

(** An event found under an order's key that is not this adapter's
    event for this order (another component's, another account's, another order
    with the same token) is never trusted: the call raises, nothing is appended,
    and the map is as before, so there is no token to transmit. *)
Lemma stolen_key_refused cid l m e : log_ok l -> om_account m = account -> known_token cid m = None ->
  find_event (_idempotency_key account cid) (log_events l) = Some e ->
  _is_own account e && is_text cid (jget "client_order_id" (ev_payload e)) = false ->
  let '(w', r) := record cid (l, m) in is_ok r = false /\ log_events w'.1 = log_events l /\ w'.2 = m.
Proof.
  intros Hl Ha Hk Hf Ho. unfold record. rewrite Ha. unfold known_token in Hk. rewrite Hk. destruct (om_stored m); cbn [negb]; [|done].
  destruct (log_append _ _ _ l) as [l' r] eqn:E. pose proof (log_append_cases _ _ _ _ _ _ Hl E) as Hc.
  remember (log_events l') as es'. destruct Hc as [k e' Hke Hf'|e' Hnew|x Hx].
  - injection Hke as <-. rewrite Hf in Hf'. apply (inj Some) in Hf' as <-. rewrite -negb_andb Ho. cbn [negb]. done.
  - rewrite (Hnew _ eq_refl) in Hf. done.
  - done.
Qed.

Lemma other_account_foreign account' cid token : account' <> account ->
  foreign_append (mapping_payload account' cid token) (_idempotency_key account' cid).
Proof.
  intros Hne. split.
  - intros e He. unfold _is_own. rewrite He. cbn. by rewrite (proj2 (String.eqb_neq account' account)).
  - intros c. unfold _idempotency_key. intros E%app_inj_l_s%app_inj_l_s. apply int_str_colon_inj in E as [Hlen E]; [|apply slen_nonneg..].
    apply Hne. apply app_inj_length in E; [tauto|]. unfold slen in Hlen. lia.
Qed.
End run.

(** A log in which another component took the key of the order ["t-1"]. *)
Definition taken_log : MemLog :=
  {| ml_events := [new_event 1 EventType.HEALTH_ALERT "t" 1 (Some (_idempotency_key "0xabc" "t-1")) [("source", JStr "other")]]; ml_outcomes := [] |}.

Example stolen_key_refused_sample :
  let '(w', r) := record "t-1" (taken_log, empty_mapping "0xabc" true) in
  is_ok r = false /\ log_events w'.1 = log_events taken_log /\ w'.2 = empty_mapping "0xabc" true.
Proof.
  apply (stolen_key_refused "0xabc" "t-1" taken_log (empty_mapping "0xabc" true)
    (new_event 1 EventType.HEALTH_ALERT "t" 1 (Some (_idempotency_key "0xabc" "t-1")) [("source", JStr "other")])); done.
Defined.
