(* ===== verification/Hyperliquid.v ===== *)
(** * The Hyperliquid adapter (src/hyperliquid_adapter/adapter.py)

    The concrete adapter over the venue's REST interface: its reads, its gate in
    front of every mutation, and the four transmissions, over the shared log. The
    requests it sends are kept in order; what the venue answers, msgpack, keccak,
    the wallet's signatures and the text of a JSON value are the type class. *)

From Stdlib Require Import ssreflect ZArith Lia Ascii String QArith.
From stdpp Require Import base strings numbers gmap sets list.
From S2P Require Import Prelude PyText PyDict PyBytes PyJson PyDecimal EventStore EventLog ExchangeModels ExchangeAdapter.
From S2P Require MockExchange SecretsBoundary.
From S2P Require Import Validation HyperliquidCodec HyperliquidWire HyperliquidMapping.
#[local] Open Scope Z_scope.

(** A request: its URL and body. [hv_network] answers the last of the requests
    sent so far, as [post_json] does. *)
Notation http_request := (string * json)%type.
Class HyperliquidVenue := {
  hv_network : list http_request -> result json;
  hv_packb : json -> result bytes;
  hv_keccak : bytes -> bytes;
  hv_sign_message : string -> string -> bytes -> Z * Z * Z;
  hv_repr : json -> string
}.

(** [hl_sent], [hl_clock] and [hl_clock_ms] are the environment: the requests
    sent, and the next readings of the two clocks. *)
Record Hyperliquid (L : Type) := {
  hl_signing_key_ref : string;
  hl_base_url : string;
  hl_log : L;
  hl_mapping : OrderIdMapping;
  hl_signing : SecretsBoundary.SigningBoundary;
  hl_wallet_signer : option HyperliquidWalletSigner;
  hl_connected : bool;
  hl_last_checked_at : option string;
  hl_nonce : Z;
  hl_asset_index_cache : option (list (string * Z));
  hl_sent : list http_request;
  hl_clock : list string;
  hl_clock_ms : list Z
}.
Arguments hl_signing_key_ref {L}. Arguments hl_base_url {L}. Arguments hl_log {L}. Arguments hl_mapping {L}.
Arguments hl_signing {L}. Arguments hl_wallet_signer {L}. Arguments hl_connected {L}. Arguments hl_last_checked_at {L}.
Arguments hl_nonce {L}. Arguments hl_asset_index_cache {L}. Arguments hl_sent {L}. Arguments hl_clock {L}. Arguments hl_clock_ms {L}.

Section adapter.
Context {L : Type} `{EventLog L} `{HyperliquidVenue}.
Notation S := (Hyperliquid L).
Implicit Types (self : S).

(** ** Field updates *)

Definition with_stored (l : L) (m : OrderIdMapping) self : S :=
  {| hl_signing_key_ref := hl_signing_key_ref self; hl_base_url := hl_base_url self; hl_log := l; hl_mapping := m;
     hl_signing := hl_signing self; hl_wallet_signer := hl_wallet_signer self; hl_connected := hl_connected self;
     hl_last_checked_at := hl_last_checked_at self; hl_nonce := hl_nonce self; hl_asset_index_cache := hl_asset_index_cache self;
     hl_sent := hl_sent self; hl_clock := hl_clock self; hl_clock_ms := hl_clock_ms self |}.
Definition with_signers (b : SecretsBoundary.SigningBoundary) (w : option HyperliquidWalletSigner) self : S :=
  {| hl_signing_key_ref := hl_signing_key_ref self; hl_base_url := hl_base_url self; hl_log := hl_log self; hl_mapping := hl_mapping self;
     hl_signing := b; hl_wallet_signer := w; hl_connected := hl_connected self;
     hl_last_checked_at := hl_last_checked_at self; hl_nonce := hl_nonce self; hl_asset_index_cache := hl_asset_index_cache self;
     hl_sent := hl_sent self; hl_clock := hl_clock self; hl_clock_ms := hl_clock_ms self |}.
Definition with_connection (connected : bool) (checked : option string) self : S :=
  {| hl_signing_key_ref := hl_signing_key_ref self; hl_base_url := hl_base_url self; hl_log := hl_log self; hl_mapping := hl_mapping self;
     hl_signing := hl_signing self; hl_wallet_signer := hl_wallet_signer self; hl_connected := connected;
     hl_last_checked_at := checked; hl_nonce := hl_nonce self; hl_asset_index_cache := hl_asset_index_cache self;
     hl_sent := hl_sent self; hl_clock := hl_clock self; hl_clock_ms := hl_clock_ms self |}.
Definition with_nonce (n : Z) (clock_ms : list Z) self : S :=
  {| hl_signing_key_ref := hl_signing_key_ref self; hl_base_url := hl_base_url self; hl_log := hl_log self; hl_mapping := hl_mapping self;
     hl_signing := hl_signing self; hl_wallet_signer := hl_wallet_signer self; hl_connected := hl_connected self;
     hl_last_checked_at := hl_last_checked_at self; hl_nonce := n; hl_asset_index_cache := hl_asset_index_cache self;
     hl_sent := hl_sent self; hl_clock := hl_clock self; hl_clock_ms := clock_ms |}.
Definition with_assets (c : option (list (string * Z))) self : S :=
  {| hl_signing_key_ref := hl_signing_key_ref self; hl_base_url := hl_base_url self; hl_log := hl_log self; hl_mapping := hl_mapping self;
     hl_signing := hl_signing self; hl_wallet_signer := hl_wallet_signer self; hl_connected := hl_connected self;
     hl_last_checked_at := hl_last_checked_at self; hl_nonce := hl_nonce self; hl_asset_index_cache := c;
     hl_sent := hl_sent self; hl_clock := hl_clock self; hl_clock_ms := hl_clock_ms self |}.
Definition with_sent (sent : list http_request) self : S :=
  {| hl_signing_key_ref := hl_signing_key_ref self; hl_base_url := hl_base_url self; hl_log := hl_log self; hl_mapping := hl_mapping self;
     hl_signing := hl_signing self; hl_wallet_signer := hl_wallet_signer self; hl_connected := hl_connected self;
     hl_last_checked_at := hl_last_checked_at self; hl_nonce := hl_nonce self; hl_asset_index_cache := hl_asset_index_cache self;
     hl_sent := sent; hl_clock := hl_clock self; hl_clock_ms := hl_clock_ms self |}.
Definition with_clock (clock : list string) self : S :=
  {| hl_signing_key_ref := hl_signing_key_ref self; hl_base_url := hl_base_url self; hl_log := hl_log self; hl_mapping := hl_mapping self;
     hl_signing := hl_signing self; hl_wallet_signer := hl_wallet_signer self; hl_connected := hl_connected self;
     hl_last_checked_at := hl_last_checked_at self; hl_nonce := hl_nonce self; hl_asset_index_cache := hl_asset_index_cache self;
     hl_sent := hl_sent self; hl_clock := clock; hl_clock_ms := hl_clock_ms self |}.

(** [base_url.rstrip("/")] *)
Fixpoint rstrip_slash (s : string) : string :=
  match s with
  | "" => ""
  | String c s => match rstrip_slash s with "" => if Ascii.eqb c "/" then "" else String c "" | s => String c s end
  end.

(** A signer of the other network than that of a known endpoint is refused. *)
Definition network_matches (base_url : string) (wallet_signer : option HyperliquidWalletSigner) : result unit :=
  let url := rstrip_slash base_url in
  let expected := if String.eqb url MAINNET_BASE_URL then Some true else if String.eqb url TESTNET_BASE_URL then Some false else None in
  match wallet_signer, expected with
  | Some w, Some mainnet => require (Bool.eqb mainnet (ws_is_mainnet w)) ValueError
  | _, _ => Ok tt
  end.

(** The constructor, after the template's own checks; [store] is the log when
    [stored]. *)
Definition hyperliquid_init (signing : SecretsBoundary.SigningBoundary) (signing_key_ref account_address base_url : string)
    (timeout_seconds : Q) (stored : bool) (store : L) (wallet_signer : option HyperliquidWalletSigner)
    (clock : list string) (clock_ms : list Z) : result S :=
  if blank account_address then Err ValueError
  else if Qle_bool timeout_seconds 0 then Err ValueError
  else
    mapping ← mapping_init account_address (if stored then Some store else None);
    network_matches base_url wallet_signer;;
    Ok {| hl_signing_key_ref := signing_key_ref; hl_base_url := base_url; hl_log := store; hl_mapping := mapping;
          hl_signing := signing; hl_wallet_signer := wallet_signer; hl_connected := false; hl_last_checked_at := None;
          hl_nonce := 0; hl_asset_index_cache := None; hl_sent := []; hl_clock := clock; hl_clock_ms := clock_ms |}.

Definition wallet_address self : option string := ws_address <$> hl_wallet_signer self.

(** ** Internal helpers *)

Definition _require_connected : M S unit := fun self => (self, require (hl_connected self) ExchangeConnectionError).

(** [_now()] *)
Definition now : M S string := fun self =>
  match hl_clock self with
  | t :: ts => (with_clock ts self, Ok t)
  | [] => (self, Ok "")
  end.

(** [self._transport(base_url + path, body, timeout).body] *)
Definition post (path : string) (body : json) : M S json := fun self =>
  let sent := hl_sent self ++ [(hl_base_url self +:+ path, body)] in
  (with_sent sent self, hv_network sent).

Definition INFO_PATH : string := "/info".
Definition _info (request_type : string) (extra_fields : list (string * json)) : M S json :=
  post INFO_PATH (JObj (("type", JStr request_type) :: extra_fields)).

Definition user_field self : string * json := ("user", JStr (om_account (hl_mapping self))).
Definition resolver self : json -> result (option string) := resolve (hl_mapping self).

(** [self._signing.sign(self._signing_key_ref, purpose, context)], its signature unused. *)
Definition _authorization_gate (purpose : SecretsBoundary.SigningPurpose) (context : bytes) : M S unit := fun self =>
  (self, _ ← SecretsBoundary.sign (hl_signing self) (hl_signing_key_ref self) purpose context; Ok tt).

(** ** Connection and reads *)

Definition health : M S HealthStatus :=
  self ← get;
  t ← now;
  mret {| hs_connection_state := if hl_connected self then ConnectionState.CONNECTED else ConnectionState.DISCONNECTED;
          hs_websocket_connected := false; hs_rest_reachable := hl_connected self;
          hs_last_message_age_ms := if hl_connected self then Some d0 else None;
          hs_sequence_gap_detected := false; hs_checked_at_utc := t |}.

Definition connect : M S HealthStatus :=
  _authorization_gate SecretsBoundary.SigningPurpose.AUTH (encode "connect");;
  _info "allMids" [];;
  modify (fun self => with_connection true (hl_last_checked_at self) self);;
  t ← now;
  modify (fun self => with_connection (hl_connected self) (Some t) self);;
  health.

Definition disconnect : M S unit := modify (fun self => with_connection false (hl_last_checked_at self) self).

Definition get_positions : M S (list Position) :=
  _require_connected;;
  self ← get;
  body ← _info "clearinghouseState" [user_field self];
  lift (parse_positions body).

Definition get_orders : M S (list Order) :=
  _require_connected;;
  self ← get;
  body ← _info "frontendOpenOrders" [user_field self];
  lift (parse_open_orders hv_repr (resolver self) body).

Definition get_balances : M S (list Balance) :=
  _require_connected;;
  self ← get;
  body ← _info "clearinghouseState" [user_field self];
  lift (parse_balances body).

Definition get_mark_price (symbol : Symbol) : M S MarkPrice :=
  _require_connected;;
  body ← _info "allMids" [];
  t ← now;
  lift (parse_mark_price body symbol t).

(** The next funding time is computed from the clock, which gives it here. *)
Definition get_funding_rate (symbol : Symbol) : M S FundingRate :=
  _require_connected;;
  body ← _info "metaAndAssetCtxs" [];
  t ← now;
  next_hour ← now;
  lift (parse_funding_rate body symbol t next_hour).

Definition get_order_status (exchange_order_id : string) : M S Order :=
  _require_connected;;
  oid ← lift (match int_of_text exchange_order_id with Ok n => Ok n | Err _ => Err ExchangeAdapterError end);
  self ← get;
  body ← _info "orderStatus" [user_field self; ("oid", JInt oid)];
  order ← lift (parse_order_status hv_repr (resolver self) body None);
  lift (of_option map_unknown_oid order).

Definition get_fills (since_utc : option string) : M S (list Fill) :=
  _require_connected;;
  self ← get;
  body ← _info "userFills" [user_field self];
  fills ← lift (parse_user_fills hv_repr (resolver self) body);
  mret (match since_utc with
        | None => fills
        | Some since => List.filter (fun f => String.leb since (fl_timestamp_utc f)) fills
        end).

Definition find_order (request : OrderRequest) : M S (option Order) :=
  _require_connected;;
  self ← get;
  let cid := or_client_order_id request in
  let token := match known_token cid (hl_mapping self) with Some t => if str_empty t then mint_venue_token cid else t | None => mint_venue_token cid end in
  body ← _info "orderStatus" [user_field self; ("oid", JStr token)];
  lift (parse_order_status hv_repr (resolver self) body (Some cid)).

Definition reconcile (local_positions : list Position) : M S ReconciliationReport :=
  _require_connected;;
  exchange_positions ← get_positions;
  let discrepancies := MockExchange.position_discrepancies local_positions exchange_positions in
  t ← now;
  mret {| rr_matches := (length discrepancies =? 0)%nat; rr_local_positions := local_positions;
          rr_exchange_positions := exchange_positions; rr_discrepancies := discrepancies; rr_checked_at_utc := t |}.

(** ** Assets *)

(** [{a.get("name"): i for i, a in enumerate(universe) if a.get("name")}], of
    which look-ups by a symbol see the text keys. *)
Fixpoint index_assets (i : Z) (universe : list json) (d : list (string * Z)) : result (list (string * Z)) :=
  match universe with
  | [] => Ok d
  | a :: universe =>
      name ← get_ "name" a;
      if negb (truthy name) then index_assets (i + 1) universe d
      else match name with
           | JStr n => index_assets (i + 1) universe (dset n i d)
           | _ => if hashable name then index_assets (i + 1) universe d else Err TypeError
           end
  end.

Definition _fetch_asset_index_map : M S (list (string * Z)) :=
  body ← _info "meta" [];
  universe ← lift (match body with JObj o => iterate (default (JList []) (dget "universe" o)) | _ => Ok [] end);
  lift (index_assets 0 universe []).

Definition refresh_asset_index : M S unit := modify (with_assets None).

Definition fetch_assets : M S (list (string * Z)) :=
  assets ← _fetch_asset_index_map;
  modify (with_assets (Some assets));;
  mret assets.

Definition _asset_index (symbol : Symbol) : M S Z :=
  self ← get;
  assets ← match hl_asset_index_cache self with None => fetch_assets | Some assets => mret assets end;
  match dget (sym_value symbol) assets with
  | Some idx => mret idx
  | None =>
      assets ← fetch_assets;
      lift (of_option ExchangeRejectedOrderError (dget (sym_value symbol) assets))
  end.

(** ** Signing and posting *)

Definition _require_signer : M S unit := fun self =>
  (self, require (match hl_wallet_signer self with Some _ => true | None => false end) ExchangeAdapterError).

(** [self._nonce.next()] *)
Definition take_nonce : M S Z := fun self =>
  let '(ms, rest) := match hl_clock_ms self with ms :: rest => (ms, rest) | [] => (0, []) end in
  let nonce := next_nonce (hl_nonce self) ms in
  (with_nonce nonce rest self, Ok nonce).

Definition wallet_sign (connection_id : bytes) : M S json := fun self =>
  (self, match hl_wallet_signer self with
         | Some w => sign_connection_id hv_sign_message w connection_id
         | None => Err AttributeError
         end).

Definition _sign_and_post (action : json) : M S json :=
  nonce ← take_nonce;
  connection_id ← lift (connection_id hv_packb hv_keccak action nonce None);
  signature ← wallet_sign connection_id;
  body ← lift (build_exchange_request action nonce signature None);
  post EXCHANGE_PATH body.

Definition _check_ok (body : json) : result unit :=
  match body with
  | JObj o =>
      let status := default JNull (dget "status" o) in
      if is_text "err" (Some status) then Err (map_request_error (text_of hv_repr (default JNull (dget "response" o))))
      else require (is_text "ok" (Some status)) ExchangeAdapterError
  | _ => Err ExchangeAdapterError
  end.

Definition _statuses (body : json) : result json :=
  response ← get_or (JObj []) "response" body;
  let data := match response with JObj o => default (JObj []) (dget "data" o) | _ => JObj [] end in
  Ok (match data with JObj o => default (JList []) (dget "statuses" o) | _ => JList [] end).

(** [statuses[i]] and [len(statuses)] *)
Definition item_at (i : nat) (statuses : json) : result json :=
  match statuses with
  | JList l => of_option IndexError (l !! i)
  | JStr s => of_option IndexError (chars s !! i)
  | JObj _ => Err KeyError
  | _ => Err TypeError
  end.
Definition len_of (statuses : json) : result nat :=
  match statuses with
  | JList l => Ok (length l)
  | JStr s => Ok (String.length s)
  | JObj o => Ok (length o)
  | _ => Err TypeError
  end.

(** [k in entry], for an entry that is a dict. *)
Definition entry_has (k : string) (entry : json) : option json := match entry with JObj o => dget k o | _ => None end.

Definition placed_order (request : OrderRequest) (oid : json) (filled : decimal) (status : OrderStatus) (now : string) : Order :=
  {| o_client_order_id := or_client_order_id request; o_exchange_order_id := Some (text_of hv_repr oid);
     o_symbol := or_symbol request; o_side := or_side request; o_order_type := or_order_type request;
     o_quantity := or_quantity request; o_filled_quantity := filled; o_limit_price := or_limit_price request;
     o_status := status; o_time_in_force := or_time_in_force request; o_reduce_only := or_reduce_only request;
     o_created_at_utc := now; o_updated_at_utc := now |}.

Definition _parse_place_result (statuses : json) (request : OrderRequest) : M S Order :=
  if negb (truthy statuses) then raise ExchangeAdapterError else
  entry ← lift (item_at 0 statuses);
  match entry_has "error" entry with
  | Some e => raise (map_order_status_error (text_of hv_repr e))
  | None =>
      t ← now;
      match entry_has "resting" entry with
      | Some resting =>
          oid ← lift (get_ "oid" resting);
          mret (placed_order request oid d0 OrderStatus.ACKNOWLEDGED t)
      | None =>
          match entry_has "filled" entry with
          | Some filled =>
              oid ← lift (get_ "oid" filled);
              total ← lift (x ← get_ "totalSz" filled; of_option InvalidOperation (decimal_of_json x));
              mret (placed_order request oid total OrderStatus.FILLED t)
          | None => raise ExchangeAdapterError
          end
      end
  end.

Definition _as_cancelled (order : Order) (now : string) : Order :=
  {| o_client_order_id := o_client_order_id order; o_exchange_order_id := o_exchange_order_id order;
     o_symbol := o_symbol order; o_side := o_side order; o_order_type := o_order_type order; o_quantity := o_quantity order;
     o_filled_quantity := o_filled_quantity order; o_limit_price := o_limit_price order; o_status := OrderStatus.CANCELLED;
     o_time_in_force := o_time_in_force order; o_reduce_only := o_reduce_only order;
     o_created_at_utc := o_created_at_utc order; o_updated_at_utc := now |}.

(** [self._mapping.record(client_order_id)] on the shared log. *)
Definition record_mapping (client_order_id : string) : M S string :=
  zoom (fun self => (hl_log self, hl_mapping self)) (fun w => with_stored w.1 w.2) (record client_order_id).

Definition is_buy (side : OrderSide) : bool := bool_decide (side = OrderSide.BUY).

(** ** The four transmissions *)

Definition hl_place_order (request : OrderRequest) : M S Order :=
  _require_connected;;
  _require_signer;;
  if negb (bool_decide (or_order_type request = OrderType.LIMIT)) then raise ExchangeRejectedOrderError else
  match or_limit_price request with
  | None => raise ExchangeRejectedOrderError
  | Some limit_price =>
      tif ← lift (tif_wire (or_time_in_force request));
      _authorization_gate SecretsBoundary.SigningPurpose.ORDER (utf8 (or_client_order_id request));;
      cloid ← record_mapping (or_client_order_id request);
      asset ← _asset_index (or_symbol request);
      let wire := build_order_wire asset (is_buy (or_side request)) limit_price (or_quantity request) (or_reduce_only request) tif (Some cloid) in
      body ← _sign_and_post (build_order_action [wire]);
      lift (_check_ok body);;
      statuses ← lift (_statuses body);
      _parse_place_result statuses request
  end.

Definition hl_cancel_order (request : CancelRequest) : M S Order :=
  _require_connected;;
  _require_signer;;
  _authorization_gate SecretsBoundary.SigningPurpose.CANCEL (utf8 (cn_exchange_order_id request));;
  order ← get_order_status (cn_exchange_order_id request);
  asset ← _asset_index (o_symbol order);
  oid ← lift (int_of_text (cn_exchange_order_id request));
  body ← _sign_and_post (build_cancel_action [(asset, oid)]);
  lift (_check_ok body);;
  statuses ← lift (_statuses body);
  (if truthy statuses then
     entry ← lift (item_at 0 statuses);
     match entry_has "error" entry with Some e => raise (map_order_status_error (text_of hv_repr e)) | None => mret tt end
   else mret tt);;
  t ← now;
  mret (_as_cancelled order t).

(** [[(self._asset_index(o.symbol), int(o.exchange_order_id)) for o in orders]] *)
Fixpoint cancels_of (orders : list Order) : M S (list (Z * Z)) :=
  match orders with
  | [] => mret []
  | o :: orders =>
      asset ← _asset_index (o_symbol o);
      oid ← lift (int_of_text (default "" (o_exchange_order_id o)));
      rest ← cancels_of orders;
      mret ((asset, oid) :: rest)
  end.

(** The orders whose status, at their place in the answer, is ["success"]. *)
Fixpoint confirmed (i : nat) (statuses : json) (orders : list Order) : M S (list Order) :=
  match orders with
  | [] => mret []
  | o :: orders =>
      n ← lift (len_of statuses);
      entry ← (if (i <? n)%nat then e ← lift (item_at i statuses); mret (Some e) else mret None);
      if is_text "success" entry then
        t ← now;
        rest ← confirmed (Datatypes.S i) statuses orders;
        mret (_as_cancelled o t :: rest)
      else confirmed (Datatypes.S i) statuses orders
  end.

Definition has_oid (o : Order) : bool := match o_exchange_order_id o with Some _ => true | None => false end.
Definition of_symbol (request : CancelAllRequest) (o : Order) : bool :=
  match ca_symbol request with Some s => String.eqb (sym_value (o_symbol o)) (sym_value s) | None => true end.

Definition hl_cancel_all (request : CancelAllRequest) : M S (list Order) :=
  _require_connected;;
  _require_signer;;
  _authorization_gate SecretsBoundary.SigningPurpose.CANCEL (encode "cancel_all");;
  orders ← get_orders;
  let cancellable := List.filter has_oid (List.filter (of_symbol request) orders) in
  match cancellable with
  | [] => mret []
  | _ =>
      cancels ← cancels_of cancellable;
      body ← _sign_and_post (build_cancel_action cancels);
      lift (_check_ok body);;
      statuses ← lift (_statuses body);
      confirmed 0 statuses cancellable
  end.

Definition hl_amend_order (request : AmendRequest) : M S Order :=
  _require_connected;;
  _require_signer;;
  _authorization_gate SecretsBoundary.SigningPurpose.AMEND (utf8 (am_exchange_order_id request));;
  order ← get_order_status (am_exchange_order_id request);
  asset ← _asset_index (o_symbol order);
  let new_price := match am_new_limit_price request with Some p => Some p | None => o_limit_price order end in
  let new_size := default (o_quantity order) (am_new_quantity request) in
  match new_price with
  | None => raise ExchangeRejectedOrderError
  | Some new_price =>
      tif ← lift (tif_wire (o_time_in_force order));
      self ← get;
      let cloid := known_token (o_client_order_id order) (hl_mapping self) in
      let wire := build_order_wire asset (is_buy (o_side order)) new_price new_size (o_reduce_only order) tif cloid in
      oid ← lift (int_of_text (am_exchange_order_id request));
      body ← _sign_and_post (build_modify_action oid wire);
      lift (_check_ok body);;
      orders ← get_orders;
      lift (of_option ExchangeAdapterError
        (List.find (fun o => String.eqb (o_client_order_id o) (o_client_order_id order)) orders))
  end.

#[global] Instance hyperliquid_hooks : AdapterHooks S := {
  ExchangeAdapter.get_orders := get_orders;
  transmit_place_order := hl_place_order;
  transmit_amend_order := hl_amend_order;
  transmit_cancel_order := hl_cancel_order;
  transmit_cancel_all := hl_cancel_all
}.

(** A method of the adapter, under the template's cache and audit log. *)
Definition on_hooks {A} (m : M S A) : M (ExchangeAdapter S) A := zoom ea_hooks set_hooks m.

#[global] Instance hyperliquid_exchange : Exchange (ExchangeAdapter S) := {
  ex_place_order r := x ← place_order r; lift (as_order x);
  ex_amend_order r := x ← amend_order r; lift (as_order x);
  ex_cancel_order r := x ← cancel_order r; lift (as_order x);
  ex_cancel_all r := x ← cancel_all r; lift (as_orders x);
  ex_find_order r := on_hooks (find_order r);
  ex_get_order_status id := on_hooks (get_order_status id);
  ex_get_fills since := on_hooks (get_fills since);
  ex_get_positions := on_hooks get_positions;
  ex_get_mark_price s := on_hooks (get_mark_price s);
  ex_reconcile ps := on_hooks (reconcile ps)
}.
End adapter.
