(* ===== verification/HyperliquidSpec.v ===== *)
(** * The Hyperliquid adapter: what it sends and what it reports

    For runs of the adapter over the shared log, whatever the venue answers:
    every order sent was mapped in the log first, nonces increase, a revoked key
    sends nothing more, and what it reports as the engine's is the engine's. *)

From Stdlib Require Import ssreflect ZArith Lia Ascii String Sorting.Sorted.
From stdpp Require Import base strings numbers gmap sets list relations sorting.
From S2P Require Import Prelude PyText PyDict PyBytes PyJson PyJsonFacts PyDecimal EventStore EventStoreFacts EventLog ExchangeModels ExchangeAdapter.
From S2P Require SecretsBoundary SecretsBoundaryFacts.
From S2P Require Import SharedLog HyperliquidCodec HyperliquidWire HyperliquidMapping Hyperliquid.
#[local] Open Scope Z_scope.

(** ** Requests to the exchange *)

Definition is_exchange (url : string) (q : http_request) : bool := String.eqb q.1 (url +:+ EXCHANGE_PATH).
Definition exchange_sent {L} (s : Hyperliquid L) : list http_request := List.filter (is_exchange (hl_base_url s)) (hl_sent s).

(** The order wires of an action, and the venue tokens in them. *)
Definition wires (action : json) : list json :=
  match jget "orders" action with Some (JList l) => l | _ => [] end ++ match jget "order" action with Some w => [w] | None => [] end.
Definition cloids (body : json) : list string := omap (jstr "c") (wires (default JNull (jget "action" body))).
Definition nonces (requests : list http_request) : list Z :=
  omap (fun q => match jget "nonce" q.2 with Some (JInt n) => Some n | _ => None end) requests.

Lemma preserves_stop {S A B} (I : S -> Prop) (m : M S A) (f : A -> M S B) :
  (forall s, I s -> exists e, m s = (s, Err e)) -> preserves I (m ≫= f).
Proof. intros Hm s Hs. unfold mbind, M_bind. by destruct (Hm s Hs) as [e ->]. Qed.

(** A step that keeps [I], in front of the rest. *)
Lemma keep_seq {S A B} (I : S -> Prop) (m : M S A) (f : A -> M S B) (Q : result B -> S -> Prop) :
  preserves I m -> (forall e s, I s -> Q (Err e) s) -> (forall a, triple I (f a) Q) -> triple I (m ≫= f) Q.
Proof.
  intros Hm He Hf. apply (triple_bind _ _ _ (fun _ => I)); [|done]. eapply triple_weaken; [exact Hm|done|]. intros [a|e] s Hs; [done|by apply He].
Qed.

(** A value known before the run. *)
Lemma lift_seq {S A B} (P : S -> Prop) (r : result A) (f : A -> M S B) (Q : result B -> S -> Prop) :
  (forall e s, r = Err e -> P s -> Q (Err e) s) -> (forall a, r = Ok a -> triple P (f a) Q) -> triple P (lift r ≫= f) Q.
Proof. intros He Hf s Hs. rewrite run_lift. destruct r as [a|e]; [by apply Hf|by apply He]. Qed.

Section adapter.
Context {L : Type} `{EventLog L} `{HyperliquidVenue}.
Notation S := (Hyperliquid L).

Lemma exchange_sent_info (s : S) body : exchange_sent (post INFO_PATH body s).1 = exchange_sent s.
Proof.
  unfold exchange_sent, post. cbn. rewrite List.filter_app. cbn. unfold is_exchange at 2. cbn [fst].
  destruct (String.eqb_spec (hl_base_url s +:+ INFO_PATH) (hl_base_url s +:+ EXCHANGE_PATH)) as [E%app_inj_l_s|_]; [done|by rewrite app_nil_r].
Qed.

Lemma exchange_sent_post (s : S) body :
  exchange_sent (post EXCHANGE_PATH body s).1 = exchange_sent s ++ [(hl_base_url s +:+ EXCHANGE_PATH, body)].
Proof. unfold exchange_sent, post. cbn. rewrite List.filter_app. cbn. unfold is_exchange at 2. cbn [fst]. by rewrite String.eqb_refl. Qed.

(** ** Invariants of the operations

    [I] is kept by what the operations do to the state: the clock, the
    connection, an information request and the fetch of the assets, which also
    sets their cache. *)

Lemma fetch_assets_keeps (I : S -> Prop) : (forall s c, I s -> I (with_assets c s)) -> (forall s body, I s -> I (post INFO_PATH body s).1) ->
  preserves I fetch_assets.
Proof.
  intros Ha Hi. assert (Hset : forall c, preserves I (modify (with_assets c))) by (intros c; apply preserves_modify; intros s; apply Ha).
  assert (Hget : preserves I (_info "meta" [])) by (intros s Hs; by apply Hi).
  unfold fetch_assets, _fetch_asset_index_map. walk_with ltac:(fail).
Qed.

Section reads.
Context (I : S -> Prop).
Hypothesis Iclock : forall s c, I s -> I (with_clock c s).
Hypothesis Iconn : forall s b t, I s -> I (with_connection b t s).
Hypothesis Ifetch : preserves I fetch_assets.
Hypothesis Iinfo : forall s body, I s -> I (post INFO_PATH body s).1.

Lemma now_keeps : preserves I now.
Proof. intros s Hs. unfold now. destruct (hl_clock s); [done|]. by apply Iclock. Qed.
Lemma info_keeps ty fields : preserves I (_info ty fields).
Proof. intros s Hs. by apply Iinfo. Qed.
Lemma connected_keeps : preserves I _require_connected.
Proof. by intros s Hs. Qed.
Lemma signer_keeps : preserves I _require_signer.
Proof. by intros s Hs. Qed.
Lemma gate_keeps purpose context : preserves I (_authorization_gate purpose context).
Proof. by intros s Hs. Qed.
Lemma set_connection_keeps (b : S -> bool) t : preserves I (modify (fun s => with_connection (b s) (t s) s)).
Proof. apply preserves_modify. intros s. apply Iconn. Qed.
#[local] Hint Resolve now_keeps info_keeps connected_keeps signer_keeps gate_keeps set_connection_keeps : turtle.
Ltac walk := walk_with ltac:(fail).

Lemma health_keeps : preserves I health.
Proof. unfold health. walk. Qed.
#[local] Hint Resolve health_keeps : turtle.
Lemma connect_keeps : preserves I connect.
Proof. unfold connect. walk. Qed.
Lemma disconnect_keeps : preserves I disconnect.
Proof. unfold disconnect. walk. Qed.
Lemma get_positions_keeps : preserves I get_positions.
Proof. unfold get_positions. walk. Qed.
#[local] Hint Resolve get_positions_keeps : turtle.
Lemma get_orders_keeps : preserves I get_orders.
Proof. unfold get_orders. walk. Qed.
Lemma get_balances_keeps : preserves I get_balances.
Proof. unfold get_balances. walk. Qed.
Lemma get_mark_price_keeps symbol : preserves I (get_mark_price symbol).
Proof. unfold get_mark_price. walk. Qed.
Lemma get_funding_rate_keeps symbol : preserves I (get_funding_rate symbol).
Proof. unfold get_funding_rate. walk. Qed.
Lemma get_order_status_keeps id : preserves I (get_order_status id).
Proof. unfold get_order_status. walk. Qed.
Lemma get_fills_keeps since : preserves I (get_fills since).
Proof. unfold get_fills. walk. Qed.
Lemma find_order_keeps r : preserves I (find_order r).
Proof. unfold find_order. walk. Qed.
Lemma hl_reconcile_keeps ps : preserves I (reconcile ps).
Proof. unfold reconcile. walk. Qed.
Lemma asset_index_keeps symbol : preserves I (_asset_index symbol).
Proof. unfold _asset_index. walk. Qed.
#[local] Hint Resolve asset_index_keeps : turtle.
Lemma cancels_of_keeps orders : preserves I (cancels_of orders).
Proof. induction orders as [|o orders IH]; cbn [cancels_of]; walk. Qed.
Lemma confirmed_keeps i statuses orders : preserves I (confirmed i statuses orders).
Proof. revert i. induction orders as [|o orders IH]; intros i; cbn [confirmed]; walk; apply IH. Qed.
Lemma parse_place_result_keeps statuses r : preserves I (_parse_place_result statuses r).
Proof. unfold _parse_place_result. walk. Qed.
End reads.

(** ** The invariant of a run *)

Definition known (s : S) (cloid : string) : Prop := exists cid, known_token cid (hl_mapping s) = Some cloid.

Record hl_inv (account : string) (s : S) : Prop := {
  hi_map : mapping_inv account (hl_log s, hl_mapping s);
  hi_known : Forall (fun q => Forall (known s) (cloids q.2)) (exchange_sent s);
  hi_sorted : StronglySorted Z.lt (nonces (exchange_sent s));
  hi_last : Forall (fun n => n <= hl_nonce s) (nonces (exchange_sent s))
}.

(** A change to other parts of the state. *)
Lemma hl_inv_other account s s' : hl_log s' = hl_log s -> hl_mapping s' = hl_mapping s -> hl_nonce s <= hl_nonce s' ->
  exchange_sent s' = exchange_sent s -> hl_inv account s -> hl_inv account s'.
Proof.
  intros Hl Hm Hn Hs [H1 H2 H3 H4]. split; rewrite ?Hl ?Hm ?Hs //.
  - eapply Forall_impl; [exact H2|]. intros q Hq. eapply Forall_impl; [exact Hq|]. intros c [cid Hc]. exists cid. by rewrite Hm.
  - eapply Forall_impl; [exact H4|]. intros n Hle. cbn in *. lia.
Qed.

Definition inv_knowing (account : string) (cs : list string) (s : S) : Prop := hl_inv account s /\ Forall (known s) cs.

Lemma knowing_other account cs s s' : hl_log s' = hl_log s -> hl_mapping s' = hl_mapping s -> hl_nonce s <= hl_nonce s' ->
  exchange_sent s' = exchange_sent s -> inv_knowing account cs s -> inv_knowing account cs s'.
Proof.
  intros Hl Hm Hn Hs [Hi Hk]. split; [by eapply hl_inv_other|]. eapply Forall_impl; [exact Hk|].
  intros c [cid Hc]. exists cid. by rewrite Hm.
Qed.

Lemma knowing_clock account cs s c : inv_knowing account cs s -> inv_knowing account cs (with_clock c s).
Proof. by apply knowing_other. Qed.
Lemma knowing_conn account cs s b t : inv_knowing account cs s -> inv_knowing account cs (with_connection b t s).
Proof. by apply knowing_other. Qed.
Lemma knowing_assets account cs s c : inv_knowing account cs s -> inv_knowing account cs (with_assets c s).
Proof. by apply knowing_other. Qed.
Lemma knowing_info account cs s body : inv_knowing account cs s -> inv_knowing account cs (post INFO_PATH body s).1.
Proof. apply knowing_other; [done..|]. apply exchange_sent_info. Qed.
Lemma knowing_fetch account cs : preserves (inv_knowing account cs) fetch_assets.
Proof. apply fetch_assets_keeps; [apply knowing_assets|apply knowing_info]. Qed.
#[local] Hint Resolve knowing_clock knowing_conn knowing_assets knowing_info knowing_fetch : turtle.

Lemma next_nonce_above last now : last < next_nonce last now.
Proof. unfold next_nonce. destruct (Z.ltb_spec last now); lia. Qed.

Lemma built_request action nonce signature vault body : build_exchange_request action nonce signature vault = Ok body ->
  jget "action" body = Some action /\ jget "nonce" body = Some (JInt nonce).
Proof.
  unfold build_exchange_request. destruct action as [| | | | |o]; try done. destruct (nonce <=? 0); [done|].
  destruct signature as [| | | | |sg]; try done. destruct (_ && _); [|done]. by intros [= <-].
Qed.

Lemma omap_app_one {A B} (f : A -> option B) l x : omap f (l ++ [x]) = omap f l ++ option_list (f x).
Proof. rewrite omap_app. cbn. by destruct (f x). Qed.

(** Signing and posting an action whose tokens are known. *)
Lemma sign_and_post_inv account action : triple (inv_knowing account (omap (jstr "c") (wires action))) (_sign_and_post action)
  (fun _ => hl_inv account).
Proof.
  intros s [Hi Hk]. unfold _sign_and_post, take_nonce. rewrite run_bind.
  destruct (match hl_clock_ms s with ms :: rest => (ms, rest) | [] => (0, []) end) as [ms rest].
  pose proof (next_nonce_above (hl_nonce s) ms) as Hn. set (n := next_nonce (hl_nonce s) ms) in *.
  set (s1 := with_nonce n rest s). assert (H1 : hl_inv account s1) by (eapply hl_inv_other; [..|exact Hi]; try done; cbn; lia).
  rewrite run_lift. destruct (connection_id _ _ action n None) as [cid|e]; [|done]. rewrite run_bind. unfold wallet_sign.
  destruct (hl_wallet_signer s1) as [w|]; [|done]. destruct (sign_connection_id _ w cid) as [sg|e]; [|done].
  rewrite run_lift. destruct (build_exchange_request action n sg None) as [body|e] eqn:Eb; [|done].
  apply built_request in Eb as [Ea En]. destruct Hi as [Hmap Hknown Hsorted Hlast].
  pose proof (exchange_sent_post s1 body) as Hp. split.
  - exact Hmap.
  - rewrite Hp. apply Forall_app. split; [exact Hknown|]. apply Forall_singleton. cbn [snd]. unfold cloids. rewrite Ea. exact Hk.
  - rewrite Hp. unfold nonces. rewrite omap_app_one. cbn [snd]. rewrite En. cbn [option_list].
    apply StronglySorted_app_2; [|exact Hsorted|by repeat constructor]. intros x y Hx ->%list_elem_of_singleton.
    eapply Forall_forall in Hlast; [|exact Hx]. cbn in Hlast. lia.
  - rewrite Hp. unfold nonces. rewrite omap_app_one. cbn [snd]. rewrite En. cbn [option_list]. apply Forall_app.
    split; [apply (hi_last _ _ H1)|]. by apply Forall_singleton.
Qed.

(** Recording an order: its token is known from then on. *)
Lemma record_mapping_inv account cid : cid <> "" -> triple (hl_inv account) (record_mapping cid)
  (fun r s => match r with Ok token => inv_knowing account [token] s | Err _ => hl_inv account s end).
Proof.
  intros Hc s Hi. pose proof Hi as [Hmap Hknown Hsorted Hlast]. pose proof (record_keeps account cid Hc _ Hmap) as Hmap'.
  unfold record_mapping, zoom. destruct Hmap as [Hl (cids & Hm & Em)]. cbn [fst snd] in Hl, Hm, Em.
  rewrite Em in Hmap' |- *. pose proof (record_cases account cids cid (hl_log s) Hl Hm Hc) as Hr.
  destruct (record cid (hl_log s, mapping_of account cids)) as [w r]. cbn [fst snd] in *. destruct Hr as [_ Hr].
  pose proof (mp_distinct _ _ _ Hm) as Hd.
  assert (Hgrow : forall cids', w.2 = mapping_of account cids' -> cids ⊆ cids' -> hl_inv account (with_stored w.1 w.2 s)).
  { intros cids' Ew Hsub. split; [by destruct w| |exact Hsorted|exact Hlast].
    eapply Forall_impl; [exact Hknown|]. intros q Hq. eapply Forall_impl; [exact Hq|].
    intros c [cid' Hk]. exists cid'. cbn. rewrite Em in Hk. apply dget_elem, list_elem_of_fmap in Hk as (x & [= -> ->] & Hx).
    destruct Hmap' as [_ (cids2 & Hm2 & E2)]. rewrite Ew. apply known_in; [|by apply Hsub].
    assert (cids2 = cids') as <-; [|apply Hm2]. rewrite -(cid_keys_of cids2 account) -(cid_keys_of cids' account). by rewrite -Ew -E2. }
  destruct Hr as [Hin|l' e Hnew El Ep Hm'|l' x El Hx|l' c El Hcin Hne Et]; cbn [fst snd] in *.
  - split; [by apply (Hgrow cids)|]. apply Forall_singleton. exists cid. by apply known_in.
  - split; [apply (Hgrow (cids ++ [cid])); set_solver|]. apply Forall_singleton. exists cid.
    apply known_in; [apply Hm'|set_solver].
  - by apply (Hgrow cids).
  - by apply (Hgrow cids).
Qed.

Ltac walk := walk_with ltac:(fail).
#[local] Hint Resolve now_keeps info_keeps connected_keeps signer_keeps gate_keeps set_connection_keeps
  get_orders_keeps get_order_status_keeps asset_index_keeps cancels_of_keeps confirmed_keeps parse_place_result_keeps : turtle.

Section inv.
Context (account : string).

Lemma hl_inv_knowing s : hl_inv account s <-> inv_knowing account [] s.
Proof. split; [intros Hi; split; [done|constructor]|by intros [? _]]. Qed.

(** The reads keep the invariant with the tokens that are known. *)
Lemma reads_keep {A} (m : M S A) cs : (forall I : S -> Prop,
    (forall s c, I s -> I (with_clock c s)) -> (forall s b t, I s -> I (with_connection b t s)) ->
    preserves I fetch_assets -> (forall s body, I s -> I (post INFO_PATH body s).1) -> preserves I m) ->
  preserves (inv_knowing account cs) m.
Proof. intros Hm. apply Hm; intros; auto with turtle. Qed.

Lemma send_keeps {A} action (f : json -> M S A) cs : (forall c, c ∈ omap (jstr "c") (wires action) -> c ∈ cs) ->
  (forall body, preserves (hl_inv account) (f body)) -> triple (inv_knowing account cs) (_sign_and_post action ≫= f) (fun _ => hl_inv account).
Proof.
  intros Hc Hf. apply (triple_bind _ _ _ (fun _ => hl_inv account)); [|done]. eapply triple_weaken; [apply (sign_and_post_inv account action)| |].
  - intros s [Hi Hk]. split; [done|]. apply Forall_forall. intros c Hin. eapply Forall_forall in Hk; [exact Hk|by apply Hc].
  - by intros [] ?.
Qed.

(** A step that keeps what is known, in front of the rest. *)
Lemma keep_then {A B} cs (m : M S A) (f : A -> M S B) : preserves (inv_knowing account cs) m ->
  (forall a, triple (inv_knowing account cs) (f a) (fun _ => hl_inv account)) ->
  triple (inv_knowing account cs) (m ≫= f) (fun _ => hl_inv account).
Proof. intros Hm Hf. apply keep_seq; [done|by intros e s [? _]|done]. Qed.

Lemma keep_all {A} cs (m : M S A) : preserves (inv_knowing account cs) m -> triple (inv_knowing account cs) m (fun _ => hl_inv account).
Proof. intros Hm. eapply triple_weaken; [exact Hm|done|]. by intros r s [? _]. Qed.

Lemma reads_hl {A} (m : M S A) : (forall I : S -> Prop,
    (forall s c, I s -> I (with_clock c s)) -> (forall s b t, I s -> I (with_connection b t s)) ->
    preserves I fetch_assets -> (forall s body, I s -> I (post INFO_PATH body s).1) -> preserves I m) ->
  preserves (hl_inv account) m.
Proof. intros Hm. eapply triple_weaken; [apply (reads_keep m [] Hm)|intros s; apply hl_inv_knowing|by intros r s [? _]]. Qed.

Ltac keep := apply keep_then; [first [solve [apply reads_keep; intros; auto with turtle] | auto with turtle]|intros ?].
Ltac rest := intros ?; apply reads_hl; intros; walk.

Lemma place_inv r : or_client_order_id r <> "" -> preserves (hl_inv account) (hl_place_order r).
Proof.
  intros Hc. eapply triple_weaken; [|intros s; apply (proj1 (hl_inv_knowing s))|intros ? s Hs; exact Hs]. unfold hl_place_order.
  keep. keep. destruct (negb _); [apply keep_all; auto with turtle|].
  destruct (or_limit_price r) as [lp|]; [|apply keep_all; auto with turtle].
  keep. keep. apply (triple_bind _ _ _ (fun token => inv_knowing account [token])).
  { eapply triple_weaken; [apply (record_mapping_inv account _ Hc)|by intros s [? _]|]. by intros [] ?. }
  intros cloid. keep. apply send_keeps; [|rest]. intros c. cbn. set_solver.
Qed.

Lemma cancel_inv r : preserves (hl_inv account) (hl_cancel_order r).
Proof.
  eapply triple_weaken; [|intros s; apply (proj1 (hl_inv_knowing s))|intros ? s Hs; exact Hs]. unfold hl_cancel_order.
  do 6 keep. apply send_keeps; [|rest]. intros c. cbn. set_solver.
Qed.

Lemma cancel_all_inv r : preserves (hl_inv account) (hl_cancel_all r).
Proof.
  eapply triple_weaken; [|intros s; apply (proj1 (hl_inv_knowing s))|intros ? s Hs; exact Hs]. unfold hl_cancel_all.
  do 4 keep. cbv zeta. destruct (List.filter _ _) as [|o os]; [apply keep_all; auto with turtle|]. keep.
  apply send_keeps; [|rest]. intros c. cbn. set_solver.
Qed.

(** The token of a modified order is the one the order is known under. *)
Lemma amend_inv r : preserves (hl_inv account) (hl_amend_order r).
Proof.
  eapply triple_weaken; [|intros s; apply (proj1 (hl_inv_knowing s))|intros ? s Hs; exact Hs]. unfold hl_amend_order.
  do 5 keep. cbv zeta. destruct (match am_new_limit_price r with Some p => Some p | None => _ end) as [p|]; [|apply keep_all; auto with turtle].
  keep. intros s [Hi _]. rewrite run_get.
  set (k := known_token _ (hl_mapping s)). set (w := build_order_wire _ _ p _ _ _ k).
  assert (Ht : triple (inv_knowing account (option_list k)) (oid ← lift (int_of_text (am_exchange_order_id r));
    body ← _sign_and_post (build_modify_action oid w); lift (_check_ok body);; orders ← get_orders;
    lift (of_option ExchangeAdapterError (List.find (fun o => String.eqb (o_client_order_id o) (o_client_order_id a2)) orders)))
    (fun _ => hl_inv account)).
  { keep. apply send_keeps; [|rest]. intros c. unfold w. destruct k as [c'|]; cbn; set_solver. }
  apply Ht. split; [done|]. destruct k as [c|] eqn:Ek; [|constructor]. apply Forall_singleton. by eexists.
Qed.
End inv.

(** ** Runs

    The calls of the adapter, revocations of its two keys, and the appends of the
    other components to the shared log, in any order. *)

Inductive hl_op :=
  | OpConnect | OpDisconnect | OpHealth | OpPositions | OpOrders | OpBalances | OpMarkPrice (symbol : Symbol)
  | OpFundingRate (symbol : Symbol) | OpStatus (exchange_order_id : string) | OpFills (since : option string)
  | OpFind (r : OrderRequest) | OpReconcile (ps : list Position) | OpRefresh
  | OpPlace (r : OrderRequest) | OpAmend (r : AmendRequest) | OpCancel (r : CancelRequest) | OpCancelAll (r : CancelAllRequest).

Definition run_op (o : hl_op) (s : S) : S :=
  match o with
  | OpConnect => (connect s).1 | OpDisconnect => (disconnect s).1 | OpHealth => (health s).1
  | OpPositions => (get_positions s).1 | OpOrders => (get_orders s).1 | OpBalances => (get_balances s).1
  | OpMarkPrice x => (get_mark_price x s).1 | OpFundingRate x => (get_funding_rate x s).1
  | OpStatus id => (get_order_status id s).1 | OpFills since => (get_fills since s).1
  | OpFind r => (find_order r s).1 | OpReconcile ps => (reconcile ps s).1 | OpRefresh => (refresh_asset_index s).1
  | OpPlace r => (hl_place_order r s).1 | OpAmend r => (hl_amend_order r s).1
  | OpCancel r => (hl_cancel_order r s).1 | OpCancelAll r => (hl_cancel_all r s).1
  end.

(** A request has a name, as its constructor checks. *)
Definition op_valid (o : hl_op) : Prop := match o with OpPlace r => blank (or_client_order_id r) = false | _ => True end.

Inductive hl_step (account : string) (s : S) : S -> Prop :=
  | hs_op o : op_valid o -> hl_step account s (run_op o s)
  | hs_revoke sb : SecretsBoundaryFacts.boundary_step (hl_signing s) sb -> hl_step account s (with_signers sb (hl_wallet_signer s) s)
  | hs_wallet : hl_step account s (with_signers (hl_signing s) (revoke <$> hl_wallet_signer s) s)
  | hs_foreign ty payload key : foreign_append account payload key -> json_wf (JObj payload) = true ->
      hl_step account s (with_stored (log_append ty payload (Some key) (hl_log s)).1 (hl_mapping s) s).

Lemma run_op_reads (I : S -> Prop) o :
  (forall s c, I s -> I (with_clock c s)) -> (forall s b t, I s -> I (with_connection b t s)) ->
  preserves I fetch_assets -> (forall s, I s -> I (with_assets None s)) -> (forall s body, I s -> I (post INFO_PATH body s).1) ->
  match o with OpPlace _ | OpAmend _ | OpCancel _ | OpCancelAll _ => True | _ => forall s, I s -> I (run_op o s) end.
Proof.
  intros H1 H2 H3 H5 H4. destruct o; try exact Logic.I; intros s Hs; cbn [run_op].
  - by apply (connect_keeps I). - by apply (disconnect_keeps I). - by apply (health_keeps I). - by apply (get_positions_keeps I).
  - by apply (get_orders_keeps I). - by apply (get_balances_keeps I). - by apply (get_mark_price_keeps I). - by apply (get_funding_rate_keeps I).
  - by apply (get_order_status_keeps I). - by apply (get_fills_keeps I). - by apply (find_order_keeps I). - by apply (hl_reconcile_keeps I).
  - by apply H5.
Qed.

Lemma run_op_inv account o s : op_valid o -> hl_inv account s -> hl_inv account (run_op o s).
Proof.
  intros Hv Hs. pose proof (run_op_reads (inv_knowing account []) o) as Hr.
  assert (Hk : inv_knowing account [] s) by (split; [done|constructor]).
  destruct o; try (apply Hr; auto with turtle; fail).
  - apply place_inv; [|done]. cbn in Hv. intros E. by rewrite E in Hv.
  - by apply amend_inv.
  - by apply cancel_inv.
  - by apply cancel_all_inv.
Qed.

Lemma hl_step_inv account s s' : hl_step account s s' -> hl_inv account s -> hl_inv account s'.
Proof.
  intros Hs Hi. destruct Hs as [o Hv|sb Hb| |ty payload key Hf Hw].
  - by apply run_op_inv.
  - by apply (hl_inv_other account s).
  - by apply (hl_inv_other account s).
  - destruct Hi as [Hm Hk Hn Hl]. split; [|exact Hk|exact Hn|exact Hl]. by apply foreign_append_keeps.
Qed.

Lemma run_inv account s s' : hl_inv account s -> rtc (hl_step account) s s' -> hl_inv account s'.
Proof. intros Hi Hr. induction Hr as [|s s1 s' Hs _ IH]; [done|]. by eapply IH, hl_step_inv. Qed.

(** A log where each order this account's adapters recorded has its event. *)
Definition account_log (account : string) (l : L) : Prop := log_ok l /\ exists cids, mapped account (log_events l) cids.

Lemma init_inv signing ref account url timeout l wallet clock ms s : account_log account l ->
  hyperliquid_init signing ref account url timeout true l wallet clock ms = Ok s -> hl_inv account s.
Proof.
  intros [Hl (cids & Hm)]. unfold hyperliquid_init, mapping_init. destruct (blank account); [done|]. destruct (QArith_base.Qle_bool _ _); [done|].
  rewrite log_replay_events //. cbn [mbind result_bind].
  change (empty_mapping account true) with (mapping_of account []). rewrite (rebuild_mapped account (log_events l) [] cids); [apply Hm..|].
  cbn [mbind result_bind app]. destruct (network_matches url wallet) as [[]|e]; [|done]. cbn [mbind result_bind]. intros <-%(inj Ok).
  split; [split; [done|by exists cids]|constructor..].
Qed.

(** The order of a token that is known has its event in the log. *)
Lemma known_event account s cloid : hl_inv account s -> known s cloid -> exists cid e,
  cloid = mint_venue_token cid /\ e ∈ log_events (hl_log s) /\ _is_own account e = true /\ event_for account e cid /\
  resolve (hl_mapping s) (JStr cloid) = Ok (Some cid).
Proof.
  intros [[_ (cids & Hm & Em)] _ _ _] [cid Hk]. cbn [fst snd] in *. rewrite Em in Hk |- *.
  apply dget_elem, list_elem_of_fmap in Hk as (c & E & Hc). pose proof (f_equal fst E) as E1. pose proof (f_equal snd E) as E2.
  cbn [fst snd] in E1, E2. subst c cloid. pose proof Hc as [i Hi]%list_elem_of_lookup_1.
  destruct (Forall2_lookup_r _ _ _ _ _ (mp_own _ _ _ Hm) Hi) as (e & He & Hfor).
  apply list_elem_of_lookup_2, list_elem_of_In, List.filter_In in He as [He Ho]. exists cid, e.
  split_and!; [done|by apply list_elem_of_In|done|done|]. unfold resolve, lookup_in. cbn [hashable].
  by rewrite (resolve_in cids (mp_distinct _ _ _ Hm) account).
Qed.

(** C7: invariant. Persist before transmit: in any run of the adapter from its
    construction over a log with its account's earlier orders, with any answers
    of the venue, any refused appends and the other components' appends in
    between, each order token in a request sent to the exchange is the minted
    token of an order whose mapping event is in the log, and the token resolves
    to that order. The nonces of these requests strictly increase, also when the
    clock is read twice in a millisecond or goes back. *)
Theorem sent_orders_are_recorded signing ref account url timeout l wallet clock ms s0 s :
  account_log account l -> hyperliquid_init signing ref account url timeout true l wallet clock ms = Ok s0 ->
  rtc (hl_step account) s0 s -> StronglySorted Z.lt (nonces (exchange_sent s)) /\
  forall q cloid, q ∈ exchange_sent s -> cloid ∈ cloids q.2 -> exists cid e,
    cloid = mint_venue_token cid /\ e ∈ log_events (hl_log s) /\ _is_own account e = true /\ event_for account e cid /\
    resolve (hl_mapping s) (JStr cloid) = Ok (Some cid).
Proof.
  intros Hl Hi Hr. pose proof (run_inv _ _ _ (init_inv _ _ _ _ _ _ _ _ _ _ Hl Hi) Hr) as Hs. split; [apply Hs|]. intros q cloid Hq Hc.
  apply known_event; [done|]. pose proof (hi_known _ _ Hs) as Hk. rewrite Forall_forall in Hk. specialize (Hk q Hq).
  rewrite Forall_forall in Hk. by apply Hk.
Qed.

(** ** Revoked keys *)

Definition key_revoked (s : S) : Prop := SecretsBoundary.is_revoked (hl_signing_key_ref s) (hl_signing s) = true.
Definition no_wallet (s : S) : Prop := match hl_wallet_signer s with Some w => ws_revoked w = true | None => True end.

Section dead.
Context (sent : list http_request).
Notation P1 := (fun s : S => key_revoked s /\ exchange_sent s = sent).
Notation P2 := (fun s : S => no_wallet s /\ exchange_sent s = sent).

Lemma gate_stops purpose context s : key_revoked s -> exists e, _authorization_gate purpose context s = (s, Err e).
Proof.
  intros Hs. unfold _authorization_gate. pose proof (SecretsBoundaryFacts.sign_revoked _ _ purpose context Hs) as Hn.
  destruct (SecretsBoundary.sign _ _ _ _) as [b|e]; [done|]. by exists e.
Qed.

Lemma gated {A} purpose context (f : unit -> M S A) : preserves P1 (_authorization_gate purpose context ≫= f).
Proof. apply preserves_stop. intros s [Hs _]. by apply gate_stops. Qed.
#[local] Hint Resolve gated : turtle.

Lemma take_nonce_dead : preserves P2 take_nonce.
Proof. intros s Hs. unfold take_nonce. by destruct (match hl_clock_ms s with ms :: rest => _ | [] => _ end). Qed.
Lemma wallet_stops {A} cid (f : json -> M S A) : preserves P2 (wallet_sign cid ≫= f).
Proof.
  apply preserves_stop. intros s [Hs _]. unfold no_wallet in Hs. unfold wallet_sign, sign_connection_id.
  destruct (hl_wallet_signer s) as [w|]; [|by eexists]. rewrite Hs. by eexists.
Qed.
#[local] Hint Resolve take_nonce_dead wallet_stops : turtle.
Lemma send_dead action : preserves P2 (_sign_and_post action).
Proof. unfold _sign_and_post. walk. Qed.
Lemma record_dead cid : preserves P2 (record_mapping cid).
Proof. intros s Hs. unfold record_mapping, zoom. by destruct (record cid _). Qed.
#[local] Hint Resolve send_dead record_dead : turtle.

Lemma dead_info (Q : S -> Prop) s body : (forall s1 s2 : S, hl_signing s1 = hl_signing s2 -> hl_signing_key_ref s1 = hl_signing_key_ref s2 ->
    hl_wallet_signer s1 = hl_wallet_signer s2 -> Q s1 -> Q s2) ->
  Q s /\ exchange_sent s = sent -> Q (post INFO_PATH body s).1 /\ exchange_sent (post INFO_PATH body s).1 = sent.
Proof. intros HQ [Hs He]. split; [by apply (HQ s)|]. by rewrite exchange_sent_info. Qed.
Lemma dead_info1 s body : P1 s -> P1 (post INFO_PATH body s).1.
Proof. apply (dead_info key_revoked). unfold key_revoked. by intros s1 s2 -> ->. Qed.
Lemma dead_info2 s body : P2 s -> P2 (post INFO_PATH body s).1.
Proof. apply (dead_info no_wallet). unfold no_wallet. by intros s1 s2 _ _ ->. Qed.
Lemma dead_fetch1 : preserves P1 fetch_assets.
Proof. exact (fetch_assets_keeps P1 (fun _ _ H => H) dead_info1). Qed.
Lemma dead_fetch2 : preserves P2 fetch_assets.
Proof. exact (fetch_assets_keeps P2 (fun _ _ H => H) dead_info2). Qed.
#[local] Hint Resolve dead_info1 dead_info2 dead_fetch1 dead_fetch2 : turtle.

(** No call sends anything. *)
Lemma run_op_dead1 o s : P1 s -> P1 (run_op o s).
Proof.
  intros Hs. pose proof (run_op_reads P1 o (fun _ _ H => H) (fun _ _ _ H => H) dead_fetch1 (fun _ H => H) dead_info1) as Hr.
  destruct o; try exact (Hr s Hs); revert s Hs.
  - change (preserves P1 (hl_place_order r)). unfold hl_place_order. walk.
  - change (preserves P1 (hl_amend_order r)). unfold hl_amend_order. walk.
  - change (preserves P1 (hl_cancel_order r)). unfold hl_cancel_order. walk.
  - change (preserves P1 (hl_cancel_all r)). unfold hl_cancel_all. walk.
Qed.

Lemma reads_dead2 {A} (m : M S A) : (forall I : S -> Prop,
    (forall s c, I s -> I (with_clock c s)) -> (forall s b t, I s -> I (with_connection b t s)) ->
    preserves I fetch_assets -> (forall s body, I s -> I (post INFO_PATH body s).1) -> preserves I m) -> preserves P2 m.
Proof. intros Hm. exact (Hm P2 (fun _ _ H => H) (fun _ _ _ H => H) dead_fetch2 dead_info2). Qed.

Lemma run_op_dead2 o s : P2 s -> P2 (run_op o s).
Proof.
  intros Hs. pose proof (run_op_reads P2 o (fun _ _ H => H) (fun _ _ _ H => H) dead_fetch2 (fun _ H => H) dead_info2) as Hr.
  destruct o; try exact (Hr s Hs); revert s Hs.
  - change (preserves P2 (hl_place_order r)). unfold hl_place_order. walk_with ltac:(apply reads_dead2; intros; auto with turtle).
  - change (preserves P2 (hl_amend_order r)). unfold hl_amend_order. walk_with ltac:(apply reads_dead2; intros; auto with turtle).
  - change (preserves P2 (hl_cancel_order r)). unfold hl_cancel_order. walk_with ltac:(apply reads_dead2; intros; auto with turtle).
  - change (preserves P2 (hl_cancel_all r)). unfold hl_cancel_all. walk_with ltac:(apply reads_dead2; intros; auto with turtle).
Qed.
End dead.

Lemma steps_dead1 account s s' : rtc (hl_step account) s s' -> key_revoked s -> key_revoked s' /\ exchange_sent s' = exchange_sent s.
Proof.
  intros Hr Hk. assert (Hs : key_revoked s /\ exchange_sent s = exchange_sent s) by done.
  enough (Hg : forall sent, key_revoked s /\ exchange_sent s = sent -> key_revoked s' /\ exchange_sent s' = sent) by (by apply Hg).
  clear Hk Hs. intros sent Hs. induction Hr as [|s s1 s' Hstep _ IH]; [done|]. apply IH. destruct Hstep as [o _|sb Hb| |]; [by apply run_op_dead1| |done..].
  destruct Hs as [Hs ?]. split; [|done]. by eapply SecretsBoundaryFacts.step_revoked.
Qed.

Lemma steps_dead2 account s s' : rtc (hl_step account) s s' -> no_wallet s -> no_wallet s' /\ exchange_sent s' = exchange_sent s.
Proof.
  intros Hr Hk. assert (Hs : no_wallet s /\ exchange_sent s = exchange_sent s) by done.
  enough (Hg : forall sent, no_wallet s /\ exchange_sent s = sent -> no_wallet s' /\ exchange_sent s' = sent) by (by apply Hg).
  clear Hk Hs. intros sent Hs. induction Hr as [|s s1 s' Hstep _ IH]; [done|]. apply IH. destruct Hstep as [o _| | |]; [by apply run_op_dead2|done| |done].
  destruct Hs as [Hs ?]. split; [|done]. unfold no_wallet in *. cbn. by destruct (hl_wallet_signer s).
Qed.

(** C8: safety. Emergency kill: once the signing reference or the wallet is
    revoked (or there is no wallet), no request reaches the exchange again,
    whatever is called afterwards and in any order; and it stays revoked. *)
Theorem revoked_sends_nothing account s s' : key_revoked s \/ no_wallet s -> rtc (hl_step account) s s' ->
  exchange_sent s' = exchange_sent s /\ (key_revoked s' \/ no_wallet s').
Proof.
  intros [Hk|Hk] Hr; [destruct (steps_dead1 _ _ _ Hr Hk)|destruct (steps_dead2 _ _ _ Hr Hk)]; auto.
Qed.

(** ** Where an asset index comes from *)

(** The place of a symbol in the universe of an answer. *)
Definition universe_of (body : json) : list json := match jget "universe" body with Some (JList l) => l | _ => [] end.
Definition listed_at (body : json) (sym : string) (i : Z) : Prop :=
  exists entry, 0 <= i /\ universe_of body !! Z.to_nat i = Some entry /\ jstr "name" entry = Some sym.

(** The venue answered a request for its assets, one of those sent, with a
    universe that has the symbol at this place. *)
Definition meta_request (s : S) : http_request := (hl_base_url s +:+ INFO_PATH, JObj [("type", JStr "meta")]).
Definition venue_lists (s : S) (sym : string) (i : Z) : Prop :=
  exists before body, (before ++ [meta_request s]) `prefix_of` hl_sent s /\ hv_network (before ++ [meta_request s]) = Ok body /\ listed_at body sym i.

Definition listed_by (s : S) (assets : list (string * Z)) : Prop := forall sym i, dget sym assets = Some i -> venue_lists s sym i.

(** Everything cached was answered. *)
Definition cache_listed (s : S) : Prop := forall assets, hl_asset_index_cache s = Some assets -> listed_by s assets.

Lemma index_assets_places universe : forall k d d', 0 <= k -> index_assets k universe d = Ok d' -> forall sym i, dget sym d' = Some i ->
  dget sym d = Some i \/ exists entry, k <= i /\ universe !! Z.to_nat (i - k) = Some entry /\ jstr "name" entry = Some sym.
Proof.
  assert (Hstep : forall (a : json) universe k i sym, (exists entry, k + 1 <= i /\ universe !! Z.to_nat (i - (k + 1)) = Some entry /\ jstr "name" entry = Some sym) ->
    exists entry, k <= i /\ (a :: universe) !! Z.to_nat (i - k) = Some entry /\ jstr "name" entry = Some sym).
  { intros a u k i sym (entry & Hi & He & Hn). exists entry. split; [lia|]. split; [|done]. by replace (Z.to_nat (i - k)) with (Datatypes.S (Z.to_nat (i - (k + 1)))) by lia. }
  induction universe as [|a universe IH]; intros k d d' Hk E sym i Hi; [injection E as <-; by left|]. cbn [index_assets] in E.
  destruct (get_ "name" a) as [name|] eqn:En; [|done]. cbn [mbind result_bind] in E.
  assert (Hskip : index_assets (k + 1) universe d = Ok d' -> dget sym d = Some i \/ exists entry, k <= i /\ (a :: universe) !! Z.to_nat (i - k) = Some entry /\ jstr "name" entry = Some sym).
  { intros E'. destruct (IH (k + 1) d d' ltac:(lia) E' sym i Hi) as [?|H']; [by left|right; by apply Hstep]. }
  destruct (negb (truthy name)); [by apply Hskip|]. destruct name as [| | |n| |]; try (by apply Hskip); try done.
  destruct (IH (k + 1) (dset n k d) d' ltac:(lia) E sym i Hi) as [Hd|H']; [|right; by apply Hstep]. destruct (String.eqb_spec sym n) as [->|Hne].
  - rewrite dget_dset_eq in Hd. injection Hd as <-. right. exists a. split; [done|]. rewrite Z.sub_diag. split; [done|].
    destruct a as [| | | | |o]; try done. unfold get_, get_or in En. unfold jstr, jget. destruct (dget "name" o); [|done]. by injection En as ->.
  - rewrite dget_dset_ne // in Hd. by left.
Qed.

(** What was answered stays answered. *)
Lemma listed_mono s s' sym i : hl_base_url s' = hl_base_url s -> hl_sent s `prefix_of` hl_sent s' -> venue_lists s sym i -> venue_lists s' sym i.
Proof.
  intros Hu Hp (before & body & Hb & Hn & Hl). exists before, body. unfold meta_request in *. rewrite Hu. split; [by etrans|done].
Qed.
Lemma cache_listed_other (s s' : S) : hl_base_url s' = hl_base_url s -> hl_sent s `prefix_of` hl_sent s' ->
  hl_asset_index_cache s' = hl_asset_index_cache s -> cache_listed s -> cache_listed s'.
Proof. intros Hu Hp Hc Hs assets Ha sym i Hi. rewrite Hc in Ha. by eapply listed_mono, Hs. Qed.

(** The fetch caches what the venue answers. *)
Lemma fetch_assets_listed (s s' : S) assets : fetch_assets s = (s', Ok assets) -> listed_by s' assets.
Proof.
  unfold fetch_assets, _fetch_asset_index_map. rewrite !run_bind. unfold _info, post. destruct (hv_network _) as [body|] eqn:En; [|done].
  rewrite run_lift. destruct (match body with JObj o => _ | _ => _ end) as [universe|] eqn:Eu; [|done]. unfold lift.
  destruct (index_assets 0 universe []) as [d|] eqn:Ed; [|done]. cbn. intros [= <- <-] sym i Hi.
  destruct (index_assets_places universe 0 [] d ltac:(lia) Ed sym i Hi) as [?|(entry & Hi0 & He & Hn)]; [done|].
  exists (hl_sent s), body. split; [done|]. split; [exact En|]. exists entry. split; [lia|]. rewrite Z.sub_0_r in He. split; [|done].
  unfold universe_of, jget. destruct body as [| | | | |o]; try (injection Eu as <-; by rewrite lookup_nil in He).
  destruct (dget "universe" o) as [u|]; [|injection Eu as <-; by rewrite lookup_nil in He].
  assert (Hname : forall t, jstr "name" (JStr t) <> Some sym) by done.
  destruct u as [| | |t|l|o']; try done; cbn in Eu; injection Eu as <-; [|done|].
  - exfalso. apply list_elem_of_lookup_2 in He. clear -He Hn. induction t as [|c t IH]; [by apply elem_of_nil in He|]. cbn [chars] in He.
    apply elem_of_cons in He as [->|He]; [done|auto].
  - exfalso. rewrite list_lookup_fmap in He. by destruct (dkeys o' !! _); [injection He as <-|].
Qed.

Lemma fetch_assets_cache : preserves cache_listed fetch_assets.
Proof.
  intros s Hs. destruct (fetch_assets s) as [s' r] eqn:E. pose proof E as E0. unfold fetch_assets, _fetch_asset_index_map in E.
  rewrite !run_bind in E. unfold _info, post in E.
  assert (Hsent : cache_listed (with_sent (hl_sent s ++ [meta_request s]) s)) by (apply (cache_listed_other s); [done|by eexists|done|done]).
  destruct (hv_network _) as [body|]; [|by injection E as <- <-].
  rewrite run_lift in E. destruct (match body with JObj o => _ | _ => _ end) as [universe|]; [|by injection E as <- <-]. unfold lift in E.
  destruct (index_assets 0 universe []) as [d|]; [|by injection E as <- <-]. cbn in E. injection E as <- <-.
  pose proof (fetch_assets_listed _ _ _ E0) as Hl. intros assets [= <-]. exact Hl.
Qed.

Lemma cache_clock s c : cache_listed s -> cache_listed (with_clock c s). Proof. done. Qed.
Lemma cache_conn s b t : cache_listed s -> cache_listed (with_connection b t s). Proof. done. Qed.
Lemma cache_post path s body : cache_listed s -> cache_listed (post path body s).1.
Proof. apply cache_listed_other; [done|by eexists|done]. Qed.

(** The index of a symbol is the venue's. *)
Lemma asset_index_listed symbol (s s' : S) i : cache_listed s -> _asset_index symbol s = (s', Ok i) -> venue_lists s' (sym_value symbol) i.
Proof.
  intros Hs. unfold _asset_index. rewrite run_get run_bind.
  assert (Hget : forall s1 s2 assets, cache_listed s1 -> match hl_asset_index_cache s1 with None => fetch_assets | Some assets => mret assets end s1 = (s2, Ok assets) ->
    cache_listed s2 /\ listed_by s2 assets).
  { intros s1 s2 assets H1 E. destruct (hl_asset_index_cache s1) as [c|] eqn:Ec; [injection E as <- <-; split; [done|by apply H1]|].
    pose proof (fetch_assets_cache s1 H1) as Hc. pose proof (fetch_assets_listed _ _ _ E) as Hl. by rewrite E in Hc. }
  destruct (match hl_asset_index_cache s with None => fetch_assets | Some assets => mret assets end s) as [s1 [assets|]] eqn:E; [|done].
  destruct (Hget s s1 assets Hs E) as [H1 Hl]. destruct (dget (sym_value symbol) assets) as [j|] eqn:Ej; [intros [= <- <-]; by apply Hl|].
  rewrite run_bind. destruct (fetch_assets s1) as [s2 [assets'|]] eqn:E'; [|done]. pose proof (fetch_assets_listed _ _ _ E') as Hl'. unfold lift.
  destruct (dget (sym_value symbol) assets') as [j|] eqn:Ej'; [|done]. intros [= <- <-]. by apply Hl'.
Qed.

Lemma record_cache cid : preserves cache_listed (record_mapping cid).
Proof. intros s Hs. unfold record_mapping, zoom. by destruct (record cid _). Qed.
Lemma nonce_cache : preserves cache_listed take_nonce.
Proof. intros s Hs. unfold take_nonce. by destruct (match hl_clock_ms s with ms :: rest => _ | [] => _ end). Qed.
Lemma wallet_cache cid : preserves cache_listed (wallet_sign cid).
Proof. by intros s Hs. Qed.
Lemma post_cache path body : preserves cache_listed (post path body).
Proof. intros s. apply cache_post. Qed.
#[local] Hint Resolve record_cache nonce_cache wallet_cache post_cache cache_clock cache_conn fetch_assets_cache : turtle.
Lemma send_cache action : preserves cache_listed (_sign_and_post action).
Proof. unfold _sign_and_post. walk. Qed.
#[local] Hint Resolve send_cache : turtle.
Lemma reads_cache {A} (m : M S A) : (forall I : S -> Prop,
    (forall s c, I s -> I (with_clock c s)) -> (forall s b t, I s -> I (with_connection b t s)) ->
    preserves I fetch_assets -> (forall s body, I s -> I (post INFO_PATH body s).1) -> preserves I m) -> preserves cache_listed m.
Proof. intros Hm. exact (Hm cache_listed cache_clock cache_conn fetch_assets_cache (cache_post INFO_PATH)). Qed.

Lemma run_op_cache o s : cache_listed s -> cache_listed (run_op o s).
Proof.
  intros Hs. pose proof (run_op_reads cache_listed o cache_clock cache_conn fetch_assets_cache ltac:(by intros ? _ ?) (cache_post INFO_PATH)) as Hr.
  destruct o; try exact (Hr s Hs); revert s Hs.
  - change (preserves cache_listed (hl_place_order r)). unfold hl_place_order. walk_with ltac:(apply reads_cache; intros; auto with turtle).
  - change (preserves cache_listed (hl_amend_order r)). unfold hl_amend_order. walk_with ltac:(apply reads_cache; intros; auto with turtle).
  - change (preserves cache_listed (hl_cancel_order r)). unfold hl_cancel_order. walk_with ltac:(apply reads_cache; intros; auto with turtle).
  - change (preserves cache_listed (hl_cancel_all r)). unfold hl_cancel_all. walk_with ltac:(apply reads_cache; intros; auto with turtle).
Qed.

Lemma run_cache account s s' : rtc (hl_step account) s s' -> cache_listed s -> cache_listed s'.
Proof. intros Hr Hs. induction Hr as [|s s1 s' Hstep _ IH]; [done|]. apply IH. destruct Hstep as [o _| | |]; [by apply run_op_cache|done..]. Qed.

Lemma init_cache signing ref account url timeout l wallet clock ms s :
  hyperliquid_init signing ref account url timeout true l wallet clock ms = Ok s -> cache_listed s.
Proof.
  unfold hyperliquid_init. repeat case_match; try done. destruct (mapping_init _ _) as [m|]; [|done]. cbn [mbind result_bind].
  destruct (network_matches _ _) as [[]|]; [|done]. cbn [mbind result_bind]. intros <-%(inj Ok) assets. done.
Qed.

(** A state of the adapter: reached by a run from its construction over a log
    with its account's earlier orders. *)
Definition hl_reach (account : string) (s : S) : Prop :=
  exists signing ref url timeout l wallet clock ms s0, account_log account l /\
    hyperliquid_init signing ref account url timeout true l wallet clock ms = Ok s0 /\ rtc (hl_step account) s0 s.

Lemma hl_reach_inv account s : hl_reach account s -> hl_inv account s /\ cache_listed s.
Proof.
  intros (signing & ref & url & timeout & l & wallet & clock & ms & s0 & Hl & Hi & Hr). split.
  - by eapply run_inv; [eapply init_inv|].
  - by eapply run_cache; [|eapply init_cache].
Qed.
End adapter.
