(* ===== verification/HyperliquidOrders.v ===== *)
(** * The Hyperliquid adapter: orders out and orders in

    What placing an order sends and returns, on every answer; whose orders and
    fills the reads report; and which orders [cancel_all] reports cancelled. *)

From Stdlib Require Import ssreflect ZArith Lia Ascii String QArith.
From stdpp Require Import base strings numbers gmap sets list relations.
From S2P Require Import Prelude PyText PyDict PyBytes PyJson PyJsonFacts PyDecimal PyDecimalFacts EventStore EventStoreFacts EventLog ExchangeModels ExchangeAdapter.
From S2P Require SecretsBoundary SecretsBoundaryFacts.
From S2P Require Import Validation SharedLog HyperliquidCodec HyperliquidWire HyperliquidMapping Hyperliquid HyperliquidSpec.
#[local] Open Scope Z_scope.

Section adapter.
Context {L : Type} `{EventLog L} `{HyperliquidVenue}.
Notation S := (Hyperliquid L).

(** ** The last request and its answer *)

(** What an answer of the exchange says: that it took the action, and a status
    for each of its parts. *)
Definition accepted (answer : json) : Prop := jstr "status" answer = Some "ok".
Definition statuses_of (answer : json) : list json :=
  match (jget "response" answer ≫= jget "data") ≫= jget "statuses" with Some (JList l) => l | _ => [] end.

Lemma check_ok_accepted body : _check_ok body = Ok tt -> accepted body.
Proof.
  unfold _check_ok, accepted, jstr, jget. destruct body as [| | | | |o]; try done. destruct (dget "status" o) as [[| | |t| |]|]; try done.
  cbn. destruct (String.eqb t "err"); [done|]. by destruct (String.eqb_spec t "ok") as [->|].
Qed.
Lemma accepted_check_ok body : accepted body -> _check_ok body = Ok tt.
Proof.
  unfold _check_ok, accepted, jstr, jget. destruct body as [| | | | |o]; try done. destruct (dget "status" o) as [[| | |t| |]|]; try done.
  cbn. by intros [= ->].
Qed.
Lemma statuses_list body statuses : _statuses body = Ok statuses -> statuses_of body = match statuses with JList l => l | _ => [] end.
Proof.
  unfold _statuses, statuses_of, get_or, jget. destruct body as [| | | | |o]; try done. cbn. intros [= <-].
  destruct (dget "response" o) as [[| | | | |r]|]; try done. cbn. destruct (dget "data" r) as [[| | | | |d]|]; try done. cbn.
  by destruct (dget "statuses" d) as [[]|].
Qed.
Lemma statuses_ok body : accepted body -> exists statuses, _statuses body = Ok statuses.
Proof. unfold accepted, jstr, jget. destruct body as [| | | | |o]; try done. by eexists. Qed.

(** One request after those of [s0], or none. *)
Definition same_sent (s0 s : S) : Prop := exchange_sent s = exchange_sent s0 /\ hl_base_url s = hl_base_url s0 /\ hl_nonce s = hl_nonce s0.
Definition one_more (s0 : S) (body : json) (s : S) : Prop :=
  exchange_sent s = exchange_sent s0 ++ [(hl_base_url s0 +:+ EXCHANGE_PATH, body)].
(** The body of a request to the exchange, the last request of all. *)
Definition exchange_body (action : json) (nonce : Z) (signature : json) : json :=
  JObj [("action", action); ("nonce", JInt nonce); ("signature", signature); ("vaultAddress", JNull)].
Definition last_sent (s : S) (body : json) : Prop := last (hl_sent s) = Some (hl_base_url s +:+ EXCHANGE_PATH, body).

(** What later requests leave as it is. *)
Definition grown (s0 s : S) : Prop := hl_base_url s = hl_base_url s0 /\ hl_sent s0 `prefix_of` hl_sent s.
Definition settled (s0 s : S) : Prop :=
  hl_sent s = hl_sent s0 /\ hl_base_url s = hl_base_url s0 /\ hl_mapping s = hl_mapping s0 /\ hl_asset_index_cache s = hl_asset_index_cache s0.

Lemma sign_and_post_sends action (s : S) :
  let '(s', r) := _sign_and_post action s in
  hl_mapping s' = hl_mapping s /\ grown s s' /\
  (exchange_sent s' = exchange_sent s /\ is_ok r = false \/
   exists nonce signature, hl_nonce s < nonce /\ one_more s (exchange_body action nonce signature) s' /\
     last_sent s' (exchange_body action nonce signature) /\ r = hv_network (hl_sent s')).
Proof.
  unfold _sign_and_post, take_nonce. rewrite run_bind.
  destruct (match hl_clock_ms s with ms :: rest => (ms, rest) | [] => (0, []) end) as [ms rest].
  pose proof (next_nonce_above (hl_nonce s) ms) as Hn. set (n := next_nonce (hl_nonce s) ms) in *. set (s1 := with_nonce n rest s).
  rewrite run_lift. destruct (connection_id _ _ action n None) as [cid|e]; [|split_and!; [done..|by left]]. rewrite run_bind. unfold wallet_sign.
  destruct (hl_wallet_signer s1) as [w|]; [|split_and!; [done..|by left]].
  destruct (sign_connection_id _ w cid) as [sg|e]; [|split_and!; [done..|by left]].
  rewrite run_lift. unfold build_exchange_request. destruct action as [| | | | |o]; try (split_and!; [done..|by left]).
  destruct (n <=? 0); [split_and!; [done..|by left]|]. destruct sg as [| | | | |sg]; try (split_and!; [done..|by left]).
  destruct (_ && _); [|split_and!; [done..|by left]]. split_and!; [done|by split; [|eexists]|]. right. exists n, (JObj sg).
  split_and!; [done|apply (exchange_sent_post s1)|unfold last_sent, post; cbn; by rewrite last_snoc|done].
Qed.

(** ** Placing an order *)

(** The name of the time in force of an order. *)
Definition tif_names : list (TimeInForce * string) := [(TimeInForce.GTC, "Gtc"); (TimeInForce.IOC, "Ioc"); (TimeInForce.POST_ONLY, "Alo")].

(** A text for a number: digits, a point and a sign, of exactly its value when
    that has at most 28 digits. *)
Definition text_for (d : decimal) (text : string) : Prop :=
  fits (value d) -> str_forall wire_char text = true /\ exists x, dec_parse text = Some x /\ (value x == value d)%Q.

(** The action of an order, as the venue documents it. *)
Definition order_action (r : OrderRequest) (asset : Z) (price size tif : string) : json :=
  JObj [("type", JStr "order");
        ("orders", JList [JObj [("a", JInt asset); ("b", JBool (bool_decide (or_side r = OrderSide.BUY))); ("p", JStr price); ("s", JStr size);
                                ("r", JBool (or_reduce_only r)); ("t", JObj [("limit", JObj [("tif", JStr tif)])]);
                                ("c", JStr (mint_venue_token (or_client_order_id r)))]]);
        ("grouping", JStr "na")].

Lemma tif_wire_name t tif : tif_wire t = Ok tif -> (t, tif) ∈ tif_names.
Proof. unfold tif_wire, _TIF_WIRE, tif_names. destruct t; cbn; try done; intros [= <-]; set_solver. Qed.
Lemma to_wire_text d : text_for d (to_wire d).
Proof.
  intros Hf. unfold to_wire. destruct (format_f_parse (normalize d)) as (x & Hx & Hv & Hw). split; [done|].
  exists x. split; [done|]. rewrite Hv. by apply normalize_value.
Qed.

Lemma record_mapping_token account cid s : cid <> "" -> hl_inv account s ->
  let '(s', r) := record_mapping cid s in
  same_sent s s' /\ (forall token, r = Ok token -> token = mint_venue_token cid /\ known_token cid (hl_mapping s') = Some token).
Proof.
  intros Hc [[Hl (cids & Hm & Em)] _ _ _]. cbn [fst snd] in *. unfold record_mapping, zoom. rewrite Em.
  pose proof (record_cases account cids cid (hl_log s) Hl Hm Hc) as Hr.
  destruct (record cid (hl_log s, mapping_of account cids)) as [w r]. destruct Hr as [_ Hr]. split; [done|]. intros token E.
  destruct Hr as [Hin|l' e Hnew El Ep Hm'|l' x El Hx|l' c El Hcin Hne Et]; try done; apply (inj Ok) in E as <-; (split; [done|]); cbn [hl_mapping with_stored snd].
  - apply known_in; [apply Hm|done].
  - apply known_in; [apply Hm'|set_solver].
Qed.

(** An order against its request, and against the first status of the answer:
    resting or filled there, under the venue's id where it names one. *)
Definition names_request (r : OrderRequest) (o : Order) : Prop :=
  o_client_order_id o = or_client_order_id r /\ o_symbol o = or_symbol r /\ o_side o = or_side r /\ o_order_type o = or_order_type r /\
  o_quantity o = or_quantity r /\ o_limit_price o = or_limit_price r /\ o_time_in_force o = or_time_in_force r /\ o_reduce_only o = or_reduce_only r.
Definition placed_as (r : OrderRequest) (answer : json) (o : Order) : Prop :=
  accepted answer /\ exists entry rest found, statuses_of answer = entry :: rest /\ jget "error" entry = None /\ names_request r o /\
  (forall oid, jget "oid" found = Some oid -> oid <> JNull -> o_exchange_order_id o = Some (text_of hv_repr oid)) /\
  (jget "resting" entry = Some found /\ o_status o = OrderStatus.ACKNOWLEDGED /\ o_filled_quantity o = d0 \/
   jget "resting" entry = None /\ jget "filled" entry = Some found /\ o_status o = OrderStatus.FILLED /\
   exists total, jget "totalSz" found = Some total /\ decimal_of_json total = Some (o_filled_quantity o)).

(** What a placement comes to, against the venue's answer: a failed request is
    raised; an order is returned only as the answer says; an order the answer
    says is resting is returned. *)
Definition place_outcome (r : OrderRequest) (answer : result json) (res : result Order) : Prop :=
  (forall e, answer = Err e -> res = Err e) /\
  (forall o, res = Ok o -> exists body, answer = Ok body /\ placed_as r body o) /\
  (forall body entry rest resting oid, answer = Ok body -> accepted body -> statuses_of body = entry :: rest -> jget "error" entry = None ->
     jget "resting" entry = Some resting -> jget "oid" resting = Some oid -> is_ok res = true).

Lemma get_jget k j x : get_ k j = Ok x -> x <> JNull -> jget k j = Some x.
Proof. unfold get_, get_or, jget. destruct j as [| | | | |o]; try done. destruct (dget k o); cbn; congruence. Qed.
Lemma jget_get k j x : jget k j = Some x -> get_ k j = Ok x.
Proof. unfold get_, get_or, jget. destruct j as [| | | | |o]; try done. by intros ->. Qed.

Lemma parse_place_result_outcome body statuses r (s : S) : accepted body -> _statuses body = Ok statuses ->
  place_outcome r (Ok body) (_parse_place_result statuses r s).2.
Proof.
  intros Ha Hs%statuses_list. split; [done|]. unfold _parse_place_result.
  destruct (truthy statuses) eqn:Et; cbn [negb].
  2: { split; [done|]. intros body' entry rest resting oid [= <-] _ E. rewrite Hs in E. by destruct statuses as [| | | |[]|]. }
  rewrite run_lift.
  assert (Hentry : forall entry, item_at 0 statuses = Ok entry -> (exists rest, statuses = JList (entry :: rest)) \/ exists c, entry = JStr c).
  { intros entry. destruct statuses as [| | |t|[|x l]|]; try done; cbn.
    - destruct t as [|c t]; [done|]. cbn. intros [= <-]. right. by eexists.
    - intros [= ->]. left. by eexists. }
  destruct (item_at 0 statuses) as [entry|] eqn:Ei.
  2: { split; [done|]. intros body' entry rest resting oid [= <-] _ E. rewrite Hs in E. by destruct statuses as [| | | |[]|]. }
  destruct (Hentry entry eq_refl) as [[rest ->]|[c ->]].
  2: { cbn [entry_has]. rewrite run_bind. destruct (now s) as [s' [t|]].
       all: (split; [done|]); intros body' entry rest resting oid [= <-] _ E _ Hr; rewrite Hs in E.
       all: destruct statuses as [| | | |[|x l]|]; try done; injection Ei as ->; by injection E as <- <-. }
  clear Hentry Ei Et. change (entry_has ?k ?e) with (jget k e).
  destruct (jget "error" entry) as [x|] eqn:Ee.
  { split; [done|]. intros body' entry' rest' resting oid [= <-] _ E. rewrite Hs in E. injection E as <- <-. congruence. }
  rewrite run_bind. destruct (now s) as [s' r0] eqn:En. assert (Ht : exists t, r0 = Ok t).
  { unfold now in En. destruct (hl_clock s); injection En as <- <-; by eexists. }
  destruct Ht as [t ->]. destruct (jget "resting" entry) as [resting|] eqn:Er.
  - rewrite run_lift. destruct (get_ "oid" resting) as [oid|] eqn:Eo.
    + split; [|done]. cbn. intros o [= <-]. exists body. split; [done|]. split; [done|]. exists entry, rest, resting.
      split_and!; [done..| |by left]. intros oid' Ho _. apply jget_get in Ho. by rewrite Eo in Ho; injection Ho as ->.
    + split; [done|]. intros body' entry' rest' resting' oid [= <-] _ E _ Er' Ho%jget_get. rewrite Hs in E. injection E as <- <-. congruence.
  - split; [|intros body' entry' rest' resting' oid [= <-] _ E _ Er'; rewrite Hs in E; injection E as <- <-; congruence].
    destruct (jget "filled" entry) as [filled|] eqn:Ef; [|done]. rewrite run_lift. destruct (get_ "oid" filled) as [oid|] eqn:Eo; [|done].
    rewrite run_lift. destruct (get_ "totalSz" filled) as [total|] eqn:Etot; [|done]. cbn [mbind result_bind].
    destruct (decimal_of_json total) as [d|] eqn:Ed; [|done]. cbn. intros o [= <-]. exists body. split; [done|]. split; [done|].
    exists entry, rest, filled. split_and!; [done..| |].
    + intros oid' Ho _. apply jget_get in Ho. by rewrite Eo in Ho; injection Ho as ->.
    + right. split_and!; [done..|]. exists total. split; [|done]. apply get_jget; [done|]. by destruct total.
Qed.

(** *** The states on the way *)

Lemma preserves_and (I J : S -> Prop) {A} (m : M S A) : preserves I m -> preserves J m -> preserves (fun s => I s /\ J s) m.
Proof. intros Hi Hj s [H1 H2]. split; [by apply Hi|by apply Hj]. Qed.

(** A read of the venue, which sends no request to the exchange: it grows the
    list of requests and keeps what depends on the rest only. *)
Definition a_read {A} (m : M S A) : Prop := forall I : S -> Prop,
  (forall s c, I s -> I (with_clock c s)) -> (forall s b t, I s -> I (with_connection b t s)) ->
  preserves I fetch_assets -> (forall s body, I s -> I (post INFO_PATH body s).1) -> preserves I m.

Lemma read_grows {A} (m : M S A) s : a_read m -> grown s (m s).1.
Proof.
  intros Hm. assert (Hpost : forall s1 body, grown s s1 -> grown s (post INFO_PATH body s1).1) by (intros s1 body [H1 H2]; split; [done|by apply prefix_app_r]).
  apply (Hm (grown s)); [done..| |exact Hpost|done]. by apply fetch_assets_keeps.
Qed.
Lemma read_quiet {A} (m : M S A) s : a_read m -> same_sent s (m s).1.
Proof.
  intros Hm. assert (Hpost : forall s1 body, same_sent s s1 -> same_sent s (post INFO_PATH body s1).1) by (intros s1 body (H1 & H2 & H3); split; [by rewrite exchange_sent_info|done]).
  apply (Hm (same_sent s)); [done..| |exact Hpost|done]. by apply fetch_assets_keeps.
Qed.

Lemma read_mapping {A} (m : M S A) s : a_read m -> hl_mapping (m s).1 = hl_mapping s /\ hl_log (m s).1 = hl_log s.
Proof. intros Hm. apply (Hm (fun s' => hl_mapping s' = hl_mapping s /\ hl_log s' = hl_log s)); try done. by apply fetch_assets_keeps. Qed.

Lemma settled_refl s : settled s s. Proof. done. Qed.
Lemma settled_clock s0 s c : settled s0 s -> settled s0 (with_clock c s). Proof. done. Qed.
Lemma settled_one_more s0 s1 s body : one_more s0 body s1 -> settled s1 s -> one_more s0 body s.
Proof. unfold one_more, exchange_sent. by intros H1 (-> & -> & _). Qed.

#[local] Hint Resolve now_keeps info_keeps connected_keeps signer_keeps gate_keeps asset_index_keeps parse_place_result_keeps : turtle.
Ltac read := intros ? ? ? ? ?; auto with turtle.

Lemma connected_read : a_read _require_connected. Proof. read. Qed.
Lemma signer_read : a_read _require_signer. Proof. read. Qed.
Lemma gate_read purpose context : a_read (_authorization_gate purpose context). Proof. read. Qed.
Lemma asset_index_read symbol : a_read (_asset_index symbol). Proof. read. Qed.

(** The state before the request: nothing sent, and the token known once it is. *)
Definition before_send (account : string) (s0 : S) (token : option string) (cid : string) (s : S) : Prop :=
  (hl_inv account s /\ cache_listed s) /\ same_sent s0 s /\ match token with Some t => known_token cid (hl_mapping s) = Some t | None => True end.

Lemma before_send_reads account s0 token cid {A} (m : M S A) : a_read m -> preserves (before_send account s0 token cid) m.
Proof.
  intros Hm s ((Hi & Hc) & (Hs & Hu & Hn) & Ht). destruct (read_quiet m s Hm) as (Q1 & Q2 & Q3). destruct (read_mapping m s Hm) as [M1 M2].
  split; [split|split].
  - apply (hl_inv_other account s); [done..|by rewrite Q3|done|done].
  - by apply (reads_cache m Hm).
  - unfold same_sent. by rewrite Q1 Q2 Q3.
  - by rewrite M1.
Qed.

(** What placing [r] from [s0] comes to. *)
Definition placement (r : OrderRequest) (s0 : S) (res : result Order) (s : S) : Prop :=
  (exchange_sent s = exchange_sent s0 /\ is_ok res = false) \/
  exists limit price size tif asset nonce signature, or_order_type r = OrderType.LIMIT /\ or_limit_price r = Some limit /\
    text_for limit price /\ text_for (or_quantity r) size /\ (or_time_in_force r, tif) ∈ tif_names /\
    venue_lists s (sym_value (or_symbol r)) asset /\ hl_nonce s0 < nonce /\
    known_token (or_client_order_id r) (hl_mapping s) = Some (mint_venue_token (or_client_order_id r)) /\
    let body := exchange_body (order_action r asset price size tif) nonce signature in
    one_more s0 body s /\ last_sent s body /\ place_outcome r (hv_network (hl_sent s)) res.

(** The rest of a placement, once its order is mapped and its asset is known. *)
Lemma send_placement account r limit tif s0 asset : or_order_type r = OrderType.LIMIT -> or_limit_price r = Some limit ->
  (or_time_in_force r, tif) ∈ tif_names -> let cid := or_client_order_id r in let token := mint_venue_token cid in
  triple (fun s => before_send account s0 (Some token) cid s /\ venue_lists s (sym_value (or_symbol r)) asset)
    (body ← _sign_and_post (build_order_action [build_order_wire asset (is_buy (or_side r)) limit (or_quantity r) (or_reduce_only r) tif (Some token)]);
     lift (_check_ok body);; statuses ← lift (_statuses body); _parse_place_result statuses r)
    (placement r s0).
Proof.
  intros Hty Hp Ht cid token s [(_ & (Hs & Hu & Hn) & Hk) Ha]. rewrite run_bind.
  set (action := build_order_action _). pose proof (sign_and_post_sends action s) as Hsend.
  destruct (_sign_and_post action s) as [s1 res]. destruct Hsend as (Hm & [Hgu Hgp] & [[He Hr]|(nonce & sg & Hlt & H1 & Hlast & Hres)]).
  { destruct res as [body|e]; [done|]. left. by rewrite He. }
  assert (Hfin : forall (res' : result Order) s', settled s1 s' -> place_outcome r res res' -> placement r s0 res' s').
  { intros res' s' Hst Hout. pose proof Hst as (E1 & E2 & E3 & _). right. exists limit, (to_wire limit), (to_wire (or_quantity r)), tif, asset, nonce, sg. rewrite -Hn. cbv zeta.
    split; [done|]. split; [done|]. split; [exact (to_wire_text _)|]. split; [exact (to_wire_text _)|]. split; [done|].
    split; [apply (listed_mono s); [by rewrite E2|by rewrite E1|done]|]. split; [done|]. split; [by rewrite E3 Hm|].
    split; [eapply settled_one_more; [|done]; unfold one_more in *; by rewrite H1 Hs Hu|].
    split; [unfold last_sent in *; by rewrite E1 E2|by rewrite E1 -Hres]. }
  destruct res as [body|e].
  2: { apply Hfin; [apply settled_refl|]. split; [by intros ? [= ->]|]. by split. }
  rewrite run_lift. destruct (_check_ok body) as [[]|e] eqn:Eok.
  2: { apply Hfin; [apply settled_refl|]. split; [done|]. split; [done|]. intros body' entry rest resting oid [= <-] Hacc%accepted_check_ok. congruence. }
  apply check_ok_accepted in Eok. rewrite run_lift. destruct (statuses_ok body Eok) as [statuses Es]. rewrite Es.
  apply Hfin; [|by apply parse_place_result_outcome].
  apply (parse_place_result_keeps (settled s1) (settled_clock s1)), settled_refl.
Qed.

(** C15: functional. In any state a run reaches, placing an order sends at most
    one request to the exchange, and never retries. A request is sent only for a
    limit order with a price and a supported time in force; it carries the index
    the venue listed the order's symbol at, the order's side, price, size and
    reduce-only flag, the name of its time in force and its own token, which is
    recorded by then, under a nonce above the last. The outcome is that of the
    venue's answer: an order is returned only if the answer accepts the action
    and its first status has no error, as acknowledged with nothing filled if it
    is resting there, else as filled with the total given; it names the engine's
    order, and the venue's id where the status has one. A resting order with an id
    is returned; a failed request is raised; a call that sends nothing raises. *)
Theorem place_sends account r s : hl_reach account s -> blank (or_client_order_id r) = false ->
  let '(s', res) := hl_place_order r s in placement r s res s'.
Proof.
  intros Hi%hl_reach_inv Hb. assert (Hc : or_client_order_id r <> "") by (intros E; by rewrite E in Hb).
  enough (Ht : triple (before_send account s None (or_client_order_id r)) (hl_place_order r) (placement r s)).
  { specialize (Ht s). destruct (hl_place_order r s) as [s' res]. apply Ht. by split. }
  assert (He : forall tok e s', before_send account s tok (or_client_order_id r) s' -> placement r s (Err e) s') by (intros tok e s' (_ & [Hs _] & _); by left).
  unfold hl_place_order. apply keep_seq; [apply before_send_reads, connected_read|by eauto|intros _].
  apply keep_seq; [apply before_send_reads, signer_read|by eauto|intros _].
  destruct (bool_decide (or_order_type r = OrderType.LIMIT)) eqn:Ety; cbn [negb]; [|intros s' Hs'; by eapply He]. apply bool_decide_eq_true in Ety.
  destruct (or_limit_price r) as [limit|] eqn:Ep; [|intros s' Hs'; by eapply He].
  apply lift_seq; [by intros e s' _; apply He|]. intros tif Etif%tif_wire_name.
  apply keep_seq; [apply before_send_reads, gate_read|by eauto|intros _].
  apply (triple_bind _ _ _ (fun token s' => token = mint_venue_token (or_client_order_id r) /\ before_send account s (Some token) (or_client_order_id r) s')).
  - intros s1 ([Hi1 Hc1] & Hs1 & _). pose proof (record_mapping_token account _ s1 Hc Hi1) as Hr. pose proof (record_mapping_inv account _ Hc s1 Hi1) as Hr'.
    pose proof (record_cache (or_client_order_id r) s1 Hc1) as Hc2.
    destruct (record_mapping (or_client_order_id r) s1) as [s2 [token|e]]; destruct Hr as [(E1 & E2 & E3) Ht]; cbn [fst snd] in *; destruct Hs1 as (F1 & F2 & F3).
    + destruct (Ht token eq_refl) as [-> Hk]. split; [done|]. split_and!; [apply Hr'|done| |done]. split_and!; congruence.
    + apply (He None). split_and!; [done|done| |done]. split_and!; congruence.
  - intros token s1 [-> Hs1]. revert s1 Hs1.
    apply (triple_bind _ _ _ (fun asset s' => before_send account s (Some (mint_venue_token (or_client_order_id r))) (or_client_order_id r) s' /\
      venue_lists s' (sym_value (or_symbol r)) asset)); [|intros asset; by apply (send_placement account)].
    intros s1 Hs1. pose proof (before_send_reads _ _ _ _ _ (asset_index_read (or_symbol r)) s1 Hs1) as Hs2. destruct Hs1 as ([_ Hc1] & _).
    pose proof (asset_index_listed (or_symbol r) s1) as Hl. destruct (_asset_index (or_symbol r) s1) as [s2 [asset|e]]; [|by eapply He].
    split; [exact Hs2|by apply Hl].
Qed.

(** ** Whose orders the reads report *)

(** An order the engine recorded, in the log and in memory. *)
Definition engine_owned (account : string) (s : S) (cid : string) : Prop :=
  known_token cid (hl_mapping s) = Some (mint_venue_token cid) /\
  exists e, e ∈ log_events (hl_log s) /\ _is_own account e = true /\ event_for account e cid.

Lemma resolved_owned account s cloid cid : hl_inv account s -> resolver s cloid = Ok (Some cid) -> engine_owned account s cid.
Proof.
  intros [[_ (cids & Hm & Em)] _ _ _] Hr. cbn [fst snd] in *. unfold resolver, resolve, lookup_in in Hr. rewrite Em in Hr.
  destruct (hashable cloid); [|done]. destruct cloid as [| | |token| |]; try done. injection Hr as Hr.
  apply (resolve_from cids account) in Hr as [Hc ->]. split; [rewrite Em; apply known_in; [apply Hm|done]|].
  pose proof Hc as [i Hi]%list_elem_of_lookup_1. destruct (Forall2_lookup_r _ _ _ _ _ (mp_own _ _ _ Hm) Hi) as (e & He & Hfor).
  apply list_elem_of_lookup_2, list_elem_of_In, List.filter_In in He as [He Ho]. exists e. split_and!; [by apply list_elem_of_In|done..].
Qed.

Lemma parse_each_Forall {A} (P : A -> Prop) (parse : json -> result (option A)) l xs :
  (forall j x, parse j = Ok (Some x) -> P x) -> parse_each parse l = Ok xs -> Forall P xs.
Proof.
  intros Hp. revert xs. induction l as [|j l IH]; intros xs; cbn [parse_each]; [by intros <-%(inj Ok)|].
  destruct (parse j) as [[x|]|] eqn:E; [| |done]; cbn [mbind result_bind]; (destruct (parse_each parse l) as [ys|]; [|done]);
    cbn [mbind result_bind]; intros <-%(inj Ok); [constructor; [by eapply Hp|]|]; by apply IH.
Qed.

Lemma attributed_resolves resolve_ entry cid coin side : attributed resolve_ entry = Ok (Some (cid, coin, side)) ->
  exists cloid, resolve_ cloid = Ok (Some cid).
Proof.
  unfold attributed. destruct (get_ "cloid" entry) as [cloid|]; [|done]. cbn [mbind result_bind]. destruct (negb (truthy cloid)); [done|].
  destruct (resolve_ cloid) as [[id|]|] eqn:E; [|done|done]. cbn [mbind result_bind]. destruct (get_ "coin" entry) as [c|]; [|done].
  cbn [mbind result_bind]. destruct (get_ "side" entry) as [sd0|]; [|done]. cbn [mbind result_bind].
  destruct (lookup_in _SIDE_MAP sd0) as [[sd|]|]; [|done|done]. cbn [mbind result_bind]. destruct (truthy c); [|done].
  intros [= <- <- <-]. by exists cloid.
Qed.

(** Skips the fields a parser reads. *)
Ltac fields := repeat match goal with
  | |- context [mbind _ ?m] => destruct m as [?|?]; [|done]; cbn [mbind result_bind]
  end.

Lemma open_order_owner resolve_ entry o : parse_open_order hv_repr resolve_ entry = Ok (Some o) ->
  exists cloid, resolve_ cloid = Ok (Some (o_client_order_id o)).
Proof.
  unfold parse_open_order. destruct (attributed resolve_ entry) as [[[[cid coin] side]|]|] eqn:E; [|done|done].
  apply attributed_resolves in E as [cloid E]. cbn [mbind result_bind]. destruct (sizes entry) as [[q f]|]; [|done]. cbn [mbind result_bind].
  fields. intros [= <-]. by exists cloid.
Qed.

Lemma user_fill_owner resolve_ entry f : parse_user_fill hv_repr resolve_ entry = Ok (Some f) ->
  exists cloid, resolve_ cloid = Ok (Some (fl_client_order_id f)).
Proof.
  unfold parse_user_fill. destruct (attributed resolve_ entry) as [[[[cid coin] side]|]|] eqn:E; [|done|done].
  apply attributed_resolves in E as [cloid E]. cbn [mbind result_bind]. destruct (get_ "oid" entry) as [oid|]; [|done]. cbn [mbind result_bind].
  destruct oid; try done; fields; intros [= <-]; by exists cloid.
Qed.

Lemma order_status_owner resolve_ body assume o : parse_order_status hv_repr resolve_ body assume = Ok (Some o) ->
  match assume with Some cid => o_client_order_id o = cid | None => exists cloid, resolve_ cloid = Ok (Some (o_client_order_id o)) end.
Proof.
  unfold parse_order_status. destruct (get_ "status" body) as [status|]; [|done]. cbn [mbind result_bind]. destruct (negb _); [done|].
  destruct (get_or _ "order" body) as [wrapper|]; [|done]. cbn [mbind result_bind].
  destruct (get_ "status" wrapper) as [vs|]; [|done]. cbn [mbind result_bind].
  destruct (get_or _ "order" wrapper) as [obj|]; [|done]. cbn [mbind result_bind].
  destruct (get_ "coin" obj) as [coin|]; [|done]. cbn [mbind result_bind].
  destruct (get_ "side" obj) as [sd|]; [|done]. cbn [mbind result_bind]. destruct (lookup_in _SIDE_MAP sd) as [[side|]|]; [| |done];
    cbn [mbind result_bind]; (destruct (get_ "oid" obj) as [oid|]; [|done]); cbn [mbind result_bind]; [|done].
  set (rest := if negb (truthy coin) then _ else _). intros E.
  assert (Hrest : rest = Ok (Some o)) by (by destruct oid). clear E. revert Hrest. unfold rest. destruct (negb (truthy coin)); [done|].
  destruct assume as [cid|].
  - cbn [mbind result_bind of_option]. destruct (sizes obj) as [[q f]|]; [|done]. cbn [mbind result_bind]. fields. by intros [= <-].
  - destruct (get_ "cloid" obj) as [cloid|]; [|done]. cbn [mbind result_bind]. destruct (truthy cloid); [|done].
    destruct (resolve_ cloid) as [[id|]|] eqn:E; [|done|done]. cbn [mbind result_bind of_option].
    destruct (sizes obj) as [[q f]|]; [|done]. cbn [mbind result_bind]. fields. intros [= <-]. by exists cloid.
Qed.

(** A call that ran a read and gave what it parsed. *)
Lemma info_reads {A} ty fields (s : S) (f : json -> result A) s' a : (body ← _info ty fields; lift (f body)) s = (s', Ok a) ->
  exists body, hv_network (hl_sent s') = Ok body /\ f body = Ok a /\ s' = (_info ty fields s).1.
Proof.
  rewrite run_bind. unfold _info, post. destruct (hv_network _) as [body|e] eqn:E; [|done]. unfold lift. intros [= <- Ef].
  by exists body.
Qed.

Lemma connected_seq {A} (f : unit -> M S A) (s s' : S) a : (_require_connected ≫= f) s = (s', Ok a) -> f tt s = (s', Ok a).
Proof. rewrite run_bind. unfold _require_connected, require. by destruct (hl_connected s). Qed.

Lemma orders_owned account s s' os : hl_inv account s -> get_orders s = (s', Ok os) ->
  Forall (fun o => engine_owned account s (o_client_order_id o)) os.
Proof.
  intros Hi E%connected_seq. rewrite run_get in E. apply info_reads in E as (body & _ & Ep & _).
  unfold parse_open_orders in Ep. destruct (iterate body) as [l|]; [|done]. cbn [mbind result_bind] in Ep.
  eapply parse_each_Forall; [|exact Ep]. intros j o [cloid Hc]%open_order_owner. by eapply resolved_owned.
Qed.

Lemma status_owned account s id s' o : hl_inv account s -> get_order_status id s = (s', Ok o) -> engine_owned account s (o_client_order_id o).
Proof.
  intros Hi E%connected_seq. rewrite run_lift in E. destruct (match int_of_text id with Ok n => Ok n | Err _ => _ end) as [oid|]; [|done].
  rewrite run_get run_bind in E. destruct (_info _ _ s) as [s1 [body|]]; [|done]. rewrite run_lift in E.
  destruct (parse_order_status _ _ body None) as [[o'|]|] eqn:Ep; [|done|done]. cbn in E. injection E as <- <-.
  apply order_status_owner in Ep as [cloid Hc]. by eapply resolved_owned.
Qed.

(** C19: safety. Attribution: every open order, order status and fill the
    adapter reports is labelled with an order the engine recorded in the log
    under its account, whatever the venue answers (other accounts' and foreign
    orders, missing or odd tokens); and [find_order] reports an order only
    under the id it was asked for. *)
Theorem reports_only_its_own account s : hl_inv account s ->
  (forall s' os, get_orders s = (s', Ok os) -> Forall (fun o => engine_owned account s (o_client_order_id o)) os) /\
  (forall since s' fs, get_fills since s = (s', Ok fs) -> Forall (fun f => engine_owned account s (fl_client_order_id f)) fs) /\
  (forall id s' o, get_order_status id s = (s', Ok o) -> engine_owned account s (o_client_order_id o)) /\
  (forall r s' o, find_order r s = (s', Ok (Some o)) -> o_client_order_id o = or_client_order_id r /\ hl_log s' = hl_log s).
Proof.
  intros Hi. split_and!.
  - intros s' os. by apply orders_owned.
  - intros since s' fs E%connected_seq. rewrite run_get run_bind in E. destruct (_info _ _ s) as [s1 [body|]]; [|done]. rewrite run_lift in E.
    destruct (parse_user_fills _ _ body) as [all|] eqn:Ep; [|done].
    assert (Hall : Forall (fun f => engine_owned account s (fl_client_order_id f)) all).
    { unfold parse_user_fills in Ep. destruct (iterate body) as [l|]; [|done]. cbn [mbind result_bind] in Ep.
      eapply parse_each_Forall; [|exact Ep]. intros j f [cloid Hc]%user_fill_owner. by eapply resolved_owned. }
    injection E as <- <-. destruct since as [t|]; [|done]. rewrite Forall_forall in Hall. apply Forall_forall.
    intros f [Hf _]%list_elem_of_In%List.filter_In. by apply Hall, list_elem_of_In.
  - intros id s' o. by apply status_owned.
  - intros r s' o E%connected_seq. rewrite run_get in E. apply info_reads in E as (body & _ & Ep & ->).
    split; [by apply order_status_owner in Ep|done].
Qed.

(** *** Entries of the venue's answer *)

Lemma attributed_entry resolve_ entry cid coin side : attributed resolve_ entry = Ok (Some (cid, coin, side)) ->
  exists cloid, jget "cloid" entry = Some cloid /\ resolve_ cloid = Ok (Some cid) /\ jget "coin" entry = Some coin.
Proof.
  unfold attributed. destruct (get_ "cloid" entry) as [cloid|] eqn:El; [|done]. cbn [mbind result_bind]. destruct (truthy cloid) eqn:Et; cbn [negb]; [|done].
  destruct (resolve_ cloid) as [[id|]|] eqn:E; [|done|done]. cbn [mbind result_bind]. destruct (get_ "coin" entry) as [c|] eqn:Ec; [|done].
  cbn [mbind result_bind]. destruct (get_ "side" entry) as [sd0|]; [|done]. cbn [mbind result_bind].
  destruct (lookup_in _SIDE_MAP sd0) as [[sd|]|]; [|done|done]. cbn [mbind result_bind]. destruct (truthy c) eqn:Etc; [|done].
  intros [= <- <- <-]. exists cloid. split_and!; [apply get_jget; [done|by intros ->]|done|apply get_jget; [done|by intros ->]].
Qed.

Lemma parse_each_In {A} (parse : json -> result (option A)) l xs : parse_each parse l = Ok xs ->
  Forall (fun x => exists j, j ∈ l /\ parse j = Ok (Some x)) xs.
Proof.
  revert xs. induction l as [|j l IH]; intros xs; cbn [parse_each]; [by intros <-%(inj Ok)|].
  destruct (parse j) as [o|] eqn:E; [|done]. cbn [mbind result_bind]. destruct (parse_each parse l) as [ys|]; [|by destruct o].
  assert (Hys : Forall (fun x => exists j', j' ∈ j :: l /\ parse j' = Ok (Some x)) ys).
  { eapply Forall_impl; [by apply IH|]. intros x (j' & Hj & Hp). exists j'. split; [by right|done]. }
  destruct o as [x|]; cbn [mbind result_bind]; intros <-%(inj Ok); [|done]. constructor; [|done]. exists j. split; [by left|done].
Qed.

(** An order the answer lists: the entry with the token of its engine id, its
    symbol and the venue's id. *)
Definition listed_open (opens : json) (o : Order) : Prop :=
  exists entries entry, opens = JList entries /\ entry ∈ entries /\
    jget "cloid" entry = Some (JStr (mint_venue_token (o_client_order_id o))) /\ jget "coin" entry = Some (JStr (sym_value (o_symbol o))) /\
    forall id, o_exchange_order_id o = Some id -> exists oid, jget "oid" entry = Some oid /\ oid <> JNull /\ id = text_of hv_repr oid.

Lemma open_order_entry resolve_ entry o : parse_open_order hv_repr resolve_ entry = Ok (Some o) ->
  exists cloid, jget "cloid" entry = Some cloid /\ resolve_ cloid = Ok (Some (o_client_order_id o)) /\
    jget "coin" entry = Some (JStr (sym_value (o_symbol o))) /\
    forall id, o_exchange_order_id o = Some id -> exists oid, jget "oid" entry = Some oid /\ oid <> JNull /\ id = text_of hv_repr oid.
Proof.
  unfold parse_open_order. destruct (attributed resolve_ entry) as [[[[cid coin] side]|]|] eqn:E; [|done|done].
  apply attributed_entry in E as (cloid & H1 & H2 & H3). cbn [mbind result_bind]. destruct (sizes entry) as [[q f]|]; [|done]. cbn [mbind result_bind].
  destruct (_ ≫= _iso) as [t|]; [|done]. cbn [mbind result_bind]. destruct (get_ "oid" entry) as [oid|] eqn:Eo; [|done]. cbn [mbind result_bind].
  destruct (symbol_of coin) as [symbol|] eqn:Es; [|done]. cbn [mbind result_bind]. fields. intros [= <-]. exists cloid. cbn [o_client_order_id o_symbol o_exchange_order_id].
  split_and!; [done..| |].
  - rewrite H3. f_equal. unfold symbol_of in Es. destruct coin; try done. unfold mk_Symbol in Es. case_match; [done|]. by injection Es as <-.
  - intros id Hid. destruct oid; try done; injection Hid as <-; (eexists; split_and!; [by apply get_jget|done|done]).
Qed.

(** ** Cancelling all orders *)

(** The orders at whose places the statuses have the success marker. *)
Fixpoint confirmed_by (statuses : list json) (orders : list Order) : list Order :=
  match orders, statuses with
  | o :: orders, JStr status :: statuses => if String.eqb status "success" then o :: confirmed_by statuses orders else confirmed_by statuses orders
  | _ :: orders, _ :: statuses => confirmed_by statuses orders
  | _, _ => []
  end.

Definition cancelled_as (o o' : Order) : Prop := exists t, o' = _as_cancelled o t.

Lemma confirmed_past (statuses : json) orders : forall i n (s s' : S) os, len_of statuses = Ok n -> (n <= i)%nat ->
  confirmed i statuses orders s = (s', Ok os) -> os = [].
Proof.
  induction orders as [|o orders IH]; intros i n s s' os Hn Hi E; cbn [confirmed] in E; [by injection E as _ <-|].
  rewrite run_lift Hn in E. destruct (Nat.ltb_spec i n); [lia|]. rewrite run_bind in E. cbn in E. eapply (IH (Datatypes.S i) n); [done|lia|exact E].
Qed.

Lemma char_status t : forall i j, chars t !! i = Some j -> is_text "success" (Some j) = false.
Proof. induction t as [|c t IH]; intros i j; [done|]. destruct i as [|i]; cbn; [intros [= <-]; by destruct c as [[] [] [] [] [] [] [] []]|apply IH]. Qed.

Lemma confirmed_text t orders : forall i (s s' : S) os, confirmed i (JStr t) orders s = (s', Ok os) -> os = [].
Proof.
  induction orders as [|o orders IH]; intros i s s' os E; cbn [confirmed] in E; [by injection E as _ <-|].
  rewrite run_lift in E. cbn [len_of] in E. destruct (i <? String.length t)%nat; [|rewrite run_bind in E; cbn in E; by eapply IH].
  rewrite run_bind run_lift in E. cbn [item_at] in E. destruct (chars t !! i) as [j|] eqn:Ej; [|done]. cbn in E.
  change (match j with JStr u => String.eqb u "success" | _ => false end) with (is_text "success" (Some j)) in E.
  rewrite (char_status t i j Ej) in E. by eapply IH.
Qed.

Lemma confirmed_list l orders : forall i (s s' : S) os, confirmed i (JList l) orders s = (s', Ok os) ->
  Forall2 cancelled_as (confirmed_by (drop i l) orders) os.
Proof.
  induction orders as [|o orders IH]; intros i s s' os E; [cbn in E; injection E as _ <-; by destruct (drop i l)|].
  destruct (decide (i < length l)%nat) as [Hi|Hi].
  2: { rewrite drop_ge; [lia|]. rewrite (confirmed_past (JList l) (o :: orders) i (length l) s s' os eq_refl ltac:(lia) E). constructor. }
  cbn [confirmed] in E. rewrite run_lift in E. cbn [len_of] in E. rewrite (proj2 (Nat.ltb_lt _ _) Hi) in E. rewrite run_bind run_lift in E. cbn [item_at] in E.
  destruct (lookup_lt_is_Some_2 l i Hi) as [j Ej]. rewrite Ej in E. cbn in E. rewrite (drop_S _ _ _ Ej). cbn [confirmed_by].
  destruct j as [| | |t| |]; try (by eapply IH). destruct (String.eqb t "success"); [|by eapply IH].
  rewrite run_bind in E. destruct (now s) as [s1 [t'|]]; [|done]. apply bind_ok in E as (s2 & rest & Er & E). injection E as _ <-.
  constructor; [by exists t'|by eapply IH].
Qed.

Lemma confirmed_outcome body statuses orders (s s' : S) os : _statuses body = Ok statuses -> confirmed 0 statuses orders s = (s', Ok os) ->
  Forall2 cancelled_as (confirmed_by (statuses_of body) orders) os.
Proof.
  intros ->%statuses_list E. assert (Hnil : os = [] -> Forall2 cancelled_as (confirmed_by [] orders) os).
  { intros ->. destruct orders; constructor. }
  destruct statuses as [| | |t|l|d]; try (destruct orders; [cbn in E; injection E as _ <-; constructor|done]).
  - apply Hnil. by eapply confirmed_text.
  - by eapply (confirmed_list l orders 0).
  - apply Hnil. destruct orders as [|o orders]; [by cbn in E; injection E as _ <-|]. destruct d as [|p d].
    + by eapply (confirmed_past (JObj []) (o :: orders) 0 0).
    + cbn [confirmed] in E. rewrite run_lift in E. cbn in E. done.
Qed.

(** The pairs of a cancel action: the venue's index of each order's symbol, and its id. *)
Definition cancel_of (s : S) (o : Order) (c : Z * Z) : Prop :=
  venue_lists s (sym_value (o_symbol o)) c.1 /\ exists id, o_exchange_order_id o = Some id /\ int_of_text id = Ok c.2.

Lemma cancels_of_read orders : a_read (cancels_of orders).
Proof. intros ? ? ? ? ?. by apply cancels_of_keeps. Qed.

Lemma cancels_of_listed orders : forall (s s' : S) cs, cache_listed s -> Forall (fun o => has_oid o = true) orders ->
  cancels_of orders s = (s', Ok cs) -> Forall2 (cancel_of s') orders cs.
Proof.
  induction orders as [|o orders IH]; intros s s' cs Hc Ho E; cbn [cancels_of] in E; [injection E as _ <-; constructor|].
  apply Forall_cons in Ho as [Hid Ho]. apply bind_ok in E as (s1 & asset & Ea & E). rewrite run_lift in E.
  destruct (int_of_text _) as [oid|] eqn:Eo; [|done]. apply bind_ok in E as (s2 & rest & Er & E). injection E as <- <-.
  pose proof (reads_cache _ (asset_index_read (o_symbol o)) s Hc) as Hc1. rewrite Ea in Hc1. cbn [fst] in Hc1.
  pose proof (read_grows _ s1 (cancels_of_read orders)) as [Hu Hp]. rewrite Er in Hu, Hp. cbn [fst] in Hu, Hp.
  constructor; [|by eapply IH]. split; [apply (listed_mono s1); [done|done|exact (asset_index_listed _ _ _ _ Hc Ea)]|].
  unfold has_oid in Hid. destruct (o_exchange_order_id o) as [id|]; [|done]. by exists id.
Qed.

(** The action that cancels, as the venue documents it. *)
Definition cancel_action (cancels : list (Z * Z)) : json :=
  JObj [("type", JStr "cancel"); ("cancels", JList (map (fun c => JObj [("a", JInt c.1); ("o", JInt c.2)]) cancels))].

Lemma get_orders_answer account s s' os : hl_inv account s -> get_orders s = (s', Ok os) ->
  exists opens, let asked := hl_sent s ++ [(hl_base_url s +:+ INFO_PATH, JObj [("type", JStr "frontendOpenOrders"); ("user", JStr account)])] in
    hl_sent s' = asked /\ hv_network asked = Ok opens /\ parse_open_orders hv_repr (resolver s) opens = Ok os /\ Forall (listed_open opens) os.
Proof.
  intros Hi E%connected_seq. rewrite run_get in E. pose proof (hi_map _ _ Hi) as [Hl (cids & Hm & Em)]. cbn [fst snd] in Em.
  unfold user_field in E. rewrite Em in E. cbn [om_account mapping_of] in E.
  apply info_reads in E as (opens & Hn & Ep & ->). exists opens. split; [done|]. split; [exact Hn|]. split; [done|].
  unfold parse_open_orders in Ep. destruct (iterate opens) as [l|] eqn:El; [|done]. cbn [mbind result_bind] in Ep.
  apply parse_each_In in Ep. eapply Forall_impl; [exact Ep|]. intros o (entry & Hin & (cloid & H1 & H2 & H3 & H4)%open_order_entry).
  assert (opens = JList l) as ->.
  { destruct opens as [| | |t|l'|d]; try done; cbn in El; injection El as <-; [|done|].
    - exfalso. apply list_elem_of_lookup_1 in Hin as [i Hin]. clear -Hin H1. revert i Hin. induction t as [|c t IH]; intros i; [done|].
      destruct i; cbn; [by intros [= <-]|apply IH].
    - exfalso. apply list_elem_of_fmap in Hin as (k & -> & _). done. }
  exists l, entry. split_and!; [done..| |done|done]. rewrite H1. f_equal.
  unfold resolver, resolve, lookup_in in H2. rewrite Em in H2. destruct (hashable cloid); [|done]. destruct cloid as [| | |token| |]; try done.
  injection H2 as H2. apply (resolve_from cids account) in H2 as [_ ->]. done.
Qed.

(** C16: safety. In any state a run reaches, [cancel_all] asks the venue for the
    account's open orders and then acts on exactly those of the answer that are
    the engine's (labelled by their tokens, recorded in the log), have an id and
    are of the symbol asked for. With none it sends nothing to the exchange. Else
    it sends one request that names the venue's index and id of each, and
    reports as cancelled exactly the orders for which the venue's answer to that
    request, which it must accept, has the success marker at the order's place:
    a missing, malformed or error status is no confirmation, so no order the
    venue may still hold is reported cancelled. *)
Theorem cancel_all_reports_confirmed account request s s' os : hl_reach account s -> hl_cancel_all request s = (s', Ok os) ->
  exists opens all,
    let asked := hl_sent s ++ [(hl_base_url s +:+ INFO_PATH, JObj [("type", JStr "frontendOpenOrders"); ("user", JStr account)])] in
    asked `prefix_of` hl_sent s' /\ hv_network asked = Ok opens /\
    parse_open_orders hv_repr (resolver s) opens = Ok all /\
    let orders := List.filter has_oid (List.filter (of_symbol request) all) in
    Forall (fun o => engine_owned account s (o_client_order_id o) /\ listed_open opens o) orders /\
    (orders = [] /\ exchange_sent s' = exchange_sent s /\ os = [] \/
     orders <> [] /\ exists cancels nonce signature answer,
       let body := exchange_body (cancel_action cancels) nonce signature in
       Forall2 (cancel_of s') orders cancels /\ one_more s body s' /\ last_sent s' body /\
       hv_network (hl_sent s') = Ok answer /\ accepted answer /\
       Forall2 cancelled_as (confirmed_by (statuses_of answer) orders) os).
Proof.
  intros [Hi Hc]%hl_reach_inv E%connected_seq. unfold _require_signer, _authorization_gate in E. rewrite run_bind in E. destruct (require _ _); [|done].
  rewrite run_bind in E. destruct (SecretsBoundary.sign _ _ _ _); [|done]. cbn [mbind result_bind] in E.
  apply bind_ok in E as (s1 & all & Eo & E). pose proof (orders_owned account s s1 all Hi Eo) as Hown.
  destruct (get_orders_answer account s s1 all Hi Eo) as (opens & Hsent & Hnet & Hparse & Hlisted).
  assert (Hread : a_read get_orders) by (intros ? ? ? ? ?; by apply get_orders_keeps).
  pose proof (read_quiet _ s Hread) as Hq1. pose proof (reads_cache _ Hread s Hc) as Hc1. rewrite Eo in Hq1, Hc1. cbn [fst] in Hq1, Hc1.
  exists opens, all. cbv zeta. rewrite -Hsent. cbv zeta in E.
  remember (List.filter has_oid (List.filter (of_symbol request) all)) as orders eqn:Ef.
  assert (Hsub : Forall (fun o => has_oid o = true /\ engine_owned account s (o_client_order_id o) /\ listed_open opens o) orders).
  { rewrite Ef. apply Forall_forall. intros o [[Ho _]%List.filter_In Hid]%list_elem_of_In%List.filter_In. apply list_elem_of_In in Ho.
    split; [done|]. split; [by apply (proj1 (Forall_forall _ _) Hown)|by apply (proj1 (Forall_forall _ _) Hlisted)]. }
  apply Forall_and in Hsub as [Hids Hsub].
  destruct orders as [|o orders].
  { injection E as <- <-. split; [done|]. split; [by rewrite Hsent|]. split; [done|]. split; [done|]. left. split; [done|]. split; [apply Hq1|done]. }
  apply bind_ok in E as (s2 & cancels & Ec & E). pose proof (cancels_of_read (o :: orders)) as Hread2.
  pose proof (read_quiet _ s1 Hread2) as Hq2. pose proof (read_grows _ s1 Hread2) as Hg2. rewrite Ec in Hq2, Hg2. cbn [fst] in Hq2, Hg2.
  apply cancels_of_listed in Ec; [|done|done]. rewrite run_bind in E. change (build_cancel_action cancels) with (cancel_action cancels) in E.
  pose proof (sign_and_post_sends (cancel_action cancels) s2) as Hsend.
  destruct (_sign_and_post (cancel_action cancels) s2) as [s3 [body|e]]; [|done].
  destruct Hsend as (_ & Hg3 & [[_ Hr]|(nonce & sg & _ & H1 & Hlast & Hres)]); [done|].
  rewrite run_lift in E. destruct (_check_ok body) as [[]|] eqn:Eok; [|done]. apply check_ok_accepted in Eok.
  rewrite run_lift in E. destruct (_statuses body) as [statuses|] eqn:Est; [|done].
  pose proof (confirmed_keeps (settled s3) (settled_clock s3) 0 statuses (o :: orders) s3 (settled_refl s3)) as Hst. rewrite E in Hst. cbn [fst] in Hst.
  pose proof Hst as (E1 & E2 & _ & _). destruct Hq1 as (A1 & A2 & _), Hq2 as (B1 & B2 & _), Hg2 as [_ G2], Hg3 as [Hu3 G3].
  split; [etrans; [exact G2|]; by rewrite E1|]. split; [by rewrite Hsent|]. split; [done|]. split; [done|]. right. split; [done|].
  exists cancels, nonce, sg, body. split; [|split; [|split; [|split; [|split]]]].
  - eapply Forall2_impl; [exact Ec|]. intros o' c [Hv Hid]. split; [|done]. apply (listed_mono s2); [by rewrite E2|by rewrite E1|done].
  - eapply settled_one_more; [|done]. unfold one_more in *. by rewrite H1 B1 A1 B2 A2.
  - unfold last_sent in *. by rewrite E1 E2.
  - by rewrite E1 -Hres.
  - done.
  - by eapply confirmed_outcome.
Qed.
End adapter.
