(* ===== verification/HyperliquidRuns.v ===== *)
(** * Sample runs of the Hyperliquid adapter

    A small venue and an adapter over an empty log: orders placed with a clock
    that goes back, a cancel of all with a mixed answer, revocation; the theorems
    of the adapter applied to them. *)

From Stdlib Require Import ssreflect ZArith Lia Ascii String QArith Sorting.Sorted.
From stdpp Require Import base strings numbers gmap sets list relations.
From S2P Require Import Prelude PyText PyDict PyBytes PyJson PyJsonFacts PyDecimal EventCodec EventStore EventStoreFacts EventLog ExchangeModels ExchangeAdapter.
From S2P Require SecretsBoundary SecretsBoundaryFacts.
From S2P Require Import HyperliquidCodec HyperliquidWire HyperliquidMapping Hyperliquid HyperliquidSpec HyperliquidOrders.
#[local] Open Scope Z_scope.

(** ** A venue *)

Definition obj (fields : list (string * json)) : json := JObj fields.
Definition open_order (cloid : json) (oid : Z) : json :=
  obj [("coin", JStr "BTC"); ("side", JStr "B"); ("sz", JStr "0.4"); ("origSz", JStr "1.0"); ("limitPx", JStr "50000");
       ("oid", JInt oid); ("cloid", cloid); ("timestamp", JInt 1700000000123); ("reduceOnly", JBool false)].
Definition ok_statuses (statuses : list json) : json :=
  obj [("status", JStr "ok"); ("response", obj [("type", JStr "x"); ("data", obj [("statuses", JList statuses)])])].

(** Its answer to a request, by the type of the request or of its action. *)
Definition answer (body : json) : result json :=
  match jstr "type" body, jstr "type" (default JNull (jget "action" body)) with
  | Some "allMids", _ => Ok (obj [("BTC", JStr "50000.5")])
  | Some "meta", _ => Ok (obj [("universe", JList [obj [("name", JStr "ETH")]; obj [("name", JStr "BTC")]])])
  | Some "frontendOpenOrders", _ =>
      Ok (JList [open_order (JStr (mint_venue_token "t-1")) 71; open_order JNull 72; open_order (JStr "0xffff") 73;
                 open_order (JStr (mint_venue_token "t-2")) 74])
  | Some "orderStatus", _ =>
      Ok (obj [("status", JStr "order"); ("order", obj [("status", JStr "open"); ("order", open_order (JStr (mint_venue_token "t-1")) 71)])])
  | _, Some "order" => Ok (ok_statuses [obj [("resting", obj [("oid", JInt 71)])]])
  | _, Some "cancel" => Ok (ok_statuses [obj [("error", JStr "Order was never placed")]; JStr "success"])
  | _, Some "modify" => Ok (ok_statuses [])
  | _, _ => Err ExchangeTimeoutError
  end.

#[local] Instance sample_venue : HyperliquidVenue := {
  hv_network sent := match last sent with Some q => answer q.2 | None => Err ExchangeConnectionError end;
  hv_packb j := Ok (encode (dumps j));
  hv_keccak := sha256;
  hv_sign_message _ _ _ := (1, 2, 27);
  hv_repr := dumps
}.

Definition sample_signing : SecretsBoundary.SigningBoundary := SecretsBoundaryFacts.sample_boundary.
Definition sample_wallet : HyperliquidWalletSigner := {| ws_source := "a"; ws_address := "0xa11ce"; ws_revoked := false |}.
Definition sample_init : result (Hyperliquid MemLog) :=
  hyperliquid_init sample_signing "hl_v1" "0xabc" "https://api.hyperliquid.xyz/" (10 # 1) true mem_empty (Some sample_wallet)
    ["2026-01-01T00:00:00+00:00"; "2026-01-01T00:00:01+00:00"; "2026-01-01T00:00:02+00:00"; "2026-01-01T00:00:03+00:00"; "2026-01-01T00:00:04+00:00"]
    [1700000000000; 1699999999000; 1699999999000].
Definition the {A} (d : A) (r : result A) : A := match r with Ok a => a | Err _ => d end.
Definition blank_adapter : Hyperliquid MemLog :=
  {| hl_signing_key_ref := ""; hl_base_url := ""; hl_log := mem_empty; hl_mapping := empty_mapping "" false; hl_signing := sample_signing;
     hl_wallet_signer := None; hl_connected := false; hl_last_checked_at := None; hl_nonce := 0; hl_asset_index_cache := None;
     hl_sent := []; hl_clock := []; hl_clock_ms := [] |}.
Definition s0 : Hyperliquid MemLog := the blank_adapter sample_init.

Definition order (cid : string) : OrderRequest :=
  {| or_client_order_id := cid; or_symbol := {| sym_value := "BTC" |}; or_side := OrderSide.BUY; or_order_type := OrderType.LIMIT;
     or_quantity := Dec 10 (-1); or_limit_price := Some (Dec 5 4); or_time_in_force := TimeInForce.POST_ONLY; or_reduce_only := false |}.

Definition s1 := run_op OpConnect s0.
Definition s2 := run_op (OpPlace (order "t-1")) s1.
Definition s3 := run_op (OpPlace (order "t-2")) s2.

(** Two orders sent, each under its token, though the clock went back. *)
Example two_orders :
  (nonces (exchange_sent s3), map (fun q => cloids q.2) (exchange_sent s3), mapping_len (hl_mapping s3), length (log_events (hl_log s3)), length (hl_sent s3))
  = ([1700000000000; 1700000000001], [[mint_venue_token "t-1"]; [mint_venue_token "t-2"]], 2%nat, 2%nat, 4%nat).
Proof. vm_compute. reflexivity. Qed.

Definition cancel_request : CancelAllRequest := {| ca_request_id := "c-1"; ca_symbol := None |}.

(** The error at the first place and the success at the second: one order is
    reported; the foreign orders were not asked for. *)
Example cancel_all_mixed :
  match hl_cancel_all cancel_request s3 with
  | (s4, Ok os) => (map (fun o => (o_client_order_id o, o_exchange_order_id o, enum_value (o_status o))) os, length (exchange_sent s4))
  | _ => ([], 0%nat)
  end = ([("t-2", Some "74", "CANCELLED")], 3%nat).
Proof. vm_compute. reflexivity. Qed.

(** A wallet revoked in between: the order is mapped, and not sent. *)
Example revoked_wallet :
  let s := with_signers (hl_signing s2) (revoke <$> hl_wallet_signer s2) s2 in
  let s' := run_op (OpPlace (order "t-2")) s in
  (mapping_len (hl_mapping s'), length (exchange_sent s')) = (2%nat, 1%nat).
Proof. vm_compute. reflexivity. Qed.

(** ** The theorems on these runs *)

Lemma empty_account_log account : account_log account mem_empty.
Proof. split; [exact mem_empty_ok|]. exists []. by apply mapped_none. Qed.

Lemma sample_init_ok : hyperliquid_init sample_signing "hl_v1" "0xabc" "https://api.hyperliquid.xyz/" (10 # 1) true mem_empty (Some sample_wallet)
    ["2026-01-01T00:00:00+00:00"; "2026-01-01T00:00:01+00:00"; "2026-01-01T00:00:02+00:00"; "2026-01-01T00:00:03+00:00"; "2026-01-01T00:00:04+00:00"]
    [1700000000000; 1699999999000; 1699999999000] = Ok s0.
Proof. vm_compute. reflexivity. Qed.

Lemma sample_run : rtc (hl_step "0xabc") s0 s3.
Proof.
  eapply rtc_l; [exact (hs_op "0xabc" s0 OpConnect I)|]. eapply rtc_l; [exact (hs_op "0xabc" s1 (OpPlace (order "t-1")) eq_refl)|].
  eapply rtc_once. exact (hs_op "0xabc" s2 (OpPlace (order "t-2")) eq_refl).
Qed.

Lemma sample_inv : hl_inv "0xabc" s3.
Proof. eapply run_inv; [eapply init_inv; [apply empty_account_log|exact sample_init_ok]|exact sample_run]. Qed.

Lemma sent_orders_are_recorded_witness : StronglySorted Z.lt (nonces (exchange_sent s3)) /\ exists q cloid, q ∈ exchange_sent s3 /\ cloid ∈ cloids q.2 /\ exists cid e,
    cloid = mint_venue_token cid /\ e ∈ log_events (hl_log s3) /\ _is_own "0xabc" e = true /\ event_for "0xabc" e cid /\
    resolve (hl_mapping s3) (JStr cloid) = Ok (Some cid).
Proof.
  assert (Hq : exists q cloid, q ∈ exchange_sent s3 /\ cloid ∈ cloids q.2).
  { assert (Hc : map (fun q => cloids q.2) (exchange_sent s3) = [[mint_venue_token "t-1"]; [mint_venue_token "t-2"]]) by (vm_compute; reflexivity).
    destruct (exchange_sent s3) as [|q qs]; [discriminate Hc|]. exists q, (mint_venue_token "t-1"). split; [left|].
    apply (f_equal (fun l => match l with x :: _ => x | [] => [] end)) in Hc. cbn [map] in Hc. rewrite Hc. left. }
  destruct (sent_orders_are_recorded _ _ _ _ _ _ _ _ _ _ _ (empty_account_log "0xabc") sample_init_ok sample_run) as [Hn Hs].
  split; [exact Hn|]. destruct Hq as (q & cloid & Hq & Hc). exists q, cloid. split; [exact Hq|]. split; [exact Hc|]. exact (Hs q cloid Hq Hc).
Defined.

(** The signing reference revoked after the first order. *)
Definition s2k := with_signers (SecretsBoundary.revoke "hl_v1" (hl_signing s2)).1 (hl_wallet_signer s2) s2.
Lemma revoked_sends_nothing_witness :
  exchange_sent (run_op (OpPlace (order "t-2")) s2k) = exchange_sent s2k /\
  (key_revoked (run_op (OpPlace (order "t-2")) s2k) \/ no_wallet (run_op (OpPlace (order "t-2")) s2k)).
Proof.
  apply (revoked_sends_nothing "0xabc").
  - left. unfold key_revoked. vm_compute. reflexivity.
  - apply rtc_once. exact (hs_op "0xabc" s2k (OpPlace (order "t-2")) eq_refl).
Defined.

Lemma sample_reach : hl_reach "0xabc" s3.
Proof.
  eexists _, _, _, _, _, _, _, _, s0. split; [apply empty_account_log|]. split; [exact sample_init_ok|exact sample_run].
Qed.

(** A third order, resting at the venue. *)
Lemma place_sends_witness : exists s' o, hl_place_order (order "t-3") s3 = (s', Ok o) /\ placement (order "t-3") s3 (Ok o) s' /\
  o_exchange_order_id o = Some "71" /\ o_status o = OrderStatus.ACKNOWLEDGED.
Proof.
  assert (Hok : match (hl_place_order (order "t-3") s3).2 with
                | Ok o => o_exchange_order_id o = Some "71" /\ o_status o = OrderStatus.ACKNOWLEDGED | Err _ => False end) by (vm_compute; split; reflexivity).
  pose proof (place_sends "0xabc" (order "t-3") s3 sample_reach eq_refl) as H.
  destruct (hl_place_order (order "t-3") s3) as [s' [o|e]]; [|destruct Hok]. exists s', o. split; [reflexivity|split; [exact H|exact Hok]].
Defined.

Lemma reports_only_its_own_witness :
  (forall s' os, get_orders s3 = (s', Ok os) -> Forall (fun o => engine_owned "0xabc" s3 (o_client_order_id o)) os) /\
  (forall since s' fs, get_fills since s3 = (s', Ok fs) -> Forall (fun f => engine_owned "0xabc" s3 (fl_client_order_id f)) fs) /\
  (forall id s' o, get_order_status id s3 = (s', Ok o) -> engine_owned "0xabc" s3 (o_client_order_id o)) /\
  (forall r s' o, find_order r s3 = (s', Ok (Some o)) -> o_client_order_id o = or_client_order_id r /\ hl_log s' = hl_log s3).
Proof. exact (reports_only_its_own "0xabc" s3 sample_inv). Defined.

Lemma cancel_all_reports_confirmed_witness : exists s' os opens all, hl_cancel_all cancel_request s3 = (s', Ok os) /\
  map o_client_order_id os = ["t-2"] /\ parse_open_orders hv_repr (resolver s3) opens = Ok all /\
  map o_client_order_id all = ["t-1"; "t-2"] /\
  Forall (fun o => engine_owned "0xabc" s3 (o_client_order_id o) /\ listed_open opens o) (List.filter has_oid (List.filter (of_symbol cancel_request) all)).
Proof.
  assert (Hok : match (hl_cancel_all cancel_request s3).2 with Ok os => map o_client_order_id os = ["t-2"] | Err _ => False end) by (vm_compute; reflexivity).
  destruct (hl_cancel_all cancel_request s3) as [s' [os|e]] eqn:E; [|destruct Hok].
  destruct (cancel_all_reports_confirmed "0xabc" cancel_request s3 s' os sample_reach E) as (opens & all & _ & Hn & Hp & Hf & _).
  exists s', os, opens, all. split; [reflexivity|split; [exact Hok|split; [exact Hp|split; [|exact Hf]]]].
  vm_compute in Hn. injection Hn as <-. vm_compute in Hp. injection Hp as <-. vm_compute. reflexivity.
Defined.

(** Two orders recorded with another component's event in between. *)
Definition noise : list (string * json) := [("source", JStr "order_manager"); ("x", JInt 1)].
Definition m1 := (record "t-1" (mem_empty, empty_mapping "0xabc" true)).1.
Definition m2 := ((log_append EventType.HEALTH_ALERT noise (Some "order_manager:1") m1.1).1, m1.2).
Definition m3 := (record "t-2" m2).1.

Lemma mapping_is_the_log_witness :
  mapping_init "0xabc" (Some m3.1) = Ok m3.2 /\
  forall cid token,
    (resolve m3.2 (JStr token) = Ok (Some cid) <-> known_token cid m3.2 = Some token) /\
    (known_token cid m3.2 = Some token -> token = mint_venue_token cid /\
       exists e, e ∈ log_events m3.1 /\ _is_own "0xabc" e = true /\ event_for "0xabc" e cid).
Proof.
  apply (mapping_is_the_log "0xabc" mem_empty m3); [reflexivity|exact mem_empty_ok|constructor|].
  eapply rtc_l; [exact (ms_record "0xabc" (mem_empty, empty_mapping "0xabc" true) "t-1" ltac:(discriminate))|].
  eapply rtc_l; [apply (ms_foreign "0xabc" m1 EventType.HEALTH_ALERT noise "order_manager:1"); [|reflexivity]|].
  - split; [intros e He; unfold _is_own; rewrite He; reflexivity|]. intros cid. discriminate.
  - apply rtc_once. exact (ms_record "0xabc" m2 "t-2" ltac:(discriminate)).
Defined.

(** ** Where the code is less careful *)

(** An order accepted without an id is reported under the id ["None"]. *)
Example no_oid :
  match _parse_place_result (JList [obj [("resting", obj [])]]) (order "t-1") s0 with
  | (_, Ok o) => (o_exchange_order_id o, enum_value (o_status o))
  | _ => (None, "")
  end = (Some "None", "ACKNOWLEDGED").
Proof. vm_compute. reflexivity. Qed.

(** The tifs of the order wires in a request. *)
Definition tifs (body : json) : list string :=
  omap (fun w => jstr "tif" (default JNull (jget "limit" (default JNull (jget "t" w))))) (wires (default JNull (jget "action" body))).

(** An order placed post-only, once amended, is a good-till-cancelled one: what
    is read back from the venue has no other time in force. *)
Example amend_forgets_post_only :
  let s := run_op (OpAmend {| am_request_id := "a-1"; am_exchange_order_id := "71"; am_new_quantity := None; am_new_limit_price := Some (Dec 49 3) |}) s2 in
  map (fun q => tifs q.2) (exchange_sent s) = [["Alo"]; ["Gtc"]].
Proof. vm_compute. reflexivity. Qed.

(** The venue's answer to a cancel has no status at all. *)
Definition silent_venue : HyperliquidVenue := {|
  hv_network sent := match last sent with
                     | Some q => if is_text "cancel" (jget "type" (default JNull (jget "action" q.2))) then Ok (obj [("status", JStr "ok")]) else answer q.2
                     | None => Err ExchangeConnectionError
                     end;
  hv_packb j := Ok (encode (dumps j)); hv_keccak := sha256; hv_sign_message _ _ _ := (1, 2, 27); hv_repr := dumps |}.

(** [cancel_order] reports such an order cancelled, where [cancel_all] would not. *)
Example cancel_unconfirmed :
  let one := @hl_cancel_order MemLog silent_venue {| cn_request_id := "c-1"; cn_exchange_order_id := "71" |} s2 in
  let all := @hl_cancel_all MemLog silent_venue cancel_request s3 in
  (match one.2 with Ok o => [enum_value (o_status o)] | Err _ => [] end, match all.2 with Ok os => Some (length os) | Err _ => None end)
  = (["CANCELLED"], Some 0%nat).
Proof. vm_compute. reflexivity. Qed.
