(* ===== verification/Startup.v ===== *)
(** * What a process is started from (src/app/runtime/settings.py, venue_rules.py,
    engine_builder.py, and [_build_adapter] of src/composition_root/wiring.py)

    The settings read from the environment, the venue's quantization rules, the
    adapter of each environment, and the engine built from all of them. *)

From Stdlib Require Import ssreflect ZArith Lia Ascii String QArith.
From stdpp Require Import base strings numbers gmap sets list.
From S2P Require Import Prelude PyText PyDict PyJson PyDecimal PyFloat PyLines EventLog.
From S2P Require SecretsBoundary MockExchange Config AlphaModels.
From S2P Require Import ExchangeModels ExchangeAdapter RiskManager Quantization Engine HyperliquidCodec HyperliquidWire HyperliquidMapping Hyperliquid.
#[local] Open Scope Z_scope.

Notation environ := (list (string * string)).

(** ** settings.py *)

Definition _TRUE : list string := ["1"; "true"; "yes"; "on"].

Definition _bool (env : environ) (key : string) (default : bool) : bool :=
  match dget key env with
  | None => default
  | Some raw => if blank raw then default else existsb (String.eqb (lower (strip raw))) _TRUE
  end.

Definition _int (env : environ) (key : string) (default : Z) : result Z :=
  match dget key env with
  | None => Ok default
  | Some raw => if blank raw then Ok default else int_of_text raw
  end.

Definition _decimal (env : environ) (key default : string) : result decimal :=
  let raw := match dget key env with None => default | Some raw => if blank raw then default else raw end in
  match AlphaModels.Decimal raw with
  | Some d => Ok d
  | None => Err (if AlphaModels.special_decimal raw then OutsideModel else ValueError)
  end.

Record AppSettings := {
  as_host : string;
  as_port : Z;
  as_engine_config_path : string;
  as_event_store_path : string;
  as_worker_enabled : bool;
  as_cycle_interval_seconds : Z;
  as_maintenance_margin_rate : decimal;
  as_target_leverage : decimal;
  as_initial_deposit : decimal;
  as_risk_max_leverage : decimal;
  as_risk_min_liquidation_buffer_pct : decimal;
  as_risk_max_funding_rate_abs : decimal;
  as_risk_max_correlated_positions : Z;
  as_risk_max_stale_data_seconds : Z;
  as_log_level : string;
  as_log_format : string;
  as_metrics_enabled : bool;
  as_dashboard_enabled : bool;
  as_api_key : option string;
  as_telegram_enabled : bool;
  as_telegram_bot_token : option string;
  as_telegram_chat_id : option string
}.

(** [(e.get(key) or "").strip() or None] *)
Definition stripped (key : string) (env : environ) : option string :=
  match strip (default "" (dget key env)) with "" => None | s => Some s end.
Definition port_text (env : environ) : string :=
  match get_or_none "PORT" env with Some s => s | None => default "8000" (get_or_none "APP_PORT" env) end.

Definition read_settings (e : environ) : result AppSettings :=
  port ← int_of_text (port_text e);
  cycle_interval_seconds ← _int e "CYCLE_INTERVAL_SECONDS" 60;
  maintenance_margin_rate ← _decimal e "CYCLE_MAINTENANCE_MARGIN_RATE" "0.005";
  target_leverage ← _decimal e "CYCLE_TARGET_LEVERAGE" "1";
  initial_deposit ← _decimal e "PORTFOLIO_INITIAL_DEPOSIT" "0";
  risk_max_leverage ← _decimal e "RISK_MAX_LEVERAGE" "10";
  risk_min_liquidation_buffer_pct ← _decimal e "RISK_MIN_LIQ_BUFFER_PCT" "0.1";
  risk_max_funding_rate_abs ← _decimal e "RISK_MAX_FUNDING_RATE_ABS" "0.05";
  risk_max_correlated_positions ← _int e "RISK_MAX_CORRELATED_POSITIONS" 3;
  risk_max_stale_data_seconds ← _int e "RISK_MAX_STALE_DATA_SECONDS" 150;
  Ok {| as_host := default "0.0.0.0" (dget "APP_HOST" e); as_port := port;
        as_engine_config_path := default "deploy/engine.paper.toml" (dget "ENGINE_CONFIG_PATH" e);
        as_event_store_path := default "data/events.log" (dget "ENGINE_STORE_PATH" e);
        as_worker_enabled := _bool e "WORKER_ENABLED" true; as_cycle_interval_seconds := cycle_interval_seconds;
        as_maintenance_margin_rate := maintenance_margin_rate; as_target_leverage := target_leverage;
        as_initial_deposit := initial_deposit; as_risk_max_leverage := risk_max_leverage;
        as_risk_min_liquidation_buffer_pct := risk_min_liquidation_buffer_pct;
        as_risk_max_funding_rate_abs := risk_max_funding_rate_abs;
        as_risk_max_correlated_positions := risk_max_correlated_positions;
        as_risk_max_stale_data_seconds := risk_max_stale_data_seconds;
        as_log_level := SecretsBoundary.upper (default "INFO" (dget "LOG_LEVEL" e));
        as_log_format := lower (default "json" (dget "LOG_FORMAT" e));
        as_metrics_enabled := _bool e "METRICS_ENABLED" true; as_dashboard_enabled := _bool e "DASHBOARD_ENABLED" true;
        as_api_key := get_or_none "API_KEY" e; as_telegram_enabled := _bool e "TELEGRAM_ENABLED" false;
        as_telegram_bot_token := stripped "TELEGRAM_BOT_TOKEN" e; as_telegram_chat_id := stripped "TELEGRAM_CHAT_ID" e |}.

Definition is_some {X} (o : option X) : bool := match o with Some _ => true | None => false end.

Definition from_env (e : environ) : result AppSettings :=
  settings ← read_settings e;
  if as_telegram_enabled settings && negb (is_some (as_telegram_bot_token settings) && is_some (as_telegram_chat_id settings))
  then Err ValueError
  else if as_risk_max_stale_data_seconds settings <=? as_cycle_interval_seconds settings then Err ValueError
  else Ok settings.

(** ** venue_rules.py *)

Fixpoint read_rules (rules : QuantizationRules) (universe : list json) : result QuantizationRules :=
  match universe with
  | [] => Ok rules
  | JObj asset :: universe =>
      match dget "name" asset with
      | Some (JStr name) =>
          if str_empty name then Err ValueError else
          match dget "szDecimals" asset with
          | Some (JInt n) => if (0 <=? n) && (n <=? PRICE_MAX_DECIMALS)
                             then r ← mk_SymbolRules n; read_rules (dset name r rules) universe else Err ValueError
          | _ => Err ValueError
          end
      | _ => Err ValueError
      end
  | _ => Err ValueError
  end.

(** [body] is the venue's answer to the one request. *)
Definition fetch_hyperliquid_rules (body : result json) : result QuantizationRules :=
  body ← body;
  match body with
  | JObj o => match dget "universe" o with Some (JList (x :: l)) => read_rules [] (x :: l) | _ => Err ValueError end
  | _ => Err ValueError
  end.

(** ** wiring.py: [_build_adapter] *)

Inductive BuiltAdapter (L : Type) :=
  | Paper (adapter : ExchangeAdapter MockExchange.MockExchange)
  | Live (adapter : ExchangeAdapter (Hyperliquid L)).
Arguments Paper {L} adapter.
Arguments Live {L} adapter.

Definition _ADAPTER_VERSION : string := "1.0.0-wp8".
Definition _DEFAULT_TIMEOUT_SECONDS : Q := 10.
Definition base_url_of (config : Config.EngineConfig) : string :=
  if String.eqb (Config.xc_network (Config.cf_exchange config)) "mainnet" then MAINNET_BASE_URL else TESTNET_BASE_URL.

(** The mock adapter over the engine's boundary; [clock] holds its next readings. *)
Definition paper_adapter (config : Config.EngineConfig) (clock : list string) (boundary : SecretsBoundary.SigningBoundary) :
    result (ExchangeAdapter MockExchange.MockExchange) :=
  adapter_init "mock" "1.0.0-mock" clock
    (MockExchange.mock_init boundary (Config.sc_signing_key_ref (Config.cf_secrets config)) MockExchange.DEFAULT_MOCK_CAPABILITIES clock).

Section wiring.
Context {L : Type} `{EventLog L} (from_key : string -> option string).

(** The signer of a configuration that names a wallet key. *)
Definition build_wallet_signer (config : Config.EngineConfig) (env : environ) : result (option HyperliquidWalletSigner) :=
  match Config.sc_wallet_key_ref (Config.cf_secrets config) with
  | None | Some "" => Ok None
  | Some ref =>
      w ← wallet_signer_init from_key ref (String.eqb (Config.xc_network (Config.cf_exchange config)) "mainnet") env;
      Ok (Some w)
  end.

Definition _build_adapter (config : Config.EngineConfig) (deployment : DeploymentSettings) (clock : list string) (clock_ms : list Z)
    (env : environ) (is_live : bool) (boundary : SecretsBoundary.SigningBoundary) (store : L) : result (BuiltAdapter L) :=
  if negb is_live then a ← paper_adapter config clock boundary; Ok (Paper a) else
  wallet_signer ← build_wallet_signer config env;
  let account_address := default "" (de_account_address deployment) in
  let checked := adapter_init (Config.xc_name (Config.cf_exchange config)) _ADAPTER_VERSION clock tt in
  _ ← checked;
  hooks ← hyperliquid_init boundary (Config.sc_signing_key_ref (Config.cf_secrets config)) account_address (base_url_of config)
            _DEFAULT_TIMEOUT_SECONDS true store wallet_signer clock clock_ms;
  a ← adapter_init (Config.xc_name (Config.cf_exchange config)) _ADAPTER_VERSION clock hooks;
  Ok (Live a).
End wiring.

(** ** engine_builder.py *)

Definition _risk_limits (settings : AppSettings) : result RiskManagerLimits :=
  mk_RiskManagerLimits
    {| max_leverage := as_risk_max_leverage settings; min_liquidation_buffer_pct := as_risk_min_liquidation_buffer_pct settings;
       max_funding_rate_abs := as_risk_max_funding_rate_abs settings;
       max_correlated_positions := as_risk_max_correlated_positions settings;
       max_stale_data_seconds := as_risk_max_stale_data_seconds settings |}.

(** What the outside gives a start: the configuration file, the environment, the
    outcome of creating the store's directory and of opening the store, the
    clock, and the venue's description of its assets. *)
Record Outside (L : Type) := {
  ou_file : Config.toml_file;
  ou_env : environ;
  ou_directory : result unit;
  ou_store : result L;
  ou_now : string;
  ou_meta : result json
}.
Arguments ou_file {L}. Arguments ou_env {L}. Arguments ou_directory {L}. Arguments ou_store {L}. Arguments ou_now {L}. Arguments ou_meta {L}.

Record Built (L A : Type) := {
  bu_engine : Engine L A;
  bu_universe : list Symbol;
  bu_risk_profile : RiskProfileParams;
  bu_rules : option QuantizationRules
}.
Arguments bu_engine {L A}. Arguments bu_universe {L A}. Arguments bu_risk_profile {L A}. Arguments bu_rules {L A}.

Section builder.
Context {L A : Type} `{EventLog L}.
(** The adapter of a configuration, the mock's or the live one. *)
Context (make_adapter : Config.EngineConfig -> DeploymentSettings -> environ -> bool -> SecretsBoundary.SigningBoundary -> L -> result A).

Definition load (o : Outside L) : result Config.EngineConfig :=
  match Config.load_config (ou_file o) (ou_env o) with inl config => Ok config | inr (e, _) => Err e end.

(** After the engine is built: a failure of the rules closes its store; what
    fails later leaves it open and locked. *)
Inductive outcome (X : Type) :=
  | Started (x : X)
  | NotOpened (e : exn)
  | ClosedAgain (e : exn) (store : L)
  | LeftOpen (e : exn) (store : L).
Arguments Started {X} x.
Arguments NotOpened {X} e.
Arguments ClosedAgain {X} e store.
Arguments LeftOpen {X} e store.

Definition or_not_opened {X} (r : result X) {Y} (f : X -> outcome Y) : outcome Y :=
  match r with Ok x => f x | Err e => NotOpened e end.

Definition build_engine_from_settings (settings : AppSettings) (o : Outside L) : outcome (Built L A) :=
  or_not_opened (load o) (fun config =>
  let deployment := load_deployment_settings (ou_env o) in
  or_not_opened (ou_directory o) (fun _ =>
  or_not_opened (_risk_limits settings) (fun limits =>
  match build_engine config deployment limits (ou_now o) (ou_store o) (ou_env o) (make_adapter config deployment (ou_env o)), ou_store o with
  | (Err e, false), _ | (Err e, true), Err _ => NotOpened e
  | (Err e, true), Ok store => ClosedAgain e store
  | (Ok engine, _), _ =>
      match mapM mk_Symbol (Config.cf_universe config) with
      | Err e => LeftOpen e (en_store engine)
      | Ok universe =>
          match (if String.eqb (Config.cf_environment config) "live"
                 then rules ← fetch_hyperliquid_rules (ou_meta o); Ok (Some rules) else Ok None) with
          | Err e => ClosedAgain e (en_store engine)
          | Ok rules =>
              match Config.active_profile_params (Config.cf_risk config) with
              | Err e => LeftOpen e (en_store engine)
              | Ok profile => Started {| bu_engine := engine; bu_universe := universe; bu_risk_profile := profile; bu_rules := rules |}
              end
          end
      end
  end))).
End builder.
Arguments outcome L X : clear implicits.
Arguments Started {L X} x.
Arguments NotOpened {L X} e.
Arguments ClosedAgain {L X} e store.
Arguments LeftOpen {L X} e store.

(** ** Properties *)

(** The signer and the address of the venue come from one setting. *)
Lemma networks_agree (from_key : string -> option string) config env w :
  build_wallet_signer from_key config env = Ok w -> network_matches (base_url_of config) w = Ok tt.
Proof.
  unfold build_wallet_signer, base_url_of, wallet_signer_init. generalize (String.eqb (Config.xc_network (Config.cf_exchange config)) "mainnet") as b.
  intros b. destruct (Config.sc_wallet_key_ref _) as [[|c ref]|]; try by intros <-%(inj Ok).
  destruct (blank _); [done|]. destruct (dget _ _) as [raw|]; [|done]. destruct (blank raw); [done|].
  destruct (from_key _) as [address|]; [|done]. cbn [mbind result_bind]. intros <-%(inj Ok). by destruct b; vm_compute.
Qed.

Lemma int_of_text_err text e : int_of_text text = Err e -> e = ValueError.
Proof. unfold int_of_text. destruct (parse_sign _) as [neg ds]. destruct (grouped_digits _ _); [done|]. by intros [= <-]. Qed.
Lemma int_err env key d e : _int env key d = Err e -> e = ValueError.
Proof. unfold _int. destruct (dget _ _) as [raw|]; [|done]. destruct (blank raw); [done|apply int_of_text_err]. Qed.
Lemma decimal_err env key d e : _decimal env key d = Err e -> e = ValueError \/ e = OutsideModel.
Proof. unfold _decimal. destruct (AlphaModels.Decimal _); [done|]. destruct (AlphaModels.special_decimal _); intros [= <-]; auto. Qed.
Lemma stripped_some key env s : stripped key env = Some s -> s <> "".
Proof. unfold stripped. destruct (strip _); [done|]. by intros [= <-]. Qed.
Lemma get_or_none_some key env s : get_or_none key env = Some s -> dget key env = Some s /\ s <> "".
Proof. unfold get_or_none. destruct (dget key env) as [[|c x]|]; try done. intros [= <-]. by split. Qed.

Lemma read_settings_ok e s : read_settings e = Ok s ->
  as_api_key s = get_or_none "API_KEY" e /\ as_telegram_bot_token s = stripped "TELEGRAM_BOT_TOKEN" e /\
  as_telegram_chat_id s = stripped "TELEGRAM_CHAT_ID" e.
Proof.
  unfold read_settings. repeat (match goal with |- (?r ≫= _) = Ok _ -> _ => destruct r; [cbn [mbind result_bind]|done] end). by intros <-%(inj Ok).
Qed.
Lemma read_settings_err e x : read_settings e = Err x -> x = ValueError \/ x = OutsideModel.
Proof.
  unfold read_settings. repeat (match goal with |- (?r ≫= _) = Err _ -> _ => let E := fresh in destruct r eqn:E; cbn [mbind result_bind];
    [clear E|intros [= <-]; first [left; by apply int_of_text_err in E|left; by apply int_err in E|by apply decimal_err in E]] end). done.
Qed.

(** Settings that are read are safe to run with: the age at
    which data is stale exceeds the time between two cycles, so an idle interval
    alone never stops trading; a Telegram that is on has its token and its chat;
    and a key that is set is the variable's, not empty. Nothing but a
    [ValueError] is raised, for every environment. *)
Theorem settings_checked e :
  match from_env e with
  | Ok s =>
      as_cycle_interval_seconds s < as_risk_max_stale_data_seconds s /\
      (as_telegram_enabled s = true -> exists token chat, as_telegram_bot_token s = Some token /\ token <> "" /\
         as_telegram_chat_id s = Some chat /\ chat <> "") /\
      (forall key, as_api_key s = Some key -> dget "API_KEY" e = Some key /\ key <> "")
  | Err x => x = ValueError \/ x = OutsideModel
  end.
Proof.
  unfold from_env. destruct (read_settings e) as [s|x] eqn:Es; cbn [mbind result_bind]; [|by apply read_settings_err in Es].
  apply read_settings_ok in Es as (Hk & Ht & Hc). destruct (_ && _) eqn:Htg; [by left|].
  destruct (Z.leb_spec (as_risk_max_stale_data_seconds s) (as_cycle_interval_seconds s)); [by left|]. split_and!; [done| |].
  - intros Hen. rewrite Hen Ht Hc in Htg |- *. destruct (stripped "TELEGRAM_BOT_TOKEN" e) as [t|] eqn:E1; [|done].
    destruct (stripped "TELEGRAM_CHAT_ID" e) as [c|] eqn:E2; [|done]. exists t, c. by split_and!; try by eapply stripped_some.
  - intros key. rewrite Hk. apply get_or_none_some.
Qed.

(** The defaults; a limit at the interval; text around a number; and numbers
    that are none. *)
Example settings_ex :
  map (fun e => match from_env e with Ok s => Some (as_cycle_interval_seconds s, as_port s, as_api_key s) | Err _ => None end)
    [[]; [("RISK_MAX_STALE_DATA_SECONDS", "60")]; [("PORT", ""); ("APP_PORT", " 9_000 "); ("API_KEY", "k")];
     [("RISK_MAX_LEVERAGE", "ten")]; [("TELEGRAM_ENABLED", "Yes"); ("TELEGRAM_BOT_TOKEN", " ")]]
  = [Some (60, 8000, None); None; Some (60, 9000, Some "k"); None; None].
Proof. by vm_compute. Qed.
