(* ===== verification/App.v ===== *)
(** * The application (src/app/runtime/state.py, worker.py,
    src/trading_system/monitoring/snapshot.py, src/app/api/security.py, service.py,
    routes.py, src/app/telegram/commands.py, bot.py)

    One process: the engine with its accounting, the outcome of the latest
    cycle, the emergency stop, and the three callers that drive it: the worker,
    the HTTP routes and the Telegram bot. Calls run one after the other, as they
    do under the engine's lock. *)

From Stdlib Require Import ssreflect ZArith Lia Ascii String.
From stdpp Require Import base strings numbers gmap sets list.
From S2P Require Import Prelude PyText PyDict PyJson PyDecimal PyFloat PyLines EventLog.
From S2P Require ExecStateMachine SecretsBoundary PositionManager PortfolioManager.
From S2P Require Import ExchangeModels ExchangeAdapter OrderStates OrderManager RiskManager Sizing Execution Construction Quantization.
From S2P Require Import Engine TradingCycle Accounting HyperliquidCodec Startup.
#[local] Open Scope Z_scope.

(** ** monitoring/snapshot.py *)

Definition is_kill (s : ExecStateMachine.State) : bool :=
  match s with
  | ExecStateMachine.State.SOFT_KILL | ExecStateMachine.State.HARD_KILL | ExecStateMachine.State.EMERGENCY_KILL => true
  | _ => false
  end.

(** What [last_error] says, by the place that wrote it. *)
Inductive app_error :=
  | AccountingNotes (notes : list note)
  | CycleFailed (e : exn)
  | SnapshotFailed (e : exn)
  | CancelFailed (e : exn)
  | KillFailed (e : exn).

Record EngineSnapshot := {
  es_captured_at_utc : string;
  es_health : HealthStatus;
  es_current_state : ExecStateMachine.State;
  es_is_kill_switch_active : bool;
  es_is_started : bool;
  es_open_order_count : option Z;
  es_position_count : Z;
  es_portfolio_snapshot : PortfolioManager.PortfolioSnapshot;
  es_reconciliation : option ReconciliationReport;
  es_last_cycle_completed_at_utc : option string;
  es_last_cycle_construction : option ConstructionResult;
  es_last_cycle_executions : option (list ExecutionResult);
  es_last_cycle_resynced_order_count : option Z;
  es_last_error : option app_error
}.

Section app.
Context {L A : Type} `{EventLog L} `{Exchange A} `{Venue A} `{Signing A}.
Notation E := (Engine L A).
Notation W := (E * Accounting)%type.

Definition esm_state (e : E) : ExecStateMachine.State := ExecStateMachine.esm_current_state (w_esm (en_orders e)).

(** The values read from the engine, with what the caller supplies. *)
Definition make_snapshot (now : string) (health : HealthStatus) (e : E) (open_order_count : option Z)
    (portfolio_snapshot : PortfolioManager.PortfolioSnapshot) (reconciliation : option ReconciliationReport)
    (last_cycle : option CycleResult) (completed_at : option string) (last_error : option app_error) : EngineSnapshot :=
  {| es_captured_at_utc := now; es_health := health; es_current_state := esm_state e;
     es_is_kill_switch_active := is_kill (esm_state e); es_is_started := en_started e;
     es_open_order_count := open_order_count;
     es_position_count := Z.of_nat (length (PortfolioManager.pf_open_position_ids portfolio_snapshot));
     es_portfolio_snapshot := portfolio_snapshot; es_reconciliation := reconciliation;
     es_last_cycle_completed_at_utc := completed_at;
     es_last_cycle_construction := cy_construction <$> last_cycle;
     es_last_cycle_executions := cy_executions <$> last_cycle;
     es_last_cycle_resynced_order_count := (fun r => Z.of_nat (length (cy_resynced_orders r))) <$> last_cycle;
     es_last_error := last_error |}.

Definition capture_snapshot (now : string) (last_cycle : option CycleResult) (completed_at : option string)
    (last_error : option app_error) : M E EngineSnapshot :=
  health ← on_venue ve_health;
  portfolio_snapshot ← on_portfolio_manager PortfolioManager.get_snapshot;
  e ← get;
  if en_started e then
    orders ← on_venue ve_get_orders;
    report ← reconcile;
    mret (make_snapshot now health e (Some (Z.of_nat (length orders))) portfolio_snapshot (Some report) last_cycle completed_at last_error)
  else mret (make_snapshot now health e None portfolio_snapshot None last_cycle completed_at last_error).

(** ** state.py *)

Definition stopped_state (s : ExecStateMachine.State) : bool :=
  match s with ExecStateMachine.State.EMERGENCY_KILL | ExecStateMachine.State.STOPPED => true | _ => false end.

(** What is fixed when a process starts. *)
Record AppConfig := {
  ac_settings : AppSettings;
  ac_universe : list Symbol;
  ac_risk_profile : RiskProfileParams;
  ac_strategies : list (Strategy (A := A));
  ac_quantization_rules : option QuantizationRules;
  ac_started_at_utc : string
}.

(** The engine and its accounting, and the latest cycle's outcome. [create], the
    one place that builds it, always sets the accounting. *)
Record AppState := {
  ap_config : AppConfig;
  ap_world : W;
  ap_last_cycle : option CycleResult;
  ap_last_cycle_completed_at_utc : option string;
  ap_last_error : option app_error;
  ap_cycles_run : Z;
  ap_emergency_stopped : bool;
  ap_latest_snapshot : option EngineSnapshot
}.
Notation S := AppState.
Implicit Types (s : S).

Definition set_world (w : W) s : S :=
  {| ap_config := ap_config s; ap_world := w; ap_last_cycle := ap_last_cycle s;
     ap_last_cycle_completed_at_utc := ap_last_cycle_completed_at_utc s; ap_last_error := ap_last_error s;
     ap_cycles_run := ap_cycles_run s; ap_emergency_stopped := ap_emergency_stopped s; ap_latest_snapshot := ap_latest_snapshot s |}.
Definition set_error (e : app_error) s : S :=
  {| ap_config := ap_config s; ap_world := ap_world s; ap_last_cycle := ap_last_cycle s;
     ap_last_cycle_completed_at_utc := ap_last_cycle_completed_at_utc s; ap_last_error := Some e;
     ap_cycles_run := ap_cycles_run s; ap_emergency_stopped := ap_emergency_stopped s; ap_latest_snapshot := ap_latest_snapshot s |}.
Definition set_cycle (r : CycleResult) (completed : string) s : S :=
  {| ap_config := ap_config s; ap_world := ap_world s; ap_last_cycle := Some r;
     ap_last_cycle_completed_at_utc := Some completed; ap_last_error := ap_last_error s;
     ap_cycles_run := ap_cycles_run s + 1; ap_emergency_stopped := ap_emergency_stopped s; ap_latest_snapshot := ap_latest_snapshot s |}.
Definition set_stopped s : S :=
  {| ap_config := ap_config s; ap_world := ap_world s; ap_last_cycle := ap_last_cycle s;
     ap_last_cycle_completed_at_utc := ap_last_cycle_completed_at_utc s; ap_last_error := ap_last_error s;
     ap_cycles_run := ap_cycles_run s; ap_emergency_stopped := true; ap_latest_snapshot := ap_latest_snapshot s |}.
Definition set_snapshot (x : EngineSnapshot) s : S :=
  {| ap_config := ap_config s; ap_world := ap_world s; ap_last_cycle := ap_last_cycle s;
     ap_last_cycle_completed_at_utc := ap_last_cycle_completed_at_utc s; ap_last_error := ap_last_error s;
     ap_cycles_run := ap_cycles_run s; ap_emergency_stopped := ap_emergency_stopped s; ap_latest_snapshot := Some x |}.

Definition in_world {X} : M W X -> M S X := zoom ap_world set_world.
Definition on_app_engine {X} (m : M E X) : M S X := in_world (in_engine m).

(** *** Starting a process *)

Section create.
Context (make_adapter : Config.EngineConfig -> DeploymentSettings -> environ -> bool -> SecretsBoundary.SigningBoundary -> L -> result A).

Definition initial_deposit_id : string := "app_accounting:initial-deposit:v1".

(** The engine after the one deposit of its log. *)
Definition seed (settings : AppSettings) (e : E) : E * result unit :=
  if dltb d0 (as_initial_deposit settings) then
    (_ ← on_portfolio_manager (PortfolioManager.deposit default_id (as_initial_deposit settings) initial_deposit_id); mret tt) e
  else (e, Ok tt).

(** [started_at] is the clock's answer; [quantization_rules] the caller's. *)
Definition create (settings : AppSettings) (o : Outside L) (strategies : list (Strategy (A := A)))
    (quantization_rules : option QuantizationRules) (started_at : string) : outcome L S :=
  match build_engine_from_settings make_adapter settings o with
  | NotOpened e => NotOpened e
  | ClosedAgain e store => ClosedAgain e store
  | LeftOpen e store => LeftOpen e store
  | Started b =>
      match seed settings (bu_engine b) with
      | (engine, Err e) => LeftOpen e (en_store engine)
      | (engine, Ok _) =>
          match ac_init (en_store engine) with
          | Err e => LeftOpen e (en_store engine)
          | Ok accounting =>
              Started {| ap_config := {| ac_settings := settings; ac_universe := bu_universe b;
                           ac_risk_profile := bu_risk_profile b; ac_strategies := strategies;
                           ac_quantization_rules := match quantization_rules with Some r => Some r | None => bu_rules b end;
                           ac_started_at_utc := started_at |};
                         ap_world := (engine, accounting); ap_last_cycle := None; ap_last_cycle_completed_at_utc := None;
                         ap_last_error := None; ap_cycles_run := 0; ap_emergency_stopped := stopped_state (esm_state engine);
                         ap_latest_snapshot := None |}
          end
      end
  end.
End create.

(** *** One cycle *)

(** The readings of the clock a cycle takes. *)
Record Times := { ti_correlation : string; ti_cycle : string; ti_completed : string; ti_captured : string }.
Context (fromisoformat : string -> result (Z * option Z)).

Definition recording (x : ExecutionResult) : M W unit := record_execution_levels [x].

(** The accounting before and after the engine's cycle, with its notes. *)
Definition cycle_body (c : AppConfig) (t : Times) : M W (CycleResult * list note) :=
  let leverage := as_target_leverage (ac_settings c) in
  started ← in_engine (e ← get; mret (en_started e));
  before ← (if started : bool then notes ← sync leverage; update_marks;; mret notes else mret []);
  result ← run_cycle fromisoformat (ac_strategies c) (ac_universe c) (ac_risk_profile c)
             {| ci_entries := []; ci_as_of_utc := ti_correlation t |} (as_maintenance_margin_rate (ac_settings c)) leverage []
             (ti_cycle t) (Some recording) (ac_quantization_rules c);
  record_execution_levels (cy_executions result);;
  after ← sync leverage;
  mret (result, before ++ after).

Definition capture (now : string) : M S EngineSnapshot :=
  s ← get;
  on_app_engine (capture_snapshot now (ap_last_cycle s) (ap_last_cycle_completed_at_utc s) (ap_last_error s)).

(** The snapshot after a cycle; its failure is recorded only. *)
Definition refresh (now : string) : M S unit := fun s =>
  match capture now s with
  | (s, Ok x) => (set_snapshot x s, Ok tt)
  | (s, Err e) => (set_error (SnapshotFailed e) s, Ok tt)
  end.

Definition cycle_refused s : bool := ap_emergency_stopped s || stopped_state (esm_state (ap_world s).1).

Definition run_one_cycle (t : Times) : M S CycleResult := fun s =>
  if cycle_refused s then (s, Err EmergencyStopActive) else
  match in_world (cycle_body (ap_config s) t) s with
  | (s, Err e) => (set_error (CycleFailed e) s, Err e)
  | (s, Ok (result, notes)) =>
      let s := match notes with [] => s | _ => set_error (AccountingNotes notes) s end in
      (refresh (ti_captured t);; mret result) (set_cycle result (ti_completed t) s)
  end.

(** *** Observation *)

Definition _cheap_snapshot (now : string) : M S EngineSnapshot :=
  portfolio_snapshot ← on_app_engine (on_portfolio_manager PortfolioManager.get_snapshot);
  health ← on_app_engine (on_venue ve_health);
  s ← get;
  mret (make_snapshot now health (ap_world s).1 None portfolio_snapshot None (ap_last_cycle s) (ap_last_cycle_completed_at_utc s) (ap_last_error s)).

Definition snapshot_for_reads (now : string) : M S EngineSnapshot :=
  s ← get;
  match ap_latest_snapshot s with Some x => mret x | None => _cheap_snapshot now end.

(** *** Control *)

(** The cancellation before the revocation: only the first time, and only when
    the engine was started. *)
Definition cancel_resting : M S (list OrderSnapshot) := fun s =>
  if negb (cycle_refused s) && en_started (ap_world s).1 then
    match on_app_engine (on_order_manager (cancel_all None)) s with
    | (s, Err e) => (set_error (CancelFailed e) s, Ok [])
    | r => r
    end
  else (s, Ok []).

Definition revoke_signing (a : A) : A := sg_wallet_revoke (sg_set_boundary (SecretsBoundary.revoke_all (sg_boundary a)) a).

Definition emergency_stop_id (now : string) : string := "app:emergency-stop:" +:+ now.
Definition record_kill (now : string) : M S unit := fun s =>
  if stopped_state (esm_state (ap_world s).1) then (s, Ok tt) else
  match on_app_engine (on_order_manager (on_esm (ExecStateMachine.transition ExecStateMachine.Trigger.EMERGENCY_KILL_TRIGGERED
          (emergency_stop_id now) [("source", JStr "app_runtime"); ("reason", JStr "operator_emergency_stop")]))) s with
  | (s, Err e) => (set_error (KillFailed e) s, Ok tt)
  | (s, Ok _) => (s, Ok tt)
  end.

Definition emergency_stop (now captured_at : string) : M S (list OrderSnapshot) :=
  cancelled ← cancel_resting;
  on_app_engine (on_venue (modify revoke_signing));;
  record_kill now;;
  modify set_stopped;;
  snapshot ← _cheap_snapshot captured_at;
  modify (set_snapshot snapshot);;
  mret cancelled.

(** [log_close] is the store's [close]. *)
Definition app_shutdown (log_close : M L unit) : M S unit := fun s => ((on_app_engine (stop log_close) s).1, Ok tt).

(** ** worker.py *)

Definition worker_interval (settings : AppSettings) : Z := Z.max 1 (as_cycle_interval_seconds settings).
(** One turn of the loop: no exception ends it. *)
Definition worker_turn (t : Times) : M S unit := fun s => ((run_one_cycle t s).1, Ok tt).

(** ** api *)

Definition _configured_key (settings : AppSettings) : option string :=
  match as_api_key settings with Some key => if blank key then None else Some key | None => None end.

(** [a.lower().startswith("bearer ")] and [a[7:].strip()]. *)
Definition bearer (authorization : string) : option string :=
  if String.prefix "bearer " (lower authorization) then Some (strip (str_drop 7 authorization)) else None.

(** [hmac.compare_digest] takes ASCII texts only. *)
Definition is_ascii (c : ascii) : bool := (N_of_ascii c <? 128)%N.
Definition compare_digest (a b : string) : result bool :=
  if str_forall is_ascii a && str_forall is_ascii b then Ok (String.eqb a b) else Err TypeError.

Definition require_api_key (settings : AppSettings) (x_api_key authorization : option string) : result unit :=
  match _configured_key settings with
  | None | Some "" => Err ServiceUnavailable
  | Some configured =>
      let presented := match x_api_key with Some key => Some key | None => authorization ≫= bearer end in
      match presented with
      | None => Err Unauthorized
      | Some key => same ← compare_digest key configured; if same : bool then Ok tt else Err Unauthorized
      end
  end.

(** [health_dict] *)
Record Health := {
  he_engine_started : bool;
  he_connection_state : ConnectionState;
  he_rest_reachable : bool;
  he_current_state : ExecStateMachine.State;
  he_emergency_stopped : bool;
  he_cycles_run : Z;
  he_checked_at_utc : string
}.
Definition health_dict : M S Health :=
  health ← on_app_engine (on_venue ve_health);
  s ← get;
  mret {| he_engine_started := en_started (ap_world s).1; he_connection_state := hs_connection_state health;
          he_rest_reachable := hs_rest_reachable health; he_current_state := esm_state (ap_world s).1;
          he_emergency_stopped := ap_emergency_stopped s; he_cycles_run := ap_cycles_run s;
          he_checked_at_utc := hs_checked_at_utc health |}.

(** The routes; each answer is what the route is built from. *)
Inductive Route := GetHealth | GetStatus | GetPortfolio | GetReports | GetMetrics | PostCycleRun | PostEmergencyStop.
Record Request := { rq_route : Route; rq_x_api_key : option string; rq_authorization : option string }.
Inductive Answer :=
  | HealthAnswer (h : Health)
  | SnapshotAnswer (route : Route) (x : EngineSnapshot) (cycles_run : Z) (emergency_stopped : bool) (started_at : string) (strategy_count : Z)
  | CycleAnswer (cycles_run : Z) (started : bool) (intents approved rejected skipped executions : Z) (completed_at : option string)
  | StopAnswer (cancelled : Z) (warning : option app_error) (emergency_stopped : bool).

Definition read_route (route : Route) (now : string) : M S Answer :=
  x ← snapshot_for_reads now;
  s ← get;
  mret (SnapshotAnswer route x (ap_cycles_run s) (ap_emergency_stopped s) (ac_started_at_utc (ap_config s))
          (Z.of_nat (length (ac_strategies (ap_config s))))).

Definition count {X} (l : list X) : Z := Z.of_nat (length l).
Definition cycle_route (t : Times) : M S Answer :=
  r ← run_one_cycle t;
  s ← get;
  mret (CycleAnswer (ap_cycles_run s) (cy_started r) (count (cy_intents r)) (count (cr_approved (cy_construction r)))
          (count (cr_rejected (cy_construction r))) (count (cr_skipped (cy_construction r))) (count (cy_executions r))
          (ap_last_cycle_completed_at_utc s)).
Definition stop_route (now captured_at : string) : M S Answer :=
  cancelled ← emergency_stop now captured_at;
  s ← get;
  mret (StopAnswer (count cancelled) (match ap_last_error s with Some (CancelFailed e) => Some (CancelFailed e) | _ => None end)
          (ap_emergency_stopped s)).

(** [now] and the times are the clock's answers. *)
Definition handle_request (t : Times) (now : string) (r : Request) : M S Answer :=
  match rq_route r with
  | GetHealth => h ← health_dict; mret (HealthAnswer h)
  | PostCycleRun => s ← get; lift (require_api_key (ac_settings (ap_config s)) (rq_x_api_key r) (rq_authorization r));; cycle_route t
  | PostEmergencyStop =>
      s ← get; lift (require_api_key (ac_settings (ap_config s)) (rq_x_api_key r) (rq_authorization r));; stop_route now (ti_captured t)
  | route => read_route route now
  end.

(** ** telegram *)

Inductive Reply :=
  | HelpReply | NotAuthorized | StopReply
  | UnknownCommand (command : string)
  | HealthReply (h : Health)
  | ReportReply (command : string) (x : EngineSnapshot)
  | CycleReply (cycles_run intents approved rejected executions : Z).

Fixpoint until (p : ascii -> bool) (s : string) : string :=
  match s with "" => "" | String c s => if p c then "" else String c (until p s) end.
(** [text.strip().split()[0].split("@")[0].lower()] *)
Definition command_of (text : string) : string := lower (until (fun c => Ascii.eqb c "@") (until is_space (strip text))).

Definition handle_command (t : Times) (now : string) (text : string) (authorized : bool) : M S Reply :=
  if blank text then mret HelpReply else
  let command := command_of text in
  if String.eqb command "/stop" then
    if negb authorized then mret NotAuthorized else emergency_stop now (ti_captured t);; mret StopReply
  else if String.eqb command "/health" then h ← health_dict; mret (HealthReply h)
  else if existsb (String.eqb command) ["/status"; "/portfolio"; "/risk"; "/reconcile"] then
    x ← snapshot_for_reads now; mret (ReportReply command x)
  else if String.eqb command "/cycle" then
    r ← run_one_cycle t; s ← get;
    mret (CycleReply (ap_cycles_run s) (count (cy_intents r)) (count (cr_approved (cy_construction r)))
            (count (cr_rejected (cy_construction r))) (count (cy_executions r)))
  else if existsb (String.eqb command) ["/help"; "/start"] then mret HelpReply
  else mret (UnknownCommand command).

(** One update of the polling bot; [repr] is the text of what is neither a
    string nor a number. A text that is no string has no [strip]. *)
Context (repr : json -> string).
Definition _dispatch (t : Times) (now : string) (update : json) : M S (option Reply) :=
  s ← get;
  let authorized_chat := as_telegram_chat_id (ac_settings (ap_config s)) in
  message ← lift (m ← get_ "message" update; if truthy m then Ok m else get_ "edited_message" update);
  if negb (truthy message) then mret None else
  text ← lift (get_or (JStr "") "text" message);
  chat_id ← lift (chat ← get_or (JObj []) "chat" message; id ← get_or (JStr "") "id" chat; Ok (text_of repr id));
  let authorized := match authorized_chat with Some c => String.eqb chat_id c | None => false end in
  if match authorized_chat with Some c => negb (String.eqb chat_id c) | None => false end then mret None else
  if negb (truthy text) then mret (Some HelpReply) else
  match text with
  | JStr text => r ← handle_command t now text authorized; mret (Some r)
  | _ => raise AttributeError
  end.

(** [_run] handles the updates of one answer in order; the first that raises
    ends the round, its offset already taken. *)
Fixpoint bot_round (t : Times) (now : string) (updates : list json) : M S unit := fun s =>
  match updates with
  | [] => (s, Ok tt)
  | u :: updates =>
      match _dispatch t now u s with
      | (s, Ok _) => bot_round t now updates s
      | (s, Err _) => (s, Ok tt)
      end
  end.
End app.
Arguments AppConfig : clear implicits.
Arguments AppState : clear implicits.
