(* ===== verification/AppSpec.v ===== *)
(** * The application's guarantees

    Over any run of the application, with its restarts: the emergency stop
    revokes whatever fails around it and is final once it is recorded; inputs
    without the credentials change nothing. *)

From Stdlib Require Import ssreflect ZArith Lia Ascii String QArith.
From stdpp Require Import base strings numbers gmap sets list relations.
From S2P Require Import Prelude PyText PyDict PyJson PyJsonFacts PyDecimal PyFloat PyLines EventStore EventLog Payload.
From S2P Require ExecStateMachine ExecStateMachineFacts SecretsBoundary SecretsBoundaryFacts PositionManager PortfolioManager Config.
From S2P Require Import ExchangeModels ExchangeAdapter OrderStates OrderManager RiskManager Quantization Construction.
From S2P Require Import Engine TradingCycle Accounting SharedLog EngineSpec EngineRuns EngineRestart HyperliquidCodec Startup App.
#[local] Open Scope Z_scope.
Module ESM := ExecStateMachine.

Section app.
Context {L A : Type} `{EventLog L} `{Exchange A} `{Venue A} `{Signing A}.
Notation E := (Engine L A).
Notation W := (E * Accounting)%type.
Notation S := (AppState L A).
Context (fromisoformat : string -> result (Z * option Z)) (repr : json -> string).
Context (make_adapter : Config.EngineConfig -> DeploymentSettings -> environ -> bool -> SecretsBoundary.SigningBoundary -> L -> result A).
Implicit Types (s : S) (l : L).

(** ** What the operations keep of the world *)

Section keep.
Context (I : W -> Prop) (K : keeper False I).
Notation IS := (fun s => I (ap_world s) /\ Forall (fun u => blank (sym_value u) = false) (ac_universe (ap_config s))).

Lemma cycle_body_keeps (c : AppConfig A) t : Forall (fun u => blank (sym_value u) = false) (ac_universe c) ->
  preserves I (cycle_body fromisoformat c t).
Proof.
  intros Hu. unfold cycle_body. cbv zeta. apply preserves_bind; [by intros [e a] Hw|]. intros started. apply preserves_bind.
  { destruct started; [|by intros w Hw]. apply preserves_bind; [intros w Hw; by apply (sync_keeps False I K)|]. intros notes.
    apply preserves_bind; [by apply (marks_keeps False I K)|]. by intros _ w Hw. }
  intros before. apply preserves_bind; [by apply (cycle_keeps False I K)|]. intros r.
  apply preserves_bind; [by apply (levels_keeps False I K)|]. intros _.
  apply preserves_bind; [intros w Hw; by apply (sync_keeps False I K)|]. by intros after w Hw.
Qed.

Lemma in_world_keeps {X} (m : M W X) : preserves I m -> preserves IS (in_world m).
Proof. intros Hm s [Hw Hu]. specialize (Hm _ Hw). unfold in_world, zoom. destruct (m (ap_world s)). by split. Qed.

Lemma capture_keeps now r c e : preserves I (in_engine (capture_snapshot now r c e)).
Proof.
  unfold capture_snapshot. apply (in_engine_bind I); [by apply (kp_venue False I K)|]. intros health.
  apply (in_engine_bind I); [by apply get_portfolio_keeps|]. intros pf. apply (in_engine_bind I); [by intros [e0 a] Hw|]. intros e0.
  destruct (en_started e0); [|by apply engine_ret]. apply (in_engine_bind I); [by apply (kp_venue False I K)|]. intros orders.
  apply (in_engine_bind I); [by apply (reconcile_keeps False I K)|]. intros report. by apply engine_ret.
Qed.

Lemma run_cycle_keeps t : preserves IS (run_one_cycle fromisoformat t).
Proof.
  intros s Hs. unfold run_one_cycle. destruct (cycle_refused s); [done|].
  pose proof (in_world_keeps _ (cycle_body_keeps (ap_config s) t (proj2 Hs)) s Hs) as Hb.
  destruct (in_world _ s) as [s1 [[r notes]|e]]; [|done]. cbn [fst] in Hb.
  assert (Hb' : IS (match notes with [] => s1 | _ => set_error (AccountingNotes notes) s1 end)) by by destruct notes.
  set (s2 := match notes with [] => _ | _ => _ end) in *. clearbody s2. cbv zeta. rewrite run_bind. unfold refresh, capture. rewrite run_get.
  set (s3 := set_cycle _ _ _). assert (Hs3 : IS s3) by done. clearbody s3.
  pose proof (in_world_keeps _ (capture_keeps (ti_captured t) (ap_last_cycle s3) (ap_last_cycle_completed_at_utc s3) (ap_last_error s3)) s3 Hs3) as Hc.
  unfold on_app_engine. by destruct (in_world _ s3) as [s4 [x|e]].
Qed.

Lemma venue_app_keeps {X} (m : M A X) : preserves IS (on_app_engine (on_venue m)).
Proof. apply in_world_keeps. by apply (kp_venue False I K). Qed.
Lemma cheap_keeps now : preserves IS (_cheap_snapshot now).
Proof.
  unfold _cheap_snapshot. apply preserves_bind; [apply in_world_keeps; by apply get_portfolio_keeps|]. intros pf.
  apply preserves_bind; [apply venue_app_keeps|]. intros h. apply preserves_bind; [by intros s Hs|]. by intros s0 s Hs.
Qed.
Lemma reads_app_keep now : preserves IS (snapshot_for_reads now).
Proof.
  unfold snapshot_for_reads. apply preserves_bind; [by intros s Hs|]. intros s0. destruct (ap_latest_snapshot s0); [by intros s Hs|apply cheap_keeps].
Qed.
Lemma health_app_keeps : preserves IS health_dict.
Proof. unfold health_dict. apply preserves_bind; [apply venue_app_keeps|]. intros h. apply preserves_bind; by intros ? Hs. Qed.

Lemma cancel_resting_keeps : preserves IS cancel_resting.
Proof.
  intros s Hs. unfold cancel_resting. destruct (_ && _); [|done].
  pose proof (in_world_keeps _ (kp_cancel_all False I K None) s Hs) as Hc. unfold on_app_engine.
  by destruct (in_world _ s) as [s1 [x|e]].
Qed.
Lemma record_kill_keeps now : preserves IS (record_kill now).
Proof.
  intros s Hs. unfold record_kill. destruct (stopped_state _); [done|].
  pose proof (fun Hc => in_world_keeps _ (kp_transition False I K ESM.Trigger.EMERGENCY_KILL_TRIGGERED (emergency_stop_id now)
    [("source", JStr "app_runtime"); ("reason", JStr "operator_emergency_stop")] Hc) s Hs) as Hc.
  unfold on_app_engine. destruct (in_world _ s) as [s1 [x|e]]; by apply Hc; vm_compute.
Qed.
Lemma stop_keeps now captured_at : preserves IS (emergency_stop now captured_at).
Proof.
  unfold emergency_stop. apply preserves_bind; [apply cancel_resting_keeps|]. intros cancelled.
  apply preserves_bind; [apply venue_app_keeps|]. intros _. apply preserves_bind; [apply record_kill_keeps|]. intros _.
  apply preserves_bind; [by intros s Hs|]. intros _. apply preserves_bind; [apply cheap_keeps|]. intros x.
  apply preserves_bind; [by intros s Hs|]. by intros _ s Hs.
Qed.

Ltac app_step := repeat first
  [ apply reads_app_keep | apply health_app_keeps | apply run_cycle_keeps | apply stop_keeps
  | apply preserves_bind; [|intros ?] | by intros ? ? | match goal with |- preserves _ (match ?x with _ => _ end) => destruct x end ].
Lemma request_keeps t now r : preserves IS (handle_request fromisoformat t now r).
Proof. unfold handle_request, read_route, cycle_route, stop_route. app_step. Qed.
Lemma command_keeps t now text authorized : preserves IS (handle_command fromisoformat t now text authorized).
Proof. unfold handle_command. cbv zeta. app_step. Qed.
Lemma update_keeps t now u : preserves IS (_dispatch fromisoformat repr t now u).
Proof. unfold _dispatch. cbv zeta. app_step. apply command_keeps. Qed.
Lemma bot_round_keeps t now us : preserves IS (bot_round fromisoformat repr t now us).
Proof.
  induction us as [|u us IH]; intros s Hs; [done|]. cbn [bot_round]. pose proof (update_keeps t now u s Hs) as Hd.
  destruct (_dispatch _ _ _ _ u s) as [s1 [x|e]]; [by apply IH|done].
Qed.
End keep.

(** ** The emergency stop *)

Definition adapter_of s : A := w_adapter (en_orders (ap_world s).1).
Definition store_of s : L := en_store (ap_world s).1.

(** The machine is the one rebuilt from the log. *)
Definition machine_good (w : W) : Prop :=
  ExecStateMachineFacts.esm_ok (en_store w.1, w_esm (en_orders w.1)) /\ ESM.esm_machine_id (w_esm (en_orders w.1)) = default_id.

Lemma machine_anchor (w : W) : machine_good w -> forall w', machine_run (en_store w.1, w_esm (en_orders w.1)) w'.1 w'.2 (en_store w'.1) ->
  machine_good w' /\ rtc ExecStateMachineFacts.esm_step (en_store w.1, w_esm (en_orders w.1)) (en_store w'.1, w_esm (en_orders w'.1)).
Proof.
  intros [Hok Hid] w' [_ Hr]. pose proof (ExecStateMachineFacts.esm_steps_ok _ _ Hr Hok) as (Hok' & Hid' & _).
  split; [|done]. split; [done|]. by rewrite Hid' in Hid |- *.
Qed.
Lemma good_keeper (w : W) : machine_good w ->
  keeper False (fun w' => machine_run (en_store w.1, w_esm (en_orders w.1)) w'.1 w'.2 (en_store w'.1)).
Proof. intros [Hok Hid]. by apply machine_keeper. Qed.
Lemma good_start (w : W) : machine_good w -> machine_run (en_store w.1, w_esm (en_orders w.1)) w.1 w.2 (en_store w.1).
Proof. intros [[Hl Hr] Hid]. by split. Qed.

Lemma good_log (w : W) : machine_good w -> log_ok (en_store w.1).
Proof. by intros [[Hl _] _]. Qed.

(** Whatever a keeper's operations do, the machine stays the log's. *)
Lemma keeps_good {X} (m : M W X) : (forall I, keeper False I -> preserves I m) -> preserves machine_good m.
Proof.
  intros Hm w Hw. pose proof (Hm _ (good_keeper w Hw) w (good_start w Hw)) as Hr. by apply (machine_anchor w Hw) in Hr as [Hg _].
Qed.

Lemma cancel_resting_good s : machine_good (ap_world s) -> machine_good (ap_world (cancel_resting s).1).
Proof.
  intros Hs. unfold cancel_resting. destruct (_ && _); [|done].
  pose proof (keeps_good (in_engine (on_order_manager (cancel_all None))) (fun I K => kp_cancel_all False I K None) _ Hs) as Hc.
  unfold on_app_engine, in_world, zoom. by destruct (in_engine _ (ap_world s)) as [w1 [x|e]].
Qed.

(** A call on the adapter changes nothing else. *)
Lemma venue_frame {X} (m : M A X) s : let s' := (on_app_engine (on_venue m) s).1 in
  adapter_of s' = (m (adapter_of s)).1 /\ w_esm (en_orders (ap_world s').1) = w_esm (en_orders (ap_world s).1) /\
  store_of s' = store_of s /\ ap_last_error s' = ap_last_error s /\ ap_emergency_stopped s' = ap_emergency_stopped s /\
  (on_app_engine (on_venue m) s).2 = (m (adapter_of s)).2.
Proof.
  unfold on_app_engine, in_world, in_engine, on_venue, on_order_manager, on_adapter, zoom, adapter_of. cbn.
  by destruct (m _) as [a r].
Qed.

Lemma cheap_frame now s : let s' := (_cheap_snapshot now s).1 in
  adapter_of s' = (ve_health (adapter_of s)).1 /\ w_esm (en_orders (ap_world s').1) = w_esm (en_orders (ap_world s).1) /\
  store_of s' = store_of s /\ ap_last_error s' = ap_last_error s /\ ap_emergency_stopped s' = ap_emergency_stopped s /\
  is_ok (_cheap_snapshot now s).2 = is_ok (ve_health (adapter_of s)).2.
Proof.
  cbv zeta. unfold _cheap_snapshot.
  assert (Hp : on_app_engine (on_portfolio_manager PortfolioManager.get_snapshot) s = (set_world (ap_world s) s, Ok (PortfolioManager._snapshot (en_portfolio (ap_world s).1)))).
  { unfold on_app_engine, in_world, in_engine, on_portfolio_manager, PortfolioManager.get_snapshot, zoom. rewrite run_get. cbn. by destruct (ap_world s) as [[[] ? ? ? ?] ?]. }
  rewrite run_bind Hp run_bind. pose proof (venue_frame ve_health (set_world (ap_world s) s)) as Hv. cbv zeta in Hv.
  change (adapter_of (set_world (ap_world s) s)) with (adapter_of s) in Hv.
  destruct (on_app_engine (on_venue ve_health) _) as [s1 [h|e]]; cbn [fst snd] in *; destruct Hv as (? & ? & ? & ? & ? & <-); done.
Qed.

(** The kill is recorded unless it already was. *)
Lemma kill_legal st : stopped_state st = false -> exists b, ESM.TRANSITION_TABLE st ESM.Trigger.EMERGENCY_KILL_TRIGGERED = Some b /\ stopped_state b = true.
Proof. destruct st; try done; intros _; eexists; by split; vm_compute. Qed.

Definition kill_key (now : string) : string := ESM._namespaced_key default_id (emergency_stop_id now).

Lemma esm_frame {X} (m : M (L * ESM.ExecutionStateMachine) X) s : let s' := (on_app_engine (on_order_manager (on_esm m)) s).1 in
  let p := m (store_of s, w_esm (en_orders (ap_world s).1)) in
  adapter_of s' = adapter_of s /\ ap_emergency_stopped s' = ap_emergency_stopped s /\ w_esm (en_orders (ap_world s').1) = p.1.2 /\
  (on_app_engine (on_order_manager (on_esm m)) s).2 = p.2.
Proof.
  unfold on_app_engine, in_world, in_engine, on_order_manager, on_esm, zoom, adapter_of, store_of, en_store. cbn.
  by destruct (m _) as [[l e] r].
Qed.

Lemma record_kill_spec now s : machine_good (ap_world s) -> let s' := (record_kill now s).1 in
  (record_kill now s).2 = Ok tt /\ adapter_of s' = adapter_of s /\ ap_emergency_stopped s' = ap_emergency_stopped s /\
  (stopped_state (esm_state (ap_world s').1) = true \/ (exists e, ap_last_error s' = Some (KillFailed e)) \/
   find_event (kill_key now) (log_events (store_of s)) <> None).
Proof.
  intros [[Hl Hr] Hid]. cbv zeta. unfold record_kill. destruct (stopped_state _) eqn:Hst; [by auto|].
  set (m := ESM.transition _ _ _). pose proof (esm_frame m s) as Hf. cbv zeta in Hf.
  pose proof (ExecStateMachineFacts.transition_spec ESM.Trigger.EMERGENCY_KILL_TRIGGERED (emergency_stop_id now)
    [("source", JStr "app_runtime"); ("reason", JStr "operator_emergency_stop")] (store_of s, w_esm (en_orders (ap_world s).1)) Hl) as Hs.
  fold m in Hs. destruct (kill_legal _ Hst) as (b & Hb & Hbs). clearbody m. unfold esm_state in Hb |- *.
  destruct (on_app_engine _ s) as [s1 r1]. cbn [fst snd] in Hf. destruct Hf as (Ha & He & Hm & ->).
  destruct (m _) as [p r]. cbn [fst snd] in *.
  destruct Hs as [?|e ? ? Hf|? ? ? Ht|b' store x ? ? ? ? ? ?|b' store e ? ? ? Ht Ho Hk ?]; cbn [fst snd] in *.
  - split_and!; try done. right; left. by eexists.
  - destruct (if ESM._is_own_event _ _ then _ else _); split_and!; try done; right; right; unfold kill_key; rewrite -Hid Hf; done.
  - congruence.
  - split_and!; try done. right; left. by eexists.
  - rewrite Ht in Hb. injection Hb as ->. destruct (ESM._result_from_event _ _ _); split_and!; try done; left; by rewrite Hm.
Qed.

(** The end of an emergency stop, whether its snapshot is taken or not. *)
Lemma stop_tail captured_at (cancelled : list OrderSnapshot) s s' r :
  (modify set_stopped;; snapshot ← _cheap_snapshot captured_at; modify (set_snapshot snapshot);; mret cancelled) s = (s', r) ->
  adapter_of s' = (ve_health (adapter_of s)).1 /\ esm_state (ap_world s').1 = esm_state (ap_world s).1 /\
  ap_last_error s' = ap_last_error s /\ ap_emergency_stopped s' = true /\ (r = Ok cancelled \/ is_ok (ve_health (adapter_of s)).2 = false).
Proof.
  rewrite run_bind. cbn [modify]. rewrite run_bind. pose proof (cheap_frame captured_at (set_stopped s)) as Hf. cbv zeta in Hf.
  change (adapter_of (set_stopped s)) with (adapter_of s) in Hf. unfold esm_state.
  destruct (_cheap_snapshot captured_at (set_stopped s)) as [s4 [x|e]]; cbn [fst snd] in Hf; destruct Hf as (Ha & Hm & _ & Hle & Hst & Hh);
    intros [= <- <-]; (split_and!; [exact Ha|by cbn; rewrite Hm|exact Hle|exact Hst|]); [by left|by right].
Qed.

(** C4: safety. An emergency stop revokes whatever else fails. Every signing
    reference of the boundary the adapter signs with, as the cancellations left
    it, signs nothing any more, the wallet is revoked, and no cycle starts in
    this process; the cancellations were sent before that, on the first stop of
    a started engine only. The kill is in the execution state, so survives the
    process, unless its append failed, which the last error says, or an event
    of the same instant was already recorded. The call raises only if reading
    the adapter's health does, after all of this. *)
Theorem emergency_stop_revokes now captured_at s s' r :
  machine_good (ap_world s) -> emergency_stop now captured_at s = (s', r) ->
  exists s1 cancelled,
    cancel_resting s = (s1, Ok cancelled) /\
    (cancelled <> [] -> cycle_refused s = false /\ en_started (ap_world s).1 = true /\
       (on_app_engine (on_order_manager (cancel_all None)) s).2 = Ok cancelled) /\
    (forall ref purpose message, ref ∈ SecretsBoundary.sb_expected_refs (sg_boundary (adapter_of s1)) ->
       is_ok (SecretsBoundary.sign (sg_boundary (adapter_of s')) ref purpose message) = false) /\
    sg_wallet_active (adapter_of s') = false /\
    ap_emergency_stopped s' = true /\
    (stopped_state (esm_state (ap_world s').1) = true \/ (exists e, ap_last_error s' = Some (KillFailed e)) \/
     find_event (kill_key now) (log_events (store_of s1)) <> None) /\
    (r = Ok cancelled \/ is_ok (ve_health (revoke_signing (adapter_of s1))).2 = false).
Proof.
  intros Hg. pose proof (cancel_resting_good s Hg) as Hg1. unfold emergency_stop. rewrite run_bind.
  assert (Hc : exists s1 cancelled, cancel_resting s = (s1, Ok cancelled) /\
    (cancelled <> [] -> cycle_refused s = false /\ en_started (ap_world s).1 = true /\
       (on_app_engine (on_order_manager (cancel_all None)) s).2 = Ok cancelled)).
  { unfold cancel_resting. destruct (cycle_refused s); [by exists s, []|]. cbn [negb andb].
    destruct (en_started _); [|by exists s, []]. destruct (on_app_engine _ s) as [s1 [c|e]]; [by exists s1, c|by eexists _, []]. }
  destruct Hc as (s1 & cancelled & Hc & Hcancel). rewrite Hc in Hg1 |- *. cbn [fst] in Hg1. rewrite run_bind.
  pose proof (venue_frame (modify revoke_signing) s1) as Hv. pose proof (keeps_good (in_engine (on_venue (modify revoke_signing)))
    (fun I K => kp_venue False I K _) _ Hg1) as Hg2. cbv zeta in Hv. unfold on_app_engine at 1, in_world at 1, zoom at 1.
  unfold on_app_engine, in_world, zoom in Hv. destruct (in_engine (on_venue (modify revoke_signing)) (ap_world s1)) as [w2 r2].
  cbn [fst snd] in *. set (s2 := set_world w2 s1) in *. destruct Hv as (Ha2 & He2 & Hl2 & _ & _ & ->). cbn [modify snd fst] in *.
  rewrite run_bind. pose proof (record_kill_spec now s2 Hg2) as Hk. cbv zeta in Hk.
  destruct (record_kill now s2) as [s3 r3]. cbn [fst snd] in Hk. destruct Hk as (-> & Ha3 & _ & Hk).
  intros (Ha4 & Hm4 & Hle4 & Hst4 & Hr)%stop_tail. exists s1, cancelled.
  assert (Hout : adapter_of s3 = revoke_signing (adapter_of s1)) by by rewrite Ha3 Ha2. rewrite Hout in Ha4 Hr.
  destruct (sg_health (revoke_signing (adapter_of s1))) as [Hb Hw]. rewrite Ha4 Hb Hw Hle4 Hm4 -Hl2. split_and!; try done.
  - intros ref purpose message Hin. unfold revoke_signing. rewrite sg_wallet_boundary sg_set_get.
    by apply SecretsBoundaryFacts.sign_revoked, SecretsBoundaryFacts.revoke_all_revokes.
  - apply sg_wallet_revoked.
Qed.

(** ** Runs of the application *)

(** A process, or the log between two of them. *)
Inductive system :=
  | Running (s : S)
  | Down (l : L).

(** Every call a process answers, whatever it raises; what the venue does on its
    own; a process that ends, at whatever point between two calls, whose log is
    read again; and a start over that log, or one that fails. *)
Inductive app_step : system -> system -> Prop :=
  | st_worker t s : app_step (Running s) (Running (worker_turn fromisoformat t s).1)
  | st_request t now q s : app_step (Running s) (Running (handle_request fromisoformat t now q s).1)
  | st_telegram t now us s : app_step (Running s) (Running (bot_round fromisoformat repr t now us s).1)
  | st_venue {X} (m : M A X) s : app_step (Running s) (Running (on_app_engine (on_venue m) s).1)
  | st_end s l : log_ok l -> log_events l = log_events (store_of s) -> app_step (Running s) (Down l)
  | st_start settings o strategies rules now s l : ou_store o = Ok l ->
      create make_adapter settings o strategies rules now = Started s -> app_step (Down l) (Running s)
  | st_failed settings o strategies rules now e l l' l'' : ou_store o = Ok l ->
      create make_adapter settings o strategies rules now = ClosedAgain e l' \/
      create make_adapter settings o strategies rules now = LeftOpen e l' ->
      log_ok l'' -> log_events l'' = log_events l' -> app_step (Down l) (Down l'').

(** A process started over some log with intact events. *)
Definition reachable (s : S) : Prop := exists l, log_ok l /\ rtc app_step (Down l) (Running s).

Definition machine_of l (m : ESM.ExecutionStateMachine) : Prop := log_ok l /\ ESM.esm_init l default_id = Ok m.
Definition stopped_machine (m : ESM.ExecutionStateMachine) : bool := stopped_state (ESM.esm_current_state m).

Lemma good_machine (w : W) : machine_good w -> machine_of (en_store w.1) (w_esm (en_orders w.1)).
Proof.
  intros [Hok Hid]. split; [apply Hok|]. pose proof (ExecStateMachineFacts.init_of_ok _ _ Hok) as Hi. cbn [snd] in Hi. rewrite Hid in Hi. by apply Hi.
Qed.
Lemma machine_of_same l l' m : machine_of l m -> log_ok l' -> log_events l' = log_events l -> machine_of l' m.
Proof. intros [Hl Hm] Hl' He. split; [done|]. by rewrite (esm_init_same _ _ _ Hl Hl' He). Qed.

(** [EMERGENCY_KILL] leads to [STOPPED] only. *)
Lemma stopped_final st t st' : stopped_state st = true -> ESM.TRANSITION_TABLE st t = Some st' -> stopped_state st' = true.
Proof. destruct st; try done; destruct t; vm_compute; intros _ [= <-]; done. Qed.
Lemma stopped_steps p p' : rtc ExecStateMachineFacts.esm_step p p' -> ExecStateMachineFacts.esm_ok p ->
  stopped_machine p.2 = true -> stopped_machine p'.2 = true.
Proof.
  induction 1 as [|p p1 p2 Hs _ IH]; [done|]. intros Hok Hp. pose proof (ExecStateMachineFacts.esm_step_ok _ _ Hs Hok) as (Hok1 & _).
  apply IH; [done|]. destruct Hs as [t rid ctx w Hc|store store' self es Hl He Ho]; [|done].
  destruct (ExecStateMachineFacts.transition_spec t rid ctx w (proj1 Hok)); try done. by eapply stopped_final.
Qed.

(** What holds at every point of a run; with [halt], after a recorded stop. *)
Definition system_inv (halt : Prop) (x : system) : Prop :=
  match x with
  | Running s => machine_good (ap_world s) /\ Forall (fun u => blank (sym_value u) = false) (ac_universe (ap_config s)) /\
      (halt -> stopped_machine (w_esm (en_orders (ap_world s).1)) = true)
  | Down l => log_ok l /\ (halt -> exists m, machine_of l m /\ stopped_machine m = true)
  end.

Lemma call_inv halt {X} (m : M S X) s :
  (forall I, keeper False I -> preserves (fun s => I (ap_world s) /\ Forall (fun u => blank (sym_value u) = false) (ac_universe (ap_config s))) m) ->
  system_inv halt (Running s) -> system_inv halt (Running (m s).1).
Proof.
  intros Hm (Hg & Hu & Hh). destruct (Hm _ (good_keeper _ Hg) s (conj (good_start _ Hg) Hu)) as [Hr Hu'].
  destruct (machine_anchor _ Hg _ Hr) as [Hg' Hs]. split_and!; [done|done|]. intros Ht. by apply (stopped_steps _ _ Hs (proj1 Hg)), Hh.
Qed.

Lemma symbols_nonblank names us : mapM mk_Symbol names = Ok us -> Forall (fun u => blank (sym_value u) = false) us.
Proof.
  revert us. induction names as [|n names IH]; intros us; [by intros <-%(inj Ok)|]. cbn [mapM].
  destruct (mk_Symbol n) as [u|] eqn:En; [|done]. cbn [mbind result_bind]. fold (mapM mk_Symbol names).
  destruct (mapM mk_Symbol names) as [us'|]; [|done]. cbn [mbind result_bind]. intros <-%(inj Ok). constructor; [|by apply IH].
  revert En. unfold mk_Symbol. destruct (blank n) eqn:Hb; [done|]. by intros <-%(inj Ok).
Qed.

Lemma build_engine_inv config deployment limits now l env make (r : result E * bool) :
  build_engine config deployment limits now (Ok l) env make = r ->
  match r with (Ok e, _) => exists adapter, wire limits now l (Ok adapter) = Ok e | _ => True end.
Proof.
  unfold build_engine. destruct (check_config _ _) as [live|]; [|by intros <-]. destruct (engine_boundary _ _ _) as [b|]; [|by intros <-].
  cbn [mbind result_bind]. destruct (wire limits now l (make live b l)) as [e|] eqn:E; intros <-; [|done].
  destruct (make live b l) as [a|] eqn:Em; [by exists a|]. unfold wire in E. by destruct (ESM.esm_init _ _).
Qed.

(** What the builder leaves of the log: the store's own, with the engine wired
    over it if it was built. *)
Lemma builder_inv settings o l : ou_store o = Ok l ->
  match build_engine_from_settings make_adapter settings o with
  | Started b => (exists limits adapter, wire limits (ou_now o) l (Ok adapter) = Ok (bu_engine b)) /\
      Forall (fun u => blank (sym_value u) = false) (bu_universe b)
  | NotOpened _ => True
  | ClosedAgain _ l' | LeftOpen _ l' => l' = l
  end.
Proof.
  intros Ho. unfold build_engine_from_settings. destruct (load o) as [config|]; [|done]. cbn [or_not_opened].
  destruct (ou_directory o) as [u|]; [|done]. cbn [or_not_opened]. destruct (_risk_limits settings) as [limits|]; [|done].
  cbn [or_not_opened]. rewrite Ho.
  destruct (build_engine _ _ _ _ _ _ _) as [[e|x] closed] eqn:Eb; [|by destruct closed]. apply build_engine_inv in Eb as [adapter Hw].
  pose proof (wire_inv _ _ _ _ _ Hw) as (_ & _ & _ & Hst & _).
  destruct (mapM mk_Symbol _) as [us|] eqn:Eu; [|done]. destruct (if String.eqb _ _ then _ else _) as [rules|]; [|done].
  destruct (Config.active_profile_params _) as [profile|]; [|done]. split; [by exists limits, adapter|by eapply symbols_nonblank].
Qed.

Lemma wired_good limits now l adapter (e : E) a : log_ok l -> wire limits now l (Ok adapter) = Ok e -> machine_good (e, a).
Proof.
  intros Hl Hw. apply wire_inv in Hw as (Hm & _ & _ & Hst & _). apply ExecStateMachineFacts.init_ok in Hm as [Hok Hid]; [|done].
  split; cbn; by rewrite ?Hst.
Qed.

Lemma seed_keeps settings (e : E) a : forall I, keeper False I -> I (e, a) -> I ((seed settings e).1, a).
Proof.
  intros I K Hw. unfold seed. destruct (dltb _ _); [|done].
  set (m := on_portfolio_manager (PortfolioManager.deposit default_id (as_initial_deposit settings) initial_deposit_id)).
  assert (Hm : I (in_engine m (e, a)).1).
  { apply (kp_portfolio False I K); [|done]. intros J HJ. by apply deposit_log. }
  rewrite run_bind. unfold in_engine, zoom in Hm. cbn [fst snd] in Hm. by destruct (m e) as [e' [x|y]].
Qed.

Lemma seed_anchor settings (e : E) a halt : machine_good (e, a) -> (halt -> stopped_machine (w_esm (en_orders e)) = true) ->
  machine_good ((seed settings e).1, a) /\ (halt -> stopped_machine (w_esm (en_orders (seed settings e).1)) = true).
Proof.
  intros Hg Hh. pose proof (seed_keeps settings e a _ (good_keeper _ Hg) (good_start _ Hg)) as Hr.
  destruct (machine_anchor _ Hg _ Hr) as [Hg' Hs]. split; [done|]. intros Ht. by apply (stopped_steps _ _ Hs (proj1 Hg)), Hh.
Qed.

(** The outcomes of a start over a log. *)
Lemma create_inv settings o strategies rules now l halt : ou_store o = Ok l -> system_inv halt (Down l) ->
  match create make_adapter settings o strategies rules now with
  | Started s => system_inv halt (Running s) /\ ap_emergency_stopped s = stopped_state (esm_state (ap_world s).1)
  | NotOpened _ => True
  | ClosedAgain _ l' | LeftOpen _ l' => forall l'', log_ok l'' -> log_events l'' = log_events l' -> system_inv halt (Down l'')
  end.
Proof.
  intros Ho [Hl Hh]. unfold create. pose proof (builder_inv settings o l Ho) as Hb.
  assert (Hsame : forall l', log_ok l' -> log_events l' = log_events l -> system_inv halt (Down l')).
  { intros l' Hl' He. split; [done|]. intros (m & Hm & Hs)%Hh. exists m. split; [by eapply machine_of_same|done]. }
  destruct (build_engine_from_settings make_adapter settings o) as [b|e|e l'|e l']; [|done|by subst..].
  destruct Hb as [(limits & adapter & Hw) Hu]. pose proof (wired_good _ _ _ _ _ ac_empty Hl Hw) as Hg.
  assert (Hst : halt -> stopped_machine (w_esm (en_orders (bu_engine b))) = true).
  { intros (m & [_ Hm] & Hs)%Hh. apply wire_inv in Hw as (Hm' & _). rewrite Hm in Hm'. by injection Hm' as <-. }
  destruct (seed_anchor settings _ _ halt Hg Hst) as [Hg' Hst'].
  assert (Hdown : forall l'', log_ok l'' -> log_events l'' = log_events (en_store (seed settings (bu_engine b)).1) -> system_inv halt (Down l'')).
  { intros l'' Hl'' He. split; [done|]. intros Ht. eexists. split; [|by apply Hst']. eapply machine_of_same; [exact (good_machine _ Hg')|done|done]. }
  destruct (seed settings (bu_engine b)) as [e [u|x]]; cbn [fst] in *; [|exact Hdown].
  destruct (ac_init (en_store e)) as [a|x]; [|exact Hdown]. split; [|done]. by split_and!.
Qed.

Lemma system_step_inv halt x y : app_step x y -> system_inv halt x -> system_inv halt y.
Proof.
  intros [t s|t now q s|t now us s|X m s|s l Hl He|settings o strategies rules now s l Ho Hc|settings o strategies rules now e l l' l'' Ho Hc Hl He] Hx.
  - apply (call_inv halt (worker_turn fromisoformat t)); [|done]. intros I K s0 Hs0. by apply run_cycle_keeps.
  - apply (call_inv halt (handle_request fromisoformat t now q)); [|done]. intros I K. by apply request_keeps.
  - apply (call_inv halt (bot_round fromisoformat repr t now us)); [|done]. intros I K. by apply bot_round_keeps.
  - apply (call_inv halt (on_app_engine (on_venue m))); [|done]. intros I K. by apply venue_app_keeps.
  - destruct Hx as (Hg & _ & Hh). split; [done|]. intros Ht. eexists. split; [|by apply Hh]. by eapply machine_of_same; [exact (good_machine _ Hg)|..].
  - pose proof (create_inv settings o strategies rules now l halt Ho Hx) as Hi. rewrite Hc in Hi. by destruct Hi.
  - pose proof (create_inv settings o strategies rules now l halt Ho Hx) as Hi. destruct Hc as [Hc|Hc]; rewrite Hc in Hi; by apply Hi.
Qed.
Lemma system_run_inv halt x y : rtc app_step x y -> system_inv halt x -> system_inv halt y.
Proof. induction 1 as [|x x1 y Hs _ IH]; [done|]. intros Hx. by eapply IH, system_step_inv. Qed.
Lemma reachable_inv s : reachable s -> system_inv False (Running s).
Proof. intros (l & Hl & Hr). by apply (system_run_inv False _ _ Hr). Qed.

(** C3: safety. A recorded emergency stop is final. Let an emergency stop of any
    process, started over any intact log and run in any way, leave the execution
    state stopped. After it, whatever the worker, requests and messages ask for,
    whatever the venue does, and however often the process ends and is started
    again over its log, with whatever settings, environment and adapter: every
    cycle is refused with [EmergencyStopActive] and changes nothing at all, and
    every process that starts knows it from its first moment. *)
Theorem emergency_stop_is_final now captured_at s y :
  reachable s -> stopped_state (esm_state (ap_world (emergency_stop now captured_at s).1).1) = true ->
  rtc app_step (Running (emergency_stop now captured_at s).1) y ->
  match y with
  | Running s' => forall t, run_one_cycle fromisoformat t s' = (s', Err EmergencyStopActive)
  | Down l => forall settings o strategies rules at_ s', ou_store o = Ok l ->
      create make_adapter settings o strategies rules at_ = Started s' ->
      ap_emergency_stopped s' = true /\ forall t, run_one_cycle fromisoformat t s' = (s', Err EmergencyStopActive)
  end.
Proof.
  intros Hs%reachable_inv Hst Hr.
  assert (Hi : system_inv True (Running (emergency_stop now captured_at s).1)).
  { destruct (call_inv False (emergency_stop now captured_at) s) as (Hg & Hu & _); [|done|by split_and!].
    intros I K. by apply stop_keeps. }
  apply (system_run_inv True _ _ Hr) in Hi.
  assert (Hrefuse : forall s', system_inv True (Running s') -> forall t, run_one_cycle fromisoformat t s' = (s', Err EmergencyStopActive)).
  { intros s' (_ & _ & Hh) t. unfold run_one_cycle, cycle_refused, esm_state. rewrite (Hh I : stopped_state _ = true). by rewrite orb_true_r. }
  destruct y as [s'|l]; [by apply Hrefuse|]. intros settings o strategies rules at_ s' Ho Hc.
  pose proof (create_inv settings o strategies rules at_ l True Ho Hi) as Hx. rewrite Hc in Hx. destruct Hx as [Hx He].
  split; [|by apply Hrefuse]. rewrite He. destruct Hx as (_ & _ & Hh). by apply Hh.
Qed.

(** ** Who may ask *)

(** The request carries the configured key. *)
Definition carries_key (settings : AppSettings) (q : Request) : Prop := exists key,
  as_api_key settings = Some key /\ blank key = false /\
  (rq_x_api_key q = Some key \/ rq_x_api_key q = None /\ exists a, rq_authorization q = Some a /\ bearer a = Some key).
(** The update comes from the configured chat, or none is configured. *)
Definition from_chat (settings : AppSettings) (update : json) : Prop :=
  match as_telegram_chat_id settings with
  | None => True
  | Some c => exists message chat id, (get_ "message" update = Ok message \/ get_ "edited_message" update = Ok message) /\
      get_or (JObj []) "chat" message = Ok chat /\ get_or (JStr "") "id" chat = Ok id /\ text_of repr id = c
  end.

(** Everything but the adapter is as it was, and the adapter at most gave its health. *)
Definition only_looked s s' : Prop :=
  s' = s \/ s' = (on_app_engine (on_venue (A := A) ve_health) s).1.

Lemma key_required settings q : require_api_key settings (rq_x_api_key q) (rq_authorization q) = Ok tt -> carries_key settings q.
Proof.
  unfold require_api_key, _configured_key. destruct (as_api_key settings) as [key|] eqn:Hk; [|done]. destruct (blank key) eqn:Hb; [done|].
  destruct key as [|c key0] eqn:Ek; [done|]. rewrite -Ek in Hk Hb |- *. 
  assert (Hd : forall p, (same ← compare_digest p key; if same : bool then Ok tt else Err Unauthorized) = Ok tt -> p = key).
  { intros p. unfold compare_digest. destruct (_ && _); [|done]. cbn [mbind result_bind]. by destruct (String.eqb_spec p key). }
  destruct (rq_x_api_key q) as [p|] eqn:Hx.
  - intros ->%Hd. exists key. split_and!; [done|done|by left].
  - destruct (rq_authorization q) as [a|] eqn:Ha; [|done]. cbn [mbind option_bind]. destruct (bearer a) as [p|] eqn:Hp; [|done].
    intros ->%Hd. exists key. split_and!; [done|done|]. right. split; [done|]. by exists a.
Qed.

Lemma set_world_same s : set_world (ap_world s) s = s.
Proof. by destruct s. Qed.
Lemma cheap_looks now s : only_looked s (_cheap_snapshot now s).1.
Proof.
  right. unfold _cheap_snapshot.
  assert (Hp : on_app_engine (on_portfolio_manager PortfolioManager.get_snapshot) s = (s, Ok (PortfolioManager._snapshot (en_portfolio (ap_world s).1)))).
  { unfold on_app_engine, in_world, in_engine, on_portfolio_manager, PortfolioManager.get_snapshot, zoom. rewrite run_get. cbn.
    by destruct s as [? [[[] ? ? ? ?] ?] ? ? ? ? ? ?]. }
  rewrite run_bind Hp run_bind. by destruct (on_app_engine (on_venue ve_health) s) as [s1 [h|e]].
Qed.
Lemma reads_look now s : only_looked s (snapshot_for_reads now s).1.
Proof. unfold snapshot_for_reads. rewrite run_get. destruct (ap_latest_snapshot s); [by left|apply cheap_looks]. Qed.
Lemma health_looks s : only_looked s (health_dict s).1.
Proof. right. unfold health_dict. rewrite run_bind. by destruct (on_app_engine (on_venue ve_health) s) as [s1 [h|e]]. Qed.
Lemma looked_bind {X Y} (m : M S X) (f : X -> M S Y) s : only_looked s (m s).1 -> (forall x s', (f x s').1 = s') -> only_looked s ((m ≫= f) s).1.
Proof. intros Hm Hf. rewrite run_bind. destruct (m s) as [s1 [x|e]]; [by rewrite Hf|done]. Qed.

(** C35: safety. Nobody without the credentials controls the engine. A request
    that does not carry the configured, non-blank key, as [X-API-Key] or as a
    bearer token, starts no cycle and no emergency stop: both routes answer with
    an error and leave the whole state as it is, also when no key is configured;
    the other routes at most read the adapter's health. An update that is not
    from the configured chat changes nothing and gets no reply. *)
Theorem control_needs_credentials t now s :
  let settings := ac_settings (ap_config s) in
  (forall q, ~ carries_key settings q -> only_looked s (handle_request fromisoformat t now q s).1 /\
     (rq_route q ∈ [PostCycleRun; PostEmergencyStop] ->
        exists e, e ∈ [ServiceUnavailable; Unauthorized; TypeError] /\ handle_request fromisoformat t now q s = (s, Err e))) /\
  (forall u, ~ from_chat settings u -> (_dispatch fromisoformat repr t now u s).1 = s /\
     forall r, (_dispatch fromisoformat repr t now u s).2 = Ok r -> r = None).
Proof.
  cbv zeta. split.
  - intros q Hq.
    assert (He : exists e, e ∈ [ServiceUnavailable; Unauthorized; TypeError] /\
      require_api_key (ac_settings (ap_config s)) (rq_x_api_key q) (rq_authorization q) = Err e).
    { destruct (require_api_key _ _ _) as [[]|e] eqn:E; [by destruct (Hq (key_required _ _ E))|]. exists e. split; [|done].
      revert E. unfold require_api_key, compare_digest. destruct (_configured_key _) as [[|? ?]|]; try (intros [= <-]; set_solver).
      cbv zeta. destruct (match rq_x_api_key q with Some key => _ | None => _ end) as [p|]; [|intros [= <-]; set_solver].
      destruct (_ && _); cbn [mbind result_bind]; [destruct (String.eqb _ _); [done|]|]; intros [= <-]; set_solver. }
    destruct He as (e & Hin & He). unfold handle_request.
    destruct (rq_route q); cbn [read_route];
      (split; [|intros Hr; first [exfalso; revert Hr; clear; set_solver | exists e; split; [done|]; by rewrite run_get run_bind He]]).
    + apply looked_bind; [apply health_looks|done].
    + apply looked_bind; [apply reads_look|done].
    + apply looked_bind; [apply reads_look|done].
    + apply looked_bind; [apply reads_look|done].
    + apply looked_bind; [apply reads_look|done].
    + left. by rewrite run_get run_bind He.
    + left. by rewrite run_get run_bind He.
  - intros u Hu. unfold _dispatch. rewrite run_get. cbv zeta. unfold from_chat in Hu.
    destruct (as_telegram_chat_id _) as [c|]; [|done]. rewrite run_bind. cbn [lift].
    destruct (m ← get_ "message" u; _) as [message|e] eqn:Em; [|done].
    assert (Hm : get_ "message" u = Ok message \/ get_ "edited_message" u = Ok message).
    { destruct (get_ "message" u) as [m|]; [|done]. cbn [mbind result_bind] in Em. destruct (truthy m); [injection Em as <-|]; auto. }
    destruct (negb (truthy message)); [by split; [|intros r [= <-]]|]. rewrite run_bind. cbn [lift].
    destruct (get_or (JStr "") "text" message) as [text|e]; [|done]. rewrite run_bind. cbn [lift].
    destruct (get_or (JObj []) "chat" message) as [chat|e] eqn:Ec; [|done]. cbn [mbind result_bind].
    destruct (get_or (JStr "") "id" chat) as [id|e] eqn:Ei; [|done]. cbn [mbind result_bind].
    destruct (String.eqb_spec (text_of repr id) c) as [Heq|Hne]; [|by split; [|intros r [= <-]]].
    destruct Hu. by exists message, chat, id.
Qed.
End app.
