(* ===== verification/AppRuns.v ===== *)
(** * A concrete process

    The application started over an empty log with the paper configuration, a
    cycle that buys, an emergency stop, and a second process over the same log;
    and what its observers see when things fail. *)

From Stdlib Require Import ssreflect ZArith Lia Ascii String QArith.
From stdpp Require Import base strings numbers gmap sets list relations.
From S2P Require Import Prelude PyText PyDict PyJson PyJsonFacts PyDecimal PyFloat PyLines EventStore EventLog.
From S2P Require ExecStateMachine SecretsBoundary Config ConfigSpec MockExchange.
From S2P Require Import ExchangeModels ExchangeAdapter OrderStates OrderManager RiskManager RiskManagerSpec Construction Quantization.
From S2P Require Import Engine TradingCycle Accounting EngineRestart Startup App AppSpec.
#[local] Open Scope Z_scope.

Notation SampleVenue := (ExchangeAdapter MockExchange.MockExchange).
Notation Process := (AppState MemLog SampleVenue).

Definition process_env : environ := [("TURTLE_SECRET_HYPERLIQUID_SIGNING_KEY_V1", "s3cret")].
Definition process_settings : AppSettings :=
  {| as_host := "0.0.0.0"; as_port := 8000; as_engine_config_path := "deploy/engine.paper.toml"; as_event_store_path := "data/events.log";
     as_worker_enabled := true; as_cycle_interval_seconds := 60; as_maintenance_margin_rate := Dec 5 (-3); as_target_leverage := d1;
     as_initial_deposit := dint 1000; as_risk_max_leverage := dint 10; as_risk_min_liquidation_buffer_pct := Dec 1 (-1);
     as_risk_max_funding_rate_abs := Dec 5 (-2); as_risk_max_correlated_positions := 3; as_risk_max_stale_data_seconds := 150;
     as_log_level := "INFO"; as_log_format := "json"; as_metrics_enabled := true; as_dashboard_enabled := true; as_api_key := Some "k";
     as_telegram_enabled := false; as_telegram_bot_token := None; as_telegram_chat_id := Some "7" |}.

Example process_settings_ex :
  from_env [("PORTFOLIO_INITIAL_DEPOSIT", "1000"); ("API_KEY", "k"); ("TELEGRAM_CHAT_ID", "7")] = Ok process_settings.
Proof. by vm_compute. Qed.

Definition make_paper (config : Config.EngineConfig) (_ : DeploymentSettings) (_ : environ) (_ : bool)
    (boundary : SecretsBoundary.SigningBoundary) (_ : MemLog) : result SampleVenue := paper_adapter config ["10:00"] boundary.
Definition outside (l : MemLog) : Outside MemLog :=
  {| ou_file := ConfigSpec.sample_file; ou_env := process_env; ou_directory := Ok tt; ou_store := Ok l; ou_now := "10:00"; ou_meta := Err OSError |}.
Definition started_over (l : MemLog) : outcome MemLog Process :=
  create make_paper process_settings (outside l) [buy_strategy] None "10:00".

Definition cycle_times : Times := {| ti_correlation := "10:01"; ti_cycle := "10:01"; ti_completed := "10:01"; ti_captured := "10:01" |}.
Definition no_repr (_ : json) : string := "".

(** Its life up to the stop: the market opens, the worker buys. *)
Definition opened (s : Process) : Process := (on_app_engine (on_venue (market 100)) s).1.
Definition traded (s : Process) : Process := (worker_turn clock cycle_times (opened s)).1.
Definition halted (s : Process) : Process := (emergency_stop "10:02" "10:02" (traded s)).1.
Definition disconnected (s : Process) : Process :=
  (on_app_engine (on_venue (MockExchange.query (modify MockExchange.simulate_disconnect))) s).1.

Lemma log_ok_sample : log_ok sample_log.
Proof. split; [|done]. by repeat constructor. Qed.

Lemma process_steps s : started_over sample_log = Started s -> rtc (app_step clock no_repr make_paper) (Down sample_log) (Running (traded s)).
Proof.
  intros Hs. eapply rtc_l; [by eapply (st_start _ _ _ _ (outside sample_log))|]. eapply rtc_l; [apply st_venue|].
  apply rtc_once. apply (st_worker clock no_repr make_paper cycle_times).
Qed.
Lemma process_reachable s : started_over sample_log = Started s -> reachable clock no_repr make_paper (traded s).
Proof. intros Hs. exists sample_log. split; [exact log_ok_sample|by apply process_steps]. Qed.

(** ** Witnesses *)

(** A fact of the one process there is. *)
Ltac by_running E := let E' := fresh in pose proof E as E'; vm_compute in E'; injection E' as <-; by vm_compute.

(** The order of the cycle rests, and the stop cancels it. *)
Lemma emergency_stop_revokes_witness :
  match started_over sample_log with
  | Started s => exists cancelled, length cancelled = 1%nat /\ (emergency_stop "10:02" "10:02" (traded s)).2 = Ok cancelled /\
      is_ok (SecretsBoundary.sign (sg_boundary (adapter_of (halted s))) "hyperliquid_signing_key_v1" SecretsBoundary.SigningPurpose.ORDER []) = false
  | _ => False
  end.
Proof.
  destruct (started_over sample_log) as [s|e|e l|e l] eqn:E; [|by vm_compute in E..].
  pose proof (reachable_inv _ _ _ _ (process_reachable s E)) as (Hg & _ & _). unfold halted.
  assert (Hlen : match (cancel_resting (traded s)).2 with Ok c => length c = 1%nat | Err _ => False end) by by_running E.
  assert (Href : SecretsBoundary.sb_expected_refs (sg_boundary (adapter_of (cancel_resting (traded s)).1)) = ["hyperliquid_signing_key_v1"]) by by_running E.
  assert (Hok : is_ok (ve_health (revoke_signing (adapter_of (cancel_resting (traded s)).1))).2 = true) by by_running E.
  destruct (emergency_stop "10:02" "10:02" (traded s)) as [s' r] eqn:Es.
  destruct (emergency_stop_revokes "10:02" "10:02" (traded s) s' r Hg Es) as (s1 & cancelled & Hc & _ & Hsign & _ & _ & _ & [Hr|Hr]);
    rewrite Hc in Hlen Href Hok; cbn [fst snd] in *; [|congruence].
  exists cancelled. split; [exact Hlen|]. split; [exact Hr|]. apply Hsign. rewrite Href. constructor.
Defined.

(** A second process over the same log, with another deposit and key. *)
Definition started_again (l : MemLog) : outcome MemLog Process :=
  create make_paper process_settings (outside l) [sell_strategy] None "11:00".

Lemma emergency_stop_is_final_witness :
  match started_over sample_log with
  | Started s =>
      stopped_state (esm_state (ap_world (traded s)).1) = false /\
      match started_again (store_of (halted s)) with
      | Started s' => ap_emergency_stopped s' = true /\ forall t, run_one_cycle clock t s' = (s', Err EmergencyStopActive)
      | _ => False
      end
  | _ => False
  end.
Proof.
  destruct (started_over sample_log) as [s|e|e l|e l] eqn:E; [|by vm_compute in E..]. split; [by_running E|].
  assert (Hst : stopped_state (esm_state (ap_world (halted s)).1) = true) by by_running E.
  assert (Hagain : match started_again (store_of (halted s)) with Started _ => True | _ => False end) by by_running E.
  assert (Hl : log_ok (store_of (halted s))).
  { destruct (call_inv False (emergency_stop "10:02" "10:02") (traded s)) as (Hg & _).
    - intros I K. by apply stop_keeps.
    - exact (reachable_inv _ _ _ _ (process_reachable s E)).
    - exact (good_log _ Hg). }
  pose proof (emergency_stop_is_final clock no_repr make_paper "10:02" "10:02" (traded s) (Down (store_of (halted s)))
    (process_reachable s E) Hst (rtc_once _ _ (st_end clock no_repr make_paper (halted s) (store_of (halted s)) Hl eq_refl))) as Hf.
  destruct (started_again (store_of (halted s))) as [s'|e|e l|e l] eqn:E'; [|done..].
  exact (Hf process_settings (outside (store_of (halted s))) [sell_strategy] None "11:00" s' eq_refl E').
Defined.

Definition stop_request (key : string) : Request := {| rq_route := PostEmergencyStop; rq_x_api_key := Some key; rq_authorization := None |}.
Definition update_from (chat : Z) (text : string) : json :=
  JObj [("message", JObj [("text", JStr text); ("chat", JObj [("id", JInt chat)])])].

(** A request with another key and a message from another chat. *)
Lemma control_needs_credentials_witness :
  match started_over sample_log with
  | Started s =>
      handle_request clock cycle_times "10:02" (stop_request "guess") s = (s, Err Unauthorized) /\
      (_dispatch clock no_repr cycle_times "10:02" (update_from 8 "/stop") s).1 = s /\
      ap_emergency_stopped (handle_request clock cycle_times "10:02" (stop_request "k") s).1 = true /\
      ap_emergency_stopped (_dispatch clock no_repr cycle_times "10:02" (update_from 7 "/stop@turtle_bot now") s).1 = true
  | _ => False
  end.
Proof.
  destruct (started_over sample_log) as [s|e|e l|e l] eqn:E; [|by vm_compute in E..].
  assert (Hset : ac_settings (ap_config s) = process_settings) by by_running E.
  destruct (control_needs_credentials clock no_repr cycle_times "10:02" s) as [Hq Hu]. rewrite Hset in Hq Hu.
  destruct (Hq (stop_request "guess")) as [_ Hr].
  { intros (key & Hk & _ & [Hx|[Hx _]]); [|done]. injection Hk as <-. discriminate. }
  destruct (Hu (update_from 8 "/stop")) as [Hd _].
  { intros (m & c & i & [Hm|Hm] & Hc & Hi & Ht); injection Hm as <-; [|done]. injection Hc as <-. injection Hi as <-. discriminate. }
  split; [|split; [exact Hd|split; by_running E]].
  destruct Hr as (e & _ & He); [cbn; right; left|]. rewrite He. f_equal. unfold handle_request in He. cbn [rq_route stop_request] in He.
  rewrite run_get run_bind Hset in He. by injection He as <-.
Defined.

(** ** What is seen of failures *)

(** After a cycle that succeeded, one that fails is not seen: the status still
    reports the snapshot before it, with no error and a started, running engine. *)
Example failed_cycle_unseen :
  match started_over sample_log with
  | Started s =>
      let s1 := (worker_turn clock cycle_times (disconnected (traded s))).1 in
      ap_last_error s1 = Some (CycleFailed ExchangeConnectionError) /\
      match (handle_request clock cycle_times "10:05" {| rq_route := GetStatus; rq_x_api_key := None; rq_authorization := None |} s1).2 with
      | Ok (SnapshotAnswer _ x _ _ _ _) => es_last_error x = None /\ hs_connection_state (es_health x) = ConnectionState.CONNECTED
      | _ => False
      end
  | _ => False
  end.
Proof. by vm_compute. Qed.

(** [/cycle] trades for a caller who is not authorized. *)
Example cycle_without_authorization :
  match started_over sample_log with
  | Started s => match (handle_command clock cycle_times "10:02" "/cycle" false (opened s)).2 with
                 | Ok (CycleReply _ _ approved _ executions) => approved = 1 /\ executions = 1
                 | _ => False
                 end
  | _ => False
  end.
Proof. by vm_compute. Qed.

(** A deposit that cannot be written leaves the store open and locked. *)
Example failed_deposit_keeps_lock :
  match started_over {| ml_events := []; ml_outcomes := [Refused OSError] |} with
  | LeftOpen e _ => e = OSError
  | _ => False
  end.
Proof. by vm_compute. Qed.

(** When the kill cannot be recorded either, the answer no longer warns of the
    orders that could not be cancelled. *)
Definition refusing (s : Process) : Process :=
  set_world ({| en_orders := with_store {| ml_events := ml_events (store_of s); ml_outcomes := repeat (Refused OSError) 9 |} (en_orders (ap_world s).1);
                en_positions := en_positions (ap_world s).1; en_portfolio := en_portfolio (ap_world s).1;
                en_limits := en_limits (ap_world s).1; en_started := en_started (ap_world s).1 |}, (ap_world s).2) s.
Example warning_lost :
  match started_over sample_log with
  | Started s =>
      let answer s := (handle_request clock cycle_times "10:02" (stop_request "k") s).2 in
      match answer (disconnected (traded s)), answer (refusing (traded s)) with
      | Ok (StopAnswer 0 (Some (CancelFailed ExchangeConnectionError)) true), Ok (StopAnswer 0 None true) => True
      | _, _ => False
      end
  | _ => False
  end.
Proof. by vm_compute. Qed.
