(* ===== verification/Historical.v ===== *)
(** * Historical data collection (src/alpha_engine/historical/)

    Observations, their CSV series on disk with the merge of new rows, the
    quality report, the three sources and the collection pipeline. The sources'
    transports, the clock, the reading of zip archives and the text Python
    gives a list or a dict are arguments; reading a file does not fail here, and
    a path is a text. Logging is not modelled. *)

From Stdlib Require Import ssreflect ZArith Lia Ascii String.
From stdpp Require Import base strings numbers gmap sets list.
From S2P Require Import Prelude PyText PyDict PyBytes PyJson PyJsonFacts PyLines PySort PyDecimal PyDecimalFacts PyFloat.
From S2P Require Import ExchangeModels AlphaModels HyperliquidCodec.
Import Csv.
#[local] Open Scope Z_scope.

(** The texts of the files by their paths. *)
Notation disk := (gmap string string).

(** The answer of a transport, or the exception it raises. *)
Inductive response (A : Type) := Body (a : A) | HttpError (code : Z) | UrlError | OtherError (e : exn).
Arguments Body {A} a.
Arguments HttpError {A} code.
Arguments UrlError {A}.
Arguments OtherError {A} e.

(** What a pass over periods has counted and fetched. *)
Record progress (R : Type) := { pg_requested : Z; pg_fetched : Z; pg_skipped : Z; pg_unavailable : Z; pg_rows : list R }.
Arguments pg_requested {R} _.
Arguments pg_fetched {R} _.
Arguments pg_skipped {R} _.
Arguments pg_unavailable {R} _.
Arguments pg_rows {R} _.

(** A loop of at most [n] turns, which ends with a result or goes on with a state. *)
Section turns.
Context {S R : Type} (turn : S -> S + R).
Fixpoint turns (n : positive) (s : S) : S + R :=
  match n with
  | xH => turn s
  | xO n => match turns n s with inl s => turns n s | r => r end
  | xI n => match turn s with
            | inl s => match turns n s with inl s => turns n s | r => r end
            | r => r
            end
  end.
End turns.

(** ** models.py *)

(** The three observations of one value have the same fields. *)
Inductive ScalarType := FundingRateObservation | MarkPriceObservation | OpenInterestObservation.
Inductive ObservationType := Series (ty : ScalarType) | LiquidationObservation.

#[global] Instance ScalarType_eq_dec : EqDecision ScalarType.
Proof. solve_decision. Defined.

Record Scalar := {
  ob_symbol : Symbol;
  ob_observed_at_utc : string;
  ob_value : decimal;
  ob_source : string;
  ob_source_detail : string;
  ob_ingested_at_utc : string
}.

Record Liquidation := {
  lq_symbol : Symbol;
  lq_observed_at_utc : string;
  lq_price : decimal;
  lq_size : decimal;
  lq_side : string;
  lq_direction : string;
  lq_method : string;
  lq_liquidated_user : string;
  lq_mark_price : decimal;
  lq_tid : Z;
  lq_source : string;
  lq_source_detail : string;
  lq_ingested_at_utc : string
}.

Inductive Observation := Observed (ty : ScalarType) (o : Scalar) | Liquidated (o : Liquidation).

Definition obs_symbol (o : Observation) : Symbol := match o with Observed _ o => ob_symbol o | Liquidated o => lq_symbol o end.
Definition observed_at_utc (o : Observation) : string :=
  match o with Observed _ o => ob_observed_at_utc o | Liquidated o => lq_observed_at_utc o end.

Section time.
Context (fromisoformat : string -> result (Z * option Z)).

Definition check_text (value : string) : result unit := require (negb (blank value)) HistoricalDataError.

Definition check_timestamp (value : string) : result unit :=
  _ ← check_text value;
  match parse_utc fromisoformat value with
  | Ok _ => Ok tt
  | Err ValueError => Err HistoricalDataError
  | Err e => Err e
  end.

Definition _validate_common (o : Scalar) : result unit :=
  _ ← check_timestamp (ob_observed_at_utc o);
  _ ← check_text (ob_source o);
  _ ← check_text (ob_source_detail o);
  check_timestamp (ob_ingested_at_utc o).

Definition mk_Scalar (ty : ScalarType) (o : Scalar) : result Observation :=
  _ ← _validate_common o;
  _ ← require (match ty with
               | FundingRateObservation => true
               | MarkPriceObservation => negb (dleb (ob_value o) d0)
               | OpenInterestObservation => negb (dltb (ob_value o) d0)
               end) HistoricalDataError;
  Ok (Observed ty o).

Definition mk_Liquidation (o : Liquidation) : result Observation :=
  _ ← check_timestamp (lq_observed_at_utc o);
  _ ← check_timestamp (lq_ingested_at_utc o);
  _ ← require (forallb (fun s => negb (blank s))
    [lq_side o; lq_direction o; lq_method o; lq_liquidated_user o; lq_source o; lq_source_detail o]) HistoricalDataError;
  _ ← require (negb (dleb (lq_size o) d0)) HistoricalDataError;
  _ ← require (negb (dleb (lq_price o) d0 || dleb (lq_mark_price o) d0)) HistoricalDataError;
  Ok (Liquidated o).

(** [a == b] of two observations: decimals are compared as numbers. *)
Definition obs_eqb (a b : Observation) : bool :=
  match a, b with
  | Observed ty a, Observed ty' b =>
      bool_decide (ty = ty') && String.eqb (sym_value (ob_symbol a)) (sym_value (ob_symbol b)) &&
      String.eqb (ob_observed_at_utc a) (ob_observed_at_utc b) && deqb (ob_value a) (ob_value b) &&
      String.eqb (ob_source a) (ob_source b) && String.eqb (ob_source_detail a) (ob_source_detail b) &&
      String.eqb (ob_ingested_at_utc a) (ob_ingested_at_utc b)
  | Liquidated a, Liquidated b =>
      String.eqb (sym_value (lq_symbol a)) (sym_value (lq_symbol b)) && String.eqb (lq_observed_at_utc a) (lq_observed_at_utc b) &&
      deqb (lq_price a) (lq_price b) && deqb (lq_size a) (lq_size b) && String.eqb (lq_side a) (lq_side b) &&
      String.eqb (lq_direction a) (lq_direction b) && String.eqb (lq_method a) (lq_method b) &&
      String.eqb (lq_liquidated_user a) (lq_liquidated_user b) && deqb (lq_mark_price a) (lq_mark_price b) && (lq_tid a =? lq_tid b) &&
      String.eqb (lq_source a) (lq_source b) && String.eqb (lq_source_detail a) (lq_source_detail b) &&
      String.eqb (lq_ingested_at_utc a) (lq_ingested_at_utc b)
  | _, _ => false
  end.

(** ** storage.py *)

Definition _FIELDNAMES : list string := ["observed_at_utc"; "symbol"; "value"; "source"; "source_detail"; "ingested_at_utc"].
Definition _LIQUIDATION_FIELDNAMES : list string :=
  ["observed_at_utc"; "symbol"; "price"; "size"; "side"; "direction"; "method"; "liquidated_user"; "mark_price"; "tid"; "source";
   "source_detail"; "ingested_at_utc"].

Definition _fieldnames_for (ty : ObservationType) : list string :=
  match ty with LiquidationObservation => _LIQUIDATION_FIELDNAMES | Series _ => _FIELDNAMES end.

Definition _dedup_key (o : Observation) : list string :=
  match o with
  | Liquidated l => [sym_value (lq_symbol l); lq_observed_at_utc l; int_str (lq_tid l); lq_side l]
  | Observed _ o => [sym_value (ob_symbol o); ob_observed_at_utc o]
  end.

Definition series_filename (metric : string) (symbol : Symbol) (source : string) : result string :=
  _ ← check_text metric;
  _ ← check_text source;
  Ok (metric +:+ "__" +:+ sym_value symbol +:+ "__" +:+ source +:+ ".csv").

(** [Decimal(s)]; a text that stands for an infinity or for not a number is
    outside the model. *)
Definition decimal_of (s : string) : result decimal :=
  match Decimal s with Some d => Ok d | None => Err (if special_decimal s then OutsideModel else InvalidOperation) end.

(** [row[k]] under the header the file was checked to have. A missing value is
    [None]: it is not a number, and a text that it stands for is refused like the
    empty one. *)
Definition row_text (k : string) (row : list (string * option string)) : string := default "" (default None (dget k row)).
Definition row_number {A} (read : string -> result A) (k : string) (row : list (string * option string)) : result A :=
  match default None (dget k row) with Some s => read s | None => Err TypeError end.

Definition _row_to_observation (ty : ObservationType) (row : list (string * option string)) : result Observation :=
  symbol ← mk_Symbol (row_text "symbol" row);
  match ty with
  | LiquidationObservation =>
      price ← row_number decimal_of "price" row;
      size ← row_number decimal_of "size" row;
      mark_price ← row_number decimal_of "mark_price" row;
      tid ← row_number int_of_text "tid" row;
      mk_Liquidation {| lq_symbol := symbol; lq_observed_at_utc := row_text "observed_at_utc" row; lq_price := price; lq_size := size;
        lq_side := row_text "side" row; lq_direction := row_text "direction" row; lq_method := row_text "method" row;
        lq_liquidated_user := row_text "liquidated_user" row; lq_mark_price := mark_price; lq_tid := tid;
        lq_source := row_text "source" row; lq_source_detail := row_text "source_detail" row;
        lq_ingested_at_utc := row_text "ingested_at_utc" row |}
  | Series ty =>
      value ← row_number decimal_of "value" row;
      mk_Scalar ty {| ob_symbol := symbol; ob_observed_at_utc := row_text "observed_at_utc" row; ob_value := value;
        ob_source := row_text "source" row; ob_source_detail := row_text "source_detail" row;
        ob_ingested_at_utc := row_text "ingested_at_utc" row |}
  end.

Definition _observation_to_row (o : Observation) : list (string * string) :=
  match o with
  | Liquidated o =>
      [("observed_at_utc", lq_observed_at_utc o); ("symbol", sym_value (lq_symbol o)); ("price", dec_str (lq_price o));
       ("size", dec_str (lq_size o)); ("side", lq_side o); ("direction", lq_direction o); ("method", lq_method o);
       ("liquidated_user", lq_liquidated_user o); ("mark_price", dec_str (lq_mark_price o)); ("tid", int_str (lq_tid o));
       ("source", lq_source o); ("source_detail", lq_source_detail o); ("ingested_at_utc", lq_ingested_at_utc o)]
  | Observed _ o =>
      [("observed_at_utc", ob_observed_at_utc o); ("symbol", sym_value (ob_symbol o)); ("value", dec_str (ob_value o));
       ("source", ob_source o); ("source_detail", ob_source_detail o); ("ingested_at_utc", ob_ingested_at_utc o)]
  end.

(** The series in a file, [None] when there is no file. *)
Definition load (file : option string) (ty : ObservationType) : result (list Observation) :=
  match file with
  | None => Ok []
  | Some text =>
      let records := csv_records true text in
      names ← fieldnames records;
      _ ← require (match names with Some names => bool_decide (names = _fieldnames_for ty) | None => true end) HistoricalDataError;
      mapM (fun row => row ← row; _row_to_observation ty row) (dict_rows records)
  end.

(** *** [merge_and_write] *)

(** The dictionary of observations by their keys, in insertion order. *)
Fixpoint kget (k : list string) (d : list (list string * Observation)) : option Observation :=
  match d with [] => None | (k', o) :: d => if bool_decide (k = k') then Some o else kget k d end.
Fixpoint kset (k : list string) (o : Observation) (d : list (list string * Observation)) : list (list string * Observation) :=
  match d with [] => [(k, o)] | (k', o') :: d => if bool_decide (k = k') then (k', o) :: d else (k', o') :: kset k o d end.

Definition by_key_of (existing : list Observation) : list (list string * Observation) :=
  foldl (fun d o => kset (_dedup_key o) o d) [] existing.

Record merging := {
  mg_by_key : list (list string * Observation);
  mg_added_count : Z;
  mg_conflicts : list (list string)
}.

Definition merge_one (m : merging) (o : Observation) : merging :=
  let key := _dedup_key o in
  match kget key (mg_by_key m) with
  | None => {| mg_by_key := kset key o (mg_by_key m); mg_added_count := mg_added_count m + 1; mg_conflicts := mg_conflicts m |}
  | Some known =>
      if obs_eqb known o then m
      else {| mg_by_key := mg_by_key m; mg_added_count := mg_added_count m; mg_conflicts := mg_conflicts m ++ [key] |}
  end.

Definition merge (existing new_observations : list Observation) : merging :=
  foldl merge_one {| mg_by_key := by_key_of existing; mg_added_count := 0; mg_conflicts := [] |} new_observations.

Definition merged (m : merging) : list Observation :=
  sorted_by (lex_le observed_at_utc (fun o => sym_value (obs_symbol o))) (map snd (mg_by_key m)).

(** The rows written until one does not fit the header. *)
Fixpoint write_rows (names : list string) (os : list Observation) : string * result unit :=
  match os with
  | [] => ("", Ok tt)
  | o :: os =>
      match dict_writerow names (_observation_to_row o) with
      | Err e => ("", Err e)
      | Ok line => let '(text, r) := write_rows names os in (line +:+ text, r)
      end
  end.

Definition header (ty : ObservationType) : string := writerow (_fieldnames_for ty).

Record MergeResult := { mr_existing_count : Z; mr_added_count : Z; mr_conflict_keys : list (list string) }.

(** Tuples of strings are compared item by item. *)
Fixpoint tuple_leb (a b : list string) : bool :=
  match a, b with
  | [], _ => true
  | _ :: _, [] => false
  | x :: a, y :: b => match String.compare x y with Lt => true | Gt => false | Eq => tuple_leb a b end
  end.

(** What the disk does: the directory cannot be made, the temporary file takes
    only so many characters, the rename fails, or all is well. *)
Inductive write_outcome := NoDirectory | WriteFails (n : nat) | RenameFails | Written.

Definition tmp_of (path : string) : string := path +:+ ".tmp".

Definition merge_and_write (outcome : write_outcome) (path : string) (ty : ObservationType) (new_observations : list Observation)
    : M disk MergeResult := fun files =>
  match outcome with
  | NoDirectory => (files, Err OSError)
  | _ =>
      match load (files !! path) ty with
      | Err e => (files, Err e)
      | Ok existing =>
          let m := merge existing new_observations in
          let '(rows, r) := write_rows (_fieldnames_for ty) (merged m) in
          let text := header ty +:+ rows in
          match outcome, r with
          | WriteFails n, _ => (<[tmp_of path := str_take n text]> files, Err OSError)
          | _, Err e => (<[tmp_of path := text]> files, Err e)
          | RenameFails, _ => (<[tmp_of path := text]> files, Err OSError)
          | _, Ok _ =>
              (<[path := text]> (delete (tmp_of path) files),
               Ok {| mr_existing_count := Z.of_nat (length (by_key_of existing)); mr_added_count := mg_added_count m;
                     mr_conflict_keys := sorted_by tuple_leb (mg_conflicts m) |})
          end
      end
  end.

(** ** validation.py *)

Definition _DEFAULT_GAP_TOLERANCE_FACTOR : decimal := Dec 15 (-1).

Record DataQualityReport := {
  dq_total_count : Z;
  dq_unique_count : Z;
  dq_duplicate_count : Z;
  dq_duplicate_keys : list (list string);
  dq_is_monotonic : bool;
  dq_out_of_order_indices : list nat;
  dq_gap_count : Z;
  dq_gaps : list (string * string * decimal);
  dq_clean : bool
}.

Definition point_key (o : Observation) : list string := [sym_value (obs_symbol o); observed_at_utc o].

(** [seen[key] = seen.get(key, 0) + 1] *)
Fixpoint count_key (k : list string) (seen : list (list string * Z)) : list (list string * Z) :=
  match seen with
  | [] => [(k, 1)]
  | (k', n) :: seen => if bool_decide (k = k') then (k', n + 1) :: seen else (k', n) :: count_key k seen
  end.

(** [i for i in range(1, n) if times[i] < times[i - 1]], from the index [i]. *)
Fixpoint out_of_order (i : nat) (times : list Z) : list nat :=
  match times with
  | t :: (t' :: _) as rest => (if t' <? t then [i] else []) ++ out_of_order (S i) rest
  | _ => []
  end.

(** [Decimal(str((later - earlier).total_seconds()))] *)
Definition gap_seconds (earlier later : Z) : result decimal := of_option InvalidOperation (Decimal (float_repr (total_seconds (later - earlier)))).

Fixpoint gaps_of (tolerance : decimal) (pairs : list (Z * Observation)) : result (list (string * string * decimal)) :=
  match pairs with
  | (t, o) :: ((t', o') :: _) as rest =>
      gap ← gap_seconds t t';
      gaps ← gaps_of tolerance rest;
      Ok (if dltb tolerance gap then (observed_at_utc o, observed_at_utc o', gap) :: gaps else gaps)
  | _ => Ok []
  end.

(** [parse_utc] of a point; an unparseable time is the caller's error. *)
Definition point_time (o : Observation) : result Z :=
  match parse_utc fromisoformat (observed_at_utc o) with Err ValueError => Err HistoricalDataError | r => r end.

(** The interval is a whole number of seconds, as the pipeline gives it. *)
Definition assess_quality (observations : list Observation) (expected_interval_seconds : option Z) (gap_tolerance_factor : decimal)
    : result DataQualityReport :=
  _ ← require (match observations with [] => false | _ => true end) HistoricalDataError;
  _ ← require (match expected_interval_seconds with Some n => 0 <? n | None => true end) HistoricalDataError;
  let seen := foldl (fun seen o => count_key (point_key o) seen) [] observations in
  let repeated := List.filter (fun p => 1 <? p.2) seen in
  let duplicate_count := foldr (fun p n => p.2 - 1 + n) 0 repeated in
  times ← mapM point_time observations;
  let disorder := out_of_order 1 times in
  gaps ← match expected_interval_seconds with
         | None => Ok []
         | Some n => gaps_of (dmul (dint n) gap_tolerance_factor)
                       (sorted_by (fun p q => p.1 <=? q.1) (zip times observations))
         end;
  Ok {| dq_total_count := Z.of_nat (length observations); dq_unique_count := Z.of_nat (length seen);
        dq_duplicate_count := duplicate_count; dq_duplicate_keys := sorted_by tuple_leb (map fst repeated);
        dq_is_monotonic := Nat.eqb (length disorder) 0; dq_out_of_order_indices := disorder;
        dq_gap_count := Z.of_nat (length gaps); dq_gaps := gaps;
        dq_clean := (duplicate_count =? 0) && Nat.eqb (length disorder) 0 && Nat.eqb (length gaps) 0 |}.

Definition verify_checksum (data : bytes) (expected_sha256_hex : string) : result bool :=
  _ ← check_text expected_sha256_hex;
  Ok (String.eqb (lower (hex (sha256 data))) (lower (strip expected_sha256_hex))).

(** ** What the sources share *)

Definition somes {A} (l : list (option A)) : list A := omap (M := list) id l.

(** [except (KeyError, ValueError, InvalidOperation)] *)
Definition malformed_row {A} (r : result A) : result A :=
  match r with Err (KeyError | ValueError | InvalidOperation) => Err HistoricalDataError | _ => r end.

(** [datetime.fromtimestamp(seconds, tz=timezone.utc)]: the fraction of the
    float is rounded to microseconds. *)
Definition fromtimestamp (seconds : float) : result Z :=
  let '(n, d) := fratio seconds in
  let whole := Z.quot n d in
  let '(n', d') := fratio (fmul (true_div (Z.rem n d) d) (float_of_int (10 ^ 6))) in
  let micros := div_round ROUND_HALF_EVEN n' d' in
  let total := whole * 10 ^ 6 + micros in
  let '(year, _, _) := civil (total / (86400 * 10 ^ 6) + 719162) in
  if negb ((- 2 ^ 63 <=? whole) && (whole <? 2 ^ 63)) then Err OverflowError else
  if negb ((- 2 ^ 31 <=? year - 1900) && (year - 1900 <? 2 ^ 31)) then Err OSError else
  let t := total + 719162 * 86400 * 10 ^ 6 in
  if (0 <=? t) && (t <? _DATETIMES) then Ok t else Err ValueError.

(** [dt.isoformat()] of a UTC time: no microseconds when there are none. *)
Definition isoformat (t : Z) : string :=
  if t mod 10 ^ 6 =? 0 then str_take 19 (isoformat_utc t) +:+ "+00:00" else isoformat_utc t.

(** [datetime.fromtimestamp(ms / 1000, tz=timezone.utc).isoformat()] *)
Definition iso_of_ms (ms : Z) : result string := t ← fromtimestamp (true_div ms 1000); Ok (isoformat t).

(** ** sources/binance.py *)

(** [date.isoformat()] of a number of days since 0001-01-01. *)
Definition date_str (day : Z) : string :=
  let '(year, month, d) := civil day in padded 4 year +:+ "-" +:+ padded 2 month +:+ "-" +:+ padded 2 d.

Definition _BASE_URL : string := "https://data.binance.vision/data/futures/um".
Definition _binance_symbol (symbol : Symbol) : string := sym_value symbol +:+ "USDT".

(** [s.split()[0]] *)
Fixpoint word (s : string) : string := match s with String c s => if is_space c then "" else String c (word s) | "" => "" end.
Definition first_word (s : string) : result string := if blank s then Err IndexError else Ok (word (lstrip s)).

(** [data.decode("utf-8")]: text beyond ASCII is outside the model. *)
Definition decode_text (data : bytes) : result string := match decode data with Ok s => Ok s | Err _ => Err OutsideModel end.

(** [s.replace(" ", "T")] *)
Fixpoint t_for_space (s : string) : string :=
  match s with "" => "" | String c s => String (if Ascii.eqb c " " then "T"%char else c) (t_for_space s) end.

Section binance.
Context {T : Type} (http_get : string -> T -> T * response bytes) (clock : M T string).
(** [ZipFile(data)] with the names of its members, and a member's content. *)
Context (namelist : bytes -> result (list string)) (read : bytes -> string -> result bytes).

Definition _fetch_zip_csv (zip_url checksum_url : string) : M T (option bytes) := fun s =>
  match http_get zip_url s with
  | (s, HttpError code) => (s, if code =? 404 then Ok None else Err HistoricalDataError)
  | (s, UrlError) => (s, Err HistoricalDataError)
  | (s, OtherError e) => (s, Err e)
  | (s, Body zip_bytes) =>
      match http_get checksum_url s with
      | (s, HttpError _) | (s, UrlError) => (s, Err HistoricalDataError)
      | (s, OtherError e) => (s, Err e)
      | (s, Body checksum_bytes) =>
          (s, text ← decode_text checksum_bytes;
              expected_hex ← first_word text;
              ok ← verify_checksum zip_bytes expected_hex;
              _ ← require ok HistoricalDataError;
              names ← namelist zip_bytes;
              match names with
              | [name] => data ← read zip_bytes name; Ok (Some data)
              | _ => Err HistoricalDataError
              end)
      end
  end.

(** A file of the archive, its rows read one after the other. *)
Definition read_rows {A} (zip_url : string) (of_row : string -> list (string * option string) -> result A) : M T (option (list A)) :=
  csv_bytes ← _fetch_zip_csv zip_url (zip_url +:+ ".CHECKSUM");
  match csv_bytes with
  | None => mret None
  | Some data =>
      ingested_at_utc ← clock;
      text ← lift (decode_text data);
      rows ← lift (mapM (fun row => row ← row; of_row ingested_at_utc row) (dict_rows (csv_records false text)));
      mret (Some rows)
  end.

(** [row[k]] of any file: the column may be missing, or the value. *)
Definition column (k : string) (row : list (string * option string)) (missing : exn) : result string :=
  v ← of_option KeyError (dget k row); of_option missing v.

Definition metrics_name (symbol : Symbol) (day : Z) : string := _binance_symbol symbol +:+ "-metrics-" +:+ date_str day +:+ ".zip".
Definition metrics_url (symbol : Symbol) (day : Z) : string :=
  _BASE_URL +:+ "/daily/metrics/" +:+ _binance_symbol symbol +:+ "/" +:+ metrics_name symbol day.
Definition price_detail (symbol : Symbol) (day : Z) : string := metrics_name symbol day +:+ " (price=value/oi)".

Definition created_at (row : list (string * option string)) : result string :=
  text ← column "create_time" row AttributeError; canonical_utc fromisoformat (t_for_space text +:+ "Z").
Definition number_at (k : string) (row : list (string * option string)) : result decimal := text ← column k row TypeError; decimal_of text.

Definition point (symbol : Symbol) (source detail ingested_at_utc observed : string) (v : decimal) : Scalar :=
  {| ob_symbol := symbol; ob_observed_at_utc := observed; ob_value := v; ob_source := source; ob_source_detail := detail;
     ob_ingested_at_utc := ingested_at_utc |}.

Definition fetch_open_interest_day (symbol : Symbol) (day : Z) : M T (option (list Observation)) :=
  read_rows (metrics_url symbol day) (fun ingested_at_utc row =>
    p ← malformed_row (observed ← created_at row; value ← number_at "sum_open_interest" row; Ok (observed, value));
    mk_Scalar OpenInterestObservation (point symbol "binance" (metrics_name symbol day) ingested_at_utc p.1 p.2)).

(** What a row says of the open interest, and its value. *)
Definition metrics_row (row : list (string * option string)) : result (string * decimal * decimal) :=
  malformed_row (observed ← created_at row; oi ← number_at "sum_open_interest" row; oi_value ← number_at "sum_open_interest_value" row;
                 Ok (observed, oi, oi_value)).

Definition mark_of (symbol : Symbol) (day : Z) (ingested_at_utc : string) (p : string * decimal * decimal) : result Observation :=
  price ← ddiv p.2 p.1.2;
  mk_Scalar MarkPriceObservation (point symbol "binance" (price_detail symbol day) ingested_at_utc p.1.1 price).

(** Rows without open interest are skipped. *)
Definition mark_row (symbol : Symbol) (day : Z) (ingested_at_utc : string) (row : list (string * option string)) : result (option Observation) :=
  p ← metrics_row row;
  if dleb p.1.2 d0 then Ok None else o ← mark_of symbol day ingested_at_utc p; Ok (Some o).
Definition fetch_mark_price_day (symbol : Symbol) (day : Z) : M T (option (list Observation)) :=
  rows ← read_rows (metrics_url symbol day) (mark_row symbol day);
  mret (option_map somes rows).

Definition both_row (symbol : Symbol) (day : Z) (ingested_at_utc : string) (row : list (string * option string))
    : result (Observation * option Observation) :=
  p ← metrics_row row;
  oi ← mk_Scalar OpenInterestObservation (point symbol "binance" (metrics_name symbol day) ingested_at_utc p.1.1 p.1.2);
  if dltb d0 p.1.2 then mark ← mark_of symbol day ingested_at_utc p; Ok (oi, Some mark) else Ok (oi, None).
Definition fetch_metrics_day (symbol : Symbol) (day : Z) : M T (option (list Observation * list Observation)) :=
  rows ← read_rows (metrics_url symbol day) (both_row symbol day);
  mret (option_map (fun rows => (map fst rows, somes (map snd rows))) rows).

Definition fetch_funding_rate_month (symbol : Symbol) (year month : Z) : M T (option (list Observation)) :=
  _ ← lift (require ((1 <=? month) && (month <=? 12)) HistoricalDataError);
  let name := _binance_symbol symbol +:+ "-fundingRate-" +:+ padded 4 year +:+ "-" +:+ padded 2 month +:+ ".zip" in
  read_rows (_BASE_URL +:+ "/monthly/fundingRate/" +:+ _binance_symbol symbol +:+ "/" +:+ name) (fun ingested_at_utc row =>
    p ← malformed_row (ms ← (text ← column "calc_time" row TypeError; int_of_text text);
                       iso ← iso_of_ms ms;
                       observed ← canonical_utc fromisoformat iso;
                       value ← number_at "last_funding_rate" row;
                       Ok (observed, value));
    mk_Scalar FundingRateObservation (point symbol "binance" name ingested_at_utc p.1 p.2)).
End binance.

(** ** sources/hyperliquid.py *)

Definition _PAGE_SIZE_CAP : Z := 500.

(** A number of milliseconds that is divided by 1000. *)
Definition ms_of (j : json) : result Z :=
  match j with JInt n => Ok n | JBool b => Ok (if b then 1 else 0) | _ => Err TypeError end.

(** [Decimal(j)]; of a list it is outside the model. *)
Definition json_decimal (j : json) : result decimal :=
  match j with
  | JStr s => decimal_of s
  | JInt n => Ok (dint n)
  | JBool b => Ok (dint (if b then 1 else 0))
  | JNull | JObj _ => Err TypeError
  | JList _ => Err OutsideModel
  end.

(** [row[k]] *)
Definition item (k : string) (row : json) : result json :=
  match row with JObj o => of_option KeyError (dget k o) | _ => Err TypeError end.

(** [except (KeyError, TypeError, ValueError, InvalidOperation)] *)
Definition malformed_json {A} (r : result A) : result A :=
  match r with Err TypeError => Err HistoricalDataError | _ => malformed_row r end.

Definition funding_row (symbol : Symbol) (detail ingested_at_utc : string) (row : json) : result Observation :=
  p ← malformed_json (ms ← (j ← item "time" row; ms_of j);
                      iso ← iso_of_ms ms;
                      observed ← canonical_utc fromisoformat iso;
                      value ← (j ← item "fundingRate" row; json_decimal j);
                      Ok (observed, value));
  mk_Scalar FundingRateObservation (point symbol "hyperliquid" detail ingested_at_utc p.1 p.2).

Section hyperliquid.
Context {T : Type} (post_json : list (string * json) -> T -> T * response json) (clock : M T string).

Definition page_request (symbol : Symbol) (cursor end_ms : Z) : list (string * json) :=
  [("type", JStr "fundingHistory"); ("coin", JStr (sym_value symbol)); ("startTime", JInt cursor); ("endTime", JInt end_ms)].
Definition page_detail (symbol : Symbol) (cursor end_ms : Z) : string :=
  "fundingHistory coin=" +:+ sym_value symbol +:+ " startTime=" +:+ int_str cursor +:+ " endTime=" +:+ int_str end_ms.

(** One page: its rows, and where the next one starts if there is one. *)
Definition page (symbol : Symbol) (end_ms : Z) (ingested_at_utc : string) (cursor : Z) (body : json) : result (list Observation * option Z) :=
  match body with
  | JList [] => Ok ([], None)
  | JList rows =>
      os ← mapM (funding_row symbol (page_detail symbol cursor end_ms) ingested_at_utc) rows;
      last_time ← (j ← item "time" (List.last rows JNull); ms_of j);
      let next_cursor := last_time + 1 in
      Ok (os, if (Z.of_nat (length rows) <? _PAGE_SIZE_CAP) || (next_cursor <=? cursor) then None else Some next_cursor)
  | _ => Err HistoricalDataError
  end.

(** One turn of [while cursor < end_ms], on the transport's state, the cursor
    and the observations so far. *)
Definition page_turn (symbol : Symbol) (end_ms : Z) (ingested_at_utc : string) (w : T * (Z * list Observation))
    : (T * (Z * list Observation)) + (T * result (list Observation)) :=
  let '(s, (cursor, observations)) := w in
  if negb (cursor <? end_ms) then inr (s, Ok observations) else
  match post_json (page_request symbol cursor end_ms) s with
  | (s, HttpError _) | (s, UrlError) => inr (s, Err HistoricalDataError)
  | (s, OtherError e) => inr (s, Err e)
  | (s, Body body) =>
      match page symbol end_ms ingested_at_utc cursor body with
      | Err e => inr (s, Err e)
      | Ok (os, None) => inr (s, Ok (observations ++ os))
      | Ok (os, Some next_cursor) => inl (s, (next_cursor, observations ++ os))
      end
  end.

(** The loop: the cursor grows, so [end_ms - cursor] bounds its turns. *)
Definition fetch_pages (symbol : Symbol) (end_ms : Z) (ingested_at_utc : string) (cursor : Z) (observations : list Observation)
    : M T (list Observation) := fun s =>
  match turns (page_turn symbol end_ms ingested_at_utc) (Z.to_pos (end_ms - cursor + 1)) (s, (cursor, observations)) with
  | inr r => r
  | inl (s, (_, observations)) => (s, Ok observations)
  end.

Definition fetch_funding_rate_range (symbol : Symbol) (start_ms end_ms : Z) : M T (list Observation) :=
  _ ← lift (require (0 <=? start_ms) HistoricalDataError);
  _ ← lift (require (start_ms <=? end_ms) HistoricalDataError);
  ingested_at_utc ← clock;
  fetch_pages symbol end_ms ingested_at_utc start_ms [].
End hyperliquid.

(** ** sources/hyperliquid_s3.py *)

Definition SOURCE_NAME : string := "hyperliquid_s3".
Definition DEFAULT_PREFIX : string := "node_fills_by_block/hourly/".

(** [s.isdigit()]: the three superscripts are digits, too. *)
Definition digit_like (c : ascii) : bool := is_digit c || existsb (N.eqb (N_of_ascii c)) [178; 179; 185]%N.
Definition isdigit (s : string) : bool := negb (String.eqb s "") && str_forall digit_like s.

(** [s.split(c)] *)
Fixpoint split_char (c : ascii) (s : string) : list string :=
  match s with
  | "" => [""]
  | String d s => if Ascii.eqb d c then "" :: split_char c s
                  else match split_char c s with l :: ls => String d l :: ls | [] => [String d ""] end
  end.
Fixpoint rstrip_char (c : ascii) (s : string) : string :=
  match s with
  | "" => ""
  | String d s => match rstrip_char c s with "" => if Ascii.eqb d c then "" else String d "" | r => String d r end
  end.

(** [int(stem) if stem.isdigit() else -1], for the part of a name before its first dot. *)
Definition hour_of (name : string) : result Z :=
  let stem := List.hd "" (split_char "." name) in if isdigit stem then int_of_text stem else Ok (-1).

Definition date_ok (date : string) : bool := (slen date =? 8) && isdigit date.

(** [sorted(keys, key=...)] *)
Definition sorted_on {K A} (leb : K -> K -> bool) (key : A -> result K) (l : list A) : result (list A) :=
  keyed ← mapM (fun x => k ← key x; Ok (k, x)) l;
  Ok (map snd (sorted_by (fun p q => leb p.1 q.1) keyed)).

Definition key_leb (a b : string * Z) : bool :=
  match String.compare a.1 b.1 with Lt => true | Gt => false | Eq => a.2 <=? b.2 end.

Definition sort_key (key : string) : result (string * Z) :=
  let parts := split_char "/" (rstrip_char "/" key) in
  hour ← hour_of (List.last parts "");
  Ok (match rev parts with _ :: date :: _ => date | _ => "" end, hour).

Definition keys_after_checkpoint (keys : list string) (checkpoint : option string) : result (list string) :=
  ordered ← sorted_on key_leb sort_key keys;
  match checkpoint with
  | None => Ok ordered
  | Some c =>
      limit ← sort_key c;
      keyed ← mapM (fun k => s ← sort_key k; Ok (s, k)) ordered;
      Ok (map snd (List.filter (fun p => negb (key_leb p.1 limit)) keyed))
  end.

(** The checkpoint's file. *)
Definition read_checkpoint (file : option string) : result (option string) :=
  match file with
  | None => Ok None
  | Some text =>
      match loads text with
      | Err _ => Err HistoricalDataError
      | Ok (JObj data) => Ok (match dget "last_processed_key" data with Some (JStr key) => if String.eqb key "" then None else Some key | _ => None end)
      | Ok _ => Err AttributeError
      end
  end.

Definition checkpoint_text (key : string) : string := dumps_with " " (JObj [("last_processed_key", JStr key)]).

Definition write_checkpoint (outcome : write_outcome) (path last_processed_key : string) : M disk unit := fun files =>
  if blank last_processed_key then (files, Err HistoricalDataError) else
  let text := checkpoint_text last_processed_key in
  match outcome with
  | NoDirectory => (files, Err OSError)
  | WriteFails n => (<[tmp_of path := str_take n text]> files, Err OSError)
  | RenameFails => (<[tmp_of path := text]> files, Err OSError)
  | Written => (<[path := text]> (delete (tmp_of path) files), Ok tt)
  end.

(** [s.splitlines()] *)
Definition line_boundary (c : ascii) : bool := existsb (N.eqb (N_of_ascii c)) [10; 11; 12; 13; 28; 29; 30; 133]%N.
Fixpoint splitlines_from (line : option string) (s : string) : list string :=
  match s with
  | "" => match line with Some l => [l] | None => [] end
  | String c s' =>
      if line_boundary c then
        default "" line ::
        match s' with
        | String d s'' => if Ascii.eqb c carriage_return && Ascii.eqb d newline then splitlines_from None s'' else splitlines_from None s'
        | "" => []
        end
      else splitlines_from (Some (default "" line +:+ String c "")) s'
  end.
Definition splitlines (s : string) : list string := splitlines_from None s.

Definition truthy (j : json) : bool :=
  match j with
  | JNull => false
  | JBool b => b
  | JInt n => negb (n =? 0)
  | JStr s => negb (String.eqb s "")
  | JList l => match l with [] => false | _ => true end
  | JObj o => match o with [] => false | _ => true end
  end.

Definition jget (k : string) (o : list (string * json)) : json := default JNull (dget k o).

Section s3.
(** [str(j)] of a list or a dict. *)
Context (repr : json -> string).

Definition str_of (j : json) : string :=
  match j with
  | JNull => "None"
  | JBool b => if b then "True" else "False"
  | JInt n => int_str n
  | JStr s => s
  | JList _ | JObj _ => repr j
  end.

Definition _decimal (raw : json) : result decimal :=
  match decimal_of (str_of raw) with Err InvalidOperation => Err HistoricalDataError | r => r end.

(** [liq.get(k)] *)
Definition jattr (k : string) (j : json) : result json := match j with JObj o => Ok (jget k o) | _ => Err AttributeError end.

(** The observation of a fill with a liquidation, by the fields' order. *)
Definition liquidation_of (key ingested : string) (fill : list (string * json)) (liq : json) : result Observation :=
  observed_ms ← match jget "time" fill with JInt n => Ok n | JBool b => Ok (if b then 1 else 0) | _ => Err HistoricalDataError end;
  symbol ← match jget "coin" fill with JStr s => mk_Symbol s | _ => Err ValueError end;
  observed ← iso_of_ms observed_ms;
  price ← _decimal (jget "px" fill);
  size ← _decimal (jget "sz" fill);
  method ← jattr "method" liq;
  user ← jattr "liquidatedUser" liq;
  mark ← jattr "markPx" liq;
  mark_price ← _decimal mark;
  tid ← (j ← of_option KeyError (dget "tid" fill); int_of j);
  mk_Liquidation {| lq_symbol := symbol; lq_observed_at_utc := observed; lq_price := price; lq_size := size;
    lq_side := str_of (jget "side" fill); lq_direction := str_of (jget "dir" fill); lq_method := str_of method;
    lq_liquidated_user := str_of user; lq_mark_price := mark_price; lq_tid := tid; lq_source := SOURCE_NAME;
    lq_source_detail := key; lq_ingested_at_utc := ingested |}.

(** [coin not in wanted] *)
Definition unwanted (wanted : option (list string)) (coin : json) : result bool :=
  match wanted with
  | None => Ok false
  | Some names => match coin with JStr s => Ok (negb (existsb (String.eqb s) names)) | JList _ | JObj _ => Err TypeError | _ => Ok true end
  end.

Definition liquidation_event (key ingested : string) (wanted : option (list string)) (event : json) : result (option Observation) :=
  match event with
  | JList [_; JObj fill] =>
      let liq := jget "liquidation" fill in
      if negb (truthy liq) then Ok None else
      skip ← unwanted wanted (jget "coin" fill);
      if skip then Ok None else o ← liquidation_of key ingested fill liq; Ok (Some o)
  | _ => Ok None
  end.

(** [block.get("events") or ()]: the items of a text or a dict are no events. *)
Definition events_of (block : json) : result (list json) :=
  match block with
  | JObj o => match jget "events" o with
              | JList l => Ok l
              | JStr _ | JObj _ => Ok []
              | j => if truthy j then Err TypeError else Ok []
              end
  | _ => Err AttributeError
  end.

Definition liquidation_line (key ingested : string) (wanted : option (list string)) (line : string) : result (list Observation) :=
  if blank line then Ok [] else
  match loads line with
  | Err _ => Err HistoricalDataError
  | Ok block => events ← events_of block; os ← mapM (liquidation_event key ingested wanted) events; Ok (somes os)
  end.

Definition decode_liquidations (payload : bytes) (key : string) (symbols : list Symbol) (ingested : string) : result (list Observation) :=
  text ← decode_text payload;
  let wanted := match symbols with [] => None | _ => Some (map sym_value symbols) end in
  lines ← mapM (liquidation_line key ingested wanted) (splitlines text);
  Ok (concat lines).

Section client.
Context {T : Type} (list_objects : string -> M T (list string)) (get_object : string -> M T bytes) (clock : M T string)
  (decompress : bytes -> result bytes).

Definition list_hour_keys (date prefix : string) : M T (list string) :=
  _ ← lift (require (date_ok date) HistoricalDataError);
  keys ← list_objects (prefix +:+ date +:+ "/");
  lift (sorted_on Z.leb (fun key => hour_of (List.last (split_char "/" key) "")) keys).

Definition fetch_hour (key : string) (symbols : list Symbol) : M T (list Observation) :=
  body ← get_object key;
  payload ← lift (decompress body);
  ingested ← clock;
  lift (decode_liquidations payload key symbols ingested).
End client.
End s3.

(** ** pipeline.py *)

Definition _OI_EXPECTED_INTERVAL_SECONDS : Z := 300.
Definition _BINANCE_FUNDING_EXPECTED_INTERVAL_SECONDS : Z := 8 * 3600.
Definition _HYPERLIQUID_FUNDING_EXPECTED_INTERVAL_SECONDS : Z := 3600.

Record CollectionResult := {
  cr_metric : string;
  cr_symbol_value : string;
  cr_source : string;
  cr_path : string;
  cr_periods_requested : Z;
  cr_periods_fetched : Z;
  cr_periods_skipped : Z;
  cr_periods_unavailable : Z;
  cr_rows_added : Z;
  cr_quality_report : option DataQualityReport;
  cr_collected_at_utc : string
}.

(** A day is its number since 0001-01-01. *)
Definition day_of (t : Z) : Z := t / (86400 * 10 ^ 6).
Definition month_of (t : Z) : Z * Z := let '(year, month, _) := civil (day_of t) in (year, month).

Definition times_of (existing : list Observation) : result (list Z) := mapM (fun o => parse_utc fromisoformat (observed_at_utc o)) existing.
Definition _existing_days_covered (existing : list Observation) : result (list Z) := times ← times_of existing; Ok (map day_of times).
Definition _existing_months_covered (existing : list Observation) : result (list (Z * Z)) := times ← times_of existing; Ok (map month_of times).

(** [current + timedelta(days=1)] *)
Definition next_day (day : Z) : result Z := if day + 1 <? 3652059 then Ok (day + 1) else Err OverflowError.

(** [_month_range]: the months from the first to the last, counted from year 0. *)
Definition month_index (m : Z * Z) : Z := m.1 * 12 + m.2 - 1.
Definition month_at (i : Z) : Z * Z := (i / 12, i mod 12 + 1).
Definition _month_range (start_date end_date : Z) : list (Z * Z) :=
  let first := month_index (month_of (start_date * (86400 * 10 ^ 6))) in
  let last := month_index (month_of (end_date * (86400 * 10 ^ 6))) in
  map month_at (seqZ first (last - first + 1)).

Definition no_progress {R} : progress R := {| pg_requested := 0; pg_fetched := 0; pg_skipped := 0; pg_unavailable := 0; pg_rows := [] |}.

Section visits.
Context {T P R : Type} (fetch : P -> M T (option (list R))) (covered : P -> bool).

(** One period: skipped when it is covered, else fetched. *)
Definition visit (period : P) (p : progress R) : M T (progress R) :=
  if covered period then
    mret {| pg_requested := pg_requested p + 1; pg_fetched := pg_fetched p; pg_skipped := pg_skipped p + 1;
            pg_unavailable := pg_unavailable p; pg_rows := pg_rows p |}
  else
    r ← fetch period;
    mret {| pg_requested := pg_requested p + 1; pg_fetched := pg_fetched p + 1; pg_skipped := pg_skipped p;
            pg_unavailable := pg_unavailable p + (match r with None => 1 | Some _ => 0 end);
            pg_rows := pg_rows p ++ default [] r |}.

Fixpoint visit_all (periods : list P) (p : progress R) : M T (progress R) :=
  match periods with [] => mret p | x :: periods => p ← visit x p; visit_all periods p end.
End visits.

(** [while current <= end_date]: the days are visited one after the other, and
    the step beyond the last day of the calendar raises. *)
Definition days_between {T R} (fetch : Z -> M T (option (list R))) (covered : Z -> bool) (start_date end_date : Z) : M T (progress R) :=
  p ← visit_all fetch covered (seqZ start_date (end_date - start_date + 1)) no_progress;
  _ ← lift (next_day end_date);
  mret p.

Definition quality_of (series : list Observation) (interval : Z) : result (option DataQualityReport) :=
  match series with [] => Ok None | _ => q ← assess_quality series (Some interval) _DEFAULT_GAP_TOLERANCE_FACTOR; Ok (Some q) end.

Section pipeline.
Context {T : Type} (http_get : string -> T -> T * response bytes) (post_json : list (string * json) -> T -> T * response json)
  (clock : M T string) (namelist : bytes -> result (list string)) (read : bytes -> string -> result bytes).
Notation W := (T * disk)%type.

Definition on_web {A} (m : M T A) : M W A := zoom fst (fun t w => (t, w.2)) m.
Definition on_disk {A} (m : M disk A) : M W A := zoom snd (fun d w => (w.1, d)) m.
Definition load_at (path : string) (ty : ObservationType) : M W (list Observation) := w ← get; lift (load (w.2 !! path) ty).

(** The report on the series now on disk. *)
Definition collected (metric : string) (symbol : Symbol) (source path : string) (full_series : list Observation) (interval : Z)
    (requested fetched skipped unavailable added : Z) : M W CollectionResult :=
  quality_report ← lift (quality_of full_series interval);
  now ← on_web clock;
  mret {| cr_metric := metric; cr_symbol_value := sym_value symbol; cr_source := source; cr_path := path;
          cr_periods_requested := requested; cr_periods_fetched := fetched; cr_periods_skipped := skipped;
          cr_periods_unavailable := unavailable; cr_rows_added := added; cr_quality_report := quality_report;
          cr_collected_at_utc := now |}.

(** [covered_days if not force else set()] *)
Definition covering {P} `{EqDecision P} (force : bool) (covered : result (list P)) : result (P -> bool) :=
  if force then Ok (fun _ => false) else l ← covered; Ok (fun x => bool_decide (x ∈ l)).

(** [collect_open_interest] and [collect_mark_price]: the same steps. *)
Definition collect_daily (metric : string) (ty : ScalarType) (fetch : Symbol -> Z -> M T (option (list Observation)))
    (outcome : write_outcome) (symbol : Symbol) (start_date end_date : Z) (storage_root source : string) (force : bool)
    : M W CollectionResult :=
  _ ← lift (require (String.eqb source "binance") HistoricalDataError);
  _ ← lift (require (start_date <=? end_date) HistoricalDataError);
  name ← lift (series_filename metric symbol source);
  let path := storage_root +:+ "/" +:+ name in
  existing ← load_at path (Series ty);
  covered ← lift (covering force (_existing_days_covered existing));
  p ← on_web (days_between (fetch symbol) covered start_date end_date);
  merge_result ← on_disk (merge_and_write outcome path (Series ty) (pg_rows p));
  full_series ← load_at path (Series ty);
  collected metric symbol source path full_series _OI_EXPECTED_INTERVAL_SECONDS
    (pg_requested p) (pg_fetched p) (pg_skipped p) (pg_unavailable p) (mr_added_count merge_result).

Definition collect_open_interest : write_outcome -> Symbol -> Z -> Z -> string -> string -> bool -> M W CollectionResult :=
  collect_daily "open_interest" OpenInterestObservation (fetch_open_interest_day http_get clock namelist read).
Definition collect_mark_price : write_outcome -> Symbol -> Z -> Z -> string -> string -> bool -> M W CollectionResult :=
  collect_daily "mark_price" MarkPriceObservation (fetch_mark_price_day http_get clock namelist read).

(** One pass for both series; the days covered are those of the open interest. *)
Definition collect_metrics (oi_outcome mark_outcome : write_outcome) (symbol : Symbol) (start_date end_date : Z) (storage_root : string)
    (force : bool) : M W (CollectionResult * CollectionResult) :=
  _ ← lift (require (start_date <=? end_date) HistoricalDataError);
  oi_name ← lift (series_filename "open_interest" symbol "binance");
  mark_name ← lift (series_filename "mark_price" symbol "binance");
  let oi_path := storage_root +:+ "/" +:+ oi_name in
  let mark_path := storage_root +:+ "/" +:+ mark_name in
  existing_oi ← load_at oi_path (Series OpenInterestObservation);
  covered ← lift (covering force (_existing_days_covered existing_oi));
  p ← on_web (days_between (fun day => r ← fetch_metrics_day http_get clock namelist read symbol day; mret (option_map (fun r => [r]) r))
                covered start_date end_date);
  oi_merge ← on_disk (merge_and_write oi_outcome oi_path (Series OpenInterestObservation) (concat (map fst (pg_rows p))));
  mark_merge ← on_disk (merge_and_write mark_outcome mark_path (Series MarkPriceObservation) (concat (map snd (pg_rows p))));
  oi_full ← load_at oi_path (Series OpenInterestObservation);
  mark_full ← load_at mark_path (Series MarkPriceObservation);
  oi_report ← collected "open_interest" symbol "binance" oi_path oi_full _OI_EXPECTED_INTERVAL_SECONDS
    (pg_requested p) (pg_fetched p) (pg_skipped p) (pg_unavailable p) (mr_added_count oi_merge);
  mark_report ← collected "mark_price" symbol "binance" mark_path mark_full _OI_EXPECTED_INTERVAL_SECONDS
    (pg_requested p) (pg_fetched p) (pg_skipped p) (pg_unavailable p) (mr_added_count mark_merge);
  mret (oi_report, mark_report).

Definition _collect_funding_rate_binance (outcome : write_outcome) (symbol : Symbol) (start_date end_date : Z) (path : string)
    (existing : list Observation) (force : bool) : M W CollectionResult :=
  covered ← lift (covering force (_existing_months_covered existing));
  p ← on_web (visit_all (fun m => fetch_funding_rate_month http_get clock namelist read symbol m.1 m.2) covered
                (_month_range start_date end_date) no_progress);
  merge_result ← on_disk (merge_and_write outcome path (Series FundingRateObservation) (pg_rows p));
  full_series ← load_at path (Series FundingRateObservation);
  collected "funding_rate" symbol "binance" path full_series _BINANCE_FUNDING_EXPECTED_INTERVAL_SECONDS
    (pg_requested p) (pg_fetched p) (pg_skipped p) (pg_unavailable p) (mr_added_count merge_result).

(** [int(datetime(...).timestamp() * 1000)] of a midnight. *)
Definition midnight_ms (day : Z) : Z := (day - 719162) * 86400 * 1000.

(** [int(dt.timestamp() * 1000)]: the product of floats is rounded, then cut. *)
Definition timestamp_ms (t : Z) : Z :=
  let '(n, d) := fratio (fmul (total_seconds (t - 719162 * 86400 * 10 ^ 6)) (float_of_int 1000)) in Z.quot n d.

Definition _collect_funding_rate_hyperliquid (outcome : write_outcome) (symbol : Symbol) (start_date end_date : Z) (path : string)
    (existing : list Observation) (force : bool) : M W CollectionResult :=
  let start_ms := midnight_ms start_date in
  next ← lift (next_day end_date);
  let end_ms := midnight_ms next in
  times ← lift (if force then Ok [] else times_of existing);
  let cursor_ms := match map timestamp_ms times with
                   | [] => start_ms
                   | t :: ts => Z.max start_ms (foldl Z.max t ts + 1)
                   end in
  let fetched := if end_ms <=? cursor_ms then 0 else 1 in
  new_observations ← (if end_ms <=? cursor_ms then mret [] else on_web (fetch_funding_rate_range post_json clock symbol cursor_ms end_ms));
  merge_result ← on_disk (merge_and_write outcome path (Series FundingRateObservation) new_observations);
  full_series ← load_at path (Series FundingRateObservation);
  collected "funding_rate" symbol "hyperliquid" path full_series _HYPERLIQUID_FUNDING_EXPECTED_INTERVAL_SECONDS
    1 fetched (1 - fetched) (if (fetched =? 1) && Nat.eqb (length new_observations) 0 then 1 else 0) (mr_added_count merge_result).

Definition collect_funding_rate (outcome : write_outcome) (symbol : Symbol) (start_date end_date : Z) (storage_root source : string)
    (force : bool) : M W CollectionResult :=
  _ ← lift (require (existsb (String.eqb source) ["binance"; "hyperliquid"]) HistoricalDataError);
  _ ← lift (require (start_date <=? end_date) HistoricalDataError);
  name ← lift (series_filename "funding_rate" symbol source);
  let path := storage_root +:+ "/" +:+ name in
  existing ← load_at path (Series FundingRateObservation);
  if String.eqb source "binance" then _collect_funding_rate_binance outcome symbol start_date end_date path existing force
  else _collect_funding_rate_hyperliquid outcome symbol start_date end_date path existing force.
End pipeline.
End time.
