(* ===== verification/HistoricalSpec.v ===== *)
(** * Historical data: what a series on disk holds

    A series that was written is read back as it was; a merge keeps what is on
    disk, adds the first row of every new key and reports each disagreement; a
    crash leaves the old file or the new one. What the quality report counts, what
    the pages of a venue add up to, and where a collection resumes. *)

From Stdlib Require Import ssreflect ZArith Lia Ascii String Sorting.Sorted QArith.
From stdpp Require Import base strings numbers gmap sets list.
From S2P Require Import Prelude PyText PyDict PyBytes PyJson PyJsonFacts PyLines PySort PyDecimal PyDecimalFacts PyFloat.
From S2P Require Import ExchangeModels AlphaModels HyperliquidCodec Historical.
Import Csv.
#[local] Open Scope Z_scope.

(** ** Numbers as text *)

Definition tidy (c : ascii) : bool := negb (is_space c) && negb (Ascii.eqb c "_").

Lemma tidy_visible s : str_forall tidy s = true -> str_forall (fun c => negb (is_space c)) s = true.
Proof. induction s as [|c s IH]; [done|]. cbn [str_forall]. unfold tidy at 1. intros [[-> _]%andb_true_iff ?]%andb_true_iff. auto. Qed.

Lemma rstrip_visible s : str_forall (fun c => negb (is_space c)) s = true -> rstrip s = s.
Proof.
  induction s as [|c s IH]; [done|]. cbn [str_forall rstrip]. intros [Hc%negb_true_iff Hs]%andb_true_iff. rewrite IH // Hc.
  by destruct s.
Qed.

Lemma strip_tidy s : str_forall tidy s = true -> strip s = s.
Proof.
  intros Hs%tidy_visible. unfold strip. destruct s as [|c s]; [done|]. pose proof Hs as Hc. cbn [str_forall] in Hc.
  apply andb_true_iff in Hc as [Hc%negb_true_iff _]. cbn [lstrip]. rewrite Hc. by apply rstrip_visible.
Qed.

Lemma without_underscores_tidy s : str_forall tidy s = true -> without_underscores s = s.
Proof.
  induction s as [|c s IH]; [done|]. cbn [str_forall without_underscores]. unfold tidy at 1.
  intros [[_ ->%negb_true_iff]%andb_true_iff Hs]%andb_true_iff. by rewrite IH.
Qed.

Lemma digits_tidy s : str_forall is_digit s = true -> str_forall tidy s = true.
Proof.
  induction s as [|c s IH]; [done|]. cbn [str_forall]. intros [Hc Hs]%andb_true_iff. rewrite IH // andb_true_r.
  by destruct c as [[] [] [] [] [] [] [] []].
Qed.

Lemma int_tidy z : str_forall tidy (int_str z) = true.
Proof. unfold int_str. destruct (Z.ltb_spec z 0); [cbn [str_forall]; apply andb_true_iff; split; [done|]|]; apply digits_tidy, nat_str_digits; lia. Qed.

Lemma str_forall_part p s n : str_forall p s = true -> str_forall p (str_take n s) = true /\ str_forall p (str_drop n s) = true.
Proof. intros H. rewrite -(str_take_drop n s) str_forall_app in H. by apply andb_true_iff in H. Qed.

Lemma dec_str_tidy d : str_forall tidy (dec_str d) = true.
Proof.
  destruct d as [c e]. assert (Hd : str_forall tidy (nat_str (Z.abs c)) = true) by (apply digits_tidy, nat_str_digits; lia).
  assert (Hz : forall n, str_forall tidy (zeros n) = true) by (intros n; apply digits_tidy, zeros_digits).
  assert (Hp := fun n => str_forall_part tidy _ n Hd). unfold dec_str. cbn [dcoef dexp]. cbv zeta.
  revert Hd Hp. generalize (nat_str (Z.abs c)) as int. intros int Hd Hp.
  destruct (Hp 1%nat) as [Ht Ht']. cbn in Ht, Ht'.
  repeat case_match; repeat match goal with E : (_, _) = (_, _) |- _ => injection E as <- <- end;
    rewrite ?str_forall_app ?Hz ?int_tidy ?Hd ?(proj1 (Hp _)) ?(proj2 (Hp _)) ?Ht ?Ht'; reflexivity.
Qed.

Lemma Decimal_str d : Decimal (dec_str d) = Some d.
Proof. unfold Decimal. rewrite strip_tidy ?without_underscores_tidy; [apply dec_str_tidy..|]. apply dec_parse_str. Qed.

Lemma grouped_nat n : 0 <= n -> grouped_digits false (nat_str n) = true.
Proof.
  intros Hn. destruct (nat_str_nonempty n Hn) as (c & s & E & Hc). pose proof (nat_str_digits n Hn) as Hd. rewrite E in Hd |- *. clear E n Hn.
  cbn [grouped_digits]. replace (Ascii.eqb c "_") with false by (by destruct c as [[] [] [] [] [] [] [] []]). rewrite Hc. cbn [str_forall] in Hd.
  apply andb_true_iff in Hd as [_ Hd]. cbn [andb]. induction s as [|d s IH]; [done|]. cbn [str_forall] in Hd. apply andb_true_iff in Hd as [Hc' Hd].
  cbn [grouped_digits]. replace (Ascii.eqb d "_") with false by (by destruct d as [[] [] [] [] [] [] [] []]). rewrite Hc'. auto.
Qed.

Lemma int_of_text_str z : int_of_text (int_str z) = Ok z.
Proof.
  unfold int_of_text. rewrite strip_tidy; [apply int_tidy|]. unfold int_str. destruct (Z.ltb_spec z 0) as [Hz|Hz].
  - cbn [parse_sign]. rewrite grouped_nat; [lia|]. rewrite without_underscores_tidy; [apply digits_tidy, nat_str_digits; lia|].
    rewrite nat_str_val; [lia|]. f_equal. lia.
  - rewrite parse_sign_digit.
    + destruct (nat_str_nonempty z Hz) as (c & s & -> & Hc). done.
    + rewrite grouped_nat // without_underscores_tidy; [apply digits_tidy, nat_str_digits; lia|]. by rewrite nat_str_val.
Qed.

(** The loop of at most [n] turns, turn by turn. *)
Fixpoint turns_nat {S R} (turn : S -> S + R) (n : nat) (s : S) : S + R :=
  match n with O => inl s | S n => match turn s with inl s => turns_nat turn n s | r => r end end.

Lemma turns_nat_add {S R} (turn : S -> S + R) n m s :
  turns_nat turn (n + m) s = match turns_nat turn n s with inl s => turns_nat turn m s | r => r end.
Proof. revert s. induction n as [|n IH]; intros s; [done|]. cbn [turns_nat Nat.add]. by destruct (turn s). Qed.

Lemma turns_nat_spec {S R} (turn : S -> S + R) n s : turns turn n s = turns_nat turn (Pos.to_nat n) s.
Proof.
  revert s. induction n as [n IH|n IH|]; intros s; cbn [turns].
  - rewrite Pos2Nat.inj_xI. replace (2 * Pos.to_nat n)%nat with (Pos.to_nat n + Pos.to_nat n)%nat by lia. cbn [turns_nat]. destruct (turn s) as [s'|r]; [|done].
    rewrite turns_nat_add IH. destruct (turns_nat _ _ s'); [apply IH|done].
  - rewrite Pos2Nat.inj_xO. replace (2 * Pos.to_nat n)%nat with (Pos.to_nat n + Pos.to_nat n)%nat by lia.
    rewrite turns_nat_add IH. destruct (turns_nat _ _ s); [apply IH|done].
  - rewrite Pos2Nat.inj_1. cbn [turns_nat]. by destruct (turn s).
Qed.

Section history.
Context (fromisoformat : string -> result (Z * option Z)).

(** ** Rows *)

Definition type_of (o : Observation) : ObservationType := match o with Observed ty _ => Series ty | Liquidated _ => LiquidationObservation end.

(** An observation as the constructors let it through. *)
Definition well_formed (o : Observation) : Prop :=
  mk_Symbol (sym_value (obs_symbol o)) = Ok (obs_symbol o) /\
  match o with Observed ty s => mk_Scalar fromisoformat ty s = Ok o | Liquidated l => mk_Liquidation fromisoformat l = Ok o end.

Definition row_values (o : Observation) : list string := map snd (_observation_to_row o).

Lemma row_written o : dict_writerow (_fieldnames_for (type_of o)) (_observation_to_row o) = Ok (writerow (row_values o)).
Proof. by destruct o. Qed.

Lemma row_read o : well_formed o ->
  _row_to_observation fromisoformat (type_of o) (dict_row (_fieldnames_for (type_of o)) (row_values o)) = Ok o.
Proof.
  intros [Hs Ho]. destruct o as [ty o|o]; destruct o; unfold _row_to_observation, row_number, row_text, decimal_of; cbn -[Decimal int_of_text mk_Symbol mk_Scalar mk_Liquidation] in *.
  - by rewrite Hs /= Decimal_str.
  - by rewrite Hs /= !Decimal_str /= int_of_text_str.
Qed.

(** ** A series on disk *)

Notation written os := (String.concat "" (map (fun o => writerow (row_values o)) os)).
Definition series_text (ty : ObservationType) (os : list Observation) : string := header ty +:+ written os.

Lemma write_rows_ok ty os : Forall (fun o => type_of o = ty) os -> write_rows (_fieldnames_for ty) os = (written os, Ok tt).
Proof.
  induction 1 as [|o os Ho _ IH]; [done|]. cbn [write_rows]. subst ty. rewrite row_written IH. f_equal.
  destruct os; cbn [map String.concat]; [by rewrite app_nil_r_s|done].
Qed.

Lemma load_written ty os : Forall (fun o => type_of o = ty /\ well_formed o) os ->
  load fromisoformat (Some (series_text ty os)) ty = Ok os.
Proof.
  intros Hos. unfold load, series_text, header.
  replace (writerow (_fieldnames_for ty) +:+ written os) with (String.concat "" (map writerow (_fieldnames_for ty :: map row_values os)))
    by (cbn [map]; rewrite map_map; destruct os; cbn [map String.concat]; [by rewrite app_nil_r_s|done]).
  rewrite csv_records_written.
  { constructor; [by destruct ty|]. apply Forall_map. eapply Forall_impl; [exact Hos|]. intros [] _; by destruct o. }
  cbn [map fieldnames mbind result_bind]. rewrite bool_decide_eq_true_2 //. cbn [require mbind result_bind dict_rows].
  induction Hos as [|o os [<- Ho] _ IH]; [done|]. cbn [map List.filter].
  replace (negb (empty_row (Ok (row_values o)))) with true by (by destruct o). cbn [map mapM]. cbn [mbind result_bind].
  rewrite row_read //=. cbn [mbind result_bind]. by rewrite IH.
Qed.

(** ** The merge *)

Notation key := _dedup_key.
Notation keys os := (map _dedup_key os).
Notation le := (lex_le observed_at_utc (fun o => sym_value (obs_symbol o))).

(** The first row of every key that is not known. *)
Fixpoint firsts (known : list (list string)) (new : list Observation) : list Observation :=
  match new with
  | [] => []
  | o :: new => if bool_decide (key o ∈ known) then firsts known new else o :: firsts (known ++ [key o]) new
  end.

(** The row kept under a key, and whether another one differs from it. *)
Definition kept (os : list Observation) (k : list string) : option Observation := List.find (fun o => bool_decide (k = key o)) os.
Definition disagrees (os : list Observation) (o : Observation) : bool :=
  match kept os (key o) with Some known => negb (obs_eqb known o) | None => false end.

Definition pairs (os : list Observation) : list (list string * Observation) := map (fun o => (key o, o)) os.

Lemma obs_eqb_refl o : obs_eqb o o = true.
Proof.
  assert (Hd : forall d, deqb d d = true) by (intros d; by apply deqb_spec).
  destruct o as [ty o|o]; cbn [obs_eqb]; rewrite ?bool_decide_eq_true_2 // ?String.eqb_refl ?Hd ?Z.eqb_refl //.
Qed.

Lemma kget_pairs k os : kget k (pairs os) = kept os k.
Proof. unfold kept. induction os as [|o os IH]; [done|]. cbn. by case_match. Qed.

Lemma kept_None os k : kept os k = None <-> k ∉ keys os.
Proof.
  unfold kept. induction os as [|o os IH]; [split; [intros _; apply not_elem_of_nil|done]|]. cbn [List.find map]. rewrite not_elem_of_cons.
  case_bool_decide as E; [|by rewrite IH; naive_solver]. split; [done|]. by intros [? _].
Qed.

Lemma kept_app os os' k : k ∈ keys os -> kept (os ++ os') k = kept os k.
Proof.
  unfold kept. intros Hk. rewrite find_app. destruct (List.find _ os) eqn:E; [done|]. by apply kept_None in E.
Qed.

Lemma kset_fresh k o os : k ∉ keys os -> k = key o -> kset k o (pairs os) = pairs (os ++ [o]).
Proof.
  intros Hk ->. unfold pairs. induction os as [|x os IH]; [done|]. cbn [map kset app]. rewrite not_elem_of_cons in Hk.
  destruct Hk as [Hx Hk]. rewrite bool_decide_eq_false_2 //. by rewrite IH.
Qed.

Lemma by_key_of_app os os' : NoDup (keys (os ++ os')) -> foldl (fun d o => kset (key o) o d) (pairs os) os' = pairs (os ++ os').
Proof.
  revert os. induction os' as [|o os' IH]; intros os Hn; [by rewrite app_nil_r|]. cbn [foldl]. rewrite kset_fresh //.
  - rewrite map_app in Hn. cbn [map] in Hn. apply NoDup_app in Hn as (_ & Hn & _). intros Hin. by apply (Hn _ Hin), list_elem_of_here.
  - rewrite (IH (os ++ [o])) -app_assoc //.
Qed.

Lemma by_key_of_series os : NoDup (keys os) -> by_key_of os = pairs os.
Proof. apply (by_key_of_app []). Qed.

Lemma merge_spec new cur n cs :
  foldl merge_one {| mg_by_key := pairs cur; mg_added_count := n; mg_conflicts := cs |} new =
  {| mg_by_key := pairs (cur ++ firsts (keys cur) new); mg_added_count := n + Z.of_nat (length (firsts (keys cur) new));
     mg_conflicts := cs ++ keys (List.filter (disagrees (cur ++ firsts (keys cur) new)) new) |}.
Proof.
  revert cur n cs. induction new as [|o new IH]; intros cur n cs.
  { cbn. rewrite !app_nil_r. f_equal. lia. }
  cbn [foldl firsts List.filter]. unfold merge_one at 2. cbn [mg_by_key mg_added_count mg_conflicts]. rewrite kget_pairs.
  case_bool_decide as Hk.
  - unfold disagrees at 1. rewrite kept_app //. destruct (kept cur (key o)) as [known|] eqn:E; [|by apply kept_None in E].
    destruct (obs_eqb known o); cbn [negb map]; rewrite IH //. by rewrite -app_assoc.
  - rewrite (proj2 (kept_None cur (key o)) Hk) kset_fresh //. rewrite IH map_app -app_assoc. cbn [map length app]. f_equal; [lia|].
    replace (disagrees (cur ++ o :: firsts (keys cur ++ [key o]) new) o) with false; [done|]. unfold disagrees, kept. rewrite find_app.
    rewrite (proj2 (kept_None cur (key o)) Hk : List.find _ cur = None). cbn [List.find]. rewrite bool_decide_eq_true_2 //. by rewrite obs_eqb_refl.
Qed.

Lemma firsts_elem o known new : o ∈ firsts known new -> o ∈ new /\ key o ∉ known.
Proof.
  revert known. induction new as [|x new IH]; intros known; [by intros ?%not_elem_of_nil|]. cbn [firsts]. case_bool_decide as E.
  - intros [? ?]%IH. split; [by right|done].
  - intros [->|[? Hk]%IH]%elem_of_cons; [by split; [left|]|]. rewrite elem_of_app in Hk. split; [by right|tauto].
Qed.

Lemma firsts_known o known new : o ∈ new -> key o ∈ known \/ key o ∈ keys (firsts known new).
Proof.
  revert known. induction new as [|x new IH]; intros known; [by intros ?%not_elem_of_nil|]. cbn [firsts].
  intros [->|Ho]%elem_of_cons; case_bool_decide as E; cbn [map]; rewrite ?elem_of_cons; [by left|auto|by apply IH|].
  destruct (IH (known ++ [key x]) Ho) as [Hk|Hk]; [|auto]. rewrite elem_of_app elem_of_cons elem_of_nil in Hk. tauto.
Qed.

Lemma firsts_none known new : Forall (fun o => key o ∈ known) new -> firsts known new = [].
Proof. induction 1 as [|o new Ho _ IH]; [done|]. cbn [firsts]. by rewrite bool_decide_eq_true_2. Qed.

Lemma firsts_NoDup os new : NoDup (keys os) -> NoDup (keys (os ++ firsts (keys os) new)).
Proof.
  revert os. induction new as [|o new IH]; intros os Hn; [by rewrite app_nil_r|]. cbn [firsts]. case_bool_decide as E; [by apply IH|].
  replace (os ++ o :: firsts (keys os ++ [key o]) new) with ((os ++ [o]) ++ firsts (keys (os ++ [o])) new) by (by rewrite map_app -app_assoc).
  apply IH. rewrite map_app. apply NoDup_app. split; [done|]. split; [|apply NoDup_singleton]. intros k Hk ->%list_elem_of_singleton. done.
Qed.

Lemma kept_perm os os' k : NoDup (keys os) -> os ≡ₚ os' -> kept os' k = kept os k.
Proof.
  intros Hn Hp. assert (Hone : forall l, NoDup (keys l) -> forall o, o ∈ l -> key o = k -> kept l k = Some o).
  { clear. intros l Hn o Ho Hk. unfold kept. induction l as [|x l IH]; [by apply not_elem_of_nil in Ho|]. cbn [map] in Hn. apply NoDup_cons in Hn as [Hx Hn].
    cbn [List.find]. case_bool_decide as E.
    - apply elem_of_cons in Ho as [->|Ho]; [done|]. destruct Hx. rewrite -E -Hk. by apply list_elem_of_fmap_2.
    - apply elem_of_cons in Ho as [->|Ho]; [by destruct E|]. auto. }
  destruct (kept os k) as [o|] eqn:E.
  - apply List.find_some in E as [Ho Hk%bool_decide_eq_true]. apply list_elem_of_In in Ho. apply Hone; [by rewrite -Hp|by rewrite -Hp|done].
  - apply kept_None in E. apply kept_None. intros Hk. apply E. by rewrite Hp.
Qed.

(** ** The series under a path *)

Notation series_of := (sorted_by le).

Record series_ok (ty : ObservationType) (os : list Observation) : Prop := {
  so_rows : Forall (fun o => type_of o = ty /\ well_formed o) os;
  so_keys : NoDup (keys os);
  so_order : Sorted (fun x y => le x y = true) os
}.

(** The disk holds the series [os] under [path]; no file is the empty series. *)
Definition holds (ty : ObservationType) (files : disk) (path : string) (os : list Observation) : Prop :=
  series_ok ty os /\ (files !! path = Some (series_text ty os) \/ files !! path = None /\ os = []).

Lemma holds_load ty files path os : holds ty files path os -> load fromisoformat (files !! path) ty = Ok os.
Proof. intros [[Hrows _ _] [->|[-> ->]]]; [by apply load_written|done]. Qed.

Lemma sorted_by_id os : Sorted (fun x y => le x y = true) os -> series_of os = os.
Proof.
  induction 1 as [|o os Hs IH Ho]; [done|]. cbn [sorted_by]. rewrite IH. destruct Ho as [|x os Hx]; [done|]. cbn [insert_sorted]. by rewrite Hx.
Qed.

Lemma merged_ok ty os new : series_ok ty os -> Forall (fun o => type_of o = ty /\ well_formed o) new ->
  series_ok ty (series_of (os ++ firsts (keys os) new)).
Proof.
  intros [Hrows Hkeys _] Hnew. pose proof (sorted_by_perm le (os ++ firsts (keys os) new)) as Hp. split.
  - rewrite Hp. apply Forall_app_2; [done|]. apply Forall_forall. intros o Ho. apply firsts_elem in Ho as [Ho _]. by eapply (proj1 (Forall_forall _ _) Hnew).
  - rewrite Hp. by apply firsts_NoDup.
  - apply sorted_by_sorted, lex_total.
Qed.

Lemma tmp_ne path : tmp_of path <> path.
Proof. unfold tmp_of. intros E. apply (f_equal String.length) in E. rewrite length_app_s in E. cbn in E. lia. Qed.

(** What a merge does on every outcome of the disk. *)
Lemma merge_and_write_spec outcome path ty new files os : holds ty files path os ->
  Forall (fun o => type_of o = ty /\ well_formed o) new ->
  let all := os ++ firsts (keys os) new in
  merge_and_write fromisoformat outcome path ty new files =
  match outcome with
  | NoDirectory => (files, Err OSError)
  | WriteFails n => (<[tmp_of path := str_take n (series_text ty (series_of all))]> files, Err OSError)
  | RenameFails => (<[tmp_of path := series_text ty (series_of all)]> files, Err OSError)
  | Written =>
      (<[path := series_text ty (series_of all)]> (delete (tmp_of path) files),
       Ok {| mr_existing_count := Z.of_nat (length os); mr_added_count := Z.of_nat (length (firsts (keys os) new));
             mr_conflict_keys := sorted_by tuple_leb (keys (List.filter (disagrees all) new)) |})
  end.
Proof.
  intros Hh Hnew all. pose proof (holds_load _ _ _ _ Hh) as Hl. destruct Hh as [Hok _]. unfold merge_and_write. rewrite Hl.
  pose proof (so_keys _ _ Hok) as Hk. unfold merge. rewrite by_key_of_series // merge_spec. fold all.
  unfold merged. cbn [mg_by_key mg_added_count mg_conflicts app]. unfold pairs. rewrite map_map. cbn [snd]. rewrite map_id.
  rewrite write_rows_ok.
  { eapply Forall_impl; [apply (so_rows _ _ (merged_ok ty os new Hok Hnew))|]. by intros o []. }
  rewrite length_map. by destruct outcome.
Qed.

(** An observation without the record of its collection: what was observed. *)
Definition observed (o : Observation) : Observation :=
  match o with
  | Observed ty o => Observed ty (point (ob_symbol o) (ob_source o) "" "" (ob_observed_at_utc o) (ob_value o))
  | Liquidated l =>
      Liquidated {| lq_symbol := lq_symbol l; lq_observed_at_utc := lq_observed_at_utc l; lq_price := lq_price l; lq_size := lq_size l;
                    lq_side := lq_side l; lq_direction := lq_direction l; lq_method := lq_method l; lq_liquidated_user := lq_liquidated_user l;
                    lq_mark_price := lq_mark_price l; lq_tid := lq_tid l; lq_source := lq_source l; lq_source_detail := ""; lq_ingested_at_utc := "" |}
  end.
(** The file and the time a row was collected from and at. *)
Definition provenance (o : Observation) : string * string :=
  match o with
  | Observed _ o => (ob_source_detail o, ob_ingested_at_utc o)
  | Liquidated l => (lq_source_detail l, lq_ingested_at_utc l)
  end.

(** A new row against the one kept under its key: the same row, or one that
    observed something else. *)
Definition identical (os : list Observation) (o : Observation) : Prop := exists known, kept os (key o) = Some known /\ obs_eqb known o = true.
Definition contradicts (os : list Observation) (o : Observation) : bool :=
  match kept os (key o) with Some known => negb (obs_eqb (observed known) (observed o)) | None => false end.
(** All rows were collected from where, and when, those kept were. *)
Definition one_collection (os new : list Observation) : Prop :=
  forall o known, o ∈ new -> kept os (key o) = Some known -> provenance known = provenance o.

Lemma obs_eqb_observed a b : obs_eqb a b = obs_eqb (observed a) (observed b) && bool_decide (provenance a = provenance b).
Proof.
  assert (Hp : forall x y x' y' : string, String.eqb x x' && String.eqb y y' = bool_decide ((x, y) = (x', y'))).
  { intros x y x' y'. destruct (String.eqb_spec x x') as [->|]; [destruct (String.eqb_spec y y') as [->|]|]; symmetry; cbn;
      [by apply bool_decide_eq_true|apply bool_decide_eq_false; congruence..]. }
  destruct a as [ty a|a], b as [ty' b|b]; try done; cbn; rewrite -Hp ?andb_true_r !andb_assoc; done.
Qed.

Lemma disagrees_observed os o : contradicts os o = true -> disagrees os o = true.
Proof.
  unfold contradicts, disagrees. destruct (kept os (key o)) as [known|]; [|done]. rewrite (obs_eqb_observed known o). by destruct (obs_eqb (observed known) (observed o)).
Qed.

Lemma disagrees_one_collection os new : one_collection os new ->
  List.filter (disagrees os) new = List.filter (contradicts os) new.
Proof.
  intros Hc. apply List.filter_ext_in. intros o Ho%list_elem_of_In. unfold disagrees, contradicts.
  destruct (kept os (key o)) as [known|] eqn:E; [|done]. rewrite (obs_eqb_observed known o) (Hc o known Ho E) bool_decide_eq_true_2 //. by rewrite andb_true_r.
Qed.

(** What a merge reports: every new row that contradicts the one kept, no
    new row that is identical to it; of rows of one collection it is exactly
    the keys of those that contradict. *)
Definition reports (os new : list Observation) (conflicts : list (list string)) : Prop :=
  (forall o, o ∈ new -> contradicts os o = true -> key o ∈ conflicts) /\
  (forall k, k ∈ conflicts -> exists o, o ∈ new /\ key o = k /\ ~ identical os o) /\
  (one_collection os new -> conflicts = sorted_by tuple_leb (keys (List.filter (contradicts os) new))).

Lemma conflicts_reported os new : reports os new (sorted_by tuple_leb (keys (List.filter (disagrees os) new))).
Proof.
  split; [|split].
  - intros o Ho Hc. rewrite sorted_by_perm. apply list_elem_of_fmap_2, list_elem_of_In, List.filter_In.
    split; [by apply list_elem_of_In|by apply disagrees_observed].
  - intros k. rewrite sorted_by_perm. intros (o & -> & Ho%list_elem_of_In)%list_elem_of_fmap. apply List.filter_In in Ho as [Ho Hd].
    exists o. split; [by apply list_elem_of_In|]. split; [done|]. intros (known & Hk & He). unfold disagrees in Hd. by rewrite Hk He in Hd.
  - intros Hc. by rewrite (disagrees_one_collection _ _ Hc).
Qed.

(** C38: merging is exact. Over a file that holds a series, or none, and rows the
    constructors accept: the merge succeeds exactly when the disk takes it, and
    the file then holds, in the order of time and symbol, every row it held, and
    the first new row of every key it did not hold, nothing else; it is read back
    as that list. The counts are those of the rows held and added. Every new row
    that observed something else than the row kept under its key is reported,
    an identical row never is, and of rows of one collection exactly the former
    are. When the disk refuses, at whatever point, the series is as it was. No
    other file but the temporary one changes. *)
Theorem merge_exact outcome path ty new files os : holds ty files path os ->
  Forall (fun o => type_of o = ty /\ well_formed o) new ->
  let added := firsts (keys os) new in
  let '(files', r) := merge_and_write fromisoformat outcome path ty new files in
  (forall other, other <> path -> other <> tmp_of path -> files' !! other = files !! other) /\
  match r with
  | Ok result =>
      outcome = Written /\ holds ty files' path (series_of (os ++ added)) /\
      load fromisoformat (files' !! path) ty = Ok (series_of (os ++ added)) /\
      mr_existing_count result = Z.of_nat (length os) /\ mr_added_count result = Z.of_nat (length added) /\
      reports (os ++ added) new (mr_conflict_keys result)
  | Err e => outcome <> Written /\ e = OSError /\ files' !! path = files !! path
  end.
Proof.
  intros Hh Hnew added. rewrite (merge_and_write_spec outcome path ty new files os Hh Hnew). fold added.
  pose proof (tmp_ne path) as Hne. pose proof (merged_ok ty os new (proj1 Hh) Hnew) as Hok. fold added in Hok.
  assert (Hw : holds ty (<[path := series_text ty (series_of (os ++ added))]> (delete (tmp_of path) files)) path (series_of (os ++ added)))
    by (split; [done|]; left; by rewrite lookup_insert_eq).
  destruct outcome; (split; [intros other H1 H2; by rewrite ?lookup_insert_ne ?lookup_delete_ne|]).
  4: { pose proof (holds_load _ _ _ _ Hw). cbn [mr_existing_count mr_added_count mr_conflict_keys]. pose proof (conflicts_reported (os ++ added) new). done. }
  all: split_and!; try done; by rewrite ?lookup_insert_ne.
Qed.

(** Collecting again is harmless. After a successful merge, merging the same
    rows once more adds nothing, leaves the file as it is to the character and
    reports the same conflicts. *)
Theorem merge_idempotent path ty new files os files' r : holds ty files path os ->
  Forall (fun o => type_of o = ty /\ well_formed o) new ->
  merge_and_write fromisoformat Written path ty new files = (files', Ok r) ->
  merge_and_write fromisoformat Written path ty new files' =
  (files', Ok {| mr_existing_count := mr_existing_count r + mr_added_count r; mr_added_count := 0; mr_conflict_keys := mr_conflict_keys r |}).
Proof.
  intros Hh Hnew. rewrite (merge_and_write_spec Written path ty new files os Hh Hnew). set (all := os ++ firsts (keys os) new). intros E; injection E as <- <-. cbn [mr_existing_count mr_added_count mr_conflict_keys].
  pose proof (merged_ok ty os new (proj1 Hh) Hnew) as Hok. fold all in Hok. pose proof (sorted_by_perm le all) as Hp.
  set (files' := <[path := _]> _). assert (Hw : holds ty files' path (series_of all)) by (split; [done|]; left; by rewrite /files' lookup_insert_eq).
  rewrite (merge_and_write_spec Written path ty new files' _ Hw Hnew).
  assert (Hnone : firsts (keys (series_of all)) new = []).
  { apply firsts_none, Forall_forall. intros o Ho. rewrite Hp /all map_app elem_of_app. by apply firsts_known. }
  rewrite Hnone app_nil_r (sorted_by_id _ (so_order _ _ Hok)). f_equal.
  - unfold files'. rewrite delete_insert_ne; [apply tmp_ne|]. by rewrite insert_insert_eq delete_delete_eq.
  - f_equal. f_equal; [rewrite Hp /all length_app; lia|]. f_equal. f_equal. apply List.filter_ext. intros o. unfold disagrees.
    rewrite (kept_perm all (series_of all)) //. by apply firsts_NoDup, (so_keys _ _ (proj1 Hh)).
Qed.

(** ** The pages of a venue *)

Lemma mapM_all {A B} (f : A -> result B) l : Forall (fun x => is_ok (f x) = true) l ->
  exists ys, mapM f l = Ok ys /\ Forall2 (fun x y => f x = Ok y) l ys.
Proof.
  induction 1 as [|x l Hx _ (ys & Hys & H2)]; [by exists []|]. destruct (f x) as [y|] eqn:E; [|done]. exists (y :: ys).
  cbn [mapM]. rewrite E. cbn [mbind result_bind]. rewrite Hys. split; [done|by constructor].
Qed.

Section pages.
Context {T : Type} (post_json : list (string * json) -> T -> T * response json) (clock : M T string).
Context (symbol : Symbol) (end_ms : Z).
Notation pages_from := (fetch_pages fromisoformat post_json symbol end_ms).

Lemma page_grows ingested cursor body os next : page fromisoformat symbol end_ms ingested cursor body = Ok (os, Some next) -> cursor < next.
Proof.
  unfold page. destruct body as [| | | |[|row rows]|]; try done. destruct (mapM _ _) as [os'|]; [|done]. cbn [mbind result_bind].
  destruct (item _ _ ≫= _) as [t|]; [|done]. cbn [mbind result_bind]. case_match eqn:E; [done|]. intros [= <- <-]. apply orb_false_iff in E as [_ E%Z.leb_gt].
  done.
Qed.

Notation turn ingested := (page_turn fromisoformat post_json symbol end_ms ingested).

Lemma turn_grows ingested s cursor os s' next os' : turn ingested (s, (cursor, os)) = inl (s', (next, os')) -> cursor < end_ms /\ cursor < next.
Proof.
  unfold page_turn. destruct (Z.ltb_spec cursor end_ms) as [Hc|]; [|done]. cbn [negb]. destruct (post_json _ s) as [s1 [body| | |]]; try done.
  destruct (page _ _ _ _ _ body) as [[new [n|]]|] eqn:E; try done. intros [= <- <- <-]. apply page_grows in E. done.
Qed.

(** With as many turns as the distance to the end and one, the loop has ended. *)
Lemma turns_end ingested s cursor os n m : (Z.to_nat (end_ms - cursor) < n)%nat -> (Z.to_nat (end_ms - cursor) < m)%nat ->
  exists r, turns_nat (turn ingested) n (s, (cursor, os)) = inr r /\ turns_nat (turn ingested) m (s, (cursor, os)) = inr r.
Proof.
  revert s cursor os m. induction n as [|n IH]; intros s cursor os m Hn Hm; [lia|]. destruct m as [|m]; [lia|]. cbn [turns_nat].
  destruct (turn ingested (s, (cursor, os))) as [[s' [next os']]|r] eqn:E; [|by exists r]. apply turn_grows in E. apply IH; lia.
Qed.

(** Paging ends. Whatever the venue answers, the collection of pages is the loop
    of the code, and the distance to the end of the range bounds its turns: from
    any cursor it stops or goes on from a later one. *)
Theorem pages_terminate ingested cursor os s :
  pages_from ingested cursor os s =
  match turn ingested (s, (cursor, os)) with inr r => r | inl (s, (next, os)) => pages_from ingested next os s end.
Proof.
  unfold fetch_pages. rewrite !turns_nat_spec.
  destruct (turns_end ingested s cursor os (Pos.to_nat (Z.to_pos (end_ms - cursor + 1))) (S (Pos.to_nat (Z.to_pos (end_ms - cursor + 1)))))
    as (r & -> & Hr); [lia..|]. cbn [turns_nat] in Hr. destruct (turn ingested _) as [[s' [next os']]|r'] eqn:E; [|by injection Hr].
  apply turn_grows in E. rewrite turns_nat_spec.
  destruct (turns_end ingested s' next os' (Pos.to_nat (Z.to_pos (end_ms - cursor + 1))) (Pos.to_nat (Z.to_pos (end_ms - next + 1))))
    as (r' & Hr1 & ->); [lia..|]. congruence.
Qed.

(** A venue with a series of settlements in the order of time, that answers each
    request with the first rows of the range, at most a page. *)
Context (series : list (Z * string)) (row : Z * string -> json).
Hypothesis Hrow : forall p, item "time" (row p) = Ok (JInt p.1) /\ item "fundingRate" (row p) = Ok (JStr p.2).
Hypothesis Hseries : StronglySorted (fun p q => p.1 < q.1) series.
Definition within (cursor : Z) (p : Z * string) : bool := (cursor <=? p.1) && (p.1 <? end_ms).
Definition honest : Prop := forall cursor s,
  (post_json (page_request symbol cursor end_ms) s).2 = Body (JList (map row (take (Z.to_nat _PAGE_SIZE_CAP) (List.filter (within cursor) series)))).

(** The observation of a settlement, by whichever page it came. *)
Definition settlement ingested (p : Z * string) (o : Observation) : Prop :=
  exists cursor, funding_row fromisoformat symbol (page_detail symbol cursor end_ms) ingested (row p) = Ok o.

Lemma filter_later (l : list (Z * string)) x cursor : StronglySorted (fun p q => p.1 < q.1) l -> forall l1 l2,
  List.filter (within cursor) l = l1 ++ x :: l2 -> cursor <= x.1 -> List.filter (within (x.1 + 1)) l = l2.
Proof.
  induction 1 as [|p l Hl IH Hp]; intros l1 l2 E Hx; [by destruct l1|]. cbn [List.filter] in E |- *.
  assert (Hin : x.1 < end_ms -> forall q, q ∈ l -> within cursor q = true -> cursor <= q.1) by
    (intros _ q _ [?%Z.leb_le _]%andb_true_iff; done).
  destruct (within cursor p) eqn:Hw.
  - destruct l1 as [|p' l1]; injection E as -> E.
    + replace (within (x.1 + 1) x) with false by (unfold within; symmetry; apply andb_false_iff; left; apply Z.leb_gt; lia).
      rewrite -E. clear -Hp Hx. induction Hp as [|q l Hq _ IH]; [done|]. cbn [List.filter]. rewrite IH. unfold within.
      by rewrite (proj2 (Z.leb_le (x.1 + 1) q.1)) ?(proj2 (Z.leb_le cursor q.1)); [lia..|].
    + assert (Hpx : p'.1 < x.1).
      { eapply (proj1 (Forall_forall _ _) Hp). apply list_elem_of_In. apply (List.filter_In (within cursor)). rewrite E. apply in_or_app. right. by left. }
      replace (within (x.1 + 1) p') with false by (unfold within; symmetry; apply andb_false_iff; left; apply Z.leb_gt; lia).
      by apply (IH l1).
  - assert (Hpx : p.1 < x.1).
    { eapply (proj1 (Forall_forall _ _) Hp). apply list_elem_of_In. apply (List.filter_In (within cursor)). rewrite E. apply in_or_app. right. by left. }
    replace (within (x.1 + 1) p) with false by (unfold within; symmetry; apply andb_false_iff; left; apply Z.leb_gt; lia).
    by apply (IH l1).
Qed.

(** One page of the venue. *)
Lemma page_rows ingested cursor rows : rows <> [] ->
  Forall (fun p => is_ok (funding_row fromisoformat symbol (page_detail symbol cursor end_ms) ingested (row p)) = true) rows ->
  Forall (fun p => cursor <= p.1) rows ->
  exists os l x, rows = l ++ [x] /\ Forall2 (settlement ingested) rows os /\
  page fromisoformat symbol end_ms ingested cursor (JList (map row rows)) =
  Ok (os, if Z.of_nat (length rows) <? _PAGE_SIZE_CAP then None else Some (x.1 + 1)).
Proof.
  intros Hne Hok Hlow. destruct (List.exists_last Hne) as (l & x & ->). unfold page.
  destruct (mapM_all (funding_row fromisoformat symbol (page_detail symbol cursor end_ms) ingested) (map row (l ++ [x]))) as (os & Hos & H2);
    [by apply Forall_map|].
  apply Forall2_fmap_l in H2. exists os, l, x. split; [done|]. split; [eapply Forall2_impl; [exact H2|]; intros p o Ho; by exists cursor|].
  assert (Hlast : List.last (map row (l ++ [x])) JNull = row x) by (rewrite map_app /= List.last_last //).
  assert (Hlen : length (map row (l ++ [x])) = length (l ++ [x])) by apply length_map.
  destruct (map row (l ++ [x])) as [|j js] eqn:Ej; [by destruct l|]. rewrite Hos. cbn [mbind result_bind]. rewrite Hlast (proj1 (Hrow x)).
  cbn [mbind result_bind ms_of]. rewrite Hlen. apply Forall_app in Hlow as [_ Hlow]. apply Forall_inv in Hlow.
  assert (Hc : (x.1 + 1 <=? cursor) = false) by (apply Z.leb_gt; lia). by rewrite Hc orb_false_r.
Qed.

Lemma within_low cursor (l : list (Z * string)) : Forall (fun p => cursor <= p.1) (List.filter (within cursor) l).
Proof. apply Forall_forall. intros p Hp. apply list_elem_of_In, List.filter_In in Hp as [_ [?%Z.leb_le _]%andb_true_iff]. done. Qed.

Lemma within_none cursor (l : list (Z * string)) : end_ms <= cursor -> List.filter (within cursor) l = [].
Proof.
  intros Hc. induction l as [|p l IH]; [done|]. cbn [List.filter]. rewrite IH. unfold within.
  destruct (Z.leb_spec cursor p.1), (Z.ltb_spec p.1 end_ms); try done. lia.
Qed.

Lemma fetch_all ingested cursor os s : honest ->
  Forall (fun p => forall c, is_ok (funding_row fromisoformat symbol (page_detail symbol c end_ms) ingested (row p)) = true) (List.filter (within cursor) series) ->
  exists new, (pages_from ingested cursor os s).2 = Ok (os ++ new) /\ Forall2 (settlement ingested) (List.filter (within cursor) series) new.
Proof.
  intros Hv. remember (Z.to_nat (end_ms - cursor)) as n eqn:En. revert cursor os s En. induction (lt_wf n) as [n _ IH]. intros cursor os s -> Hok.
  rewrite pages_terminate. unfold page_turn. destruct (Z.ltb_spec cursor end_ms) as [Hc|Hc]; cbn [negb]; [|rewrite within_none //; exists []; by rewrite app_nil_r].
  pose proof (Hv cursor s) as Hb. destruct (post_json _ s) as [s' b]. cbn [snd] in Hb. subst b.
  pose proof (within_low cursor series) as Hlow.
  remember (List.filter (within cursor) series) as F eqn:EF. set (k := Z.to_nat _PAGE_SIZE_CAP).
  destruct (decide (F = [])) as [->|HF]; [by exists []|].
  destruct (page_rows ingested cursor (take k F)) as (new & l & x & Hl & H2 & ->).
  - by destruct F.
  - apply Forall_take. eapply Forall_impl; [exact Hok|]. intros p Hp. apply Hp.
  - by apply Forall_take.
  - destruct (Z.ltb_spec (Z.of_nat (length (take k F))) _PAGE_SIZE_CAP) as [Hs|Hs]; cbn [snd].
    + exists new. split; [done|]. rewrite take_ge // in H2. rewrite length_take in Hs. unfold k, _PAGE_SIZE_CAP in *. lia.
    + assert (HFx : F = l ++ x :: drop k F) by (rewrite -{1}(take_drop k F) Hl -app_assoc //).
      assert (Hx : cursor <= x.1) by (rewrite HFx in Hlow; apply Forall_app in Hlow as [_ Hlow]; by inversion Hlow).
      assert (Hrest : List.filter (within (x.1 + 1)) series = drop k F) by (eapply (filter_later series x cursor Hseries l); [by rewrite -EF|done]).
      destruct (IH (Z.to_nat (end_ms - (x.1 + 1))) ltac:(lia) (x.1 + 1) (os ++ new) s' eq_refl) as (rest & Hr & H2'); [rewrite Hrest; by apply Forall_drop|].
      exists (new ++ rest). rewrite app_assoc. split; [done|].
      rewrite Hrest in H2'. rewrite -(take_drop k F). by apply Forall2_app.
Qed.

(** C39: the pages are complete. Against a venue whose series is in the order of
    time, at whatever length, and that answers a request with the first rows of
    the range up to its page size, the collection returns one observation for
    each settlement of the range, in order: none is lost or doubled where one page
    ends and the next begins. *)
Theorem fetch_range_complete start_ms ingested s : honest -> 0 <= start_ms <= end_ms -> (clock s).2 = Ok ingested ->
  Forall (fun p => forall c, is_ok (funding_row fromisoformat symbol (page_detail symbol c end_ms) ingested (row p)) = true) (List.filter (within start_ms) series) ->
  exists os, (fetch_funding_rate_range fromisoformat post_json clock symbol start_ms end_ms s).2 = Ok os /\
  Forall2 (settlement ingested) (List.filter (within start_ms) series) os.
Proof.
  intros Hv [H0 H1] Hclock Hok. unfold fetch_funding_rate_range. rewrite !run_lift /require (proj2 (Z.leb_le 0 start_ms)) // (proj2 (Z.leb_le _ _)) //.
  rewrite run_bind. destruct (clock s) as [s' r]. cbn [snd] in Hclock. subst r. by apply (fetch_all _ _ []).
Qed.
End pages.

(** ** The quality report *)

Definition occurrences (k : list string) (os : list Observation) : nat := length (List.filter (fun o => bool_decide (k = point_key o)) os).
Notation seen_in os := (foldl (fun seen o => count_key (point_key o) seen) [] os).

(** What a table of counts says of the rows counted so far. *)
Record counted (os : list Observation) (seen : list (list string * Z)) : Prop := {
  ct_keys : NoDup seen.*1;
  ct_counts : forall k n, (k, n) ∈ seen -> n = Z.of_nat (occurrences k os) /\ 1 <= n;
  ct_all : forall k, (0 < occurrences k os)%nat -> k ∈ seen.*1;
  ct_total : foldr (fun p n => p.2 + n) 0 seen = Z.of_nat (length os)
}.

Lemma occurrences_snoc k os o : occurrences k (os ++ [o]) = (occurrences k os + if bool_decide (k = point_key o) then 1 else 0)%nat.
Proof. unfold occurrences. rewrite List.filter_app length_app. cbn [List.filter]. by case_bool_decide. Qed.

Lemma count_key_keys k seen : (count_key k seen).*1 = if bool_decide (k ∈ seen.*1) then seen.*1 else seen.*1 ++ [k].
Proof.
  induction seen as [|[j n] seen IH]; [done|]. cbn [count_key]. destruct (decide (k = j)) as [->|E].
  - rewrite !bool_decide_eq_true_2 //. by left.
  - rewrite (bool_decide_eq_false_2 (k = j)) // !fmap_cons IH. cbn [fst]. case_bool_decide as E1; case_bool_decide as E2; try done.
    + destruct E2. by right.
    + by apply elem_of_cons in E2 as [?|?].
Qed.

Lemma count_key_total k seen : foldr (fun p n => p.2 + n) 0 (count_key k seen) = foldr (fun p n => p.2 + n) 0 seen + 1.
Proof. induction seen as [|[k' n] seen IH]; [done|]. cbn [count_key]. case_bool_decide; cbn [foldr snd]; lia. Qed.

Lemma count_key_elem k seen k' n : NoDup seen.*1 -> (k', n) ∈ count_key k seen ->
  (k' <> k /\ (k', n) ∈ seen) \/ (k' = k /\ ((k, n - 1) ∈ seen \/ n = 1 /\ k ∉ seen.*1)).
Proof.
  induction seen as [|[j m] seen IH]; intros Hn.
  - cbn [count_key]. intros [= -> ->]%list_elem_of_singleton. right. split; [done|]. right. split; [done|]. apply not_elem_of_nil.
  - apply NoDup_cons in Hn as [Hj Hn]. cbn [count_key fmap list_fmap fst] in *. case_bool_decide as E.
    + subst j. intros [[= -> ->]|Hin]%elem_of_cons.
      * right. split; [done|]. left. replace (m + 1 - 1) with m by lia. by left.
      * left. split; [|by right]. intros ->. apply Hj. by apply (list_elem_of_fmap_2 fst) in Hin.
    + intros [[= -> ->]|Hin]%elem_of_cons; [left; split; [done|by left]|].
      destruct (IH Hn Hin) as [[? ?]|[-> [?|[-> ?]]]]; [left; split; [done|by right]|right; split; [done|left; by right]|].
      right. split; [done|]. right. split; [done|]. by intros [?|?]%elem_of_cons.
Qed.

Lemma counted_step os seen o : counted os seen -> counted (os ++ [o]) (count_key (point_key o) seen).
Proof.
  intros [Hk Hc Ha Ht]. split.
  - rewrite count_key_keys. case_bool_decide as E; [done|]. apply NoDup_app. split; [done|]. split; [|apply NoDup_singleton].
    intros k Hin ->%list_elem_of_singleton. done.
  - intros k n [[Hne Hin]|[-> [Hin|[-> Hnew]]]]%count_key_elem; [| | |done]; rewrite occurrences_snoc.
    + rewrite bool_decide_eq_false_2 // Nat.add_0_r. by apply Hc.
    + rewrite bool_decide_eq_true_2 //. apply Hc in Hin. lia.
    + rewrite bool_decide_eq_true_2 //. destruct (decide (0 < occurrences (point_key o) os)%nat) as [H0|H0]; [by destruct Hnew; apply Ha|]. lia.
  - intros k. rewrite occurrences_snoc count_key_keys. intros H0. case_bool_decide as E1; case_bool_decide as E2.
    + by subst k.
    + subst k. rewrite elem_of_app. right. by left.
    + apply Ha. lia.
    + rewrite elem_of_app. left. apply Ha. lia.
  - rewrite count_key_total Ht length_app. cbn [length]. lia.
Qed.

Lemma seen_counted os : counted os (seen_in os).
Proof.
  induction os as [|o os IH] using rev_ind.
  - split; [apply NoDup_nil_2|by intros k n ?%not_elem_of_nil|by intros k ?%Nat.lt_irrefl|done].
  - rewrite foldl_app. by apply counted_step.
Qed.

Lemma excess (seen : list (list string * Z)) : Forall (fun p => 1 <= p.2) seen ->
  foldr (fun p n => p.2 - 1 + n) 0 (List.filter (fun p => 1 <? p.2) seen) = foldr (fun p n => p.2 + n) 0 seen - Z.of_nat (length seen).
Proof. induction 1 as [|[k n] seen Hn _ IH]; [done|]. cbn [List.filter foldr snd length] in *. destruct (Z.ltb_spec 1 n); cbn [foldr snd]; lia. Qed.

Lemma out_of_order_nil i ts : out_of_order i ts = [] <-> Sorted Z.le ts.
Proof.
  revert i. induction ts as [|t ts IH]; intros i; [by split|]. destruct ts as [|t' ts]; [split; [by repeat constructor|done]|].
  change (out_of_order i (t :: t' :: ts)) with ((if t' <? t then [i] else []) ++ out_of_order (S i) (t' :: ts)). destruct (Z.ltb_spec t' t).
  - split; [done|]. intros Hs. apply Sorted_inv in Hs as [_ Hs]. inversion Hs. lia.
  - cbn [app]. rewrite IH. split; [intros Hs; constructor; [done|by constructor]|]. by intros [? _]%Sorted_inv.
Qed.

(** Two points in a row that are not too far apart. *)
Definition near (tolerance : decimal) (t t' : Z) : Prop := exists gap, gap_seconds t t' = Ok gap /\ dltb tolerance gap = false.

Lemma gaps_nil tolerance (l : list (Z * Observation)) gaps : gaps_of tolerance l = Ok gaps -> gaps = [] <-> Sorted (near tolerance) l.*1.
Proof.
  revert gaps. induction l as [|[t o] l IH]; intros gaps; [intros [= <-]; by split|]. destruct l as [|[t' o'] l]; [intros [= <-]; split; [by repeat constructor|done]|].
  change (gaps_of tolerance ((t, o) :: (t', o') :: l)) with
    (gap ← gap_seconds t t'; gaps ← gaps_of tolerance ((t', o') :: l);
     Ok (if dltb tolerance gap then (observed_at_utc o, observed_at_utc o', gap) :: gaps else gaps)).
  destruct (gap_seconds t t') as [gap|] eqn:Eg; [|done]. cbn [mbind result_bind]. destruct (gaps_of _ _) as [rest|]; [|done]. cbn [mbind result_bind].
  intros [= <-]. specialize (IH rest eq_refl). cbn [fmap list_fmap fst] in IH |- *. destruct (dltb tolerance gap) eqn:Ed.
  - split; [done|]. intros Hs. apply Sorted_inv in Hs as [_ Hs]. apply HdRel_inv in Hs as (g & Hg & Hd). congruence.
  - rewrite IH. split; [intros Hs; constructor; [done|constructor; by exists gap]|]. by intros [? _]%Sorted_inv.
Qed.

Lemma sorted_zip (times : list Z) (os : list Observation) : Sorted Z.le times ->
  sorted_by (fun p q => p.1 <=? q.1) (zip times os) = zip times os.
Proof.
  revert os. induction times as [|t times IH]; intros os Hs; [done|]. destruct os as [|o os]; [done|]. apply Sorted_inv in Hs as [Hs Ht].
  cbn [zip zip_with sorted_by]. change (zip_with pair times os) with (zip times os). rewrite IH //. destruct times as [|t' times]; [done|]. destruct os as [|o' os]; [done|].
  cbn [zip zip_with insert_sorted fst]. apply HdRel_inv in Ht. by rewrite (proj2 (Z.leb_le t t')).
Qed.

Lemma mapM_Forall2 {A B} (f : A -> result B) l ys : mapM f l = Ok ys -> Forall2 (fun x y => f x = Ok y) l ys.
Proof.
  revert ys. induction l as [|x l IH]; intros ys; [intros [= <-]; constructor|]. cbn [mapM]. destruct (f x) as [y|] eqn:E; [|done].
  cbn [mbind result_bind]. destruct (mapM f l) as [ys'|]; [|done]. cbn [mbind result_bind]. intros [= <-]. constructor; auto.
Qed.

Lemma duplicates_none os : NoDup (map point_key os) <-> forall k, (occurrences k os < 2)%nat.
Proof.
  unfold occurrences. induction os as [|o os IH]; [split; [intros _ k; cbn; lia|intros _; apply NoDup_nil_2]|]. cbn [map]. rewrite NoDup_cons IH. clear IH.
  assert (Hin : point_key o ∈ map point_key os <-> (0 < length (List.filter (fun x => bool_decide (point_key o = point_key x)) os))%nat).
  { split.
    - intros (x & Ex & Hx)%list_elem_of_fmap. destruct (List.filter _ os) as [|y l] eqn:E; [|cbn; lia].
      assert (Hf : In x []) by (rewrite -E; apply List.filter_In; rewrite bool_decide_eq_true_2 //; by apply list_elem_of_In in Hx). done.
    - destruct (List.filter _ os) as [|y l] eqn:E; [cbn; lia|]. intros _. assert (Hy : In y (y :: l)) by by left. rewrite -E in Hy.
      apply List.filter_In in Hy as [Hy ->%bool_decide_eq_true]. by apply list_elem_of_fmap_2, list_elem_of_In. }
  rewrite Hin. split.
  - intros [H0 Hl] k. cbn [List.filter]. specialize (Hl k). case_bool_decide as E; [|done]. subst k. cbn [length]. lia.
  - intros Hl. split; [specialize (Hl (point_key o)); cbn [List.filter] in Hl; rewrite bool_decide_eq_true_2 // in Hl; cbn [length] in Hl; lia|].
    intros k. specialize (Hl k). cbn [List.filter] in Hl. case_bool_decide; cbn [length] in Hl; lia.
Qed.

(** The quality report is exact. Of a series whose times parse, the report
    counts every point once: its distinct keys and its duplicates add up to all
    points, and the duplicate keys are those that occur twice or more. It calls
    the series clean exactly when no key occurs twice, time never goes back from
    one point to the next, and no step is longer than the tolerated gap. *)
Theorem quality_exact os interval factor r : assess_quality fromisoformat os (Some interval) factor = Ok r ->
  exists times, Forall2 (fun o t => point_time fromisoformat o = Ok t) os times /\
  dq_total_count r = Z.of_nat (length os) /\ dq_unique_count r + dq_duplicate_count r = dq_total_count r /\
  (forall k, k ∈ dq_duplicate_keys r <-> (2 <= occurrences k os)%nat) /\
  (dq_clean r = true <-> NoDup (map point_key os) /\ Sorted Z.le times /\ Sorted (near (dmul (dint interval) factor)) times).
Proof.
  unfold assess_quality. destruct (decide (os = [])) as [->|Hne]; [done|].
  replace (require (match os with [] => false | _ => true end) HistoricalDataError) with (Ok tt) by by destruct os.
  unfold require. cbn [mbind result_bind]. destruct (0 <? interval); [|done]. cbn [mbind result_bind].
  destruct (mapM _ os) as [times|] eqn:Et; [|done]. cbn [mbind result_bind]. destruct (gaps_of _ _) as [gaps|] eqn:Eg; [|done]. cbn [mbind result_bind].
  intros E; injection E as <-. apply mapM_Forall2 in Et as H2. exists times. cbn [dq_total_count dq_unique_count dq_duplicate_count dq_duplicate_keys dq_clean].
  destruct (seen_counted os) as [Hk Hc Ha Ht].
  assert (H1 : Forall (fun p => 1 <= p.2) (seen_in os)) by (apply Forall_forall; intros [k n] Hin; by apply Hc in Hin as [_ ?]).
  assert (Hx := excess _ H1). rewrite Ht in Hx.
  assert (Hd : forall k, k ∈ map fst (List.filter (fun p => 1 <? p.2) (seen_in os)) <-> (2 <= occurrences k os)%nat).
  { intros k. split.
    - intros ([k' n] & -> & Hin)%list_elem_of_fmap. apply list_elem_of_In, List.filter_In in Hin as [Hin H2'%Z.ltb_lt]. apply list_elem_of_In, Hc in Hin. cbn in *. lia.
    - intros Hn. destruct (proj1 (list_elem_of_fmap _ _ _) (Ha k ltac:(lia))) as ([k' n] & -> & Hin). apply (list_elem_of_fmap_2 fst _ (k', n)).
      apply list_elem_of_In, List.filter_In. split; [by apply list_elem_of_In|]. apply Hc in Hin. cbn in *. apply Z.ltb_lt. lia. }
  split_and!; [done|done|lia|intros k; by rewrite sorted_by_perm|].
  rewrite !andb_true_iff !Nat.eqb_eq !length_zero_iff_nil out_of_order_nil Z.eqb_eq Hx.
  assert (Hdup : Z.of_nat (length os) - Z.of_nat (length (seen_in os)) = 0 <-> NoDup (map point_key os)).
  { rewrite -Hx duplicates_none. split.
    - intros H0 k. destruct (decide (2 <= occurrences k os)%nat) as [Hk2|]; [|lia]. apply Hd in Hk2.
      assert (Hpos : Forall (fun p => 1 < p.2) (List.filter (fun p => 1 <? p.2) (seen_in os))).
      { apply Forall_forall. intros p Hp. by apply list_elem_of_In, List.filter_In in Hp as [_ ?%Z.ltb_lt]. }
      destruct (List.filter _ (seen_in os)) as [|p l]; [by apply not_elem_of_nil in Hk2|]. exfalso. clear -H0 Hpos. inversion Hpos as [|?? Hp Hl]; subst. cbn [foldr] in H0.
      assert (0 <= foldr (fun p n => p.2 - 1 + n) 0 l) by (clear -Hl; induction Hl; cbn [foldr]; lia). lia.
    - intros Hk2. destruct (List.filter _ (seen_in os)) as [|p l] eqn:El; [done|]. exfalso. specialize (Hd p.1). destruct Hd as [Hd _].
      specialize (Hk2 p.1). specialize (Hd ltac:(by left)). lia. }
  rewrite Hdup. split; [intros [[Hn Hs] Hg]|intros (Hn & Hs & Hg)]; split_and?; try done.
  - rewrite sorted_zip // in Eg. apply (gaps_nil _ _ _ Eg) in Hg. rewrite fst_zip in Hg; [by rewrite (Forall2_length _ _ _ H2)|done].
  - rewrite sorted_zip // in Eg. apply (gaps_nil _ _ _ Eg). rewrite fst_zip //. by rewrite (Forall2_length _ _ _ H2).
Qed.

(** ** A collection *)

(** The periods still to be fetched. *)
Definition missing {P} (covered : P -> bool) (periods : list P) : list P := List.filter (fun x => negb (covered x)) periods.

(** Fetching periods one after the other, and nothing else. *)
Fixpoint fetch_each {T P A} (fetch : P -> M T A) (periods : list P) : M T (list A) :=
  match periods with [] => mret [] | x :: periods => a ← fetch x; answers ← fetch_each fetch periods; mret (a :: answers) end.

(** What answers are: the rows of the periods the source has, and how many it
    does not have. *)
Definition published {R} (answers : list (option (list R))) : list R := concat (map (default []) answers).
Definition absent {R} (answers : list (option (list R))) : Z := Z.of_nat (length (List.filter none answers)).

(** A pass over periods is the fetching of those that are missing. *)
Lemma visit_all_spec {T P R} (fetch : P -> M T (option (list R))) (covered : P -> bool) periods p s :
  visit_all fetch covered periods p s =
  match fetch_each fetch (missing covered periods) s with
  | (s', Ok answers) =>
      (s', Ok {| pg_requested := pg_requested p + Z.of_nat (length periods);
                 pg_fetched := pg_fetched p + Z.of_nat (length (missing covered periods));
                 pg_skipped := pg_skipped p + (Z.of_nat (length periods) - Z.of_nat (length (missing covered periods)));
                 pg_unavailable := pg_unavailable p + absent answers; pg_rows := pg_rows p ++ published answers |})
  | (s', Err e) => (s', Err e)
  end.
Proof.
  unfold missing, absent, published. revert p s. induction periods as [|x periods IH]; intros p s.
  { destruct p. cbn. by rewrite app_nil_r !Z.add_0_r. }
  cbn [visit_all]. rewrite run_bind. unfold visit. cbn [List.filter]. destruct (covered x) eqn:Ec; cbn [negb].
  - change ((mret ?a : M T _) s) with (s, Ok (A := progress R) a). cbv beta iota. rewrite IH. cbn [pg_requested pg_fetched pg_skipped pg_unavailable pg_rows length].
    destruct (fetch_each _ _ s) as [s' [answers|]]; [|done]. do 3 f_equal; lia.
  - cbn [fetch_each]. rewrite !run_bind. destruct (fetch x s) as [s' [a|]]; [|done].
    change ((mret ?a : M T _) s') with (s', Ok (A := progress R) a). cbv beta iota. rewrite IH run_bind. cbn [pg_requested pg_fetched pg_skipped pg_unavailable pg_rows length].
    destruct (fetch_each _ _ s') as [s'' [answers|]]; [|done]. cbn [mret M_ret List.filter map concat length]. rewrite app_assoc.
    destruct a; cbn [none length default]; do 3 f_equal; lia.
Qed.

Lemma fetch_each_answers {T P A} (fetch : P -> M T A) (Q : A -> Prop) periods : (forall x s a, (fetch x s).2 = Ok a -> Q a) ->
  forall s s' answers, fetch_each fetch periods s = (s', Ok answers) -> Forall Q answers.
Proof.
  intros Hf. induction periods as [|x periods IH]; intros s s' answers; cbn [fetch_each]; [intros [= <- <-]; constructor|]. rewrite run_bind.
  pose proof (Hf x s) as Hx. destruct (fetch x s) as [s1 [a|]]; [|done]. rewrite run_bind.
  destruct (fetch_each _ _ s1) as [s2 [l|]] eqn:E; [|done]. intros [= <- <-]. constructor; [by apply Hx|by eapply IH].
Qed.

(** *** The daily series of the archive *)

Section archive.
Context {T : Type} (http_get : string -> T -> T * response bytes) (clock : M T string).
Context (namelist : bytes -> result (list string)) (read : bytes -> string -> result bytes).

Inductive daily_series : string -> ScalarType -> (Symbol -> Z -> M T (option (list Observation))) -> Prop :=
| daily_open_interest : daily_series "open_interest" OpenInterestObservation (fetch_open_interest_day fromisoformat http_get clock namelist read)
| daily_mark_price : daily_series "mark_price" MarkPriceObservation (fetch_mark_price_day fromisoformat http_get clock namelist read).

Lemma read_rows_all {A} url (of_row : string -> list (string * option string) -> result A) (Q : A -> Prop) s rows :
  (forall ingested row a, of_row ingested row = Ok a -> Q a) ->
  (read_rows http_get clock namelist read url of_row s).2 = Ok (Some rows) -> Forall Q rows.
Proof.
  intros Hq. unfold read_rows. rewrite run_bind. destruct (_fetch_zip_csv _ _ _ _ _ s) as [s1 [[data|]|]]; [|done..].
  rewrite run_bind. destruct (clock s1) as [s2 [ingested|]]; [|done]. rewrite !run_lift. destruct (decode_text data) as [text|]; [|done].
  rewrite run_lift. destruct (mapM _ _) as [l|] eqn:E; [|done]. cbn. intros [= <-]. apply mapM_Forall2 in E. clear -E Hq.
  induction E as [|row a rows l Ha _ IH]; [constructor|]. constructor; [|done]. destruct row as [row|]; [|done]. by apply (Hq ingested row).
Qed.

Lemma mk_Scalar_well_formed ty o x : mk_Symbol (sym_value (ob_symbol o)) = Ok (ob_symbol o) -> mk_Scalar fromisoformat ty o = Ok x ->
  type_of x = Series ty /\ well_formed x.
Proof.
  intros Hs Hx. pose proof Hx as Hx'. unfold mk_Scalar in Hx'. destruct (_validate_common _ _); [|done]. cbn [mbind result_bind] in Hx'.
  destruct (require _ _); [|done]. injection Hx' as <-. done.
Qed.

(** Whatever the archive serves, a row that is read is one the constructors accept. *)
Lemma daily_rows metric ty fetch symbol day s rows : daily_series metric ty fetch -> mk_Symbol (sym_value symbol) = Ok symbol ->
  (fetch symbol day s).2 = Ok (Some rows) -> Forall (fun o => type_of o = Series ty /\ well_formed o) rows.
Proof.
  intros [] Hs.
  - apply read_rows_all. intros ingested row a. destruct (malformed_row _) as [p|]; [|done]. cbn [mbind result_bind]. by apply mk_Scalar_well_formed.
  - unfold fetch_mark_price_day. rewrite run_bind. pose proof (read_rows_all (metrics_url symbol day) (mark_row fromisoformat symbol day)
      (fun o => match o with Some o => type_of o = Series MarkPriceObservation /\ well_formed o | None => True end) s) as Hr.
    destruct (read_rows _ _ _ _ _ _ s) as [s' [[l|]|]]; [|done..]. cbn. intros [= <-]. cbn [snd] in Hr. ospecialize (Hr l _ eq_refl).
    { intros ingested row a. unfold mark_row. destruct (metrics_row _ row) as [p|]; [|done]. cbn [mbind result_bind]. case_match; [by intros [= <-]|].
      unfold mark_of. destruct (ddiv _ _) as [price|]; [|done]. cbn [mbind result_bind]. destruct (mk_Scalar _ _ _) as [o|] eqn:E; [|done].
      cbn [mbind result_bind]. intros [= <-]. by apply mk_Scalar_well_formed in E. }
    induction Hr as [|o l Ho _ IH]; [constructor|]. destruct o as [o|]; cbn; [by constructor|done].
Qed.

(** The days a series covers. *)
Definition days_of_series (os : list Observation) : list Z := match _existing_days_covered fromisoformat os with Ok days => days | Err _ => [] end.

(** C40: a collection fills the gaps and nothing else. A daily collection from
    the archive that succeeds has fetched exactly the requested days no row of
    which was on disk (all of them when forced), in order, and after them made
    no other use of the web than to read the clock once; whatever the archive
    answered, the series is the old one merged with the rows of the answers;
    the counters, the time and the quality report say so. *)
Theorem collection_exact metric ty fetch outcome symbol start_date end_date root force t files t' files' r os name :
  daily_series metric ty fetch -> mk_Symbol (sym_value symbol) = Ok symbol ->
  series_filename metric symbol "binance" = Ok name ->
  let path := root +:+ "/" +:+ name in
  holds (Series ty) files path os ->
  collect_daily fromisoformat clock metric ty fetch outcome symbol start_date end_date root "binance" force (t, files) = ((t', files'), Ok r) ->
  let days := seqZ start_date (end_date - start_date + 1) in
  let fetched := missing (fun day => negb force && bool_decide (day ∈ days_of_series os)) days in
  exists answers t1, fetch_each (fetch symbol) fetched t = (t1, Ok answers) /\ clock t1 = (t', Ok (cr_collected_at_utc r)) /\
  let added := firsts (keys os) (published answers) in
  outcome = Written /\ holds (Series ty) files' path (series_of (os ++ added)) /\
  cr_periods_requested r = Z.of_nat (length days) /\ cr_periods_fetched r = Z.of_nat (length fetched) /\
  cr_periods_skipped r = cr_periods_requested r - cr_periods_fetched r /\
  cr_periods_unavailable r = absent answers /\ cr_rows_added r = Z.of_nat (length added) /\
  quality_of fromisoformat (series_of (os ++ added)) _OI_EXPECTED_INTERVAL_SECONDS = Ok (cr_quality_report r).
Proof.
  intros Hd Hsym Hname path Hh. unfold collect_daily. change (String.eqb "binance" "binance") with true. cbn [require]. rewrite run_lift.
  unfold require. destruct (start_date <=? end_date); [|done]. rewrite !run_lift Hname. fold path. rewrite run_bind. unfold load_at at 1.
  rewrite run_get /lift. cbn [snd]. rewrite (holds_load _ _ _ _ Hh).
  assert (Hcov : forall covered, covering force (_existing_days_covered fromisoformat os) = Ok covered ->
    forall day, covered day = negb force && bool_decide (day ∈ days_of_series os)).
  { unfold covering, days_of_series. destruct force; [by intros ? [= <-]|]. destruct (_existing_days_covered _ os) as [l|]; [|done].
    cbn [mbind result_bind]. by intros ? [= <-]. }
  rewrite run_bind. destruct (covering _ _) as [covered|] eqn:Ecov; [|done]. specialize (Hcov covered eq_refl). clear Ecov.
  set (days := seqZ _ _). replace (missing _ days) with (missing covered days) by (apply List.filter_ext; intros day; by rewrite Hcov).
  rewrite run_bind. unfold on_web, zoom, days_between. cbn [fst snd]. fold days. rewrite run_bind visit_all_spec.
  destruct (fetch_each _ _ t) as [t1 [answers|]] eqn:Ef; [|done]. rewrite run_lift.
  destruct (next_day end_date); [|done]. cbn [pg_requested pg_fetched pg_skipped pg_unavailable pg_rows no_progress mret M_ret app].
  set (rows := published answers).
  assert (Hnew : Forall (fun o => type_of o = Series ty /\ well_formed o) rows).
  { unfold rows, published. apply Forall_concat, Forall_map.
    eapply Forall_impl; [apply (fetch_each_answers _ (fun a => Forall (fun o => type_of o = Series ty /\ well_formed o) (default [] a))) in Ef; [exact Ef|]|done].
    intros day s [l|] E; [by eapply daily_rows|constructor]. }
  rewrite run_bind. unfold on_disk, zoom. cbn [fst snd].
  rewrite (merge_and_write_spec outcome path (Series ty) rows files os Hh Hnew). destruct outcome; try done. cbn [fst snd].
  pose proof (merged_ok (Series ty) os rows (proj1 Hh) Hnew) as Hok. set (files1 := <[path := _]> _).
  assert (Hw : holds (Series ty) files1 path (series_of (os ++ firsts (keys os) rows))) by (split; [done|]; left; by rewrite /files1 lookup_insert_eq).
  rewrite run_bind. unfold load_at. rewrite run_get /lift. cbn [snd]. rewrite (holds_load _ _ _ _ Hw). unfold collected, lift. rewrite !run_bind.
  destruct (quality_of _ _ _) as [q|] eqn:Eq; [|done]. rewrite run_bind. unfold on_web, zoom. cbn [fst snd]. destruct (clock t1) as [t2 [now|]] eqn:Ec; [|done].
  cbn [mret M_ret fst snd mr_added_count]. intros E; injection E as <- <- <-. exists answers, t1. split; [done|]. split; [done|].
  cbn. split_and!; try done; lia.
Qed.
End archive.
End history.

(** ** Checkpoints *)

Lemma checkpoint_roundtrip path key files files' : write_checkpoint Written path key files = (files', Ok tt) ->
  read_checkpoint (files' !! path) = Ok (Some key).
Proof.
  unfold write_checkpoint. destruct (blank key) eqn:Hb; [done|]. intros [= <-]. rewrite lookup_insert_eq. unfold read_checkpoint, checkpoint_text.
  rewrite (loads_dumps " "); [done|done|]. cbn. by destruct key.
Qed.

Lemma key_total a b : key_leb a b = true \/ key_leb b a = true.
Proof.
  unfold key_leb. rewrite (String.compare_antisym b.1 a.1). destruct (String.compare a.1 b.1); cbn; auto.
  destruct (Z.leb_spec a.2 b.2); [auto|right]. apply Z.leb_le. lia.
Qed.

Lemma key_trans a b c : key_leb a b = true -> key_leb b c = true -> key_leb a c = true.
Proof.
  unfold key_leb. destruct (String.compare a.1 b.1) eqn:E1; [| |done].
  - apply String.compare_eq_iff in E1 as ->. destruct (String.compare b.1 c.1); [|done..]. rewrite !Z.leb_le. lia.
  - intros _. destruct (String.compare b.1 c.1) eqn:E2; [| |done].
    + apply String.compare_eq_iff in E2 as <-. by rewrite E1.
    + intros _. by rewrite (str_lt_trans _ _ _ E1 E2).
Qed.

Lemma key_antisym a b : key_leb a b = true -> key_leb b a = true -> a = b.
Proof.
  destruct a as [a x], b as [b y]. unfold key_leb. cbn [fst snd]. rewrite (String.compare_antisym a b). destruct (String.compare b a) eqn:E; cbn; try done.
  apply String.compare_eq_iff in E as ->. rewrite !Z.leb_le. intros. f_equal. lia.
Qed.

Definition with_key (k : string) : result (string * Z * string) := s ← sort_key k; Ok (s, k).

Lemma with_keys_again l : Forall (fun p => sort_key p.2 = Ok p.1) l -> mapM with_key (map snd l) = Ok l.
Proof.
  induction 1 as [|[k x] l Hk _ IH]; [done|]. assert (Hx : with_key x = Ok (k, x)) by (unfold with_key; cbn in Hk; by rewrite Hk).
  cbn [map mapM snd]. rewrite Hx. cbn [mbind result_bind]. by rewrite IH.
Qed.

(** Resuming loses no hour and repeats none. With the hours of an archive in
    their order of processing, all distinct, those after a checkpoint are exactly
    those that come after it. *)
Theorem resume_exact keys before checkpoint after hours : keys_after_checkpoint keys None = Ok (before ++ checkpoint :: after) ->
  mapM sort_key (before ++ checkpoint :: after) = Ok hours -> NoDup hours ->
  keys_after_checkpoint keys (Some checkpoint) = Ok after.
Proof.
  unfold keys_after_checkpoint, sorted_on. fold with_key.
  destruct (mapM _ keys) as [keyed|] eqn:Ek; [|done]. cbn [mbind result_bind]. intros [= Hs] Hh Hn.
  pose proof (sorted_by_perm (fun p q => key_leb p.1 q.1) keyed) as Hp.
  pose proof (sorted_by_sorted (fun p q : string * Z * string => key_leb p.1 q.1) (fun p q => key_total p.1 q.1) keyed) as Hsort.
  assert (Hkey : Forall (fun p => sort_key p.2 = Ok p.1) (sorted_by (fun p q : string * Z * string => key_leb p.1 q.1) keyed)).
  { rewrite Hp. apply mapM_Forall2 in Ek. clear -Ek. induction Ek as [|x p l ps Hx _ IH]; [constructor|]. constructor; [|done].
    revert Hx. unfold with_key. destruct (sort_key x) as [k|] eqn:E; [|done]. cbn [mbind result_bind]. by intros [= <-]. }
  rewrite Hs. revert Hs Hsort Hkey. generalize (sorted_by (fun p q : string * Z * string => key_leb p.1 q.1) keyed). intros sorted Hs Hsort Hkey.
  assert (Hhours : hours = map fst sorted).
  { rewrite -Hs in Hh. apply mapM_Forall2, Forall2_fmap_l in Hh. clear -Hh Hkey. induction Hh as [|p h l hs Hp _ IH]; [done|]. inversion Hkey as [|?? Hx Hl]; subst.
    cbn [map]. rewrite -IH //. f_equal. congruence. }
  rewrite -Hs with_keys_again //. apply map_eq_app in Hs as (l1 & l2 & -> & <- & H2).
  destruct l2 as [|[limit c] l2]; [done|]. cbn [map snd] in H2. injection H2 as -> <-.
  assert (Hc : sort_key checkpoint = Ok limit) by (apply Forall_app in Hkey as [_ Hkey]; by inversion Hkey).
  rewrite Hc. cbn [mbind result_bind]. f_equal. rewrite List.filter_app. cbn [List.filter fst].
  apply Sorted_StronglySorted in Hsort; [|intros p q r; apply key_trans].
  assert (H1 : List.filter (fun p => negb (key_leb p.1 limit)) l1 = []).
  { clear -Hsort. induction l1 as [|p l1 IH]; [done|]. apply StronglySorted_inv in Hsort as [Hsort Hp]. cbn [List.filter].
    apply Forall_app in Hp as [_ Hp]. apply Forall_inv in Hp. cbn [fst] in Hp. rewrite Hp. auto. }
  assert (H2 : Forall (fun p => key_leb p.1 limit = false) l2).
  { clear -Hsort Hn Hhours. subst hours. rewrite map_app in Hn. cbn [map fst] in Hn. apply NoDup_app in Hn as (_ & _ & Hn). apply NoDup_cons in Hn as [Hn _].
    assert (Hs : Forall (fun q => key_leb limit q.1 = true) l2).
    { clear Hn. induction l1 as [|p l1 IH]; apply StronglySorted_inv in Hsort as [Hs Hp]; [done|by apply IH]. }
    eapply Forall_impl; [apply Forall_forall; intros q Hq; exact Hq|]. intros q Hq. destruct (key_leb q.1 limit) eqn:E; [|done]. destruct Hn.
    rewrite -(key_antisym q.1 limit E); [by eapply (proj1 (Forall_forall _ _) Hs)|]. by apply list_elem_of_fmap_2. }
  rewrite H1. replace (key_leb limit limit) with true by (symmetry; by destruct (key_total limit limit)). cbn [negb app].
  clear -H2. induction H2 as [|p l Hp _ IH]; [done|]. cbn [List.filter map]. rewrite Hp. cbn [negb map]. by rewrite IH.
Qed.

(** ** A concrete archive *)

Definition field (from len : nat) (s : string) : Z := digits_val 0 (str_take len (str_drop from s)).
Definition days_of (year month day : Z) : Z :=
  let y := if month <=? 2 then year - 1 else year in
  let doy := (153 * (month + (if month <=? 2 then 9 else -3)) + 2) / 5 + day - 1 in
  let yoe := y mod 400 in y / 400 * 146097 + yoe * 365 + yoe / 4 - yoe / 100 + doy - 306.

(** ISO dates in the one form the sources write, with or without microseconds. *)
Definition sample_iso (s : string) : result (Z * option Z) :=
  if slen s <? 19 then Err ValueError else
  let seconds := days_of (field 0 4 s) (field 5 2 s) (field 8 2 s) * 86400 + field 11 2 s * 3600 + field 14 2 s * 60 + field 17 2 s in
  let micros := if String.prefix "." (str_drop 19 s) then field 20 6 s else 0 in
  let zone := str_drop (if String.prefix "." (str_drop 19 s) then 26 else 19)%nat s in
  if String.eqb zone "" then Ok (seconds * 10 ^ 6 + micros, None) else
  let offset := (field 1 2 zone * 3600 + field 4 2 zone * 60) * 10 ^ 6 in
  Ok (seconds * 10 ^ 6 + micros, Some (if String.prefix "-" zone then - offset else offset)).

Example sample_iso_ex :
  map (fun t => sample_iso (isoformat t)) [0; 719162 * 86400 * 10 ^ 6; 738944 * 86400 * 10 ^ 6 + 49511000007; _DATETIMES - 1] =
  map (fun t => Ok (t, Some 0)) [0; 719162 * 86400 * 10 ^ 6; 738944 * 86400 * 10 ^ 6 + 49511000007; _DATETIMES - 1] /\
  (iso_of_ms 1700000000014, iso_of_ms 1700000000000) = (Ok "2023-11-14T22:13:20.014000+00:00", Ok "2023-11-14T22:13:20+00:00").
Proof. vm_compute. done. Qed.

Definition btc : Symbol := {| sym_value := "BTC" |}.
Definition open_interest (observed : string) (v : Z) (ingested : string) : Observation :=
  Observed OpenInterestObservation (point btc "binance" "BTCUSDT-metrics, a file" ingested observed (dint v)).
Notation noon := "2024-01-01T12:00:00.000000+00:00".
Notation later := "2024-01-01T12:05:00.000000+00:00".
Notation today := "2024-02-01T00:00:00+00:00".
Notation tomorrow := "2024-02-02T00:00:00+00:00".
Notation oi_type := (Series OpenInterestObservation).
Notation oi_path := "data/open_interest__BTC__binance.csv".

Lemma sample_rows : Forall (fun o => type_of o = oi_type /\ well_formed sample_iso o)
  [open_interest later 7 today; open_interest noon 5 today; open_interest noon 6 today].
Proof. repeat constructor; vm_compute; reflexivity. Qed.

Lemma empty_holds ty : holds sample_iso ty ∅ oi_path [].
Proof. split; [split; constructor|]. right. split; [apply lookup_empty|done]. Qed.

(** A merge into a new file, of two rows and one that contradicts the second. *)
Lemma merge_exact_witness :
  let new := [open_interest later 7 today; open_interest noon 5 today; open_interest noon 6 today] in
  exists files' r, merge_and_write sample_iso Written oi_path oi_type new ∅ = (files', Ok r) /\
  load sample_iso (files' !! oi_path) oi_type = Ok [open_interest noon 5 today; open_interest later 7 today] /\
  mr_added_count r = 2 /\ mr_conflict_keys r = [["BTC"; noon]].
Proof.
  intros new. pose proof (merge_exact sample_iso Written oi_path oi_type new ∅ [] (empty_holds _) sample_rows) as H. cbv zeta in H.
  destruct (merge_and_write sample_iso Written oi_path oi_type new ∅) as [files' [r|e]]; [|destruct H as (_ & Hne & _); by destruct Hne].
  destruct H as (_ & _ & _ & Hl & _ & Ha & _ & _ & Hc). exists files', r. split; [done|]. rewrite Hl Ha Hc; [|vm_compute; done].
  intros o known Ho Hk. repeat apply elem_of_cons in Ho as [->|Ho]; [vm_compute in Hk; injection Hk as <-; reflexivity..|].
  by apply elem_of_nil in Ho.
Defined.

(** The same value collected on another day is a conflict: the time of its
    collection is part of what is compared. *)
Example recollected_conflict :
  let '(files, _) := merge_and_write sample_iso Written oi_path oi_type [open_interest noon 5 today] ∅ in
  (merge_and_write sample_iso Written oi_path oi_type [open_interest noon 5 tomorrow] files).2 =
  Ok {| mr_existing_count := 1; mr_added_count := 0; mr_conflict_keys := [["BTC"; noon]] |}.
Proof. vm_compute. reflexivity. Qed.

(** A venue with hourly settlements. *)
Definition settlement_row (p : Z * string) : json := JObj [("coin", JStr "BTC"); ("fundingRate", JStr p.2); ("time", JInt p.1)].
Definition hourly (n : nat) : list (Z * string) := map (fun i => (1700000000014 + 3600000 * Z.of_nat i, "0.0000125")) (List.seq 0 n).
Definition sample_venue (end_ms : Z) (series : list (Z * string)) (request : list (string * json)) (calls : nat) : nat * response json :=
  (S calls, Body (JList (map settlement_row (take 500 (List.filter (within end_ms (match dget "startTime" request with Some (JInt t) => t | _ => 0 end)) series))))).
Definition sample_clock {T} : M T string := mret today.

Lemma fetch_range_complete_witness : exists os,
  (fetch_funding_rate_range sample_iso (sample_venue 1700010000000 (hourly 3)) sample_clock btc 1700000000000 1700010000000 0%nat).2 = Ok os /\
  Forall2 (settlement sample_iso btc 1700010000000 settlement_row today) (hourly 3) os.
Proof.
  apply (fetch_range_complete sample_iso (sample_venue 1700010000000 (hourly 3)) sample_clock btc 1700010000000 (hourly 3) settlement_row).
  - intros p. done.
  - repeat constructor.
  - intros cursor s. reflexivity.
  - done.
  - reflexivity.
  - repeat constructor; intros c; reflexivity.
Defined.

(** More settlements than a page holds take a second request. *)
Example second_page :
  let '(calls, r) := fetch_funding_rate_range sample_iso (sample_venue 1710000000000 (hourly 600)) sample_clock btc 1700000000000 1710000000000 0%nat in
  calls = 2%nat /\ match r with Ok os => length os = 600%nat | Err _ => False end.
Proof. vm_compute. done. Qed.

Definition new_year : Z := days_of 2024 1 1.

(** A bulk archive with the file of one day: its last row is the midnight that
    ends the day. A zip is its only member here. *)
Definition crlf : string := String carriage_return (String newline "").
Definition day_file : string :=
  "create_time,sum_open_interest,sum_open_interest_value" +:+ crlf +:+ "2024-01-01 12:00:00,5,210000" +:+ crlf
  +:+ "2024-01-02 00:00:00,7,301000" +:+ crlf.
Definition file_name (url : string) : string := List.last (split_char "/" url) "".
Definition sample_http (url : string) (asked : list string) : list string * response bytes :=
  let name := file_name url in
  if String.eqb name "BTCUSDT-metrics-2024-01-01.zip" || String.eqb name "BTCUSDT-metrics-2024-01-02.zip"
  then (asked ++ [name], Body (encode day_file))
  else if String.prefix "BTCUSDT-metrics-2024-01-0" name then (asked, Body (encode (hex (sha256 (encode day_file)) +:+ "  " +:+ name)))
  else (asked ++ [name], HttpError 404).
Definition one_member (zip : bytes) : result (list string) := Ok ["metrics.csv"].
Definition member (zip : bytes) (name : string) : result bytes := Ok zip.

Notation collect_oi := (collect_open_interest sample_iso sample_http sample_clock one_member member Written btc).
Notation collect_both := (collect_metrics sample_iso sample_http sample_clock one_member member Written Written btc).

Definition downloaded (observed : string) (v : Z) : Observation :=
  Observed OpenInterestObservation (point btc "binance" (metrics_name btc new_year) today observed (dint v)).

(** A new series, and a second collection of a day more: the covered days are
    not asked for again. *)
Lemma collection_exact_witness : exists files' r,
  collect_oi new_year new_year "data" "binance" false ([], ∅) = ((["BTCUSDT-metrics-2024-01-01.zip"], files'), Ok r) /\
  load sample_iso (files' !! oi_path) oi_type = Ok [downloaded noon 5; downloaded "2024-01-02T00:00:00.000000+00:00" 7] /\
  cr_periods_fetched r = 1 /\ cr_periods_unavailable r = 0 /\ cr_rows_added r = 2.
Proof.
  destruct (collect_oi new_year new_year "data" "binance" false ([], ∅)) as [[asked files'] r] eqn:E.
  assert (Hr : exists x, r = Ok x) by (assert (Hok : is_ok r = true) by (change r with ((asked, files'), r).2; rewrite -E; vm_compute; reflexivity); by destruct r; [eexists|]).
  destruct Hr as [x ->].
  assert (Ha : asked = ["BTCUSDT-metrics-2024-01-01.zip"]) by (change asked with (((asked, files'), Ok x : result CollectionResult).1.1); rewrite -E; vm_compute; reflexivity).
  exists files', x. split; [by rewrite Ha|]. clear Ha.
  pose proof (collection_exact sample_iso sample_http sample_clock one_member member "open_interest" OpenInterestObservation _ Written btc
    new_year new_year "data" false [] ∅ asked files' x [] "open_interest__BTC__binance.csv" (daily_open_interest _ _ _ _ _)) as H.
  destruct H as (answers & t1 & Hf & _ & _ & Hh & _ & Hn & _ & Hu & Ha & _); [reflexivity|reflexivity|apply empty_holds|exact E|].
  vm_compute in Hf. injection Hf as _ <-.
  change ("data" +:+ "/" +:+ "open_interest__BTC__binance.csv") with oi_path in Hh. rewrite (holds_load _ _ _ _ _ Hh) Hn Hu Ha. split_and!; vm_compute; reflexivity.
Defined.

(** The file of a day that ends with the midnight after it covers the next day,
    too: that one is never asked for. *)
Example midnight_covers_next_day :
  let '((asked, files), first) := collect_oi new_year new_year "data" "binance" false ([], ∅) in
  let '((asked, files), second) := collect_oi new_year (new_year + 1) "data" "binance" false (asked, files) in
  asked = ["BTCUSDT-metrics-2024-01-01.zip"] /\
  match first, second with
  | Ok a, Ok b => cr_rows_added a = 2 /\ cr_periods_fetched b = 0 /\ cr_periods_skipped b = 2
  | _, _ => False
  end.
Proof. vm_compute. done. Qed.

(** Once the open interest of a day was collected alone, the pass for both series
    skips the day: its mark prices are never collected. *)
Example marks_never_collected :
  let '((asked, files), _) := collect_oi new_year new_year "data" "binance" false ([], ∅) in
  let '((_, files), r) := collect_both new_year new_year "data" false (asked, files) in
  match r with
  | Ok (oi, mark) => cr_periods_skipped mark = 1 /\ cr_rows_added mark = 0 /\ cr_quality_report mark = None /\
                     load sample_iso (files !! "data/mark_price__BTC__binance.csv") (Series MarkPriceObservation) = Ok []
  | Err _ => False
  end.
Proof. vm_compute. done. Qed.

(** When the transport fails on a later day, the days fetched before it are lost. *)
Example earlier_days_lost :
  let failing := fun url asked => if String.prefix "BTCUSDT-metrics-2024-01-02" (file_name url) then (asked, UrlError) else sample_http url asked in
  let '((asked, files), r) :=
    collect_open_interest sample_iso failing sample_clock one_member member Written btc new_year (new_year + 1) "data" "binance" false ([], ∅) in
  asked = ["BTCUSDT-metrics-2024-01-01.zip"] /\ r = Err HistoricalDataError /\ files = ∅.
Proof. vm_compute. done. Qed.
